(* ===== verification/_CoqProject ===== *)
-Q . S2P
Prelude.v
Numbers.v
Json.v
Dates.v
Effects.v
Moderation.v
ModerationWebhook.v
Tipping.v
TipReconciliation.v
Idempotency.v
CacheManager.v
Lockout.v
InvocationPolicy.v
RateLimit.v
JobQueue.v
Delivery.v
Notifications.v
Outbox.v
Mailer.v
Reactions.v
Base64.v
Encryption.v
ContentEncryption.v
Cursor.v
Confessions.v
Feed.v
FeedWalk.v
KeyRotation.v
AnonymousUser.v
Auth.v
PasswordReset.v
Reports.v
MessageCrypto.v
MessageClient.v
Messages.v
MessageSafety.v
Csv.v
DataExport.v
ExportWorker.v
ExportSafety.v
Comments.v
CommentSafety.v
JobManagement.v
JobSafety.v
Templates.v
EmailService.v
EmailSafety.v
Redaction.v
AuditLog.v
AuditSafety.v
Accounts.v
AdminUsers.v
AccountSafety.v
Drafts.v
FeatureFlags.v
ChainEvents.v
StellarErrors.v
AnchorWorker.v
