(* ===== verification/Prelude.v ===== *)
(** * Xconfess: a verification library

    Xconfess is an anonymous confession platform: a NestJS backend
    ([src/xconfess-backend/src/]), a Next.js frontend and a set of Soroban
    contracts.  This development models the services of the backend that decide
    something - who may do what, what is stored, what is shown, what is paid, what is
    sent - with the end-to-end encryption of the browser, and proves what makes them
    correct, or shows where they are not.

    ** The program and the files

    Every definition that translates code carries a comment
    [[src path:first-last symbol]], the path being relative to
    [src/xconfess-backend/src/], or to [src/] where it starts there.

    - Foundations.  Prelude: strings, lists and sorting as JavaScript has them,
      the hint databases and tactics.  Numbers: JavaScript numbers and their
      literals.  Json: values, their text and how it is read.  Dates: UTC dates and
      [toISOString].  Effects: asynchronous handlers as programs over a shared store,
      their sequential semantics [run], the interleaving of several requests
      [pool_step], and the logics every concurrent theorem is proved with: [rg]
      (rely/guarantee), [safe] (one invariant and a fact about the answer), and
      [tame] and [lasting] (requests that may all do the same, and facts that nothing
      undoes).
    - Interfaces to libraries, each with its laws and an instance that keeps them:
      CacheManager (the injected cache, Redis), JobQueue (BullMQ), and the classes of
      Encryption (AES-GCM), ContentEncryption (AES-CBC), MessageCrypto (Web Crypto) and
      Auth (JWT).
    - Moderation ([moderation/]).  Moderation: the state machine of a review, the
      classifier and its request window, the log repository.  ModerationWebhook:
      the provider's signed callback, which runs the repository inside its
      transaction.
    - Tips ([tipping/]).  Tipping: amounts, assets and [verifyAndRecordTip].
      TipReconciliation: the cron, the operator run and the SLA sweep on the same
      table, run together with the verify requests.
    - Confessions ([confession/], [common/pagination/], [confession-draft/]).
      Idempotency: exactly-once creation.  Cursor: opaque cursors and the order of the
      feed.  Confessions: edits, removal, scheduling, anchors and single views with
      their caches.  Feed: the lists, over Confessions and Cursor, and all requests on
      a confession beside one another; FeedWalk: a client that follows the cursors.
      Drafts: drafts, their versions, and the jobs that publish them.
    - Comments and reports ([comment/], [report/], [admin/]).  Comments and
      CommentSafety; Reports, with the report routes of administrators.
    - Messages ([messages/]).  MessageCrypto and MessageClient: the end-to-end
      encryption on the server and in the browser.  Messages and MessageSafety: the
      threads, over AnonymousUser's identities.
    - Users ([user/], [auth/], [admin/]).  AnonymousUser: identities and their sessions.
      Lockout: failure counters and session revocation, over CacheManager.  Auth:
      login, tokens, second factors, step-up proofs, and how sockets verify a token.
      PasswordReset: reset tokens, over Auth's users.  RateLimit and InvocationPolicy:
      the guards of the message routes and of the contract invocation route.  Accounts,
      AdminUsers and AccountSafety: registration, settings, deletion, bans and roles.
    - Notifications and mails ([notifications/], [reaction/], [email/]).  Reactions: the
      writer of reactions, which records an outbox event beside each.  Notifications:
      preferences, the feed, and the jobs handed to the queue.  Outbox: the
      dispatcher that claims events and calls [Notifications.enqueueNotification].
      Delivery: the worker of the queue with its lock and marker.  JobManagement and
      JobSafety: its dead letters and their replay.  Mailer: what the worker sends.
      Templates, EmailService and EmailSafety: templates, their rollout, and two
      providers behind a circuit breaker.
    - Contents and exports ([encryption/], [key-rotation/], [data-export/]).  Base64:
      buffers.  Encryption: envelopes and key loading.  KeyRotation: rewrapping every
      data key.  ContentEncryption: the stored form of a confession.  Csv, DataExport,
      ExportWorker and ExportSafety: archives, their links, and what is in them.
    - Audit and flags ([audit-log/], [feature-flags/]).  Redaction, AuditLog and
      AuditSafety; FeatureFlags.
    - Stellar ([stellar/]).  ChainEvents: the events of the contracts.  StellarErrors:
      codes and retries.  AnchorWorker: the reconciliation of anchors, over both
      StellarErrors and ContentEncryption.

    ** What the theorems show

    - Concurrency.  Requests of the same service, of its cron jobs and of other
      instances interleave at every await.  Once only: [single_credit],
      [create_agreement], [reset_token_single_use], [reactions_unique],
      [create_notification_once], [message_sent_once], [comment_once], [link_opens_once],
      [mail_accepted_once], [jobs_post_once].  Nothing lost: [outbox_no_loss],
      [acknowledged_delivered], [replay_loses_nothing].  Nothing shown or gained that
      must not be: [deleted_stays_gone], [messages_private], [export_hides],
      [anonymous_identity_private], [admin_power_audited], [anchored_confirmed].  Decisions:
      [transitions_audited_walk], [decisions_final], [decision_atomic], [flags_stay_valid].
      Each is an invariant of [pool_step] proved by rule induction, with the
      postcondition of every response, or is a statement about two runs.
    - Contracts.  [handleOutbox_refines]: the dispatcher implements a queue;
      [webhook_change_authentic], [step_up_proof], [registration_spec],
      [versioned_update], [anchor_transitions], [audit_entry_blind], [parse_exact]: what
      an operation does on every branch.
    - Termination and bounds.  [rotation_complete], [feed_walk_exact], [circuit_closes],
      [rate_limit_bound], [submission_bounded].
    - Round trips.  [envelope_roundtrip], [e2e_end_to_end], [csv_read_back]; and
      [render_injects_nothing].
    - Further theorems of the files, on operations beside these: [login_session],
      [reset_flow], [five_failures_lock], [moderateContent_decision],
      [moderateContent_window], [processTransactionData_spec], [sweep_effective],
      [anchor_guard_exact], [revocation_outlives_tokens], [outbox_drains],
      [contract_error_answered] and others.
    - Behaviour nobody asked for, stated as what it is: [route_never_locks] (the
      lockout never triggers), [proof_opens_sockets] (a step-up proof opens a socket),
      [removed_row_answered] (who schedules a removed confession is answered with it),
      [deletion_erases_grant], [entity_column_unredacted], [admins_decide_twice],
      [outage_anchors_again] and the other theorems at the end of each file.

    Where a theorem is about some requests only, its comment says which: transitions of
    a moderation log that the state machine makes (a review and a callback write a
    status beside it); an administrator's power without the settings route, which
    writes any column; anchors without the routes that anchor on request.

    ** How the code is read

    - A method that awaits is a [prog]: each awaited repository, cache or queue call
      is one atomic access.  A statement, or a transaction that holds its rows, is
      atomic; two awaits are not.  A transaction that reaches its end commits.  Unique
      indexes are checked by the access that writes.  Tables are finite maps or lists in
      insertion order.
    - The clock is read once per method or is part of the world; generated ids, random
      bytes and the answers of remote services are inputs of a request or part of the
      world: theorems hold for all of them.
    - Cryptography (SHA-256, HMAC, bcrypt, AES, TOTP, JWT, Web Crypto) and the HTML
      sanitiser are parameters with the laws that are used as hypotheses:
      injectivity of the hash, [verify (sign x) = x], [decrypt (encrypt x) = x];
      every witness instantiates them with concrete functions.  JSON is printed and
      read by the definitions of Json; a few files of the older parts (Auth, Tipping)
      take it as a parameter.
    - Strings are sequences of 8-bit code units.  Numbers are exact rationals with
      [NaN] and the infinities; see Numbers for why rounding does not matter to
      the comparisons made.  Dates are UTC.
    - Log lines and metrics are left out, except where a row of an audit table is
      the result.  [AuditLogService.log] swallows its errors, so that an audit entry may
      be missing: a transition request of Moderation carries whether its entry is taken.
      What deleting an account does to its audit entries is a parameter of Accounts, since
      the entity and the migration differ.

    ** Fuel and bounds

    [waitForProcessing] polls [MAX_POLLS] = 50 times, as the code's five seconds over
    100 ms; fuel counts the rounds of record take-overs, and the theorems hold for
    all of it.  [rotate_batches] is given more fuel than there are rows, which
    [rotation_complete] proves to be enough; the loop over [ENCRYPTION_KEY_V<n>]
    gets one step more than the configuration has entries, which
    [key_loading_terminates] proves enough.  Walks along cursors are given as many pages
    as the theorems say.  Regular-expression scanners recurse on the string.

    ** Not modelled

    The pages of the frontend, its proxies and wallets; the Rust contracts;
    configuration, migrations but for the indexes and keys the theorems use, modules and
    dependency injection; DTO validation by decorators but for what the comments name;
    logging, health and metrics; rooms and limits of sockets; search, analytics, tags,
    bookmarks, attachments and anomalies; the settings of Stellar and the encodings of its
    SDK; the reconciliation of reputation, which changes nothing; the lookup of mail
    recipients.  Of the modelled services: QR codes and the generation of recovery codes in
    Auth, the cached counters of reactions, and [decryptLegacy] of Encryption. *)
From stdpp Require Export base gmap strings list fin_maps.
From Stdlib Require Export ZArith Lia.
From Stdlib Require Ascii.
Export Ascii.AsciiSyntax.
Delimit Scope char_scope with char.

Declare Scope xconfess_scope.
Delimit Scope xconfess_scope with xc.
Open Scope xconfess_scope.

Create HintDb xconfess.
Create Rewrite HintDb xconfess.

(** ** JavaScript values

    Times are milliseconds since the epoch ([Date.now()], [getTime()]).
    Strings are sequences of 8-bit code units. *)
Abbreviation ms := Z (only parsing).

(** Boolean equality of strings, JavaScript's [===] on strings. *)
Definition str_eqb (a b : string) : bool := bool_decide (a = b).
Infix "=s?" := str_eqb (at level 70, no associativity) : xconfess_scope.

(** JavaScript truthiness of a string, of an optional string and of an
    optional number. *)
Definition truthy (s : string) : bool := negb (str_eqb s "").
Definition truthy_opt (o : option string) : bool := from_option truthy false o.
Definition truthy_num (n : Z) : bool := negb (n =? 0)%Z.

(** [xs.includes(x)] on an array of strings. *)
Definition includes (x : string) (xs : list string) : bool := existsb (str_eqb x) xs.

(** ASCII case folding, [String.prototype.toLowerCase] and [toUpperCase]. *)
Definition lower_ascii (c : Ascii.ascii) : Ascii.ascii :=
  let n := Ascii.nat_of_ascii c in
  if (65 <=? n)%nat && (n <=? 90)%nat then Ascii.ascii_of_nat (n + 32) else c.
Definition upper_ascii (c : Ascii.ascii) : Ascii.ascii :=
  let n := Ascii.nat_of_ascii c in
  if (97 <=? n)%nat && (n <=? 122)%nat then Ascii.ascii_of_nat (n - 32) else c.

Fixpoint str_map (f : Ascii.ascii -> Ascii.ascii) (s : string) : string :=
  match s with
  | EmptyString => EmptyString
  | String c s' => String (f c) (str_map f s')
  end.
Definition to_lower : string -> string := str_map lower_ascii.
Definition to_upper : string -> string := str_map upper_ascii.

(** [s.startsWith(p)]. *)
Fixpoint starts_with (p s : string) : bool :=
  match p, s with
  | EmptyString, _ => true
  | String a p', String b s' => Ascii.eqb a b && starts_with p' s'
  | String _ _, EmptyString => false
  end.

(** [s.includes(p)]. *)
Fixpoint contains_str (p s : string) : bool :=
  starts_with p s ||
  match s with
  | EmptyString => false
  | String _ s' => contains_str p s'
  end.

(** [s.split(c)] for a one-character separator. *)
Fixpoint split_on (c : Ascii.ascii) (s : string) : list string :=
  match s with
  | EmptyString => [EmptyString]
  | String a s' =>
      if Ascii.eqb a c then EmptyString :: split_on c s'
      else match split_on c s' with
           | [] => [String a EmptyString]
           | w :: ws => String a w :: ws
           end
  end.

(** [buf.subarray(i, j)] and [buf.subarray(i)], within bounds or not. *)
Fixpoint take_str (n : nat) (s : string) : string :=
  match n, s with S n', String c s' => String c (take_str n' s') | _, _ => EmptyString end.
Fixpoint skip_str (n : nat) (s : string) : string :=
  match n, s with S n', String _ s' => skip_str n' s' | _, _ => s end.

(** [parts.join(sep)]. *)
Fixpoint join_with (sep : string) (parts : list string) : string :=
  match parts with
  | [] => ""
  | [p] => p
  | p :: ps => p +:+ sep +:+ join_with sep ps
  end.

(** Whitespace and [s.trim()]. *)
Definition is_space (c : Ascii.ascii) : bool :=
  let n := Ascii.nat_of_ascii c in
  ((9 <=? n)%nat && (n <=? 13)%nat) || (n =? 32)%nat || (n =? 160)%nat.
Fixpoint trim_start (s : string) : string :=
  match s with
  | EmptyString => EmptyString
  | String c s' => if is_space c then trim_start s' else s
  end.
Fixpoint all_space (s : string) : bool :=
  match s with
  | EmptyString => true
  | String c s' => is_space c && all_space s'
  end.
Fixpoint trim_end (s : string) : string :=
  match s with
  | EmptyString => EmptyString
  | String c s' => if all_space s then EmptyString else String c (trim_end s')
  end.
Definition trim (s : string) : string := trim_end (trim_start s).

(** Does every (some) code unit of [s] satisfy [f]: the anchored regular
    expressions of one character class the code uses. *)
Fixpoint str_forall (f : Ascii.ascii -> bool) (s : string) : bool :=
  match s with
  | EmptyString => true
  | String c s' => f c && str_forall f s'
  end.
Definition between (lo hi : Ascii.ascii) (c : Ascii.ascii) : bool :=
  (Ascii.nat_of_ascii lo <=? Ascii.nat_of_ascii c)%nat
  && (Ascii.nat_of_ascii c <=? Ascii.nat_of_ascii hi)%nat.

(** [ORDER BY]: stable insertion sort by a total preorder. *)
Fixpoint insert_sorted {A} (le : A -> A -> bool) (x : A) (l : list A) : list A :=
  match l with
  | [] => [x]
  | y :: l' => if le x y then x :: l else y :: insert_sorted le x l'
  end.
Definition insertion_sort {A} (le : A -> A -> bool) (l : list A) : list A :=
  foldr (insert_sorted le) [] l.

(** JavaScript's [<=] on strings. *)
Fixpoint str_le (a b : string) : bool :=
  match a, b with
  | EmptyString, _ => true
  | String _ _, EmptyString => false
  | String c a', String d b' =>
      let n := Ascii.nat_of_ascii c in let m := Ascii.nat_of_ascii d in
      (n <? m)%nat || ((n =? m)%nat && str_le a' b')
  end.

(** ** Record updates

    [r <| f := v |>] is [r] with field [f] replaced: the assignment [r.f = v]
    and the partial [update(id, { f: v })].  A record takes part by an [Eta]
    instance that lists its fields. *)
Class Eta (R : Type) := eta : R -> R.
Class Setter {R E : Type} (proj : R -> E) := set_field : (E -> E) -> R -> R.

Ltac derive_setter proj :=
  match type of proj with
  | ?R -> ?E =>
      let inst := constr:(_ : Eta R) in
      let body := eval cbv beta delta [eta] in inst in
      let body := eval red in body in
      match eval pattern proj in body with
      | ?rebuild _ => exact (fun (f : E -> E) => rebuild (fun r => f (proj r)))
      end
  end.
#[export] Hint Extern 1 (Setter ?proj) => derive_setter proj : typeclass_instances.
#[global] Arguments set_field {R E} proj {_} _ _ : simpl nomatch.

Notation "r <| proj := v |>" := (set_field proj (fun _ => v) r)
  (at level 12, left associativity, proj constr at level 9) : xconfess_scope.
Notation "r <| proj ::= f |>" := (set_field proj f r)
  (at level 12, left associativity, proj constr at level 9) : xconfess_scope.

(** ** Bounded 32-bit integers: ToInt32, the result of [x & x] and [x << n]. *)
Definition to_int32 (x : Z) : Z :=
  let m := (x mod 2 ^ 32)%Z in
  if (2 ^ 31 <=? m)%Z then (m - 2 ^ 32)%Z else m.
Definition shl32 (x n : Z) : Z := to_int32 (Z.shiftl (to_int32 x) n).

(** ** Generic lemmas *)
Lemma str_eqb_eq a b : str_eqb a b = true <-> a = b.
Proof. apply bool_decide_eq_true. Qed.

Lemma str_eqb_neq a b : str_eqb a b = false <-> a <> b.
Proof. apply bool_decide_eq_false. Qed.

Lemma str_eqb_refl a : str_eqb a a = true.
Proof. by apply str_eqb_eq. Qed.

Lemma str_eqb_spec a b : reflect (a = b) (str_eqb a b).
Proof. apply bool_decide_reflect. Qed.

Lemma includes_spec x xs : includes x xs = true <-> x ∈ xs.
Proof.
  unfold includes. rewrite existsb_exists. setoid_rewrite list_elem_of_In.
  split; [intros (y & ? & ->%str_eqb_eq); done | intros ?; exists x; by rewrite str_eqb_refl].
Qed.

Lemma to_int32_range x : (- 2 ^ 31 <= to_int32 x < 2 ^ 31)%Z.
Proof.
  unfold to_int32. pose proof (Z.mod_pos_bound x (2 ^ 32) eq_refl).
  destruct (Z.leb_spec (2 ^ 31) (x mod 2 ^ 32)); lia.
Qed.

Lemma to_int32_id x : (- 2 ^ 31 <= x < 2 ^ 31)%Z -> to_int32 x = x.
Proof.
  intros Hx. unfold to_int32. destruct (Z.leb_spec (2 ^ 31) (x mod 2 ^ 32)) as [H|H].
  - destruct (decide (0 <= x)%Z); [rewrite Z.mod_small in H; lia|].
    rewrite <- (Z.mod_unique x (2^32) (-1) (x + 2^32)); lia.
  - destruct (decide (0 <= x)%Z); [rewrite Z.mod_small; lia|].
    rewrite <- (Z.mod_unique x (2^32) (-1) (x + 2^32)) in H; lia.
Qed.

Lemma str_app_cons c a b : String c a +:+ b = String c (a +:+ b).
Proof. reflexivity. Qed.

Lemma str_app_nil b : EmptyString +:+ b = b.
Proof. reflexivity. Qed.

Lemma str_app_assoc (a b c : string) : (a +:+ b) +:+ c = a +:+ (b +:+ c).
Proof. induction a as [|d a IH]; [done|]. by rewrite !str_app_cons, IH. Qed.

Lemma str_app_empty_r (s : string) : s +:+ "" = s.
Proof. induction s as [|c s IH]; [done|]. by rewrite str_app_cons, IH. Qed.

Lemma join_with_cons sep p q ps : join_with sep (p :: q :: ps) = p +:+ (sep +:+ join_with sep (q :: ps)).
Proof. done. Qed.

Lemma str_app_inj (a b b' : string) : a +:+ b = a +:+ b' -> b = b'.
Proof. induction a as [|d a IH]; [done|]. rewrite !str_app_cons. intros [= H]. by apply IH. Qed.

Lemma take_str_app n a b : String.length a = n -> take_str n (a +:+ b) = a.
Proof.
  revert a; induction n as [|n IH]; intros [|c a]; cbn; intros H; try done.
  rewrite str_app_cons. cbn. by rewrite IH by lia.
Qed.
Lemma skip_str_app n a b : String.length a = n -> skip_str n (a +:+ b) = b.
Proof.
  revert a; induction n as [|n IH]; intros [|c a]; cbn; intros H; try done.
  rewrite str_app_cons. cbn. by rewrite IH by lia.
Qed.

Lemma length_str_app (a b : string) : String.length (a +:+ b) = (String.length a + String.length b)%nat.
Proof. induction a as [|c a IH]; [done|]. rewrite str_app_cons. cbn. by rewrite IH. Qed.

Lemma str_forall_app f a b : str_forall f (a +:+ b) = str_forall f a && str_forall f b.
Proof.
  induction a as [|c a IH]; [done|].
  rewrite str_app_cons. cbn. rewrite IH. by destruct (f c).
Qed.

Lemma starts_with_app p s : starts_with p (p +:+ s) = true.
Proof.
  induction p as [|c p IH]; [done|].
  rewrite str_app_cons. cbn. by rewrite Ascii.eqb_refl.
Qed.

Lemma starts_with_inv p s : starts_with p s = true -> exists t, s = p +:+ t.
Proof.
  revert s; induction p as [|c p IH]; intros s H; cbn in *; [by exists s|].
  destruct s as [|d s]; [done|].
  apply andb_true_iff in H as [->%Ascii.eqb_eq [t ->]%IH]. by exists t.
Qed.

(** A separator that does not occur in the prefixes splits a string in one
    way only. *)
Lemma sep_inj (c : Ascii.ascii) (a a' b b' : string) :
  str_forall (fun d => negb (Ascii.eqb d c)) a = true ->
  str_forall (fun d => negb (Ascii.eqb d c)) a' = true ->
  a +:+ String c b = a' +:+ String c b' -> a = a' /\ b = b'.
Proof.
  revert a'; induction a as [|d a IH]; intros [|d' a'] Ha Ha' H;
    rewrite ?str_app_cons, ?str_app_nil in H; cbn in Ha, Ha'.
  - by simplify_eq.
  - simplify_eq. by rewrite Ascii.eqb_refl in Ha'.
  - simplify_eq. by rewrite Ascii.eqb_refl in Ha.
  - simplify_eq. apply andb_true_iff in Ha as [_ Ha]. apply andb_true_iff in Ha' as [_ Ha'].
    by destruct (IH a' Ha Ha' ltac:(done)) as [-> ->].
Qed.

(** A separator that is in neither of the parts that follow it. *)
Lemma sep_inj_r c (a b a' b' : string) :
  str_forall (fun d => negb (Ascii.eqb d c)) b = true ->
  str_forall (fun d => negb (Ascii.eqb d c)) b' = true ->
  a +:+ String c b = a' +:+ String c b' -> a = a' /\ b = b'.
Proof.
  intros Hb Hb'.
  assert (forall x y : string, str_forall (fun d => negb (Ascii.eqb d c)) (x +:+ String c y) = false) as Hno.
  { intros x y. rewrite str_forall_app. cbn. rewrite Ascii.eqb_refl. apply andb_false_r. }
  revert a'; induction a as [|d a IH]; intros [|d' a'] H; rewrite ?str_app_cons, ?str_app_nil in H; simplify_eq.
  - done.
  - by rewrite Hno in Hb.
  - by rewrite Hno in Hb'.
  - by destruct (IH a' ltac:(done)) as [-> ->].
Qed.

Lemma str_le_cons x a y b :
  str_le (String x a) (String y b) = true <->
  (Ascii.nat_of_ascii x < Ascii.nat_of_ascii y)%nat
  \/ Ascii.nat_of_ascii x = Ascii.nat_of_ascii y /\ str_le a b = true.
Proof. rewrite <- Nat.ltb_lt, <- Nat.eqb_eq, <- andb_true_iff, <- orb_true_iff. done. Qed.
Lemma str_le_trans a b c : str_le a b = true -> str_le b c = true -> str_le a c = true.
Proof.
  revert b c; induction a as [|x a IH]; intros [|y b] [|z c]; try done.
  rewrite !str_le_cons.
  intros [Hxy|[Hxy Hab]] [Hyz|[Hyz Hbc]]; try (left; lia). right. split; [lia|by eapply IH].
Qed.
Lemma str_le_total a b : str_le a b || str_le b a = true.
Proof.
  apply orb_true_iff. revert b; induction a as [|x a IH]; intros [|y b]; [by left..|by right|].
  rewrite !str_le_cons. destruct (Nat.lt_total (Ascii.nat_of_ascii x) (Ascii.nat_of_ascii y)) as [?|[?|?]]; [tauto| |tauto].
  destruct (IH b); [left|right]; right; done.
Qed.

Lemma elem_of_insert_sorted {A} (le : A -> A -> bool) x y l :
  y ∈ insert_sorted le x l <-> y = x \/ y ∈ l.
Proof.
  induction l as [|z l IH]; cbn; [set_solver|].
  destruct (le x z); [set_solver|]. rewrite !elem_of_cons, IH. naive_solver.
Qed.

Lemma elem_of_insertion_sort {A} (le : A -> A -> bool) x l : x ∈ insertion_sort le l <-> x ∈ l.
Proof.
  induction l as [|z l IH]; cbn; [done|].
  rewrite elem_of_insert_sorted, elem_of_cons. unfold insertion_sort in IH. by rewrite IH.
Qed.

Lemma insert_sorted_perm {A} (le : A -> A -> bool) x l : insert_sorted le x l ≡ₚ x :: l.
Proof. induction l as [|y l IH]; cbn; [done|]. destruct (le x y); [done|]. rewrite IH. by apply Permutation_swap. Qed.
Lemma insertion_sort_perm {A} (le : A -> A -> bool) l : insertion_sort le l ≡ₚ l.
Proof. induction l as [|x l IH]; cbn; [done|]. rewrite insert_sorted_perm. by constructor. Qed.

(** [ORDER BY ... LIMIT 1]. *)
Lemma head_insert_sorted {A} (le : A -> A -> bool) x l :
  head (insert_sorted le x l) =
  match head l with Some h => if le x h then Some x else Some h | None => Some x end.
Proof. destruct l as [|h l']; cbn; [done|]. by destruct (le x h). Qed.

Lemma insertion_sort_cons {A} (le : A -> A -> bool) x l :
  insertion_sort le (x :: l) = insert_sorted le x (insertion_sort le l).
Proof. done. Qed.

Lemma head_insertion_sort_elem {A} (le : A -> A -> bool) l x :
  head (insertion_sort le l) = Some x -> x ∈ l.
Proof. intros H. apply (elem_of_insertion_sort le). destruct (insertion_sort le l); cbn in H; set_solver. Qed.

(** The first row of a query is the first row of a weaker one, when it passes
    the stronger filter. *)
Lemma head_sort_filter {A} (le : A -> A -> bool) (f g : A -> bool) (l : list A) :
  (forall x y, le x y || le y x = true) ->
  (forall x, g x = true -> f x = true) ->
  (forall x y, f x = true -> f y = true -> le x y = true -> g y = true -> g x = true) ->
  head (insertion_sort le (List.filter g l)) =
  match head (insertion_sort le (List.filter f l)) with
  | Some x => if g x then Some x else None
  | None => None
  end.
Proof.
  intros Htot Hgf Hup. induction l as [|x l IH]; [done|]. cbn [List.filter].
  pose proof (head_insertion_sort_elem le (List.filter f l)) as Hhead.
  destruct (f x) eqn:Hf.
  2: { destruct (g x) eqn:Hg; [rewrite Hgf in Hf; done|]. apply IH. }
  rewrite insertion_sort_cons, head_insert_sorted.
  destruct (g x) eqn:Hg; rewrite ?insertion_sort_cons, ?head_insert_sorted, IH;
    (destruct (head (insertion_sort le (List.filter f l))) as [h|]; [|by rewrite ?Hg]);
    specialize (Hhead h eq_refl); apply list_elem_of_In, filter_In in Hhead as [_ Hfh];
    destruct (le x h) eqn:Hle, (g h) eqn:Hgh; rewrite ?Hg, ?Hgh, ?Hle; try done.
  - pose proof (Htot x h) as Hor. rewrite Hle in Hor. by rewrite (Hup h x) in Hgh.
  - by rewrite (Hup x h) in Hg.
Qed.

(** A sort by a total preorder is sorted, and commutes with filters. *)
Section sorting.
Context {A : Type} (le : A -> A -> bool).
Context (le_total : forall x y, le x y || le y x = true) (le_trans : forall x y z, le x y = true -> le y z = true -> le x z = true).

Fixpoint sorted_by (l : list A) : Prop :=
  match l with
  | [] => True
  | x :: l' => (forall y, y ∈ l' -> le x y = true) /\ sorted_by l'
  end.

Lemma insert_sorted_by x l : sorted_by l -> sorted_by (insert_sorted le x l).
Proof using le_total le_trans.
  induction l as [|y l IH]; cbn; [set_solver|]. intros [Hy Hl].
  destruct (le x y) eqn:Hxy; cbn.
  - split; [|done]. intros z [->|Hz]%elem_of_cons; [done|]. eauto.
  - split; [|by apply IH]. intros z [->|Hz]%elem_of_insert_sorted; [|by apply Hy].
    pose proof (le_total x y) as H. by rewrite Hxy in H.
Qed.

Lemma insertion_sort_sorted l : sorted_by (insertion_sort le l).
Proof using le_total le_trans. induction l; [done|]. by apply insert_sorted_by. Qed.

(** Sorting commutes with a map that keeps the order. *)
Lemma insertion_sort_map (g : A -> A) l :
  (forall x y, le (g x) (g y) = le x y) -> insertion_sort le (map g l) = map g (insertion_sort le l).
Proof using.
  clear le_total le_trans. intros Hg. induction l as [|x l IH]; [done|]. cbn [map]. rewrite !insertion_sort_cons, IH.
  clear IH. induction (insertion_sort le l) as [|y k IH]; cbn; [done|]. rewrite Hg. destruct (le x y); cbn; [done|]. by rewrite IH.
Qed.

Lemma filter_insert_sorted (f : A -> bool) x l :
  sorted_by l ->
  List.filter f (insert_sorted le x l) = if f x then insert_sorted le x (List.filter f l) else List.filter f l.
Proof using le_trans.
  induction l as [|y l IH]; cbn; [by destruct (f x)|]. intros [Hy Hl].
  destruct (le x y) eqn:Hxy; cbn.
  - destruct (f x) eqn:Hfx; [|done]. destruct (f y) eqn:Hfy; cbn; [by rewrite Hxy|].
    destruct (List.filter f l) as [|z l'] eqn:Hf; [done|]. cbn.
    assert (z ∈ l) as Hz by (eapply list_elem_of_In, (filter_In f); rewrite Hf; by left).
    by rewrite (le_trans x y z) by auto.
  - rewrite (IH Hl). destruct (f y) eqn:Hfy, (f x) eqn:Hfx; cbn; by rewrite ?Hxy.
Qed.

Lemma filter_insertion_sort (f : A -> bool) l :
  List.filter f (insertion_sort le l) = insertion_sort le (List.filter f l).
Proof using le_total le_trans.
  induction l as [|x l IH]; [done|]. rewrite insertion_sort_cons, filter_insert_sorted by apply insertion_sort_sorted.
  rewrite IH. cbn. by destruct (f x).
Qed.

(** What is not before an element of a sorted list is what follows it. *)
Lemma filter_after n x l :
  (forall y, y ∈ l -> le x y = true -> le y x = true -> y = x) -> NoDup l -> sorted_by l -> l !! n = Some x ->
  List.filter (fun y => negb (le y x)) l = skipn (S n) l.
Proof using le_total.
  clear le_trans. revert n. induction l as [|z l IH]; intros n Hanti Hnd Hsort Hx; [done|]. destruct Hsort as [Hz Hs]. cbn.
  apply NoDup_cons in Hnd as [Hzl Hnd]. destruct n as [|n]; cbn in *.
  - injection Hx as ->. assert (le x x = true) as -> by (specialize (le_total x x); by destruct (le x x)). cbn.
    clear IH. assert (forall y, y ∈ l -> le y x = false) as Hno.
    { intros y Hy. destruct (le y x) eqn:Hyx; [|done]. rewrite (Hanti y) in Hy by (set_solver || auto). done. }
    clear Hanti Hz Hzl Hnd Hs. induction l as [|y l IH]; [done|]. cbn. rewrite Hno by set_solver. cbn. rewrite IH; set_solver.
  - assert (x ∈ l) as Hin by (by eapply list_elem_of_lookup_2). rewrite (Hz x Hin). cbn. apply IH; auto. set_solver.
Qed.
End sorting.

Lemma str_le_antisym a b : str_le a b = true -> str_le b a = true -> a = b.
Proof.
  revert b; induction a as [|x a IH]; intros [|y b]; try done. rewrite !str_le_cons.
  intros [H1|[H1 Ha]] [H2|[H2 Hb]]; try lia. rewrite (IH b) by done. f_equal.
  rewrite <- (Ascii.ascii_nat_embedding x), <- (Ascii.ascii_nat_embedding y). by f_equal.
Qed.

(** Dropping a prefix is filtering it out, when no element comes twice. *)
Lemma filter_drop {A} (key : A -> string) (n : nat) (l : list A) :
  NoDup (map key l) -> List.filter (fun x => negb (includes (key x) (map key (firstn n l)))) l = skipn n l.
Proof.
  intros Hnd.
  transitivity (List.filter (fun x => negb (includes (key x) (map key (firstn n l)))) (firstn n l ++ skipn n l));
    [by rewrite firstn_skipn|]. rewrite List.filter_app.
  rewrite <- (firstn_skipn n l), map_app in Hnd. apply NoDup_app in Hnd as (_ & Hdis & _).
  assert (forall l', (forall x, x ∈ l' -> key x ∈ map key (firstn n l)) ->
    List.filter (fun x => negb (includes (key x) (map key (firstn n l)))) l' = []) as Hall.
  { induction l' as [|x l' IH]; cbn; [done|]. intros H.
    rewrite (proj2 (includes_spec _ _)) by (apply H; left). apply IH. intros y Hy. apply H. by right. }
  rewrite Hall by (intros x Hx; by apply list_elem_of_fmap_2). cbn.
  assert (forall l', (forall x, x ∈ l' -> key x ∈ map key (skipn n l)) ->
    List.filter (fun x => negb (includes (key x) (map key (firstn n l)))) l' = l') as Hnone.
  { induction l' as [|x l' IH]; cbn; [done|]. intros H. destruct (includes _ _) eqn:Hin; cbn.
    - apply includes_spec in Hin. destruct (Hdis _ Hin). apply H. left.
    - f_equal. apply IH. intros y Hy. apply H. by right. }
  apply Hnone. intros x Hx. by apply list_elem_of_fmap_2.
Qed.

Lemma elem_of_firstn {A} (x : A) n l : x ∈ firstn n l -> x ∈ l.
Proof. rewrite <- (firstn_skipn n l) at 2. set_solver. Qed.
Lemma elem_of_skipn {A} (x : A) n l : x ∈ skipn n l -> x ∈ l.
Proof. rewrite <- (firstn_skipn n l) at 2. set_solver. Qed.
Lemma filter_length_le {A} (f : A -> bool) (l : list A) :
  (length (List.filter f l) <= length l)%nat.
Proof. induction l as [|x l IH]; cbn; [lia|]. destruct (f x); cbn; lia. Qed.

Lemma filter_length_mono {A} (f g : A -> bool) (l : list A) :
  (forall x, x ∈ l -> f x = true -> g x = true) ->
  (length (List.filter f l) <= length (List.filter g l))%nat.
Proof.
  induction l as [|x l IH]; intros H; cbn; [lia|].
  specialize (IH ltac:(intros y ?; apply H; set_solver)).
  pose proof (H x ltac:(set_solver)) as Hx.
  destruct (f x); [rewrite Hx by done|destruct (g x)]; cbn; lia.
Qed.

(** Filtering twice is filtering by the stronger predicate. *)
Lemma filter_filter_impl {A} (f g : A -> bool) (l : list A) :
  (forall x, f x = true -> g x = true) -> List.filter f (List.filter g l) = List.filter f l.
Proof.
  intros H. induction l as [|x l IH]; cbn; [done|].
  pose proof (H x). destruct (f x) eqn:Hf; destruct (g x) eqn:Hg; cbn;
    rewrite ?Hf, ?IH; naive_solver.
Qed.

Lemma filter_andb {A} (f g : A -> bool) (l : list A) :
  List.filter (fun x => f x && g x) l = List.filter g (List.filter f l).
Proof. induction l as [|x l IH]; cbn; [done|]. destruct (f x); cbn; [|done]. by rewrite IH. Qed.

Lemma filter_map_comm {A B} (h : A -> B) (f : B -> bool) (l : list A) :
  List.filter f (map h l) = map h (List.filter (fun x => f (h x)) l).
Proof. induction l as [|x l IH]; cbn; [done|]. rewrite IH. by destruct (f (h x)). Qed.

Lemma filter_length_split {A} (f : A -> bool) (l : list A) :
  (length (List.filter f l) + length (List.filter (fun x => negb (f x)) l) = length l)%nat.
Proof. induction l as [|x l IH]; cbn; [lia|]. destruct (f x); cbn; lia. Qed.

(** An update of a row that exists. *)
Lemma alter_as_insert {A} (f : A -> A) (k : string) (x : A) (m : gmap string A) :
  m !! k = Some x -> alter f k m = <[k := f x]> m.
Proof.
  intros Hk. apply map_eq. intros j. destruct (decide (k = j)) as [<-|Hne].
  - by rewrite lookup_alter_eq, lookup_insert_eq, Hk.
  - by rewrite lookup_alter_ne, lookup_insert_ne.
Qed.

#[export] Hint Rewrite str_eqb_refl Ascii.eqb_refl : xconfess.
#[export] Hint Resolve to_int32_range starts_with_app : xconfess.

(** ** Automation *)

(** Case analysis on the innermost scrutinee of the goal or of [H]. *)
Ltac case_goal :=
  match goal with
  | |- context [match ?x with _ => _ end] =>
      lazymatch x with
      | context [match _ with _ => _ end] => fail
      | _ => destruct x eqn:?
      end
  end.
Ltac case_in H :=
  match type of H with
  | context [match ?x with _ => _ end] =>
      lazymatch x with
      | context [match _ with _ => _ end] => fail
      | _ => destruct x eqn:?
      end
  end.
(** Turn boolean facts into propositions. *)
Ltac boolp :=
  repeat match goal with
  | H : _ && _ = true |- _ => apply andb_true_iff in H as [? ?]
  | H : _ || _ = false |- _ => apply orb_false_iff in H as [? ?]
  | H : negb _ = true |- _ => apply negb_true_iff in H
  | H : negb _ = false |- _ => apply negb_false_iff in H
  | H : str_eqb _ _ = true |- _ => apply str_eqb_eq in H
  | H : str_eqb _ _ = false |- _ => apply str_eqb_neq in H
  | H : bool_decide _ = true |- _ => apply bool_decide_eq_true in H
  | H : bool_decide _ = false |- _ => apply bool_decide_eq_false in H
  | H : (_ <? _)%Z = true |- _ => apply Z.ltb_lt in H
  | H : (_ <? _)%Z = false |- _ => apply Z.ltb_ge in H
  | H : (_ <=? _)%Z = true |- _ => apply Z.leb_le in H
  | H : (_ <=? _)%Z = false |- _ => apply Z.leb_gt in H
  | H : (_ =? _)%Z = true |- _ => apply Z.eqb_eq in H
  | H : (_ =? _)%Z = false |- _ => apply Z.eqb_neq in H
  end.
Ltac crush := repeat (case_goal; simplify_eq/=); boolp; try done; try lia.
