(* ===== verification/Numbers.v ===== *)
(** * Numbers: the JavaScript numbers and their literals

    A number is [NaN], an infinity or an exact rational.  [parseFloat] and
    [Number] follow the grammar of StrDecimalLiteral: the scanner reads the
    longest prefix that is a literal.  Rounding to 53 bits is not modelled: on
    the decimals the code handles (at most 15 significant digits) comparisons
    of the exact value and of the nearest double agree. *)
From Stdlib Require Export QArith Qminmax Qround Qabs Lqa.
From stdpp Require Import pretty.
From S2P Require Import Prelude.
Open Scope Z_scope.

Inductive jsnum :=
| NaN
| PosInf
| NegInf
| Fin (q : Q).

(** The comparison operators: false as soon as an operand is [NaN]. *)
Definition Qltb (a b : Q) : bool := negb (Qle_bool b a).
Definition num_lt (a b : jsnum) : bool :=
  match a, b with
  | NaN, _ | _, NaN => false
  | Fin x, Fin y => Qltb x y
  | NegInf, NegInf | PosInf, _ | _, NegInf => false
  | _, _ => true
  end.
Definition num_le (a b : jsnum) : bool :=
  match a, b with
  | NaN, _ | _, NaN => false
  | Fin x, Fin y => Qle_bool x y
  | NegInf, _ | _, PosInf => true
  | _, _ => false
  end.
Definition is_nan (a : jsnum) : bool := match a with NaN => true | _ => false end.
Definition is_finite (a : jsnum) : bool := match a with Fin _ => true | _ => false end.
Definition num_of_Z (z : Z) : jsnum := Fin (inject_Z z).

(** [!n] of a number. *)
Definition num_falsy (a : jsnum) : bool :=
  match a with NaN => true | Fin q => Qeq_bool q 0 | _ => false end.

(** Addition, with the indeterminate cases of IEEE 754. *)
Definition num_add (a b : jsnum) : jsnum :=
  match a, b with
  | NaN, _ | _, NaN => NaN
  | PosInf, NegInf | NegInf, PosInf => NaN
  | PosInf, _ | _, PosInf => PosInf
  | NegInf, _ | _, NegInf => NegInf
  | Fin x, Fin y => Fin (Qred (x + y))
  end.
(** Division by a positive integer. *)
Definition num_div_nat (a : jsnum) (n : nat) : jsnum :=
  match a with Fin x => Fin (Qred (x / inject_Z (Z.of_nat n))) | _ => a end.

(** Does the decimal expansion of a number need more than [n] decimals? The
    text [x.toString()] of a number of at least 1e-6 is its shortest decimal. *)
Definition more_decimals (n : Z) (a : jsnum) : bool :=
  match a with
  | Fin x => negb (Qnum x * 10 ^ n mod Zpos (Qden x) =? 0)
  | _ => false
  end.

(** ** Literals *)
Definition is_digit (c : Ascii.ascii) : bool := between "0"%char "9"%char c.
Definition digit_val (c : Ascii.ascii) : Z := Z.of_nat (Ascii.nat_of_ascii c) - 48.

(** The digits at the head of a string: how many, their value over [acc], and
    the rest. *)
Fixpoint scan_digits (acc : Z) (s : string) : nat * Z * string :=
  match s with
  | String c s' =>
      if is_digit c
      then let '(n, v, rest) := scan_digits (acc * 10 + digit_val c) s' in (S n, v, rest)
      else (0%nat, acc, s)
  | EmptyString => (0%nat, acc, s)
  end.

Definition scan_sign (s : string) : Z * string :=
  match s with
  | String c s' =>
      if Ascii.eqb c "-"%char then (-1, s')
      else if Ascii.eqb c "+"%char then (1, s') else (1, s)
  | EmptyString => (1, s)
  end.

(** An exponent part, when the head of the string is one. *)
Definition scan_exponent (s : string) : Z * string :=
  match s with
  | String c s' =>
      if Ascii.eqb c "e"%char || Ascii.eqb c "E"%char then
        let '(sgn, s1) := scan_sign s' in
        match scan_digits 0 s1 with
        | (O, _, _) => (0, s)
        | (_, v, rest) => (sgn * v, rest)
        end
      else (0, s)
  | EmptyString => (0, s)
  end.

(** [m * 10^e] as a rational. *)
Definition Qscale (m e : Z) : Q :=
  if 0 <=? e then inject_Z (m * 10 ^ e) else (m # Z.to_pos (10 ^ (- e))).

(** The longest prefix that is a decimal literal, and what follows it. *)
Definition scan_number (s : string) : option (jsnum * string) :=
  let '(sgn, s1) := scan_sign s in
  if starts_with "Infinity" s1
  then Some (if sgn =? 1 then PosInf else NegInf, String.substring 8 (String.length s1 - 8) s1)
  else
    let '(n, ip, s2) := scan_digits 0 s1 in
    let '(k, mant, s3) :=
      match s2 with
      | String c s2' =>
          if Ascii.eqb c "."%char then
            match scan_digits ip s2' with
            | (O, _, _) => if (0 <? n)%nat then (0%nat, ip, s2') else (0%nat, ip, s2)
            | (k, v, rest) => (k, v, rest)
            end
          else (0%nat, ip, s2)
      | EmptyString => (0%nat, ip, s2)
      end in
    if (n + k =? 0)%nat then None
    else let '(e, s4) := scan_exponent s3 in
         Some (Fin (Qscale (sgn * mant) (e - Z.of_nat k)), s4).

(** [parseFloat(s)]. *)
Definition parseFloat (s : string) : jsnum :=
  from_option fst NaN (scan_number (trim_start s)).

(** [Number(s)] on decimal literals and blanks; the [0x], [0o] and [0b] forms,
    which the code never produces, are read as [NaN]. *)
Definition Number (s : string) : jsnum :=
  let t := trim s in
  if t =s? "" then Fin 0
  else match scan_number t with
       | Some (v, rest) => if rest =s? "" then v else NaN
       | None => NaN
       end.

Example parseFloat_1 : parseFloat "  12.50XLM" = Fin (1250 # 100).
Proof. reflexivity. Qed.
Example parseFloat_2 : parseFloat "-.5e2." = Fin (-50 # 1).
Proof. reflexivity. Qed.
Example parseFloat_3 : (parseFloat "abc", parseFloat "-Infinity", parseFloat "5e") = (NaN, NegInf, Fin 5).
Proof. reflexivity. Qed.
Example Number_1 : (Number "17 ", Number "17s", Number "") = (Fin 17, NaN, Fin 0).
Proof. reflexivity. Qed.

(** ** Lemmas *)
Lemma Qltb_lt a b : Qltb a b = true <-> (a < b)%Q.
Proof.
  unfold Qltb. rewrite negb_true_iff, <- not_true_iff_false, Qle_bool_iff.
  split; [apply Qnot_le_lt|apply Qlt_not_le].
Qed.

Lemma Qltb_ge a b : Qltb a b = false <-> (b <= a)%Q.
Proof. unfold Qltb. by rewrite negb_false_iff, Qle_bool_iff. Qed.

Lemma Qle_bool_gt a b : Qle_bool a b = false <-> (b < a)%Q.
Proof. rewrite <- Qltb_lt. unfold Qltb. by rewrite negb_true_iff. Qed.

Lemma num_lt_fin a b : num_lt (Fin a) (Fin b) = true <-> (a < b)%Q.
Proof. apply Qltb_lt. Qed.

Lemma num_le_fin a b : num_le (Fin a) (Fin b) = true <-> (a <= b)%Q.
Proof. apply Qle_bool_iff. Qed.

(** Without [NaN], [<] is the negation of the converse [<=]. *)
Lemma num_lt_le a b : is_nan a = false -> is_nan b = false -> num_lt a b = negb (num_le b a).
Proof. by destruct a, b. Qed.

Lemma scan_digits_nonneg acc s n v rest :
  0 <= acc -> scan_digits acc s = (n, v, rest) -> 0 <= v.
Proof.
  revert acc n; induction s as [|c s IH]; cbn; intros acc n Hacc H; [by simplify_eq|].
  destruct (is_digit c) eqn:Hc; [|by simplify_eq].
  destruct (scan_digits _ s) as [[n' v'] rest'] eqn:Hs; simplify_eq.
  eapply IH; [|exact Hs].
  unfold is_digit, between in Hc. boolp. unfold digit_val.
  apply Nat.leb_le in H. change (Ascii.nat_of_ascii "0"%char) with 48%nat in H. lia.
Qed.

(** ** Numbers as strings *)

(** [String(n)]; [None] is [NaN]. *)
Definition num_str (n : option Z) : string := match n with Some z => pretty z | None => "NaN" end.

(** [parseInt(s, 10)]: the number at the head of the trimmed string. *)
Definition parseInt (s : string) : option Z :=
  let '(sgn, rest) := scan_sign (trim_start s) in
  match scan_digits 0 rest with
  | (O, _, _) => None
  | (_, v, _) => Some (sgn * v)
  end.

(** A digit of [pretty] is scanned as its value. *)
Lemma scan_digit_char (x : N) acc s : (x < 10)%N ->
  scan_digits acc (String (pretty_N_char x) s) =
  let '(n, v, rest) := scan_digits (acc * 10 + Z.of_N x) s in (S n, v, rest).
Proof.
  intros Hx. assert (x = 0 \/ x = 1 \/ x = 2 \/ x = 3 \/ x = 4 \/ x = 5 \/ x = 6 \/ x = 7
                     \/ x = 8 \/ x = 9)%N as Hc by lia.
  destruct_or! Hc; subst; reflexivity.
Qed.

Lemma scan_digits_pretty (x : N) : (0 < x)%N -> forall s, exists d k, forall acc,
  scan_digits acc (pretty_N_go x s) =
  let '(n, v, rest) := scan_digits (acc * k + Z.of_N x) s in ((S d + n)%nat, v, rest).
Proof.
  induction (N.lt_wf_0 x) as [x _ IH]. intros Hx s. rewrite pretty_N_go_step by done.
  pose proof (N.div_mod' x 10) as Hdm. pose proof (N.mod_lt x 10 ltac:(done)) as Hm.
  destruct (decide (x / 10 = 0)%N) as [Hz|Hnz].
  - rewrite Hz, pretty_N_go_0. exists 0%nat, 10. intros acc. rewrite scan_digit_char by done.
    replace (x `mod` 10)%N with x by lia. by destruct (scan_digits _ s) as [[n v] rest].
  - destruct (IH (x / 10)%N ltac:(apply N.div_lt; lia) ltac:(lia)
               (String (pretty_N_char (x `mod` 10)) s)) as (d & k & Hd).
    exists (S d), (k * 10). intros acc. rewrite Hd, scan_digit_char by done.
    replace ((acc * k + Z.of_N (x / 10)) * 10 + Z.of_N (x `mod` 10))
      with (acc * (k * 10) + Z.of_N x) by lia.
    destruct (scan_digits _ s) as [[n v] rest]. by rewrite Nat.add_succ_r.
Qed.

(** A printed number has digits and a sign only. *)
Lemma pretty_N_go_forall (f : Ascii.ascii -> bool) x : (forall y, (y < 10)%N -> f (pretty_N_char y) = true) ->
  forall s, str_forall f s = true -> str_forall f (pretty_N_go x s) = true.
Proof.
  intros Hf. induction (N.lt_wf_0 x) as [x _ IH]. intros s Hs. destruct (decide (x = 0)%N) as [->|Hx].
  - by rewrite pretty_N_go_0.
  - rewrite pretty_N_go_step by lia. apply IH; [apply N.div_lt; lia|]. cbn.
    by rewrite Hf by (apply N.mod_lt; lia).
Qed.
Lemma num_str_no_colon n : str_forall (fun c => negb (Ascii.eqb c ":"%char)) (num_str (Some (Z.of_nat n))) = true.
Proof.
  destruct n as [|n]; [done|]. cbn [num_str]. change (pretty (Z.of_nat (S n))) with (pretty_N_go (N.pos (Pos.of_succ_nat n)) "").
  apply pretty_N_go_forall; [|done]. intros y Hy.
  assert (y = 0 \/ y = 1 \/ y = 2 \/ y = 3 \/ y = 4 \/ y = 5 \/ y = 6 \/ y = 7 \/ y = 8 \/ y = 9)%N as Hc by lia.
  destruct_or! Hc; subst; reflexivity.
Qed.

(** A printed integer is read back. *)
Lemma parseInt_num_str z : 0 <= z -> parseInt (num_str (Some z)) = Some z.
Proof.
  intros Hz. destruct (decide (z = 0)) as [->|Hnz]; [reflexivity|].
  destruct z as [|p|p]; [done| |lia]. cbn [num_str].
  change (pretty (Z.pos p)) with (pretty_N_go (N.pos p) EmptyString).
  assert (exists c s, pretty_N_go (N.pos p) "" = String c s /\ is_digit c = true) as (c & s & Hcs & Hc).
  { destruct (scan_digits_pretty (N.pos p) ltac:(done) "") as (d & k & Hd). specialize (Hd 0).
    destruct (pretty_N_go (N.pos p) "") as [|c s]; [by cbn in Hd|]. exists c, s. split; [done|].
    cbn in Hd. by destruct (is_digit c). }
  destruct (scan_digits_pretty (N.pos p) ltac:(done) "") as (d & k & Hd). specialize (Hd 0).
  unfold parseInt. rewrite Hcs in *.
  assert (is_space c = false /\ Ascii.eqb c "-" = false /\ Ascii.eqb c "+" = false) as (Hs & Hm & Hp).
  { clear -Hc. destruct c as [[] [] [] [] [] [] [] []]; vm_compute in Hc; first [discriminate|done]. }
  cbn [trim_start]. rewrite Hs. cbn [scan_sign]. rewrite Hm, Hp, Hd. cbn. f_equal.
Qed.

(** [String(n)] of a number between 1e-6 and 1e21: the integer part and the
    shortest fraction. *)
Fixpoint least_scale (fuel : nat) (k : nat) (q : Q) : nat :=
  match fuel with
  | O => k
  | S fuel' => if Qeq_bool (inject_Z (Qfloor (q * inject_Z (10 ^ Z.of_nat k)))) (q * inject_Z (10 ^ Z.of_nat k))
               then k else least_scale fuel' (S k) q
  end.
Fixpoint pad_zeros (n : nat) (s : string) : string :=
  match n with O => s | S n' => if (String.length s <=? n')%nat then pad_zeros n' (String "0" s) else s end.
Definition number_string (n : jsnum) : string :=
  match n with
  | NaN => "NaN"
  | PosInf => "Infinity"
  | NegInf => "-Infinity"
  | Fin q =>
      let a := Qabs q in
      let k := least_scale 20 0 a in
      let int := Qfloor a in
      let frac := Qfloor ((a - inject_Z int) * inject_Z (10 ^ Z.of_nat k)) in
      (if Qltb q 0 then "-" else "") +:+ pretty int
        +:+ (if (k =? 0)%nat then "" else "." +:+ pad_zeros k (pretty frac))
  end.
Example number_strings : map number_string [num_of_Z 42; parseFloat "0.05"; parseFloat "-12.5"; num_of_Z 0]
                         = ["42"; "0.05"; "-12.5"; "0"].
Proof. vm_compute. reflexivity. Qed.
