(* ===== verification/Json.v ===== *)
(** * JSON: values, their text and the round trip

    JSON values as parsed, stored in a jsonb column or sent; the reading
    primitives the services use on them; [JSON.stringify] and [JSON.parse].
    Strings are the bytes of their UTF-8 encoding. *)
From stdpp Require Import pretty.
From S2P Require Import Prelude Numbers.
Open Scope Z_scope.

(** ** JSON values, as parsed or as stored in a jsonb column *)
Inductive json :=
| JNull
| JBool (b : bool)
| JNum (n : jsnum)
| JStr (s : string)
| JArr (l : list json)
| JObj (fields : list (string * json)).

(** [o?.k]. *)
Definition json_get (k : string) (j : json) : option json :=
  match j with
  | JObj fs => snd <$> List.find (fun f => f.1 =s? k) fs
  | _ => None
  end.
(** [{ ...o, ...fs }]. *)
Definition json_spread (o : option json) (fs : list (string * json)) : json :=
  match o with
  | Some (JObj gs) =>
      JObj (fs ++ List.filter (fun g => negb (existsb (fun f => f.1 =s? g.1) fs)) gs)
  | _ => JObj fs
  end.
Definition json_opt_str (o : option string) : json :=
  match o with Some s => JStr s | None => JNull end.

Definition json_truthy (j : json) : bool :=
  match j with
  | JNull => false
  | JBool b => b
  | JNum n => negb (num_falsy n)
  | JStr s => truthy s
  | JArr _ | JObj _ => true
  end.
(** [String(j)]: the items of an array are joined by commas, [null] among them
    being empty. *)
Fixpoint json_string (j : json) : string :=
  match j with
  | JNull => "null"
  | JBool b => if b then "true" else "false"
  | JNum n => number_string n
  | JStr s => s
  | JArr l => join_with "," (map (fun x => match x with JNull => "" | _ => json_string x end) l)
  | JObj _ => "[object Object]"
  end.
(** The number a value is compared as. *)
Definition json_number (j : json) : jsnum :=
  match j with
  | JNull => num_of_Z 0
  | JBool b => num_of_Z (if b then 1 else 0)
  | JNum n => n
  | _ => Number (json_string j)
  end.
(** [o.a || o.b || ...]. *)
Definition first_field (o : json) (ks : list string) : option json :=
  match List.find (fun k => from_option json_truthy false (json_get k o)) ks with
  | Some k => json_get k o
  | None => None
  end.

(** [{ ...o, [k]: v }] on the fields: a key keeps its place. *)
Fixpoint json_set (k : string) (v : json) (fs : list (string * json)) : list (string * json) :=
  match fs with
  | [] => [(k, v)]
  | f :: fs' => if f.1 =s? k then (k, v) :: fs' else f :: json_set k v fs'
  end.

(** ** [JSON.stringify] *)

Definition dquote : Ascii.ascii := "034"%char.
Definition backslash : Ascii.ascii := "092"%char.

Definition hex_digit (n : nat) : Ascii.ascii :=
  Ascii.ascii_of_nat (if (n <? 10)%nat then n + 48 else n + 87).

(** The escape of a character, put before [rest]. *)
Definition escape (c : Ascii.ascii) (rest : string) : string :=
  let n := Ascii.nat_of_ascii c in
  let short d := String backslash (String d rest) in
  if Ascii.eqb c dquote || Ascii.eqb c backslash then short c
  else if (n =? 8)%nat then short "b"%char
  else if (n =? 9)%nat then short "t"%char
  else if (n =? 10)%nat then short "n"%char
  else if (n =? 12)%nat then short "f"%char
  else if (n =? 13)%nat then short "r"%char
  else if (n <? 32)%nat then
    String backslash (String "u" (String "0" (String "0"
      (String (hex_digit (n / 16)) (String (hex_digit (n mod 16)) rest)))))
  else String c rest.

(** The characters of a string, the closing quote and [rest]. *)
Fixpoint quoted (s rest : string) : string :=
  match s with
  | EmptyString => String dquote rest
  | String c s' => escape c (quoted s' rest)
  end.
Definition quote (s : string) : string := String dquote (quoted s "").

Fixpoint stringify (j : json) : string :=
  match j with
  | JNull => "null"
  | JBool b => if b then "true" else "false"
  | JNum n => if is_finite n then number_string n else "null"
  | JStr s => quote s
  | JArr l => "[" +:+ join_with "," (map stringify l) +:+ "]"
  | JObj fs => "{" +:+ join_with "," (map (fun f => quote f.1 +:+ ":" +:+ stringify f.2) fs) +:+ "}"
  end.

(** ** [JSON.parse] *)

Fixpoint skip_ws (s : string) : string :=
  match s with
  | String c s' =>
      let n := Ascii.nat_of_ascii c in
      if (n =? 32)%nat || (n =? 9)%nat || (n =? 10)%nat || (n =? 13)%nat then skip_ws s' else s
  | EmptyString => EmptyString
  end.

Definition hex_value (c : Ascii.ascii) : option Z :=
  if is_digit c then Some (digit_val c)
  else if between "a"%char "f"%char c then Some (Z.of_nat (Ascii.nat_of_ascii c) - 87)
  else if between "A"%char "F"%char c then Some (Z.of_nat (Ascii.nat_of_ascii c) - 55)
  else None.

(** What an escape other than [\u] stands for. *)
Definition unescape (c : Ascii.ascii) : option Ascii.ascii :=
  if Ascii.eqb c dquote || Ascii.eqb c backslash || Ascii.eqb c "/"%char then Some c
  else if Ascii.eqb c "b"%char then Some "008"%char
  else if Ascii.eqb c "t"%char then Some "009"%char
  else if Ascii.eqb c "n"%char then Some "010"%char
  else if Ascii.eqb c "f"%char then Some "012"%char
  else if Ascii.eqb c "r"%char then Some "013"%char
  else None.

(** A string literal is bytes and code units; units are encoded, a pair of
    surrogates as the one character it is. *)
Inductive lexeme := Byte (c : Ascii.ascii) | Unit (u : Z).

Definition byte (z : Z) : Ascii.ascii := Ascii.ascii_of_nat (Z.to_nat z).
Definition utf8_char (u : Z) (rest : string) : string :=
  if u <? 128 then String (byte u) rest
  else if u <? 2048 then String (byte (192 + u / 64)) (String (byte (128 + u mod 64)) rest)
  else if u <? 65536 then
    String (byte (224 + u / 4096)) (String (byte (128 + u / 64 mod 64)) (String (byte (128 + u mod 64)) rest))
  else
    String (byte (240 + u / 262144)) (String (byte (128 + u / 4096 mod 64))
      (String (byte (128 + u / 64 mod 64)) (String (byte (128 + u mod 64)) rest))).
Fixpoint utf8 (l : list lexeme) : string :=
  match l with
  | [] => EmptyString
  | Byte c :: l' => String c (utf8 l')
  | Unit h :: l' =>
      match l' with
      | Unit g :: l'' =>
          if (55296 <=? h) && (h <? 56320) && (56320 <=? g) && (g <? 57344)
          then utf8_char (65536 + (h - 55296) * 1024 + (g - 56320)) (utf8 l'')
          else utf8_char h (utf8 l')
      | _ => utf8_char h (utf8 l')
      end
  end.

(** The lexemes of a string literal after its opening quote, and what follows
    the closing one. *)
Fixpoint lex_string (s : string) : option (list lexeme * string) :=
  match s with
  | EmptyString => None
  | String c s1 =>
      if Ascii.eqb c dquote then Some ([], s1)
      else if Ascii.eqb c backslash then
        match s1 with
        | EmptyString => None
        | String e s2 =>
            match unescape e with
            | Some d => '(l, r) ← lex_string s2; Some (Byte d :: l, r)
            | None =>
                if Ascii.eqb e "u"%char then
                  match s2 with
                  | String h1 (String h2 (String h3 (String h4 s3))) =>
                      a ← hex_value h1; b ← hex_value h2; c ← hex_value h3; d ← hex_value h4;
                      '(l, r) ← lex_string s3;
                      Some (Unit (a * 4096 + b * 256 + c * 16 + d) :: l, r)
                  | _ => None
                  end
                else None
            end
        end
      else if (Ascii.nat_of_ascii c <? 32)%nat then None
      else '(l, r) ← lex_string s1; Some (Byte c :: l, r)
  end.
Definition parse_string (s : string) : option (string * string) :=
  '(l, r) ← lex_string s; Some (utf8 l, r).

(** A JSON number: no plus sign, no leading zeros, digits around the point. *)
Definition parse_fraction (ip : Z) (s : string) : option (nat * Z * string) :=
  match s with
  | String c s' =>
      if Ascii.eqb c "."%char then match scan_digits ip s' with (O, _, _) => None | r => Some r end
      else Some (O, ip, s)
  | EmptyString => Some (O, ip, s)
  end.
Definition parse_exponent (s : string) : option (Z * string) :=
  match s with
  | String c s' =>
      if Ascii.eqb c "e"%char || Ascii.eqb c "E"%char then
        let '(sgn, s'') := scan_sign s' in
        match scan_digits 0 s'' with (O, _, _) => None | (_, v, r) => Some (sgn * v, r) end
      else Some (0, s)
  | EmptyString => Some (0, s)
  end.
Definition parse_unsigned (sgn : Z) (s : string) : option (jsnum * string) :=
  match scan_digits 0 s with
  | (O, _, _) => None
  | (n, ip, s1) =>
      if (1 <? n)%nat && starts_with "0" s then None
      else '(k, m, s2) ← parse_fraction ip s1; '(e, s3) ← parse_exponent s2;
           Some (Fin (Qscale (sgn * m) (e - Z.of_nat k)), s3)
  end.
Definition parse_number (s : string) : option (jsnum * string) :=
  match s with
  | String c s' => if Ascii.eqb c "-"%char then parse_unsigned (-1) s' else parse_unsigned 1 s
  | EmptyString => None
  end.

Definition obj_of (members : list (string * json)) : json :=
  JObj (fold_left (fun fs m => json_set m.1 m.2 fs) members []).

Fixpoint parse_value (fuel : nat) (s : string) : option (json * string) :=
  match fuel with
  | O => None
  | S fuel =>
      match skip_ws s with
      | EmptyString => None
      | String c s' as s0 =>
          if Ascii.eqb c dquote then '(t, r) ← parse_string s'; Some (JStr t, r)
          else if Ascii.eqb c "["%char then
            if starts_with "]" (skip_ws s') then Some (JArr [], skip_str 1 (skip_ws s'))
            else '(l, r) ← parse_items fuel s'; Some (JArr l, r)
          else if Ascii.eqb c "{"%char then
            if starts_with "}" (skip_ws s') then Some (JObj [], skip_str 1 (skip_ws s'))
            else '(l, r) ← parse_members fuel s'; Some (obj_of l, r)
          else if starts_with "null" s0 then Some (JNull, skip_str 4 s0)
          else if starts_with "true" s0 then Some (JBool true, skip_str 4 s0)
          else if starts_with "false" s0 then Some (JBool false, skip_str 5 s0)
          else '(n, r) ← parse_number s0; Some (JNum n, r)
      end
  end
with parse_items (fuel : nat) (s : string) : option (list json * string) :=
  match fuel with
  | O => None
  | S fuel =>
      '(v, r) ← parse_value fuel s;
      let r := skip_ws r in
      if starts_with "]" r then Some ([v], skip_str 1 r)
      else if starts_with "," r then '(l, r') ← parse_items fuel (skip_str 1 r); Some (v :: l, r')
      else None
  end
with parse_members (fuel : nat) (s : string) : option (list (string * json) * string) :=
  match fuel with
  | O => None
  | S fuel =>
      let s := skip_ws s in
      if starts_with (String dquote "") s then
        '(k, r) ← parse_string (skip_str 1 s);
        let r := skip_ws r in
        if starts_with ":" r then
          '(v, r) ← parse_value fuel (skip_str 1 r);
          let r := skip_ws r in
          if starts_with "}" r then Some ([(k, v)], skip_str 1 r)
          else if starts_with "," r then '(l, r') ← parse_members fuel (skip_str 1 r); Some ((k, v) :: l, r')
          else None
        else None
      else None
  end.

(** [JSON.parse(s)]; [None] is the thrown SyntaxError. Every two steps of fuel
    consume a character. *)
Definition parse (s : string) : option json :=
  '(j, r) ← parse_value (2 * String.length s + 2) s;
  if skip_ws r =s? "" then Some j else None.

Definition in_quotes (s : string) : string := String dquote (s +:+ String dquote "").
Example stringify_1 :
  stringify (JObj [("id", JStr "a/b"); ("n", JNum (num_of_Z (-12))); ("l", JArr [JNull; JBool true; JObj []])])
  = "{" +:+ in_quotes "id" +:+ ":" +:+ in_quotes "a/b" +:+ "," +:+ in_quotes "n" +:+ ":-12," +:+ in_quotes "l" +:+ ":[null,true,{}]}".
Proof. vm_compute. reflexivity. Qed.
Example parse_1 :
  parse (" {" +:+ in_quotes "a" +:+ " : [1.5e1, -0 , " +:+ in_quotes "\u0041\n" +:+ "] ," +:+ in_quotes "a" +:+ ":false}  ")
  = Some (JObj [("a", JBool false)]).
Proof. vm_compute. reflexivity. Qed.
Example parse_2 : map parse ["01"; "[1,]"; "+1"; "nul"; ""; "1 2"; "{,}"] = repeat None 7.
Proof. vm_compute. reflexivity. Qed.
Example parse_3 :
  parse (in_quotes "\ud83d\ude00\u00e9") = Some (JStr (String "240" (String "159" (String "152" (String "128" (String "195" (String "169" ""))))))).
Proof. vm_compute. reflexivity. Qed.

(** ** The round trip *)

(** The values whose text is exact: integers, and objects without a repeated key. *)
Fixpoint json_ok (j : json) : Prop :=
  match j with
  | JNum n => exists z, n = num_of_Z z
  | JArr l => fold_right (fun x P => json_ok x /\ P) True l
  | JObj fs => NoDup (map fst fs) /\ fold_right (fun f P => json_ok f.2 /\ P) True fs
  | _ => True
  end.

Section json_ind.
Context (P : json -> Prop)
  (Hnull : P JNull) (Hbool : forall b, P (JBool b)) (Hnum : forall n, P (JNum n)) (Hstr : forall s, P (JStr s))
  (Harr : forall l, Forall P l -> P (JArr l)) (Hobj : forall fs, Forall (fun f => P f.2) fs -> P (JObj fs)).
Fixpoint json_nested (j : json) : P j.
Proof.
  destruct j as [|b|n|s|l|fs].
  - exact Hnull.
  - apply Hbool.
  - apply Hnum.
  - apply Hstr.
  - apply Harr. induction l as [|x l IH]; constructor; [apply json_nested|exact IH].
  - apply Hobj. induction fs as [|x fs IH]; constructor; [apply json_nested|exact IH].
Defined.
End json_ind.

Lemma utf8_small u l : u < 128 -> utf8 (Unit u :: l) = String (byte u) (utf8 l).
Proof.
  intros Hu. cbn [utf8]. unfold utf8_char.
  destruct (Z.ltb_spec u 128); [|lia].
  destruct l as [|[c|g] l]; try done. by destruct (Z.leb_spec 55296 u); [lia|].
Qed.

(** An escape is one lexeme, which reads back as the character. *)
Definition lexeme_of (c : Ascii.ascii) : lexeme :=
  let n := Ascii.nat_of_ascii c in
  if (n <? 32)%nat && negb (existsb (Nat.eqb n) [8; 9; 10; 12; 13]%nat) then Unit (Z.of_nat n) else Byte c.

Definition lexed (x : lexeme) (o : option (list lexeme * string)) : option (list lexeme * string) :=
  '(l, r) ← o; Some (x :: l, r).

Lemma lex_plain c r : Ascii.eqb c dquote = false -> Ascii.eqb c backslash = false ->
  (Ascii.nat_of_ascii c <? 32)%nat = false -> lex_string (String c r) = lexed (Byte c) (lex_string r).
Proof. intros H1 H2 H3. cbn [lex_string]. by rewrite H1, H2, H3. Qed.

Lemma lex_short e d r : unescape e = Some d ->
  lex_string (String backslash (String e r)) = lexed (Byte d) (lex_string r).
Proof.
  intros H. cbn [lex_string]. rewrite H. by change (Ascii.eqb backslash dquote) with false.
Qed.

Lemma lex_unit h1 h2 h3 h4 a b c d r :
  hex_value h1 = Some a -> hex_value h2 = Some b -> hex_value h3 = Some c -> hex_value h4 = Some d ->
  lex_string (String backslash (String "u" (String h1 (String h2 (String h3 (String h4 r))))))
  = lexed (Unit (a * 4096 + b * 256 + c * 16 + d)) (lex_string r).
Proof. intros H1 H2 H3 H4. cbn [lex_string]. rewrite H1, H2, H3, H4. done. Qed.

Lemma hex_digits n : (n < 32)%nat ->
  hex_value (hex_digit (n / 16)) = Some (Z.of_nat (n / 16))
  /\ hex_value (hex_digit (n mod 16)) = Some (Z.of_nat (n mod 16)).
Proof. intros H. do 32 (destruct n as [|n]; [done|]). lia. Qed.

Lemma lex_escape c r : lex_string (escape c r) = lexed (lexeme_of c) (lex_string r).
Proof.
  unfold escape, lexeme_of. remember (Ascii.nat_of_ascii c) as n eqn:Hnc.
  assert (c = Ascii.ascii_of_nat n) as Hc by (by rewrite Hnc, Ascii.ascii_nat_embedding).
  destruct (Ascii.eqb c dquote || _) eqn:Hq.
  { rewrite (lex_short c c); [|unfold unescape; by rewrite Hq].
    apply orb_true_iff in Hq as [Hq|Hq]; apply Ascii.eqb_eq in Hq; rewrite Hnc, Hq; reflexivity. }
  apply orb_false_iff in Hq as [Hd Hb].
  destruct (Nat.eqb_spec n 8) as [Hk|]; [rewrite Hc, Hk; by apply lex_short|].
  destruct (Nat.eqb_spec n 9) as [Hk|]; [rewrite Hc, Hk; by apply lex_short|].
  destruct (Nat.eqb_spec n 10) as [Hk|]; [rewrite Hc, Hk; by apply lex_short|].
  destruct (Nat.eqb_spec n 12) as [Hk|]; [rewrite Hc, Hk; by apply lex_short|].
  destruct (Nat.eqb_spec n 13) as [Hk|]; [rewrite Hc, Hk; by apply lex_short|].
  destruct (Nat.ltb_spec n 32) as [Hn|Hn].
  - destruct (hex_digits n Hn) as [H1 H2]. rewrite (lex_unit "0"%char "0"%char _ _ 0 0 _ _ r eq_refl eq_refl H1 H2).
    assert (existsb (Nat.eqb n) [8; 9; 10; 12; 13]%nat = false) as ->.
    { apply not_true_iff_false. rewrite existsb_exists. intros (k & Hk & Hnk%Nat.eqb_eq). cbn in Hk. lia. }
    cbn [negb andb]. do 2 f_equal. rewrite (Nat.div_mod_eq n 16) at 3. lia.
  - rewrite lex_plain; [done..|]. rewrite <- Hnc. by apply Nat.ltb_ge.
Qed.

Lemma utf8_lexeme c l : utf8 (lexeme_of c :: l) = String c (utf8 l).
Proof.
  unfold lexeme_of. case_match eqn:Hn; [|done]. boolp. rewrite utf8_small by (apply Nat.ltb_lt in H; lia).
  unfold byte. by rewrite Nat2Z.id, Ascii.ascii_nat_embedding.
Qed.

Lemma parse_quoted s rest : parse_string (quoted s rest) = Some (s, rest).
Proof.
  enough (exists l, lex_string (quoted s rest) = Some (l, rest) /\ utf8 l = s) as (l & Hl & <-).
  { unfold parse_string. by rewrite Hl. }
  induction s as [|c s (l & Hl & Hs)]; [by exists []|].
  exists (lexeme_of c :: l). cbn [quoted]. by rewrite lex_escape, Hl, utf8_lexeme, Hs.
Qed.

Lemma escape_app c a b : escape c (a +:+ b) = escape c a +:+ b.
Proof. unfold escape. repeat case_match; by rewrite ?str_app_cons. Qed.

Lemma quoted_app s a b : quoted s (a +:+ b) = quoted s a +:+ b.
Proof. induction s as [|c s IH]; cbn [quoted]; [by rewrite str_app_cons|]. by rewrite IH, escape_app. Qed.

Lemma quote_app s rest : quote s +:+ rest = String dquote (quoted s rest).
Proof. unfold quote. by rewrite str_app_cons, <- quoted_app, str_app_nil. Qed.

(** What may follow a value: nothing, a comma or a closing bracket. *)
Definition delimited (rest : string) : Prop :=
  match rest with
  | EmptyString => True
  | String c _ => c = ","%char \/ c = "]"%char \/ c = "}"%char
  end.

Lemma skip_delimited rest : delimited rest -> skip_ws rest = rest.
Proof. destruct rest as [|c rest]; [done|]. by intros [->|[->| ->]]. Qed.

(** Integers are printed without a leading zero, and scanned back. *)
Lemma pretty_go_app (x : N) s : pretty_N_go x s = pretty_N_go x "" +:+ s.
Proof.
  revert s. induction (N.lt_wf_0 x) as [x _ IH]. intros s.
  destruct (decide (x = 0)%N) as [->|Hx]; [by rewrite !pretty_N_go_0|].
  assert (x `div` 10 < x)%N as Hlt by (apply N.div_lt; lia).
  rewrite (pretty_N_go_step x s), (pretty_N_go_step x "") by lia.
  by rewrite (IH _ Hlt (String _ s)), (IH _ Hlt (String _ "")), str_app_assoc, str_app_cons, str_app_nil.
Qed.

Lemma pretty_go_head (x : N) s : (0 < x)%N ->
  exists c s', pretty_N_go x s = String c s' /\ is_digit c = true /\ c <> "0"%char.
Proof.
  revert s. induction (N.lt_wf_0 x) as [x _ IH]. intros s Hx. rewrite pretty_N_go_step by done.
  destruct (decide (x `div` 10 = 0)%N) as [Hz|Hnz]; [|apply IH; [by apply N.div_lt|by apply N.neq_0_lt_0]].
  rewrite Hz, pretty_N_go_0. eexists _, _. split; [done|].
  assert (x < 10)%N as Hlt by (apply N.div_small_iff in Hz; [done|lia]).
  rewrite N.mod_small by done.
  assert (x = 1 \/ x = 2 \/ x = 3 \/ x = 4 \/ x = 5 \/ x = 6 \/ x = 7 \/ x = 8 \/ x = 9)%N as Hc by lia.
  destruct_or! Hc; subst; done.
Qed.

Lemma number_string_int z :
  number_string (num_of_Z z) = (if z <? 0 then "-" else "") +:+ pretty (Z.abs z).
Proof.
  unfold number_string, num_of_Z.
  change (Qabs (inject_Z z)) with (inject_Z (Z.abs z)).
  assert (least_scale 20 0 (inject_Z (Z.abs z)) = 0%nat) as ->.
  { cbn [least_scale]. case_match eqn:H; [done|]. exfalso. revert H. apply not_false_iff_true, Qeq_bool_iff.
    change (10 ^ Z.of_nat 0) with 1. by rewrite <- inject_Z_mult, Qfloor_Z. }
  rewrite Qfloor_Z. change ((0 =? 0)%nat) with true. cbn iota. rewrite str_app_empty_r.
  f_equal. unfold Qltb, Qle_bool, inject_Z. cbn [Qnum Qden]. rewrite !Z.mul_1_r.
  destruct (Z.leb_spec 0 z), (Z.ltb_spec z 0); (done || lia).
Qed.

Lemma pretty_digit n : 0 <= n -> exists c s', pretty n = String c s' /\ is_digit c = true.
Proof.
  intros Hn. destruct n as [|p|p]; [by eexists _, _| |lia].
  destruct (pretty_go_head (N.pos p) "" ltac:(done)) as (c & s' & Hcs & Hc & _). by exists c, s'.
Qed.

Lemma digit_ne c d : is_digit c = true -> is_digit d = false -> Ascii.eqb c d = false.
Proof. intros Hc Hd. apply Ascii.eqb_neq. intros ->. congruence. Qed.

(** The digits of a natural number, before something that is no digit. *)
Lemma scan_pretty n rest : 0 <= n -> delimited rest ->
  exists d, scan_digits 0 (pretty n +:+ rest) = (S d, n, rest)
            /\ (1 <? S d)%nat && starts_with "0" (pretty n +:+ rest) = false.
Proof.
  intros Hn Hr. assert (forall acc, scan_digits acc rest = (0%nat, acc, rest)) as Hrest.
  { intros acc. destruct rest as [|c rest]; [done|]. by destruct Hr as [->|[->| ->]]. }
  destruct n as [|p|p]; [|clear Hn|lia].
  { exists 0%nat. change (pretty 0) with "0". rewrite str_app_cons, str_app_nil. cbn. by rewrite Hrest. }
  change (pretty (Z.pos p)) with (pretty_N_go (N.pos p) "").
  rewrite <- pretty_go_app.
  destruct (scan_digits_pretty (N.pos p) ltac:(done) rest) as (d & k & Hd).
  destruct (pretty_go_head (N.pos p) rest ltac:(done)) as (c & s' & Hcs & _ & Hc).
  exists (d + 0)%nat. rewrite Hd, Hrest, Hcs. split; [done|].
  cbn [starts_with]. destruct (Ascii.eqb_spec "0" c); [by subst|]. by rewrite andb_false_r.
Qed.

Lemma parse_number_int z rest : delimited rest ->
  parse_number (number_string (num_of_Z z) +:+ rest) = Some (num_of_Z z, rest).
Proof.
  intros Hr. rewrite number_string_int, str_app_assoc.
  destruct (scan_pretty (Z.abs z) rest ltac:(lia) Hr) as (d & Hd & Hzero).
  assert (forall sgn, sgn * Z.abs z = z ->
    parse_unsigned sgn (pretty (Z.abs z) +:+ rest) = Some (num_of_Z z, rest)) as Hint.
  { intros sgn Hs. unfold parse_unsigned. rewrite Hd, Hzero.
    assert (parse_fraction (Z.abs z) rest = Some (0%nat, Z.abs z, rest) /\ parse_exponent rest = Some (0, rest))
      as [Hf He] by (destruct rest as [|c rest]; [done|]; by destruct Hr as [->|[->| ->]]).
    rewrite Hf. cbn [mbind option_bind]. rewrite He. cbn. rewrite Hs. unfold Qscale, num_of_Z. cbn.
    by rewrite Z.mul_1_r. }
  destruct (Z.ltb_spec z 0) as [Hz|Hz].
  { rewrite str_app_cons, str_app_nil. cbn. apply Hint. lia. }
  rewrite str_app_nil. rewrite <- (Hint 1) by lia.
  destruct (pretty_digit (Z.abs z) ltac:(lia)) as (c & s' & Hcs & Hc). rewrite Hcs, str_app_cons.
  cbn [parse_number]. by rewrite (digit_ne c "-"%char Hc eq_refl).
Qed.

Definition parses (j : json) : Prop := forall fuel rest,
  json_ok j -> delimited rest -> (2 * String.length (stringify j) + 1 <= fuel)%nat ->
  parse_value fuel (stringify j +:+ rest) = Some (j, rest).

Lemma number_head n rest : json_ok (JNum n) -> exists c s,
  number_string n +:+ rest = String c s /\ (is_digit c = true \/ c = "-"%char).
Proof.
  intros [z ->]. rewrite number_string_int, str_app_assoc.
  destruct (z <? 0); [by eexists _, _; split; [reflexivity|right]|].
  destruct (pretty_digit (Z.abs z) ltac:(lia)) as (c & s & Hcs & Hc).
  rewrite Hcs, str_app_nil, str_app_cons. by eexists _, _; split; [reflexivity|left].
Qed.

(** The head of a number is none of the characters that open another value. *)
Lemma number_head_ne c s : is_digit c = true \/ c = "-"%char ->
  skip_ws (String c s) = String c s
  /\ (Ascii.eqb c dquote || Ascii.eqb c "["%char || Ascii.eqb c "{"%char) = false
  /\ starts_with "null" (String c s) || starts_with "true" (String c s) || starts_with "false" (String c s) = false.
Proof.
  intros [Hc| ->]; [|done].
  destruct c as [[] [] [] [] [] [] [] []]; try (vm_compute in Hc; discriminate Hc); done.
Qed.

Lemma parses_num n : parses (JNum n).
Proof.
  intros fuel rest [z ->] Hr Hf. destruct fuel as [|fuel]; [lia|]. cbn [stringify is_finite].
  change (is_finite (num_of_Z z)) with true. cbn iota.
  pose proof (parse_number_int z rest Hr) as Hp.
  destruct (number_head (num_of_Z z) rest) as (c & s & Hcs & Hc); [by exists z|]. rewrite Hcs in *.
  destruct (number_head_ne c s Hc) as (Hws & H1 & H2). cbn [parse_value]. rewrite Hws.
  rewrite !orb_false_iff in H1, H2. destruct H1 as [[-> ->] ->], H2 as [[-> ->] ->].
  by rewrite Hp.
Qed.

Lemma stringify_head j rest : json_ok j -> exists c s,
  stringify j +:+ rest = String c s /\ skip_ws (String c s) = String c s /\ c <> "]"%char.
Proof.
  destruct j as [|[]|n|s|l|fs]; intros Hok; try (by eexists _, _).
  destruct (number_head n rest Hok) as (c & s & Hcs & Hc). cbn [stringify].
  assert (is_finite n = true) as -> by (destruct Hok as [z ->]; done).
  exists c, s. rewrite Hcs. destruct (number_head_ne c s Hc) as (Hws & _). split_and!; [done..|].
  destruct Hc as [Hc| ->]; [|done]. by intros ->.
Qed.

(** The items of an array, after its bracket. *)
Lemma parse_items_join x l : Forall parses (x :: l) -> fold_right (fun x P => json_ok x /\ P) True (x :: l) ->
  forall fuel rest, (2 * String.length (join_with "," (map stringify (x :: l))) + 2 <= fuel)%nat ->
  parse_items fuel (join_with "," (map stringify (x :: l)) +:+ String "]" rest) = Some (x :: l, rest).
Proof.
  revert x. induction l as [|y l IH]; intros x HF Hok fuel rest Hf;
    apply Forall_cons in HF as [Hx HF]; destruct Hok as [Hxok Hok]; (destruct fuel as [|fuel]; [lia|]).
  - cbn [map join_with] in *. cbn [parse_items].
    rewrite Hx; [|done|by right; left|lia]. done.
  - cbn [map] in *. rewrite join_with_cons, !length_str_app in Hf.
    rewrite join_with_cons, !str_app_assoc, str_app_cons, str_app_nil. cbn [parse_items].
    rewrite Hx; [|done|by left|lia]. cbn [mbind option_bind]. rewrite skip_delimited by (by left).
    cbn [starts_with Ascii.eqb skip_str Bool.eqb andb]. rewrite (IH y HF Hok); [done|]. cbn [String.length] in Hf. lia.
Qed.

(** The members of an object, after its brace. *)
Definition member_text (f : string * json) : string := quote f.1 +:+ ":" +:+ stringify f.2.

Lemma parse_member f fuel rest : parses f.2 -> json_ok f.2 -> delimited rest ->
  (2 * String.length (stringify f.2) + 1 <= fuel)%nat ->
  parse_members (S fuel) (member_text f +:+ rest) =
  (if starts_with "}" rest then Some ([f], skip_str 1 rest)
   else if starts_with "," rest then '(l, r') ← parse_members fuel (skip_str 1 rest); Some (f :: l, r')
   else None).
Proof.
  intros Hf Hok Hr Hfuel. unfold member_text. rewrite !str_app_assoc, quote_app.
  cbn [parse_members]. change (skip_ws (String dquote ?s)) with (String dquote s).
  cbn [starts_with Ascii.eqb skip_str Bool.eqb andb dquote]. rewrite parse_quoted. cbn [mbind option_bind].
  rewrite !str_app_cons, str_app_nil. change (skip_ws (String ":" ?s)) with (String ":"%char s).
  cbn [starts_with Ascii.eqb skip_str Bool.eqb andb]. rewrite Hf by done. cbn [mbind option_bind].
  rewrite skip_delimited by done. by destruct f.
Qed.

Lemma parse_members_join x l :
  Forall (fun f => parses f.2) (x :: l) -> fold_right (fun f P => json_ok f.2 /\ P) True (x :: l) ->
  forall fuel rest, (2 * String.length (join_with "," (map member_text (x :: l))) + 2 <= fuel)%nat ->
  parse_members fuel (join_with "," (map member_text (x :: l)) +:+ String "}" rest) = Some (x :: l, rest).
Proof.
  revert x. induction l as [|y l IH]; intros x HF Hok fuel rest Hf;
    apply Forall_cons in HF as [Hx HF]; destruct Hok as [Hxok Hok]; (destruct fuel as [|fuel]; [lia|]).
  - cbn [map join_with] in *. unfold member_text in Hf. rewrite !length_str_app in Hf.
    rewrite parse_member; [done|done|done|by right; right|lia].
  - cbn [map] in *. rewrite join_with_cons, !length_str_app in Hf. unfold member_text in Hf at 1.
    rewrite !length_str_app in Hf. cbn [String.length] in Hf.
    rewrite join_with_cons, !str_app_assoc, str_app_cons, str_app_nil.
    rewrite parse_member; [|done|done|by left|lia]. cbn [starts_with Ascii.eqb skip_str Bool.eqb andb].
    rewrite (IH y HF Hok); [done|]. lia.
Qed.

Lemma obj_of_nodup fs : NoDup (map fst fs) -> obj_of fs = JObj fs.
Proof.
  intros Hnd. unfold obj_of. f_equal.
  enough (forall acc, NoDup (map fst (acc ++ fs)) ->
    fold_left (fun fs m => json_set m.1 m.2 fs) fs acc = acc ++ fs) as H by (by apply (H [])).
  clear Hnd. induction fs as [|[k v] fs IH]; intros acc Hnd; cbn; [by rewrite app_nil_r|].
  assert (json_set k v acc = acc ++ [(k, v)]) as ->.
  { assert (k ∉ map fst acc) as Hk.
    { rewrite map_app in Hnd. apply NoDup_app in Hnd as (_ & Hd & _). intros Hin. apply (Hd k Hin). by left. }
    clear -Hk. induction acc as [|[k' v'] acc IH]; [done|]. cbn in *. apply not_elem_of_cons in Hk as [Hne Hk].
    rewrite (proj2 (str_eqb_neq k' k)) by done. by rewrite IH. }
  rewrite IH; rewrite <- app_assoc; done.
Qed.

Lemma join_head sep p ps : exists t, join_with sep (p :: ps) = p +:+ t.
Proof. destruct ps as [|q ps]; [exists ""; by rewrite str_app_empty_r|by eexists]. Qed.

Lemma parse_value_stringify j : parses j.
Proof.
  induction j as [|b|n|s|l Hl|fs Hfs] using json_nested; [| |apply parses_num| | |];
    intros fuel rest Hok Hr Hf; (destruct fuel as [|fuel]; [lia|]).
  - done.
  - by destruct b.
  - cbn [stringify]. rewrite quote_app. cbn [parse_value].
    change (skip_ws (String dquote ?s)) with (String dquote s). change (Ascii.eqb dquote dquote) with true.
    cbv beta iota. by rewrite parse_quoted.
  - destruct l as [|x l]; [done|]. cbn [stringify] in *. rewrite !length_str_app in Hf. cbn [String.length] in Hf.
    rewrite !str_app_assoc, !str_app_cons, !str_app_nil.
    destruct (join_head "," (stringify x) (map stringify l)) as [t Ht].
    destruct (stringify_head x (t +:+ String "]" rest)) as (c & s & Hcs & Hws & Hc); [apply Hok|].
    rewrite <- str_app_assoc, <- Ht in Hcs. cbn [parse_value].
    change (skip_ws (String "[" ?s)) with (String "["%char s). cbv beta iota. change (Ascii.eqb "["%char dquote) with false.
    change (Ascii.eqb "["%char "["%char) with true. cbv beta iota. cbn [map] in *. rewrite Hcs, Hws. cbn [starts_with].
    destruct (Ascii.eqb_spec "]"%char c) as [<-|_]; [done|]. cbn [andb]. rewrite <- Hcs.
    change (stringify x :: map stringify l) with (map stringify (x :: l)) in *.
    by rewrite parse_items_join by (done || lia).
  - destruct fs as [|f fs]; [done|]. destruct Hok as [Hnd Hok]. cbn [stringify] in *.
    change (map (fun f => quote f.1 +:+ ":" +:+ stringify f.2) ?l) with (map member_text l) in *.
    rewrite !length_str_app in Hf. cbn [String.length] in Hf. rewrite !str_app_assoc, !str_app_cons, !str_app_nil.
    destruct (join_head "," (member_text f) (map member_text fs)) as [t Ht].
    assert (exists u, join_with "," (map member_text (f :: fs)) +:+ String "}" rest = String dquote u) as [u Hu].
    { cbn [map]. rewrite Ht. unfold member_text. rewrite !str_app_assoc, quote_app. by eexists. }
    cbn [parse_value]. change (skip_ws (String "{" ?s)) with (String "{"%char s). cbv beta iota.
    change (Ascii.eqb "{"%char dquote) with false. change (Ascii.eqb "{"%char "["%char) with false. change (Ascii.eqb "{"%char "{"%char) with true.
    cbv beta iota.
    rewrite Hu. change (starts_with "}" (skip_ws (String dquote u))) with false. cbv beta iota. rewrite <- Hu.
    rewrite (parse_members_join f fs) by (done || lia). cbn [mbind option_bind].
    by rewrite obj_of_nodup.
Qed.

(** [JSON.parse(JSON.stringify(j))] is [j]. *)
Lemma parse_stringify j : json_ok j -> parse (stringify j) = Some j.
Proof.
  intros Hok. unfold parse. rewrite <- (str_app_empty_r (stringify j)) at 2.
  rewrite parse_value_stringify by (done || lia). done.
Qed.
