(* ===== verification/Dates.v ===== *)
(** * Dates

    [Date.prototype.toISOString] and [new Date(iso)] for the UTC times of the
    years 0 to 9999, on the proleptic Gregorian calendar. *)
From S2P Require Import Prelude Numbers.
Open Scope Z_scope.

Definition DAY : ms := 86400000.

(** Days since 1970-01-01 to (year, month, day) and back; years start in March
    inside the computation, and eras have 400 years: the year, month and day of a
    day of its era, and the day of a date. *)
Definition era_parts (doe : Z) : Z * Z * Z :=
  let yoe := (doe - doe / 1460 + doe / 36524 - doe / 146096) / 365 in
  let doy := doe - (365 * yoe + yoe / 4 - yoe / 100) in
  let mp := (5 * doy + 2) / 153 in
  (yoe, if mp <? 10 then mp + 3 else mp - 9, doy - (153 * mp + 2) / 5 + 1).
Definition era_day (date : Z * Z * Z) : Z :=
  let '(yoe, m, d) := date in
  yoe * 365 + yoe / 4 - yoe / 100 + ((153 * (if 2 <? m then m - 3 else m + 9) + 2) / 5 + d - 1).

Definition civil_from_days (days : Z) : Z * Z * Z :=
  let z := days + 719468 in
  let '(yoe, m, d) := era_parts (z mod 146097) in
  let y := yoe + z / 146097 * 400 in
  (if m <=? 2 then y + 1 else y, m, d).
Definition days_from_civil (date : Z * Z * Z) : Z :=
  let '(y0, m, d) := date in
  let y := if m <=? 2 then y0 - 1 else y0 in
  y / 400 * 146097 + era_day (y mod 400, m, d) - 719468.

(** Fixed-width decimals. *)
Definition digit (n : Z) : Ascii.ascii := Ascii.ascii_of_nat (Z.to_nat (48 + n mod 10)).
Fixpoint pad (width : nat) (n : Z) (rest : string) : string :=
  match width with
  | O => rest
  | S w => pad w (n / 10) (String (digit n) rest)
  end.
(** The number in the first [width] digits, and what follows. *)
Fixpoint take_digits (width : nat) (acc : Z) (s : string) : option (Z * string) :=
  match width, s with
  | O, _ => Some (acc, s)
  | S w, String c s' => if is_digit c then take_digits w (acc * 10 + digit_val c) s' else None
  | S _, EmptyString => None
  end.
Definition take_char (c : Ascii.ascii) (s : string) : option string :=
  match s with String d s' => if Ascii.eqb c d then Some s' else None | EmptyString => None end.

(** [new Date(t).toISOString()]. *)
Definition toISOString (t : ms) : string :=
  let '(y, m, d) := civil_from_days (t / DAY) in
  let r := t mod DAY in
  pad 4 y (String "-"%char (pad 2 m (String "-"%char (pad 2 d (String "T"%char
    (pad 2 (r / 3600000) (String ":"%char (pad 2 (r / 60000 mod 60) (String ":"%char
    (pad 2 (r / 1000 mod 60) (String "."%char (pad 3 (r mod 1000) "Z")))))))))))).

(** [new Date(s).getTime()] of such a string; [None] is [NaN]. *)
Definition parseISO (s : string) : option ms :=
  '(y, s) ← take_digits 4 0 s; s ← take_char "-"%char s;
  '(m, s) ← take_digits 2 0 s; s ← take_char "-"%char s;
  '(d, s) ← take_digits 2 0 s; s ← take_char "T"%char s;
  '(h, s) ← take_digits 2 0 s; s ← take_char ":"%char s;
  '(mi, s) ← take_digits 2 0 s; s ← take_char ":"%char s;
  '(sec, s) ← take_digits 2 0 s; s ← take_char "."%char s;
  '(milli, s) ← take_digits 3 0 s; s ← take_char "Z"%char s;
  if str_eqb s "" then
    Some (days_from_civil (y, m, d) * DAY + h * 3600000 + mi * 60000 + sec * 1000 + milli)
  else None.

(** ** The round trip *)

Lemma yoe_bounds doe yoe : 0 <= doe < 146097 ->
  yoe = (doe - doe / 1460 + doe / 36524 - doe / 146096) / 365 ->
  0 <= yoe < 400 /\ 0 <= doe - (365 * yoe + yoe / 4 - yoe / 100) <= 365.
Proof. intros H ->. Z.to_euclidean_division_equations. lia. Qed.

(** Every day of a year. *)
Definition month_ok (doy : Z) : bool :=
  let mp := (5 * doy + 2) / 153 in
  let d := doy - (153 * mp + 2) / 5 + 1 in (0 <=? mp) && (mp <=? 11) && (1 <=? d) && (d <=? 31).
Lemma month_all : forallb month_ok (seqZ 0 366) = true.
Proof. vm_compute. reflexivity. Qed.

Lemma month_day doy mp : 0 <= doy <= 365 -> mp = (5 * doy + 2) / 153 ->
  0 <= mp <= 11 /\ 1 <= doy - (153 * mp + 2) / 5 + 1 <= 31.
Proof.
  intros H ->. pose proof month_all as Hall. rewrite forallb_forall in Hall.
  specialize (Hall doy ltac:(apply list_elem_of_In, elem_of_seqZ; lia)). unfold month_ok in Hall. boolp. lia.
Qed.

Lemma era_parts_ok doe yoe m d : 0 <= doe < 146097 -> era_parts doe = (yoe, m, d) ->
  0 <= yoe < 400 /\ 1 <= m <= 12 /\ 1 <= d <= 31 /\ era_day (yoe, m, d) = doe.
Proof.
  intros Hd Hp. unfold era_parts in Hp. injection Hp as Hy Hm Hday.
  destruct (yoe_bounds doe _ Hd (eq_sym Hy)) as [Hyb Hdoy]. rewrite Hy in Hm, Hday.
  destruct (month_day _ _ Hdoy eq_refl) as [Hmp Hdb]. rewrite Hday in Hdb. unfold era_day.
  set (doy := doe - (365 * yoe + yoe / 4 - yoe / 100)) in *. set (mp := (5 * doy + 2) / 153) in *.
  assert ((if 2 <? m then m - 3 else m + 9) = mp) as ->
    by (destruct (Z.ltb_spec mp 10), (Z.ltb_spec 2 m); lia).
  destruct (Z.ltb_spec mp 10); lia.
Qed.

Lemma civil_round days y m d : civil_from_days days = (y, m, d) ->
  days_from_civil (y, m, d) = days /\ 1 <= m <= 12 /\ 1 <= d <= 31.
Proof.
  unfold civil_from_days. set (z := days + 719468).
  pose proof (Z.mod_pos_bound z 146097 ltac:(lia)) as Hz. pose proof (Z.div_mod z 146097 ltac:(lia)) as Hdiv.
  destruct (era_parts (z mod 146097)) as [[yoe m'] d'] eqn:Hp.
  apply era_parts_ok in Hp as (Hy & Hm & Hd & He); [|done]. intros H. injection H as Hye -> ->.
  split; [|done]. unfold days_from_civil.
  assert ((if m <=? 2 then y - 1 else y) = yoe + z / 146097 * 400) as -> by (destruct (m <=? 2); lia).
  rewrite Z.div_add, Z.mod_add, Z.div_small, Z.mod_small by lia. lia.
Qed.

Lemma take_pad w v acc n s : 0 <= n ->
  take_digits (w + v) acc (pad w n s) = take_digits v (acc * 10 ^ Z.of_nat w + n mod 10 ^ Z.of_nat w) s.
Proof.
  revert v n s. induction w as [|w IH]; intros v n s Hn.
  { cbn [pad Nat.add]. change (10 ^ Z.of_nat 0) with 1. rewrite Z.mod_1_r. f_equal. lia. }
  cbn [pad]. rewrite Nat.add_succ_comm, IH by (by apply Z.div_pos). cbn [take_digits].
  pose proof (Z.mod_pos_bound n 10 ltac:(lia)) as Hm.
  assert (is_digit (digit n) = true /\ digit_val (digit n) = n mod 10) as [-> ->].
  { unfold digit. set (x := n mod 10) in *. clearbody x.
    assert (x = 0 \/ x = 1 \/ x = 2 \/ x = 3 \/ x = 4 \/ x = 5 \/ x = 6 \/ x = 7 \/ x = 8 \/ x = 9) as Hx by lia.
    destruct_or! Hx; subst; done. }
  f_equal. rewrite Nat2Z.inj_succ, Z.pow_succ_r by lia.
  rewrite (Z.rem_mul_r n 10 (10 ^ Z.of_nat w)) by lia. lia.
Qed.

Lemma take_pad_all w n s : 0 <= n < 10 ^ Z.of_nat w -> take_digits w 0 (pad w n s) = Some (n, s).
Proof.
  intros Hn. pose proof (take_pad w 0 0 n s ltac:(lia)) as H. rewrite Nat.add_0_r in H. rewrite H. cbn [take_digits].
  by rewrite Z.mul_0_l, Z.add_0_l, Z.mod_small.
Qed.

(** The times whose text has a four-digit year. *)
Definition year_four (t : ms) : Prop := 0 <= (civil_from_days (t / DAY)).1.1 < 10000.

(** [new Date(new Date(t).toISOString()).getTime()] is [t]. *)
Lemma parse_toISOString t : year_four t -> parseISO (toISOString t) = Some t.
Proof.
  unfold year_four, toISOString, parseISO. intros Hy.
  destruct (civil_from_days (t / DAY)) as [[y m] d] eqn:Hc. cbn [fst] in Hy.
  apply civil_round in Hc as (Hdays & Hm & Hd). pose proof (Z.mod_pos_bound t DAY ltac:(done)) as Hr.
  pose proof (Z.div_mod t DAY ltac:(done)) as Ht. set (r := t mod DAY) in *. change DAY with 86400000 in *.
  rewrite take_pad_all by (cbn; lia). cbn [mbind option_bind take_char Ascii.eqb Bool.eqb].
  rewrite take_pad_all by (cbn; lia). cbn [mbind option_bind take_char Ascii.eqb Bool.eqb].
  rewrite take_pad_all by (cbn; lia). cbn [mbind option_bind take_char Ascii.eqb Bool.eqb].
  rewrite take_pad_all by (cbn; split; [apply Z.div_pos|apply Z.div_lt_upper_bound]; lia).
  cbn [mbind option_bind take_char Ascii.eqb Bool.eqb].
  pose proof (Z.mod_pos_bound (r / 60000) 60 ltac:(lia)). pose proof (Z.mod_pos_bound (r / 1000) 60 ltac:(lia)).
  pose proof (Z.mod_pos_bound r 1000 ltac:(lia)).
  rewrite take_pad_all by (cbn; lia). cbn [mbind option_bind take_char Ascii.eqb Bool.eqb].
  rewrite take_pad_all by (cbn; lia). cbn [mbind option_bind take_char Ascii.eqb Bool.eqb].
  rewrite take_pad_all by (cbn; lia). cbn [mbind option_bind take_char Ascii.eqb Bool.eqb].
  change (str_eqb "" "") with true. cbv iota. f_equal. rewrite Hdays.
  pose proof (Z.div_mod r 1000 ltac:(lia)). pose proof (Z.div_mod (r / 1000) 60 ltac:(lia)).
  pose proof (Z.div_mod (r / 60000) 60 ltac:(lia)).
  assert (r / 1000 / 60 = r / 60000 /\ r / 60000 / 60 = r / 3600000) as [E1 E2]
    by (by rewrite !Z.div_div by lia). lia.
Qed.

(** ** Examples: a leap day, the last instant of a century, the epoch. *)
Example iso_examples :
  map toISOString [1709210096789; 4102444799999; 0]
  = ["2024-02-29T12:34:56.789Z"; "2099-12-31T23:59:59.999Z"; "1970-01-01T00:00:00.000Z"].
Proof. vm_compute. reflexivity. Qed.

Example iso_read_back :
  map (fun t => parseISO (toISOString t)) [1709210096789; 4102444799999; 0]
  = [Some 1709210096789; Some 4102444799999; Some 0].
Proof. vm_compute. reflexivity. Qed.
