(* ===== verification/Effects.v ===== *)
(** * Effects: asynchronous handlers as programs over a shared store

    An [async] method of a service is a [prog]: a tree of atomic accesses to a
    shared world (one per awaited repository, cache or queue call), ended by a
    returned value or a thrown exception.  [run] is the sequential semantics,
    [pool_step] the interleaving of several requests at their awaits, and [rg]
    a rely/guarantee logic for the pools, proved sound by rule induction. *)
From S2P Require Import Prelude.

(** The settled result of a promise. *)
Inductive outcome (E A : Type) : Type :=
| Ok (a : A)
| Exn (e : E).
Arguments Ok {E A} a.
Arguments Exn {E A} e.

Inductive prog (W E A : Type) : Type :=
| Ret (a : A)
| Throw (e : E)
| Atomic (X : Type) (f : W -> X * W) (k : X -> prog W E A).
Arguments Ret {W E A} a.
Arguments Throw {W E A} e.
Arguments Atomic {W E A} X f k.

(** Sequencing: [const x = await p; ...]. *)
Fixpoint bind {W E A B : Type} (p : prog W E A) (q : A -> prog W E B) : prog W E B :=
  match p with
  | Ret a => q a
  | Throw e => Throw e
  | Atomic X f k => Atomic X f (fun x => bind (k x) q)
  end.

(** [try { p } catch (e) { h(e) }]. *)
Fixpoint try_catch {W E A : Type} (p : prog W E A) (h : E -> prog W E A) : prog W E A :=
  match p with
  | Ret a => Ret a
  | Throw e => h e
  | Atomic X f k => Atomic X f (fun x => try_catch (k x) h)
  end.

(** One awaited access: a query, an update, both at once. *)
Definition access {W E X : Type} (f : W -> X * W) : prog W E X := Atomic X f Ret.
Definition reads {W E X : Type} (f : W -> X) : prog W E X := access (fun w => (f w, w)).
Definition writes {W E : Type} (f : W -> W) : prog W E unit := access (fun w => (tt, f w)).
(** An access that may reject, such as an INSERT under a unique index. *)
Definition attempts {W E X : Type} (f : W -> outcome E X * W) : prog W E X :=
  Atomic _ f (fun o => match o with Ok x => Ret x | Exn e => Throw e end).
(** [if (!cond) throw e;]. *)
Definition guard {W E : Type} (cond : bool) (e : E) : prog W E unit :=
  if cond then Ret tt else Throw e.
(** [for (const x of xs) await body(x);]. *)
Fixpoint for_each {W E A : Type} (xs : list A) (body : A -> prog W E unit) : prog W E unit :=
  match xs with
  | [] => Ret tt
  | x :: xs' => bind (body x) (fun _ => for_each xs' body)
  end.
(** Lift a settled result. *)
Definition of_outcome {W E A : Type} (o : outcome E A) : prog W E A :=
  match o with Ok a => Ret a | Exn e => Throw e end.
(** [const x = o; if (!x) throw e;]. *)
Definition of_option {W E A : Type} (o : option A) (e : E) : prog W E A :=
  match o with Some a => Ret a | None => Throw e end.

Declare Scope prog_scope.
Delimit Scope prog_scope with prog.
Bind Scope prog_scope with prog.
Notation "'let*' x := p 'in' q" := (bind p (fun x => q))
  (at level 10, x name, p at level 100, q at level 200) : prog_scope.
Notation "'do*' p 'in' q" := (bind p (fun _ => q))
  (at level 10, p at level 100, q at level 200) : prog_scope.
Open Scope prog_scope.

(** ** Sequential semantics *)
Fixpoint run {W E A : Type} (p : prog W E A) (w : W) : outcome E A * W :=
  match p with
  | Ret a => (Ok a, w)
  | Throw e => (Exn e, w)
  | Atomic X f k => let '(x, w') := f w in run (k x) w'
  end.

(** A database transaction: the body runs as one access, and a thrown
    exception rolls the world back to the state before it. *)
Definition transaction {W E A : Type} (p : prog W E A) : prog W E A :=
  attempts (fun w => match run p w with
                     | (Ok a, w') => (Ok a, w')
                     | (Exn e, _) => (Exn e, w)
                     end).

Section laws.
Context {W E : Type}.

Lemma run_bind {A B} (p : prog W E A) (q : A -> prog W E B) w :
  run (bind p q) w =
  match run p w with
  | (Ok a, w') => run (q a) w'
  | (Exn e, w') => (Exn e, w')
  end.
Proof.
  revert w; induction p as [a|e|X f k IH]; intros w; cbn; [done|done|].
  destruct (f w) as [x w']. apply IH.
Qed.

Lemma run_try_catch {A} (p : prog W E A) h w :
  run (try_catch p h) w =
  match run p w with
  | (Ok a, w') => (Ok a, w')
  | (Exn e, w') => run (h e) w'
  end.
Proof.
  revert w; induction p as [a|e|X f k IH]; intros w; cbn; [done|done|].
  destruct (f w) as [x w']. apply IH.
Qed.

Lemma run_access {X} (f : W -> X * W) w :
  run (E:=E) (access f) w = (Ok (f w).1, (f w).2).
Proof. cbn. by destruct (f w). Qed.

Lemma run_reads {X} (f : W -> X) w : run (E:=E) (reads f) w = (Ok (f w), w).
Proof. done. Qed.

Lemma run_writes (f : W -> W) w : run (E:=E) (writes f) w = (Ok tt, f w).
Proof. done. Qed.

Lemma run_attempts {X} (f : W -> outcome E X * W) w : run (attempts f) w = f w.
Proof. cbn. by destruct (f w) as [[x|e] w']. Qed.

Lemma run_guard b (e : E) w :
  run (W:=W) (guard b e) w = (if b then Ok tt else Exn e, w).
Proof. by destruct b. Qed.

Lemma run_of_option {A} (o : option A) (e : E) w :
  run (W:=W) (of_option o e) w = (match o with Some a => Ok a | None => Exn e end, w).
Proof. by destruct o. Qed.

Lemma run_of_outcome {A} (o : outcome E A) w : run (W:=W) (of_outcome o) w = (o, w).
Proof. by destruct o. Qed.

Lemma run_transaction {A} (p : prog W E A) w :
  run (transaction p) w =
  match run p w with
  | (Ok a, w') => (Ok a, w')
  | (Exn e, _) => (Exn e, w)
  end.
Proof. unfold transaction. rewrite run_attempts. by destruct (run p w) as [[a|e] w']. Qed.

(** A transaction that throws leaves no trace. *)
Lemma transaction_rollback {A} (p : prog W E A) w e w' :
  run (transaction p) w = (Exn e, w') -> w' = w.
Proof. rewrite run_transaction. destruct (run p w) as [[a|e'] w'']; congruence. Qed.

(** An invariant of the body is an invariant of the loop. *)
Lemma run_for_each_inv {A} (I : W -> Prop) (body : A -> prog W E unit) xs w :
  (forall x w, x ∈ xs -> I w -> I (run (body x) w).2) ->
  I w -> I (run (for_each xs body) w).2.
Proof.
  revert w; induction xs as [|x xs IH]; intros w Hbody Hw; cbn; [done|].
  rewrite run_bind. pose proof (Hbody x w ltac:(set_solver) Hw) as Hx.
  destruct (run (body x) w) as [[[]|e] w']; cbn in *; [|done].
  apply IH; [|done]. intros y v Hy. apply Hbody. set_solver.
Qed.
End laws.

(** ** Program equivalence: equal results from every world. *)
Section equivalence.
Context {W E : Type}.

Definition prog_equiv {A} (p q : prog W E A) : Prop := forall w, run p w = run q w.

#[export] Instance prog_equiv_equivalence A : Equivalence (@prog_equiv A).
Proof.
  split; [by intros ?? | by intros p q H w | intros p q r H1 H2 w].
  by rewrite (H1 w), (H2 w).
Qed.

#[export] Instance bind_proper A B :
  Proper (prog_equiv ==> pointwise_relation A prog_equiv ==> @prog_equiv B) bind.
Proof.
  intros p p' Hp q q' Hq w. rewrite !run_bind, (Hp w).
  destruct (run p' w) as [[a|e] w']; [apply Hq | done].
Qed.

#[export] Instance transaction_proper A :
  Proper (prog_equiv ==> prog_equiv) (@transaction W E A).
Proof. intros p p' Hp w. by rewrite !run_transaction, (Hp w). Qed.

Lemma bind_ret_r {A} (p : prog W E A) : prog_equiv (bind p Ret) p.
Proof. intros w. rewrite run_bind. by destruct (run p w) as [[a|e] w']. Qed.

Lemma bind_assoc {A B C} (p : prog W E A) (q : A -> prog W E B) (r : B -> prog W E C) :
  prog_equiv (bind (bind p q) r) (bind p (fun a => bind (q a) r)).
Proof. intros w. rewrite !run_bind. destruct (run p w) as [[a|e] w']; [by rewrite run_bind | done]. Qed.

(** A transaction inside a transaction adds nothing. *)
Lemma transaction_idem {A} (p : prog W E A) :
  prog_equiv (transaction (transaction p)) (transaction p).
Proof. intros w. rewrite !run_transaction. by destruct (run p w) as [[a|e] w']. Qed.
End equivalence.

(** ** Components over a part of the world

    A component's programs work on its own store [P]; a client that owns a
    larger world [W] runs them through a [Lens]. *)
Class Lens (W P : Type) := {
  lget : W -> P;
  lset : P -> W -> W;
  lget_lset : forall p w, lget (lset p w) = p;
  lset_lget : forall w, lset (lget w) w = w;
  lset_lset : forall p q w, lset p (lset q w) = lset p w;
}.

Definition map_exn {E E' A : Type} (inj : E -> E') (o : outcome E A) : outcome E' A :=
  match o with Ok a => Ok a | Exn e => Exn (inj e) end.

Fixpoint lift {W P E E' A : Type} `{!Lens W P} (inj : E -> E') (p : prog P E A) : prog W E' A :=
  match p with
  | Ret a => Ret a
  | Throw e => Throw (inj e)
  | Atomic X f k =>
      Atomic X (fun w => let '(x, q) := f (lget w) in (x, lset q w)) (fun x => lift inj (k x))
  end.

Lemma run_lift {W P E E' A} `{!Lens W P} (inj : E -> E') (p : prog P E A) (w : W) :
  run (lift inj p) w =
  let '(o, q) := run p (lget w) in (map_exn inj o, lset q w).
Proof.
  revert w; induction p as [a|e|X f k IH]; intros w; cbn; [by rewrite lset_lget..|].
  destruct (f (lget w)) as [x q]. rewrite IH, lget_lset.
  destruct (run (k x) q) as [o q']. by rewrite lset_lset.
Qed.

(** A lifted program keeps what the lens does not see. *)
Lemma lift_frame {W P E E' A} `{!Lens W P} {B} (proj : W -> B) (inj : E -> E') (p : prog P E A) w :
  (forall q w, proj (lset q w) = proj w) -> proj (run (lift inj p) w).2 = proj w.
Proof. intros H. rewrite run_lift. destruct (run p (lget w)); cbn. apply H. Qed.

Create Rewrite HintDb run.
#[export] Hint Rewrite @run_bind @run_try_catch @run_access @run_reads @run_writes
  @run_attempts @run_guard @run_of_option @run_of_outcome @run_transaction @run_lift : run.

(** Push [run] through the combinators of the goal. *)
Ltac run_simp := repeat (progress (autorewrite with run; cbn [fst snd run negb])); cbn [fst snd run negb].
Ltac run_simp_in H := repeat (progress (autorewrite with run in H; cbn [fst snd run negb] in H)); cbn [fst snd run negb] in H.

(** ** Interleaving *)
Section pool.
Context {W E A : Type}.

(** The requests in flight, by request number. *)
Abbreviation pool := (gmap positive (prog W E A)).

Inductive pool_step : W * pool -> W * pool -> Prop :=
| pool_step_atomic t X f k w ps :
    ps !! t = Some (Atomic X f k) ->
    pool_step (w, ps) ((f w).2, <[t := k (f w).1]> ps).

Definition pool_reach : W * pool -> W * pool -> Prop := rtc pool_step.

(** Executable counterpart: one step of request [t], and a schedule. *)
Definition step_one (t : positive) (s : W * pool) : W * pool :=
  match s.2 !! t with
  | Some (Atomic X f k) => ((f s.1).2, <[t := k (f s.1).1]> s.2)
  | _ => s
  end.
Definition run_schedule (ts : list positive) (s : W * pool) : W * pool :=
  fold_left (fun s t => step_one t s) ts s.

Lemma step_one_reach t s : pool_reach s (step_one t s).
Proof.
  destruct s as [w ps]. unfold step_one; cbn.
  destruct (ps !! t) as [[a|e|X f k]|] eqn:Ht; try apply rtc_refl.
  apply rtc_once. by constructor.
Qed.

Lemma run_schedule_reach ts s : pool_reach s (run_schedule ts s).
Proof.
  revert s; induction ts as [|t ts IH]; intros s; cbn; [apply rtc_refl|].
  etrans; [apply step_one_reach | apply IH].
Qed.

(** *** Rely/guarantee

    [I]: invariant of the world; [G t]: what request [t] may do to it. *)
Context (I : W -> Prop) (G : positive -> W -> W -> Prop).

(** [P] survives the steps of the other requests. *)
Definition stable (t : positive) (P : W -> Prop) : Prop :=
  forall t' w w', t' <> t -> I w -> P w -> G t' w w' -> P w'.

Lemma stable_True t : stable t (fun _ => True).
Proof. done. Qed.

(** [rg t P p post]: from a world where [P] holds, every access of [p] keeps
    [I], stays within [G t] and ends in a stable assertion, and [p] ends in
    [post]. *)
Fixpoint rg {B : Type} (t : positive) (P : W -> Prop) (p : prog W E B)
    (post : outcome E B -> W -> Prop) : Prop :=
  match p with
  | Ret a => forall w, I w -> P w -> post (Ok a) w
  | Throw e => forall w, I w -> P w -> post (Exn e) w
  | Atomic X f k =>
      forall w, I w -> P w ->
        I (f w).2 /\ G t w (f w).2 /\
        exists Q, Q (f w).2 /\ stable t Q /\ rg t Q (k (f w).1) post
  end.

(** Every request of the pool is at a point whose assertion holds now and is
    stable. *)
Definition pool_ok (post : positive -> outcome E A -> W -> Prop) (s : W * pool) : Prop :=
  I s.1 /\
  forall t p, s.2 !! t = Some p ->
    exists P, P s.1 /\ stable t P /\ rg t P p (post t).

Lemma pool_ok_step post s s' : pool_ok post s -> pool_step s s' -> pool_ok post s'.
Proof.
  intros [HI Hall] Hstep. destruct Hstep as [t X f k w ps Ht]; cbn in *.
  destruct (Hall t _ Ht) as (P & HP & _ & Hrg).
  destruct (Hrg w HI HP) as (HI' & HG & Q & HQ & HstQ & Hk).
  split; [done|]. intros u p Hu. cbn in Hu.
  destruct (decide (t = u)) as [<-|Hne].
  - rewrite lookup_insert_eq in Hu. simplify_eq. eauto.
  - rewrite lookup_insert_ne in Hu by done.
    destruct (Hall u p Hu) as (R & HR & HstR & HrgR).
    exists R. split; [|done]. by apply (HstR t w).
Qed.

Lemma rg_sound post s s' : pool_ok post s -> pool_reach s s' -> pool_ok post s'.
Proof. intros H Hr. induction Hr; eauto using pool_ok_step. Qed.

(** What every guaranteed step keeps holds in the reachable worlds. *)
Lemma pool_guar_inv (F : W -> Prop) post s s' :
  (forall t w w', F w -> G t w w' -> F w') -> F s.1 -> pool_ok post s -> pool_reach s s' -> F s'.1.
Proof.
  intros HF HFs Hok Hr. induction Hr as [|s1 s2 s3 Hstep Hr IH]; [done|].
  apply IH; [|by eapply pool_ok_step]. destruct Hstep as [t X f k w ps Ht]; cbn in *.
  destruct Hok as [HI Hall]. destruct (Hall t _ Ht) as (P & HP & _ & Hrg).
  destruct (Hrg w HI HP) as (_ & HG & _). eauto.
Qed.

(** A sequential run is an interleaving of one. *)
Lemma rg_run {B} t (P : W -> Prop) (p : prog W E B) post w :
  rg t P p post -> I w -> P w -> I (run p w).2 /\ post (run p w).1 (run p w).2.
Proof.
  revert P w; induction p as [a|e|X f k IH]; intros P w Hrg HI HP; cbn; [by split; [|apply Hrg]..|].
  destruct (Hrg w HI HP) as (HI' & _ & Q & HQ & _ & Hk). destruct (f w) as [x w']. by eapply IH.
Qed.

(** *** Structural rules *)
Lemma rg_weaken {B} t (P P' : W -> Prop) (p : prog W E B) post :
  (forall w, I w -> P w -> P' w) -> rg t P' p post -> rg t P p post.
Proof. intros HPP'. destruct p; cbn; intros Hrg w HI HP; apply Hrg; auto. Qed.

Lemma rg_post {B} t (P : W -> Prop) (p : prog W E B) (post post' : outcome E B -> W -> Prop) :
  (forall o w, post o w -> post' o w) -> rg t P p post -> rg t P p post'.
Proof.
  intros Hpost. revert P; induction p as [a|e|X f k IH]; intros P; cbn; [by eauto..|].
  intros Hrg w HI HP. destruct (Hrg w HI HP) as (? & ? & Q & ? & ? & ?). split_and!; eauto 10.
Qed.

(** The assertion may be chosen per world. *)
Lemma rg_from {B} t (P : W -> Prop) (p : prog W E B) post :
  (forall w, I w -> P w -> exists Q, Q w /\ rg t Q p post) -> rg t P p post.
Proof.
  intros H. destruct p as [a|e|X f k]; cbn; intros w HI HP;
    destruct (H w HI HP) as (Q & HQ & Hrg); by apply Hrg.
Qed.

Lemma rg_pure {B} t (phi : Prop) (P : W -> Prop) (p : prog W E B) post :
  (phi -> rg t P p post) -> rg t (fun w => phi /\ P w) p post.
Proof. intros H. apply rg_from. intros w _ [Hphi HP]. eauto. Qed.

Lemma rg_bind {B C} t P (p : prog W E B) (q : B -> prog W E C) (Q : B -> W -> Prop) post :
  rg t P p (fun o w => match o with Ok a => Q a w | Exn e => post (Exn e) w end) ->
  (forall a, rg t (Q a) (q a) post) ->
  rg t P (bind p q) post.
Proof.
  intros Hp Hq. revert P Hp; induction p as [a|e|X f k IH]; intros P Hp; cbn in *; [|done|].
  - apply rg_from. intros w HI HP. exists (Q a). auto.
  - intros w HI HP. destruct (Hp w HI HP) as (? & ? & R & ? & ? & ?). split_and!; eauto 10.
Qed.

Lemma rg_try_catch {B} t P (p : prog W E B) (h : E -> prog W E B) (Q : E -> W -> Prop) post :
  rg t P p (fun o w => match o with Ok a => post (Ok a) w | Exn e => Q e w end) ->
  (forall e, rg t (Q e) (h e) post) ->
  rg t P (try_catch p h) post.
Proof.
  intros Hp Hh. revert P Hp; induction p as [a|e|X f k IH]; intros P Hp; cbn in *; [done| |].
  - apply rg_from. intros w HI HP. exists (Q e). auto.
  - intros w HI HP. destruct (Hp w HI HP) as (? & ? & R & ? & ? & ?). split_and!; eauto 10.
Qed.

Lemma rg_writes {C} t (P Q : W -> Prop) (f : W -> W) (q : prog W E C) post :
  (forall w, I w -> P w -> I (f w) /\ G t w (f w) /\ Q (f w)) ->
  stable t Q -> rg t Q q post ->
  rg t P (bind (writes f) (fun _ => q)) post.
Proof. intros Hf HQ Hq w HI HP. cbn. destruct (Hf w HI HP) as (? & ? & ?). eauto 10. Qed.

Lemma rg_reads {X C} t (P : W -> Prop) (f : W -> X) (q : X -> prog W E C) post :
  (forall w, G t w w) -> stable t P ->
  (forall w, I w -> P w -> rg t P (q (f w)) post) ->
  rg t P (bind (reads f) q) post.
Proof. intros HG HP Hq w HI HPw. cbn. eauto 10. Qed.

(** A fact that no request's steps destroy is carried along. *)
Lemma rg_carry {B} t (F P : W -> Prop) (p : prog W E B) post :
  (forall t' w w', F w -> G t' w w' -> F w') ->
  rg t P p post -> rg t (fun w => P w /\ F w) p (fun o w => post o w /\ F w).
Proof.
  intros HF. revert P; induction p as [a|e|X f k IH]; intros P Hrg.
  - intros w HI [HP HFw]. split; [by apply Hrg|done].
  - intros w HI [HP HFw]. split; [by apply Hrg|done].
  - intros w HI [HP HFw]. destruct (Hrg w HI HP) as (HI' & HG & Q & HQ & Hst & Hk). cbn.
    split; [done|]. split; [done|]. exists (fun v => Q v /\ F v). split; [eauto|]. split; [|by apply IH].
    intros t' v v' Hne HIv [HQv HFv] HGv. split; [by eapply Hst|eauto].
Qed.

Lemma rg_for_each {B} t (P : W -> Prop) (xs : list B) (body : B -> prog W E unit) post :
  (forall x, x ∈ xs ->
     rg t P (body x) (fun o w => match o with Ok _ => P w | Exn e => post (Exn e) w end)) ->
  (forall w, I w -> P w -> post (Ok tt) w) ->
  rg t P (for_each xs body) post.
Proof.
  intros Hbody Hpost. induction xs as [|x xs IH]; cbn; [done|].
  apply rg_bind with (Q := fun _ => P).
  - apply Hbody. set_solver.
  - intros _. apply IH. intros y Hy. apply Hbody. set_solver.
Qed.
End pool.
Arguments rg {W E} I G {B} t P !p post /.
Arguments stable {W} I G t P /.

(** ** Invariants without assertions

    When what a request needs to know is pure, an invariant of the world and a
    condition on the result are enough: [safe p phi] says that every access of [p]
    keeps [I], whatever happened before it, and that [p] answers in [phi]. *)
Section safe.
Context {W E : Type} (I : W -> Prop).

Fixpoint safe {A} (p : prog W E A) (phi : A -> Prop) : Prop :=
  match p with
  | Ret a => phi a
  | Throw _ => True
  | Atomic X f k => forall w, I w -> I (f w).2 /\ safe (k (f w).1) phi
  end.

Lemma safe_mono {A} (p : prog W E A) (phi psi : A -> Prop) :
  (forall a, phi a -> psi a) -> safe p phi -> safe p psi.
Proof.
  intros H. induction p as [a|e|X f k IH]; cbn; [by eauto|done|].
  intros Hp w HI. destruct (Hp w HI). split; [done|by apply IH].
Qed.
Lemma safe_bind {A B} (p : prog W E A) (q : A -> prog W E B) phi psi :
  safe p phi -> (forall a, phi a -> safe (q a) psi) -> safe (bind p q) psi.
Proof.
  intros Hp Hq. induction p as [a|e|X f k IH]; cbn in *; [by eauto|done|].
  intros w HI. destruct (Hp w HI). split; [done|by apply IH].
Qed.
Lemma safe_try_catch {A} (p : prog W E A) h phi :
  safe p phi -> (forall e, safe (h e) phi) -> safe (try_catch p h) phi.
Proof.
  intros Hp Hh. induction p as [a|e|X f k IH]; cbn in *; [done|apply Hh|].
  intros w HI. destruct (Hp w HI). split; [done|by apply IH].
Qed.
Lemma safe_access {X} (f : W -> X * W) phi :
  (forall w, I w -> I (f w).2 /\ phi (f w).1) -> safe (access f) phi.
Proof. done. Qed.
Lemma safe_reads {X} (f : W -> X) phi : (forall w, I w -> phi (f w)) -> safe (reads f) phi.
Proof. intros H w HI. split; [done|by apply H]. Qed.
Lemma safe_writes (f : W -> W) : (forall w, I w -> I (f w)) -> safe (writes f) (fun _ => True).
Proof. intros H w HI. split; [by apply H|done]. Qed.
Lemma safe_attempts {X} (f : W -> outcome E X * W) phi :
  (forall w, I w -> I (f w).2 /\ match (f w).1 with Ok x => phi x | Exn _ => True end) -> safe (attempts f) phi.
Proof. intros H w HI. destruct (H w HI) as [HI' Hphi]. split; [done|]. by destruct (f w).1. Qed.
Lemma safe_of_outcome {A} (o : outcome E A) (phi : A -> Prop) :
  (forall a, o = Ok a -> phi a) -> safe (of_outcome o) phi.
Proof. destruct o; cbn; eauto. Qed.
Lemma safe_for_each {A} (xs : list A) body :
  (forall x, x ∈ xs -> safe (body x) (fun _ => True)) -> safe (for_each xs body) (fun _ => True).
Proof.
  induction xs as [|x xs IH]; intros H; [done|]. cbn [for_each]. eapply safe_bind; [apply H; set_solver|].
  intros _ _. apply IH. set_solver.
Qed.
Lemma safe_lift {P E' A} `{!Lens W P} (inj : E' -> E) (p : prog P E' A) :
  (forall w q, I w -> I (lset q w)) -> safe (lift inj p) (fun _ => True).
Proof.
  intros H. induction p as [a|e|X f k IH]; cbn; [done..|]. intros w HI. destruct (f (lget w)). cbn. auto.
Qed.

(** Safe requests keep the invariant and answer in their conditions, however they
    interleave. *)
Lemma safe_pool {A} (phi : positive -> A -> Prop) s s' :
  I s.1 -> (forall t p, s.2 !! t = Some p -> safe p (phi t)) -> pool_reach s s' ->
  I s'.1 /\ forall t p, s'.2 !! t = Some p -> safe p (phi t).
Proof.
  intros HI Hs Hr. induction Hr as [s|s1 s2 s3 Hstep Hr IH]; [done|].
  destruct Hstep as [t X f k w ps Ht]; cbn in *. destruct (Hs t _ Ht w HI) as [HI' Hk]. apply IH; [done|].
  intros u p Hu. destruct (decide (t = u)) as [<-|Hne].
  - rewrite lookup_insert_eq in Hu. by injection Hu as <-.
  - rewrite lookup_insert_ne in Hu by done. eauto.
Qed.

(** A sequential run is an interleaving of one. *)
Lemma safe_run {A} (p : prog W E A) phi w :
  safe p phi -> I w -> I (run p w).2 /\ match (run p w).1 with Ok a => phi a | Exn _ => True end.
Proof.
  revert w; induction p as [a|e|X f k IH]; intros w Hp HI; cbn; [done..|].
  destruct (Hp w HI) as [HI' Hk]. destruct (f w) as [x w']. by apply IH.
Qed.
End safe.
Arguments safe {W E} I {A} !p phi /.

(** Handlers that are one access each keep every invariant their sequential
    runs keep, however many of them interleave. *)
Lemma attempts_pool_inv {W E A B : Type} (I : W -> Prop) (serve : B -> prog W E A)
    (reqs : gmap positive B) w0 w ps :
  (forall b, exists f, serve b = attempts f) ->
  (forall b w, I w -> I (run (serve b) w).2) ->
  I w0 -> pool_reach (w0, serve <$> reqs) (w, ps) -> I w.
Proof.
  intros Hone Hinv HI Hreach.
  assert (pool_ok I (fun _ _ _ => True) (fun _ _ _ => True) (w0, serve <$> reqs)) as Hinit.
  { split; [done|]. intros t p. cbn. rewrite lookup_fmap_Some. intros (b & <- & _).
    exists (fun _ => True). split; [done|split; [apply stable_True|]].
    destruct (Hone b) as [f Hf]. pose proof (Hinv b) as Hb. rewrite Hf in *.
    intros v Hv _. specialize (Hb v Hv). rewrite run_attempts in Hb. split; [done|split; [done|]].
    exists (fun _ => True). split; [done|split; [apply stable_True|]]. by destruct (f v).1. }
  by destruct (rg_sound _ _ _ _ _ Hinit Hreach).
Qed.

(** A specification on a component's store holds of the lifted program. *)
Section rg_lift.
Context {W P E E' : Type} `{!Lens W P} (I : P -> Prop) (G : positive -> P -> P -> Prop).

Definition lift_inv (w : W) : Prop := I (lget w).
Definition lift_guar (t : positive) (w w' : W) : Prop := G t (lget w) (lget w').

Lemma stable_lift t (Q : P -> Prop) :
  stable I G t Q -> stable lift_inv lift_guar t (fun w => Q (lget w)).
Proof. intros H t' w w' Hne HI HQ HG. by eapply H. Qed.

Lemma rg_lift {B} (inj : E -> E') t (Pre : P -> Prop) (p : prog P E B) post :
  rg I G t Pre p post ->
  rg lift_inv lift_guar t (fun w => Pre (lget w)) (lift inj p)
    (fun o w => exists o', o = map_exn inj o' /\ post o' (lget w)).
Proof.
  revert Pre; induction p as [a|e|X f k IH]; intros Pre Hrg.
  - intros w HI HP. exists (Ok a). split; [done|]. by apply Hrg.
  - intros w HI HP. exists (Exn e). split; [done|]. by apply Hrg.
  - intros w HI HP. destruct (Hrg (lget w) HI HP) as (HI' & HG & Q & HQ & Hst & Hk).
    unfold lift_inv, lift_guar. cbn. destruct (f (lget w)) as [x q]. cbn in *.
    rewrite lget_lset. split; [done|split; [done|]].
    exists (fun v => Q (lget v)). split; [by rewrite lget_lset|split; [by apply stable_lift|]].
    by apply IH.
Qed.

(** The same within a client's world: the client's invariant and guarantee follow
    from the component's, and a fact [F] the component cannot see survives. *)
Lemma rg_lift_frame {B} (IW : W -> Prop) (GW : positive -> W -> W -> Prop) (inj : E -> E') t
    (F : W -> Prop) (Pre : P -> Prop) (p : prog P E B) post :
  (forall w, IW w -> I (lget w)) ->
  (forall w q, IW w -> I q -> G t (lget w) q -> IW (lset q w) /\ GW t w (lset q w)) ->
  (forall t' w w', IW w -> GW t' w w' -> G t' (lget w) (lget w')) ->
  stable IW GW t F -> (forall w q, F w -> F (lset q w)) ->
  rg I G t Pre p post ->
  rg IW GW t (fun w => Pre (lget w) /\ F w) (lift inj p)
    (fun o w => F w /\ exists o', o = map_exn inj o' /\ post o' (lget w)).
Proof.
  intros HI HIG HG HF Hframe. revert Pre; induction p as [a|e|X f k IH]; intros Pre Hrg.
  - intros w HIw [HP HFw]. split; [done|]. exists (Ok a). split; [done|]. apply Hrg; auto.
  - intros w HIw [HP HFw]. split; [done|]. exists (Exn e). split; [done|]. apply Hrg; auto.
  - intros w HIw [HP HFw]. destruct (Hrg (lget w) (HI w HIw) HP) as (HI' & HGq & Q & HQ & Hst & Hk).
    destruct (HIG w _ HIw HI' HGq) as [HIW HGW].
    cbn. destruct (f (lget w)) as [x q]. cbn in *. split; [done|split; [done|]].
    exists (fun v => Q (lget v) /\ F v). split; [split; [by rewrite lget_lset|auto]|split].
    + intros t' v v' Hne HIv [HQv HFv] HGv. split; [|by eapply HF].
      eapply Hst; [done|by apply HI|exact HQv|by apply HG].
    + by apply IH.
Qed.
End rg_lift.

(** [for (const x of xs) acc = await body(x, acc);]. *)
Fixpoint fold_each {W E A B : Type} (xs : list A) (body : A -> B -> prog W E B) (acc : B)
    : prog W E B :=
  match xs with
  | [] => Ret acc
  | x :: xs' => bind (body x acc) (fun acc' => fold_each xs' body acc')
  end.

Lemma rg_fold_each {W E A B : Type} (I : W -> Prop) G t (P : W -> Prop) (xs : list A)
    (body : A -> B -> prog W E B) (acc : B) post :
  (forall x acc, x ∈ xs ->
     rg I G t P (body x acc) (fun o w => match o with Ok _ => P w | Exn e => post (Exn e) w end)) ->
  (forall acc w, I w -> P w -> post (Ok acc) w) ->
  rg I G t P (fold_each xs body acc) post.
Proof.
  intros Hbody Hpost. revert acc; induction xs as [|x xs IH]; intros acc; [by intros w; auto|].
  cbn [fold_each]. apply rg_bind with (Q := fun _ => P).
  - apply Hbody. set_solver.
  - intros acc'. apply IH. intros y acc'' Hy. apply Hbody. set_solver.
Qed.

(** A loop of writes completes, and keeps what each of them keeps. *)
Lemma run_for_each_writes {W E A B : Type} (proj : W -> B) (f : A -> W -> W) (xs : list A) (w : W) :
  (forall x w, proj (f x w) = proj w) ->
  exists w', run (E := E) (for_each xs (fun x => writes (f x))) w = (Ok tt, w') /\ proj w' = proj w.
Proof.
  intros Hf. revert w; induction xs as [|x xs IH]; intros w; cbn; [eauto|].
  destruct (IH (f x w)) as (w' & -> & Hp). exists w'. by rewrite Hp, Hf.
Qed.

(** Loop invariants of sequential runs. *)
Lemma run_fold_each_inv {W E A B : Type} (I : B -> W -> Prop) (xs : list A)
    (body : A -> B -> prog W E B) acc w :
  (forall x acc w, x ∈ xs -> I acc w ->
     match run (body x acc) w with (Ok acc', w') => I acc' w' | (Exn _, _) => False end) ->
  I acc w ->
  exists acc' w', run (fold_each xs body acc) w = (Ok acc', w') /\ I acc' w'.
Proof.
  revert acc w; induction xs as [|x xs IH]; intros acc w Hbody HI; cbn; [eauto|].
  rewrite run_bind. pose proof (Hbody x acc w ltac:(set_solver) HI) as Hx.
  destruct (run (body x acc) w) as [[acc'|e] w']; [|done].
  apply IH; [|done]. intros y acc'' w'' Hy. apply Hbody. set_solver.
Qed.

(** ** Guarantees that do not name the request

    Where every request may do the same to the world, and what a request learns is never
    undone, its proof needs no assertions beyond such facts. *)
Section lasting.
Context {W E : Type} (I : W -> Prop) (G : W -> W -> Prop).
Abbreviation spec := (@rg W E I (fun _ => G)).

(** A change that keeps the invariant within the guarantee. *)
Definition keeps (f : W -> W) : Prop := forall w, I w -> I (f w) /\ G w (f w).
(** A fact that no guaranteed change undoes. *)
Definition lasting (F : W -> Prop) : Prop := forall w w', F w -> G w w' -> F w'.
(** A program that keeps the invariant, whatever it answers. *)
Definition tame {A} (p : prog W E A) : Prop := forall t, spec t (fun _ => True) p (fun _ _ => True).

Lemma lasting_and F F' : lasting F -> lasting F' -> lasting (fun w => F w /\ F' w).
Proof. intros H H' w w' [HF HF'] HG. split; [by apply (H w)|by apply (H' w)]. Qed.
Lemma lasting_True : lasting (fun _ => True).
Proof. done. Qed.

Lemma tame_ret {A} (a : A) : tame (Ret a).
Proof. by intros t w. Qed.
Lemma tame_throw {A} e : tame (Throw e : prog W E A).
Proof. by intros t w. Qed.
Lemma tame_bind {A B} (p : prog W E A) (q : A -> prog W E B) : tame p -> (forall a, tame (q a)) -> tame (bind p q).
Proof.
  intros Hp Hq t. apply rg_bind with (Q := fun _ _ => True); [|by intros a; apply Hq].
  eapply rg_post; [|apply Hp]. by intros [a|e].
Qed.
Lemma tame_try {A} (p : prog W E A) h : tame p -> (forall e, tame (h e)) -> tame (try_catch p h).
Proof.
  intros Hp Hh t. apply rg_try_catch with (Q := fun _ _ => True); [|by intros a; apply Hh].
  eapply rg_post; [|apply Hp]. by intros [a|e].
Qed.
Lemma tame_access {X} (f : W -> X * W) : keeps (fun w => (f w).2) -> tame (access f).
Proof.
  intros Hf t w HI _. destruct (Hf w HI) as [HI' HG]. split; [done|split; [done|]]. by exists (fun _ => True).
Qed.
Lemma tame_reads {X} (f : W -> X) : (forall w, G w w) -> tame (reads f).
Proof. intros HG. apply tame_access. intros w HI. by split. Qed.
Lemma tame_writes f : keeps f -> tame (writes f).
Proof. apply (tame_access (fun w => (tt, f w))). Qed.
Lemma tame_attempts {X} (f : W -> outcome E X * W) : keeps (fun w => (f w).2) -> tame (attempts f).
Proof.
  intros Hf t w HI _. destruct (Hf w HI) as [HI' HG]. split; [done|split; [done|]]. exists (fun _ => True).
  split; [done|split; [done|]]. by destruct (f w).1.
Qed.
Lemma tame_guard b (e : E) : tame (guard b e).
Proof. by destruct b; intros t w. Qed.
Lemma tame_option {A} (o : option A) (e : E) : tame (of_option o e).
Proof. by destruct o; intros t w. Qed.
Lemma tame_outcome {A} (o : outcome E A) : tame (of_outcome o).
Proof. by destruct o; intros t w. Qed.
Lemma tame_for {A} (f : A -> prog W E unit) xs : (forall x, tame (f x)) -> tame (for_each xs f).
Proof.
  intros Hf. induction xs as [|x xs IH]; [apply tame_ret|]. cbn [for_each]. apply tame_bind; [apply Hf|]. by intros _.
Qed.
Lemma tame_fold {A B} (f : A -> B -> prog W E B) xs acc : (forall x acc, tame (f x acc)) -> tame (fold_each xs f acc).
Proof.
  intros Hf. revert acc; induction xs as [|x xs IH]; intros acc; [apply tame_ret|]. apply tame_bind; [apply Hf|]. intros y. apply IH.
Qed.

(** A tame program between facts that last. *)
Lemma spec_tame {A} (p : prog W E A) (F : W -> Prop) t : tame p -> lasting F -> spec t F p (fun _ w => F w).
Proof.
  intros Hp HF. eapply rg_weaken; [|eapply rg_post; [|apply (rg_carry _ _ t F); [|exact (Hp t)]]].
  - by intros w _ H.
  - by intros o w [_ H].
  - intros _ w w'. apply HF.
Qed.
Lemma spec_then {A B} (p : prog W E A) (q : A -> prog W E B) (F : W -> Prop) post t :
  tame p -> lasting F -> (forall e w, post (Exn e) w) -> (forall a, spec t F (q a) post) -> spec t F (bind p q) post.
Proof.
  intros Hp HF He Hq. apply rg_bind with (Q := fun _ => F); [|done]. eapply rg_post; [|by apply spec_tame].
  intros [a|e] w; auto.
Qed.
(** An access that learns a fact. *)
Lemma spec_access {X B} (f : W -> X * W) (q : X -> prog W E B) (F : W -> Prop) (F' : X -> W -> Prop) post t :
  (forall w, I w -> F w -> I (f w).2 /\ G w (f w).2 /\ F' (f w).1 (f w).2) ->
  (forall x, lasting (F' x)) -> (forall x, spec t (F' x) (q x) post) -> spec t F (bind (access f) q) post.
Proof.
  intros Hf HF' Hq w HI HP. destruct (Hf w HI HP) as (HI' & HG & HP'). cbn. split; [done|split; [done|]]. exists (F' (f w).1).
  split; [auto|]. split; [intros t' v v' _ _ Hv; by apply HF'|apply Hq].
Qed.
Lemma spec_reads_then {X B} (f : W -> X) (q : X -> prog W E B) (F : W -> Prop) (F' : X -> W -> Prop) post t :
  (forall w, G w w) -> (forall w, I w -> F w -> F' (f w) w) -> (forall x, lasting (F' x)) -> (forall x, spec t (F' x) (q x) post) ->
  spec t F (bind (reads f) q) post.
Proof.
  intros Hr Hf HF' Hq. eapply spec_access; [|exact HF'|exact Hq]. intros w HI HP. split; [done|split; [apply Hr|by apply Hf]].
Qed.
(** The same of an access that may reject. *)
Lemma spec_attempts_then {X B} (f : W -> outcome E X * W) (q : X -> prog W E B) (F : W -> Prop) (F' : X -> W -> Prop) post t :
  (forall w, I w -> F w -> I (f w).2 /\ G w (f w).2 /\ forall x, (f w).1 = Ok x -> F' x (f w).2) ->
  (forall x, lasting (F' x)) -> (forall e w, post (Exn e) w) -> (forall x, spec t (F' x) (q x) post) ->
  spec t F (bind (attempts f) q) post.
Proof.
  intros Hf HF' He Hq w HI HP. destruct (Hf w HI HP) as (HI' & HG & HP'). cbn. split; [done|split; [done|]].
  destruct (f w).1 as [x|e].
  - exists (F' x). split; [by apply HP'|]. split; [intros t' v v' _ _ Hv; by apply (HF' x v v')|apply Hq].
  - exists (fun _ => True). split; [done|split; [done|]]. intros v _ _. apply He.
Qed.

(** Tame requests keep the invariant however they interleave, and answer in their
    conditions. *)
Lemma tame_pool {A} (post : positive -> outcome E A -> W -> Prop) w0 ps0 w ps :
  I w0 -> (forall t p, ps0 !! t = Some p -> spec t (fun _ => True) p (post t)) -> pool_reach (w0, ps0) (w, ps) ->
  I w /\ forall t a, ps !! t = Some (Ret a) -> post t (Ok a) w.
Proof.
  intros HI Hps Hreach.
  assert (pool_ok I (fun _ => G) post (w, ps)) as [HIw Hall].
  { eapply rg_sound; [|exact Hreach]. split; [exact HI|]. intros t p Hp. exists (fun _ => True). split; [done|]. split; [done|]. by apply Hps. }
  split; [exact HIw|]. intros t a Ht. destruct (Hall t _ Ht) as (P & HP & _ & Hrg). by apply Hrg.
Qed.
End lasting.

(** Walk through a program whose accesses are [keeps]; the clients' lemmas on their own
    updates are hints of the database. *)
Create HintDb tame.
#[export] Hint Resolve tame_ret tame_throw tame_reads tame_guard tame_option tame_outcome : tame.
Ltac tame_step :=
  first
  [ solve [eauto with tame]
  | apply tame_bind; [|intros ?]
  | apply tame_try; [|intros ?]
  | apply tame_for; intros ?
  | apply tame_fold; intros ??
  | apply tame_attempts | apply tame_access | apply tame_writes
  | match goal with |- tame _ _ (match ?x with _ => _ end) => destruct x end
  | match goal with |- tame _ _ (let '(_, _) := ?x in _) => destruct x end ].
