(* ===== verification/Moderation.v ===== *)
(** * Moderation: classifier, state machine and log repository

    [src/xconfess-backend/src/moderation/]: the status state machine
    ([moderation-state-machine.ts]), the three-tier classifier with its request
    window ([ai-moderation.service.ts]) and the log repository
    ([moderation-repository.service.ts]).  Scores are rationals; the answers of
    the two remote APIs are inputs, [None] standing for any failure of a call. *)
From S2P Require Import Prelude Numbers Effects.
Open Scope Z_scope.

(** ** Data *)

(** [src moderation/ai-moderation.service.ts:6-13 ModerationCategory] *)
Inductive ModerationCategory :=
| HATE_SPEECH | HARASSMENT | SELF_HARM | VIOLENCE | SEXUAL | SPAM.

(** [src moderation/ai-moderation.service.ts:6-13 ModerationCategory] *)
Definition category_str (c : ModerationCategory) : string :=
  match c with
  | HATE_SPEECH => "hate_speech" | HARASSMENT => "harassment"
  | SELF_HARM => "self_harm" | VIOLENCE => "violence"
  | SEXUAL => "sexual" | SPAM => "spam"
  end.

(** [src moderation/ai-moderation.service.ts:15-23 ModerationStatus] *)
Inductive ModerationStatus :=
| PENDING | APPROVED | REJECTED | FLAGGED | ESCALATED | RESOLVED | HIDDEN.

#[export] Instance ModerationStatus_eq_dec : EqDecision ModerationStatus.
Proof. solve_decision. Defined.
#[export] Instance ModerationCategory_eq_dec : EqDecision ModerationCategory.
Proof. solve_decision. Defined.

(** [src moderation/ai-moderation.service.ts:25-31 ModerationResult] *)
Record ModerationResult := {
  score : Q;
  flags : list ModerationCategory;
  status : ModerationStatus;
  details : gmap string Q;
  requiresReview : bool;
}.

(** ** The state machine *)

(** [src moderation/moderation-state-machine.ts:4-25 ALLOWED_TRANSITIONS] *)
Definition ALLOWED_TRANSITIONS (from : ModerationStatus) : list ModerationStatus :=
  match from with
  | PENDING => [APPROVED; FLAGGED; REJECTED]
  | APPROVED => [FLAGGED]
  | FLAGGED => [ESCALATED; RESOLVED; HIDDEN; REJECTED]
  | ESCALATED => [RESOLVED; HIDDEN; REJECTED]
  | RESOLVED => [FLAGGED]
  | HIDDEN => [RESOLVED]
  | REJECTED => [PENDING]
  end.

(** [src moderation/moderation-state-machine.ts:27-35 InvalidModerationTransitionError]: The errors of the component. *)
Inductive mod_error :=
| InvalidModerationTransition (from to : ModerationStatus)
| LogNotFound.

(** [src moderation/moderation-state-machine.ts:37-48 assertValidTransition] *)
Definition assertValidTransition (from to : ModerationStatus) : outcome mod_error unit :=
  if bool_decide (from = to) then Exn (InvalidModerationTransition from to)
  else if negb (bool_decide (to ∈ ALLOWED_TRANSITIONS from))
       then Exn (InvalidModerationTransition from to)
       else Ok tt.

(** [src moderation/moderation-state-machine.ts:50-54 getAllowedNextStates] *)
Definition getAllowedNextStates (from : ModerationStatus) : list ModerationStatus :=
  ALLOWED_TRANSITIONS from.

(** ** The classifier *)

(** [src moderation/ai-moderation.service.ts:34-43 AiModerationService] *)
Record AiConfig := {
  openAiApiKey : string;
  perspectiveApiKey : string;
  highThreshold : Q;
  mediumThreshold : Q;
  enabledCategories : list string;
  autoActionEnabled : bool;
}.

(** [src moderation/ai-moderation.service.ts:45-69 constructor] *)
Definition default_config : AiConfig := {|
  openAiApiKey := ""; perspectiveApiKey := "";
  highThreshold := 8 # 10; mediumThreshold := 5 # 10;
  enabledCategories :=
    split_on ","%char "hate_speech,harassment,self_harm,violence,sexual,spam";
  autoActionEnabled := true |}.

Definition enabled (cfg : AiConfig) (c : ModerationCategory) : bool :=
  includes (category_str c) (enabledCategories cfg).

(** [src moderation/ai-moderation.service.ts:131-137 flags.push]: One [if (hit && enabled) { flags.push(c); details[c] = v; }] block. *)
Definition push_flag (cfg : AiConfig) (hit : bool) (c : ModerationCategory) (v : Q)
    (acc : list ModerationCategory * gmap string Q) : list ModerationCategory * gmap string Q :=
  if hit && enabled cfg c then (acc.1 ++ [c], <[category_str c := v]> acc.2) else acc.

(** [src moderation/ai-moderation.service.ts:167-170 maxScore]: [Math.max(...xs)], and [0] for no value. *)
Definition max_score (xs : list Q) : Q :=
  match xs with [] => 0%Q | x :: xs' => fold_left Qmax xs' x end.

(** [src moderation/ai-moderation.service.ts:126-128 result]: The body of an OpenAI answer: category flags, and the scores by name. *)
Record OpenAiResult := {
  oa_categories : string -> bool;
  oa_scores : gmap string Q;
}.
Definition oa_score (r : OpenAiResult) (k : string) : Q := from_option id 0%Q (oa_scores r !! k).

(** [src moderation/ai-moderation.service.ts:108-183 moderateWithOpenAI] *)
Definition moderateWithOpenAI (cfg : AiConfig) (response : option OpenAiResult)
    : option ModerationResult :=
  if negb (truthy (openAiApiKey cfg)) then None else
  match response with
  | None => None
  | Some r =>
      let acc := ([], ∅) in
      let acc := push_flag cfg (oa_categories r "hate") HATE_SPEECH (oa_score r "hate") acc in
      let acc := push_flag cfg (oa_categories r "harassment") HARASSMENT (oa_score r "harassment") acc in
      let acc := push_flag cfg (oa_categories r "self-harm") SELF_HARM (oa_score r "self-harm") acc in
      let acc := push_flag cfg (oa_categories r "violence") VIOLENCE (oa_score r "violence") acc in
      let acc := push_flag cfg (oa_categories r "sexual") SEXUAL (oa_score r "sexual") acc in
      let maxScore := max_score (map snd (map_to_list (oa_scores r))) in
      Some {| score := maxScore; flags := acc.1; status := PENDING;
              details := acc.2; requiresReview := false |}
  end.

(** [src moderation/ai-moderation.service.ts:208-216 toxicity]: [attributes.X?.summaryScore?.value || 0] for the five attributes. *)
Record PerspectiveScores := {
  toxicity : Q; severeToxicity : Q; identityAttack : Q; insult : Q; threat : Q;
}.

(** [src moderation/ai-moderation.service.ts:185-260 moderateWithPerspective] *)
Definition moderateWithPerspective (cfg : AiConfig) (response : option PerspectiveScores)
    : option ModerationResult :=
  if negb (truthy (perspectiveApiKey cfg)) then None else
  match response with
  | None => None
  | Some a =>
      let acc := ([], ∅) in
      let acc := push_flag cfg (Qltb (5 # 10) (identityAttack a)) HATE_SPEECH (identityAttack a) acc in
      let acc := push_flag cfg (Qltb (5 # 10) (insult a) || Qltb (7 # 10) (toxicity a))
                   HARASSMENT (Qmax (insult a) (toxicity a)) acc in
      let acc := push_flag cfg (Qltb (5 # 10) (threat a)) VIOLENCE (threat a) acc in
      let maxScore := max_score
        [toxicity a; severeToxicity a; identityAttack a; insult a; threat a] in
      Some {| score := maxScore; flags := acc.1; status := PENDING;
              details := acc.2; requiresReview := false |}
  end.

(** [src moderation/ai-moderation.service.ts:334-340 countPatterns] *)
Definition countPatterns (content : string) (patterns : list string) : Z :=
  fold_left (fun count pattern => if contains_str pattern content then count + 1 else count)
    patterns 0.

(** [src moderation/ai-moderation.service.ts:312-312 test]: The regular expression [(.)\1{4,}]: five equal code units in a row, none of
    them a line terminator. [run] is the length of the run that ends here. *)
Fixpoint has_run (prev : option Ascii.ascii) (len : nat) (s : string) : bool :=
  match s with
  | EmptyString => false
  | String c s' =>
      if Ascii.eqb c "010"%char || Ascii.eqb c "013"%char then has_run None 0 s'
      else
        let len' := match prev with
                    | Some p => if Ascii.eqb p c then S len else 1%nat
                    | None => 1%nat
                    end in
        (5 <=? len')%nat || has_run (Some c) len' s'
  end.

(** [src moderation/ai-moderation.service.ts:270-278 hateScore]: One [if (s > 0 && enabled) {...; score = Math.max(score, s); }] block. *)
Definition push_scored (cfg : AiConfig) (c : ModerationCategory) (s : Q)
    (acc : (list ModerationCategory * gmap string Q) * Q)
    : (list ModerationCategory * gmap string Q) * Q :=
  if Qltb 0 s && enabled cfg c
  then (push_flag cfg true c (Qmin s 1) acc.1, Qmax acc.2 s)
  else acc.

(** [src moderation/ai-moderation.service.ts:262-332 fallbackModeration] *)
Definition fallbackModeration (cfg : AiConfig) (content : string) : ModerationResult :=
  let lowerContent := to_lower content in
  let acc := (([], ∅), 0%Q) in
  let hatePatterns := ["hate"; "racist"; "bigot"; "nazi"; "slur"] in
  let hateScore := (inject_Z (countPatterns lowerContent hatePatterns) * (3 # 10))%Q in
  let acc := push_scored cfg HATE_SPEECH hateScore acc in
  let selfHarmPatterns := ["kill myself"; "suicide"; "end my life"; "self harm"] in
  let selfHarmScore := (inject_Z (countPatterns lowerContent selfHarmPatterns) * (4 # 10))%Q in
  let acc := push_scored cfg SELF_HARM selfHarmScore acc in
  let violencePatterns := ["kill"; "murder"; "assault"; "attack"; "bomb"] in
  let violenceScore := (inject_Z (countPatterns lowerContent violencePatterns) * (25 # 100))%Q in
  let acc := push_scored cfg VIOLENCE violenceScore acc in
  let spamIndicators :=
    [ contains_str "http://" content || contains_str "https://" content;
      (1000 <? String.length content)%nat;
      has_run None 0 content;
      existsb (fun word => (30 <? String.length word)%nat) (split_on " "%char content) ] in
  let spamScore :=
    (inject_Z (Z.of_nat (length (List.filter id spamIndicators))) * (2 # 10))%Q in
  let acc := push_scored cfg SPAM spamScore acc in
  {| score := Qmin acc.2 1; flags := acc.1.1; status := PENDING;
     details := acc.1.2; requiresReview := false |}.

(** [src moderation/ai-moderation.service.ts:342-347 determineStatus] *)
Definition determineStatus (cfg : AiConfig) (s : Q) : ModerationStatus :=
  if negb (autoActionEnabled cfg) then PENDING
  else if Qle_bool (highThreshold cfg) s then REJECTED
  else if Qle_bool (mediumThreshold cfg) s then FLAGGED
  else APPROVED.

(** [src moderation/ai-moderation.service.ts:42-43 requestCount]: The in-memory request window: the counter and the timers that will
    decrement it ([setTimeout(() => this.requestCount--, 60000)]). *)
Record Window := { requestCount : Z; timers : list ms }.
(** [src moderation/ai-moderation.service.ts:43-43 maxRequestsPerMinute] *)
Definition maxRequestsPerMinute : Z := 50.

(** [src moderation/ai-moderation.service.ts:82-82 setTimeout]: The timers due at [now] have fired. *)
Definition fire_timers (now : ms) (win : Window) : Window :=
  let due := List.filter (fun t => (t <=? now)%Z) (timers win) in
  {| requestCount := requestCount win - Z.of_nat (length due);
     timers := List.filter (fun t => negb (t <=? now)%Z) (timers win) |}.

(** What answered a request. *)
Inductive Tier := ByOpenAI | ByPerspective | ByRules | RateLimited.

(** [src moderation/ai-moderation.service.ts:71-106 moderateContent] *)
Definition moderateContent (cfg : AiConfig) (now : ms)
    (openai : option OpenAiResult) (perspective : option PerspectiveScores)
    (content : string) (win : Window) : (Tier * ModerationResult) * Window :=
  let win := fire_timers now win in
  if maxRequestsPerMinute <=? requestCount win
  then ((RateLimited, fallbackModeration cfg content), win)
  else
    let win := {| requestCount := requestCount win + 1;
                  timers := timers win ++ [now + 60000] |} in
    let '(tier, result) :=
      match moderateWithOpenAI cfg openai with
      | Some r => (ByOpenAI, r)
      | None =>
          match moderateWithPerspective cfg perspective with
          | Some r => (ByPerspective, r)
          | None => (ByRules, fallbackModeration cfg content)
          end
      end in
    ((tier, {| score := score result; flags := flags result;
               status := determineStatus cfg (score result); details := details result;
               requiresReview := Qle_bool (mediumThreshold cfg) (score result) |}), win).

(** [src moderation/ai-moderation.service.ts:366-370 updateThresholds]: the
    arguments are validated and logged; no field is assigned. *)
Definition updateThresholds (high medium : Q) (cfg : AiConfig) : bool * AiConfig :=
  let logged := Qltb 0 high && Qle_bool high 1 && Qltb 0 medium && Qle_bool medium 1
                && Qltb medium high in
  (logged, cfg).

(** [src moderation/ai-moderation.service.ts:372-379 getConfiguration] *)
Definition getConfiguration (cfg : AiConfig) : Q * Q * list string * bool :=
  (highThreshold cfg, mediumThreshold cfg, enabledCategories cfg, autoActionEnabled cfg).

(** ** The log repository *)

(** [src moderation/moderation-repository.service.ts:94-103 webhook]: The [metadata.webhook] object of a log. *)
Record WebhookMeta := {
  deliveryHash : string;
  timestamp : string;
  processedAt : ms;
  signatureValid : bool;
  payloadMalformed : bool;
  stale : bool;
}.

(** [src moderation/entities/moderation-log.entity.ts:11-65 ModerationLog] *)
Record ModerationLog := {
  id : string;
  confessionId : option string;
  userId : option string;
  content : string;
  moderationScore : Q;
  moderationFlags : list ModerationCategory;
  moderationStatus : ModerationStatus;
  log_details : gmap string Q;
  log_requiresReview : bool;
  reviewed : bool;
  reviewedBy : option string;
  reviewedAt : option ms;
  reviewNotes : option string;
  autoActioned : bool;
  apiProvider : string;
  webhook : option WebhookMeta;
  createdAt : ms;
  updatedAt : ms;
}.

(** An entry of the audit trail written by [logModerationStateTransition]. *)
Record TransitionAudit := {
  au_log : string;
  au_from : ModerationStatus;
  au_to : ModerationStatus;
  au_actor : string;
  au_reason : string;
}.

(** The tables the repository service works on. *)
Record ModDB := {
  logs : gmap string ModerationLog;
  audit : list TransitionAudit;
}.
Definition put_log (l : ModerationLog) (db : ModDB) : ModDB :=
  {| logs := <[id l := l]> (logs db); audit := audit db |}.

(** [src moderation/moderation-repository.service.ts:39-39 substring]: [content.substring(0, 5000)]. *)
Definition clip (s : string) : string := String.substring 0 5000 s.

(** [src moderation/moderation-repository.service.ts:25-50 createLog]; [fresh]
    is the id the database generates. *)
Definition createLog (fresh : string) (now : ms) (content : string) (result : ModerationResult)
    (confessionId userId apiProvider : option string) : prog ModDB mod_error ModerationLog :=
  let log := {|
    id := fresh; confessionId := confessionId; userId := userId; content := clip content;
    moderationScore := score result; moderationFlags := flags result;
    moderationStatus := status result; log_details := details result;
    log_requiresReview := requiresReview result;
    reviewed := false; reviewedBy := None; reviewedAt := None; reviewNotes := None;
    autoActioned := negb (bool_decide (status result = PENDING));
    apiProvider := if truthy_opt apiProvider then from_option Datatypes.id "" apiProvider
                   else "fallback";
    webhook := None; createdAt := now; updatedAt := now |} in
  do* writes (put_log log) in Ret log.

(** [src moderation/moderation-repository.service.ts:70-73 findOne]: [findOne({ where: { confessionId }, order: { createdAt: 'DESC' } })]. *)
Definition newer (a : option ModerationLog) (b : ModerationLog) : option ModerationLog :=
  match a with
  | Some x => if createdAt x <? createdAt b then Some b else Some x
  | None => Some b
  end.
Definition of_confession (cid : string) (db : ModDB) : list ModerationLog :=
  List.filter (fun l => bool_decide (confessionId l = Some cid)) (map snd (map_to_list (logs db))).
(** [src moderation/moderation-repository.service.ts:70-73 existing] *)
Definition latest_log (cid : string) (db : ModDB) : option ModerationLog :=
  fold_left newer (of_confession cid db) None.

(** [src moderation/moderation-repository.service.ts:53-63 params]: The parameters of [syncWebhookResult]. *)
Record SyncParams := {
  p_confessionId : string;
  p_content : string;
  p_userId : option string;
  p_result : ModerationResult;
  p_deliveryHash : string;
  p_deliveryTimestamp : string;
  p_signatureValid : option bool;
  p_payloadMalformed : option bool;
  p_deliveryStale : option bool;
}.

(** [src moderation/moderation-repository.service.ts:81-105 log]: The row [syncWebhookResult] saves over [existing], or over a new row. *)
Definition synced_log (fresh : string) (now : ms) (params : SyncParams)
    (existing : option ModerationLog) : ModerationLog :=
  {| id := from_option id fresh existing;
     confessionId := match existing with
                     | Some l => confessionId l
                     | None => Some (p_confessionId params)
                     end;
     userId := Some (from_option Datatypes.id "" (p_userId params));
     content := clip (p_content params);
     moderationScore := score (p_result params);
     moderationFlags := flags (p_result params);
     moderationStatus := status (p_result params);
     log_details := details (p_result params);
     log_requiresReview := requiresReview (p_result params);
     reviewed := from_option reviewed false existing;
     reviewedBy := existing ≫= reviewedBy;
     reviewedAt := existing ≫= reviewedAt;
     reviewNotes := existing ≫= reviewNotes;
     autoActioned := negb (bool_decide (status (p_result params) = PENDING));
     apiProvider := "webhook";
     webhook := Some {|
       deliveryHash := p_deliveryHash params;
       timestamp := p_deliveryTimestamp params;
       processedAt := now;
       signatureValid := from_option Datatypes.id true (p_signatureValid params);
       payloadMalformed := from_option Datatypes.id false (p_payloadMalformed params);
       stale := from_option Datatypes.id false (p_deliveryStale params) |};
     createdAt := from_option createdAt now existing;
     updatedAt := now |}.

(** [src moderation/moderation-repository.service.ts:52-113 syncWebhookResult] *)
Definition syncWebhookResult (fresh : string) (now : ms) (params : SyncParams)
    : prog ModDB mod_error (ModerationLog * bool) :=
  let* existing := reads (latest_log (p_confessionId params)) in
  let existingWebhookHash := deliveryHash <$> (existing ≫= webhook) in
  match existing with
  | Some log =>
      if bool_decide (existingWebhookHash = Some (p_deliveryHash params))
      then Ret (log, true)
      else
        let saved := synced_log fresh now params existing in
        do* writes (put_log saved) in Ret (saved, false)
  | None =>
      let saved := synced_log fresh now params None in
      do* writes (put_log saved) in Ret (saved, false)
  end.

(** [src moderation/moderation-repository.service.ts:127-133 log]: [log.reviewed = true; log.reviewedBy = ...; log.moderationStatus = s; if
    (notes) log.reviewNotes = notes;]. *)
Definition review_log (now : ms) (s : ModerationStatus) (reviewer : string)
    (notes : option string) (l : ModerationLog) : ModerationLog :=
  {| id := id l; confessionId := confessionId l; userId := userId l; content := content l;
     moderationScore := moderationScore l; moderationFlags := moderationFlags l;
     moderationStatus := s; log_details := log_details l;
     log_requiresReview := log_requiresReview l;
     reviewed := true; reviewedBy := Some reviewer; reviewedAt := Some now;
     reviewNotes := if truthy_opt notes then notes else reviewNotes l;
     autoActioned := autoActioned l; apiProvider := apiProvider l; webhook := webhook l;
     createdAt := createdAt l; updatedAt := now |}.

(** [src moderation/moderation-repository.service.ts:115-136 updateReview] *)
Definition updateReview (now : ms) (logId : string) (s : ModerationStatus)
    (reviewedBy : string) (notes : option string) : prog ModDB mod_error ModerationLog :=
  let* found := reads (fun db => logs db !! logId) in
  let* log := of_option found LogNotFound in
  let saved := review_log now s reviewedBy notes log in
  do* writes (put_log saved) in Ret saved.

(** [src moderation/moderation-repository.service.ts:182-191 logModerationStateTransition]: [AuditLogService.log] swallows the failure of its own INSERT: [up] says
    whether it succeeds. *)
Definition logModerationStateTransition (up : bool) (a : TransitionAudit)
    : prog ModDB mod_error unit :=
  writes (fun db => if up then {| logs := logs db; audit := audit db ++ [a] |} else db).

(** [src moderation/moderation-repository.service.ts:143-195 transitionState] *)
Definition transitionState (up : bool) (now : ms) (logId : string)
    (nextState : ModerationStatus) (actor reason : string) (notes : option string)
    : prog ModDB mod_error ModerationLog :=
  transaction (
    let* found := reads (fun db => logs db !! logId) in
    let* log := of_option found LogNotFound in
    let previousState := moderationStatus log in
    do* of_outcome (assertValidTransition previousState nextState) in
    let saved := review_log now nextState actor notes log in
    do* writes (put_log saved) in
    do* logModerationStateTransition up
          {| au_log := id saved; au_from := previousState; au_to := nextState;
             au_actor := actor; au_reason := reason |} in
    Ret saved).

(** [src moderation/moderation-repository.service.ts:230-240 getPendingReviews]:
    the rows it selects, before ordering and paging. *)
Definition pending_review (l : ModerationLog) : bool :=
  (log_requiresReview l && negb (reviewed l))
  || (bool_decide (moderationStatus l = FLAGGED) && negb (reviewed l)).

(** [src moderation/moderation-repository.service.ts:202-227 getQueue]: the
    number of pages of a filtered queue of [total] rows. *)
Definition totalPages (total pageSize : Z) : Z := Z.max 1 (Qceiling (inject_Z total / inject_Z pageSize)).

(** [src moderation/moderation-repository.service.ts:323-334 total] *)
Record AccuracyMetrics := {
  m_total : Z;
  truePositives : Z; falsePositives : Z; trueNegatives : Z; falseNegatives : Z;
  accuracy : Q; precision : Q; recall : Q; f1Score : Q;
}.

Definition ratio (a b : Z) : Q := if (0 <? b)%Z then (inject_Z a / inject_Z b)%Q else 0%Q.

(** [src moderation/moderation-repository.service.ts:286-335 getAccuracyMetrics] *)
Definition getAccuracyMetrics (db : ModDB) : AccuracyMetrics :=
  let reviewed_logs := List.filter reviewed (map snd (map_to_list (logs db))) in
  let '(tp, fp, tn, fn) := fold_left
    (fun '(tp, fp, tn, fn) log =>
       let aiPredictedHarmful := bool_decide (moderationStatus log = REJECTED)
                                 || bool_decide (moderationStatus log = FLAGGED) in
       let humanConfirmedHarmful := bool_decide (moderationStatus log = REJECTED) in
       if aiPredictedHarmful && humanConfirmedHarmful then (tp + 1, fp, tn, fn)
       else if aiPredictedHarmful && negb humanConfirmedHarmful then (tp, fp + 1, tn, fn)
       else if negb aiPredictedHarmful && negb humanConfirmedHarmful then (tp, fp, tn + 1, fn)
       else if negb aiPredictedHarmful && humanConfirmedHarmful then (tp, fp, tn, fn + 1)
       else (tp, fp, tn, fn))
    reviewed_logs (0, 0, 0, 0) in
  let total := Z.of_nat (length reviewed_logs) in
  let p := ratio tp (tp + fp) in
  let r := ratio tp (tp + fn) in
  {| m_total := total; truePositives := tp; falsePositives := fp;
     trueNegatives := tn; falseNegatives := fn;
     accuracy := ratio (tp + tn) total; precision := p; recall := r;
     f1Score := if Qltb 0 (p + r) then (2 * (p * r) / (p + r))%Q else 0%Q |}.

(** ** Specifications *)

(** [b] is reachable from [a] in one step of the machine. *)
Definition edge (a b : ModerationStatus) : Prop := assertValidTransition a b = Ok tt.

(** The audit entries of one log, in order, form a walk from [a] to [b]. *)
Fixpoint walk (trail : list TransitionAudit) (a b : ModerationStatus) : Prop :=
  match trail with
  | [] => a = b
  | e :: trail' => au_from e = a /\ edge a (au_to e) /\ walk trail' (au_to e) b
  end.
Definition trail_of (lid : string) (db : ModDB) : list TransitionAudit :=
  List.filter (fun e => au_log e =s? lid) (audit db).

(** A request to [PATCH /moderation/.../transition]; [rq_up] says whether the
    database takes its audit entry. *)
Record TransitionRequest := {
  rq_now : ms; rq_log : string; rq_next : ModerationStatus;
  rq_actor : string; rq_reason : string; rq_notes : option string; rq_up : bool;
}.
Definition serve (r : TransitionRequest) : prog ModDB mod_error ModerationLog :=
  transitionState (rq_up r) (rq_now r) (rq_log r) (rq_next r) (rq_actor r) (rq_reason r) (rq_notes r).

(** Rows are stored under their own id. *)
Definition keyed (db : ModDB) : Prop := forall k l, logs db !! k = Some l -> id l = k.

(** A transition of log [k] that request [t] made, as its audit entry describes it. *)
Definition made (reqs : gmap positive TransitionRequest) (k : string) (m : positive * TransitionAudit) : Prop :=
  exists r, reqs !! m.1 = Some r /\ rq_log r = k /\ au_log m.2 = k /\ au_to m.2 = rq_next r
            /\ au_actor m.2 = rq_actor r /\ au_reason m.2 = rq_reason r.
(** Its entry was taken. *)
Definition taken (reqs : gmap positive TransitionRequest) (m : positive * TransitionAudit) : bool :=
  from_option rq_up false (reqs !! m.1).
Definition answered (ps : gmap positive (prog ModDB mod_error ModerationLog)) (t : positive) : Prop :=
  exists l, ps !! t = Some (Ret l).

(** Every log has walked from its status in [db0] to its status in [db], by one
    transition for each answered request; the trail has those whose entry was taken. *)
Definition walked (reqs : gmap positive TransitionRequest) (db0 : ModDB)
    (s : ModDB * gmap positive (prog ModDB mod_error ModerationLog)) : Prop :=
  forall k l0, logs db0 !! k = Some l0 ->
    exists l moves,
      logs s.1 !! k = Some l
      /\ walk (map snd moves) (moderationStatus l0) (moderationStatus l)
      /\ trail_of k s.1 = map snd (List.filter (taken reqs) moves)
      /\ Forall (made reqs k) moves /\ NoDup (map fst moves)
      /\ (forall t, t ∈ map fst moves <-> answered s.2 t /\ rq_log <$> reqs !! t = Some k).
(** A request is before its transaction or done. *)
Definition at_ends (reqs : gmap positive TransitionRequest)
    (ps : gmap positive (prog ModDB mod_error ModerationLog)) : Prop :=
  forall t p, ps !! t = Some p ->
    (exists r, reqs !! t = Some r /\ p = serve r) \/ (exists l, p = Ret l) \/ (exists e, p = Throw e).

(** A sequence of calls to the classifier: the times of those that were
    admitted to the APIs, and the final window. *)
Record Call := {
  c_now : ms; c_openai : option OpenAiResult; c_perspective : option PerspectiveScores;
  c_content : string;
}.
Definition call (cfg : AiConfig) (c : Call) (win : Window) : (Tier * ModerationResult) * Window :=
  moderateContent cfg (c_now c) (c_openai c) (c_perspective c) (c_content c) win.
Fixpoint admissions (cfg : AiConfig) (calls : list Call) (adm : list ms) (win : Window)
    : list ms * Window :=
  match calls with
  | [] => (adm, win)
  | c :: calls' =>
      let '((tier, _), win') := call cfg c win in
      let adm' := match tier with RateLimited => adm | _ => adm ++ [c_now c] end in
      admissions cfg calls' adm' win'
  end.
Fixpoint nondecreasing (from : ms) (ts : list ms) : Prop :=
  match ts with
  | [] => True
  | t :: ts' => from <= t /\ nondecreasing t ts'
  end.
Definition in_window (t : ms) (adm : list ms) : list ms :=
  List.filter (fun a => (t <? a) && (a <=? t + 60000)) adm.
Definition empty_window : Window := {| requestCount := 0; timers := [] |}.

(** ** Lemmas *)

Lemma edge_spec a b : edge a b <-> a <> b /\ b ∈ ALLOWED_TRANSITIONS a.
Proof.
  unfold edge, assertValidTransition.
  repeat case_bool_decide; cbn; naive_solver.
Qed.

Lemma walk_snoc trail e a b c :
  walk trail a b -> au_from e = b -> au_to e = c -> edge b c -> walk (trail ++ [e]) a c.
Proof.
  revert a; induction trail as [|e' trail IH]; cbn; [by intros ? -> -> -> ?|].
  naive_solver.
Qed.

Lemma trail_of_app k db a l :
  trail_of k {| logs := l; audit := audit db ++ [a] |} =
  trail_of k db ++ (if au_log a =s? k then [a] else []).
Proof. unfold trail_of; cbn. by rewrite List.filter_app. Qed.

Lemma id_review_log now s r n l : id (review_log now s r n l) = id l.
Proof. done. Qed.

(** The sequential behaviour of [transitionState]. *)
Lemma run_transitionState up now lid next actor reason notes db :
  run (transitionState up now lid next actor reason notes) db =
  match logs db !! lid with
  | None => (Exn LogNotFound, db)
  | Some l =>
      match assertValidTransition (moderationStatus l) next with
      | Exn e => (Exn e, db)
      | Ok _ =>
          let saved := review_log now next actor notes l in
          let db' := put_log saved db in
          (Ok saved,
           if up then {| logs := logs db';
                         audit := audit db ++ [{| au_log := id l; au_from := moderationStatus l;
                                                  au_to := next; au_actor := actor;
                                                  au_reason := reason |}] |}
           else db')
      end
  end.
Proof.
  unfold transitionState, logModerationStateTransition. run_simp.
  destruct (logs db !! lid) as [l|] eqn:Hl; [|done].
  run_simp.
  by destruct (assertValidTransition (moderationStatus l) next).
Qed.

(** The rows and the trail of the logs a transition leaves alone. *)
Lemma run_serve r db : keyed db ->
  (exists e, run (serve r) db = (Exn e, db)) \/
  exists l saved, logs db !! rq_log r = Some l /\ edge (moderationStatus l) (rq_next r)
    /\ moderationStatus saved = rq_next r /\ id saved = rq_log r
    /\ run (serve r) db = (Ok saved, {|
         logs := <[rq_log r := saved]> (logs db);
         audit := audit db ++ (if rq_up r then [{| au_log := rq_log r; au_from := moderationStatus l; au_to := rq_next r;
                                                   au_actor := rq_actor r; au_reason := rq_reason r |}] else []) |}).
Proof.
  intros Hk. unfold serve. rewrite run_transitionState. destruct (logs db !! rq_log r) as [l|] eqn:Hl; [|eauto].
  destruct (assertValidTransition _ _) as [[]|e] eqn:Ht; [|eauto]. right. pose proof (Hk _ _ Hl) as Hid.
  exists l, (review_log (rq_now r) (rq_next r) (rq_actor r) (rq_notes r) l).
  split; [done|]. split; [exact Ht|]. split; [done|]. split; [exact Hid|].
  cbv zeta. unfold put_log. rewrite id_review_log, Hid. destruct (rq_up r); [done|]. by rewrite app_nil_r.
Qed.

Lemma answered_insert ps t p u : (forall l, ps !! t <> Some (Ret l)) ->
  answered (<[t := p]> ps) u <-> answered ps u \/ (u = t /\ exists l, p = Ret l).
Proof.
  intros Ht. unfold answered. destruct (decide (t = u)) as [<-|Hne].
  - rewrite lookup_insert_eq. split; [intros [l [= ->]]; eauto|]. intros [[l Hl]|[_ [l ->]]]; [by destruct (Ht l)|eauto].
  - rewrite lookup_insert_ne by done. naive_solver.
Qed.

Lemma trail_of_after k r l log db :
  trail_of k {| logs := l; audit := audit db ++ (if rq_up r then [log] else []) |}
  = trail_of k db ++ (if rq_up r && (au_log log =s? k) then [log] else []).
Proof.
  destruct (rq_up r); [apply trail_of_app|]. unfold trail_of. cbn. by rewrite !app_nil_r.
Qed.

Lemma walked_transition reqs db0 db ps t r :
  keyed db -> reqs !! t = Some r -> ps !! t = Some (serve r) -> walked reqs db0 (db, ps) ->
  let '(o, db') := run (serve r) db in
  keyed db' /\ walked reqs db0 (db', <[t := match o with Ok l => Ret l | Exn e => Throw e end]> ps).
Proof.
  intros Hk Hr Hps Hw. assert (forall l, ps !! t <> Some (Ret l)) as Hnew by (rewrite Hps; done).
  destruct (run_serve r db Hk) as [[e ->]|(l & saved & Hl & He & Hs & Hid & ->)].
  - split; [done|]. intros k l0 Hl0. destruct (Hw k l0 Hl0) as (m & moves & ? & ? & ? & ? & ? & Hmv).
    exists m, moves. do 5 (split; [done|]). intros u. rewrite Hmv. cbn [snd]. rewrite (answered_insert _ _ _ _ Hnew). naive_solver.
  - split.
    { intros k m. cbn. destruct (decide (rq_log r = k)) as [<-|Hne].
      - rewrite lookup_insert_eq. congruence.
      - rewrite lookup_insert_ne by done. apply Hk. }
    intros k l0 Hl0. destruct (Hw k l0 Hl0) as (m & moves & Hm & Hwalk & Htr & Hmade & Hnd & Hmv). cbn [fst snd logs] in *.
    rewrite trail_of_after. cbn [au_log]. destruct (str_eqb_spec (rq_log r) k) as [Hrk|Hne].
    + subst k. rewrite lookup_insert_eq. rewrite Hl in Hm. injection Hm as <-.
      set (e := {| au_log := _; au_from := _; au_to := _; au_actor := _; au_reason := _ |}).
      exists saved, (moves ++ [(t, e)]). split; [done|]. rewrite !map_app, List.filter_app, map_app, Htr. cbn [map fst snd].
      split; [eapply walk_snoc; [exact Hwalk|done|done|by rewrite Hs]|].
      split; [f_equal; cbn [List.filter]; unfold taken; cbn [fst]; rewrite Hr; cbn [from_option]; rewrite andb_true_r; by destruct (rq_up r)|].
      split; [apply Forall_app; split; [done|]; apply Forall_singleton; by exists r|].
      split.
      * apply NoDup_app. split; [done|]. split; [|apply NoDup_singleton].
        intros u Hu%Hmv. rewrite list_elem_of_singleton. intros ->. destruct Hu as [[x Hx] _]. by destruct (Hnew x).
      * intros u. rewrite elem_of_app, list_elem_of_singleton, Hmv, (answered_insert _ _ _ _ Hnew).
        split; [intros [?| ->]|intros [[?|[-> _]] ?]]; eauto; [naive_solver|]. rewrite Hr. eauto 10.
    + rewrite lookup_insert_ne by done. rewrite andb_false_r, app_nil_r. exists m, moves. do 5 (split; [done|]).
      intros u. rewrite Hmv, (answered_insert _ _ _ _ Hnew). split; [naive_solver|].
      intros [[?|[-> _]] Hu]; [done|]. rewrite Hr in Hu. cbn in Hu. congruence.
Qed.

(** The step of a request that is one attempt. *)
Definition step_of {W E A : Type} (p : prog W E A) (w : W) : option (prog W E A * W) :=
  match p with Atomic _ f k => Some (k (f w).1, (f w).2) | _ => None end.
Lemma step_of_serve r w : step_of (serve r) w =
  Some (match (run (serve r) w).1 with Ok l => Ret l | Exn e => Throw e end, (run (serve r) w).2).
Proof. unfold serve, transitionState, transaction. by rewrite run_attempts. Qed.

(** What holds of the logs and the requests at every moment. *)
Lemma walked_reach reqs db0 s s' :
  keyed s.1 /\ at_ends reqs s.2 /\ walked reqs db0 s -> pool_reach s s' ->
  keyed s'.1 /\ at_ends reqs s'.2 /\ walked reqs db0 s'.
Proof.
  intros H Hreach. induction Hreach as [|s1 s2 s3 Hstep _ IH]; [done|]. apply IH. clear IH.
  destruct H as (Hk & He & Hw). destruct Hstep as [t X f k w ps Ht]. cbn [fst snd] in *.
  destruct (He t _ Ht) as [(r & Hr & Hp)|[[? ?]|[? ?]]]; [|done..].
  pose proof (walked_transition reqs db0 w ps t r Hk Hr ltac:(by rewrite Ht, Hp) Hw) as H.
  pose proof (f_equal (fun p => step_of p w) Hp) as Hs. cbv beta in Hs. rewrite step_of_serve in Hs.
  destruct (run (serve r) w) as [o db']. injection Hs as Hc Hf. rewrite Hf, Hc. destruct H as [H1 H2]. cbn [fst snd]. split; [exact H1|]. split; [|exact H2].
  intros u p. destruct (decide (t = u)) as [<-|Hne]; [|rewrite lookup_insert_ne by done; apply He].
  rewrite lookup_insert_eq. intros [= <-]. right. destruct o; eauto.
Qed.

(** The request window. *)
Definition window_ok (now : ms) (adm : list ms) (win : Window) : Prop :=
  timers win = map (fun a => a + 60000) (List.filter (fun a => now <? a + 60000) adm)
  /\ requestCount win = Z.of_nat (length (timers win))
  /\ (forall t, (length (in_window t adm) <= 50)%nat).

Lemma window_ok_empty now : window_ok now [] empty_window.
Proof. split; [done|split; [done|]]. intros t. cbn. lia. Qed.

Lemma fire_timers_ok last now adm win :
  last <= now -> window_ok last adm win -> window_ok now adm (fire_timers now win).
Proof.
  intros Hle (Ht & Hc & Hw). unfold window_ok, fire_timers; cbn. split; [|split; [|done]].
  - rewrite Ht, filter_map_comm. f_equal. rewrite (filter_ext _ (fun a => now <? a + 60000)).
    + apply filter_filter_impl. intros a. rewrite !Z.ltb_lt. lia.
    + intros a. destruct (Z.leb_spec (a + 60000) now), (Z.ltb_spec now (a + 60000)); try done; lia.
  - pose proof (filter_length_split (fun t => t <=? now) (timers win)). lia.
Qed.

Lemma admit_ok now adm win :
  window_ok now adm win -> requestCount win < maxRequestsPerMinute ->
  window_ok now (adm ++ [now])
    {| requestCount := requestCount win + 1; timers := timers win ++ [now + 60000] |}.
Proof.
  unfold maxRequestsPerMinute. intros (Ht & Hc & Hw) Hlt. split; [|split]; cbn.
  - rewrite List.filter_app, map_app, Ht. cbn. by rewrite (proj2 (Z.ltb_lt now (now + 60000))) by lia.
  - rewrite length_app; cbn. lia.
  - intros t. unfold in_window. rewrite List.filter_app, length_app. cbn.
    destruct (Z.ltb_spec t now), (Z.leb_spec now (t + 60000)); cbn;
      try (pose proof (Hw t); unfold in_window in *; lia).
    assert (length (in_window t adm) <= length (timers win))%nat; [|unfold in_window in *; lia].
    rewrite Ht, length_map. apply filter_length_mono. intros a _ Ha. boolp. apply Z.ltb_lt. lia.
Qed.

Lemma call_window cfg c last adm win :
  last <= c_now c -> window_ok last adm win ->
  let '((tier, _), win') := call cfg c win in
  window_ok (c_now c) (match tier with RateLimited => adm | _ => adm ++ [c_now c] end) win'.
Proof.
  intros Hle Hok. apply (fire_timers_ok _ _ _ _ Hle) in Hok.
  unfold call, moderateContent.
  destruct (Z.leb_spec maxRequestsPerMinute (requestCount (fire_timers (c_now c) win))); [done|].
  pose proof (admit_ok _ _ _ Hok ltac:(lia)) as Hadm.
  by repeat case_match; simplify_eq.
Qed.

Lemma admissions_window cfg calls last adm win adm' win' :
  nondecreasing last (map c_now calls) -> window_ok last adm win ->
  admissions cfg calls adm win = (adm', win') ->
  exists now, window_ok now adm' win'.
Proof.
  revert last adm win; induction calls as [|c calls IH]; cbn; intros last adm win Hts Hok Hrun;
    [simplify_eq; eauto|].
  destruct Hts as [Hle Hts]. pose proof (call_window cfg c last adm win Hle Hok) as Hc.
  destruct (call cfg c win) as [[tier r] win1]. eauto.
Qed.

(** The flags a tier raises: enabled categories, each with its detail. *)
Definition flags_ok (cfg : AiConfig) (acc : list ModerationCategory * gmap string Q) : Prop :=
  forall c, c ∈ acc.1 -> enabled cfg c = true /\ is_Some (acc.2 !! category_str c).

Lemma flags_ok_nil cfg : flags_ok cfg ([], ∅).
Proof. intros c. cbn. set_solver. Qed.

Lemma push_flag_ok cfg hit c v acc : flags_ok cfg acc -> flags_ok cfg (push_flag cfg hit c v acc).
Proof.
  intros Hok d. unfold push_flag.
  destruct (hit && enabled cfg c) eqn:Hhit; [|apply Hok]. boolp. cbn.
  rewrite elem_of_app, list_elem_of_singleton.
  destruct (decide (category_str d = category_str c)) as [Heq|Hne].
  - rewrite Heq, lookup_insert_eq. intros [Hd| ->]; [|by eauto]. split; [by apply Hok|eauto].
  - rewrite lookup_insert_ne by done. intros [Hd| ->]; [by apply Hok|done].
Qed.

Lemma push_scored_ok cfg c s acc :
  flags_ok cfg acc.1 -> flags_ok cfg (push_scored cfg c s acc).1.
Proof. unfold push_scored. case_match; [apply push_flag_ok|done]. Qed.

Lemma push_scored_nonneg cfg c s acc : (0 <= acc.2 -> 0 <= (push_scored cfg c s acc).2)%Q.
Proof.
  unfold push_scored. case_match; [|done]. cbn. intros H0.
  eapply Qle_trans; [exact H0|apply Q.le_max_l].
Qed.
#[export] Hint Resolve flags_ok_nil push_flag_ok push_scored_ok push_scored_nonneg : xconfess.

Lemma fallback_ok cfg content :
  let r := fallbackModeration cfg content in
  flags_ok cfg (flags r, details r) /\ (0 <= score r <= 1)%Q.
Proof.
  unfold fallbackModeration; cbn zeta; cbn [flags details score].
  split; [rewrite <- surjective_pairing; auto 10 with xconfess|].
  split; [|apply Q.le_min_r]. apply Q.min_glb; [|discriminate]. do 4 apply push_scored_nonneg. cbn. lra.
Qed.

Lemma openai_ok cfg o r :
  moderateWithOpenAI cfg o = Some r -> flags_ok cfg (flags r, details r).
Proof.
  unfold moderateWithOpenAI. intros H. repeat case_match; simplify_eq/=.
  rewrite <- surjective_pairing. auto 10 with xconfess.
Qed.

Lemma perspective_ok cfg o r :
  moderateWithPerspective cfg o = Some r -> flags_ok cfg (flags r, details r).
Proof.
  unfold moderateWithPerspective. intros H. repeat case_match; simplify_eq/=.
  rewrite <- surjective_pairing. auto 10 with xconfess.
Qed.

(** [determineStatus] and the review flag agree. *)
Lemma determineStatus_review cfg s :
  autoActionEnabled cfg = true -> (mediumThreshold cfg <= highThreshold cfg)%Q ->
  Qle_bool (mediumThreshold cfg) s = negb (bool_decide (determineStatus cfg s = APPROVED))
  /\ (determineStatus cfg s = REJECTED <-> (highThreshold cfg <= s)%Q)
  /\ determineStatus cfg s <> PENDING.
Proof.
  intros Hauto Hle. unfold determineStatus. rewrite Hauto. cbn.
  destruct (Qle_bool (highThreshold cfg) s) eqn:Hh.
  - apply Qle_bool_iff in Hh. split; [|done]. apply Qle_bool_iff. by eapply Qle_trans.
  - assert (~ (highThreshold cfg <= s)%Q) by (rewrite <- Qle_bool_iff; congruence).
    by destruct (Qle_bool (mediumThreshold cfg) s).
Qed.

(** ** Properties *)

(** C19. Under every interleaving of any number of transition requests, each
    moderation log has walked along [ALLOWED_TRANSITIONS] from its first status to
    its current one, by exactly one transition for each request for it that was
    answered, to the status that request names; and its audit trail is that walk,
    in order and with the actors and reasons of the requests, less the
    transitions whose audit entry the database did not take.  These are the requests
    of [transitionState]; a review and a callback write a status beside it. *)
Theorem transitions_audited_walk (db0 db : ModDB) (reqs : gmap positive TransitionRequest) ps :
  keyed db0 -> audit db0 = [] ->
  pool_reach (db0, serve <$> reqs) (db, ps) ->
  forall k l0, logs db0 !! k = Some l0 ->
    exists l moves,
      logs db !! k = Some l
      /\ walk (map snd moves) (moderationStatus l0) (moderationStatus l)
      /\ trail_of k db = map snd (List.filter (taken reqs) moves)
      /\ Forall (made reqs k) moves /\ NoDup (map fst moves)
      /\ (forall t, t ∈ map fst moves <-> answered ps t /\ rq_log <$> reqs !! t = Some k).
Proof.
  intros Hkeyed Haudit Hreach.
  assert (keyed db0 /\ at_ends reqs (serve <$> reqs) /\ walked reqs db0 (db0, serve <$> reqs)) as Hinit.
  { split; [done|]. split.
    - intros t p. rewrite lookup_fmap_Some. intros (r & <- & Hr). left. eauto.
    - intros k l Hl. exists l, []. split; [done|]. split; [done|]. split; [unfold trail_of; cbn; by rewrite Haudit|].
      split; [constructor|]. split; [constructor|]. intros t. split; [set_solver|].
      intros [[x Hx] _]. cbn in Hx. rewrite lookup_fmap_Some in Hx. by destruct Hx as (r & Hx & _). }
  destruct (walked_reach reqs db0 (db0, serve <$> reqs) _ Hinit Hreach) as (_ & _ & Hw). exact Hw.
Qed.

(** The request window: however the calls are spaced and whatever the APIs
    answer, at most fifty of them are admitted in any sixty seconds. *)
Theorem moderateContent_window cfg calls from adm win t :
  nondecreasing from (map c_now calls) ->
  admissions cfg calls [] empty_window = (adm, win) ->
  (length (in_window t adm) <= 50)%nat.
Proof.
  intros Hts Hrun.
  destruct (admissions_window cfg calls from [] empty_window adm win Hts (window_ok_empty from) Hrun)
    as (now & _ & _ & Hw). apply Hw.
Qed.

(** Whatever tier answers, the raised flags are enabled categories that
    carry a detail; an admitted content is queued for review exactly when it
    is not approved and rejected exactly from the high threshold on; a
    rate-limited one is scored in [0, 1] by the rules but stays PENDING and
    out of the review queue. *)
Theorem moderateContent_decision cfg now openai perspective content win tier r win' :
  autoActionEnabled cfg = true -> (mediumThreshold cfg <= highThreshold cfg)%Q ->
  moderateContent cfg now openai perspective content win = ((tier, r), win') ->
  (forall c, c ∈ flags r -> enabled cfg c = true /\ is_Some (details r !! category_str c))
  /\ match tier with
     | RateLimited => status r = PENDING /\ requiresReview r = false /\ (0 <= score r <= 1)%Q
     | _ => requiresReview r = negb (bool_decide (status r = APPROVED))
            /\ (status r = REJECTED <-> (highThreshold cfg <= score r)%Q)
            /\ status r <> PENDING
     end.
Proof.
  intros Hauto Hle. unfold moderateContent.
  pose proof (fallback_ok cfg content) as [Hf Hs].
  case_match; [intros; by simplify_eq|].
  destruct (moderateWithOpenAI cfg openai) as [r1|] eqn:H1;
    [|destruct (moderateWithPerspective cfg perspective) as [r2|] eqn:H2];
    intros ?; simplify_eq/=; (split; [|by apply determineStatus_review]).
  - by apply openai_ok in H1.
  - by apply perspective_ok in H2.
  - done.
Qed.

(** What the review-queue metrics can never show: no false negative is ever
    counted, whatever the logs hold. *)
Theorem accuracy_no_false_negative db : falseNegatives (getAccuracyMetrics db) = 0.
Proof.
  unfold getAccuracyMetrics.
  match goal with |- context [fold_left ?f ?l ?a] =>
    assert (forall acc, acc.2 = 0 -> (fold_left f l acc).2 = 0) as Hinv end.
  { induction (List.filter reviewed _) as [|x xs IH]; intros [[[tp fp] tn] fn] H0; cbn; [done|].
    apply IH. cbn in *. by destruct (bool_decide _), (bool_decide _). }
  specialize (Hinv (0, 0, 0, 0) eq_refl).
  destruct (fold_left _ _ _) as [[[tp fp] tn] fn]. exact Hinv.
Qed.

(** ** Witnesses *)
Definition ex_log : ModerationLog := {|
  id := "L1"; confessionId := Some "c1"; userId := None; content := "text";
  moderationScore := 6 # 10; moderationFlags := [SPAM]; moderationStatus := FLAGGED;
  log_details := ∅; log_requiresReview := true; reviewed := false; reviewedBy := None;
  reviewedAt := None; reviewNotes := None; autoActioned := true; apiProvider := "openai";
  webhook := None; createdAt := 5; updatedAt := 5 |}.
Definition ex_db : ModDB := {| logs := {[ "L1" := ex_log ]}; audit := [] |}.
Definition ex_request (next : ModerationStatus) (actor : string) : TransitionRequest := {|
  rq_now := 9; rq_log := "L1"; rq_next := next; rq_actor := actor; rq_reason := "r";
  rq_notes := None; rq_up := negb (actor =s? "a") |}.
(** Three moderators race: hide, escalate, resolve; the entry of the first is lost. *)
Definition ex_reqs : gmap positive TransitionRequest :=
  {[ 1%positive := ex_request HIDDEN "a"; 2%positive := ex_request ESCALATED "b";
     3%positive := ex_request RESOLVED "c" ]}.
Definition ex_final := run_schedule [2; 1; 3]%positive (ex_db, serve <$> ex_reqs).

Example ex_final_trail :
  map (fun e => (au_from e, au_to e)) (trail_of "L1" ex_final.1) =
  [(FLAGGED, ESCALATED); (HIDDEN, RESOLVED)].
Proof. vm_compute. reflexivity. Qed.

Lemma transitions_audited_walk_witness :
  exists l moves, logs ex_final.1 !! "L1" = Some l /\ walk (map snd moves) FLAGGED (moderationStatus l)
    /\ trail_of "L1" ex_final.1 = map snd (List.filter (taken ex_reqs) moves).
Proof.
  destruct (transitions_audited_walk ex_db ex_final.1 ex_reqs ex_final.2) with (k := "L1") (l0 := ex_log) as (l & moves & H1 & H2 & H3 & _).
  - unfold ex_db, keyed; cbn. intros k l Hl. apply lookup_singleton_Some in Hl as [<- <-]. done.
  - done.
  - rewrite <- surjective_pairing. apply run_schedule_reach.
  - done.
  - by exists l, moves.
Defined.

Definition ex_call (t : ms) : Call := {|
  c_now := t; c_openai := None; c_perspective := None; c_content := "hello" |}.
Lemma moderateContent_window_witness :
  (length (in_window 0 (admissions default_config (map ex_call [1; 2; 70000]%Z) [] empty_window).1)
   <= 50)%nat.
Proof.
  eapply (moderateContent_window default_config (map ex_call [1; 2; 70000]%Z) 0).
  - cbn. lia.
  - apply surjective_pairing.
Defined.

Definition ex_decision :=
  moderateContent default_config 0 None None "I hate nazi slurs" empty_window.
Lemma moderateContent_decision_witness :
  requiresReview ex_decision.1.2 = negb (bool_decide (status ex_decision.1.2 = APPROVED))
  /\ (status ex_decision.1.2 = REJECTED <-> (8 # 10 <= score ex_decision.1.2)%Q)
  /\ status ex_decision.1.2 <> PENDING.
Proof.
  apply (moderateContent_decision default_config 0 None None "I hate nazi slurs" empty_window
           ByRules ex_decision.1.2 ex_decision.2);
    [reflexivity | vm_compute; discriminate | vm_compute; reflexivity].
Defined.
