(* ===== verification/ModerationWebhook.v ===== *)
(** * ModerationWebhook: the provider's callback

    [src/xconfess-backend/src/moderation/moderation-webhook.controller.ts]: the
    timestamped HMAC header, replay rejection, and the transaction that applies
    a decision to the confession and its log (through the repository of
    [Moderation], run on its part of the world).  SHA-256, HMAC and JSON
    serialisation are parameters; the audit write of a rejection is an entry of
    [rejections]. *)
From S2P Require Import Prelude Numbers Effects Moderation.
Open Scope Z_scope.

(** [src moderation/moderation-webhook.controller.ts:30-38 WebhookPayload]: the
    fields the handler tests for presence are optional. *)
Record WebhookPayload := {
  w_eventId : option string;
  w_confessionId : option string;
  w_score : Q;
  w_flags : list ModerationCategory;
  w_status : option ModerationStatus;
  w_details : gmap string Q;
  w_timestamp : string;
}.

(** The moderation columns of a confession. *)
Record ModeratedConfession := {
  cf_message : string;
  cf_score : Q;
  cf_flags : list ModerationCategory;
  cf_status : ModerationStatus;
  cf_details : gmap string Q;
  cf_requiresReview : bool;
  cf_isHidden : bool;
}.

Record WhWorld := {
  moddb : ModDB;
  confs : gmap string ModeratedConfession;
  processedEventIds : gmap string ms;
  rejections : list string;
  invalidated : list string;
  emitted : list (string * string);
}.

(** The repository's tables inside the controller's world. *)
#[export] Instance moddb_lens : Lens WhWorld ModDB.
Proof.
  refine {| lget := moddb;
            lset := fun p w => {| moddb := p; confs := confs w;
                                  processedEventIds := processedEventIds w;
                                  rejections := rejections w; invalidated := invalidated w;
                                  emitted := emitted w |} |};
    [done | by intros [] | done].
Defined.

Inductive wh_error :=
| Unauthorized (msg : string)
| BadRequest (msg : string)
| RepoError (e : mod_error).

Inductive WhResponse :=
| Applied (confession : string) (s : option ModerationStatus)
| Idempotent (confession : string) (s : option ModerationStatus)
| ConfessionNotFound.

(** ** Signatures *)

(** A string copied into a zeroed buffer of [n] bytes. *)
Fixpoint padded (n : nat) (s : string) : list Ascii.ascii :=
  match n, s with
  | O, _ => []
  | S n', EmptyString => "000"%char :: padded n' EmptyString
  | S n', String c s' => c :: padded n' s'
  end.

(** [crypto.timingSafeEqual] on buffers of one length: every byte is compared. *)
Fixpoint timingSafeEqual (a b : list Ascii.ascii) : bool :=
  match a, b with
  | [], [] => true
  | x :: a', y :: b' => let rest := timingSafeEqual a' b' in Ascii.eqb x y && rest
  | _, _ => false
  end.

(** [src moderation/moderation-webhook.controller.ts:52-67 constantTimeSignatureEquals] *)
Definition constantTimeSignatureEquals (provided expected : string) : bool :=
  let maxLength := Nat.max (Nat.max (String.length provided) (String.length expected)) 1 in
  let equal := timingSafeEqual (padded maxLength provided) (padded maxLength expected) in
  equal && (String.length provided =? String.length expected)%nat.

(** [src moderation/moderation-webhook.controller.ts:74-94 parseSignatureHeader] *)
Definition parseSignatureHeader (header : string) : option (string * string) :=
  if negb (truthy header) then None else
  let '(ts, signature) := fold_left
    (fun '(ts, signature) part =>
       let trimmed := trim part in
       if starts_with "t=" trimmed
       then (String.substring 2 (String.length trimmed - 2) trimmed, signature)
       else if starts_with "v1=" trimmed
       then (ts, String.substring 3 (String.length trimmed - 3) trimmed)
       else (ts, signature))
    (split_on ","%char header) ("", "") in
  if negb (truthy ts) || negb (truthy signature) then None else Some (ts, signature).

(** [src moderation/moderation-webhook.controller.ts:41-41 HMAC_SHA256_HEX_PATTERN] *)
Definition is_hex (c : Ascii.ascii) : bool :=
  between "0"%char "9"%char c || between "a"%char "f"%char c || between "A"%char "F"%char c.
Definition HMAC_SHA256_HEX_PATTERN (s : string) : bool :=
  (String.length s =? 64)%nat && str_forall is_hex s.

Section controller.
(** [crypto.createHash('sha256')], [crypto.createHmac('sha256', secret)] in
    hexadecimal, and [JSON.stringify]. *)
Context (sha256 : string -> string) (hmac : string -> string -> string)
        (stringify : WebhookPayload -> string).
(** [WEBHOOK_SECRET] and [WEBHOOK_TIMESTAMP_TOLERANCE_SECONDS]. *)
Context (webhookSecret : string) (timestampToleranceSeconds : Z).

Definition eventIdTtlMs : Z := timestampToleranceSeconds * 2 * 1000.

(** [src moderation/moderation-webhook.controller.ts:378-380 buildDeliveryHash] *)
Definition buildDeliveryHash (payload : string) : string := sha256 payload.

(** [src moderation/moderation-webhook.controller.ts:392-413 verifyTimestampedSignature] *)
Definition verifyTimestampedSignature (ts payload signature : string) : bool :=
  if negb (truthy webhookSecret) || negb (truthy signature) then false else
  let signedMessage := ts +:+ "." +:+ payload in
  let expectedSignature := hmac webhookSecret signedMessage in
  let wellFormed := HMAC_SHA256_HEX_PATTERN signature in
  let matches := constantTimeSignatureEquals signature expectedSignature in
  wellFormed && matches.

(** [src moderation/moderation-webhook.controller.ts:418-425 evictStaleEventIds] *)
Definition evictStaleEventIds (now : ms) (w : WhWorld) : WhWorld :=
  let cutoff := now - eventIdTtlMs in
  {| moddb := moddb w; confs := confs w;
     processedEventIds := filter (fun p => cutoff <= p.2) (processedEventIds w);
     rejections := rejections w; invalidated := invalidated w; emitted := emitted w |}.

(** [src moderation/moderation-webhook.controller.ts:431-471 auditReject] *)
Definition auditReject (reason : string) : prog WhWorld wh_error unit :=
  writes (fun w => {| moddb := moddb w; confs := confs w;
                      processedEventIds := processedEventIds w;
                      rejections := rejections w ++ [reason];
                      invalidated := invalidated w; emitted := emitted w |}).

Definition set_processed (eventId : string) (now : ms) (w : WhWorld) : WhWorld :=
  {| moddb := moddb w; confs := confs w;
     processedEventIds := <[eventId := now]> (processedEventIds w);
     rejections := rejections w; invalidated := invalidated w; emitted := emitted w |}.
Definition del_cache (key : string) (w : WhWorld) : WhWorld :=
  {| moddb := moddb w; confs := confs w; processedEventIds := processedEventIds w;
     rejections := rejections w; invalidated := invalidated w ++ [key]; emitted := emitted w |}.
Definition emit (event confession : string) (w : WhWorld) : WhWorld :=
  {| moddb := moddb w; confs := confs w; processedEventIds := processedEventIds w;
     rejections := rejections w; invalidated := invalidated w;
     emitted := emitted w ++ [(event, confession)] |}.
Definition put_conf (cid : string) (c : ModeratedConfession) (w : WhWorld) : WhWorld :=
  {| moddb := moddb w; confs := <[cid := c]> (confs w);
     processedEventIds := processedEventIds w;
     rejections := rejections w; invalidated := invalidated w; emitted := emitted w |}.

(** The stale-delivery audit of step 3. *)
Definition stale_params (payload : WebhookPayload) (serializedPayload : string) : SyncParams := {|
  p_confessionId := default "" (w_confessionId payload);
  p_content := serializedPayload; p_userId := None;
  p_result := {| score := w_score payload; flags := w_flags payload;
                 status := default PENDING (w_status payload);
                 details := w_details payload; requiresReview := false |};
  p_deliveryHash := buildDeliveryHash serializedPayload;
  p_deliveryTimestamp := w_timestamp payload;
  p_signatureValid := Some false; p_payloadMalformed := Some false;
  p_deliveryStale := Some true |}.

(** [Math.abs(nowMs - sigTimestamp * 1000) / 1000 > tolerance]. *)
Definition too_old (now : ms) (sigTimestamp : jsnum) : bool :=
  match sigTimestamp with
  | Fin q => Qltb (inject_Z timestampToleranceSeconds)
               (Qabs (inject_Z now - q * 1000) / 1000)
  | _ => true
  end.

(** [src moderation/moderation-webhook.controller.ts:267-319 transaction]: step
    7's transaction; [None] stands for a missing confession, the boolean for
    [isIdempotent]. *)
Definition apply_decision (fresh : string) (now : ms) (cid : string) (s : ModerationStatus)
    (payload : WebhookPayload) (deliveryHash : string) : prog WhWorld wh_error (option bool) :=
  let requiresReview := bool_decide (s = FLAGGED) in
  let shouldHide := bool_decide (s = REJECTED) in
  transaction (
    let* found := reads (fun w => confs w !! cid) in
    match found with
    | None => Ret None
    | Some confession =>
        let* synced := lift RepoError (syncWebhookResult fresh now {|
          p_confessionId := cid; p_content := cf_message confession; p_userId := None;
          p_result := {| score := w_score payload; flags := w_flags payload; status := s;
                         details := w_details payload; requiresReview := requiresReview |};
          p_deliveryHash := deliveryHash; p_deliveryTimestamp := w_timestamp payload;
          p_signatureValid := Some true; p_payloadMalformed := Some false;
          p_deliveryStale := None |}) in
        if synced.2 then Ret (Some true)
        else
          do* writes (put_conf cid {|
            cf_message := cf_message confession; cf_score := w_score payload;
            cf_flags := w_flags payload; cf_status := s; cf_details := w_details payload;
            cf_requiresReview := requiresReview; cf_isHidden := shouldHide |}) in
          Ret (Some false)
    end).

(** [src moderation/moderation-webhook.controller.ts:321-372 handleModerationResults]:
    what follows the transaction. *)
Definition after_decision (now : ms) (eventId cid : string) (s : ModerationStatus)
    (result : option bool) : prog WhWorld wh_error WhResponse :=
  match result with
  | None => Ret ConfessionNotFound
  | Some true => Ret (Idempotent cid (Some s))
  | Some false =>
      do* writes (set_processed eventId now) in
      do* writes (del_cache ("confession:" +:+ cid)) in
      do* writes (del_cache "confessions:") in
      do* writes (if bool_decide (s = REJECTED) then emit "moderation.high-severity" cid
                  else fun w => w) in
      do* writes (if bool_decide (s = FLAGGED) then emit "moderation.requires-review" cid
                  else fun w => w) in
      Ret (Applied cid (Some s))
  end.

(** [src moderation/moderation-webhook.controller.ts:223-277 handleModerationResults]:
    steps 5 and 6, then the processing, of a request whose signature verified. *)
Definition process_verified (fresh : string) (now : ms) (payload : WebhookPayload)
    (serializedPayload : string) : prog WhWorld wh_error WhResponse :=
  match w_confessionId payload, w_status payload with
  | Some (String _ _ as cid), Some s =>
      match w_eventId payload with
      | Some (String _ _ as eventId) =>
          do* writes (evictStaleEventIds now) in
          let* seen := reads (fun w => processedEventIds w !! eventId) in
          match seen with
          | Some _ =>
              do* auditReject "replayed_event_id" in
              Ret (Idempotent cid (Some s))
          | None =>
              let* result := apply_decision fresh now cid s payload
                               (buildDeliveryHash serializedPayload) in
              after_decision now eventId cid s result
          end
      | _ =>
          do* auditReject "missing_event_id" in
          Throw (BadRequest "Malformed payload: missing eventId")
      end
  | _, _ =>
      do* auditReject "malformed_payload" in
      Throw (BadRequest "Malformed payload: missing required fields")
  end.

(** [src moderation/moderation-webhook.controller.ts:128-221 handleModerationResults]
    ([fresh]: the id a new log would get). *)
Definition handleModerationResults (fresh : string) (now : ms) (payload : WebhookPayload)
    (signatureHeader : string) : prog WhWorld wh_error WhResponse :=
  let serializedPayload := stringify payload in
  if negb (truthy signatureHeader) then
    do* auditReject "missing_signature" in Throw (Unauthorized "Missing signature")
  else
  match parseSignatureHeader signatureHeader with
  | None =>
      do* auditReject "malformed_signature_header" in
      Throw (BadRequest "Malformed signature header")
  | Some (ts, signature) =>
      let sigTimestamp := Number ts in
      if is_nan sigTimestamp || num_le sigTimestamp (Fin 0) then
        do* auditReject "invalid_timestamp" in
        Throw (BadRequest "Malformed payload: invalid timestamp")
      else if too_old now sigTimestamp then
        do* auditReject "stale_timestamp" in
        do* try_catch
              (do* lift RepoError
                     (syncWebhookResult fresh now (stale_params payload serializedPayload)) in
               Ret tt)
              (fun _ => Ret tt) in
        Throw (Unauthorized "Stale webhook delivery")
      else if negb (verifyTimestampedSignature ts serializedPayload signature) then
        do* auditReject "invalid_signature" in Throw (Unauthorized "Invalid signature")
      else process_verified fresh now payload serializedPayload
  end.

(** ** Lemmas *)

(** The constant-time comparison is equality. *)
Lemma timingSafeEqual_eq a b : timingSafeEqual a b = true <-> a = b.
Proof.
  revert b; induction a as [|x a IH]; intros [|y b]; cbn; [done..|].
  rewrite andb_true_iff, Ascii.eqb_eq, IH. naive_solver.
Qed.

Lemma padded_inj n a b :
  String.length a = String.length b -> (String.length a <= n)%nat ->
  padded n a = padded n b -> a = b.
Proof.
  revert a b; induction n as [|n IH]; intros [|c a] [|d b] Hl Hn H; cbn in *; try done; try lia.
  simplify_eq. by rewrite (IH a b) by (done || lia).
Qed.

Lemma constantTime_eq a b : constantTimeSignatureEquals a b = true <-> a = b.
Proof.
  unfold constantTimeSignatureEquals. rewrite andb_true_iff, timingSafeEqual_eq, Nat.eqb_eq.
  split; [|by intros ->]. intros [Hp Hl]. eapply padded_inj; [exact Hl| |exact Hp]. lia.
Qed.

Lemma verify_sound ts payload signature :
  verifyTimestampedSignature ts payload signature = true ->
  webhookSecret <> "" /\ signature = hmac webhookSecret (ts +:+ "." +:+ payload).
Proof.
  unfold verifyTimestampedSignature, truthy. intros H. case_in H; [done|]. boolp.
  by rewrite constantTime_eq in *.
Qed.

(** Auditing a rejection leaves everything else alone. *)
Lemma run_auditReject reason w :
  run (auditReject reason) w =
  (Ok tt, {| moddb := moddb w; confs := confs w; processedEventIds := processedEventIds w;
             rejections := rejections w ++ [reason]; invalidated := invalidated w;
             emitted := emitted w |}).
Proof. done. Qed.

#[local] Hint Rewrite run_auditReject : run.

(** The visible effects of a handler on the confessions and the outside. *)
Definition same_effects (w w' : WhWorld) : Prop :=
  confs w' = confs w /\ emitted w' = emitted w /\ invalidated w' = invalidated w.

(** The columns of the confession as the delivery has them. *)
Definition delivered (payload : WebhookPayload) (s : ModerationStatus) (c : ModeratedConfession) : ModeratedConfession := {|
  cf_message := cf_message c; cf_score := w_score payload; cf_flags := w_flags payload; cf_status := s;
  cf_details := w_details payload; cf_requiresReview := bool_decide (s = FLAGGED); cf_isHidden := bool_decide (s = REJECTED) |}.
(** A log of the confession that records the delivery. *)
Definition records (payload : WebhookPayload) (cid : string) (s : ModerationStatus) (l : ModerationLog) : Prop :=
  confessionId l = Some cid /\ moderationStatus l = s /\ moderationScore l = w_score payload /\ moderationFlags l = w_flags payload
  /\ log_details l = w_details payload /\ log_requiresReview l = bool_decide (s = FLAGGED)
  /\ deliveryHash <$> Moderation.webhook l = Some (sha256 (stringify payload)).
Definition recorded (payload : WebhookPayload) (cid : string) (s : ModerationStatus) (db : ModDB) : Prop :=
  exists l, logs db !! Moderation.id l = Some l /\ records payload cid s l.

Lemma latest_log_of_confession cid db l : latest_log cid db = Some l -> confessionId l = Some cid.
Proof.
  unfold latest_log. assert (Forall (fun l => confessionId l = Some cid) (of_confession cid db)) as Hall.
  { apply Forall_forall. intros m Hm%list_elem_of_In. apply filter_In in Hm as [_ Hm]. by apply bool_decide_eq_true in Hm. }
  assert (forall o, (forall m, o = Some m -> confessionId m = Some cid) -> fold_left newer (of_confession cid db) o = Some l -> confessionId l = Some cid) as H.
  { induction Hall as [|m ms Hm _ IH]; intros o Ho; cbn; [apply Ho|]. apply IH. intros m'. destruct o as [x|]; cbn; [case_match|]; intros [= <-]; auto. }
  by apply H.
Qed.

Lemma run_apply_decision fresh now cid s payload w :
  exists (o : bool) (db' : ModDB),
    (o = false -> recorded payload cid s db') /\
    run (apply_decision fresh now cid s payload (buildDeliveryHash (stringify payload))) w =
    match confs w !! cid with
    | None => (Ok None, w)
    | Some c => (Ok (Some o), let w1 := lset db' w in if o then w1 else put_conf cid (delivered payload s c) w1)
    end.
Proof.
  unfold apply_decision. run_simp. destruct (confs w !! cid) as [c|]; [|by exists true, (moddb w)].
  run_simp. unfold syncWebhookResult. run_simp. change (lget w) with (moddb w).
  destruct (latest_log _ _) as [l|] eqn:Hl; [destruct (bool_decide (_ <$> _ = _))|]; run_simp; cbn; [exists true|exists false..]; eexists; (split; [|reflexivity]).
  - done.
  - intros _. apply latest_log_of_confession in Hl. eexists. cbn. split; [apply lookup_insert_eq|]. by split_and!.
  - intros _. eexists. cbn. split; [apply lookup_insert_eq|]. by split_and!.
Qed.

Lemma confs_emit_if b ev c w :
  confs ((if b : bool then emit ev c else fun w => w) w) = confs w.
Proof. by destruct b. Qed.

Lemma processed_emit_if b ev c w :
  processedEventIds ((if b : bool then emit ev c else fun w => w) w) = processedEventIds w.
Proof. by destruct b. Qed.

Lemma moddb_emit_if b ev c w : moddb ((if b : bool then emit ev c else fun w => w) w) = moddb w.
Proof. by destruct b. Qed.

(** What a verified request does. *)
Lemma run_process_verified fresh now payload w o w' :
  run (process_verified fresh now payload (stringify payload)) w = (o, w') ->
  (same_effects w w' /\ (forall cid s, o <> Ok (Applied cid s)))
  \/ exists cid s e c,
       w_confessionId payload = Some cid /\ w_status payload = Some s
       /\ w_eventId payload = Some e
       /\ processedEventIds (evictStaleEventIds now w) !! e = None
       /\ processedEventIds w' !! e = Some now
       /\ confs w !! cid = Some c /\ confs w' = <[cid := delivered payload s c]> (confs w)
       /\ recorded payload cid s (moddb w')
       /\ o = Ok (Applied cid (Some s)).
Proof.
  unfold process_verified. intros H.
  destruct (w_confessionId payload) as [[|a cid]|], (w_status payload) as [s|],
    (w_eventId payload) as [[|b e]|]; run_simp_in H;
    try (simplify_eq; by left).
  destruct (processedEventIds (evictStaleEventIds now w) !! String b e) as [t|] eqn:Hseen.
  { run_simp_in H. simplify_eq. by left. }
  run_simp_in H.
  destruct (run_apply_decision fresh now (String a cid) s payload (evictStaleEventIds now w)) as (i & db' & Hrec & Hrun).
  rewrite Hrun in H. cbn [confs evictStaleEventIds] in H.
  destruct (confs w !! String a cid) as [c|] eqn:Hc; [|cbn in H; simplify_eq; by left].
  destruct i; cbn in H; [simplify_eq; by left|]. right.
  exists (String a cid), s, (String b e), c.
  do 4 (split; [done|]). unfold after_decision in H. run_simp_in H. simplify_eq.
  split; [rewrite !processed_emit_if; apply lookup_insert_eq|]. split; [done|].
  split; [by rewrite !confs_emit_if|]. split; [|done].
  rewrite !moddb_emit_if. by apply Hrec.
Qed.

(** The handler either has no visible effect, or verified the signature over
    the fresh timestamp and the body and applied the decision. *)
Lemma run_handle fresh now payload header w o w' :
  run (handleModerationResults fresh now payload header) w = (o, w') ->
  (same_effects w w' /\ (forall cid s, o <> Ok (Applied cid s)))
  \/ (exists ts signature,
        parseSignatureHeader header = Some (ts, signature)
        /\ too_old now (Number ts) = false
        /\ verifyTimestampedSignature ts (stringify payload) signature = true)
     /\ run (process_verified fresh now payload (stringify payload)) w = (o, w').
Proof.
  unfold handleModerationResults. intros H.
  case_in H; [run_simp_in H; simplify_eq; by left|].
  destruct (parseSignatureHeader header) as [[ts signature]|] eqn:Hp;
    [|run_simp_in H; simplify_eq; by left].
  case_in H; [run_simp_in H; simplify_eq; by left|].
  case_in H.
  - run_simp_in H.
    destruct (run (syncWebhookResult _ _ _) _) as [[[l b]|e] db'] eqn:Hs;
      run_simp_in H; cbn in H; simplify_eq; by left.
  - case_in H; [run_simp_in H; simplify_eq; by left|]. boolp.
    right. split; [|done]. eauto.
Qed.

(** ** Properties *)

(** C4. A confession's moderation state only ever changes by a delivery whose
    header carries the HMAC, under a configured secret, of a fresh timestamp
    and this very body.  Then exactly the named confession changes: its score,
    flags, details and status are the delivered ones, it awaits a review exactly
    when it is flagged, is hidden exactly when it is rejected, and keeps its text;
    and a log of the confession records the same decision and the delivery. *)
Theorem webhook_change_authentic fresh now payload header w o w' :
  run (handleModerationResults fresh now payload header) w = (o, w') ->
  confs w' <> confs w ->
  exists ts signature cid s c l,
    parseSignatureHeader header = Some (ts, signature)
    /\ webhookSecret <> "" /\ signature = hmac webhookSecret (ts +:+ "." +:+ stringify payload)
    /\ too_old now (Number ts) = false
    /\ w_confessionId payload = Some cid /\ w_status payload = Some s
    /\ confs w !! cid = Some c
    /\ confs w' = <[cid := {|
         cf_message := cf_message c; cf_score := w_score payload; cf_flags := w_flags payload; cf_status := s;
         cf_details := w_details payload; cf_requiresReview := bool_decide (s = FLAGGED);
         cf_isHidden := bool_decide (s = REJECTED) |}]> (confs w)
    /\ logs (moddb w') !! Moderation.id l = Some l /\ records payload cid s l
    /\ o = Ok (Applied cid (Some s)).
Proof.
  intros H Hne.
  destruct (run_handle _ _ _ _ _ _ _ H) as [[[] _]|[(ts & sg & Hp & Ht & Hv) H']]; [done|].
  destruct (run_process_verified _ _ _ _ _ _ H')
    as [[[] _]|(cid & s & e & c & ? & ? & ? & ? & ? & ? & ? & (l & ? & ?) & ?)]; [done|].
  apply verify_sound in Hv as [??].
  exists ts, sg, cid, s, c, l. auto 15.
Qed.

(** Replay protection: once a delivery has been applied, no later delivery with
    the same event id that arrives within the retention window changes a
    confession, emits an event or invalidates a cache, whatever its body and
    its signature. *)
Theorem webhook_replay_inert fresh1 fresh2 now1 now2 payload1 payload2 header1 header2
    cid s w w1 o2 w2 :
  run (handleModerationResults fresh1 now1 payload1 header1) w = (Ok (Applied cid (Some s)), w1) ->
  w_eventId payload2 = w_eventId payload1 ->
  now2 - eventIdTtlMs <= now1 ->
  run (handleModerationResults fresh2 now2 payload2 header2) w1 = (o2, w2) ->
  same_effects w1 w2.
Proof.
  intros H1 He Hnow H2.
  destruct (run_handle _ _ _ _ _ _ _ H2) as [[? _]|[_ H2']]; [done|].
  destruct (run_process_verified _ _ _ _ _ _ H2')
    as [[? _]|(cid2 & s2 & e2 & _ & _ & _ & He2 & Hseen2 & _)]; [done|].
  assert (exists e, w_eventId payload1 = Some e /\ processedEventIds w1 !! e = Some now1)
    as (e & He1 & Hseen1).
  { destruct (run_handle _ _ _ _ _ _ _ H1) as [[_ Hno]|[_ H1']]; [by destruct (Hno cid (Some s))|].
    destruct (run_process_verified _ _ _ _ _ _ H1')
      as [[_ Hno]|(? & ? & e & ? & _ & _ & ? & _ & ? & _)]; [by destruct (Hno cid (Some s))|eauto]. }
  exfalso. rewrite He1, He2 in He. simplify_eq. cbn in Hseen2.
  apply map_lookup_filter_None in Hseen2 as [?|Hno]; [congruence|].
  by apply (Hno _ Hseen1).
Qed.

(** The stale branch runs before the signature check: whoever sends an old
    timestamp and any signature at all rewrites the latest moderation log of
    the confession with the status of their choice, and gets a 401. *)
Theorem stale_delivery_forges_log fresh now payload cid s l w :
  0 <= timestampToleranceSeconds -> 1000 * timestampToleranceSeconds + 1000 < now ->
  w_confessionId payload = Some cid -> w_status payload = Some s ->
  latest_log cid (moddb w) = Some l ->
  deliveryHash <$> webhook l <> Some (sha256 (stringify payload)) ->
  let '(o, w') := run (handleModerationResults fresh now payload "t=1,v1=forged") w in
  o = Exn (Unauthorized "Stale webhook delivery")
  /\ exists l', logs (moddb w') !! Moderation.id l = Some l' /\ moderationStatus l' = s.
Proof.
  intros Htol Hnow Hcid Hs Hl Hne. unfold handleModerationResults.
  change (parseSignatureHeader "t=1,v1=forged") with (Some ("1", "forged")).
  change (negb (truthy "t=1,v1=forged")) with false. cbv zeta iota.
  change (is_nan (Number "1") || num_le (Number "1") (Fin 0)) with false.
  change (Number "1") with (Fin 1). cbv iota.
  assert (too_old now (Fin 1) = true) as ->.
  { unfold too_old. apply Qltb_lt. rewrite Qabs_pos.
    - unfold Qlt, inject_Z; cbn. lia.
    - unfold Qle, inject_Z; cbn. lia. }
  run_simp. unfold syncWebhookResult, stale_params. cbn [p_confessionId p_deliveryHash].
  rewrite Hcid. cbn [default from_option]. run_simp. cbn [moddb lget moddb_lens].
  unfold Datatypes.id. rewrite Hl. cbn [option_bind mbind].
  rewrite bool_decide_eq_false_2 by done. run_simp. split; [done|].
  eexists. cbn. rewrite lookup_insert_eq. split; [reflexivity|]. cbn. by rewrite Hs.
Qed.
End controller.

(** ** Witnesses *)
Section witnesses.
Definition ex_hmac (secret msg : string) : string :=
  "0123456789abcdef0123456789abcdef0123456789abcdef0123456789abcdef".
Definition ex_header : string :=
  "t=100,v1=0123456789abcdef0123456789abcdef0123456789abcdef0123456789abcdef".
Definition ex_payload (s : ModerationStatus) : WebhookPayload := {|
  w_eventId := Some "e1"; w_confessionId := Some "c1"; w_score := 9 # 10; w_flags := [HARASSMENT];
  w_status := Some s; w_details := ∅; w_timestamp := "100" |}.
Definition ex_conf : ModeratedConfession := {|
  cf_message := "m"; cf_score := 0; cf_flags := []; cf_status := PENDING; cf_details := ∅;
  cf_requiresReview := false; cf_isHidden := false |}.
Definition ex_world : WhWorld := {|
  moddb := {| logs := {[ "L1" := ex_log ]}; audit := [] |}; confs := {[ "c1" := ex_conf ]};
  processedEventIds := ∅; rejections := []; invalidated := []; emitted := [] |}.
Definition ex_stringify (p : WebhookPayload) : string :=
  match w_status p with Some REJECTED => "rejected" | _ => "other" end.
Definition ex_run (now : ms) (s : ModerationStatus) (w : WhWorld) :=
  run (handleModerationResults Datatypes.id ex_hmac ex_stringify "secret" 300 "L2" now (ex_payload s)
         ex_header) w.

Lemma webhook_change_authentic_witness :
  exists c, confs (ex_run 100000 REJECTED ex_world).2 = <["c1" := c]> (confs ex_world)
            /\ cf_isHidden c = true /\ cf_score c = (9 # 10)%Q.
Proof.
  destruct (webhook_change_authentic Datatypes.id ex_hmac ex_stringify "secret" 300 "L2" 100000
              (ex_payload REJECTED) ex_header ex_world _ _ (surjective_pairing _))
    as (ts & sg & cid & s & c & l & _ & _ & _ & _ & Hcid & Hs & _ & Hc & _).
  - vm_compute. discriminate.
  - cbn in Hcid, Hs. simplify_eq. eexists. by split; [exact Hc|].
Defined.

Lemma webhook_replay_inert_witness :
  same_effects (ex_run 100000 REJECTED ex_world).2
    (ex_run 200000 APPROVED (ex_run 100000 REJECTED ex_world).2).2.
Proof.
  eapply (webhook_replay_inert Datatypes.id ex_hmac ex_stringify "secret" 300 "L2" "L2" 100000 200000
           (ex_payload REJECTED) (ex_payload APPROVED) ex_header ex_header "c1" REJECTED ex_world).
  - vm_compute. reflexivity.
  - reflexivity.
  - vm_compute. discriminate.
  - vm_compute. reflexivity.
Defined.
End witnesses.
