(* ===== verification/Tipping.v ===== *)
(** * Tipping: verification of Stellar tips and their single settlement

    [src/xconfess-backend/src/tipping/]: the amount and asset rules
    ([tipping.constants.ts]), the [tips] table ([entities/tip.entity.ts]) and
    [TippingService] ([tipping.service.ts]).  [verifyAndRecordTip] is a program
    over the shared tables, one access per awaited repository call; the answers
    of the Stellar network, the generated ids and the clock are fields of the
    request.  SHA-256 and [JSON.parse] are parameters. *)
From S2P Require Import Prelude Numbers Json Effects.
Open Scope Z_scope.

(** ** Data *)

(** [src tipping/entities/tip.entity.ts:12-18 TipVerificationStatus] *)
Inductive TipVerificationStatus := PENDING | STALE_PENDING | VERIFIED | REJECTED | CONFLICT.
#[export] Instance TipVerificationStatus_eq_dec : EqDecision TipVerificationStatus.
Proof. solve_decision. Defined.

(** [src tipping/entities/tip.entity.ts:20-129 Tip] *)
Record Tip := {
  id : string;
  confessionId : string;
  amount : jsnum;
  txId : string;
  idempotencyKey : option string;
  senderAddress : option string;
  verificationStatus : TipVerificationStatus;
  verifiedAt : option ms;
  rejectionReason : option string;
  retryCount : Z;
  lastChainStatus : option string;
  lastCheckedAt : option ms;
  reconciliationMetadata : option json;
  processingLock : option string;
  lockedAt : option ms;
  lockedBy : option string;
  createdAt : ms;
  submissionStatus : string;
  submittedAt : option ms;
  confirmedAt : option ms;
  failedAt : option ms;
  failureReason : option string;
  expiryBlockHeight : option Z;
  ledgerSequence : option Z;
  sorobanMetadata : option json;
}.
#[export] Instance eta_Tip : Eta Tip := fun t => {|
  id := id t; confessionId := confessionId t; amount := amount t; txId := txId t;
  idempotencyKey := idempotencyKey t; senderAddress := senderAddress t;
  verificationStatus := verificationStatus t; verifiedAt := verifiedAt t;
  rejectionReason := rejectionReason t; retryCount := retryCount t;
  lastChainStatus := lastChainStatus t; lastCheckedAt := lastCheckedAt t;
  reconciliationMetadata := reconciliationMetadata t; processingLock := processingLock t;
  lockedAt := lockedAt t; lockedBy := lockedBy t; createdAt := createdAt t;
  submissionStatus := submissionStatus t; submittedAt := submittedAt t;
  confirmedAt := confirmedAt t; failedAt := failedAt t; failureReason := failureReason t;
  expiryBlockHeight := expiryBlockHeight t; ledgerSequence := ledgerSequence t;
  sorobanMetadata := sorobanMetadata t |}.

(** [src tipping/tipping.service.ts:54-60 TipResponseState] *)
Inductive TipResponseState := SVerified | SDuplicate | SPending | SStale | SFailed | SConflict.

(** The exceptions a request can end with. *)
Inductive tip_error :=
| NotFoundException (msg : string)
| BadRequestException (msg : string) (state : option TipResponseState)
| ConflictException (state : TipResponseState) (conflictReason : string)
    (originalConfessionId : option string) (canRetry : bool)
| GatewayTimeoutException (msg : string)
| UniqueViolation.

(** [src tipping/tipping.service.ts:62-72 TipVerificationResult] *)
Record TipVerificationResult := {
  r_tip : Tip;
  isNew : bool;
  isIdempotent : bool;
  r_state : TipResponseState;
}.

(** A [TIP_SETTLEMENT_VERIFIED] entry of the audit log. *)
Record Settlement := {
  st_tip : string;
  st_confession : string;
  st_tx : string;
  st_amount : jsnum;
  st_by : string;
}.
(** A domain event: name, confession, transaction. *)
Record TipEvent := { ev_name : string; ev_confession : string; ev_tx : string }.

(** The tables and logs the tipping services share. *)
Record TipDB := {
  tips : gmap string Tip;
  confessions : gset string;
  settlements : list Settlement;
  tip_events : list TipEvent;
  analytics : list (string * string);
}.
#[export] Instance eta_TipDB : Eta TipDB := fun w => {|
  tips := tips w; confessions := confessions w; settlements := settlements w;
  tip_events := tip_events w; analytics := analytics w |}.

(** ** Amounts and assets *)

(** [src tipping/tipping.constants.ts:7-9 MIN_TIP_AMOUNT] *)
Definition MIN_TIP_AMOUNT : jsnum := Fin (1 # 10).
Definition MAX_TIP_AMOUNT : jsnum := Fin 10000.
Definition TIP_PRECISION : Z := 7.

Record SupportedTipAsset := {
  code : string; issuer : option string; assetType : string; precision : Z;
}.

(** [src tipping/tipping.constants.ts:16-23 SUPPORTED_TIP_ASSETS] *)
Definition SUPPORTED_TIP_ASSETS : list SupportedTipAsset :=
  [{| code := "XLM"; issuer := None; assetType := "native"; precision := 7 |}].

(** [src tipping/tipping.constants.ts:36-56 validateTipAsset] *)
Definition validateTipAsset (assetCode : string) (assetIssuer : option string)
    (ty : string) : outcome tip_error SupportedTipAsset :=
  match List.find (fun a => (to_lower (code a) =s? to_lower assetCode)
                       && bool_decide (issuer a = assetIssuer)
                       && (assetType a =s? ty)) SUPPORTED_TIP_ASSETS with
  | Some a => Ok a
  | None => Exn (BadRequestException "Unsupported tip asset" None)
  end.

(** [src tipping/tipping.constants.ts:64-72 validateTipPrecision] *)
Definition validateTipPrecision (a : jsnum) (assetPrecision : Z) : outcome tip_error unit :=
  if more_decimals assetPrecision a
  then Exn (BadRequestException "Tip amount has too many decimal places" None)
  else Ok tt.

(** [src tipping/tipping.constants.ts:79-93 validateTipAmountBounds] *)
Definition validateTipAmountBounds (a : jsnum) : outcome tip_error unit :=
  if num_le a (Fin 0)
  then Exn (BadRequestException "Tip amount must be positive (greater than zero)" None)
  else if num_lt a MIN_TIP_AMOUNT
  then Exn (BadRequestException "Tip amount is below minimum" None)
  else if num_lt MAX_TIP_AMOUNT a
  then Exn (BadRequestException "Tip amount exceeds maximum" None)
  else Ok tt.

(** ** Horizon data *)

(** An operation of a transaction, as Horizon returns it. *)
Record HorizonOp := {
  op_type : string;
  asset_code : option string;
  asset_issuer : option string;
  asset_type : string;
  op_amount : string;
  op_from : option string;
}.
Record HorizonTx := {
  operations : option (list HorizonOp);
  memo_type : string;
  memo : option string;
}.

(** What [fetch(horizonUrl)] gives. *)
Inductive FetchAnswer :=
| Aborted
| NetworkError (msg : string)
| Status (code : Z)
| Body (tx : HorizonTx).

(** [src tipping/tipping.service.ts:696-729 fetchTransactionData] *)
Definition fetchTransactionData (answer : FetchAnswer) : outcome tip_error HorizonTx :=
  match answer with
  | Aborted => Exn (GatewayTimeoutException "Horizon request timed out")
  | NetworkError msg =>
      Exn (GatewayTimeoutException ("Network error fetching transaction: " +:+ msg))
  | Status s =>
      if s =? 404 then Exn (NotFoundException "Transaction not found on Stellar network")
      else Exn (BadRequestException "Horizon returned an error status" None)
  | Body tx => Ok tx
  end.

(** [src tipping/tipping.service.ts:74-78 SettlementReceiptMetadata] *)
Record SettlementReceiptMetadata := {
  settlementId : option string;
  proofMetadata : option string;
  anonymousSender : bool;
}.
Definition empty_receipt : SettlementReceiptMetadata :=
  {| settlementId := None; proofMetadata := None; anonymousSender := false |}.

(** [src tipping/tipping.service.ts:80-84 ProcessedTransactionData] *)
Record ProcessedTransactionData := {
  pd_amount : jsnum;
  pd_senderAddress : option string;
  pd_receiptMetadata : SettlementReceiptMetadata;
}.

(** [src tipping/tipping.service.ts:97-97 MAX_RECEIPT_PROOF_METADATA_LEN] *)
Definition MAX_RECEIPT_PROOF_METADATA_LEN : nat := 128.

(** [typeof v === 'string' && v.length > 0 ? v : null]. *)
Definition nonempty_str (j : option json) : option string :=
  match j with
  | Some (JStr s) => if (0 <? String.length s)%nat then Some s else None
  | _ => None
  end.

(** One verify request: its ids and clock, and what the network answers. *)
Record VerifyRequest := {
  vr_tipId : string;          (** the primary key its INSERT would get *)
  vr_lockId : string;
  vr_confession : string;
  vr_tx : string;
  vr_requestId : option string;
  vr_now : ms;
  vr_chain : outcome string bool;   (** [stellarService.verifyTransaction] *)
  vr_fetch : FetchAnswer;
}.

Section service.
Context (sha256 : string -> string) (JSON_parse : string -> option json).

(** [src tipping/tipping.service.ts:782-832 extractSettlementReceiptMetadata] *)
Definition extractSettlementReceiptMetadata (tx : HorizonTx)
    : outcome tip_error SettlementReceiptMetadata :=
  match memo tx with
  | Some memoValue =>
      if negb (memo_type tx =s? "text") || (String.length memoValue =? 0)%nat then Ok empty_receipt
      else
        match JSON_parse memoValue with
        | None => Ok empty_receipt
        | Some payload =>
            let settlementId := nonempty_str (json_get "settlement_id" payload) in
            let proofMetadata := nonempty_str (json_get "proof_metadata" payload) in
            if match proofMetadata with
               | Some p => (MAX_RECEIPT_PROOF_METADATA_LEN <? String.length p)%nat
               | None => false
               end
            then Exn (BadRequestException
                        "Settlement receipt proof metadata exceeds allowed bounds" None)
            else Ok {| settlementId := settlementId; proofMetadata := proofMetadata;
                       anonymousSender := match json_get "anonymous_sender" payload with
                                          | Some (JBool true) => true
                                          | _ => false
                                          end |}
        end
  | None => Ok empty_receipt
  end.

Definition obind {A B} (o : outcome tip_error A) (f : A -> outcome tip_error B)
    : outcome tip_error B :=
  match o with Ok a => f a | Exn e => Exn e end.

(** [src tipping/tipping.service.ts:731-780 processTransactionData] *)
Definition processTransactionData (tx : HorizonTx) : outcome tip_error ProcessedTransactionData :=
  let paymentOps :=
    List.filter (fun op => op_type op =s? "payment") (default [] (operations tx)) in
  match paymentOps with
  | [] => Exn (BadRequestException "Transaction does not contain a payment operation" None)
  | paymentOp :: _ =>
      obind (validateTipAsset (default "XLM" (asset_code paymentOp))
               (asset_issuer paymentOp) (asset_type paymentOp)) (fun supportedAsset =>
      let a := parseFloat (op_amount paymentOp) in
      obind (validateTipAmountBounds a) (fun _ =>
      obind (validateTipPrecision a (precision supportedAsset)) (fun _ =>
      obind (extractSettlementReceiptMetadata tx) (fun receiptMetadata =>
      Ok {| pd_amount := a;
            pd_senderAddress := if anonymousSender receiptMetadata then None
                                else op_from paymentOp;
            pd_receiptMetadata := receiptMetadata |}))))
  end.

(** ** The tips table *)

(** [tipRepository.save(tip)] of a loaded or created entity. *)
Definition save_tip (t : Tip) (w : TipDB) : TipDB := w <| tips ::= <[id t := t]> |>.
(** [tipRepository.update(tipId, { ... })]: nothing when the row is gone. *)
Definition update_tip (tipId : string) (f : Tip -> Tip) (w : TipDB) : TipDB :=
  w <| tips ::= alter f tipId |>.

(** The unique indexes on [tx_id] and [idempotency_key]. *)
Definition clashes (t u : Tip) : bool :=
  (txId t =s? txId u)
  || match idempotencyKey t, idempotencyKey u with
     | Some a, Some b => a =s? b
     | _, _ => false
     end.
(** [save] of a new entity: an INSERT, refused by the unique indexes. *)
Definition insert_tip (t : Tip) (w : TipDB) : outcome tip_error Tip * TipDB :=
  if existsb (fun kv => clashes t kv.2) (map_to_list (tips w))
  then (Exn UniqueViolation, w)
  else (Ok t, save_tip t w).

(** [findOne({ where })] on a column with a unique index. *)
Definition find_tip (p : Tip -> bool) (w : TipDB) : option Tip :=
  snd <$> List.find (fun kv => p kv.2) (map_to_list (tips w)).

(** [src tipping/tipping.service.ts:543-548 generateIdempotencyKey] *)
Definition generateIdempotencyKey (confession txHash : string) : string :=
  sha256 (confession +:+ ":" +:+ txHash).

(** [src tipping/tipping.service.ts:556-560 findTipByIdempotencyKey] *)
Definition findTipByIdempotencyKey (key : string) : prog TipDB tip_error (option Tip) :=
  reads (find_tip (fun t => bool_decide (idempotencyKey t = Some key))).

(** [src tipping/tipping.service.ts:570-607 resolveIdempotentOutcome] *)
Definition resolveIdempotentOutcome (tip : Tip) : outcome tip_error TipVerificationResult :=
  match verificationStatus tip with
  | VERIFIED => Ok {| r_tip := tip; isNew := false; isIdempotent := true; r_state := SDuplicate |}
  | PENDING => Exn (ConflictException SPending "ALREADY_PROCESSING" None true)
  | STALE_PENDING => Exn (ConflictException SStale "ALREADY_PROCESSING" None true)
  | REJECTED =>
      Exn (BadRequestException "could not be verified for this confession" (Some SFailed))
  | CONFLICT => Exn (ConflictException SConflict "DIFFERENT_CONFESSION" None false)
  end.

(** The row the sentinel INSERT writes, defaults of the entity included. *)
Definition sentinel_row (r : VerifyRequest) (key : string) : Tip := {|
  id := vr_tipId r; confessionId := vr_confession r; amount := Fin 0; txId := vr_tx r;
  idempotencyKey := Some key; senderAddress := None; verificationStatus := PENDING;
  verifiedAt := None; rejectionReason := None; retryCount := 0; lastChainStatus := None;
  lastCheckedAt := Some (vr_now r); reconciliationMetadata := None;
  processingLock := Some (vr_lockId r); lockedAt := Some (vr_now r); lockedBy := Some "verify";
  createdAt := vr_now r; submissionStatus := "submitted"; submittedAt := None;
  confirmedAt := None; failedAt := None; failureReason := None; expiryBlockHeight := None;
  ledgerSequence := None; sorobanMetadata := None |}.

(** [src tipping/tipping.service.ts:620-657 tryInsertSentinelTip]: [None] when
    the request is not the first writer. *)
Definition tryInsertSentinelTip (r : VerifyRequest) (key : string)
    : prog TipDB tip_error (option Tip) :=
  try_catch
    (let* saved := attempts (insert_tip (sentinel_row r key)) in Ret (Some saved))
    (fun err => match err with UniqueViolation => Ret None | _ => Throw err end).

(** [src tipping/tipping.service.ts:663-669 releaseProcessingLock] *)
Definition releaseProcessingLock (tipId : string) : prog TipDB tip_error unit :=
  writes (update_tip tipId (fun t =>
    t <| processingLock := None |> <| lockedAt := None |> <| lockedBy := None |>)).

(** [src tipping/tipping.service.ts:675-690 updateRetryMetadata] *)
Definition updateRetryMetadata (tipId : string) (now : ms) (chainStatus : string)
    (metadata : json) : prog TipDB tip_error unit :=
  writes (update_tip tipId (fun t =>
    t <| lastChainStatus := Some chainStatus |> <| lastCheckedAt := Some now |>
      <| reconciliationMetadata := Some metadata |>)).

(** [new Date().toISOString()] inside stored metadata. *)
Definition iso (t : ms) : json := JNum (num_of_Z t).

(** [src tipping/tipping.service.ts:384-393 reconciliationMetadata] *)
Definition settlement_metadata (r : VerifyRequest) (key : string) (d : ProcessedTransactionData)
    : json :=
  JObj [("verifiedBy", JStr "user_request");
        ("processedData", JObj [("amount", JNum (pd_amount d));
                                ("senderAddress", json_opt_str (pd_senderAddress d))]);
        ("receiptMetadata",
           JObj [("settlementId", json_opt_str (settlementId (pd_receiptMetadata d)));
                 ("proofMetadata", json_opt_str (proofMetadata (pd_receiptMetadata d)));
                 ("anonymousSender", JBool (anonymousSender (pd_receiptMetadata d)))]);
        ("idempotencyKey", JStr key);
        ("requestId", json_opt_str (vr_requestId r))].

Definition emit_event (e : TipEvent) (w : TipDB) : TipDB := w <| tip_events ::= (fun l => l ++ [e]) |>.
Definition record_analytics (name key : string) (w : TipDB) : TipDB :=
  w <| analytics ::= (fun l => l ++ [(name, key)]) |>.
Definition audit_settlement (s : Settlement) (w : TipDB) : TipDB :=
  w <| settlements ::= (fun l => l ++ [s]) |>.

(** [src tipping/tipping.service.ts:395-404 sentinelTip]: the assignments that
    finalise the sentinel. *)
Definition finalised (r : VerifyRequest) (key : string) (d : ProcessedTransactionData)
    (sentinelTip : Tip) : Tip :=
  sentinelTip <| amount := pd_amount d |> <| senderAddress := pd_senderAddress d |>
    <| verificationStatus := VERIFIED |> <| verifiedAt := Some (vr_now r) |>
    <| lastChainStatus := Some "verified" |> <| lastCheckedAt := Some (vr_now r) |>
    <| reconciliationMetadata := Some (settlement_metadata r key d) |>
    <| processingLock := None |> <| lockedAt := None |> <| lockedBy := None |>.

(** [src tipping/tipping.service.ts:383-498 verifyAndRecordTip]: step 8 and the
    effects of step 9. *)
Definition finalise (r : VerifyRequest) (key : string) (d : ProcessedTransactionData)
    (sentinelTip : Tip) : prog TipDB tip_error TipVerificationResult :=
  let savedTip := finalised r key d sentinelTip in
  do* writes (save_tip savedTip) in
  do* writes (record_analytics "tip_completed" ("tip_completed:" +:+ vr_tx r)) in
  do* writes (record_analytics "stellar_tx_confirmed" ("stellar_tx_confirmed:" +:+ vr_tx r)) in
  do* writes (emit_event {| ev_name := "tip.verified"; ev_confession := vr_confession r;
                            ev_tx := vr_tx r |}) in
  do* writes (audit_settlement {| st_tip := id savedTip; st_confession := vr_confession r;
                                  st_tx := vr_tx r; st_amount := pd_amount d;
                                  st_by := "tipping-service" |}) in
  Ret {| r_tip := savedTip; isNew := true; isIdempotent := false; r_state := SVerified |}.

Definition attempt_metadata (now : ms) (msg : string) : json :=
  JObj [("error", JStr msg); ("attemptedAt", iso now)].

Definition error_message (e : tip_error) : string :=
  match e with
  | NotFoundException m | BadRequestException m _ | GatewayTimeoutException m => m
  | ConflictException _ reason _ _ => reason
  | UniqueViolation => "duplicate key value violates unique constraint"
  end.

(** [src tipping/tipping.service.ts:312-355 verifyAndRecordTip]: step 5, the
    on-chain verification. *)
Definition verify_on_chain (r : VerifyRequest) (tipId : string) : prog TipDB tip_error unit :=
  match vr_chain r with
  | Exn msg =>
      do* updateRetryMetadata tipId (vr_now r) "network_error" (attempt_metadata (vr_now r) msg) in
      do* releaseProcessingLock tipId in
      Throw (ConflictException SFailed "NETWORK_ERROR" None true)
  | Ok false =>
      do* updateRetryMetadata tipId (vr_now r) "not_found"
            (attempt_metadata (vr_now r) "Transaction not found on chain") in
      do* releaseProcessingLock tipId in
      Throw (BadRequestException "Transaction not found or invalid on Stellar network" None)
  | Ok true => Ret tt
  end.

(** [src tipping/tipping.service.ts:357-381 verifyAndRecordTip]: step 6 and the
    processing of the answer. *)
Definition fetch_and_process (r : VerifyRequest) (tipId : string)
    : prog TipDB tip_error ProcessedTransactionData :=
  let* txData :=
    match fetchTransactionData (vr_fetch r) with
    | Ok tx => Ret tx
    | Exn ((GatewayTimeoutException _ | NotFoundException _) as fetchError) =>
        do* updateRetryMetadata tipId (vr_now r) "fetch_retryable"
              (attempt_metadata (vr_now r) (error_message fetchError)) in
        do* releaseProcessingLock tipId in
        Throw (ConflictException SFailed "NETWORK_ERROR" None true)
    | Exn fetchError => Throw fetchError
    end in
  of_outcome (processTransactionData txData).

(** [src tipping/tipping.service.ts:499-532 verifyAndRecordTip]: the handler of
    the outer [catch]. *)
Definition on_failure (r : VerifyRequest) (tipId : string) (e : tip_error)
    : prog TipDB tip_error TipVerificationResult :=
  do* try_catch (releaseProcessingLock tipId) (fun _ => Ret tt) in
  do* writes (emit_event {| ev_name := "tip.verification_failed";
                            ev_confession := vr_confession r; ev_tx := vr_tx r |}) in
  do* writes (record_analytics "stellar_tx_failed" ("stellar_tx_failed:" +:+ vr_tx r)) in
  Throw e.

(** [src tipping/tipping.service.ts:311-532 verifyAndRecordTip]: the [try] block
    of the first writer. *)
Definition settle (r : VerifyRequest) (key : string) (sentinelTip : Tip)
    : prog TipDB tip_error TipVerificationResult :=
  try_catch
    (do* verify_on_chain r (id sentinelTip) in
     let* processedData := fetch_and_process r (id sentinelTip) in
     finalise r key processedData sentinelTip)
    (on_failure r (id sentinelTip)).

(** [src tipping/tipping.service.ts:242-309 verifyAndRecordTip]: steps 3 and 4. *)
Definition claim_and_settle (r : VerifyRequest) (key : string)
    : prog TipDB tip_error TipVerificationResult :=
  let* claimed := tryInsertSentinelTip r key in
  match claimed with
  | None =>
      let* canonical := findTipByIdempotencyKey key in
      match canonical with
      | None => Throw (ConflictException SPending "ALREADY_PROCESSING" None true)
      | Some tip => of_outcome (resolveIdempotentOutcome tip)
      end
  | Some sentinelTip =>
      let* tipByTxId := reads (find_tip (fun t => txId t =s? vr_tx r)) in
      match tipByTxId with
      | Some other =>
          if negb (confessionId other =s? vr_confession r) then
            do* writes (fun w => w <| tips ::= delete (id sentinelTip) |>) in
            Throw (ConflictException SConflict "DIFFERENT_CONFESSION"
                     (Some (confessionId other)) false)
          else settle r key sentinelTip
      | None => settle r key sentinelTip
      end
  end.

(** [src tipping/tipping.service.ts:183-240 verifyAndRecordTip] *)
Definition verifyAndRecordTip (r : VerifyRequest) : prog TipDB tip_error TipVerificationResult :=
  let* confession := reads (fun w => bool_decide (vr_confession r ∈ confessions w)) in
  if negb confession then Throw (NotFoundException "Confession not found") else
  let idempotencyKey := generateIdempotencyKey (vr_confession r) (vr_tx r) in
  let* existing := findTipByIdempotencyKey idempotencyKey in
  match existing with
  | Some tip =>
      if (confessionId tip =s? vr_confession r) && (txId tip =s? vr_tx r)
      then of_outcome (resolveIdempotentOutcome tip)
      else claim_and_settle r idempotencyKey
  | None => claim_and_settle r idempotencyKey
  end.

Record TipStats := { totalAmount : jsnum; totalCount : nat; averageAmount : jsnum }.

(** [src tipping/tipping.service.ts:122-127 getTipsByConfessionId]: the rows,
    before the ordering by creation time. *)
Definition getTipsByConfessionId (confession : string) (w : TipDB) : list Tip :=
  List.filter (fun t => confessionId t =s? confession) (map snd (map_to_list (tips w))).

(** [src tipping/tipping.service.ts:132-146 getTipStats] *)
Definition getTipStats (confession : string) (w : TipDB) : TipStats :=
  let found := getTipsByConfessionId confession w in
  let total := fold_left (fun sum tip => num_add sum (amount tip)) found (Fin 0) in
  let count := length found in
  {| totalAmount := total; totalCount := count;
     averageAmount := if (0 <? count)%nat then num_div_nat total count else Fin 0 |}.

(** [src tipping/tipping.service.ts:151-156 getTipByTxId] *)
Definition getTipByTxId (tx : string) (w : TipDB) : option Tip :=
  find_tip (fun t => txId t =s? tx) w.


(** ** The contract of the tips table

    [chain tx]: has the network recorded [tx] as successful?  A recorded result
    never changes, so the answers of different calls agree on it. *)
Context (chain : string -> bool).

(** The rows of the requests in flight ([owned]) are checked at [T0] or later. *)
Context (T0 : ms) (owned : string -> Prop).
Definition recent (t : Tip) : Prop := exists c, lastCheckedAt t = Some c /\ T0 <= c.

(** A settled amount: within the bounds and the precision, or [NaN], which the
    comparisons of [validateTipAmountBounds] let through. *)
Definition amount_ok (a : jsnum) : Prop :=
  a = NaN \/ (num_le MIN_TIP_AMOUNT a = true /\ num_le a MAX_TIP_AMOUNT = true
              /\ more_decimals TIP_PRECISION a = false).

(** [s] is a settlement of the row [t]. *)
Definition settles (s : Settlement) (t : Tip) : Prop :=
  verificationStatus t = VERIFIED /\ confessionId t = st_confession s /\ txId t = st_tx s
  /\ amount t = st_amount s.

(** Not yet decided. *)
Definition open_tip (t : Tip) : bool :=
  bool_decide (verificationStatus t = PENDING \/ verificationStatus t = STALE_PENDING).

Record tip_inv (w : TipDB) : Prop := {
  inv_keyed : forall k t, tips w !! k = Some t -> id t = k;
  inv_tx : forall k1 k2 t1 t2, tips w !! k1 = Some t1 -> tips w !! k2 = Some t2 ->
             txId t1 = txId t2 -> k1 = k2;
  inv_open : forall k t, tips w !! k = Some t -> open_tip t = true -> amount t = Fin 0;
  inv_verified : forall k t, tips w !! k = Some t -> verificationStatus t = VERIFIED ->
                   chain (txId t) = true;
  inv_recent : forall k t, owned k -> tips w !! k = Some t -> recent t;
  inv_settled : forall s, s ∈ settlements w ->
      amount_ok (st_amount s) /\ chain (st_tx s) = true
      /\ exists t, tips w !! st_tip s = Some t /\ settles s t;
  inv_once : NoDup (map st_tip (settlements w));
}.

(** What an actor may do to a row it does not own. *)
Definition evolves (t0 t1 : Tip) : Prop :=
  id t1 = id t0 /\ confessionId t1 = confessionId t0 /\ txId t1 = txId t0
  /\ idempotencyKey t1 = idempotencyKey t0 /\ amount t1 = amount t0
  /\ (verificationStatus t0 = VERIFIED -> verificationStatus t1 = VERIFIED).

(** Evolving without being verified, nor reopened with an amount. *)
Definition quiet (t0 t1 : Tip) : Prop :=
  evolves t0 t1 /\ (open_tip t1 = true -> open_tip t0 = true \/ amount t0 = Fin 0)
  /\ (verificationStatus t1 = VERIFIED -> verificationStatus t0 = VERIFIED)
  /\ (recent t0 -> recent t1).

(** What every actor keeps of every row. *)
Definition same_ident (t0 t1 : Tip) : Prop :=
  confessionId t1 = confessionId t0 /\ txId t1 = txId t0
  /\ (verificationStatus t0 = VERIFIED -> verificationStatus t1 = VERIFIED).

(** The guarantee of an actor that owns the row [own]: it only lets other rows
    evolve, creates no other row, and settles no other row. *)
Record tip_guar (own : option string) (w w' : TipDB) : Prop := {
  guar_rows : forall k t, own <> Some k -> tips w !! k = Some t ->
                exists t', tips w' !! k = Some t' /\ quiet t t';
  guar_ident : forall k t, tips w !! k = Some t ->
                 exists t', tips w' !! k = Some t' /\ same_ident t t';
  guar_new : forall k, own <> Some k -> tips w !! k = None -> tips w' !! k = None;
  guar_settled : exists l, settlements w' = settlements w ++ l
                   /\ forall s, s ∈ l -> own = Some (st_tip s);
}.

(** The network's answers to a request agree with [chain], and its clock is not
    before [T0]. *)
Definition honest (r : VerifyRequest) : Prop :=
  (vr_chain r = Ok true -> chain (vr_tx r) = true) /\ T0 <= vr_now r.

(** The stages of a request: its row does not exist; it is the sentinel; it is
    verified but not audited; it is settled. *)
Definition unclaimed (r : VerifyRequest) (w : TipDB) : Prop := tips w !! vr_tipId r = None.
Definition row_of (r : VerifyRequest) (a : jsnum) (w : TipDB) (t : Tip) : Prop :=
  tips w !! vr_tipId r = Some t /\ confessionId t = vr_confession r /\ txId t = vr_tx r
  /\ amount t = a.
Definition claimed (r : VerifyRequest) (w : TipDB) : Prop :=
  (exists t, row_of r (Fin 0) w t) /\ vr_tipId r ∉ map st_tip (settlements w).
Definition recorded (r : VerifyRequest) (a : jsnum) (w : TipDB) : Prop :=
  (exists t, row_of r a w t /\ verificationStatus t = VERIFIED)
  /\ vr_tipId r ∉ map st_tip (settlements w).
Definition settled (r : VerifyRequest) (a : jsnum) (w : TipDB) : Prop :=
  exists s, s ∈ settlements w /\ st_tip s = vr_tipId r /\ st_tx s = vr_tx r
            /\ st_confession s = vr_confession r /\ st_amount s = a.

Definition is_exn {E A} (o : outcome E A) : bool := match o with Exn _ => true | _ => false end.

(** What a response promises. *)
Definition verify_post (r : VerifyRequest) (o : outcome tip_error TipVerificationResult)
    (w : TipDB) : Prop :=
  match o with
  | Ok res =>
      match r_state res with
      | SVerified => isNew res = true /\ id (r_tip res) = vr_tipId r
                     /\ settled r (amount (r_tip res)) w
      | SDuplicate => isNew res = false /\ verificationStatus (r_tip res) = VERIFIED
      | _ => False
      end
  | Exn _ => True
  end.

(** ** Lemmas *)

Lemma validateTipAmountBounds_ok a :
  validateTipAmountBounds a = Ok tt <->
  a = NaN \/ (num_le MIN_TIP_AMOUNT a = true /\ num_le a MAX_TIP_AMOUNT = true).
Proof.
  unfold validateTipAmountBounds, MIN_TIP_AMOUNT, MAX_TIP_AMOUNT.
  destruct a as [| | |q]; cbn; [naive_solver..|].
  split; [intros H|intros [|[H1 H2]]; [done|]].
  - right. do 3 (case_in H; [done|]). boolp. rewrite !Qle_bool_gt, !Qltb_ge in *.
    rewrite !Qle_bool_iff. done.
  - apply Qle_bool_iff in H1, H2.
    assert (Qle_bool q 0 = false) as -> by (apply Qle_bool_gt; lra).
    assert (Qltb q (1 # 10) = false) as -> by (by apply Qltb_ge).
    by assert (Qltb 10000 q = false) as -> by (by apply Qltb_ge).
Qed.

Lemma processTransactionData_amount tx d :
  processTransactionData tx = Ok d -> amount_ok (pd_amount d).
Proof.
  unfold processTransactionData. intros H. case_in H; [done|].
  unfold validateTipAsset, SUPPORTED_TIP_ASSETS, obind in H. cbn in H.
  case_in H; [|done]. cbn in H.
  destruct (validateTipAmountBounds _) as [[]|] eqn:Hb; [|done].
  destruct (validateTipPrecision _ _) as [[]|] eqn:Hp; [|done].
  case_in H; simplify_eq; cbn.
  unfold validateTipPrecision in Hp. case_in Hp; [done|].
  apply validateTipAmountBounds_ok in Hb as [|[]]; [by left|right; done].
Qed.

Lemma find_tip_Some p w t : find_tip p w = Some t -> exists k, tips w !! k = Some t /\ p t = true.
Proof.
  unfold find_tip. rewrite fmap_Some. intros ([k u] & Hf & ->).
  apply List.find_some in Hf as [Hin Hp]. exists k. split; [|done].
  by apply elem_of_map_to_list, list_elem_of_In.
Qed.

Lemma find_tip_unique p w k t :
  (forall k' t', tips w !! k' = Some t' -> p t' = true -> k' = k) ->
  tips w !! k = Some t -> p t = true -> find_tip p w = Some t.
Proof.
  intros Huniq Hk Hp. destruct (find_tip p w) as [u|] eqn:Hf.
  - apply find_tip_Some in Hf as (k' & Hk' & Hp'). by rewrite (Huniq k' u Hk' Hp') in Hk'; simplify_eq.
  - unfold find_tip in Hf. apply fmap_None in Hf.
    pose proof (List.find_none _ _ Hf (k, t)) as Hn. cbn in Hn. rewrite Hp in Hn.
    discriminate Hn. by apply list_elem_of_In, elem_of_map_to_list.
Qed.

Lemma insert_tip_Ok t w u w' :
  insert_tip t w = (Ok u, w') ->
  u = t /\ w' = save_tip t w
  /\ (forall k v, tips w !! k = Some v -> txId v <> txId t).
Proof.
  unfold insert_tip. case_match eqn:Hc; intros; simplify_eq. split_and!; [done..|].
  intros k v Hk Heq. apply not_true_iff_false in Hc. apply Hc, existsb_exists.
  exists (k, v). split; [by apply list_elem_of_In, elem_of_map_to_list|].
  unfold clashes. cbn. by rewrite Heq, str_eqb_refl.
Qed.

Lemma insert_tip_key t w u w' k v :
  insert_tip t w = (Ok u, w') -> tips w !! k = Some v -> idempotencyKey t = idempotencyKey v ->
  idempotencyKey t = None.
Proof.
  unfold insert_tip. case_match eqn:Hc; [done|]. intros [= <- <-] Hk Heq.
  destruct (idempotencyKey t) as [a|] eqn:Ha; [|done]. exfalso.
  apply not_true_iff_false in Hc. apply Hc, existsb_exists.
  exists (k, v). split; [by apply list_elem_of_In, elem_of_map_to_list|].
  unfold clashes. cbn. rewrite Ha, <- Heq, str_eqb_refl. by rewrite orb_true_r.
Qed.

Lemma insert_tip_Exn t w e w' : insert_tip t w = (Exn e, w') -> e = UniqueViolation /\ w' = w.
Proof. unfold insert_tip. case_match; intros; by simplify_eq. Qed.

Lemma evolves_refl t : evolves t t.
Proof. by unfold evolves. Qed.

Lemma evolves_ident t t' : evolves t t' -> same_ident t t'.
Proof. unfold evolves, same_ident. tauto. Qed.

Lemma same_ident_refl t : same_ident t t.
Proof. by apply evolves_ident, evolves_refl. Qed.

Lemma quiet_refl t : quiet t t.
Proof. split; [apply evolves_refl|]. auto. Qed.

Lemma settles_evolves s t t' : settles s t -> evolves t t' -> settles s t'.
Proof. unfold settles, evolves. intuition congruence. Qed.

(** Row by row quiet changes are allowed to everyone. *)
Definition rows_quiet (w w' : TipDB) : Prop :=
  settlements w' = settlements w /\
  forall k, match tips w !! k with
            | None => tips w' !! k = None
            | Some t => exists t', tips w' !! k = Some t' /\ quiet t t'
            end.

Lemma rows_quiet_ok own w w' :
  rows_quiet w w' -> tip_inv w -> tip_inv w' /\ tip_guar own w w'.
Proof.
  intros [Hs Hrows] [H1 H2 H3 Hv Hr H4 H5].
  assert (forall k t', tips w' !! k = Some t' ->
            exists t, tips w !! k = Some t /\ quiet t t') as Hback.
  { intros k t' Hk. specialize (Hrows k). destruct (tips w !! k) as [t|]; [|congruence].
    destruct Hrows as (u & Hu & Hq). simplify_eq. eauto. }
  assert (forall k t, tips w !! k = Some t ->
            exists t', tips w' !! k = Some t' /\ quiet t t') as Hfwd.
  { intros k t Hk. specialize (Hrows k). by rewrite Hk in Hrows. }
  split; split; rewrite ?Hs.
  - intros k t Hk. destruct (Hback k t Hk) as (t0 & Ht0 & (-> & _) & _). by apply H1.
  - intros k1 k2 t1 t2 Hk1 Hk2.
    destruct (Hback _ _ Hk1) as (u1 & Hu1 & (_ & _ & -> & _) & _).
    destruct (Hback _ _ Hk2) as (u2 & Hu2 & (_ & _ & -> & _) & _). eauto.
  - intros k t Hk Ho. destruct (Hback k t Hk) as (t0 & Ht0 & (_ & _ & _ & _ & -> & _) & Ho' & _).
    destruct (Ho' Ho); eauto.
  - intros k t Hk Ht. destruct (Hback k t Hk) as (t0 & Ht0 & (_ & _ & -> & _) & _ & Hv' & _).
    eauto.
  - intros k t Ho Hk. destruct (Hback k t Hk) as (t0 & Ht0 & _ & _ & _ & Hrec). eauto.
  - intros s Hin. destruct (H4 s Hin) as (? & ? & t & Ht & Hst). split_and!; [done..|].
    destruct (Hfwd _ _ Ht) as (t' & Ht' & Hev & _). eauto using settles_evolves.
  - done.
  - intros k t _ Hk. destruct (Hfwd k t Hk) as (t' & ? & ?). eauto.
  - intros k t Hk. destruct (Hfwd k t Hk) as (t' & ? & ? & _). eauto using evolves_ident.
  - intros k _ Hk. specialize (Hrows k). by rewrite Hk in Hrows.
  - exists []. split; [by rewrite app_nil_r|]. set_solver.
Qed.

Lemma same_tables_quiet w w' :
  tips w' = tips w -> settlements w' = settlements w -> rows_quiet w w'.
Proof.
  intros Ht Hs. split; [done|]. intros k. rewrite Ht. destruct (tips w !! k) as [t|]; [|done].
  eauto using quiet_refl.
Qed.

Lemma update_quiet k f w :
  (forall t, tips w !! k = Some t -> quiet t (f t)) -> rows_quiet w (update_tip k f w).
Proof.
  intros Hf. split; [done|]. intros j. cbn. destruct (decide (k = j)) as [<-|Hne].
  - rewrite lookup_alter_eq. destruct (tips w !! k) as [t|] eqn:Ht; [|done]. cbn. eauto.
  - rewrite lookup_alter_ne by done. destruct (tips w !! j) as [t|]; eauto using quiet_refl.
Qed.

(** The owner of a free id inserts a pending row of amount zero for a new
    transaction. *)
Lemma insert_sentinel_ok r key w t w' :
  insert_tip (sentinel_row r key) w = (Ok t, w') -> tip_inv w -> unclaimed r w ->
  T0 <= vr_now r ->
  t = sentinel_row r key /\ tip_inv w' /\ tip_guar (Some (vr_tipId r)) w w' /\ claimed r w'.
Proof.
  intros Hins [H1 H2 H3 Hv Hr H4 H5] Hun Hnow. unfold unclaimed in Hun.
  apply insert_tip_Ok in Hins as (-> & -> & Hnew). cbn in Hnew.
  assert (vr_tipId r ∉ map st_tip (settlements w)) as Hno.
  { intros Hin. apply list_elem_of_fmap in Hin as (s & Hid & Hs).
    destruct (H4 s Hs) as (_ & _ & t & Ht & _). congruence. }
  split; [done|]. split; [split|split; [split|]]; cbn.
  - intros k t [[<- <-]|[_ Ht]]%lookup_insert_Some; [done|by apply H1].
  - intros k1 k2 t1 t2 [[<- <-]|[Hk1 Ht1]]%lookup_insert_Some
      [[<- <-]|[Hk2 Ht2]]%lookup_insert_Some Heq; cbn in *; [done| | |by eauto].
    + by destruct (Hnew _ _ Ht2).
    + by destruct (Hnew _ _ Ht1).
  - intros k t [[<- <-]|[_ Ht]]%lookup_insert_Some; [done|by apply (H3 k)].
  - intros k t [[<- <-]|[_ Ht]]%lookup_insert_Some; [done|by apply (Hv k)].
  - intros k t Ho [[<- <-]|[_ Ht]]%lookup_insert_Some; [by eexists|by apply (Hr k)].
  - intros s Hs. destruct (H4 s Hs) as (? & ? & t & Ht & Hst). split_and!; [done..|].
    exists t. split; [|done]. apply lookup_insert_Some. right. split; [|done]. congruence.
  - done.
  - intros k t Hne Ht. exists t. split; [|apply quiet_refl].
    by rewrite lookup_insert_ne by congruence.
  - intros k t Ht. exists t. split; [|apply same_ident_refl].
    by rewrite lookup_insert_ne by congruence.
  - intros k Hne Hk. by rewrite lookup_insert_ne by congruence.
  - exists []. split; [by rewrite app_nil_r|]. set_solver.
  - split; [|done]. exists (sentinel_row r key). unfold row_of. cbn. by rewrite lookup_insert_eq.
Qed.

(** The owner finalises its row. *)
Lemma finalise_row_ok r key d w :
  tip_inv w -> claimed r w -> chain (vr_tx r) = true -> T0 <= vr_now r ->
  let w' := save_tip (finalised r key d (sentinel_row r key)) w in
  tip_inv w' /\ tip_guar (Some (vr_tipId r)) w w' /\ recorded r (pd_amount d) w'.
Proof.
  intros [H1 H2 H3 Hv Hr H4 H5] [(t0 & Ht0 & Hc0 & Hx0 & _) Hno] Hchain Hnow. cbn. split; [split|split; [split|split]]; cbn.
  - intros k t [[<- <-]|[_ Ht]]%lookup_insert_Some; [done|by apply H1].
  - intros k1 k2 t1 t2 [[<- <-]|[Hk1 Ht1]]%lookup_insert_Some
      [[<- <-]|[Hk2 Ht2]]%lookup_insert_Some Heq; cbn in *; [done| | |by eauto].
    + apply (H2 _ _ _ _ Ht0 Ht2). congruence.
    + apply (H2 _ _ _ _ Ht1 Ht0). congruence.
  - intros k t [[<- <-]|[_ Ht]]%lookup_insert_Some; [done|by apply (H3 k)].
  - intros k t [[<- <-]|[_ Ht]]%lookup_insert_Some; [done|by apply (Hv k)].
  - intros k t Ho [[<- <-]|[_ Ht]]%lookup_insert_Some; [by eexists|by apply (Hr k)].
  - intros s Hs. destruct (H4 s Hs) as (? & ? & t & Ht & Hst). split_and!; [done..|].
    exists t. split; [|done]. apply lookup_insert_Some. right. split; [|done].
    intros Heq. apply Hno. rewrite Heq. apply list_elem_of_fmap. eauto.
  - done.
  - intros k t Hne Ht. exists t. split; [|apply quiet_refl].
    by rewrite lookup_insert_ne by congruence.
  - intros k t Ht. destruct (decide (k = vr_tipId r)) as [->|Hne].
    + rewrite lookup_insert_eq. eexists. split; [done|]. rewrite Ht0 in Ht. simplify_eq.
      by unfold same_ident; cbn; rewrite Hc0, Hx0.
    + exists t. split; [|apply same_ident_refl]. by rewrite lookup_insert_ne.
  - intros k Hne Hk. by rewrite lookup_insert_ne by congruence.
  - exists []. split; [by rewrite app_nil_r|]. set_solver.
  - exists (finalised r key d (sentinel_row r key)). unfold row_of. cbn.
    by rewrite lookup_insert_eq.
  - done.
Qed.

(** The owner audits its verified row. *)
Lemma audit_ok r a w s :
  tip_inv w -> recorded r a w -> amount_ok a -> chain (vr_tx r) = true ->
  s = {| st_tip := vr_tipId r; st_confession := vr_confession r; st_tx := vr_tx r;
         st_amount := a; st_by := "tipping-service" |} ->
  let w' := audit_settlement s w in
  tip_inv w' /\ tip_guar (Some (vr_tipId r)) w w' /\ settled r a w'.
Proof.
  intros [H1 H2 H3 Hvs Hr H4 H5] [(t & (Ht & Hc & Hx & Ha) & Hv) Hno] Hok Hchain Hs.
  cbn. split; [split|split; [split|]]; cbn; try done.
  - intros s'. rewrite elem_of_app, list_elem_of_singleton. intros [Hs'| ->]; [by apply H4|].
    subst s. cbn. split_and!; [done..|]. exists t. split; [done|]. by unfold settles.
  - rewrite map_app. apply NoDup_app. split_and!; [done| |by apply NoDup_singleton].
    intros x Hx1 Hx2%list_elem_of_singleton. subst. done.
  - intros k t' _ Ht'. exists t'. split; [done|apply quiet_refl].
  - intros k t' Ht'. exists t'. split; [done|apply same_ident_refl].
  - exists [s]. split; [done|]. intros s' ->%list_elem_of_singleton. by subst s.
  - exists s. subst s. cbn. split; [|done]. apply elem_of_app. right. by apply list_elem_of_singleton.
Qed.

(** The stages survive what the other actors may do. *)
Lemma guar_row_of own w w' r a :
  own <> Some (vr_tipId r) -> tip_guar own w w' ->
  (exists t, row_of r a w t) -> exists t, row_of r a w' t.
Proof.
  intros Hown [H1 _ _ _] (t & Ht & ? & ? & ?).
  destruct (H1 _ _ Hown Ht) as (t' & Ht' & (? & ? & ? & ? & ? & _) & _).
  exists t'. unfold row_of. split_and!; congruence.
Qed.

Lemma guar_unaudited own w w' k :
  own <> Some k -> tip_guar own w w' ->
  k ∉ map st_tip (settlements w) -> k ∉ map st_tip (settlements w').
Proof.
  intros Hown [_ _ _ (l & -> & Hl)] Hno. rewrite map_app, elem_of_app.
  intros [?|(s & -> & Hs)%list_elem_of_fmap]; [done|]. by rewrite (Hl s Hs) in Hown.
Qed.

Lemma guar_unclaimed own w w' r :
  own <> Some (vr_tipId r) -> tip_guar own w w' -> unclaimed r w -> unclaimed r w'.
Proof. intros Hown [_ _ H2 _]. by apply H2. Qed.

Lemma guar_claimed own w w' r :
  own <> Some (vr_tipId r) -> tip_guar own w w' -> claimed r w -> claimed r w'.
Proof.
  intros Hown Hg [Hrow Hno]. split; [by eapply guar_row_of|by eapply guar_unaudited].
Qed.

Lemma guar_recorded own w w' r a :
  own <> Some (vr_tipId r) -> tip_guar own w w' -> recorded r a w -> recorded r a w'.
Proof.
  intros Hown Hg [(t & (Ht & ? & ? & ?) & Hv) Hno]. split; [|by eapply guar_unaudited].
  destruct (guar_rows _ _ _ Hg _ _ Hown Ht) as (t' & Ht' & (? & ? & ? & ? & ? & Hv') & _).
  exists t'. unfold row_of. split_and!; try congruence. by apply Hv'.
Qed.

Lemma guar_settled_stays own w w' r a : tip_guar own w w' -> settled r a w -> settled r a w'.
Proof.
  intros [_ _ _ (l & Hl & _)] (s & Hs & ?). exists s. rewrite Hl. split; [|done].
  apply elem_of_app. by left.
Qed.

Lemma guar_refl own' w : tip_guar own' w w.
Proof.
  split.
  - eauto using quiet_refl.
  - eauto using same_ident_refl.
  - done.
  - exists []. split; [by rewrite app_nil_r|]. set_solver.
Qed.
(** ** The handler as an actor *)
Section actor.
Context (own : positive -> option string)
        (own_inj : forall t t' k, own t = Some k -> own t' = Some k -> t = t').
Context (t : positive) (r : VerifyRequest) (Hown : own t = Some (vr_tipId r)) (Hhonest : honest r).

Abbreviation G := (fun t => tip_guar (own t)).
Abbreviation spec := (@rg TipDB tip_error tip_inv G).

Lemma not_mine t' : t' <> t -> own t' <> Some (vr_tipId r).
Proof using own_inj Hown. intros Hne H. by apply Hne, (own_inj t' t (vr_tipId r)). Qed.

Lemma stable_unclaimed : stable tip_inv G t (unclaimed r).
Proof using own_inj Hown. intros t' w w' Hne _ HP Hg. eapply guar_unclaimed; eauto using not_mine. Qed.

Lemma stable_claimed : stable tip_inv G t (claimed r).
Proof using own_inj Hown. intros t' w w' Hne _ HP Hg. eapply guar_claimed; eauto using not_mine. Qed.

Lemma stable_recorded a : stable tip_inv G t (recorded r a).
Proof using own_inj Hown. intros t' w w' Hne _ HP Hg. eapply guar_recorded; eauto using not_mine. Qed.

Lemma stable_settled a : stable tip_inv G t (settled r a).
Proof. intros t' w w' Hne _ HP Hg. eapply guar_settled_stays; eauto. Qed.

Hint Resolve stable_unclaimed stable_claimed stable_recorded stable_settled : core.

(** A write to the logs only. *)
Lemma spec_log {B} (P : TipDB -> Prop) f (q : prog TipDB tip_error B) post :
  (forall w, tips (f w) = tips w /\ settlements (f w) = settlements w /\ (P w -> P (f w))) ->
  stable tip_inv G t P -> spec t P q post -> spec t P (bind (writes f) (fun _ => q)) post.
Proof.
  intros Hf Hst Hq. apply rg_writes with (Q := P); [|done..].
  intros w HI HP. destruct (Hf w) as (Ht & Hs & HP').
  destruct (rows_quiet_ok (own t) w (f w)) as [HI' Hg]; auto using same_tables_quiet.
Qed.

(** An update of the sentinel that lets it evolve. *)
Lemma spec_touch {B} f (q : prog TipDB tip_error B) post :
  (forall u, quiet u (f u)) ->
  spec t (claimed r) q post ->
  spec t (claimed r) (bind (writes (update_tip (vr_tipId r) f)) (fun _ => q)) post.
Proof using own_inj Hown.
  intros Hf Hq. apply rg_writes with (Q := claimed r); [|done..].
  intros w HI Hcl.
  destruct (rows_quiet_ok (own t) w (update_tip (vr_tipId r) f w)) as [HI' Hg];
    [by apply update_quiet|done|].
  split; [done|]. split; [done|]. destruct Hcl as [(u & Hu & ? & ? & ?) Hno]. split; [|done].
  exists (f u). destruct (Hf u) as [(? & ? & ? & ? & ? & _) _]. unfold row_of. cbn.
  rewrite lookup_alter_eq, Hu. cbn. split_and!; congruence.
Qed.

Abbreviation sentinel := (sentinel_row r (generateIdempotencyKey (vr_confession r) (vr_tx r))).

Lemma spec_release {B} (q : prog TipDB tip_error B) post :
  spec t (claimed r) q post ->
  spec t (claimed r) (do* releaseProcessingLock (vr_tipId r) in q) post.
Proof using own_inj Hown. apply spec_touch. intros u. unfold quiet, evolves. cbn. auto 10. Qed.

Lemma spec_retry {B} st m (q : prog TipDB tip_error B) post :
  spec t (claimed r) q post ->
  spec t (claimed r) (do* updateRetryMetadata (vr_tipId r) (vr_now r) st m in q) post.
Proof using own_inj Hown Hhonest.
  apply spec_touch. intros u. unfold quiet, evolves. cbn. split; [done|split; [auto|split; [done|]]].
  intros _. exists (vr_now r). split; [done|apply Hhonest].
Qed.

Lemma spec_on_failure e :
  spec t (claimed r) (on_failure r (vr_tipId r) e) (verify_post r).
Proof using own_inj Hown Hhonest.
  unfold on_failure. apply (spec_release (B := TipVerificationResult)).
  do 2 (apply spec_log; [by intros w; unfold claimed|done|]). by intros w.
Qed.

Lemma spec_finalise key d :
  amount_ok (pd_amount d) -> chain (vr_tx r) = true ->
  spec t (claimed r) (finalise r key d (sentinel_row r key))
    (fun o w => verify_post r o w /\ is_exn o = false).
Proof using own_inj Hown Hhonest.
  intros Hd Hchain. destruct Hhonest as [_ Hnow]. unfold finalise. cbn zeta.
  apply rg_writes with (Q := recorded r (pd_amount d)); [|done|].
  { intros w HI Hcl. rewrite Hown. by apply finalise_row_ok. }
  do 3 (apply spec_log; [by intros w; unfold recorded|done|]).
  apply rg_writes with (Q := settled r (pd_amount d)); [|done|].
  { intros w HI Hrec. rewrite Hown. by eapply audit_ok. }
  by intros w _ Hs.
Qed.

Lemma spec_throw {B} (P : TipDB -> Prop) e (post : outcome tip_error B -> TipDB -> Prop) :
  (forall w, P w -> post (Exn e) w) -> spec t P (Throw e) post.
Proof. by intros H w _ HP; apply H. Qed.

Lemma spec_verify_on_chain :
  spec t (claimed r) (verify_on_chain r (vr_tipId r))
    (fun o w => claimed r w /\ (o = Ok tt -> chain (vr_tx r) = true)).
Proof using own_inj Hown Hhonest.
  unfold verify_on_chain. destruct (vr_chain r) as [[]|msg] eqn:Hc.
  - intros w _ Hcl. split; [done|]. intros _. by apply (proj1 Hhonest).
  - apply (spec_retry (B := unit)), (spec_release (B := unit)). by intros w.
  - apply (spec_retry (B := unit)), (spec_release (B := unit)). by intros w.
Qed.

Lemma spec_fetch_and_process :
  spec t (claimed r) (fetch_and_process r (vr_tipId r))
    (fun o w => claimed r w /\ (forall d, o = Ok d -> amount_ok (pd_amount d))).
Proof using own_inj Hown Hhonest.
  unfold fetch_and_process. eapply rg_bind with (Q := fun _ => claimed r).
  - destruct (fetchTransactionData (vr_fetch r)) as [tx|[| | | |]];
      try (by intros w);
      apply (spec_retry (B := HorizonTx)), (spec_release (B := HorizonTx)); by intros w.
  - intros tx. destruct (processTransactionData tx) as [d|e] eqn:Hp; intros w _ Hcl; cbn.
    + split; [done|]. intros d' [= <-]. by eapply processTransactionData_amount.
    + done.
Qed.

Lemma spec_settle :
  spec t (claimed r) (settle r (generateIdempotencyKey (vr_confession r) (vr_tx r)) sentinel)
    (verify_post r).
Proof using own_inj Hown Hhonest.
  unfold settle. cbn [id sentinel_row].
  eapply rg_try_catch with (Q := fun _ => claimed r); [|apply spec_on_failure].
  eapply rg_bind with (Q := fun _ w => chain (vr_tx r) = true /\ claimed r w).
  { eapply rg_post; [|apply spec_verify_on_chain].
    intros [[]|e] w [Hcl Hchain]; [auto|done]. }
  intros []. apply rg_pure. intros Hchain.
  eapply rg_bind with (Q := fun d w => amount_ok (pd_amount d) /\ claimed r w).
  { eapply rg_post; [|apply spec_fetch_and_process].
    intros [d|e] w [Hcl Hd]; [split; [by apply Hd|done]|done]. }
  intros d. apply rg_pure. intros Hd.
  eapply rg_post; [|by apply spec_finalise].
  by intros [res|e] w [Hpost Hok].
Qed.

Hint Resolve guar_refl : core.

Lemma spec_replay (P : TipDB -> Prop) tip :
  spec t P (of_outcome (resolveIdempotentOutcome tip)) (verify_post r).
Proof.
  unfold resolveIdempotentOutcome. by destruct (verificationStatus tip) eqn:Hv; intros w.
Qed.

Lemma spec_claim_and_settle :
  spec t (unclaimed r)
    (claim_and_settle r (generateIdempotencyKey (vr_confession r) (vr_tx r))) (verify_post r).
Proof using own_inj Hown Hhonest.
  set (key := generateIdempotencyKey _ _).
  unfold claim_and_settle.
  apply rg_bind with (Q := fun o w => match o with
                                      | Some s => s = sentinel_row r key /\ claimed r w
                                      | None => unclaimed r w
                                      end).
  { intros w HI Hun. cbn [fst snd].
    destruct (insert_tip (sentinel_row r key) w) as [[u|e] w'] eqn:Hins; cbn.
    - destruct (insert_sentinel_ok _ _ _ _ _ Hins HI Hun (proj2 Hhonest)) as (-> & HI' & Hg & Hcl).
      rewrite Hown. split; [done|split; [done|]]. exists (claimed r).
      split; [done|split; [apply stable_claimed|by intros v]].
    - apply insert_tip_Exn in Hins as [-> ->]. split; [done|split; [done|]].
      exists (unclaimed r).
      split; [done|split; [apply stable_unclaimed|by intros v]]. }
  intros [s|].
  - apply rg_pure. intros ->. apply rg_reads; [done|done|].
    intros w HI [(u & Hu & Hc & Hx & _) _].
    erewrite (find_tip_unique _ _ (vr_tipId r) u); [|..]; [|clear Hc| |].
    + rewrite Hc, str_eqb_refl. cbn. apply spec_settle.
    + intros k u' Hu' Heq. boolp. eapply (inv_tx _ HI); eauto. congruence.
    + done.
    + by rewrite Hx, str_eqb_refl.
  - apply rg_reads; [done|done|]. intros w HI Hun.
    destruct (find_tip _ _) as [tip|]; [apply spec_replay|by intros v].
Qed.

(** The whole handler, from a world where its row id is free. *)
Lemma spec_verifyAndRecordTip : spec t (unclaimed r) (verifyAndRecordTip r) (verify_post r).
Proof using own_inj Hown Hhonest.
  unfold verifyAndRecordTip. apply rg_reads; [done|done|]. intros w _ _.
  case_bool_decide; cbn [negb]; [|by intros v].
  apply rg_reads; [done|done|]. intros v _ _.
  destruct (find_tip _ _) as [tip|]; [|apply spec_claim_and_settle].
  case_match; [apply spec_replay|apply spec_claim_and_settle].
Qed.
End actor.

(** ** Sequential behaviour *)

(** A request that returns a result either replayed a row or settled. *)
Lemma run_settle_Ok r key w res w' :
  run (settle r key (sentinel_row r key)) w = (Ok res, w') ->
  exists tx d,
    vr_chain r = Ok true /\ vr_fetch r = Body tx /\ processTransactionData tx = Ok d
    /\ r_tip res = finalised r key d (sentinel_row r key) /\ r_state res = SVerified
    /\ tips w' = <[vr_tipId r := r_tip res]> (tips w)
    /\ confessions w' = confessions w
    /\ settlements w' = settlements w ++
         [{| st_tip := vr_tipId r; st_confession := vr_confession r; st_tx := vr_tx r;
             st_amount := pd_amount d; st_by := "tipping-service" |}].
Proof.
  unfold settle. intros H. run_simp_in H.
  destruct (run (verify_on_chain r _) w) as [[[]|e] w1] eqn:Hv.
  2: { run_simp_in H. destruct (run (on_failure r _ e) w1) as [[?|?] w2] eqn:Hf; [|done].
       unfold on_failure in Hf. run_simp_in Hf. done. }
  unfold verify_on_chain in Hv.
  destruct (vr_chain r) as [[]|msg]; run_simp_in Hv; try done. simplify_eq.
  run_simp_in H. unfold fetch_and_process in H. run_simp_in H.
  destruct (vr_fetch r) as [|msg|st|tx]; cbn [fetchTransactionData] in H;
    try (repeat case_in H; run_simp_in H; done).
  run_simp_in H. destruct (processTransactionData tx) as [d|e] eqn:Hp.
  2: { run_simp_in H. done. }
  exists tx, d. unfold finalise in H. run_simp_in H. simplify_eq. done.
Qed.

Lemma resolve_not_verified tip res :
  resolveIdempotentOutcome tip = Ok res -> r_state res = SDuplicate /\ r_tip res = tip.
Proof. unfold resolveIdempotentOutcome. case_match; intros; by simplify_eq. Qed.

Lemma run_claim_and_settle_verified r w res w' :
  let key := generateIdempotencyKey (vr_confession r) (vr_tx r) in
  run (claim_and_settle r key) w = (Ok res, w') -> r_state res = SVerified ->
  exists w1 tx d,
    insert_tip (sentinel_row r key) w = (Ok (sentinel_row r key), w1)
    /\ vr_chain r = Ok true /\ vr_fetch r = Body tx /\ processTransactionData tx = Ok d
    /\ r_tip res = finalised r key d (sentinel_row r key)
    /\ tips w' = <[vr_tipId r := r_tip res]> (tips w)
    /\ confessions w' = confessions w
    /\ settlements w' = settlements w ++
         [{| st_tip := vr_tipId r; st_confession := vr_confession r; st_tx := vr_tx r;
             st_amount := pd_amount d; st_by := "tipping-service" |}].
Proof.
  cbn zeta. set (key := generateIdempotencyKey _ _).
  unfold claim_and_settle, tryInsertSentinelTip, findTipByIdempotencyKey. intros H Hst. run_simp_in H.
  destruct (insert_tip (sentinel_row r key) w) as [[u|e] w1] eqn:Hins.
  - destruct (insert_tip_Ok _ _ _ _ Hins) as (-> & -> & _). run_simp_in H.
    destruct (find_tip _ _) as [other|]; [case_in H; [by run_simp_in H|]|];
      (destruct (run_settle_Ok _ _ _ _ _ H) as (tx & d & ? & ? & ? & ? & _ & Ht & ? & ?);
       exists (save_tip (sentinel_row r key) w), tx, d; split_and!; try done;
       rewrite Ht; cbn; apply insert_insert_eq).
  - destruct (insert_tip_Exn _ _ _ _ Hins) as [-> ->]. run_simp_in H.
    destruct (find_tip _ _) as [tip|]; run_simp_in H; [|done].
    simplify_eq. match goal with Hr : resolveIdempotentOutcome _ = Ok _ |- _ =>
      apply resolve_not_verified in Hr as [? _] end. congruence.
Qed.

(** What a failing request leaves of the row it claimed. *)
Lemma run_settle_Exn r key w u e w' :
  tips w = <[vr_tipId r := u]> (tips w) ->
  run (settle r key (sentinel_row r key)) w = (Exn e, w') ->
  exists u', tips w' = <[vr_tipId r := u']> (tips w) /\ evolves u u'
             /\ verificationStatus u' = verificationStatus u
             /\ settlements w' = settlements w /\ confessions w' = confessions w.
Proof.
  intros Hu H.
  assert (forall f, alter f (vr_tipId r) (tips w) = <[vr_tipId r := f u]> (tips w)) as Halter.
  { intros f. apply alter_as_insert. rewrite Hu. apply lookup_insert_eq. }
  unfold settle in H. run_simp_in H.
  unfold verify_on_chain, fetch_and_process, on_failure, releaseProcessingLock,
    updateRetryMetadata, finalise in H.
  destruct (vr_chain r) as [[]|msg]; run_simp_in H;
    [destruct (vr_fetch r) as [|m|st|tx]; cbn [fetchTransactionData] in H;
       [| |destruct (st =? 404)|run_simp_in H; destruct (processTransactionData tx)];
       run_simp_in H|..];
    simplify_eq; cbn [tips update_tip emit_event record_analytics set_field eta_TipDB];
    change (id (sentinel_row r key)) with (vr_tipId r);
    rewrite Halter, ?(fun f m x => alter_as_insert f (vr_tipId r) x (<[vr_tipId r := x]> m) (lookup_insert_eq m _ x)), ?insert_insert_eq;
    eexists; (split; [reflexivity|]); by unfold evolves.
Qed.

(** A request that throws wrote nothing, or left its own pending row. *)
Lemma run_verify_Exn r w e w' :
  run (verifyAndRecordTip r) w = (Exn e, w') ->
  w' = w \/
  exists w1 u,
    let s := sentinel_row r (generateIdempotencyKey (vr_confession r) (vr_tx r)) in
    insert_tip s w = (Ok s, w1)
    /\ vr_confession r ∈ confessions w /\ confessions w' = confessions w
    /\ tips w' = <[vr_tipId r := u]> (tips w)
    /\ evolves s u /\ verificationStatus u = PENDING
    /\ settlements w' = settlements w.
Proof.
  unfold verifyAndRecordTip, findTipByIdempotencyKey. intros H. run_simp_in H.
  case_bool_decide as Hin; run_simp_in H; [|left; congruence].
  assert (run (claim_and_settle r (generateIdempotencyKey (vr_confession r) (vr_tx r))) w = (Exn e, w')
          \/ w' = w) as [Hclaim|]; [|clear H|by left].
  { destruct (find_tip _ w) as [tip|]; [case_in H; [|by left]|by left].
    run_simp_in H. right. congruence. }
  unfold claim_and_settle, tryInsertSentinelTip, findTipByIdempotencyKey in Hclaim.
  run_simp_in Hclaim. set (s := sentinel_row r _) in *.
  destruct (insert_tip s w) as [[u|e'] w1] eqn:Hins.
  2: { destruct (insert_tip_Exn _ _ _ _ Hins) as [-> ->]. run_simp_in Hclaim.
       destruct (find_tip _ _); run_simp_in Hclaim; left; congruence. }
  destruct (insert_tip_Ok _ _ _ _ Hins) as (-> & -> & Hnew). run_simp_in Hclaim.
  assert (find_tip (fun t => txId t =s? vr_tx r) (save_tip s w) = Some s) as Hfind.
  { apply find_tip_unique with (vr_tipId r).
    - intros k' t' Hk' Heq. boolp. cbn in Hk'. apply lookup_insert_Some in Hk' as [[-> _]|[_ Hk']]; [done|].
      by destruct (Hnew _ _ Hk').
    - apply lookup_insert_eq.
    - apply str_eqb_refl. }
  rewrite Hfind in Hclaim. change (confessionId s) with (vr_confession r) in Hclaim.
  rewrite str_eqb_refl in Hclaim. cbn [negb] in Hclaim.
  destruct (run_settle_Exn _ _ _ s _ _ (eq_sym (insert_insert_eq (tips w) (vr_tipId r) s s)) Hclaim)
    as (u' & Ht & Hev & Hst & Hse & Hco).
  right. exists (save_tip s w), u'. cbn zeta. split_and!; [done..| |done|done|done].
  rewrite Ht. cbn. apply insert_insert_eq.
Qed.

(** ** Properties *)

(** Verification is idempotent: once a request has settled a transaction, every
    later request for the same confession and transaction, whatever the network
    answers it, reads back that settlement as a duplicate and writes nothing. *)
Theorem verify_replay_idempotent r r2 w res w' :
  run (verifyAndRecordTip r) w = (Ok res, w') -> r_state res = SVerified ->
  vr_confession r2 = vr_confession r -> vr_tx r2 = vr_tx r ->
  run (verifyAndRecordTip r2) w' =
  (Ok {| r_tip := r_tip res; isNew := false; isIdempotent := true; r_state := SDuplicate |}, w').
Proof.
  intros Hrun Hst Hc Hx. unfold verifyAndRecordTip, findTipByIdempotencyKey in Hrun. run_simp_in Hrun.
  case_bool_decide as Hin; run_simp_in Hrun; [|done].
  assert (run (claim_and_settle r (generateIdempotencyKey (vr_confession r) (vr_tx r))) w
          = (Ok res, w')) as Hclaim.
  { destruct (find_tip _ w) as [tip|]; [case_in Hrun; [|done]|done].
    run_simp_in Hrun. destruct (resolveIdempotentOutcome tip) as [res'|] eqn:Hr; [|done].
    simplify_eq. apply resolve_not_verified in Hr as [? _]. congruence. }
  destruct (run_claim_and_settle_verified _ _ _ _ Hclaim Hst)
    as (w1 & tx & d & Hins & _ & _ & _ & Htip & Htips & Hconf & _).
  unfold verifyAndRecordTip, findTipByIdempotencyKey. run_simp. rewrite Hc, Hx, Hconf, bool_decide_eq_true_2 by done.
  cbn [negb]. run_simp.
  rewrite (find_tip_unique _ _ (vr_tipId r) (r_tip res)).
  - assert (confessionId (r_tip res) = vr_confession r /\ txId (r_tip res) = vr_tx r
            /\ verificationStatus (r_tip res) = VERIFIED) as (-> & -> & Hv) by (by rewrite Htip).
    rewrite !str_eqb_refl. cbn [andb]. unfold resolveIdempotentOutcome. by rewrite Hv, run_of_outcome.
  - intros k' t' Hk' Hkey. boolp. rewrite Htips in Hk'.
    apply lookup_insert_Some in Hk' as [[-> _]|[_ Hk']]; [done|].
    by pose proof (insert_tip_key _ _ _ _ _ _ Hins Hk' (eq_sym Hkey)).
  - rewrite Htips. apply lookup_insert_eq.
  - rewrite Htip. by apply bool_decide_eq_true.
Qed.

(** Exactly which transactions are accepted, and what is recorded of them: the
    first payment, in native XLM, of an amount within the bounds and the
    precision ([NaN] included), with a receipt of bounded length; the sender is
    dropped exactly when the receipt asks for anonymity. *)
Theorem processTransactionData_spec tx d :
  processTransactionData tx = Ok d <->
  exists op rest receipt,
    List.filter (fun op => op_type op =s? "payment") (default [] (operations tx)) = op :: rest
    /\ to_lower (default "XLM" (asset_code op)) = "xlm"
    /\ asset_issuer op = None /\ asset_type op = "native"
    /\ amount_ok (parseFloat (op_amount op))
    /\ extractSettlementReceiptMetadata tx = Ok receipt
    /\ d = {| pd_amount := parseFloat (op_amount op);
              pd_senderAddress := if anonymousSender receipt then None else op_from op;
              pd_receiptMetadata := receipt |}.
Proof.
  split.
  - intros Hd. pose proof (processTransactionData_amount _ _ Hd) as Hok.
    unfold processTransactionData in Hd. case_in Hd; [done|]. rename h into op.
    unfold validateTipAsset, SUPPORTED_TIP_ASSETS, obind in Hd. cbn in Hd.
    case_in Hd; [|done]. cbn in Hd.
    destruct (validateTipAmountBounds _) as [[]|] eqn:Hb; [|done].
    destruct (validateTipPrecision _ _) as [[]|] eqn:Hp; [|done].
    case_in Hd; simplify_eq; cbn in Hok. do 3 eexists. split; [reflexivity|]. by boolp.
  - intros (op & rest & receipt & Hops & Hcode & Hissuer & Htype & Hok & Hrc & ->).
    unfold processTransactionData. rewrite Hops.
    unfold validateTipAsset, SUPPORTED_TIP_ASSETS. cbn [List.find code issuer assetType].
    rewrite Hcode, Hissuer, Htype. cbn [obind].
    change ((to_lower "XLM" =s? "xlm") && _ && _) with true. cbn [obind precision].
    assert (validateTipAmountBounds (parseFloat (op_amount op)) = Ok tt) as ->.
    { apply validateTipAmountBounds_ok. destruct Hok as [|(? & ? & _)]; [by left|by right]. }
    cbn [obind]. unfold validateTipPrecision.
    assert (more_decimals 7 (parseFloat (op_amount op)) = false) as ->.
    { destruct Hok as [->|(_ & _ & ?)]; done. }
    cbn [obind]. by rewrite Hrc.
Qed.

(** A failed attempt is final for the client: when the request that claimed a
    transaction fails, whatever the reason, the row stays PENDING, of amount
    zero and unsettled, and every later request for it is told to retry
    without asking the network again. *)
Theorem failed_verification_not_retried r r2 w e w' :
  run (verifyAndRecordTip r) w = (Exn e, w') -> tips w' <> tips w ->
  vr_confession r2 = vr_confession r -> vr_tx r2 = vr_tx r ->
  run (verifyAndRecordTip r2) w' =
  (Exn (ConflictException SPending "ALREADY_PROCESSING" None true), w').
Proof.
  intros Hrun Hne Hc Hx.
  destruct (run_verify_Exn _ _ _ _ Hrun) as [|(w1 & u & Hins & Hin & Hconf & Htips & Hu & Hp & _)];
    [by subst|].
  unfold verifyAndRecordTip, findTipByIdempotencyKey. run_simp.
  rewrite Hc, Hx, Hconf, bool_decide_eq_true_2 by done. run_simp.
  rewrite (find_tip_unique _ _ (vr_tipId r) u).
  - destruct Hu as (_ & -> & -> & _). cbn [confessionId txId sentinel_row].
    rewrite !str_eqb_refl. cbn [andb]. unfold resolveIdempotentOutcome. by rewrite Hp, run_of_outcome.
  - intros k' t' Hk' Hkey. boolp. rewrite Htips in Hk'.
    apply lookup_insert_Some in Hk' as [[-> _]|[_ Hk']]; [done|].
    by pose proof (insert_tip_key _ _ _ _ _ _ Hins Hk' (eq_sym Hkey)).
  - rewrite Htips. apply lookup_insert_eq.
  - destruct Hu as (_ & _ & _ & -> & _). by apply bool_decide_eq_true.
Qed.

(** [DIFFERENT_CONFESSION] is never reported with its confession: the unique
    index on [tx_id] refuses the sentinel first, and a transaction of another
    confession is answered like one in flight. *)
Theorem foreign_transaction_answered_pending r w k v :
  vr_confession r ∈ confessions w -> tips w !! k = Some v -> txId v = vr_tx r ->
  find_tip (fun t => bool_decide
              (idempotencyKey t = Some (generateIdempotencyKey (vr_confession r) (vr_tx r)))) w = None ->
  run (verifyAndRecordTip r) w =
  (Exn (ConflictException SPending "ALREADY_PROCESSING" None true), w).
Proof.
  intros Hin Hk Hx Hnone. unfold verifyAndRecordTip, findTipByIdempotencyKey. run_simp.
  rewrite bool_decide_eq_true_2 by done. run_simp. rewrite Hnone.
  unfold claim_and_settle, tryInsertSentinelTip, findTipByIdempotencyKey. run_simp.
  assert (insert_tip (sentinel_row r (generateIdempotencyKey (vr_confession r) (vr_tx r))) w
          = (Exn UniqueViolation, w)) as ->.
  { unfold insert_tip. assert (existsb _ (map_to_list (tips w)) = true) as ->; [|done].
    apply existsb_exists. exists (k, v).
    split; [by apply list_elem_of_In, elem_of_map_to_list|].
    unfold clashes. cbn. by rewrite Hx, str_eqb_refl. }
  run_simp. by rewrite Hnone.
Qed.
End service.

(** ** Witnesses *)
Definition ex_tx : HorizonTx := {|
  operations := Some [{| op_type := "payment"; asset_code := None; asset_issuer := None;
                         asset_type := "native"; op_amount := "12.5000000"; op_from := Some "GA" |}];
  memo_type := "none"; memo := None |}.
Definition ex_request (tip : string) (chain : outcome string bool) : VerifyRequest := {|
  vr_tipId := tip; vr_lockId := "lock"; vr_confession := "c1"; vr_tx := "tx1";
  vr_requestId := None; vr_now := 1000; vr_chain := chain; vr_fetch := Body ex_tx |}.
Definition ex_db : TipDB := {|
  tips := ∅; confessions := {[ "c1"; "c2" ]}; settlements := []; tip_events := []; analytics := [] |}.
Definition ex_verify (r : VerifyRequest) (w : TipDB) :=
  run (verifyAndRecordTip (fun s => s) (fun _ => None) r) w.
Definition ex_settled : outcome tip_error TipVerificationResult * TipDB :=
  Eval vm_compute in ex_verify (ex_request "A" (Ok true)) ex_db.

Lemma verify_replay_idempotent_witness :
  exists res w', ex_verify (ex_request "A" (Ok true)) ex_db = (Ok res, w')
    /\ ex_verify (ex_request "B" (Ok false)) w' =
       (Ok {| r_tip := r_tip res; isNew := false; isIdempotent := true; r_state := SDuplicate |}, w').
Proof.
  eexists _, _. split; [vm_compute; reflexivity|].
  eapply (verify_replay_idempotent (fun s => s) (fun _ => None) (ex_request "A" (Ok true))
            (ex_request "B" (Ok false)) ex_db); vm_compute; reflexivity.
Defined.

Lemma failed_verification_not_retried_witness :
  exists w', ex_verify (ex_request "A" (Ok false)) ex_db =
      (Exn (BadRequestException "Transaction not found or invalid on Stellar network" None), w')
    /\ ex_verify (ex_request "B" (Ok true)) w' =
       (Exn (ConflictException SPending "ALREADY_PROCESSING" None true), w').
Proof.
  eexists. split; [vm_compute; reflexivity|].
  eapply (failed_verification_not_retried (fun s => s) (fun _ => None) (ex_request "A" (Ok false))
            (ex_request "B" (Ok true)) ex_db);
    [vm_compute; reflexivity | vm_compute; discriminate | reflexivity | reflexivity].
Defined.

(** A malformed amount is accepted as [NaN]. *)
Example nan_amount_accepted :
  exists d, processTransactionData (fun _ => None)
    {| operations := Some [{| op_type := "payment"; asset_code := None; asset_issuer := None;
                              asset_type := "native"; op_amount := "abc"; op_from := None |}];
       memo_type := "none"; memo := None |} = Ok d /\ pd_amount d = NaN.
Proof. eexists. split; [vm_compute; reflexivity|reflexivity]. Qed.
