(* ===== verification/TipReconciliation.v ===== *)
(** * TipReconciliation: the background actors on the tips table

    [src/xconfess-backend/src/tipping/]: the chain reconciliation cron
    ([chain-reconciliation.service.ts]), the verification SLA
    ([tip-verification-sla.service.ts]) and the Soroban lifecycle records
    ([soroban-lifecycle.service.ts]).  The answers of
    [stellarService.verifyTransactionFull], the clock and [Math.random()] are
    inputs.  The last section runs them all against the verify requests of
    [Tipping]. *)
From stdpp Require Import pretty.
From S2P Require Import Prelude Numbers Json Effects Tipping.
Open Scope Z_scope.

(** ** The SLA *)
Section sla.
(** [staleThresholdMinutes * 60_000]. *)
Context (staleThresholdMs : Z).

(** [src tipping/tip-verification-sla.service.ts:36-48 getEffectiveVerificationStatus] *)
Definition getEffectiveVerificationStatus (tip : Tip) (now : ms) : TipVerificationStatus :=
  if negb (bool_decide (verificationStatus tip = PENDING)) then verificationStatus tip
  else
    let ageMs := now - createdAt tip in
    if staleThresholdMs <? ageMs then STALE_PENDING else PENDING.

(** [src tipping/tip-verification-sla.service.ts:50-52 getStaleCutoff] *)
Definition getStaleCutoff (now : ms) : ms := now - staleThresholdMs.

(** [src tipping/tip-verification-sla.service.ts:54-80 markStalePendingTips]: one
    UPDATE ... WHERE; the result is the number of affected rows. *)
Definition markStalePendingTips (now : ms) : prog TipDB tip_error nat :=
  let cutoff := getStaleCutoff now in
  let stale t := bool_decide (verificationStatus t = PENDING) && (createdAt t <? cutoff) in
  access (fun w =>
    (length (List.filter (fun kv => stale kv.2) (map_to_list (tips w))),
     w <| tips ::= fmap (fun t => if stale t then t <| verificationStatus := STALE_PENDING |>
                                  else t) |>)).
End sla.

(** ** The reconciler *)

(** [src tipping/chain-reconciliation.service.ts:29-37 DeadLetterRecord] *)
Record DeadLetterRecord := {
  dl_tipId : string;
  dl_txId : string;
  dl_confessionId : string;
  dl_lastError : string;
  dl_attemptCount : Z;
  dl_firstFailedAt : ms;
  dl_lastFailedAt : ms;
}.

(** [src tipping/chain-reconciliation.service.ts:18-27 ReconciliationMetrics];
    the wall-clock [duration] is left out. *)
Record ReconciliationMetrics := {
  totalPending : nat;
  reconciled : nat;
  confirmed : nat;
  failed : nat;
  stuck : nat;
  lastRun : ms;
  errors : list string;
}.
#[export] Instance eta_Metrics : Eta ReconciliationMetrics := fun m => {|
  totalPending := totalPending m; reconciled := reconciled m; confirmed := confirmed m;
  failed := failed m; stuck := stuck m; lastRun := lastRun m; errors := errors m |}.

(** The shared tables, the dead-letter audit entries and [lastMetrics]. *)
Record RecDB := {
  tipdb : TipDB;
  dead_letters : list DeadLetterRecord;
  lastMetrics : option ReconciliationMetrics;
}.
#[export] Instance eta_RecDB : Eta RecDB := fun w => {|
  tipdb := tipdb w; dead_letters := dead_letters w; lastMetrics := lastMetrics w |}.
#[export] Instance tipdb_lens : Lens RecDB TipDB.
Proof.
  refine {| lget := tipdb; lset := fun p w => w <| tipdb := p |> |}; [done|by intros []|done].
Defined.

(** [src tipping/chain-reconciliation.service.ts:53-56 MAX_RETRY_ATTEMPTS] *)
Definition MAX_RETRY_ATTEMPTS : Z := 10.
Definition INITIAL_BACKOFF_MS : Z := 5000.
Definition MAX_BACKOFF_MS : Z := 3600000.
Definition STALE_THRESHOLD_MS : Z := 86400000.

(** [src tipping/chain-reconciliation.service.ts:80-92 calculateBackoffMs]
    ([random]: the value of [Math.random()]). *)
Definition calculateBackoffMs (random : Q) (attemptNumber : Z) : Q :=
  let exponentialBackoff :=
    inject_Z (Z.min (INITIAL_BACKOFF_MS * 2 ^ (attemptNumber - 1)) MAX_BACKOFF_MS) in
  let jitter := (exponentialBackoff * (2 # 10) * (random * 2 - 1))%Q in
  Qmin (Qmax (exponentialBackoff + jitter) (inject_Z INITIAL_BACKOFF_MS)) (inject_Z MAX_BACKOFF_MS).

(** [src tipping/chain-reconciliation.service.ts:97-112 shouldRetry]; a [Date]
    drops the fraction of a millisecond. *)
Definition shouldRetry (random : Q) (now : ms) (tip : Tip) : bool :=
  match lastCheckedAt tip with
  | None => true
  | Some checked =>
      if MAX_RETRY_ATTEMPTS <=? retryCount tip then false
      else
        let nextRetryTime := Qfloor (inject_Z checked + calculateBackoffMs random (retryCount tip + 1)) in
        nextRetryTime <=? now
  end.

(** [src tipping/chain-reconciliation.service.ts:118-133 createDeadLetterRecord] *)
Definition createDeadLetterRecord (now : ms) (tip : Tip) (lastError : string) : DeadLetterRecord := {|
  dl_tipId := id tip; dl_txId := txId tip; dl_confessionId := confessionId tip;
  dl_lastError := lastError; dl_attemptCount := retryCount tip;
  dl_firstFailedAt := if bool_decide (verificationStatus tip = PENDING) then createdAt tip
                      else match lastCheckedAt tip with Some t => t | None => createdAt tip end;
  dl_lastFailedAt := now |}.

(** [src tipping/chain-reconciliation.service.ts:135-156 validatePersistedTipAmount] *)
Definition validatePersistedTipAmount (tip : Tip) : option string :=
  let a := amount tip in
  if negb (is_finite a) then Some "Tip amount is not a finite number"
  else if num_lt a MIN_TIP_AMOUNT then Some "Tip amount is below minimum"
  else if num_lt MAX_TIP_AMOUNT a then Some "Tip amount exceeds maximum"
  else if more_decimals TIP_PRECISION a then Some "Tip amount has too many decimal places"
  else None.

(** [src tipping/chain-reconciliation.service.ts:164-216 recordReconciliationAnalytics] *)
Definition recordReconciliationAnalytics (tip : Tip) (s : TipVerificationStatus)
    : prog TipDB tip_error unit :=
  match s with
  | VERIFIED =>
      do* writes (record_analytics "tip_completed" ("tip_completed:" +:+ txId tip)) in
      writes (record_analytics "stellar_tx_confirmed" ("stellar_tx_confirmed:" +:+ txId tip))
  | REJECTED => writes (record_analytics "stellar_tx_failed" ("stellar_tx_failed:" +:+ txId tip))
  | _ => Ret tt
  end.

(** The result of [reconcileSingleTip]. *)
Record ReconcileResult := {
  success : bool;
  newStatus : option TipVerificationStatus;
  error : option string;
}.

(** What [verifyTransactionFull] gives for a transaction: its [success] flag, or
    the message of the exception. *)
Abbreviation chain_answers := (string -> outcome string bool) (only parsing).

(** [src tipping/chain-reconciliation.service.ts:222-275 reconcileSingleTip] *)
Definition reconcileSingleTip (answers : chain_answers) (tip : Tip) : ReconcileResult :=
  match answers (txId tip) with
  | Ok false => {| success := true; newStatus := Some REJECTED; error := None |}
  | Ok true =>
      match validatePersistedTipAmount tip with
      | Some amountError =>
          {| success := false; newStatus := None;
             error := Some ("Cannot mark reconciled tip as verified: " +:+ amountError) |}
      | None => {| success := true; newStatus := Some VERIFIED; error := None |}
      end
  | Exn errorMessage =>
      let isTransient := contains_str "timeout" errorMessage
                         || contains_str "ECONNREFUSED" errorMessage
                         || contains_str "rate limit" errorMessage in
      if negb isTransient && (MAX_RETRY_ATTEMPTS <=? retryCount tip)
      then {| success := false; newStatus := None;
              error := Some ("Reconciliation failed after " +:+ pretty (retryCount tip)
                             +:+ " attempts: " +:+ errorMessage) |}
      else {| success := false; newStatus := None; error := Some errorMessage |}
  end.

(** The columns written when a tip is finalised by the reconciler. *)
Definition closed_by_reconciler (now : ms) (s : TipVerificationStatus) (t : Tip) : Tip :=
  t <| verificationStatus := s |> <| lastCheckedAt := Some now |>
    <| verifiedAt := if bool_decide (s = VERIFIED) then Some now else None |>
    <| lastChainStatus := Some (if bool_decide (s = VERIFIED) then "verified" else "rejected") |>
    <| processingLock := None |> <| lockedAt := None |> <| lockedBy := None |>.

Definition reconciler_settlement (tip : Tip) : Settlement := {|
  st_tip := id tip; st_confession := confessionId tip; st_tx := txId tip;
  st_amount := amount tip; st_by := "chain_reconciliation" |}.

(** The rows the cron selects: [find({ where: In([PENDING, STALE_PENDING]),
    order: { lastCheckedAt: 'ASC' } })], rows never checked last. *)
Definition checked_before (a b : Tip) : bool :=
  match lastCheckedAt a, lastCheckedAt b with
  | Some x, Some y => x <=? y
  | Some _, None => true
  | None, _ => false
  end.
Definition pending_tips (w : TipDB) : list Tip :=
  insertion_sort checked_before (List.filter open_tip (map snd (map_to_list (tips w)))).

(** What one run of the reconciler reads besides the tables: the clock, the
    network's answers and the random draw for each tip. *)
Record ReconcileRun := { rr_now : ms; rr_answers : chain_answers; rr_random : string -> Q }.

(** [src tipping/chain-reconciliation.service.ts:323-448 reconcilePendingTips]: one
    turn of the loop, on the metrics and the dead letters of the run. *)
Definition reconcile_turn (rr : ReconcileRun) (tip : Tip)
    (acc : ReconciliationMetrics * list DeadLetterRecord)
    : prog TipDB tip_error (ReconciliationMetrics * list DeadLetterRecord) :=
  let '(metrics, deadLetters) := acc in
  let now := rr_now rr in
  try_catch
    (if negb (shouldRetry (rr_random rr (id tip)) now tip) then
       if bool_decide (verificationStatus tip = PENDING)
          && match lastCheckedAt tip with
             | Some checked => STALE_THRESHOLD_MS <? now - checked
             | None => false
             end
       then do* writes (update_tip (id tip) (fun t => t <| verificationStatus := STALE_PENDING |>)) in
            Ret (metrics, deadLetters)
       else Ret (metrics, deadLetters)
     else
       let reconcileResult := reconcileSingleTip (rr_answers rr) tip in
       if negb (success reconcileResult) && truthy_opt (error reconcileResult) then
           let err := default "" (error reconcileResult) in
           do* writes (update_tip (id tip) (fun t =>
                 t <| retryCount := retryCount tip + 1 |> <| lastCheckedAt := Some now |>
                   <| reconciliationMetadata := Some (json_spread (reconciliationMetadata tip)
                        [("lastReconciliationAttempt", iso now);
                         ("lastReconciliationError", JStr err);
                         ("attemptCount", JNum (num_of_Z (retryCount tip + 1)))]) |>)) in
           let dead := MAX_RETRY_ATTEMPTS <=? retryCount tip + 1 in
           Ret (metrics <| failed ::= S |> <| stuck ::= (fun n => if dead then S n else n) |>,
                if dead then deadLetters ++ [createDeadLetterRecord now tip err] else deadLetters)
       else match newStatus reconcileResult with
       | Some newStatus =>
           let wasStale := bool_decide (verificationStatus tip = STALE_PENDING) in
           do* writes (update_tip (id tip) (fun t =>
                 closed_by_reconciler now newStatus t
                   <| reconciliationMetadata := Some (json_spread (reconciliationMetadata tip)
                        [("lastReconciliationAttempt", iso now);
                         ("finalizedStatus",
                            JStr (if bool_decide (newStatus = VERIFIED) then "verified" else "rejected"));
                         ("wasStale", JBool wasStale);
                         ("reconciliationAttempts", JNum (num_of_Z (retryCount tip + 1)))]) |>)) in
           do* (if bool_decide (newStatus = VERIFIED)
                then writes (audit_settlement (reconciler_settlement tip)) else Ret tt) in
           do* try_catch (recordReconciliationAnalytics tip newStatus) (fun _ => Ret tt) in
           Ret (metrics <| confirmed ::= (fun n => if bool_decide (newStatus = VERIFIED) then S n else n) |>
                        <| reconciled ::= S |>, deadLetters)
       | None => Ret (metrics, deadLetters)
       end)
    (fun e => Ret (metrics <| errors ::= (fun l =>
                     l ++ ["Error reconciling tip " +:+ txId tip +:+ ": " +:+ error_message e]) |>,
                   deadLetters)).

Definition no_metrics (now : ms) (total : nat) : ReconciliationMetrics := {|
  totalPending := total; reconciled := 0; confirmed := 0; failed := 0; stuck := 0;
  lastRun := now; errors := [] |}.

(** [src tipping/chain-reconciliation.service.ts:283-497 reconcilePendingTips] *)
Definition reconcilePendingTips (rr : ReconcileRun) : prog RecDB tip_error unit :=
  try_catch
    (let* pendingTips := lift (fun e => e) (reads pending_tips) in
     let metrics := no_metrics (rr_now rr) (length pendingTips) in
     match pendingTips with
     | [] => writes (fun w => w <| lastMetrics := Some metrics |>)
     | _ =>
         let* acc := lift (fun e => e) (fold_each pendingTips (reconcile_turn rr) (metrics, [])) in
         do* for_each acc.2 (fun deadLetter =>
               writes (fun w => w <| dead_letters ::= (fun l => l ++ [deadLetter]) |>)) in
         writes (fun w => w <| lastMetrics := Some acc.1 |>)
     end)
    (fun e =>
       writes (fun w => w <| lastMetrics := Some (no_metrics (rr_now rr) 0
                <| errors := ["Reconciliation loop error: " +:+ error_message e] |>) |>)).

(** [src tipping/chain-reconciliation.service.ts:531-590 manualReconciliation]: one
    turn of the operator's loop. *)
Definition manual_turn (rr : ReconcileRun) (tip : Tip) (metrics : ReconciliationMetrics)
    : prog TipDB tip_error ReconciliationMetrics :=
  let reconcileResult := reconcileSingleTip (rr_answers rr) tip in
  match newStatus reconcileResult with
  | Some s =>
      do* writes (update_tip (id tip) (closed_by_reconciler (rr_now rr) s)) in
      do* (if bool_decide (s = VERIFIED)
           then writes (audit_settlement (reconciler_settlement tip)) else Ret tt) in
      do* try_catch (recordReconciliationAnalytics tip s) (fun _ => Ret tt) in
      Ret (metrics <| reconciled ::= S |>
                   <| confirmed ::= (fun n => if bool_decide (s = VERIFIED) then S n else n) |>)
  | None =>
      Ret (if negb (success reconcileResult) then metrics <| failed ::= S |> else metrics)
  end.

(** [src tipping/chain-reconciliation.service.ts:503-609 manualReconciliation] *)
Definition manualReconciliation (rr : ReconcileRun) (tipIds : option (list string))
    : prog TipDB tip_error ReconciliationMetrics :=
  try_catch
    (let* found := reads (fun w =>
       match tipIds with
       | Some ids => List.filter (fun t => includes (id t) ids) (map snd (map_to_list (tips w)))
       | None => List.filter open_tip (map snd (map_to_list (tips w)))
       end) in
     fold_each found (manual_turn rr) (no_metrics (rr_now rr) (length found)))
    (fun e => Ret (no_metrics (rr_now rr) 0 <| errors := [error_message e] |>)).

(** ** The Soroban lifecycle records *)

(** [src tipping/soroban-lifecycle.service.ts:7-12 TipSubmissionStatus] *)
Inductive TipSubmissionStatus := SUBMITTED | CONFIRMED | FAILED | EXPIRED.
Definition submission_str (s : TipSubmissionStatus) : string :=
  match s with
  | SUBMITTED => "submitted" | CONFIRMED => "confirmed" | FAILED => "failed" | EXPIRED => "expired"
  end.

Definition saved (t : Tip) : prog TipDB tip_error Tip := do* writes (save_tip t) in Ret t.

(** [src tipping/soroban-lifecycle.service.ts:24-33 recordSubmission] *)
Definition recordSubmission (now : ms) (tip : Tip) (metadata : option json)
    : prog TipDB tip_error Tip :=
  saved (tip <| submissionStatus := submission_str SUBMITTED |> <| submittedAt := Some now |>
             <| sorobanMetadata := Some (default (JObj []) metadata) |>).

(** [src tipping/soroban-lifecycle.service.ts:35-52 recordConfirmation] *)
Definition recordConfirmation (now : ms) (tip : Tip) (sequence : Z)
    (metadata : list (string * json)) : prog TipDB tip_error Tip :=
  saved (tip <| submissionStatus := submission_str CONFIRMED |> <| confirmedAt := Some now |>
             <| ledgerSequence := Some sequence |>
             <| sorobanMetadata := Some (json_spread (Some (json_spread (sorobanMetadata tip) metadata))
                  [("confirmedLedgerSequence", JNum (num_of_Z sequence))]) |>
             <| verificationStatus := VERIFIED |> <| verifiedAt := Some now |>).

(** [src tipping/soroban-lifecycle.service.ts:54-71 recordFailure] *)
Definition recordFailure (now : ms) (tip : Tip) (reason : string)
    (metadata : list (string * json)) : prog TipDB tip_error Tip :=
  saved (tip <| submissionStatus := submission_str FAILED |> <| failedAt := Some now |>
             <| failureReason := Some reason |>
             <| sorobanMetadata := Some (json_spread (Some (json_spread (sorobanMetadata tip) metadata))
                  [("failureTimestamp", iso now)]) |>
             <| verificationStatus := REJECTED |> <| rejectionReason := Some reason |>).

(** [src tipping/soroban-lifecycle.service.ts:73-85 recordExpiry] *)
Definition recordExpiry (now : ms) (tip : Tip) (blockHeight : Z) : prog TipDB tip_error Tip :=
  saved (tip <| submissionStatus := submission_str EXPIRED |> <| failedAt := Some now |>
             <| expiryBlockHeight := Some blockHeight |>
             <| failureReason := Some "Transaction expired before confirmation" |>
             <| verificationStatus := REJECTED |> <| rejectionReason := Some "Transaction expired" |>).

(** [src tipping/soroban-lifecycle.service.ts:87-112 refreshConfirmation]: the
    network gives the success flag and, perhaps, the ledger, or throws. *)
Definition refreshConfirmation (now : ms) (txHash : string)
    (answer : outcome string (bool * option Z)) : prog TipDB tip_error (option Tip) :=
  let* found := reads (find_tip (fun t => txId t =s? txHash)) in
  match found with
  | None => Ret None
  | Some tip =>
      match answer with
      | Exn message => Throw (NotFoundException message)
      | Ok (true, None) =>
          Throw (NotFoundException "Confirmed transaction is missing its ledger sequence")
      | Ok (true, Some ledger) =>
          let* t := recordConfirmation now tip ledger [] in Ret (Some t)
      | Ok (false, _) =>
          let* t := recordFailure now tip "Transaction marked as failed on chain" [] in Ret (Some t)
      end
  end.

(** [src tipping/soroban-lifecycle.service.ts:139-146 getPendingConfirmations]: the
    rows, before the ordering by submission time. *)
Definition getPendingConfirmations (w : TipDB) : list Tip :=
  List.filter (fun t => submissionStatus t =s? submission_str SUBMITTED) (map snd (map_to_list (tips w))).

(** [src tipping/soroban-lifecycle.service.ts:148-151 isExpired] *)
Definition isExpired (tip : Tip) (currentBlockHeight : Z) : bool :=
  match expiryBlockHeight tip with
  | Some h => truthy_num h && (h <? currentBlockHeight)
  | None => false
  end.

(** ** Everything at once *)

(** An actor: a verify request, a run of the cron, an operator's run on the
    pending tips, or the SLA sweep. *)
Inductive TipActor :=
| Verify (r : VerifyRequest)
| Reconcile (rr : ReconcileRun)
| Manual (rr : ReconcileRun)
| Sweep (now : ms).

Section actors.
Context (sha256 : string -> string) (JSON_parse : string -> option json) (staleThresholdMs : Z).

Definition no_result {B} (p : prog TipDB tip_error B)
    : prog RecDB tip_error (option TipVerificationResult) :=
  do* lift (fun e => e) p in Ret None.

Definition serve (a : TipActor) : prog RecDB tip_error (option TipVerificationResult) :=
  match a with
  | Verify r =>
      let* res := lift (fun e => e) (verifyAndRecordTip sha256 JSON_parse r) in Ret (Some res)
  | Reconcile rr => do* reconcilePendingTips rr in Ret None
  | Manual rr => no_result (manualReconciliation rr None)
  | Sweep now => no_result (markStalePendingTips staleThresholdMs now)
  end.

(** [chain]: the recorded outcome of a transaction, with which every answer of
    the network agrees. *)
Context (chain : string -> bool) (T0 : ms).

Definition actor_honest (a : TipActor) : Prop :=
  match a with
  | Verify r => honest chain T0 r
  | Reconcile rr | Manual rr => forall tx, rr_answers rr tx = Ok false -> chain tx = false
  | Sweep _ => True
  end.
Definition owns (actors : gmap positive TipActor) (t : positive) : option string :=
  match actors !! t with Some (Verify r) => Some (vr_tipId r) | _ => None end.

Context (actors : gmap positive TipActor).
Definition owned (k : string) : Prop := exists t, owns actors t = Some k.

(** The clocks of the run: from [T0], for less than a day. *)
Definition clock_ok (now : ms) : Prop := T0 <= now <= T0 + STALE_THRESHOLD_MS.
Definition actor_clock (a : TipActor) : Prop :=
  match a with
  | Verify r => clock_ok (vr_now r)
  | Reconcile rr | Manual rr => clock_ok (rr_now rr)
  | Sweep now => clock_ok now
  end.

Abbreviation I := (tip_inv chain T0 owned).
Abbreviation G := (fun t => tip_guar T0 (owns actors t)).
Abbreviation spec := (@rg TipDB tip_error I G).

(** The rows a background run has read: still there, for the same transaction,
    and, unless a request owns them, with the same amount and not verified. *)
Definition seen (snap : list Tip) (w : TipDB) : Prop :=
  forall tip, tip ∈ snap ->
    exists t, tips w !! id tip = Some t /\ txId t = txId tip
              /\ (~ owned (id tip) ->
                  verificationStatus t <> VERIFIED /\ amount t = amount tip).

(** What the selection of open rows gives. *)
Definition snapshot_ok (snap : list Tip) : Prop :=
  forall tip, tip ∈ snap ->
    open_tip tip = true /\ amount tip = Fin 0 /\ (owned (id tip) -> recent T0 tip).

(** ** Lemmas *)
Lemma stable_seen t snap : stable I G t (seen snap).
Proof.
  intros t' w w' _ _ Hseen [Hrows Hident _ _] tip Htip.
  destruct (Hseen tip Htip) as (u & Hu & Hx & Hv).
  destruct (Hident _ _ Hu) as (u' & Hu' & _ & Hx' & _).
  exists u'. split_and!; [done|congruence|]. intros Hno.
  destruct (Hrows (id tip) u) as (u2 & Hu2 & (_ & _ & _ & _ & Ham & _) & _ & Hback & _); [|done|].
  { intros Hown. apply Hno. by exists t'. }
  simplify_eq. destruct (Hv Hno). split; [auto|congruence].
Qed.

Lemma seen_quiet snap w w' : rows_quiet T0 w w' -> seen snap w -> seen snap w'.
Proof.
  intros [_ Hrows] Hseen tip Htip. destruct (Hseen tip Htip) as (u & Hu & Hx & Hv).
  specialize (Hrows (id tip)). rewrite Hu in Hrows.
  destruct Hrows as (u' & Hu' & (_ & _ & Hx' & _ & Ham & _) & _ & Hback & _).
  exists u'. split_and!; [done|congruence|]. intros Hno. destruct (Hv Hno).
  split; [auto|congruence].
Qed.

Lemma spec_quiet {B} t snap f (q : prog TipDB tip_error B) post :
  (forall w, I w -> seen snap w -> rows_quiet T0 w (f w)) ->
  spec t (seen snap) q post -> spec t (seen snap) (do* writes f in q) post.
Proof.
  intros Hf Hq. apply rg_writes with (Q := seen snap); [|apply stable_seen|done].
  intros w HI Hs. pose proof (Hf w HI Hs) as Hq'.
  destruct (rows_quiet_ok chain T0 owned (owns actors t) w (f w) Hq' HI).
  eauto using seen_quiet.
Qed.

Lemma spec_quiet_last t snap f post :
  (forall w, I w -> seen snap w -> rows_quiet T0 w (f w)) ->
  (forall w, I w -> seen snap w -> post (Ok tt) w) ->
  spec t (seen snap) (writes f) post.
Proof.
  intros Hf Hpost w HI Hs. pose proof (Hf w HI Hs) as Hq'. cbn.
  destruct (rows_quiet_ok chain T0 owned (owns actors t) w (f w) Hq' HI).
  split; [done|split; [done|]]. exists (seen snap).
  split; [by eapply seen_quiet|split; [apply stable_seen|done]].
Qed.

(** Every pending row is of amount zero: the reconciler cannot verify it. *)
Lemma reconcile_amount_zero answers tip :
  amount tip = Fin 0 -> newStatus (reconcileSingleTip answers tip) <> Some VERIFIED.
Proof.
  intros Ha. unfold reconcileSingleTip, validatePersistedTipAmount. rewrite Ha.
  destruct (answers (txId tip)) as [[]|msg]; cbn; [done..|]. by case_match.
Qed.

Lemma reconcile_rejected answers tip s :
  amount tip = Fin 0 -> newStatus (reconcileSingleTip answers tip) = Some s ->
  s = REJECTED /\ answers (txId tip) = Ok false.
Proof.
  intros Ha. unfold reconcileSingleTip, validatePersistedTipAmount. rewrite Ha.
  destruct (answers (txId tip)) as [[]|msg]; cbn; [done|naive_solver|]. by case_match.
Qed.

(** A backoff never exceeds an hour, so a row that is due for nothing although
    its last check is a day old has used up its attempts. *)
Lemma backoff_range random n :
  (inject_Z INITIAL_BACKOFF_MS <= calculateBackoffMs random n <= inject_Z MAX_BACKOFF_MS)%Q.
Proof.
  unfold calculateBackoffMs. split; [|apply Q.le_min_r].
  apply Q.min_glb; [apply Q.le_max_r|]. unfold Qle, INITIAL_BACKOFF_MS, MAX_BACKOFF_MS; cbn. lia.
Qed.

(** A row that is rejected or marked stale by a background run was not verified. *)
Lemma reject_quiet rr snap tip w t f :
  I w -> seen snap w -> tip ∈ snap ->
  (forall tx, rr_answers rr tx = Ok false -> chain tx = false) ->
  rr_answers rr (txId tip) = Ok false -> T0 <= rr_now rr ->
  tips w !! id tip = Some t ->
  quiet T0 t (closed_by_reconciler (rr_now rr) REJECTED t <| reconciliationMetadata := f |>).
Proof.
  intros HI Hseen Htip Hhonest Hans Hnow Ht.
  destruct (Hseen tip Htip) as (t' & Ht' & Hx & _). simplify_eq.
  assert (verificationStatus t <> VERIFIED) as Hnv.
  { intros Hv. pose proof (inv_verified _ _ _ _ HI _ _ Ht Hv) as Hc.
    rewrite Hx, (Hhonest _ Hans) in Hc. done. }
  unfold quiet, evolves. cbn. split; [naive_solver|split; [done|split; [done|]]].
  intros _. by exists (rr_now rr).
Qed.

Lemma stale_quiet snap tip now w t :
  seen snap w -> snapshot_ok snap -> tip ∈ snap -> clock_ok now ->
  match lastCheckedAt tip with
  | Some checked => STALE_THRESHOLD_MS <? now - checked
  | None => false
  end = true ->
  tips w !! id tip = Some t ->
  verificationStatus t <> VERIFIED /\ amount t = amount tip.
Proof.
  intros Hseen Hsnap Htip [Hlo Hhi] Hold Ht.
  destruct (Hseen tip Htip) as (t' & Ht' & Hx & Hv). simplify_eq. apply Hv. intros Hown.
  destruct (Hsnap tip Htip) as (_ & _ & Hrec). destruct (Hrec Hown) as (c & Hc & Hle).
  rewrite Hc in Hold. boolp. unfold STALE_THRESHOLD_MS in *. lia.
Qed.

Lemma spec_analytics t snap tip s (post : outcome tip_error unit -> TipDB -> Prop) :
  (forall w, I w -> seen snap w -> post (Ok tt) w) ->
  spec t (seen snap) (try_catch (recordReconciliationAnalytics tip s) (fun _ => Ret tt)) post.
Proof.
  intros Hpost. apply rg_try_catch with (Q := fun _ _ => False); [|by intros e w].
  unfold recordReconciliationAnalytics.
  destruct s; try (by intros w; apply Hpost); [apply spec_quiet; [by intros; apply same_tables_quiet|]|];
    (apply spec_quiet_last; [by intros; apply same_tables_quiet|done]).
Qed.

Definition keeps (snap : list Tip) {B} (o : outcome tip_error B) (w : TipDB) : Prop :=
  match o with Ok _ => seen snap w | Exn _ => False end.

Lemma spec_reconcile_turn t snap rr tip acc :
  snapshot_ok snap -> tip ∈ snap -> clock_ok (rr_now rr) ->
  (forall tx, rr_answers rr tx = Ok false -> chain tx = false) ->
  spec t (seen snap) (reconcile_turn rr tip acc) (keeps snap).
Proof.
  intros Hsnap Htip Hclock Hhonest. destruct (Hsnap tip Htip) as (_ & Ha & _).
  destruct acc as [metrics dead]. unfold reconcile_turn.
  apply rg_try_catch with (Q := fun _ _ => False); [|by intros e w].
  case_match eqn:Hretry.
  - case_match eqn:Hst; [|by intros w]. boolp. apply spec_quiet; [|by intros w].
    intros w HI Hseen. apply update_quiet. intros u Hu.
    destruct (stale_quiet _ _ _ _ _ Hseen Hsnap Htip Hclock ltac:(eassumption) Hu) as [Hnv Hau].
    unfold quiet, evolves. cbn. split; [naive_solver|split; [|done]]. right. congruence.
  - case_match eqn:Herr.
    + apply spec_quiet; [|by intros w]. intros w HI Hseen. apply update_quiet. intros u Hu.
      unfold quiet, evolves. cbn. split; [done|split; [auto|split; [done|]]].
      intros _. exists (rr_now rr). split; [done|apply Hclock].
    + destruct (newStatus _) as [s|] eqn:Hns; [|by intros w].
      destruct (reconcile_rejected _ _ _ Ha Hns) as [-> Hans]. cbn [bool_decide].
      apply spec_quiet.
      { intros w HI Hseen. apply update_quiet. intros u Hu. by eapply reject_quiet; [..|apply Hclock|]. }
      rewrite bool_decide_eq_false_2 by done.
      eapply rg_bind with (Q := fun _ => seen snap); [by intros w|intros []].
      eapply rg_bind with (Q := fun _ => seen snap); [by apply spec_analytics|].
      by intros [] w.
Qed.

(** What a selection of open rows establishes. *)
Lemma snapshot_seen w snap :
  I w -> (forall tip, tip ∈ snap -> exists k, tips w !! k = Some tip /\ open_tip tip = true) ->
  snapshot_ok snap /\ seen snap w.
Proof.
  intros HI Hsnap. split; intros tip Htip; destruct (Hsnap tip Htip) as (k & Hk & Hopen);
    pose proof (inv_keyed _ _ _ _ HI _ _ Hk) as Hid.
  - split_and!; [done|by eapply (inv_open _ _ _ _ HI)|].
    intros Hown. rewrite Hid in Hown. by eapply (inv_recent _ _ _ _ HI).
  - exists tip. rewrite Hid. split_and!; [done..|]. intros _. split; [|done].
    unfold open_tip in Hopen. boolp. intros Hv. rewrite Hv in Hopen. naive_solver.
Qed.

Lemma elem_of_rows (p : Tip -> bool) w tip :
  tip ∈ List.filter p (map snd (map_to_list (tips w))) ->
  exists k, tips w !! k = Some tip /\ p tip = true.
Proof.
  rewrite list_elem_of_In, List.filter_In, <- list_elem_of_In.
  intros [([k t] & -> & Hk)%list_elem_of_fmap Hp]. apply elem_of_map_to_list in Hk. eauto.
Qed.

Lemma pending_tips_seen w : I w -> snapshot_ok (pending_tips w) /\ seen (pending_tips w) w.
Proof.
  intros HI. apply snapshot_seen; [done|]. intros tip. unfold pending_tips.
  rewrite elem_of_insertion_sort. apply elem_of_rows.
Qed.

Lemma spec_manual_turn t snap rr tip metrics :
  snapshot_ok snap -> tip ∈ snap -> T0 <= rr_now rr ->
  (forall tx, rr_answers rr tx = Ok false -> chain tx = false) ->
  spec t (seen snap) (manual_turn rr tip metrics) (keeps snap).
Proof.
  intros Hsnap Htip Hclock Hhonest. destruct (Hsnap tip Htip) as (_ & Ha & _).
  unfold manual_turn. destruct (newStatus _) as [s|] eqn:Hns; [|by intros w].
  destruct (reconcile_rejected _ _ _ Ha Hns) as [-> Hans].
  apply spec_quiet.
  { intros w HI Hseen. apply update_quiet. intros u Hu.
    destruct (reject_quiet rr snap tip w u (reconciliationMetadata u) HI Hseen Htip Hhonest Hans Hclock Hu)
      as (Hev & Ho & Hv & Hr).
    unfold quiet. split; [exact Hev|]. split; [exact Ho|]. split; [exact Hv|exact Hr]. }
  rewrite bool_decide_eq_false_2 by done.
  eapply rg_bind with (Q := fun _ => seen snap); [by intros w|intros []].
  eapply rg_bind with (Q := fun _ => seen snap); [by apply spec_analytics|].
  by intros [] w.
Qed.

Lemma sweep_quiet now w :
  rows_quiet T0 w (run (markStalePendingTips staleThresholdMs now) w).2.
Proof.
  split; [done|]. intros k. cbn. rewrite lookup_fmap. destruct (tips w !! k) as [u|]; [|done]. cbn.
  eexists. split; [done|]. case_match eqn:Hst; [|apply quiet_refl]. boolp.
  unfold quiet, evolves. cbn. split; [split_and!; congruence|]. split; [|done].
  left. unfold open_tip. apply bool_decide_eq_true. auto.
Qed.

(** One settlement per row, and one row per transaction. *)
Lemma settlements_once w : I w -> NoDup (map st_tx (settlements w)).
Proof.
  intros HI. pose proof (inv_once _ _ _ _ HI) as Hnd.
  pose proof (inv_settled _ _ _ _ HI) as Hs. pose proof (inv_tx _ _ _ _ HI) as Hx.
  induction (settlements w) as [|s l IH]; cbn in *; [constructor|].
  apply NoDup_cons in Hnd as [Hno Hnd]. apply NoDup_cons. split; [|apply IH; set_solver].
  intros (s' & Heq & Hs')%list_elem_of_fmap. apply Hno, list_elem_of_fmap. exists s'.
  split; [|done].
  destruct (Hs s) as (_ & _ & t & Ht & _ & _ & Htx & _); [set_solver|].
  destruct (Hs s') as (_ & _ & t' & Ht' & _ & _ & Htx' & _); [set_solver|].
  apply (Hx _ _ _ _ Ht Ht'). congruence.
Qed.

Abbreviation spec_rec := (@rg RecDB tip_error (lift_inv I) (lift_guar G)).

(** The end of an actor: a verify response keeps its promise. *)
Definition actor_post (a : TipActor) (o : outcome tip_error (option TipVerificationResult))
    (w : RecDB) : Prop :=
  match a, o with
  | Verify r, Ok (Some res) => verify_post r (Ok res) (tipdb w)
  | Verify _, Ok None => False
  | _, _ => True
  end.

Lemma spec_lift {B} t Pre (p : prog TipDB tip_error B) post :
  spec t Pre p post ->
  spec_rec t (fun w => Pre (tipdb w)) (lift (fun e => e) p) (fun o w => post o (tipdb w)).
Proof.
  intros Hp. eapply rg_post; [|exact (rg_lift (W := RecDB) (E' := tip_error) I G (fun e => e) t Pre p post Hp)].
  intros o w (o' & -> & Ho). by destruct o'.
Qed.

Lemma spec_ignore {B C} t (P : RecDB -> Prop) (p : prog TipDB tip_error B)
    (q : prog RecDB tip_error C) post :
  spec t (fun _ => True) p (fun _ _ => True) ->
  (forall o w, post (Exn o) w) ->
  spec_rec t (fun _ => True) q post ->
  spec_rec t P (do* lift (fun e => e) p in q) post.
Proof.
  intros Hp Hexn Hq. apply rg_bind with (Q := fun _ _ => True); [|done].
  eapply rg_post; [|eapply rg_weaken; [|apply spec_lift, Hp]]; [|done].
  intros [b|e] w _; auto.
Qed.

Lemma spec_keeps_any {B} t (P : TipDB -> Prop) (p : prog TipDB tip_error B) snap :
  spec t P p (keeps snap) -> spec t P p (fun _ _ => True).
Proof. by apply rg_post. Qed.

(** A write to the reconciler's own records. *)
Lemma spec_records {B} t (P : RecDB -> Prop) f (q : prog RecDB tip_error B) post :
  (forall w, tipdb (f w) = tipdb w) ->
  spec_rec t (fun _ => True) q post -> spec_rec t P (do* writes f in q) post.
Proof.
  intros Hf Hq. apply rg_writes with (Q := fun _ => True); [|by intros ?|done].
  intros w HI _. unfold lift_inv, lift_guar in *. cbn. rewrite Hf.
  split; [done|split; [apply guar_refl|done]].
Qed.

Lemma spec_records_last t (P : RecDB -> Prop) f (post : outcome tip_error unit -> RecDB -> Prop) :
  (forall w, tipdb (f w) = tipdb w) -> (forall w, post (Ok tt) w) ->
  spec_rec t P (writes f) post.
Proof.
  intros Hf Hpost w HI _. unfold lift_inv, lift_guar in *. cbn. rewrite Hf.
  split; [done|split; [apply guar_refl|]]. exists (fun _ => True). by split; [|split].
Qed.

Lemma spec_reconcile t rr :
  clock_ok (rr_now rr) -> (forall tx, rr_answers rr tx = Ok false -> chain tx = false) ->
  spec_rec t (fun _ => True) (reconcilePendingTips rr) (fun _ _ => True).
Proof.
  intros Hclock Hhonest. unfold reconcilePendingTips.
  apply rg_try_catch with (Q := fun _ _ => True); [|intros e; by apply spec_records_last].
  apply rg_bind with (Q := fun snap w => snapshot_ok snap /\ seen snap (tipdb w)).
  { eapply rg_post; [|apply (spec_lift t (fun _ => True) _ (fun o w =>
      match o with Ok snap => snapshot_ok snap /\ seen snap w | Exn _ => False end))].
    - by intros [].
    - intros w HI _. cbn. split; [done|split; [apply guar_refl|]].
      destruct (pending_tips_seen w HI) as [Hok Hseen].
      exists (seen (pending_tips w)). split; [done|split; [apply stable_seen|]]. by intros v _ Hv. }
  intros snap. apply rg_pure. intros Hok.
  destruct snap as [|tip0 snap0]; [by apply spec_records_last|].
  set (snap := tip0 :: snap0) in *.
  apply rg_bind with (Q := fun _ _ => True).
  { eapply rg_post; [|apply (spec_lift t (seen snap) _ (fun _ _ => True))].
    - by intros [acc|e] w _.
    - apply (spec_keeps_any t (seen snap) _ snap). apply rg_fold_each; [|by intros acc w].
      intros tip acc Htip. eapply rg_post; [|by apply (spec_reconcile_turn t snap)].
      by intros [acc'|e] w. }
  intros acc. apply rg_bind with (Q := fun _ _ => True); [|intros []; by apply spec_records_last].
  apply rg_for_each; [|done]. intros dl _. by apply spec_records_last.
Qed.

Lemma spec_manual t rr :
  clock_ok (rr_now rr) -> (forall tx, rr_answers rr tx = Ok false -> chain tx = false) ->
  spec t (fun _ => True) (manualReconciliation rr None) (fun _ _ => True).
Proof.
  intros [Hclock _] Hhonest. unfold manualReconciliation.
  apply rg_try_catch with (Q := fun _ _ => True); [|by intros e w].
  intros w HI _. cbn. split; [done|split; [apply guar_refl|]].
  set (snap := List.filter open_tip _).
  destruct (snapshot_seen w snap HI) as [Hok Hseen]; [intros tip; apply elem_of_rows|].
  exists (seen snap). split; [done|split; [apply stable_seen|]].
  eapply rg_post; [|apply (spec_keeps_any t (seen snap) _ snap)]; [by intros []|].
  apply rg_fold_each; [|by intros acc v].
  intros tip acc Htip. eapply rg_post; [|by apply (spec_manual_turn t snap)].
  by intros [acc'|e] v.
Qed.

Lemma spec_sweep t now :
  spec t (fun _ => True) (markStalePendingTips staleThresholdMs now) (fun _ _ => True).
Proof.
  intros w HI _. pose proof (sweep_quiet now w) as Hq.
  destruct (rows_quiet_ok chain T0 owned (owns actors t) _ _ Hq HI) as [HI' Hg].
  split; [done|split; [done|]]. exists (fun _ => True). by split; [|split].
Qed.

(** Every actor keeps the invariant within its guarantee. *)
Context (Hids : forall t t' k, owns actors t = Some k -> owns actors t' = Some k -> t = t').

Lemma spec_serve t a :
  actors !! t = Some a -> actor_honest a -> actor_clock a ->
  spec_rec t (fun w => match a with Verify r => unclaimed r (tipdb w) | _ => True end)
    (serve a) (actor_post a).
Proof using Hids.
  intros Ha Hhonest Hclock. destruct a as [r|rr|rr|now]; cbn [serve]; unfold no_result.
  - apply rg_bind with (Q := fun res w => verify_post r (Ok res) (tipdb w)); [|by intros res w].
    eapply rg_post; [|apply (spec_lift t (unclaimed r) _ (verify_post r))]; [by intros [res|e] w|].
    apply (spec_verifyAndRecordTip sha256 JSON_parse chain T0 owned (owns actors) Hids t r);
      [by unfold owns; rewrite Ha|done].
  - apply rg_bind with (Q := fun _ _ => True); [|by intros [] w].
    eapply rg_post; [|by apply spec_reconcile]. by intros [].
  - apply spec_ignore; [by apply spec_manual|done|by intros w].
  - apply spec_ignore; [apply spec_sweep|done|by intros w].
Qed.

(** ** Properties *)

(** C1. Single credit. Let any number of verify requests, runs of the
    reconciliation cron, operator runs and SLA sweeps interleave at their
    awaits, with distinct row ids, truthful network answers and clocks within a
    day. Then each transaction is settled at most once; a settlement is of a
    transaction the network recorded, for an acceptable amount, and its row
    stays VERIFIED with that amount; and a request that answered "verified" has
    its own settlement, one that answered "duplicate" a verified row. *)
Theorem single_credit (w0 w : RecDB) ps :
  tip_inv chain T0 owned (tipdb w0) ->
  (forall t a, actors !! t = Some a -> actor_honest a /\ actor_clock a) ->
  (forall t r, actors !! t = Some (Verify r) -> tips (tipdb w0) !! vr_tipId r = None) ->
  pool_reach (w0, serve <$> actors) (w, ps) ->
  NoDup (map st_tx (settlements (tipdb w)))
  /\ (forall s, s ∈ settlements (tipdb w) ->
        amount_ok (st_amount s) /\ chain (st_tx s) = true
        /\ exists t, tips (tipdb w) !! st_tip s = Some t /\ settles s t)
  /\ (forall t r res, actors !! t = Some (Verify r) -> ps !! t = Some (Ret (Some res)) ->
        verify_post r (Ok res) (tipdb w)).
Proof using Hids.
  intros HI0 Hactors Hfree Hreach.
  assert (pool_ok (lift_inv I) (lift_guar G)
            (fun t o w => forall a, actors !! t = Some a -> actor_post a o w)
            (w0, serve <$> actors)) as Hinit.
  { split; [done|]. intros t p. cbn. rewrite lookup_fmap_Some. intros (a & <- & Ha).
    destruct (Hactors t a Ha) as [Hh Hc].
    exists (fun w => match a with Verify r => unclaimed r (tipdb w) | _ => True end).
    split; [destruct a; [by eapply Hfree|done..]|]. split.
    - destruct a as [r|rr|rr|now]; try (by intros ?).
      assert (stable I G t (unclaimed r)) as Hst.
      { eapply stable_unclaimed; [exact Hids|]. unfold owns. by rewrite Ha. }
      exact (stable_lift (W := RecDB) I G t (unclaimed r) Hst).
    - eapply rg_post; [|by apply spec_serve]. intros o v Hpost a' Ha'. by simplify_eq. }
  destruct (rg_sound _ _ _ _ _ Hinit Hreach) as [HI Hps]. cbn in HI.
  split; [|split].
  - eapply settlements_once; eauto.
  - apply (inv_settled _ _ _ _ HI).
  - intros t r res Ha Hres. destruct (Hps t _ Hres) as (P & HP & _ & Hrg).
    by apply (Hrg w HI HP (Verify r)).
Qed.
End actors.

(** The retry policy: a row is never due before the initial backoff nor later
    than an hour after its last check while it has attempts left, and never
    again once it has used its ten attempts. *)
Theorem retry_window random now tip checked :
  lastCheckedAt tip = Some checked ->
  (MAX_RETRY_ATTEMPTS <= retryCount tip -> shouldRetry random now tip = false)
  /\ (now < checked + INITIAL_BACKOFF_MS -> shouldRetry random now tip = false)
  /\ (retryCount tip < MAX_RETRY_ATTEMPTS -> checked + MAX_BACKOFF_MS <= now ->
      shouldRetry random now tip = true).
Proof.
  intros Hc. unfold shouldRetry. rewrite Hc.
  destruct (backoff_range random (retryCount tip + 1)) as [Hlo Hhi].
  set (b := calculateBackoffMs random (retryCount tip + 1)) in *.
  assert (checked + INITIAL_BACKOFF_MS <= Qfloor (inject_Z checked + b)) as Hge.
  { rewrite <- (Qfloor_Z (checked + INITIAL_BACKOFF_MS)). apply Qfloor_resp_le.
    rewrite inject_Z_plus. lra. }
  assert (Qfloor (inject_Z checked + b) <= checked + MAX_BACKOFF_MS) as Hle.
  { rewrite <- (Qfloor_Z (checked + MAX_BACKOFF_MS)). apply Qfloor_resp_le.
    rewrite inject_Z_plus. lra. }
  destruct (Z.leb_spec MAX_RETRY_ATTEMPTS (retryCount tip)).
  - by split_and!; [| |lia].
  - split_and!; [lia| |]; intros; [apply Z.leb_gt|apply Z.leb_le]; lia.
Qed.

(** The jitter stays within a fifth of the exponential backoff. *)
Lemma backoff_jitter random n :
  (0 <= random <= 1)%Q -> 1 <= n ->
  let base := inject_Z (Z.min (INITIAL_BACKOFF_MS * 2 ^ (n - 1)) MAX_BACKOFF_MS) in
  (base * (8 # 10) <= calculateBackoffMs random n <= base * (12 # 10))%Q.
Proof.
  intros [Hr0 Hr1] Hn. cbn zeta. unfold calculateBackoffMs.
  set (base := inject_Z _).
  assert (inject_Z INITIAL_BACKOFF_MS <= base <= inject_Z MAX_BACKOFF_MS)%Q as [Hb0 Hb1].
  { unfold base, INITIAL_BACKOFF_MS, MAX_BACKOFF_MS. rewrite <- !Zle_Qle.
    pose proof (Z.pow_pos_nonneg 2 (n - 1)). lia. }
  assert (0 < inject_Z INITIAL_BACKOFF_MS)%Q by done.
  split.
  - apply Q.min_glb; [|lra]. eapply Qle_trans; [|apply Q.le_max_l]. nra.
  - eapply Qle_trans; [apply Q.le_min_l|]. apply Q.max_lub; nra.
Qed.

(** The sweep makes the stored status of every row the effective one. *)
Theorem sweep_effective staleThresholdMs now w :
  let w' := (run (markStalePendingTips staleThresholdMs now) w).2 in
  forall k, tips w' !! k =
    (fun t => t <| verificationStatus := getEffectiveVerificationStatus staleThresholdMs t now |>)
    <$> tips w !! k.
Proof.
  cbn. intros k. rewrite lookup_fmap. destruct (tips w !! k) as [t|]; [|done]. cbn. f_equal.
  unfold getEffectiveVerificationStatus, getStaleCutoff.
  destruct (bool_decide (verificationStatus t = PENDING)) eqn:Hp; cbn; [|by destruct t].
  boolp. destruct (Z.ltb_spec (createdAt t) (now - staleThresholdMs)),
    (Z.ltb_spec staleThresholdMs (now - createdAt t)); try lia; [done|].
  destruct t; cbn in *. by subst.
Qed.

Definition verified_rows (w : TipDB) : gset string :=
  dom (filter (fun kt => verificationStatus kt.2 = VERIFIED) (tips w)).

(** Nothing is settled or verified between two worlds. *)
Definition no_gain (w w' : TipDB) : Prop :=
  settlements w' = settlements w /\ verified_rows w' ⊆ verified_rows w.

Lemma no_gain_refl w : no_gain w w.
Proof. by split. Qed.

Lemma no_gain_tables w v v' :
  tips v' = tips v -> settlements v' = settlements v -> no_gain w v -> no_gain w v'.
Proof. unfold no_gain, verified_rows. by intros -> ->. Qed.

Lemma no_gain_update w v k f :
  (forall t, verificationStatus (f t) = VERIFIED -> verificationStatus t = VERIFIED) ->
  no_gain w v -> no_gain w (update_tip k f v).
Proof.
  intros Hf [Hs Hv]. split; [done|]. etrans; [|exact Hv].
  intros j. unfold verified_rows. rewrite !elem_of_dom. intros [t Ht].
  apply map_lookup_filter_Some in Ht as [Ht Hvt]. cbn in Ht, Hvt.
  apply lookup_alter_Some in Ht as [(-> & t0 & Ht0 & ->)|[_ Ht]].
  - exists t0. apply map_lookup_filter_Some. cbn. auto.
  - exists t. by apply map_lookup_filter_Some.
Qed.

Lemma run_analytics tip s v :
  exists v', run (try_catch (recordReconciliationAnalytics tip s) (fun _ => Ret tt)) v = (Ok tt, v')
             /\ tips v' = tips v /\ settlements v' = settlements v.
Proof. destruct s; eexists; (split; [reflexivity|done]). Qed.

Lemma reconcile_turn_no_gain rr tip acc w v :
  amount tip = Fin 0 -> no_gain w v ->
  match run (reconcile_turn rr tip acc) v with
  | (Ok _, v') => no_gain w v'
  | (Exn _, _) => False
  end.
Proof.
  intros Ha Hg. destruct acc as [metrics dead]. unfold reconcile_turn. run_simp.
  destruct (shouldRetry _ _ tip); cbn [negb].
  - destruct (negb (success _) && _); [run_simp; by apply no_gain_update|].
    destruct (newStatus _) as [s|] eqn:Hns; [|run_simp; done].
    destruct (reconcile_rejected _ _ _ Ha Hns) as [-> _]. run_simp.
    rewrite bool_decide_eq_false_2 by done. run_simp. by apply no_gain_update.
  - destruct (bool_decide (verificationStatus tip = PENDING) && _); run_simp;
      [by apply no_gain_update|done].
Qed.

(** What the cron can do for the rows the verify handler left pending: nothing.
    Their amount is still the placeholder zero, below the minimum, so a run of
    it always completes but, whatever the network answers, settles no tip and
    verifies no row. *)
Theorem cron_never_verifies rr w :
  (forall k t, tips (tipdb w) !! k = Some t -> open_tip t = true -> amount t = Fin 0) ->
  exists w', run (reconcilePendingTips rr) w = (Ok tt, w')
             /\ settlements (tipdb w') = settlements (tipdb w)
             /\ verified_rows (tipdb w') ⊆ verified_rows (tipdb w).
Proof.
  intros Hzero. unfold reconcilePendingTips. run_simp. cbn [map_exn].
  assert (forall tip, tip ∈ pending_tips (tipdb w) -> amount tip = Fin 0) as Hz.
  { intros tip. unfold pending_tips. rewrite elem_of_insertion_sort.
    intros (k & Hk & Ho)%elem_of_rows. eauto. }
  change (lget w) with (tipdb w).
  destruct (pending_tips (tipdb w)) as [|tip0 snap0]; [eexists; by split|].
  set (snap := tip0 :: snap0) in *. run_simp.
  destruct (run_fold_each_inv (fun _ => no_gain (tipdb w)) snap (reconcile_turn rr)
              (no_metrics (rr_now rr) (length snap), []) (tipdb w))
    as (acc & v & Hrun & Hg).
  { intros tip acc v Htip. apply reconcile_turn_no_gain, Hz, Htip. }
  { apply no_gain_refl. }
  change (lget (lset (tipdb w) w)) with (tipdb w). rewrite Hrun. cbn [map_exn]. run_simp.
  destruct (run_for_each_writes (E := tip_error) tipdb
    (fun deadLetter w => w <| dead_letters ::= (fun l => l ++ [deadLetter]) |>)
    acc.2 (lset v (lset (tipdb w) w))) as (w1 & Hw1 & Hv1); [done|].
  rewrite Hw1. run_simp. eexists. split; [reflexivity|]. cbn. by rewrite Hv1.
Qed.

(** The operator's run by id does not look at the status of the rows: naming a
    tip that is already settled settles it in the audit log again. *)
Theorem operator_run_resettles rr w k t :
  tips w = {[ k := t ]} -> id t = k -> verificationStatus t = VERIFIED ->
  validatePersistedTipAmount t = None -> rr_answers rr (txId t) = Ok true ->
  settlements (run (manualReconciliation rr (Some [k])) w).2
  = settlements w ++ [reconciler_settlement t].
Proof.
  intros Htips Hid Hv Hamount Hans. unfold manualReconciliation. run_simp.
  rewrite Htips, map_to_list_singleton. cbn [map snd List.filter]. unfold includes. cbn [existsb].
  rewrite Hid, str_eqb_refl. cbn [orb fold_each]. run_simp.
  unfold manual_turn, reconcileSingleTip. rewrite Hans, Hamount. cbn [newStatus]. run_simp.
  rewrite bool_decide_eq_true_2 by done. by run_simp.
Qed.

(** ** Witnesses *)
Definition ex_run : ReconcileRun := {|
  rr_now := 2000; rr_answers := fun _ => Ok true; rr_random := fun _ => 0%Q |}.
(** Two requests for one transaction, the cron, and a sweep. *)
Definition ex_actors : gmap positive TipActor :=
  {[ 1%positive := Verify (ex_request "A" (Ok true));
     2%positive := Verify (ex_request "B" (Ok true));
     3%positive := Reconcile ex_run; 4%positive := Sweep 3000 ]}.
Definition ex_rec : RecDB := {| tipdb := ex_db; dead_letters := []; lastMetrics := None |}.
Definition ex_serve := serve (fun s => s) (fun _ => None) 500.
Definition ex_schedule : list positive :=
  [1; 2; 1; 2; 1; 2; 3; 2; 2; 4; 3; 1; 1; 1; 1; 1; 1; 3; 3]%positive.
Definition ex_final := run_schedule ex_schedule (ex_rec, ex_serve <$> ex_actors).

Example ex_final_settled : map st_by (settlements (tipdb ex_final.1)) = ["tipping-service"].
Proof. vm_compute. reflexivity. Qed.

Lemma ex_actors_Forall (P : positive -> TipActor -> Prop) :
  P 1%positive (Verify (ex_request "A" (Ok true))) ->
  P 2%positive (Verify (ex_request "B" (Ok true))) ->
  P 3%positive (Reconcile ex_run) -> P 4%positive (Sweep 3000) ->
  forall t a, ex_actors !! t = Some a -> P t a.
Proof.
  intros H1 H2 H3 H4 t a. unfold ex_actors.
  rewrite !lookup_insert_Some, lookup_singleton_Some. naive_solver.
Qed.

Lemma ex_owns t k :
  owns ex_actors t = Some k -> (t = 1%positive /\ k = "A") \/ (t = 2%positive /\ k = "B").
Proof.
  unfold owns. destruct (ex_actors !! t) as [a|] eqn:Ha; [|done].
  revert t a Ha. apply (ex_actors_Forall (fun t a =>
    match a with Verify r => Some (vr_tipId r) | _ => None end = Some k -> _)); cbn; naive_solver.
Qed.

Lemma single_credit_witness :
  NoDup (map st_tx (settlements (tipdb ex_final.1))).
Proof.
  apply (single_credit (fun s => s) (fun _ => None) 500 (fun _ => true) 1000 ex_actors)
    with (w0 := ex_rec) (ps := ex_final.2).
  - intros t t' k [[-> ->]|[-> ->]]%ex_owns [[-> ?]|[-> ?]]%ex_owns; done.
  - split; cbn; intros *; rewrite ?lookup_empty;
      (done || apply NoDup_nil_2 || by intros ?%elem_of_nil).
  - apply (ex_actors_Forall (fun _ a => actor_honest (fun _ => true) 1000 a /\ actor_clock 1000 a));
      cbn; unfold honest, clock_ok, STALE_THRESHOLD_MS; cbn; split; try done; split; (done || lia).
  - intros t r _. apply lookup_empty.
  - rewrite <- surjective_pairing. apply run_schedule_reach.
Defined.

Definition ex_pending : Tip := sentinel_row (ex_request "A" (Ok false)) "c1:tx1".
Definition ex_pending_rec : RecDB := ex_rec <| tipdb := ex_db <| tips := {[ "A" := ex_pending ]} |> |>.

Lemma retry_window_witness :
  shouldRetry 0 3500000 ex_pending = false \/ shouldRetry 0 3700000 ex_pending = true.
Proof.
  right. apply (retry_window 0 3700000 ex_pending 1000); [reflexivity|reflexivity|].
  vm_compute. discriminate.
Defined.

Lemma cron_never_verifies_witness :
  exists w', run (reconcilePendingTips ex_run) ex_pending_rec = (Ok tt, w')
             /\ settlements (tipdb w') = [] /\ verified_rows (tipdb w') ⊆ ∅.
Proof.
  apply (cron_never_verifies ex_run ex_pending_rec).
  cbn. intros k t Hk _. apply lookup_singleton_Some in Hk as [_ <-]. reflexivity.
Defined.
