(* ===== verification/Idempotency.v ===== *)
(** * Idempotency: exactly-once creation of confessions

    [src/xconfess-backend/src/confession/]: the scope of an idempotency key
    ([idempotency-scope.ts]), the idempotency records
    ([confession-idempotency.service.ts]) and the creation path that uses them
    ([confession.service.ts], [create]).  SHA-256, [JSON.stringify] and the HTML
    sanitiser are parameters; what [executeCreate] does beyond the INSERT of
    the confession is the outcome field of a request. *)
From S2P Require Import Prelude Effects.
Open Scope Z_scope.

(** ** Scopes *)

(** [src confession/idempotency-scope.ts:9-14 IdempotencyScope] *)
Record IdempotencyScope := { operation : string; sessionId : string }.

(** [src confession/idempotency-scope.ts:17-25 DEFAULT_IDEMPOTENCY_OPERATION] *)
Definition DEFAULT_IDEMPOTENCY_OPERATION : string := "POST /confessions".
Definition ANONYMOUS_SESSION_ID : string := "anonymous".
Definition DEFAULT_IDEMPOTENCY_SCOPE : IdempotencyScope :=
  {| operation := DEFAULT_IDEMPOTENCY_OPERATION; sessionId := ANONYMOUS_SESSION_ID |}.

(** [src confession/idempotency-scope.ts:32-37 IdempotencyRequestLike]: absent
    and [null] values are [None]; header and cookie values are strings. *)
Record RequestLike := {
  user_id : option string;
  user_sub : option string;
  anonymousContextId : option string;
  headers : gmap string string;
  cookies : gmap string string;
}.

(** [src confession/idempotency-scope.ts:39-46 firstString] *)
Fixpoint firstString (values : list (option string)) : option string :=
  match values with
  | [] => None
  | None :: vs => firstString vs
  | Some value :: vs =>
      let str := trim value in
      if (0 <? String.length str)%nat then Some str else firstString vs
  end.

(** [src confession/idempotency-scope.ts:48-57 header] *)
Definition header (req : RequestLike) (name : string) : option string :=
  firstString [match headers req !! name with
               | Some v => Some v
               | None => headers req !! to_lower name
               end].

(** [src confession/idempotency-scope.ts:59-64 cookie] *)
Definition cookie (req : RequestLike) (name : string) : option string :=
  firstString [cookies req !! name].

(** [src confession/idempotency-scope.ts:76-98 resolveIdempotencySessionId] *)
Definition resolveIdempotencySessionId (req : RequestLike) : string :=
  match firstString [user_id req; user_sub req] with
  | Some userId => "user:" +:+ userId
  | None =>
  match firstString [anonymousContextId req] with
  | Some contextId => "anon:" +:+ contextId
  | None =>
  match header req "x-anonymous-user-id" with
  | Some anonHeader => "anon-header:" +:+ anonHeader
  | None =>
  match firstString [cookie req "csrf-token"; cookie req "csrfToken"; header req "x-csrf-token"] with
  | Some csrf => "csrf:" +:+ csrf
  | None => ANONYMOUS_SESSION_ID
  end end end end.

(** [src confession/idempotency-scope.ts:101-106 buildIdempotencyScope] *)
Definition buildIdempotencyScope (req : RequestLike) (operation : string) : IdempotencyScope :=
  {| operation := operation; sessionId := resolveIdempotencySessionId req |}.

(** ** Records *)

(** [src confession/entities/confession-idempotency-record.entity.ts:13-13 IdempotencyStatus] *)
Inductive IdempotencyStatus := processing | completed | failed.
#[export] Instance IdempotencyStatus_eq_dec : EqDecision IdempotencyStatus.
Proof. solve_decision. Defined.

(** [src confession/entities/confession-idempotency-record.entity.ts:26-89 ConfessionIdempotencyRecord] *)
Record IdemRecord := {
  rec_id : string;
  idempotencyKey : string;
  payloadHash : string;
  status : IdempotencyStatus;
  responseStatus : option Z;
  responseBody : option string;
  rec_confessionId : option string;
}.
#[export] Instance eta_IdemRecord : Eta IdemRecord := fun r => {|
  rec_id := rec_id r; idempotencyKey := idempotencyKey r; payloadHash := payloadHash r;
  status := status r; responseStatus := responseStatus r; responseBody := responseBody r;
  rec_confessionId := rec_confessionId r |}.

(** The hashed part of a creation request. *)
Record Payload := {
  message : string;
  gender : option string;
  tags : option (list string);
  stellarTxHash : option string;
}.
#[export] Instance eta_Payload : Eta Payload := fun p => {|
  message := message p; gender := gender p; tags := tags p; stellarTxHash := stellarTxHash p |}.

(** A confession, as far as its creation is concerned: its unique key and what
    was submitted. *)
Record Confession := { cf_id : string; cf_key : option string; cf_payload : Payload }.

Record IdemDB := {
  records : gmap string IdemRecord;
  confs : gmap string Confession;
}.
#[export] Instance eta_IdemDB : Eta IdemDB := fun w => {|
  records := records w; confs := confs w |}.

Inductive idem_error :=
| BadRequest (msg : string)
| Conflict (msg : string)
| ServiceUnavailable (msg : string)
| CreationFailed (msg : string)
| UniqueViolation
| OutOfFuel.

(** [src confession/confession-idempotency.service.ts:33-38 IdempotencyCheckResult] *)
Record CheckResult := {
  isReplay : bool;
  cachedResponse : option Confession;
  cachedStatus : option Z;
  c_record : IdemRecord;
}.

(** [src confession/confession-idempotency.service.ts:21-22 PROCESSING_MAX_WAIT_MS] *)
Definition PROCESSING_POLL_INTERVAL_MS : Z := 100.
Definition PROCESSING_MAX_WAIT_MS : Z := 5000.
(** A poll sleeps for an interval, so no more fit before the deadline. *)
Definition MAX_POLLS : nat := Z.to_nat (PROCESSING_MAX_WAIT_MS / PROCESSING_POLL_INTERVAL_MS).

(** The order of [Array.prototype.sort()] on strings. *)
Fixpoint str_leb (a b : string) : bool :=
  match a, b with
  | EmptyString, _ => true
  | String _ _, EmptyString => false
  | String x a', String y b' =>
      let nx := Ascii.nat_of_ascii x in let ny := Ascii.nat_of_ascii y in
      (nx <? ny)%nat || ((nx =? ny)%nat && str_leb a' b')
  end.

(** One creation request: the row ids it would use, and what [executeCreate]
    comes to apart from the unique key. *)
Record CreateRequest := {
  cr_recordId : string;
  cr_confessionId : string;
  cr_message : string;
  cr_gender : option string;
  cr_tags : option (list string);
  cr_stellarTxHash : option string;
  cr_key : string;
  cr_scope : option IdempotencyScope;
  cr_outcome : outcome string unit;
}.

Section service.
Context (sha256 : string -> string) (stringify : Payload -> string)
        (sanitizeHtml : string -> string).

Definition NUL : string := String "000"%char "".

(** [src confession/idempotency-scope.ts:117-129 computeScopedIdempotencyKey] *)
Definition computeScopedIdempotencyKey (clientKey : string) (scope : option IdempotencyScope) : string :=
  let effective := default DEFAULT_IDEMPOTENCY_SCOPE scope in
  sha256 (operation effective +:+ NUL +:+ sessionId effective +:+ NUL +:+ clientKey).

(** [src confession/confession-idempotency.service.ts:72-85 computePayloadHash] *)
Definition computePayloadHash (payload : Payload) : string :=
  let canonical := stringify (payload <| tags ::= fmap (insertion_sort str_leb) |>) in
  sha256 canonical.

Definition hash_mismatch : idem_error :=
  Conflict "Idempotency key replay conflict: the request body does not match the original submission.".
Definition still_processing : idem_error :=
  ServiceUnavailable "The original request is still being processed. Retry with the same idempotency key.".

Definition find_record (key : string) (w : IdemDB) : option IdemRecord :=
  snd <$> List.find (fun kv => idempotencyKey kv.2 =s? key) (map_to_list (records w)).

(** [src confession/confession-idempotency.service.ts:163-181 tryInsert] *)
Definition tryInsert (rid key hash : string) : prog IdemDB idem_error (option IdemRecord) :=
  let row := {| rec_id := rid; idempotencyKey := key; payloadHash := hash; status := processing;
                responseStatus := None; responseBody := None; rec_confessionId := None |} in
  try_catch
    (attempts (fun w =>
       match find_record key w with
       | Some _ => (Exn UniqueViolation, w)
       | None => (Ok (Some row), w <| records ::= <[rid := row]> |>)
       end))
    (fun err => match err with UniqueViolation => Ret None | _ => Throw err end).

(** [src confession/confession-idempotency.service.ts:211-225 handleExistingRecord]:
    the replay of a completed record. *)
Definition replay (record : IdemRecord) : prog IdemDB idem_error CheckResult :=
  let* confession := match rec_confessionId record with
                     | Some cid => reads (fun w => confs w !! cid)
                     | None => Ret None
                     end in
  Ret {| isReplay := true; cachedResponse := confession;
         cachedStatus := responseStatus record; c_record := record |}.
Definition replayable (record : IdemRecord) : bool :=
  bool_decide (status record = completed)
  && match responseBody record with Some _ => true | None => false end.

(** The conditional UPDATE of [claimFailedRecord]: is a row affected? *)
Definition claim_row (rid hash : string) : prog IdemDB idem_error bool :=
  access (fun w =>
    match records w !! rid with
    | Some r =>
        if bool_decide (status r = failed)
        then (true, w <| records ::= <[rid := r <| status := processing |> <| payloadHash := hash |>]> |>)
        else (false, w)
    | None => (false, w)
    end).

Definition claimed_result (record : IdemRecord) : CheckResult :=
  {| isReplay := false; cachedResponse := None; cachedStatus := None; c_record := record |}.

(** [src confession/confession-idempotency.service.ts:240-290 waitForProcessing]:
    [polls] turns of the loop are left before the deadline; [fuel] bounds the
    claims lost to other requests on the way. *)
Fixpoint waitForProcessing (fuel : nat) (key hash : string) (polls : nat)
    : prog IdemDB idem_error CheckResult :=
  (fix poll (polls : nat) : prog IdemDB idem_error CheckResult :=
     match polls with
     | O => Throw still_processing
     | S polls' =>
         let* found := reads (find_record key) in
         match found with
         | None => Throw still_processing
         | Some record =>
             if negb (payloadHash record =s? hash) then Throw hash_mismatch
             else if replayable record then replay record
             else if bool_decide (status record = failed) then
               let* won := claim_row (rec_id record) hash in
               if won then Ret (claimed_result record)
               else match fuel with
                    | O => Throw OutOfFuel
                    | S fuel' =>
                        let* claimed := waitForProcessing fuel' (idempotencyKey record) hash MAX_POLLS in
                        if negb (isReplay claimed) then Ret claimed else poll polls'
                    end
             else poll polls'
         end
     end) polls.

(** [src confession/confession-idempotency.service.ts:293-307 claimFailedRecord] *)
Definition claimFailedRecord (fuel : nat) (record : IdemRecord) (hash : string)
    : prog IdemDB idem_error CheckResult :=
  let* won := claim_row (rec_id record) hash in
  if won then Ret (claimed_result record)
  else waitForProcessing fuel (idempotencyKey record) hash MAX_POLLS.

(** [src confession/confession-idempotency.service.ts:186-234 handleExistingRecord] *)
Definition handleExistingRecord (fuel : nat) (key hash : string)
    : prog IdemDB idem_error CheckResult :=
  let* found := reads (find_record key) in
  match found with
  | None =>
      Throw (ServiceUnavailable "Idempotency record disappeared unexpectedly. Please retry.")
  | Some record =>
      if negb (payloadHash record =s? hash) then Throw hash_mismatch
      else if replayable record then replay record
      else if bool_decide (status record = failed) then claimFailedRecord fuel record hash
      else waitForProcessing fuel key hash MAX_POLLS
  end.

(** [src confession/confession-idempotency.service.ts:110-126 check] *)
Definition check (fuel : nat) (rid clientKey hash : string) (scope : option IdempotencyScope)
    : prog IdemDB idem_error CheckResult :=
  let scopedKey := computeScopedIdempotencyKey clientKey scope in
  let* inserted := tryInsert rid scopedKey hash in
  match inserted with
  | Some row => Ret (claimed_result row)
  | None => handleExistingRecord fuel scopedKey hash
  end.

Definition update_record (rid : string) (f : IdemRecord -> IdemRecord) (w : IdemDB) : IdemDB :=
  w <| records ::= alter f rid |>.

(** [src confession/confession-idempotency.service.ts:132-144 commitSuccess] *)
Definition commitSuccess (record : IdemRecord) (confession : Confession) (body : string) (code : Z)
    : prog IdemDB idem_error unit :=
  writes (update_record (rec_id record) (fun r =>
    r <| status := completed |> <| rec_confessionId := Some (cf_id confession) |>
      <| responseStatus := Some code |> <| responseBody := Some body |>)).

(** [src confession/confession-idempotency.service.ts:149-153 commitFailure] *)
Definition commitFailure (record : IdemRecord) : prog IdemDB idem_error unit :=
  writes (update_record (rec_id record) (fun r => r <| status := failed |>)).

(** [src confession/confession.service.ts:207-294 executeCreate]: the transaction
    that inserts the confession under its unique key. *)
Definition executeCreate (r : CreateRequest) (payload : Payload) (key : option string)
    : prog IdemDB idem_error Confession :=
  attempts (fun w =>
    match cr_outcome r with
    | Exn e => (Exn (CreationFailed e), w)
    | Ok _ =>
        let c := {| cf_id := cr_confessionId r; cf_key := key; cf_payload := payload |} in
        if match key with
           | Some k => existsb (fun kv => bool_decide (cf_key kv.2 = Some k)) (map_to_list (confs w))
           | None => false
           end
        then (Exn UniqueViolation, w)
        else (Ok c, w <| confs ::= <[cr_confessionId r := c]> |>)
    end).

Definition MAX_CONFESSION_LENGTH : nat := 1000.

(** [src confession/confession.service.ts:116-122 sanitizeMessage] *)
Definition sanitizeMessage (m : string) : string := trim (sanitizeHtml m).

Definition payload_of (r : CreateRequest) (msg : string) : Payload :=
  {| message := msg; gender := cr_gender r; tags := cr_tags r; stellarTxHash := cr_stellarTxHash r |}.

(** [src confession/confession.service.ts:124-203 create]; [None] is a replay whose
    confession is gone. *)
Definition create (fuel : nat) (r : CreateRequest) : prog IdemDB idem_error (option Confession) :=
  let msg := sanitizeMessage (cr_message r) in
  if negb (truthy msg) then Throw (BadRequest "Invalid confession content")
  else if (MAX_CONFESSION_LENGTH <? String.length msg)%nat
  then Throw (BadRequest "Confession cannot exceed 1000 characters")
  else
  let payload := payload_of r msg in
  if truthy (cr_key r) then
    let hash := computePayloadHash payload in
    let* result := check fuel (cr_recordId r) (cr_key r) hash (cr_scope r) in
    if isReplay result then Ret (cachedResponse result)
    else
      let scopedKey := idempotencyKey (c_record result) in
      let* savedConfession :=
        try_catch (executeCreate r payload (Some scopedKey))
          (fun err => do* commitFailure (c_record result) in Throw err) in
      do* commitSuccess (c_record result) savedConfession msg 201 in
      Ret (Some savedConfession)
  else
    let* c := executeCreate r payload None in Ret (Some c).

Definition scoped_key (r : CreateRequest) : string :=
  computeScopedIdempotencyKey (cr_key r) (cr_scope r).
Definition request_hash (r : CreateRequest) : string :=
  computePayloadHash (payload_of r (sanitizeMessage (cr_message r))).

(** ** The contract *)

(** [c] is the confession of [key], made of a payload of [hash]. *)
Definition confession_of (key hash : string) (c : Confession) (w : IdemDB) : Prop :=
  confs w !! cf_id c = Some c /\ cf_key c = Some key /\ computePayloadHash (cf_payload c) = hash.

Record idem_inv (w : IdemDB) : Prop := {
  inv_records : forall k r, records w !! k = Some r -> rec_id r = k;
  inv_confs : forall k c, confs w !! k = Some c -> cf_id c = k;
  inv_unique : forall k1 k2 c1 c2, confs w !! k1 = Some c1 -> confs w !! k2 = Some c2 ->
                 cf_key c1 = cf_key c2 -> cf_key c1 <> None -> k1 = k2;
  inv_completed : forall k r, records w !! k = Some r -> status r = completed ->
                    is_Some (rec_confessionId r);
  inv_response : forall k r cid, records w !! k = Some r -> rec_confessionId r = Some cid ->
                   exists c, cf_id c = cid /\ confession_of (idempotencyKey r) (payloadHash r) c w;
}.

(** A request only adds rows, under its own ids; keys and payload hashes never
    change. *)
Record idem_guar (own : option (string * string)) (w w' : IdemDB) : Prop := {
  g_confs : forall k c, confs w !! k = Some c -> confs w' !! k = Some c;
  g_new_conf : forall k, snd <$> own <> Some k -> confs w !! k = None -> confs w' !! k = None;
  g_records : forall k r, records w !! k = Some r ->
                exists r', records w' !! k = Some r' /\ idempotencyKey r' = idempotencyKey r
                           /\ payloadHash r' = payloadHash r;
  g_new_record : forall k, fst <$> own <> Some k -> records w !! k = None -> records w' !! k = None;
}.

(** The row of [record] still stands for the same key and payload. *)
Definition known (record : IdemRecord) (w : IdemDB) : Prop :=
  exists row, records w !! rec_id record = Some row /\ idempotencyKey row = idempotencyKey record
              /\ payloadHash row = payloadHash record.

(** ** Lemmas *)
Lemma idem_guar_refl own w : idem_guar own w w.
Proof. split; eauto. Qed.

Lemma find_record_Some key w r :
  find_record key w = Some r -> exists k, records w !! k = Some r /\ idempotencyKey r = key.
Proof.
  unfold find_record. rewrite fmap_Some. intros ([k u] & Hf & ->).
  apply List.find_some in Hf as [Hin Hp]. cbn in Hp. boolp. exists k. split; [|done].
  by apply elem_of_map_to_list, list_elem_of_In.
Qed.

Lemma known_guar own record w w' : idem_guar own w w' -> known record w -> known record w'.
Proof.
  intros Hg (row & Hrow & Hk & Hh). destruct (g_records _ _ _ Hg _ _ Hrow) as (row' & ? & ? & ?).
  exists row'. split_and!; congruence.
Qed.

Lemma confession_of_guar own key hash c w w' :
  idem_guar own w w' -> confession_of key hash c w -> confession_of key hash c w'.
Proof. intros Hg (Hc & ? & ?). split; [|done]. by apply (g_confs _ _ _ Hg). Qed.

(** An update of a row that keeps its key and its payload hash, and completes it
    only with a confession of that key and payload. *)
Lemma update_record_ok own rid row f w :
  idem_inv w -> records w !! rid = Some row ->
  rec_id (f row) = rec_id row -> idempotencyKey (f row) = idempotencyKey row ->
  payloadHash (f row) = payloadHash row ->
  (status (f row) = completed -> is_Some (rec_confessionId (f row))) ->
  (forall cid, rec_confessionId (f row) = Some cid -> rec_confessionId row = Some cid \/
     exists c, cf_id c = cid /\ confession_of (idempotencyKey row) (payloadHash row) c w) ->
  let w' := w <| records ::= <[rid := f row]> |> in
  idem_inv w' /\ idem_guar own w w'.
Proof.
  intros [H1 H2 H3 H4 H5] Hrow Hid Hkey Hhash Hcomp Hresp. split; split; cbn; try done.
  - intros k r [[<- <-]|[_ Hr]]%lookup_insert_Some; [rewrite Hid|]; eauto.
  - intros k r [[<- <-]|[_ Hr]]%lookup_insert_Some; eauto.
  - intros k r cid [[<- <-]|[_ Hr]]%lookup_insert_Some Hcid; [|by eapply H5].
    rewrite Hkey, Hhash. destruct (Hresp _ Hcid) as [Hold|Hnew]; [by eapply H5|done].
  - intros k r Hr. destruct (decide (k = rid)) as [->|Hne].
    + rewrite lookup_insert_eq. simplify_eq. eauto.
    + rewrite lookup_insert_ne by done. eauto.
  - intros k _ Hk. rewrite lookup_insert_ne; [done|]. congruence.
Qed.

(** ** The creation path as an actor *)
Section actor.
Context (own : positive -> option (string * string))
        (own_inj : forall t t' p p', own t = Some p -> own t' = Some p' ->
                     p.1 = p'.1 \/ p.2 = p'.2 -> t = t').
Context (t : positive) (r : CreateRequest)
        (Hown : own t = Some (cr_recordId r, cr_confessionId r)).

Abbreviation G := (fun t => idem_guar (own t)).
Abbreviation spec := (@rg IdemDB idem_error idem_inv G).

(** The ids the request would use are free. *)
Definition free_record (w : IdemDB) : Prop := records w !! cr_recordId r = None.
Definition free_conf (w : IdemDB) : Prop := confs w !! cr_confessionId r = None.

Lemma stable_free_conf : stable idem_inv G t free_conf.
Proof using own_inj Hown sanitizeHtml.
  intros t' w w' Hne _ HP Hg. apply (g_new_conf _ _ _ Hg); [|done].
  intros (p & Hp & Heq)%fmap_Some. apply Hne, (own_inj t' t _ _ Hp Hown). by right.
Qed.

Lemma stable_free_ids : stable idem_inv G t (fun w => free_record w /\ free_conf w).
Proof using own_inj Hown sanitizeHtml.
  intros t' w w' Hne HI [HP HQ] Hg. split; [|by eapply stable_free_conf].
  apply (g_new_record _ _ _ Hg); [|done].
  intros (p & Hp & Heq)%fmap_Some. apply Hne, (own_inj t' t _ _ Hp Hown). by left.
Qed.

(** What was read in [w0] still stands. *)
Definition since (w0 w : IdemDB) : Prop :=
  (forall k c, confs w0 !! k = Some c -> confs w !! k = Some c)
  /\ (forall k u, records w0 !! k = Some u ->
        exists u', records w !! k = Some u' /\ idempotencyKey u' = idempotencyKey u
                   /\ payloadHash u' = payloadHash u)
  /\ free_conf w.

Lemma since_refl w : free_conf w -> since w w.
Proof. intros Hf. split; [done|]. split; [|done]. eauto. Qed.

Lemma stable_since w0 : stable idem_inv G t (since w0).
Proof using own_inj Hown sanitizeHtml.
  intros t' w w' Hne HI (H1 & H2 & H3) Hg. split_and!.
  - intros k c Hk. by apply (g_confs _ _ _ Hg), H1.
  - intros k u Hk. destruct (H2 _ _ Hk) as (u' & Hu' & ? & ?).
    destruct (g_records _ _ _ Hg _ _ Hu') as (u'' & ? & ? & ?). exists u''. split_and!; congruence.
  - by eapply stable_free_conf.
Qed.

Lemma since_known w0 w key record :
  idem_inv w0 -> find_record key w0 = Some record -> since w0 w -> known record w.
Proof.
  intros HI Hf (_ & H2 & _). destruct (find_record_Some _ _ _ Hf) as (k & Hk & Hkey).
  destruct (H2 _ _ Hk) as (u & ? & ? & ?). exists u. by rewrite (inv_records _ HI _ _ Hk).
Qed.

Lemma stable_known record : stable idem_inv G t (fun w => known record w /\ free_conf w).
Proof using own_inj Hown sanitizeHtml.
  intros t' w w' Hne HI [HP HQ] Hg. split; [by eapply known_guar|by eapply stable_free_conf].
Qed.

Lemma stable_confession key hash c : stable idem_inv G t (confession_of key hash c).
Proof. intros t' w w' _ _ HP Hg. by eapply confession_of_guar. Qed.

Lemma stable_both (P Q : IdemDB -> Prop) :
  stable idem_inv G t P -> stable idem_inv G t Q -> stable idem_inv G t (fun w => P w /\ Q w).
Proof. intros HP HQ t' w w' Hne HI [Hp Hq] Hg. split; [by eapply HP|by eapply HQ]. Qed.

(** What [check] promises for [key] and [hash]. *)
Definition check_post (key hash : string) (o : outcome idem_error CheckResult) (w : IdemDB) : Prop :=
  match o with
  | Ok res =>
      if isReplay res
      then (exists c, cachedResponse res = Some c /\ confession_of key hash c w) /\ free_conf w
      else known (c_record res) w /\ free_conf w
           /\ idempotencyKey (c_record res) = key /\ payloadHash (c_record res) = hash
  | Exn _ => True
  end.

Lemma spec_replay_record key hash record w0 :
  idem_inv w0 -> find_record key w0 = Some record -> payloadHash record = hash ->
  replayable record = true -> spec t (since w0) (replay record) (check_post key hash).
Proof using own_inj Hown sanitizeHtml.
  intros HI Hf Hh Hr. destruct (find_record_Some _ _ _ Hf) as (k & Hk & Hkey).
  unfold replayable in Hr. boolp. destruct (inv_completed _ HI _ _ Hk) as [cid Hcid]; [done|].
  destruct (inv_response _ HI _ _ _ Hk Hcid) as (c & Hid & Hc & Hck & Hch).
  unfold replay. rewrite Hcid. cbn. intros w HIw (Hgrow & _ & Hfree).
  pose proof (Hgrow _ _ Hc) as Hc'. subst cid. rewrite Hc'.
  split; [done|split; [apply idem_guar_refl|]]. exists (fun w => confession_of key hash c w /\ free_conf w).
  split; [split; [split; [done|split; congruence]|done]|split;
    [apply stable_both; [apply stable_confession|apply stable_free_conf]|]].
  intros v _ [Hv ?]. cbn. eauto.
Qed.

(** Claiming a failed row. *)
Lemma spec_claim {B} key record w0 (q : bool -> prog IdemDB idem_error B) post :
  idem_inv w0 -> find_record key w0 = Some record ->
  spec t (fun w => known record w /\ free_conf w) (q true) post ->
  spec t free_conf (q false) post ->
  spec t (since w0) (bind (claim_row (rec_id record) (payloadHash record)) q) post.
Proof using own_inj Hown sanitizeHtml.
  intros HI0 Hf Ht Hfa w HI Hs. cbn.
  destruct (since_known _ _ _ _ HI0 Hf Hs) as (row & Hrow & Hk & Hh). rewrite Hrow.
  destruct Hs as (_ & _ & Hfree). case_bool_decide; cbn [fst snd].
  - destruct (update_record_ok (own t) (rec_id record) row
      (fun r => r <| status := processing |> <| payloadHash := payloadHash record |>) w)
      as [HI' Hg']; try done; [by left|].
    split; [done|split; [done|]]. eexists. split; [|split; [apply stable_known|exact Ht]].
    split; [|done]. eexists. cbn. rewrite lookup_insert_eq. split_and!; [done..].
  - split; [done|split; [apply idem_guar_refl|]]. exists free_conf.
    split; [done|split; [apply stable_free_conf|done]].
Qed.

Lemma insert_record_ok key hash w :
  idem_inv w -> free_record w ->
  let row := {| rec_id := cr_recordId r; idempotencyKey := key; payloadHash := hash;
                status := processing; responseStatus := None; responseBody := None;
                rec_confessionId := None |} in
  let w' := w <| records ::= <[cr_recordId r := row]> |> in
  idem_inv w' /\ idem_guar (own t) w w'.
Proof using Hown sanitizeHtml.
  intros [H1 H2 H3 H4 H5] Hfree. split; split; cbn; try done.
  - intros k u [[<- <-]|[_ Hu]]%lookup_insert_Some; eauto.
  - intros k u [[<- <-]|[_ Hu]]%lookup_insert_Some; [done|eauto].
  - intros k u cid [[<- <-]|[_ Hu]]%lookup_insert_Some; [done|]. apply (H5 k u cid Hu).
  - intros k u Hu. exists u. rewrite lookup_insert_ne; [done|]. unfold free_record in Hfree. congruence.
  - intros k Hne Hk. rewrite lookup_insert_ne; [done|]. rewrite Hown in Hne. cbn in Hne. congruence.
Qed.

Lemma wait_S fuel key hash polls :
  waitForProcessing fuel key hash (S polls) =
  (let* found := reads (find_record key) in
   match found with
   | None => Throw still_processing
   | Some record =>
       if negb (payloadHash record =s? hash) then Throw hash_mismatch
       else if replayable record then replay record
       else if bool_decide (status record = failed) then
         let* won := claim_row (rec_id record) hash in
         if won then Ret (claimed_result record)
         else match fuel with
              | O => Throw OutOfFuel
              | S fuel' =>
                  let* claimed := waitForProcessing fuel' (idempotencyKey record) hash MAX_POLLS in
                  if negb (isReplay claimed) then Ret claimed
                  else waitForProcessing fuel key hash polls
              end
       else waitForProcessing fuel key hash polls
   end).
Proof. by destruct fuel. Qed.

Lemma since_free w0 w : idem_inv w -> since w0 w -> free_conf w.
Proof. by intros _ (_ & _ & ?). Qed.

Lemma spec_claimed key hash record :
  idempotencyKey record = key -> payloadHash record = hash ->
  spec t (fun w => known record w /\ free_conf w) (Ret (claimed_result record)) (check_post key hash).
Proof. by intros Hk Hh w _ [? ?]. Qed.

(** One look at the record: replay, reject, claim, or go on. *)
Lemma spec_look key hash (lost : IdemRecord -> prog IdemDB idem_error CheckResult) wait gone :
  (forall record, idempotencyKey record = key -> spec t free_conf (lost record) (check_post key hash)) ->
  spec t free_conf wait (check_post key hash) ->
  spec t free_conf
    (let* found := reads (find_record key) in
     match found with
     | None => Throw gone
     | Some record =>
         if negb (payloadHash record =s? hash) then Throw hash_mismatch
         else if replayable record then replay record
         else if bool_decide (status record = failed) then
           let* won := claim_row (rec_id record) hash in
           if won then Ret (claimed_result record) else lost record
         else wait
     end) (check_post key hash).
Proof using own_inj Hown sanitizeHtml.
  intros Hlost Hwait w0 HI0 Hfree. cbn [bind reads access fst snd].
  split; [done|split; [apply idem_guar_refl|]]. exists (since w0).
  split; [by apply since_refl|split; [apply stable_since|]].
  destruct (find_record key w0) as [record|] eqn:Hf; [|by intros w].
  destruct (str_eqb_spec (payloadHash record) hash) as [Hh|]; [|by intros w]. cbn [negb].
  destruct (replayable record) eqn:Hr; [by eapply spec_replay_record|].
  destruct (find_record_Some _ _ _ Hf) as (k & Hk & Hkey).
  case_bool_decide; [|eapply rg_weaken; [apply since_free|apply Hwait]].
  subst hash. eapply spec_claim; [done|exact Hf| |].
  - by apply spec_claimed.
  - by apply Hlost.
Qed.

Lemma spec_wait fuel key hash polls :
  spec t free_conf (waitForProcessing fuel key hash polls) (check_post key hash).
Proof using own_inj Hown sanitizeHtml.
  revert key polls. induction fuel as [|fuel IHf]; intros key polls;
    (induction polls as [|polls IHp]; [by intros w|]); rewrite wait_S.
  - apply spec_look; [by intros record _ w|exact IHp].
  - apply spec_look; [|exact IHp]. intros record Hkey.
    eapply rg_bind with (Q := fun claimed w => check_post key hash (Ok claimed) w).
    { eapply rg_post; [|rewrite Hkey; apply IHf]. by intros [|]. }
    intros claimed. destruct (isReplay claimed) eqn:Hr; cbn [negb].
    + eapply rg_weaken; [|exact IHp]. intros w _ Hc. cbn in Hc. rewrite Hr in Hc. tauto.
    + by intros w _ Hc.
Qed.

Lemma spec_check fuel :
  let key := scoped_key r in let hash := request_hash r in
  spec t (fun w => free_record w /\ free_conf w)
    (check fuel (cr_recordId r) (cr_key r) hash (cr_scope r)) (check_post key hash).
Proof using own_inj Hown sanitizeHtml.
  cbn zeta. set (key := scoped_key r). set (hash := request_hash r). unfold check. fold (scoped_key r).
  set (row := {| rec_id := cr_recordId r; idempotencyKey := key; payloadHash := hash;
                 status := processing; responseStatus := None; responseBody := None;
                 rec_confessionId := None |}).
  apply rg_bind with (Q := fun o w => match o with
                                      | Some u => u = row /\ known row w /\ free_conf w
                                      | None => free_conf w
                                      end).
  - intros w HI [Hfree Hfc]. cbn. change (scoped_key r) with key.
    destruct (find_record key w) as [u|] eqn:Hf; cbn.
    + split; [done|split; [apply idem_guar_refl|]]. exists free_conf.
      by split; [done|split; [apply stable_free_conf|intros v]].
    + destruct (insert_record_ok key hash w HI Hfree) as [HI' Hg]. split; [done|split; [done|]].
      exists (fun w => known row w /\ free_conf w).
      split; [|split; [apply stable_known|by intros v _ [? ?]]].
      split; [|done]. exists row. cbn. by rewrite lookup_insert_eq.
  - intros [u|].
    + apply rg_pure. intros ->. by intros w _ [? ?].
    + unfold handleExistingRecord. apply spec_look; [|apply spec_wait].
      intros record Hkey. rewrite <- Hkey. apply spec_wait.
Qed.

Abbreviation new_conf payload key :=
  {| cf_id := cr_confessionId r; cf_key := key; cf_payload := payload |}.

Lemma insert_conf_ok payload key w :
  idem_inv w -> free_conf w ->
  (forall k c, confs w !! k = Some c -> cf_key c = key -> key = None) ->
  let w' := w <| confs ::= <[cr_confessionId r := new_conf payload key]> |> in
  idem_inv w' /\ idem_guar (own t) w w'.
Proof using Hown sanitizeHtml.
  intros [H1 H2 H3 H4 H5] Hfree Hnew. unfold free_conf in Hfree. split; split; cbn; try done.
  - intros k c [[<- <-]|[_ Hc]]%lookup_insert_Some; eauto.
  - intros k1 k2 c1 c2 [[<- <-]|[? Hc1]]%lookup_insert_Some [[<- <-]|[? Hc2]]%lookup_insert_Some Heq Hno;
      cbn in *; [done| | |by eauto].
    + exfalso. apply Hno, (Hnew _ _ Hc2). congruence.
    + exfalso. apply Hno. rewrite Heq. by apply (Hnew _ _ Hc1).
  - intros k u cid Hu Hcid. destruct (H5 k u cid Hu Hcid) as (c & Hid & Hc & ?).
    exists c. split; [done|]. split; [|done]. cbn. rewrite lookup_insert_ne; [done|congruence].
  - intros k c Hc. rewrite lookup_insert_ne; [done|congruence].
  - intros k Hne Hk. rewrite lookup_insert_ne; [done|]. rewrite Hown in Hne. cbn in Hne. congruence.
  - eauto.
Qed.

(** The INSERT of the confession, under a claimed record. *)
Lemma spec_executeCreate payload record :
  spec t (fun w => known record w /\ free_conf w)
    (executeCreate r payload (Some (idempotencyKey record)))
    (fun o w => known record w /\
       match o with
       | Ok c => c = new_conf payload (Some (idempotencyKey record))
                 /\ confs w !! cf_id c = Some c
       | Exn _ => True
       end).
Proof using own_inj Hown sanitizeHtml.
  set (key := idempotencyKey record). intros w HI [Hkn Hfc]. cbn [fst snd].
  destruct (cr_outcome r) as [[]|e]; cbn.
  2: { split; [done|split; [apply idem_guar_refl|]]. exists (fun w => known record w /\ free_conf w).
       split; [done|split; [apply stable_known|by intros v _ [? ?]]]. }
  case_match eqn:Hex; cbn.
  { split; [done|split; [apply idem_guar_refl|]]. exists (fun w => known record w /\ free_conf w).
    split; [done|split; [apply stable_known|by intros v _ [? ?]]]. }
  destruct (insert_conf_ok payload (Some key) w HI Hfc) as [HI' Hg].
  { intros k c Hk Hck. exfalso. apply not_true_iff_false in Hex. apply Hex, existsb_exists.
    exists (k, c). split; [by apply list_elem_of_In, elem_of_map_to_list|].
    by apply bool_decide_eq_true. }
  split; [done|split; [done|]].
  exists (fun w => known record w /\ confs w !! cr_confessionId r = Some (new_conf payload (Some key))).
  split; [|split].
  - split; [by eapply known_guar|]. cbn. apply lookup_insert_eq.
  - intros t' v v' _ _ [Hv1 Hv2] Hgv. split; [by eapply known_guar|by apply (g_confs _ _ _ Hgv)].
  - by intros v _ [? ?].
Qed.

(** What a creation request returns. *)
Definition create_post (o : outcome idem_error (option Confession)) (w : IdemDB) : Prop :=
  match o with
  | Ok (Some c) => cr_key r <> "" -> confession_of (scoped_key r) (request_hash r) c w
  | Ok None => False
  | Exn _ => True
  end.

Lemma spec_commit record payload :
  payloadHash record = computePayloadHash payload ->
  let c := new_conf payload (Some (idempotencyKey record)) in
  spec t (fun w => known record w /\ confs w !! cf_id c = Some c)
    (commitSuccess record c (message payload) 201)
    (fun o w => o = Ok tt /\ confession_of (idempotencyKey record) (payloadHash record) c w).
Proof using own_inj Hown sanitizeHtml.
  intros Hh. cbn zeta. set (c := new_conf _ _). intros w HI [(row & Hrow & Hk & Hrh) Hc]. cbn [fst snd].
  assert (confession_of (idempotencyKey record) (payloadHash record) c w) as Hof by done.
  set (f := fun u => u <| status := completed |> <| rec_confessionId := Some (cf_id c) |>
                       <| responseStatus := Some 201 |> <| responseBody := Some (message payload) |>).
  destruct (update_record_ok (own t) (rec_id record) row f w HI Hrow) as [HI' Hg]; try done.
  { intros cid [= <-]. right. exists c. rewrite Hk, Hrh. done. }
  assert (update_record (rec_id record) f w = w <| records ::= <[rec_id record := f row]> |>) as ->.
  { unfold update_record, set_field. cbv beta. by rewrite (alter_as_insert _ _ row _ Hrow). }
  split; [done|split; [done|]]. eexists. split; [|split; [apply (stable_confession (idempotencyKey record) (payloadHash record) c)|]].
  - by eapply confession_of_guar.
  - by intros v _ Hv.
Qed.

Lemma spec_commitFailure {B} record e (post : outcome idem_error B -> IdemDB -> Prop) :
  (forall w, post (Exn e) w) ->
  spec t (known record) (do* commitFailure record in Throw e) post.
Proof using own_inj Hown sanitizeHtml.
  intros Hpost w HI (row & Hrow & Hk & Hh). cbn [bind commitFailure writes access fst snd].
  destruct (update_record_ok (own t) (rec_id record) row (fun u => u <| status := failed |>) w HI Hrow)
    as [HI' Hg]; try done; [by left|].
  assert (update_record (rec_id record) (fun u => u <| status := failed |>) w
          = w <| records ::= <[rec_id record := row <| status := failed |>]> |>) as ->.
  { unfold update_record, set_field. cbv beta. by rewrite (alter_as_insert _ _ row _ Hrow). }
  split; [done|split; [done|]]. exists (fun _ => True). split; [done|split; [by intros ?|]].
  by intros v _ _.
Qed.

(** Creation without a key. *)
Lemma spec_unkeyed payload :
  spec t (fun w => free_record w /\ free_conf w)
    (let* c := executeCreate r payload None in Ret (Some c))
    (fun o _ => match o with Ok None => False | _ => True end).
Proof using own_inj Hown sanitizeHtml.
  intros w HI [_ Hfc]. cbn [bind executeCreate attempts fst snd].
  destruct (cr_outcome r) as [[]|e]; cbn [fst snd].
  2: { split; [done|split; [apply idem_guar_refl|]]. exists (fun _ => True).
       split; [done|split; [by intros ?|by intros v _ _]]. }
  destruct (insert_conf_ok payload None w HI Hfc) as [HI' Hg]; [done|].
  split; [done|split; [done|]]. exists (fun _ => True).
  split; [done|split; [by intros ?|by intros v _ _]].
Qed.

Lemma spec_create fuel :
  spec t (fun w => free_record w /\ free_conf w) (create fuel r) create_post.
Proof using own_inj Hown sanitizeHtml.
  unfold create. case_match; [by intros w|]. case_match; [by intros w|].
  destruct (truthy (cr_key r)) eqn:Hkey.
  2: { eapply rg_post; [|apply spec_unkeyed]. intros [[c|]|e] w; try done.
       intros _ Hno. unfold truthy in Hkey. boolp. done. }
  apply rg_bind with (Q := fun res w => check_post (scoped_key r) (request_hash r) (Ok res) w).
  { eapply rg_post; [|apply spec_check]. by intros [|]. }
  intros res. unfold check_post. destruct (isReplay res).
  { intros w _ [(c & Hc & Hof) _]. unfold create_post. by rewrite Hc. }
  set (payload := payload_of r _). set (record := c_record res).
  eapply rg_weaken with (P' := fun w =>
    (idempotencyKey record = scoped_key r /\ payloadHash record = request_hash r)
    /\ known record w /\ free_conf w); [by intros w _ (? & ? & ? & ?)|].
  apply rg_pure. intros [Hk Hh].
  set (c := new_conf payload (Some (idempotencyKey record))).
  apply rg_bind with (Q := fun c' w => c' = c /\ known record w /\ confs w !! cf_id c = Some c).
  - apply rg_try_catch with (Q := fun _ => known record); [|intros e; by apply spec_commitFailure].
    eapply rg_post; [|apply spec_executeCreate].
    intros [c'|e] w [Hkn Ho]; [|done]. by destruct Ho as [-> Ho].
  - intros c'. apply rg_pure. intros ->.
    eapply rg_bind with (Q := fun _ => confession_of (scoped_key r) (request_hash r) c).
    + eapply rg_post; [|apply (spec_commit record payload Hh)].
      intros o w [-> Hof]. by rewrite <- Hk, <- Hh.
    + by intros [] w _ Hof _.
Qed.
End actor.

(** ** Properties *)

(** C2. Exactly-once creation. Let any number of creation requests, with distinct
    row ids, interleave at their awaits. Two requests that carry the same
    client key in the same scope and both return a confession return the same
    one, it is stored, and it was made of the payload of both; and no key ever
    has two confessions. *)
Theorem create_agreement fuel (reqs : gmap positive CreateRequest) w0 w ps :
  idem_inv w0 ->
  (forall t r, reqs !! t = Some r ->
     records w0 !! cr_recordId r = None /\ confs w0 !! cr_confessionId r = None) ->
  (forall t t' r r', reqs !! t = Some r -> reqs !! t' = Some r' ->
     cr_recordId r = cr_recordId r' \/ cr_confessionId r = cr_confessionId r' -> t = t') ->
  pool_reach (w0, create fuel <$> reqs) (w, ps) ->
  (forall k1 k2 c1 c2, confs w !! k1 = Some c1 -> confs w !! k2 = Some c2 ->
     cf_key c1 = cf_key c2 -> cf_key c1 <> None -> k1 = k2)
  /\ (forall t r o, reqs !! t = Some r -> ps !! t = Some (Ret o) -> cr_key r <> "" ->
       exists c, o = Some c /\ confession_of (scoped_key r) (request_hash r) c w)
  /\ (forall t t' r r' c c', reqs !! t = Some r -> reqs !! t' = Some r' ->
       ps !! t = Some (Ret (Some c)) -> ps !! t' = Some (Ret (Some c')) ->
       cr_key r <> "" -> cr_key r' <> "" -> scoped_key r = scoped_key r' -> c = c').
Proof.
  intros HI0 Hfree Hids Hreach.
  set (own := fun t => (fun r => (cr_recordId r, cr_confessionId r)) <$> reqs !! t).
  assert (forall t t' p p', own t = Some p -> own t' = Some p' ->
            p.1 = p'.1 \/ p.2 = p'.2 -> t = t') as Hinj.
  { intros t t' p p' (r & Hr & ->)%fmap_Some (r' & Hr' & ->)%fmap_Some. by apply (Hids t t' r r'). }
  assert (pool_ok idem_inv (fun t => idem_guar (own t))
            (fun t o w => forall r, reqs !! t = Some r -> create_post r o w)
            (w0, create fuel <$> reqs)) as Hinit.
  { split; [done|]. intros t p. cbn. rewrite lookup_fmap_Some. intros (r & <- & Hr).
    assert (own t = Some (cr_recordId r, cr_confessionId r)) as Hown by (apply fmap_Some; eauto).
    exists (fun w => free_record r w /\ free_conf r w). split; [by apply (Hfree t)|].
    split; [by eapply stable_free_ids|].
    eapply rg_post; [|by apply (spec_create own Hinj t r Hown)]. intros o v Ho r' Hr'. by simplify_eq. }
  destruct (rg_sound _ _ _ _ _ Hinit Hreach) as [HI Hps]. cbn in HI, Hps.
  assert (forall t r o, reqs !! t = Some r -> ps !! t = Some (Ret o) -> cr_key r <> "" ->
            exists c, o = Some c /\ confession_of (scoped_key r) (request_hash r) c w) as Hres.
  { intros t r o Hr Ho Hk. destruct (Hps t _ Ho) as (P & HP & _ & Hrg).
    pose proof (Hrg w HI HP r Hr) as Hpost. destruct o as [c|]; [|done]. exists c. split; [done|by apply Hpost]. }
  split; [apply (inv_unique _ HI)|split; [exact Hres|]].
  intros t t' r r' c c' Hr Hr' Hc Hc' Hk Hk' Heq.
  destruct (Hres _ _ _ Hr Hc Hk) as (? & [= <-] & H1 & H2 & _).
  destruct (Hres _ _ _ Hr' Hc' Hk') as (? & [= <-] & H1' & H2' & _).
  assert (cf_id c = cf_id c') as Hid by (apply (inv_unique _ HI _ _ _ _ H1 H1'); congruence).
  rewrite Hid in H1. congruence.
Qed.

(** Keys of different operations, sessions or clients never share a record:
    without hash collisions, and for operations and sessions without NUL, the
    stored key determines all three. *)
Theorem scoped_key_injective k k' sc sc' :
  Inj eq eq sha256 ->
  let no_nul := str_forall (fun d => negb (Ascii.eqb d "000"%char)) in
  let e := default DEFAULT_IDEMPOTENCY_SCOPE sc in
  let e' := default DEFAULT_IDEMPOTENCY_SCOPE sc' in
  no_nul (operation e) = true -> no_nul (operation e') = true ->
  no_nul (sessionId e) = true -> no_nul (sessionId e') = true ->
  computeScopedIdempotencyKey k sc = computeScopedIdempotencyKey k' sc' ->
  operation e = operation e' /\ sessionId e = sessionId e' /\ k = k'.
Proof.
  cbn zeta. intros Hinj Ho Ho' Hs Hs' Heq. apply Hinj in Heq.
  unfold NUL in Heq. rewrite !str_app_cons, !str_app_nil in Heq.
  destruct (sep_inj _ _ _ _ _ Ho Ho' Heq) as [Hop Heq'].
  destruct (sep_inj _ _ _ _ _ Hs Hs' Heq') as [Hse Hk]. done.
Qed.

(** A record left processing is never taken over: after fifty polls the request
    is told the service is unavailable, and nothing changes. *)
Theorem abandoned_record_blocks fuel rid k hash sc record w :
  find_record (computeScopedIdempotencyKey k sc) w = Some record ->
  payloadHash record = hash -> status record = processing ->
  run (check fuel rid k hash sc) w = (Exn still_processing, w).
Proof.
  intros Hf Hh Hst. unfold check, tryInsert. set (key := computeScopedIdempotencyKey k sc) in *.
  run_simp. rewrite Hf. run_simp. unfold handleExistingRecord. run_simp. rewrite Hf, Hh, str_eqb_refl.
  unfold replayable. rewrite Hst. cbn [negb andb].
  rewrite !bool_decide_eq_false_2 by done. cbn [andb].
  generalize MAX_POLLS. intros polls. induction polls as [|polls IH]; [by destruct fuel|].
  rewrite wait_S. run_simp. rewrite Hf, Hh, str_eqb_refl. unfold replayable. rewrite Hst.
  cbn [negb andb]. rewrite !bool_decide_eq_false_2 by done. exact IH.
Qed.
End service.

(** The session of an authenticated user is out of reach of the anonymous
    identifiers a client can choose: only a request of that user has it. *)
Theorem session_of_user req req' u :
  firstString [user_id req; user_sub req] = Some u ->
  resolveIdempotencySessionId req' = resolveIdempotencySessionId req ->
  firstString [user_id req'; user_sub req'] = Some u.
Proof.
  intros Hu. unfold resolveIdempotencySessionId. rewrite Hu.
  destruct (firstString [user_id req'; user_sub req']) as [v|].
  - rewrite !str_app_cons, !str_app_nil. intros H. by simplify_eq.
  - repeat case_match; rewrite ?str_app_cons, ?str_app_nil; intros; simplify_eq.
Qed.

(** ** Witnesses *)
Definition ex_create (rid cid m : string) (out : outcome string unit) : CreateRequest := {|
  cr_recordId := rid; cr_confessionId := cid; cr_message := m; cr_gender := None; cr_tags := None;
  cr_stellarTxHash := None; cr_key := "key"; cr_scope := None; cr_outcome := out |}.
Definition ex_reqs : gmap positive CreateRequest :=
  {[ 1%positive := ex_create "R1" "C1" "hello" (Exn "tags");
     2%positive := ex_create "R2" "C2" "hello" (Ok tt);
     3%positive := ex_create "R3" "C3" "hello" (Ok tt) ]}.
Definition ex_stringify (p : Payload) : string := message p.
Definition ex_pool := create (fun s => s) ex_stringify (fun s => s) 3 <$> ex_reqs.
Definition ex_empty : IdemDB := {| records := ∅; confs := ∅ |}.
(** Request 1 creates the record and fails; 3 takes it over while 2 waits. *)
Definition ex_end :=
  run_schedule [1; 2; 3; 1; 2; 1; 3; 3; 2; 3; 3; 2; 2; 2; 2]%positive (ex_empty, ex_pool).

Example ex_end_results :
  match ex_end.2 !! 2%positive, ex_end.2 !! 3%positive with
  | Some (Ret (Some c)), Some (Ret (Some c')) => (cf_id c, cf_id c') = ("C3", "C3")
  | _, _ => False
  end.
Proof. vm_compute. reflexivity. Qed.

Lemma ex_reqs_Forall (P : positive -> CreateRequest -> Prop) :
  P 1%positive (ex_create "R1" "C1" "hello" (Exn "tags")) ->
  P 2%positive (ex_create "R2" "C2" "hello" (Ok tt)) ->
  P 3%positive (ex_create "R3" "C3" "hello" (Ok tt)) ->
  forall t r, ex_reqs !! t = Some r -> P t r.
Proof.
  intros H1 H2 H3 t r. unfold ex_reqs.
  rewrite !lookup_insert_Some, lookup_singleton_Some. naive_solver.
Qed.

Definition ex_c3 : Confession := {|
  cf_id := "C3"; cf_key := Some (scoped_key (fun s => s) (ex_create "R3" "C3" "hello" (Ok tt)));
  cf_payload := {| message := "hello"; gender := None; tags := None; stellarTxHash := None |} |}.

Lemma ex_reqs_distinct t t' r r' :
  ex_reqs !! t = Some r -> ex_reqs !! t' = Some r' ->
  cr_recordId r = cr_recordId r' \/ cr_confessionId r = cr_confessionId r' -> t = t'.
Proof.
  intros Hr Hr'. revert t' r' Hr'. revert t r Hr.
  apply (ex_reqs_Forall (fun t r => forall t' r', ex_reqs !! t' = Some r' -> _ \/ _ -> t = t'));
    (apply (ex_reqs_Forall (fun t' r' => _ \/ _ -> _ = t')); cbn; intros []; done).
Qed.

Lemma create_agreement_witness :
  exists c, Some ex_c3 = Some c /\
    confession_of (fun s => s) ex_stringify (scoped_key (fun s => s) (ex_create "R2" "C2" "hello" (Ok tt)))
      (request_hash (fun s => s) ex_stringify (fun s => s) (ex_create "R2" "C2" "hello" (Ok tt)))
      c ex_end.1.
Proof.
  assert (pool_reach (ex_empty, ex_pool) (ex_end.1, ex_end.2)) as Hreach.
  { rewrite <- surjective_pairing. apply run_schedule_reach. }
  assert (idem_inv (fun s => s) ex_stringify ex_empty) as HI.
  { split; cbn; intros *; rewrite ?lookup_empty; done. }
  refine (proj1 (proj2 (create_agreement (fun s => s) ex_stringify (fun s => s) 3 ex_reqs ex_empty
            ex_end.1 ex_end.2 HI _ ex_reqs_distinct Hreach)) 2%positive _ (Some ex_c3) _ _ _).
  - intros t r _. split; apply lookup_empty.
  - reflexivity.
  - vm_compute. reflexivity.
  - discriminate.
Defined.

Lemma scoped_key_injective_witness :
  let sc s := Some {| operation := "POST /confessions"; sessionId := s |} in
  computeScopedIdempotencyKey (fun s => s) "k" (sc "user:1") <> computeScopedIdempotencyKey (fun s => s) "k" (sc "user:2").
Proof.
  cbn zeta. intros Heq.
  destruct (scoped_key_injective (fun s => s) "k" "k"
    (Some {| operation := "POST /confessions"; sessionId := "user:1" |})
    (Some {| operation := "POST /confessions"; sessionId := "user:2" |})) as (_ & Hs & _);
    try reflexivity; [by intros ?? ?|exact Heq|discriminate Hs].
Defined.

Definition ex_req_user (id : string) : RequestLike := {|
  user_id := Some id; user_sub := None; anonymousContextId := Some "user:7"; headers := ∅; cookies := ∅ |}.
Lemma session_of_user_witness :
  firstString [user_id (ex_req_user "7"); user_sub (ex_req_user "7")] = Some "7".
Proof. apply (session_of_user (ex_req_user "7") (ex_req_user "7")); reflexivity. Defined.

Definition ex_stuck : IdemDB := {|
  records := {[ "R1" := {| rec_id := "R1"; idempotencyKey := computeScopedIdempotencyKey (fun s => s) "key" None;
                           payloadHash := "hello"; status := processing; responseStatus := None;
                           responseBody := None; rec_confessionId := None |} ]};
  confs := ∅ |}.
Lemma abandoned_record_blocks_witness :
  run (check (fun s => s) 2 "R2" "key" "hello" None) ex_stuck = (Exn still_processing, ex_stuck).
Proof. eapply (abandoned_record_blocks (fun s => s) 2 "R2" "key" "hello" None); vm_compute; reflexivity. Defined.
