(* ===== verification/CacheManager.v ===== *)
(** * The cache: an interface, its laws and an implementation

    The services keep short-lived facts in the injected cache manager.  It is
    library code, so the development only assumes what its documentation
    promises: a value is read back until its time to live has passed, a deleted
    key is gone, an expired one does not come back, keys do not interfere, and the
    keys under a prefix can be listed.
    [map_cache] shows that the promises can be kept. *)
From S2P Require Import Prelude Numbers Json.
Open Scope Z_scope.

(** What the services store: strings, numbers and objects. *)
Inductive cval := CStr (s : string) | CNum (z : Z) | CJson (j : json).

Definition cval_str (v : cval) : string :=
  match v with CStr s => s | CNum z => num_str (Some z) | CJson j => json_string j end.
Definition cval_truthy (v : cval) : bool :=
  match v with CStr s => truthy s | CNum z => truthy_num z | CJson j => json_truthy j end.

Class CacheManager (C : Type) := {
  cache_get : string -> ms -> C -> option cval;
  cache_set : string -> cval -> ms -> ms -> C -> C;
  cache_del : string -> C -> C;
  cache_keys : string -> C -> list string;
  cache_get_set : forall k v ttl t now c, 0 < ttl -> t <= now ->
    cache_get k now (cache_set k v ttl t c) = if now <? t + ttl then Some v else None;
  cache_get_set_ne : forall k k' v ttl t now c, k <> k' ->
    cache_get k' now (cache_set k v ttl t c) = cache_get k' now c;
  cache_get_del : forall k now c, cache_get k now (cache_del k c) = None;
  cache_get_del_ne : forall k k' now c, k <> k' ->
    cache_get k' now (cache_del k c) = cache_get k' now c;
  cache_get_later : forall k now now' c, now <= now' ->
    cache_get k now c = None -> cache_get k now' c = None;
  cache_keys_complete : forall p k now c v,
    cache_get k now c = Some v -> starts_with p k = true -> k ∈ cache_keys p c;
}.

(** An implementation: a map from keys to values and the time they expire. *)
Abbreviation map_cache := (gmap string (cval * ms)).
Definition map_set (k : string) (v : cval) (ttl t : ms) (c : map_cache) : map_cache := <[k := (v, t + ttl)]> c.
Definition map_del (k : string) (c : map_cache) : map_cache := delete k c.
Definition map_get (k : string) (now : ms) (c : map_cache) : option cval :=
  match c !! k with Some (v, t) => if now <? t then Some v else None | None => None end.
Definition map_keys (p : string) (c : map_cache) : list string :=
  List.filter (starts_with p) (map fst (map_to_list c)).
#[export] Instance map_cache_manager : CacheManager map_cache.
Proof.
  refine {| cache_get := map_get;
            cache_set := map_set; cache_del := map_del; cache_keys := map_keys |};
    intros; unfold map_get, map_set, map_del, map_keys in *.
  - by rewrite lookup_insert_eq.
  - by rewrite lookup_insert_ne.
  - by rewrite lookup_delete_eq.
  - by rewrite lookup_delete_ne.
  - destruct (c !! k) as [[v t]|]; [|done].
    destruct (Z.ltb_spec now t), (Z.ltb_spec now' t); (done || lia).
  - apply list_elem_of_In, filter_In. split; [|done]. apply in_map_iff. case_match eqn:Hc; [|done].
    exists (k, p0). split; [done|]. by apply list_elem_of_In, elem_of_map_to_list.
Defined.

