(* ===== verification/Lockout.v ===== *)
(** * Account lockout and session revocation

    [src/xconfess-backend/src/auth/lockout.service.ts] and
    [auth/session-revocation.service.ts]: the facts about accounts that live in
    the cache.  Both services are programs over any cache that keeps the
    promises of [CacheManager]; a method reads the clock once. *)
From S2P Require Import Prelude Numbers Json Effects Dates CacheManager.
Open Scope Z_scope.

(** [src auth/lockout.service.ts:6-11 LockoutStatus]; counters may be [NaN]. *)
Record LockoutStatus := {
  isLocked : bool;
  attemptsRemaining : option Z;
  lockedUntil : option (option ms);
  lockCount : option Z;
}.

(** [src auth/lockout.service.ts:13-14 LOCKOUT_DURATIONS_SECONDS] *)
Definition LOCKOUT_DURATIONS_SECONDS : list Z := [15 * 60; 30 * 60; 60 * 60; 24 * 60 * 60].
Definition MAX_ATTEMPTS : Z := 5.

(** [src auth/lockout.service.ts:15-17 ATTEMPTS_KEY] *)
Definition ATTEMPTS_KEY (email : string) : string := "lockout:attempts:" +:+ email.
Definition LOCKED_KEY (email : string) : string := "lockout:locked:" +:+ email.
Definition COUNT_KEY (email : string) : string := "lockout:count:" +:+ email.

(** [lockout.service.ts:24]: thirty minutes, and a week. *)
Definition ATTEMPTS_TTL : ms := 30 * 60 * 1000.
Definition COUNT_TTL : ms := 7 * 24 * 60 * 60 * 1000.

(** What the services throw: the cache is down; a date made of [NaN]. *)
Inductive cache_error := ServiceUnavailable (message : string) | RangeError.

Section service.
Context {C : Type} `{!CacheManager C}.

(** [parseInt((await cache.get(key)) ?? '0', 10)]. *)
Definition counter (v : option cval) : option Z := parseInt (from_option cval_str "0" v).
Definition get_counter (key : string) (now : ms) : prog C cache_error (option Z) :=
  let* raw := reads (cache_get key now) in Ret (counter raw).

(** [new Date(locked)]; the text of an object is no date. *)
Definition date_of (v : cval) : option ms := match v with CStr s => parseISO s | CNum z => Some z | CJson _ => None end.

(** [src auth/lockout.service.ts:25-48 getStatus] *)
Definition getStatus (email : string) (now : ms) : prog C cache_error LockoutStatus :=
  let* locked := reads (cache_get (LOCKED_KEY email) now) in
  let* count := get_counter (COUNT_KEY email) now in
  if from_option cval_truthy false locked
  then Ret {| isLocked := true; attemptsRemaining := Some 0; lockedUntil := date_of <$> locked;
              lockCount := count |}
  else
    let* attempts := get_counter (ATTEMPTS_KEY email) now in
    Ret {| isLocked := false; attemptsRemaining := (fun a => Z.max 0 (MAX_ATTEMPTS - a)) <$> attempts;
           lockedUntil := None; lockCount := count |}.

(** [LOCKOUT_DURATIONS_SECONDS[Math.min(lockCount - 1, length - 1)]]. *)
Definition duration (lockCount : Z) : option Z :=
  if lockCount <? 1 then None
  else LOCKOUT_DURATIONS_SECONDS !! Z.to_nat (Z.min (lockCount - 1) 3).

(** The locking branch of [recordFailedAttempt].  Without a duration the date is
    invalid, and its [toISOString] throws. *)
Definition lock (email : string) (now : ms) : prog C cache_error LockoutStatus :=
  let* raw := get_counter (COUNT_KEY email) now in
  let lockCount := (fun c => c + 1) <$> raw in
  let* durationSeconds := of_option (lockCount ≫= duration) RangeError in
  let lockedUntil := now + durationSeconds * 1000 in
  do* writes (cache_set (LOCKED_KEY email) (CStr (toISOString lockedUntil)) (durationSeconds * 1000) now) in
  do* writes (cache_set (COUNT_KEY email) (CStr (num_str lockCount)) COUNT_TTL now) in
  do* writes (cache_del (ATTEMPTS_KEY email)) in
  Ret {| isLocked := true; attemptsRemaining := Some 0; lockedUntil := Some (Some lockedUntil);
         lockCount := lockCount |}.

(** [src auth/lockout.service.ts:50-88 recordFailedAttempt] *)
Definition recordFailedAttempt (email : string) (now : ms) : prog C cache_error LockoutStatus :=
  let* raw := get_counter (ATTEMPTS_KEY email) now in
  let attempts := (fun a => a + 1) <$> raw in
  do* writes (cache_set (ATTEMPTS_KEY email) (CStr (num_str attempts)) ATTEMPTS_TTL now) in
  if from_option (fun a => MAX_ATTEMPTS <=? a) false attempts then lock email now
  else
    let* count := get_counter (COUNT_KEY email) now in
    Ret {| isLocked := false; attemptsRemaining := (fun a => MAX_ATTEMPTS - a) <$> attempts;
           lockedUntil := None; lockCount := count |}.

(** [src auth/lockout.service.ts:90-94 clearLockout] *)
Definition clearLockout (email : string) : prog C cache_error unit :=
  do* writes (cache_del (ATTEMPTS_KEY email)) in writes (cache_del (LOCKED_KEY email)).

(** ** Session revocation *)
Definition revocationKey (userId : string) : string := "session:revoked:" +:+ userId.

(** [src auth/session-revocation.service.ts:28-46 revokeUserSessions]; [known] is
    whether the user exists, [up] whether the cache answers. *)
Definition revokeUserSessions (up known : bool) (userId : string) (now : ms) : prog C cache_error unit :=
  if negb known then Ret tt
  else if up then writes (cache_set (revocationKey userId) (CNum now) (24 * 60 * 60 * 1000) now)
  else Throw (ServiceUnavailable "Session revocation unavailable").

(** [src auth/session-revocation.service.ts:52-68 isSessionValid]; [issuedAt] in
    seconds. *)
Definition isSessionValid (up : bool) (userId : string) (issuedAt : Z) (now : ms)
    : prog C cache_error bool :=
  if up then
    let* revocationTime := reads (cache_get (revocationKey userId) now) in
    match revocationTime with
    | Some (CNum t) => Ret (if truthy_num t then t <? issuedAt * 1000 else true)
    | Some (CStr s) =>
        Ret (if truthy s then num_lt (Number s) (num_of_Z (issuedAt * 1000)) else true)
    | Some (CJson j) =>
        Ret (if json_truthy j then num_lt (json_number j) (num_of_Z (issuedAt * 1000)) else true)
    | None => Ret true
    end
  else Throw (ServiceUnavailable "Session validation unavailable").

(** [src auth/session-revocation.service.ts:73-83 clearSessionRevocation] *)
Definition clearSessionRevocation (up : bool) (userId : string) : prog C cache_error unit :=
  if up then writes (cache_del (revocationKey userId))
  else Throw (ServiceUnavailable "Session revocation unavailable").

(** ** Lemmas *)
Lemma counter_str a : 0 <= a -> counter (Some (CStr (num_str (Some a)))) = Some a.
Proof. intros Ha. unfold counter. cbn [from_option cval_str]. by apply parseInt_num_str. Qed.

(** The three families of keys are disjoint, and each is injective. *)
Lemma lockout_keys e e' :
  ATTEMPTS_KEY e <> LOCKED_KEY e' /\ ATTEMPTS_KEY e <> COUNT_KEY e' /\ LOCKED_KEY e <> COUNT_KEY e'
  /\ (e <> e' -> ATTEMPTS_KEY e <> ATTEMPTS_KEY e' /\ LOCKED_KEY e <> LOCKED_KEY e'
                 /\ COUNT_KEY e <> COUNT_KEY e').
Proof.
  unfold ATTEMPTS_KEY, LOCKED_KEY, COUNT_KEY. rewrite !str_app_cons, !str_app_nil.
  split_and!; try discriminate. intros Hne. split_and!; intros Heq; simplify_eq.
Qed.

Lemma iso_truthy t : cval_truthy (CStr (toISOString t)) = true.
Proof.
  cbn [cval_truthy]. unfold toISOString. destruct (civil_from_days (t / DAY)) as [[y m] d].
  apply negb_true_iff, str_eqb_neq. discriminate.
Qed.

Definition failures (email : string) (ts : list ms) (c : C) : C :=
  fold_left (fun c t => (run (recordFailedAttempt email t) c).2) ts c.
Definition status_at (email : string) (now : ms) (c : C) : outcome cache_error LockoutStatus :=
  (run (getStatus email now) c).1.

Lemma getStatus_reads email now c : exists o, run (getStatus email now) c = (o, c).
Proof.
  unfold getStatus, get_counter. run_simp.
  destruct (from_option cval_truthy false (cache_get (LOCKED_KEY email) now c)); run_simp; eauto.
Qed.

(** A failure that does not lock. *)
Lemma failure_low email t c a :
  counter (cache_get (ATTEMPTS_KEY email) t c) = Some a -> a + 1 < MAX_ATTEMPTS ->
  (run (recordFailedAttempt email t) c).2
  = cache_set (ATTEMPTS_KEY email) (CStr (num_str (Some (a + 1)))) ATTEMPTS_TTL t c.
Proof.
  intros Ha Hlt. unfold recordFailedAttempt, get_counter. run_simp. rewrite Ha.
  cbn [fmap option_fmap option_map from_option]. rewrite (proj2 (Z.leb_gt _ _)) by done. by run_simp.
Qed.

(** Within half an hour of the last, failures accumulate and touch nothing but
    their counter. *)
Lemma failures_accumulate email : forall ts t c a now,
  0 <= a -> a + Z.of_nat (length (t :: ts)) < MAX_ATTEMPTS ->
  counter (cache_get (ATTEMPTS_KEY email) t c) = Some a ->
  Forall2 (fun t t' => t <= t' < t + ATTEMPTS_TTL) (t :: ts) (ts ++ [now]) ->
  counter (cache_get (ATTEMPTS_KEY email) now (failures email (t :: ts) c))
    = Some (a + Z.of_nat (length (t :: ts)))
  /\ forall k now', k <> ATTEMPTS_KEY email ->
       cache_get k now' (failures email (t :: ts) c) = cache_get k now' c.
Proof.
  induction ts as [|t' ts IH]; intros t c a now Ha Hlt Hc Hts; cbn [length] in *.
  - apply Forall2_cons in Hts as [Ht _]. cbn [failures fold_left].
    unfold failures. cbn [fold_left]. rewrite (failure_low _ _ _ a) by (done || lia).
    rewrite cache_get_set by (done || lia). rewrite (proj2 (Z.ltb_lt _ _)) by lia.
    split; [by rewrite counter_str by lia|]. intros k now' Hk. by apply cache_get_set_ne.
  - apply Forall2_cons in Hts as [Ht Hts]. fold (app ts [now]) in Hts.
    change (failures email (t :: t' :: ts) c)
      with (failures email (t' :: ts) (run (recordFailedAttempt email t) c).2).
    rewrite (failure_low _ _ _ a) by (done || lia).
    destruct (IH t' (cache_set (ATTEMPTS_KEY email) (CStr (num_str (Some (a + 1)))) ATTEMPTS_TTL t c)
                (a + 1) now) as [H1 H2]; [lia|lia| |done|].
    + rewrite cache_get_set by (done || lia). rewrite (proj2 (Z.ltb_lt _ _)) by lia.
      by rewrite counter_str by lia.
    + split; [rewrite H1; f_equal; lia|]. intros k now' Hk. rewrite H2 by done. by apply cache_get_set_ne.
Qed.

Lemma duration_ladder n : 0 <= n ->
  exists d, duration (n + 1) = Some d
    /\ d = (if n =? 0 then 900 else if n =? 1 then 1800 else if n =? 2 then 3600 else 86400).
Proof.
  intros Hn. unfold duration. rewrite (proj2 (Z.ltb_ge _ _)) by lia. replace (n + 1 - 1) with n by lia.
  destruct (decide (n = 0)) as [->|]; [by eexists|]. destruct (decide (n = 1)) as [->|]; [by eexists|].
  destruct (decide (n = 2)) as [->|]; [by eexists|].
  rewrite !(proj2 (Z.eqb_neq _ _)) by done. rewrite Z.min_r by lia. by eexists.
Qed.

(** The fifth failure. *)
Lemma failure_locks email t c n d :
  counter (cache_get (ATTEMPTS_KEY email) t c) = Some 4 ->
  counter (cache_get (COUNT_KEY email) t c) = Some n -> duration (n + 1) = Some d ->
  run (recordFailedAttempt email t) c =
  (Ok {| isLocked := true; attemptsRemaining := Some 0; lockedUntil := Some (Some (t + d * 1000));
         lockCount := Some (n + 1) |},
   cache_del (ATTEMPTS_KEY email)
     (cache_set (COUNT_KEY email) (CStr (num_str (Some (n + 1)))) COUNT_TTL t
       (cache_set (LOCKED_KEY email) (CStr (toISOString (t + d * 1000))) (d * 1000) t
         (cache_set (ATTEMPTS_KEY email) (CStr (num_str (Some 5))) ATTEMPTS_TTL t c)))).
Proof.
  intros Ha Hn Hd. unfold recordFailedAttempt, get_counter. run_simp. rewrite Ha.
  cbn [fmap option_fmap option_map from_option]. change (MAX_ATTEMPTS <=? 4 + 1) with true.
  cbv iota. unfold lock, get_counter. run_simp.
  destruct (lockout_keys email email) as (H1 & H2 & H3 & _).
  rewrite cache_get_set_ne, Hn by done. cbn [fmap option_fmap option_map mbind option_bind].
  rewrite Hd. by run_simp.
Qed.

(** ** Properties *)

(** Five failures, each within half an hour of the one before, lock an account
    that had none: not before the fifth, from the fifth on for 15 minutes, 30
    minutes, an hour or a day by the number of locks of the last week, and no
    longer; the account then has all its attempts back, and no other account
    notices. *)
Theorem five_failures_lock email t1 t2 t3 t4 t5 n c :
  Forall2 (fun t t' => t <= t' < t + ATTEMPTS_TTL) [t1; t2; t3; t4] [t2; t3; t4; t5] ->
  counter (cache_get (ATTEMPTS_KEY email) t1 c) = Some 0 ->
  counter (cache_get (COUNT_KEY email) t5 c) = Some n -> 0 <= n ->
  let d := if n =? 0 then 900 else if n =? 1 then 1800 else if n =? 2 then 3600 else 86400 in
  let c4 := failures email [t1; t2; t3; t4] c in
  let c5 := failures email [t1; t2; t3; t4; t5] c in
  (forall ts k now, ts = take k [t1; t2; t3; t4] ->
     cache_get (LOCKED_KEY email) now (failures email ts c) = cache_get (LOCKED_KEY email) now c)
  /\ (run (recordFailedAttempt email t5) c4).1
     = Ok {| isLocked := true; attemptsRemaining := Some 0; lockedUntil := Some (Some (t5 + d * 1000));
             lockCount := Some (n + 1) |}
  /\ (forall now, t5 <= now -> exists s, status_at email now c5 = Ok s
       /\ isLocked s = (now <? t5 + d * 1000)
       /\ attemptsRemaining s = Some (if now <? t5 + d * 1000 then 0 else 5))
  /\ (forall e now, e <> email -> status_at e now c5 = status_at e now c).
Proof.
  intros Hb Ha Hn Hpos d c4 c5.
  destruct (lockout_keys email email) as (HAL & HAC & HLC & _).
  destruct (duration_ladder n Hpos) as (d' & Hd & Hd'). assert (d = d') as Hdd by done. clearbody d. subst d. clear Hd'.
  assert (0 < d' * 1000) as Hdpos.
  { unfold duration in Hd. case_match; [done|]. apply list_elem_of_lookup_2 in Hd. set_unfold in Hd. lia. }
  destruct (failures_accumulate email [t2; t3; t4] t1 c 0 t5) as [H4 Hframe]; [done..|].
  fold c4 in H4, Hframe.
  assert (counter (cache_get (COUNT_KEY email) t5 c4) = Some n) as Hn4 by (by rewrite Hframe).
  pose proof (failure_locks email t5 c4 n d' H4 Hn4 Hd) as Hlock.
  assert (c5 = (run (recordFailedAttempt email t5) c4).2) as Hc5 by done.
  rewrite Hlock in Hc5. cbn [snd] in Hc5. split_and!.
  - intros ts k now ->. rewrite !Forall2_cons in Hb. destruct Hb as (B1 & B2 & B3 & B4 & _).
    destruct k as [|[|[|[|k]]]]; cbn [take]; [done|..].
    + apply (failures_accumulate email [] t1 c 0 t2);
        [done..|repeat (apply Forall2_cons; split; [done|]); apply Forall2_nil_2|done].
    + apply (failures_accumulate email [t2] t1 c 0 t3);
        [done..|repeat (apply Forall2_cons; split; [done|]); apply Forall2_nil_2|done].
    + apply (failures_accumulate email [t2; t3] t1 c 0 t4);
        [done..|repeat (apply Forall2_cons; split; [done|]); apply Forall2_nil_2|done].
    + rewrite take_nil. by apply Hframe.
  - by rewrite Hlock.
  - intros now Hnow. unfold status_at, getStatus, get_counter. run_simp. rewrite Hc5.
    rewrite cache_get_del_ne, cache_get_set_ne, cache_get_set by done.
    destruct (now <? t5 + d' * 1000); cbn [from_option]; [rewrite iso_truthy; run_simp; eauto|].
    run_simp. rewrite cache_get_del. eexists. split; [done|]. done.
  - intros e now Hne. destruct (lockout_keys email e) as (K1 & K2 & K3 & K4).
    destruct (lockout_keys e email) as (L1 & L2 & L3 & _). destruct (K4 ltac:(done)) as (M1 & M2 & M3).
    unfold status_at, getStatus, get_counter. run_simp. rewrite Hc5.
    assert (forall k, k <> ATTEMPTS_KEY email -> k <> LOCKED_KEY email -> k <> COUNT_KEY email ->
      cache_get k now (cache_del (ATTEMPTS_KEY email) (cache_set (COUNT_KEY email)
        (CStr (num_str (Some (n + 1)))) COUNT_TTL t5 (cache_set (LOCKED_KEY email)
        (CStr (toISOString (t5 + d' * 1000))) (d' * 1000) t5 (cache_set (ATTEMPTS_KEY email)
        (CStr (num_str (Some 5))) ATTEMPTS_TTL t5 c4)))) = cache_get k now c) as Hf.
    { intros k N1 N2 N3. rewrite cache_get_del_ne, !cache_get_set_ne by done. by apply Hframe. }
    rewrite !Hf by done. by case_match; run_simp; rewrite ?Hf.
Qed.

End service.

(** ** Witnesses and a race *)

(** Failures that interleave are counted once: five wrong passwords whose
    requests all read the counter before any of them writes it leave the account
    unlocked, with four attempts. *)
Definition ex_race : map_cache * gmap positive (prog map_cache cache_error LockoutStatus) :=
  run_schedule [1; 2; 3; 4; 5; 1; 2; 3; 4; 5; 1; 2; 3; 4; 5]%positive
    (∅, list_to_map ((fun t => (t, recordFailedAttempt "a@b.c" 1000)) <$> [1; 2; 3; 4; 5]%positive)).
Theorem concurrent_failures_counted_once :
  map (fun t => match ex_race.2 !! t with Some (Ret s) => attemptsRemaining s | _ => None end)
    [1; 2; 3; 4; 5]%positive = [Some 4; Some 4; Some 4; Some 4; Some 4]
  /\ (run (getStatus "a@b.c" 1001) ex_race.1).1
     = Ok {| isLocked := false; attemptsRemaining := Some 4; lockedUntil := None; lockCount := Some 0 |}.
Proof. split; vm_compute; reflexivity. Qed.

Lemma five_failures_lock_witness :
  (run (recordFailedAttempt "a@b.c" 50) (failures "a@b.c" [10; 20; 30; 40] (∅ : map_cache))).1
  = Ok {| isLocked := true; attemptsRemaining := Some 0; lockedUntil := Some (Some 900050);
          lockCount := Some 1 |}.
Proof.
  refine (proj1 (proj2 (five_failures_lock "a@b.c" 10 20 30 40 50 0 (∅ : map_cache) _ _ _ _)));
    [|reflexivity|reflexivity|done].
  repeat constructor; vm_compute; congruence.
Defined.
