(* ===== verification/InvocationPolicy.v ===== *)
(** * Who may have the server sign a contract call

    [src/xconfess-backend/src/stellar/stellar-invocation-policy.ts] and the guard
    of [POST /stellar/invoke-contract]
    ([stellar/guards/stellar-invoke-contract.guard.ts]).  The guard's audit log is
    the world; it runs before the body is validated, so the operation is any
    string, the names of [Object.prototype] included. *)
From S2P Require Import Prelude Effects.

Definition STELLAR_INVOKE_SCOPE_LEGACY : string := "stellar:invoke-contract".
Definition STELLAR_INVOKE_SCOPE_WILDCARD : string := "stellar:invoke-contract:*".

(** [src stellar/stellar-invocation-policy.ts:10-16 StellarInvocationPolicyDefinition] *)
Record PolicyDefinition := {
  allowlistClass : string;
  contractName : string;
  functionName : string;
  allowedScopes : list string;
  issuedAdminScopes : list string;
}.

(** [src stellar/stellar-invocation-policy.ts:18-34 STELLAR_INVOCATION_POLICY_DEFINITIONS] *)
Definition STELLAR_INVOCATION_POLICY_DEFINITIONS : list (string * PolicyDefinition) :=
  [("anchor_confession", {|
      allowlistClass := "anchoring"; contractName := "confessionAnchor";
      functionName := "anchor_confession";
      allowedScopes := [STELLAR_INVOKE_SCOPE_WILDCARD; "stellar:invoke-contract:anchoring";
                        "stellar:invoke-contract:anchor_confession"; STELLAR_INVOKE_SCOPE_LEGACY];
      issuedAdminScopes := ["stellar:invoke-contract:anchoring";
                            "stellar:invoke-contract:anchor_confession"] |})].

(** [src stellar/stellar-invocation-policy.ts:44-48 STELLAR_INVOKE_ALLOWED_OPERATIONS] *)
Definition STELLAR_INVOKE_ALLOWED_OPERATIONS : list string := map fst STELLAR_INVOCATION_POLICY_DEFINITIONS.

(** The truthy properties an object literal inherits from [Object.prototype]. *)
Definition inherited_keys : list string :=
  ["constructor"; "__defineGetter__"; "__defineSetter__"; "hasOwnProperty"; "__lookupGetter__";
   "__lookupSetter__"; "isPrototypeOf"; "propertyIsEnumerable"; "toString"; "valueOf";
   "__proto__"; "toLocaleString"].

(** A policy: a definition of the table, or an inherited property spread into an
    object that has none of a definition's fields. *)
Inductive policy := Defined (operation : string) (d : PolicyDefinition) | Inherited (operation : string).

(** [src stellar/stellar-invocation-policy.ts:50-70 getStellarInvocationPolicy] *)
Definition getStellarInvocationPolicy (operation : option string) : option policy :=
  match operation with
  | Some op =>
      if truthy op then
        match List.find (fun kd => str_eqb kd.1 op) STELLAR_INVOCATION_POLICY_DEFINITIONS with
        | Some (_, d) => Some (Defined op d)
        | None => if includes op inherited_keys then Some (Inherited op) else None
        end
      else None
  | None => None
  end.

Definition any_scope (scope : string) : bool :=
  str_eqb scope STELLAR_INVOKE_SCOPE_LEGACY || str_eqb scope STELLAR_INVOKE_SCOPE_WILDCARD
  || starts_with (STELLAR_INVOKE_SCOPE_LEGACY +:+ ":") scope.

(** [src stellar/stellar-invocation-policy.ts:72-85 hasAnyStellarInvocationScope] *)
Definition hasAnyStellarInvocationScope (scopes : list string) : bool := existsb any_scope scopes.

Inductive guard_error := Forbidden (message : string) | TypeError.

(** [src stellar/stellar-invocation-policy.ts:87-108 getMatchingStellarInvocationScope]:
    an inherited policy has no [allowedScopes] to search. *)
Definition getMatchingStellarInvocationScope (operation : option string) (scopes : list string)
    : outcome guard_error (option string) :=
  if (length scopes =? 0)%nat then Ok None
  else match getStellarInvocationPolicy operation with
       | Some (Defined _ d) => Ok (List.find (fun scope => includes scope scopes) (allowedScopes d))
       | Some (Inherited _) => Exn TypeError
       | None => Ok (List.find any_scope scopes)
       end.

(** [src stellar/stellar-invocation-policy.ts:110-120 getDefaultAdminStellarInvocationScopes]:
    the values of a [Set], in insertion order. *)
Definition getDefaultAdminStellarInvocationScopes : list string :=
  fold_left (fun acc scope => if includes scope acc then acc else acc ++ [scope])
    (concat (map (fun kd => issuedAdminScopes kd.2) STELLAR_INVOCATION_POLICY_DEFINITIONS)) [].

(** ** The guard *)
Record GuardUser := { gu_id : Z; gu_role : string; gu_scopes : option (list string) }.
Record GuardRequest := { gr_user : option GuardUser; gr_operation : option string }.
Record Denial := { dn_operation : option string; dn_reason : string; dn_user : option Z }.

Definition audit (req : GuardRequest) (reason : string) : prog (list Denial) guard_error unit :=
  writes (fun log => log ++ [{| dn_operation := gr_operation req; dn_reason := reason;
                                dn_user := gu_id <$> gr_user req |}]).
Definition policy_operation (p : policy) : string :=
  match p with Defined op _ => op | Inherited op => op end.

(** [src stellar/guards/stellar-invoke-contract.guard.ts:40-106 canActivate]; the
    result is the scope that let the request through. *)
Definition canActivate (req : GuardRequest) : prog (list Denial) guard_error (option string) :=
  let scopes := default [] (gr_user req ≫= gu_scopes) in
  let pol := getStellarInvocationPolicy (gr_operation req) in
  let* matchedScope := of_outcome (getMatchingStellarInvocationScope (gr_operation req) scopes) in
  match gr_user req with
  | None => Throw (Forbidden "User is not authenticated")
  | Some user =>
      if negb (str_eqb (to_lower (gu_role user)) "admin") then
        do* audit req "admin_role_required" in
        Throw (Forbidden "Only admins can access this endpoint")
      else
      match pol with
      | Some p =>
          if truthy_opt matchedScope then Ret matchedScope
          else
            do* audit req "operation_scope_denied" in
            Throw (Forbidden ("Missing required Stellar scope for operation: " +:+ policy_operation p))
      | None =>
          if hasAnyStellarInvocationScope scopes then Ret matchedScope
          else
            do* audit req "scope_required" in
            Throw (Forbidden "Missing required Stellar contract invocation scope")
      end
  end.

(** ** Lemmas *)
Lemma find_scope_Some (f : string -> bool) l s :
  List.find f l = Some s -> s ∈ l /\ f s = true.
Proof. intros [? ?]%List.find_some. by rewrite list_elem_of_In. Qed.

Lemma anchor_policy :
  exists d, getStellarInvocationPolicy (Some "anchor_confession") = Some (Defined "anchor_confession" d)
    /\ allowedScopes d = [STELLAR_INVOKE_SCOPE_WILDCARD; "stellar:invoke-contract:anchoring";
                          "stellar:invoke-contract:anchor_confession"; STELLAR_INVOKE_SCOPE_LEGACY].
Proof. by eexists. Qed.

(** ** Properties *)

(** The guard lets an anchoring request through exactly when its user is an admin
    and holds one of the four scopes of the operation; the scope it records is
    one of these and one the user holds, and every denial of an authenticated
    user leaves one audit entry. *)
Theorem anchor_guard_exact u log :
  let req := {| gr_user := Some u; gr_operation := Some "anchor_confession" |} in
  let allowed := [STELLAR_INVOKE_SCOPE_WILDCARD; "stellar:invoke-contract:anchoring";
                  "stellar:invoke-contract:anchor_confession"; STELLAR_INVOKE_SCOPE_LEGACY] in
  let held := default [] (gu_scopes u) in
  (to_lower (gu_role u) = "admin" /\ (exists s, s ∈ allowed /\ s ∈ held)
     /\ exists s, run (canActivate req) log = (Ok (Some s), log) /\ s ∈ allowed /\ s ∈ held)
  \/ (~ (to_lower (gu_role u) = "admin" /\ exists s, s ∈ allowed /\ s ∈ held)
      /\ exists m d, run (canActivate req) log = (Exn (Forbidden m), log ++ [d])
         /\ dn_user d = Some (gu_id u) /\ dn_operation d = Some "anchor_confession").
Proof.
  intros req allowed held. destruct anchor_policy as (d & Hp & Hd).
  assert (exists m, getMatchingStellarInvocationScope (Some "anchor_confession") held = Ok m
            /\ (forall s, m = Some s -> s ∈ allowed /\ s ∈ held)
            /\ (m = None -> forall s, s ∈ allowed -> s ∉ held)) as (m & Hm & Hsome & Hnone).
  { unfold getMatchingStellarInvocationScope. destruct held as [|x xs] eqn:Hh; cbn [length Nat.eqb].
    - exists None. split_and!; [done|done|set_solver].
    - rewrite Hp, Hd. fold allowed. eexists. split; [done|]. split.
      + intros s Hs. apply find_scope_Some in Hs as [Hs Hi]. by apply includes_spec in Hi.
      + intros Hn s Hs Hin. pose proof (List.find_none _ _ Hn s) as Hf.
        rewrite <- list_elem_of_In in Hf. apply includes_spec in Hin. rewrite Hf in Hin; done. }
  unfold canActivate. cbn [gr_user gr_operation mbind option_bind req]. fold held. run_simp. rewrite Hm, Hp.
  destruct (str_eqb_spec (to_lower (gu_role u)) "admin") as [Ha|Ha]; cbn [negb].
  - destruct m as [s|].
    + destruct (Hsome s eq_refl) as [H1 H2]. left.
      assert (truthy_opt (Some s) = true) as -> by (unfold allowed in H1; set_unfold in H1;
        destruct_or! H1; subst; reflexivity).
      run_simp. eauto 10.
    + right. split; [intros (_ & s & ? & ?); by eapply Hnone|]. cbn [truthy_opt from_option].
      run_simp. eauto.
  - right. split; [naive_solver|]. run_simp. eauto.
Qed.

(** Nobody but an authenticated admin passes, whatever the operation: unknown
    operations need some invocation scope, and the names inherited from
    [Object.prototype] pass for nobody who holds a scope. *)
Theorem guard_admins_only req s log log' :
  run (canActivate req) log = (Ok s, log') ->
  log' = log /\ exists u, gr_user req = Some u /\ to_lower (gu_role u) = "admin"
    /\ hasAnyStellarInvocationScope (default [] (gu_scopes u)) = true
    /\ (forall op, gr_operation req = Some op -> op ∉ inherited_keys).
Proof.
  unfold canActivate. run_simp. set (scopes := default [] (gr_user req ≫= gu_scopes)).
  destruct (getMatchingStellarInvocationScope (gr_operation req) scopes) as [m|e] eqn:Hm; [|done].
  destruct (gr_user req) as [u|] eqn:Hu; [|done]. cbn [mbind option_bind] in scopes. subst scopes.
  destruct (str_eqb_spec (to_lower (gu_role u)) "admin") as [Ha|Ha]; cbn [negb]; [|run_simp; done].
  set (scopes := default [] (gu_scopes u)) in *.
  assert (forall p, getStellarInvocationPolicy (gr_operation req) = Some p -> truthy_opt m = true ->
            hasAnyStellarInvocationScope scopes = true
            /\ forall op, gr_operation req = Some op -> op ∉ inherited_keys) as Hpol.
  { intros p Hp Ht. unfold getMatchingStellarInvocationScope in Hm. rewrite Hp in Hm.
    destruct scopes as [|x xs] eqn:Hs; cbn [length Nat.eqb] in Hm; [by simplify_eq|].
    destruct p as [op d|op]; [|done]. simplify_eq.
    destruct (List.find _ _) as [y|] eqn:Hf; [|done]. apply find_scope_Some in Hf as [Hy Hi].
    cbv beta in Hi. apply (includes_spec y (x :: xs)) in Hi.
    unfold getStellarInvocationPolicy in Hp. destruct (gr_operation req) as [o|]; [|done].
    destruct (truthy o); [|done]. destruct (List.find _ _) as [[k d']|] eqn:Hk; [|by case_match].
    apply List.find_some in Hk as [Hin Heq]. cbn in Hin, Heq. boolp. subst. destruct Hin as [[= <- <-]|[]].
    simplify_eq. split.
    - apply existsb_exists. exists y. rewrite <- list_elem_of_In. split; [done|].
      cbn in Hy. set_unfold in Hy. destruct_or! Hy; subst; reflexivity.
    - intros ? [= <-]. vm_compute. intros Hin. set_unfold in Hin. by destruct_or! Hin. }
  destruct (getStellarInvocationPolicy (gr_operation req)) as [p|] eqn:Hp.
  - destruct (truthy_opt m) eqn:Ht; run_simp; [|done]. intros [= <- <-]. split; [done|].
    exists u. destruct (Hpol p eq_refl eq_refl) as [? ?]. done.
  - destruct (hasAnyStellarInvocationScope scopes) eqn:Hany; run_simp; [|done]. intros [= <- <-].
    split; [done|]. exists u. split_and!; [done..|]. intros op Hop Hin. rewrite Hop in Hp. unfold getStellarInvocationPolicy in Hp.
    destruct (truthy op) eqn:Ht; [|apply negb_false_iff, str_eqb_eq in Ht; subst op;
      vm_compute in Hin; set_unfold in Hin; by destruct_or! Hin].
    destruct (List.find _ _) as [[]|]; [done|]. apply includes_spec in Hin. by rewrite Hin in Hp.
Qed.
Lemma guard_admins_only_witness :
  ([] : list Denial) = [] /\ exists u : GuardUser,
    Some {| gu_id := 1; gu_role := "admin"; gu_scopes := Some getDefaultAdminStellarInvocationScopes |} = Some u
    /\ to_lower (gu_role u) = "admin"
    /\ hasAnyStellarInvocationScope (default [] (gu_scopes u)) = true
    /\ (forall op, Some "anchor_confession" = Some op -> op ∉ inherited_keys).
Proof.
  refine (guard_admins_only
    {| gr_user := Some {| gu_id := 1; gu_role := "admin"; gu_scopes := Some getDefaultAdminStellarInvocationScopes |};
       gr_operation := Some "anchor_confession" |} (Some "stellar:invoke-contract:anchoring") [] [] _).
  vm_compute. reflexivity.
Defined.
