(* ===== verification/RateLimit.v ===== *)
(** * The rate-limit guard

    [src/xconfess-backend/src/auth/guard/rate-limit.guard.ts] with its decorator
    and configuration: fixed windows per sender and route, and per pair of sender
    and recipient, in an in-memory map.  The guard is synchronous after its first
    line, so requests are events of a list; a sweep deletes expired entries. *)
From S2P Require Import Prelude.
From Stdlib Require Import Sorting.Sorted.
Open Scope Z_scope.

(** [src config/rate-limit.config.ts:4-13 RateLimitConfig] *)
Record RateLimitConfig := {
  postLimit : Z; postWindow : Z;
  getLimit : Z; getWindow : Z;
  messageSendLimit : Z; messageSendWindow : Z;
  messagePairLimit : Z; messagePairWindow : Z;
}.
(** [src config/rate-limit.config.ts:15-38 getRateLimitConfig]: the defaults. *)
Definition default_config : RateLimitConfig := {|
  postLimit := 5; postWindow := 60; getLimit := 50; getWindow := 60; messageSendLimit := 10;
  messageSendWindow := 60; messagePairLimit := 3; messagePairWindow := 60 |}.

(** [src auth/guard/rate-limit.decorator.ts:5-10 RateLimitOptions] *)
Record RateLimitOptions := {
  limit : Z; window : Z; pairLimit : option Z; pairWindow : option Z }.

(** [src auth/guard/rate-limit.guard.ts:15-18 RateLimitEntry] *)
Record RateLimitEntry := { count : Z; resetTime : ms }.
Abbreviation store := (gmap string RateLimitEntry).

(** What the guard reads of a request; the candidates for the recipient are the
    five fields of body and params, in order. *)
Record Request := {
  rq_method : string;
  rq_user_sub : option string; rq_user_id : option string;
  x_forwarded_for : option string; x_real_ip : option string;
  rq_ip : option string; remoteAddress : option string;
  rq_handler : option string;
  rq_recipients : list (option string);
}.

(** 429, with the seconds to wait. *)
Inductive rl_error := TooManyRequests (retryAfter limit : Z).

(** [a || b || ... ]: the first truthy string. *)
Definition first_truthy (l : list (option string)) : option string :=
  match List.find truthy_opt l with Some (Some s) => Some s | _ => None end.

(** [src auth/guard/rate-limit.guard.ts:116-124 getClientId] *)
Definition getClientId (r : Request) : string :=
  default "unknown" (first_truthy
    [x_forwarded_for r ≫= (fun h => head (split_on ","%char h)); x_real_ip r; rq_ip r; remoteAddress r]).

Definition senderId (r : Request) : string :=
  match first_truthy [rq_user_sub r; rq_user_id r] with
  | Some u => "user:" +:+ u
  | None => "ip:" +:+ getClientId r
  end.
Definition method (r : Request) : string := to_upper (rq_method r).
Definition sender_key (r : Request) : string :=
  senderId r +:+ ":" +:+ method r +:+ ":" +:+ default "default" (first_truthy [rq_handler r]).
Definition pair_key (r : Request) (recipient : string) : string :=
  "pair:" +:+ senderId r +:+ ":" +:+ recipient.

(** [src auth/guard/rate-limit.guard.ts:126-146 getRateLimitForMethod] *)
Definition getRateLimitForMethod (cfg : RateLimitConfig) (m : string) : Z * Z :=
  if includes m ["POST"; "PUT"; "PATCH"; "DELETE"] then (postLimit cfg, postWindow cfg)
  else (getLimit cfg, getWindow cfg).

(** [Math.ceil(x / 1000)]. *)
Definition ceil_seconds (x : ms) : Z := - (- x / 1000).

(** [src auth/guard/rate-limit.guard.ts:81-114 checkAndIncrement] *)
Definition checkAndIncrement (key : string) (lim win : Z) (now : ms) (st : store) : option rl_error * store :=
  match st !! key with
  | Some entry =>
      if resetTime entry <? now then (None, <[key := {| count := 1; resetTime := now + win * 1000 |}]> st)
      else if lim <=? count entry
      then (Some (TooManyRequests (ceil_seconds (resetTime entry - now)) lim), st)
      else (None, <[key := {| count := count entry + 1; resetTime := resetTime entry |}]> st)
  | None => (None, <[key := {| count := 1; resetTime := now + win * 1000 |}]> st)
  end.

Definition limits (cfg : RateLimitConfig) (custom : option RateLimitOptions) (r : Request) : Z * Z :=
  match custom with
  | Some o => (limit o, window o)
  | None => getRateLimitForMethod cfg (method r)
  end.

(** [src auth/guard/rate-limit.guard.ts:34-79 canActivate] *)
Definition canActivate (cfg : RateLimitConfig) (custom : option RateLimitOptions) (r : Request) (now : ms)
    (st : store) : option rl_error * store :=
  let '(lim, win) := limits cfg custom r in
  match checkAndIncrement (sender_key r) lim win now st with
  | (Some e, st') => (Some e, st')
  | (None, st') =>
      match first_truthy (rq_recipients r) with
      | Some recipient =>
          let pl := default (messagePairLimit cfg) (custom ≫= pairLimit) in
          let pw := default (messagePairWindow cfg) (custom ≫= pairWindow) in
          if bool_decide (custom ≫= pairLimit <> None) || str_eqb (method r) "POST"
          then checkAndIncrement (pair_key r recipient) pl pw now st'
          else (None, st')
      | None => (None, st')
      end
  end.

(** [src auth/guard/rate-limit.guard.ts:148-155 cleanup] *)
Definition cleanup (now : ms) (st : store) : store :=
  filter (fun kv => ~ resetTime kv.2 < now) st.

(** ** Runs *)

(** What happens to the guard: a request on a route with its decorator, or the
    sweep of the timer. *)
Inductive event := Req (custom : option RateLimitOptions) (r : Request) | Sweep.

(** The requests the guard lets through, and the store; [admitted] are the times
    at which requests of sender key [k] passed. *)
Fixpoint guard_run (cfg : RateLimitConfig) (k : string) (evs : list (ms * event)) (st : store) : list ms * store :=
  match evs with
  | [] => ([], st)
  | (now, Sweep) :: evs' => guard_run cfg k evs' (cleanup now st)
  | (now, Req custom r) :: evs' =>
      let '(err, st') := canActivate cfg custom r now st in
      let '(adm, st'') := guard_run cfg k evs' st' in
      (match err with
       | None => if str_eqb (sender_key r) k then now :: adm else adm
       | Some _ => adm
       end, st'')
  end.

(** ** Fixed windows *)

(** How many of the times [l] are at or after [a], and within [W] of it. *)
Definition since (a : ms) (l : list ms) : nat := length (List.filter (fun x => a <=? x) l).
Definition within (W a : ms) (l : list ms) : nat :=
  length (List.filter (fun x => (a <=? x) && (x <? a + W)) l).

Lemma since_app a l l' : since a (l ++ l') = (since a l + since a l')%nat.
Proof. unfold since. by rewrite List.filter_app, length_app. Qed.

Lemma within_app W a l l' : within W a (l ++ l') = (within W a l + within W a l')%nat.
Proof. unfold within. by rewrite List.filter_app, length_app. Qed.

Lemma within_since W a l : (within W a l <= since a l)%nat.
Proof. apply filter_length_mono. intros x _ Hx. by apply andb_true_iff in Hx as [? _]. Qed.

Lemma since_length a l : (since a l <= length l)%nat.
Proof. apply filter_length_le. Qed.

Lemma since_0 a l : (forall x, x ∈ l -> x < a) -> since a l = 0%nat.
Proof.
  intros H. unfold since. induction l as [|x l IH]; cbn; [done|].
  rewrite (proj2 (Z.leb_gt _ _)) by (apply H; set_solver). apply IH. set_solver.
Qed.

Lemma within_1 W a x : (within W a [x] <= 1)%nat /\ (within W a [x] = 1%nat -> a <= x < a + W).
Proof.
  unfold within. cbn. destruct (Z.leb_spec a x), (Z.ltb_spec x (a + W)); cbn; split; (lia || done).
Qed.

Section bound.
Context (L : nat) (W : ms) (HL : (0 < L)%nat) (HW : 0 <= W).

(** No more than [L] passes within [W] before [now], whatever is to come. *)
Definition quiet (now : ms) (passed : list ms) : Prop :=
  forall a, now - W <= a -> (since a passed <= L)%nat.

(** The passes so far and the entry of their key: a live entry counts the passes
    of its window, and the window before it had at most [L] as well. *)
Definition window_ok (now : ms) (passed : list ms) (e : option RateLimitEntry) : Prop :=
  (forall x, x ∈ passed -> x <= now) /\ (forall a, (within W a passed <= 2 * L)%nat) /\
  match e with
  | Some {| count := c; resetTime := r |} =>
      if r <? now then quiet now passed
      else exists old cur, passed = old ++ cur /\ Z.of_nat (length cur) = c /\ (length cur <= L)%nat
             /\ r - W <= now /\ (forall x, x ∈ old -> x <= r - W)
             /\ (forall a, r - W - W <= a -> (since a old <= L)%nat)
  | None => quiet now passed
  end.

Lemma quiet_mono now now' passed : now <= now' -> quiet now passed -> quiet now' passed.
Proof. clear HL HW. intros Hle Hq a Ha. apply Hq. lia. Qed.

Lemma window_mono now now' passed e : now <= now' -> window_ok now passed e -> window_ok now' passed e.
Proof.
  clear HL HW. intros Hle (Hnow & Hw & He). split; [intros x Hx; specialize (Hnow x Hx); lia|split; [done|]].
  destruct e as [[c r]|]; [|by eapply quiet_mono].
  destruct (Z.ltb_spec r now) as [Hr|Hr].
  - rewrite (proj2 (Z.ltb_lt _ _)) by lia. by eapply quiet_mono.
  - destruct He as (old & cur & -> & Hc & Hlen & Hs & Hold & Hprev).
    destruct (Z.ltb_spec r now') as [Hr'|Hr']; [|exists old, cur; split_and!; (done || lia)].
    intros a Ha. rewrite since_app, since_0 by (intros x Hx; specialize (Hold x Hx); lia).
    pose proof (since_length a cur). lia.
Qed.

(** A new window starts. *)
Lemma window_open now passed :
  (forall x, x ∈ passed -> x <= now) -> (forall a, (within W a passed <= 2 * L)%nat) -> quiet now passed ->
  window_ok now (passed ++ [now]) (Some {| count := 1; resetTime := now + W |}).
Proof using HL HW.
  intros Hnow Hw Hq. split_and!.
  - intros x [Hx|Hx]%elem_of_app; [auto|]. apply list_elem_of_singleton in Hx. lia.
  - intros a. rewrite within_app. destruct (within_1 W a now) as [H1 H2]. specialize (Hw a).
    destruct (within W a [now]) as [|[|n]]; [lia| |lia]. specialize (H2 eq_refl).
    pose proof (within_since W a passed). specialize (Hq a ltac:(lia)). lia.
  - rewrite (proj2 (Z.ltb_ge _ _)) by lia. exists passed, [now]. cbn. split_and!; [done|done|lia|lia| |].
    + intros x Hx. specialize (Hnow x Hx). lia.
    + intros a Ha. apply Hq. lia.
Qed.

Lemma check_pass key lim now passed st st' err :
  lim = Z.of_nat L ->
  window_ok now passed (st !! key) ->
  checkAndIncrement key lim (W / 1000) now st = (err, st') -> W = W / 1000 * 1000 ->
  window_ok now (match err with None => passed ++ [now] | Some _ => passed end) (st' !! key).
Proof using HL HW.
  intros -> Hok. unfold checkAndIncrement. intros Hc HW'. pose proof Hok as (Hnow & Hw & He).
  destruct (st !! key) as [[c r]|] eqn:Hk.
  2: { simplify_eq. rewrite lookup_insert_eq, <- HW'. by apply window_open. }
  cbn [resetTime count] in *. destruct (r <? now) eqn:Hr.
  { simplify_eq. rewrite lookup_insert_eq, <- HW'. by apply window_open. }
  destruct (Z.leb_spec (Z.of_nat L) c) as [Hc'|Hc']; simplify_eq; [by rewrite Hk|].
  destruct He as (old & cur & -> & Hlen & Hle & Hs & Hold & Hprev). rewrite lookup_insert_eq. split_and!.
  - intros x [Hx|Hx]%elem_of_app; [auto|]. apply list_elem_of_singleton in Hx. lia.
  - intros a. rewrite within_app. destruct (within_1 W a now) as [H1 H2]. pose proof (Hw a).
    destruct (within W a [now]) as [|[|n]]; [lia| |lia]. specialize (H2 eq_refl).
    pose proof (within_since W a (old ++ cur)) as Hws. rewrite since_app in Hws.
    pose proof (since_length a cur). specialize (Hprev a ltac:(lia)). lia.
  - rewrite Hr. exists old, (cur ++ [now]). rewrite length_app, app_assoc. cbn. split_and!; (done || lia).
Qed.
End bound.

Lemma check_frame key key' lim win now st :
  key <> key' -> (checkAndIncrement key lim win now st).2 !! key' = st !! key'.
Proof.
  intros Hne. unfold checkAndIncrement.
  destruct (st !! key) as [e|]; [destruct (resetTime e <? now); [|destruct (lim <=? count e)]|];
    cbn; by rewrite ?lookup_insert_ne.
Qed.

(** Pairs and senders never share an entry. *)
Lemma pair_sender_key r recipient r0 : pair_key r recipient <> sender_key r0.
Proof.
  unfold pair_key, sender_key, senderId. destruct (first_truthy [rq_user_sub r0; _]);
    rewrite !str_app_cons; discriminate.
Qed.

(** One request, and one sweep. *)
Lemma can_activate_step cfg custom r r0 (L : nat) W now passed st err st' :
  (0 < L)%nat -> 0 <= W ->
  (sender_key r = sender_key r0 -> limits cfg custom r = (Z.of_nat L, W)) ->
  window_ok L (W * 1000) now passed (st !! sender_key r0) ->
  canActivate cfg custom r now st = (err, st') ->
  exists p, window_ok L (W * 1000) now (passed ++ p) (st' !! sender_key r0)
    /\ (sender_key r = sender_key r0 -> err = None -> p = [now]).
Proof.
  intros HL HW Hlim Hok. unfold canActivate. destruct (limits cfg custom r) as [lim win].
  destruct (checkAndIncrement (sender_key r) lim win now st) as [e s] eqn:Hc. intros Hca.
  assert (exists p, window_ok L (W * 1000) now (passed ++ p) (s !! sender_key r0)
            /\ (sender_key r = sender_key r0 -> e = None -> p = [now])) as (p & Hp1 & Hp2).
  { destruct (decide (sender_key r = sender_key r0)) as [Heq|Hne].
    - specialize (Hlim Heq). simplify_eq. rewrite Heq in Hc.
      assert (W = W * 1000 / 1000) as HW' by (symmetry; apply Z.div_mul; done).
      rewrite HW' in Hc at 1.
      pose proof (check_pass L (W * 1000) HL ltac:(lia) _ _ _ passed _ _ _ eq_refl Hok Hc ltac:(lia)) as Hpass.
      destruct e; [exists []; by rewrite app_nil_r|by exists [now]].
    - exists []. rewrite app_nil_r. split; [|done].
      pose proof (check_frame (sender_key r) (sender_key r0) lim win now st Hne) as Hf.
      rewrite Hc in Hf. cbn in Hf. by rewrite Hf. }
  destruct e as [e|]; [simplify_eq; eauto|].
  exists p. split; [|intros Heq _; by apply Hp2].
  assert (st' !! sender_key r0 = s !! sender_key r0) as ->; [|done].
  destruct (first_truthy (rq_recipients r)) as [rc|]; [|by simplify_eq].
  destruct (bool_decide _ || _); [|by simplify_eq].
  match type of Hca with checkAndIncrement ?k ?l ?w _ _ = _ =>
    pose proof (check_frame k (sender_key r0) l w now s (pair_sender_key _ _ _)) as Hf end.
  by rewrite Hca in Hf.
Qed.

Lemma sweep_step L W now passed st k :
  window_ok L W now passed (st !! k) -> window_ok L W now passed (cleanup now st !! k).
Proof.
  unfold cleanup. rewrite map_lookup_filter. destruct (st !! k) as [[c rt]|]; [|done].
  intros Hok. cbn [mbind option_bind]. case_guard as Hr; [done|]. cbn in Hr.
  destruct Hok as (H1 & H2 & H3). rewrite (proj2 (Z.ltb_lt _ _)) in H3 by lia. by split.
Qed.

Lemma guard_run_ok cfg r0 (L : nat) W : (0 < L)%nat -> 0 <= W -> forall evs passed st now0 adm st',
  (forall now custom r, (now, Req custom r) ∈ evs -> sender_key r = sender_key r0 ->
     limits cfg custom r = (Z.of_nat L, W)) ->
  StronglySorted Z.le (now0 :: map fst evs) ->
  window_ok L (W * 1000) now0 passed (st !! sender_key r0) ->
  guard_run cfg (sender_key r0) evs st = (adm, st') ->
  exists passed', adm `sublist_of` passed' /\ forall a, (within (W * 1000) a (passed ++ passed') <= 2 * L)%nat.
Proof.
  intros HL HW. induction evs as [|[now ev] evs IH]; intros passed st now0 adm st' Hlim Hsort Hok Hrun; cbn in Hrun, Hsort.
  { simplify_eq. exists []. split; [constructor|]. rewrite app_nil_r. apply Hok. }
  apply StronglySorted_inv in Hsort as [Hsort [Hn _]%Forall_cons].
  apply (window_mono L (W * 1000) now0 now) in Hok; [|done].
  assert (forall now custom r, (now, Req custom r) ∈ evs -> sender_key r = sender_key r0 ->
            limits cfg custom r = (Z.of_nat L, W)) as Hlim' by (intros n cu x Hin; apply (Hlim n); apply elem_of_cons; by right).
  destruct ev as [custom r|].
  - destruct (canActivate cfg custom r now st) as [err st1] eqn:Hca.
    destruct (guard_run cfg (sender_key r0) evs st1) as [adm1 st2] eqn:Hg. simplify_eq.
    destruct (can_activate_step cfg custom r r0 L W now passed st err st1 HL HW) as (p & Hok1 & Hp); [|done..|].
    { apply (Hlim now). apply elem_of_cons. by left. }
    destruct (IH (passed ++ p) st1 now adm1 st') as (passed' & Hsub & Hw); [done..|].
    exists (p ++ passed'). rewrite app_assoc. split; [|done].
    destruct err as [e|]; [by apply sublist_inserts_l|].
    destruct (str_eqb_spec (sender_key r) (sender_key r0)) as [Heq|]; [|by apply sublist_inserts_l].
    rewrite (Hp Heq eq_refl). by apply sublist_skip.
  - apply (IH passed (cleanup now st) now adm st'); [done..| |done]. by apply sweep_step.
Qed.

Lemma within_sublist W a l l' : l `sublist_of` l' -> (within W a l <= within W a l')%nat.
Proof.
  unfold within. induction 1 as [|x l l' H IH|x l l' H IH]; cbn; [lia|..];
    destruct (_ && _); cbn; lia.
Qed.

(** ** Properties *)

(** C35. No sender gets more than twice the limit of a route past the guard in any
    window's length of time, wherever it starts, whatever the other senders and
    routes do and whenever the sweep runs. *)
Theorem rate_limit_bound cfg r0 (L : nat) W evs adm st' a :
  (0 < L)%nat -> 0 <= W ->
  (forall now custom r, (now, Req custom r) ∈ evs -> sender_key r = sender_key r0 ->
     limits cfg custom r = (Z.of_nat L, W)) ->
  StronglySorted Z.le (map fst evs) ->
  guard_run cfg (sender_key r0) evs ∅ = (adm, st') ->
  (within (W * 1000) a adm <= 2 * L)%nat.
Proof.
  intros HL HW Hlim Hsort Hrun.
  set (now0 := match evs with [] => 0 | ev :: _ => ev.1 end).
  assert (StronglySorted Z.le (now0 :: map fst evs)) as Hsort'.
  { destruct evs as [|ev evs]; [repeat constructor|]. constructor; [done|].
    cbn in *. apply StronglySorted_inv in Hsort as [_ Hall]. by constructor. }
  destruct (guard_run_ok cfg r0 L W HL HW evs [] ∅ now0 adm st' Hlim Hsort') as (passed & Hsub & Hw); [|done|].
  { rewrite lookup_empty. split; [set_solver|].
    unfold within, quiet, since. cbn. split; intros; lia. }
  specialize (Hw a). pose proof (within_sublist (W * 1000) a _ _ Hsub). rewrite app_nil_l in Hw. lia.
Qed.

(** A refusal keeps its word: it changes nothing, it names the limit, the key is
    refused until the announced time and, if nothing else happens to it, is let
    through after it. *)
Theorem retry_after_sound key lim win now st ra lim' st' :
  checkAndIncrement key lim win now st = (Some (TooManyRequests ra lim'), st') ->
  st' = st /\ lim' = lim /\ 0 <= ra
  /\ (forall now', now + ra * 1000 < now' -> (checkAndIncrement key lim win now' st').1 = None)
  /\ (forall now', now' <= now + (ra - 1) * 1000 -> (checkAndIncrement key lim win now' st').1 <> None).
Proof.
  unfold checkAndIncrement. destruct (st !! key) as [[c r]|] eqn:Hk; [|done]. cbn [resetTime count].
  destruct (Z.ltb_spec r now) as [|Hr]; [done|]. destruct (Z.leb_spec lim c) as [Hc|]; [|done].
  intros [= <- <- <-]. unfold ceil_seconds.
  pose proof (Z.mul_div_le (- (r - now)) 1000 ltac:(done)).
  pose proof (Z.mul_succ_div_gt (- (r - now)) 1000 ltac:(done)).
  split_and!; [done|done|lia| |]; intros now' Hnow'; rewrite Hk; cbn [resetTime count].
  - by rewrite (proj2 (Z.ltb_lt _ _)) by lia.
  - rewrite (proj2 (Z.ltb_ge _ _)) by lia. by rewrite (proj2 (Z.leb_le _ _)).
Qed.

(** ** Witnesses *)
Definition ex_req (u : string) : Request := {|
  rq_method := "post"; rq_user_sub := Some u; rq_user_id := None; x_forwarded_for := None;
  x_real_ip := None; rq_ip := Some "::1"; remoteAddress := None; rq_handler := Some "login";
  rq_recipients := [None; None; None; None; None] |}.
Definition ex_options : RateLimitOptions := {| limit := 2; window := 60; pairLimit := None; pairWindow := None |}.
(** Two requests late in one window and two at the start of the next. *)
Definition ex_events : list (ms * event) :=
  map (fun t => (t, Req (Some ex_options) (ex_req "7"))) [0; 59000; 59001; 60001; 60002; 60003]
  ++ [(60004, Sweep); (60005, Req None (ex_req "8"))].
Definition ex_passed : list ms := [0; 59000; 60001; 60002].

Lemma rate_limit_bound_witness :
  (guard_run default_config (sender_key (ex_req "7")) ex_events ∅).1 = ex_passed
  /\ (within 60000 59000 ex_passed <= 4)%nat.
Proof.
  split; [vm_compute; reflexivity|].
  apply (rate_limit_bound default_config (ex_req "7") 2 60 ex_events ex_passed
           (guard_run default_config (sender_key (ex_req "7")) ex_events ∅).2); [lia|lia| | |vm_compute; reflexivity].
  - intros now custom r Hin.
    assert (Forall (fun ev => match ev.2 with
              | Req c x => sender_key x = sender_key (ex_req "7") -> limits default_config c x = (Z.of_nat 2, 60)
              | Sweep => True
              end) ex_events) as HF.
    { unfold ex_events. cbn [map app].
      repeat apply Forall_cons_2; try apply Forall_nil_2; cbn [snd];
        first [exact I|intros Hk; first [reflexivity|vm_compute in Hk; discriminate Hk]]. }
    exact (proj1 (Forall_forall _ _) HF _ Hin).
  - cbn. repeat (constructor; [|repeat constructor; lia]). constructor.
Defined.

Lemma retry_after_sound_witness :
  (checkAndIncrement "k" 1 60 60001 {[ "k" := {| count := 1; resetTime := 60000 |} ]}).1 = None.
Proof.
  apply (retry_after_sound "k" 1 60 1000 {[ "k" := {| count := 1; resetTime := 60000 |} ]} 59 1
           {[ "k" := {| count := 1; resetTime := 60000 |} ]}); [vm_compute; reflexivity|lia].
Defined.
