(* ===== verification/JobQueue.v ===== *)
(** * Job queues

    The interface of a BullMQ queue as the services use it: a job added under an
    id is kept under that id, and adding another under an id that is taken changes
    nothing.  How long a queue keeps its jobs is not part of the interface: the
    laws speak of the jobs it holds.  A job added without an id gets a number. *)
From S2P Require Import Prelude Numbers.

Class JobQueue (D Q : Type) := {
  job_lookup : string -> Q -> option D;
  job_add : option string -> D -> Q -> Q;
  job_add_here : forall i d q, job_lookup i q = None -> job_lookup i (job_add (Some i) d q) = Some d;
  job_add_taken : forall i d d' q, job_lookup i q = Some d' -> job_add (Some i) d q = q;
  job_add_other : forall i j d q, i <> j -> job_lookup j (job_add (Some i) d q) = job_lookup j q;
  job_add_unnamed : forall j d d' q, job_lookup j q = Some d' -> job_lookup j (job_add None d q) = Some d';
  job_add_number : forall j d q, str_forall is_digit j = false -> job_lookup j (job_add None d q) = job_lookup j q;
}.

Section laws.
Context {D Q : Type} `{!JobQueue D Q}.

(** An add under an id leaves a job under it: its own, or the first. *)
Lemma job_add_lookup i d q : job_lookup i (job_add (Some i) d q) = Some (default d (job_lookup i q)).
Proof.
  destruct (job_lookup i q) as [d'|] eqn:H; cbn; [by rewrite (job_add_taken i d d' q)|by apply job_add_here].
Qed.

(** No add loses a job. *)
Lemma job_add_keeps i j d d' q : job_lookup j q = Some d' -> job_lookup j (job_add i d q) = Some d'.
Proof.
  intros H. destruct i as [i|]; [|by apply job_add_unnamed].
  destruct (decide (i = j)) as [<-|Hne]; [by rewrite job_add_lookup, H|by rewrite job_add_other].
Qed.

(** Adding a job twice under one id is adding it once. *)
Lemma job_add_twice i d d' q : job_add (Some i) d' (job_add (Some i) d q) = job_add (Some i) d q.
Proof. eapply job_add_taken, job_add_lookup. Qed.
End laws.

(** A queue in memory: the named jobs, and the others in the order they came. *)
Definition MapQueue (D : Type) : Type := gmap string D * list D.
#[local] Obligation Tactic := idtac.
#[export] Program Instance map_queue D : JobQueue D (MapQueue D) := {|
  job_lookup i q := q.1 !! i;
  job_add i d q :=
    match i with
    | Some i => match q.1 !! i with Some _ => q | None => (<[i := d]> q.1, q.2) end
    | None => (q.1, q.2 ++ [d])
    end;
|}.
Next Obligation. intros D i d q H. cbn in *. rewrite H. apply lookup_insert_eq. Qed.
Next Obligation. intros D i d d' q H. cbn in *. by rewrite H. Qed.
Next Obligation. intros D i j d q H. cbn in *. destruct (q.1 !! i); cbn; [done|]. by apply lookup_insert_ne. Qed.
Next Obligation. done. Qed.
Next Obligation. done. Qed.
