(* ===== verification/Notifications.v ===== *)
(** * Notifications: preferences, the feed and the queue

    [src/xconfess-backend/src/notifications/services/notification.service.ts]: who
    is notified over which channel, the notifications table with its unique source
    keys, and the jobs handed to the notifications queue, which keeps the promises
    of [JobQueue]. *)
From S2P Require Import Prelude Numbers Json Effects JobQueue.
From stdpp Require Import pretty.
Open Scope Z_scope.

(** ** Data *)

(** [src notifications/entities/notification-preference.entity.ts:13-68 NotificationPreference] *)
Record NotificationPreference := {
  enableInAppNotifications : bool; inAppNewMessage : bool; inAppMessageBatch : bool;
  enableEmailNotifications : bool; emailNewMessage : bool; emailMessageBatch : bool;
  emailAddress : option string;
  batchWindowMinutes : Z; batchThreshold : Z;
  enableQuietHours : bool; quietHoursStart : option string; quietHoursEnd : option string;
}.
Definition default_preference : NotificationPreference := {|
  enableInAppNotifications := true; inAppNewMessage := true; inAppMessageBatch := true;
  enableEmailNotifications := true; emailNewMessage := true; emailMessageBatch := true;
  emailAddress := None; batchWindowMinutes := 5; batchThreshold := 3;
  enableQuietHours := false; quietHoursStart := None; quietHoursEnd := None |}.

(** [src notifications/entities/notification.entity.ts:13-19 NotificationType]:
    the column's values. *)
Definition NEW_MESSAGE : string := "new_message".
Definition MESSAGE_BATCH : string := "message_batch".
Definition SYSTEM : string := "system".
Definition MENTION : string := "mention".
Definition COMMENT_REPLY : string := "comment_reply".

(** [src notifications/entities/notification.entity.ts:27-86 Notification] *)
Record Notification := {
  nf_id : string; nf_type : string; nf_userId : string; nf_title : string; nf_message : string;
  nf_metadata : option json; nf_sourceKey : option string; isRead : bool; readAt : option ms;
  nf_createdAt : ms;
}.
#[export] Instance eta_Notification : Eta Notification := fun n => {|
  nf_id := nf_id n; nf_type := nf_type n; nf_userId := nf_userId n; nf_title := nf_title n;
  nf_message := nf_message n; nf_metadata := nf_metadata n; nf_sourceKey := nf_sourceKey n;
  isRead := isRead n; readAt := readAt n; nf_createdAt := nf_createdAt n |}.

(** What a call of the service finds outside: whether the database answers its
    first query, whether background jobs are enabled, whether the queue accepts, the
    clock, as a time of day and in milliseconds, and the id a new row gets. *)
Record Env := { dbUp : bool; jobsEnabled : bool; queueUp : bool; timeOfDay : string; clockNow : ms; newId : string }.

Inductive notif_error :=
| NotFound (message : string) | UniqueViolation | ValueTooLong | EmptyCriteria | DatabaseDown | QueueDown.

Section service.
Context {Q : Type} `{!JobQueue json Q} (sha256 : string -> string).

Record NotifDB := {
  prefs : gmap string NotificationPreference;
  user_prefs : gmap string json;
  notifs : gmap string Notification;
  queue : Q;
}.
#[export] Instance eta_NotifDB : Eta NotifDB := fun w =>
  {| prefs := prefs w; user_prefs := user_prefs w; notifs := notifs w; queue := queue w |}.

Abbreviation action := (prog NotifDB notif_error).

(** [notificationQueue.add('send-notification', data, { jobId })]. *)
Definition queue_add (env : Env) (id : option string) (data : json) : action unit :=
  if queueUp env then writes (fun w => w <| queue ::= job_add id data |>) else Throw QueueDown.

(** ** Preferences *)

(** [src notifications/services/notification.service.ts:485-496 getUserPreference] *)
Definition getUserPreference (env : Env) (userId : string) : action NotificationPreference :=
  if negb (dbUp env) then Throw DatabaseDown
  else
    let* preference := reads (fun w => prefs w !! userId) in
    match preference with
    | Some p => Ret p
    | None =>
        attempts (fun w => match prefs w !! userId with
                           | Some _ => (Exn UniqueViolation, w)
                           | None => (Ok default_preference, w <| prefs ::= <[userId := default_preference]> |>)
                           end)
    end.

(** [src notifications/services/notification.service.ts:498-505 updateUserPreference] *)
Definition updateUserPreference (env : Env) (userId : string)
    (updates : NotificationPreference -> NotificationPreference) : action NotificationPreference :=
  let* preference := getUserPreference env userId in
  do* writes (fun w => w <| prefs ::= <[userId := updates preference]> |>) in
  Ret (updates preference).

(** [src notifications/services/notification.service.ts:524-538 getCategoryKey] *)
Definition getCategoryKey (type : string) : option string :=
  if includes type [NEW_MESSAGE; MESSAGE_BATCH] then Some "messages"
  else if str_eqb type MENTION then Some "mentions"
  else if str_eqb type COMMENT_REPLY then Some "comments"
  else if str_eqb type SYSTEM then Some "system"
  else None.

(** [src notifications/services/notification.service.ts:23-27 ChannelPreferences] *)
Record ChannelPreferences := { ch_inApp : bool; ch_email : bool; ch_push : bool }.
Definition not_false (j : option json) : bool := match j with Some (JBool false) => false | _ => true end.

(** [src notifications/services/notification.service.ts:540-563 getUserChannelPreferences] *)
Definition getUserChannelPreferences (userId type : string) : action (option ChannelPreferences) :=
  let* user := reads (fun w => user_prefs w !! userId) in
  Ret (match user with
       | None => None
       | Some p =>
           match getCategoryKey type with
           | None => None
           | Some c =>
               match json_get c p with
               | Some ch =>
                   if json_truthy ch then
                     Some {| ch_inApp := not_false (json_get "inApp" ch);
                             ch_email := not_false (json_get "email" ch);
                             ch_push := not_false (json_get "push" ch) |}
                   else None
               | None => None
               end
           end
       end).

(** [src notifications/services/notification.service.ts:565-579 shouldSendNotification] *)
Definition shouldSendNotification (p : NotificationPreference) (type : string) : bool :=
  if negb (enableInAppNotifications p) then false
  else if str_eqb type NEW_MESSAGE then inAppNewMessage p
  else if str_eqb type MESSAGE_BATCH then inAppMessageBatch p
  else true.

(** [src notifications/services/notification.service.ts:581-596 shouldSendEmail] *)
Definition shouldSendEmail (p : NotificationPreference) (type : string) : bool :=
  if negb (enableEmailNotifications p) || negb (truthy_opt (emailAddress p)) then false
  else if str_eqb type NEW_MESSAGE then emailNewMessage p
  else if str_eqb type MESSAGE_BATCH then emailMessageBatch p
  else false.

Definition between_times (currentTime start stop : string) : bool :=
  str_le start currentTime && str_le currentTime stop.

(** [src notifications/services/notification.service.ts:618-634 isQuietHours];
    [currentTime] is the server's wall clock, HH:MM:SS. *)
Definition isQuietHours (p : NotificationPreference) (currentTime : string) : bool :=
  match quietHoursStart p, quietHoursEnd p with
  | Some s, Some e => enableQuietHours p && truthy s && truthy e && between_times currentTime s e
  | _, _ => false
  end.

(** [src notifications/services/notification.service.ts:598-616 isQuietHoursForUser] *)
Definition isQuietHoursForUser (userId currentTime : string) : action bool :=
  let* user := reads (fun w => user_prefs w !! userId) in
  Ret (match user with
       | None => false
       | Some p =>
           if from_option json_truthy false (json_get "enableQuietHours" p) then
             match json_get "quietHoursStart" p, json_get "quietHoursEnd" p with
             | Some s, Some e =>
                 json_truthy s && json_truthy e && between_times currentTime (json_string s) (json_string e)
             | _, _ => false
             end
           else false
       end).

(** [src notifications/services/notification.service.ts:135-153 shouldDeliverRealtime] *)
Definition shouldDeliverRealtime (env : Env) (userId type : string) : action bool :=
  try_catch
    (let* preference := getUserPreference env userId in
     if negb (enableInAppNotifications preference) then Ret false
     else
       let* channelPrefs := getUserChannelPreferences userId type in
       if from_option (fun c => negb (ch_inApp c)) false channelPrefs then Ret false
       else if isQuietHours preference (timeOfDay env) then Ret false
       else let* q := isQuietHoursForUser userId (timeOfDay env) in Ret (negb q))
    (fun _ => Ret false).

(** [src notifications/services/notification.service.ts:159-189 shouldDeliverEmail] *)
Definition shouldDeliverEmail (env : Env) (userId type : string) : action bool :=
  try_catch
    (let* preference := getUserPreference env userId in
     if negb (enableEmailNotifications preference) || negb (truthy_opt (emailAddress preference)) then Ret false
     else if str_eqb type NEW_MESSAGE && negb (emailNewMessage preference) then Ret false
     else if str_eqb type MESSAGE_BATCH && negb (emailMessageBatch preference) then Ret false
     else
       let* channelPrefs := getUserChannelPreferences userId type in
       Ret (negb (from_option (fun c => negb (ch_email c)) false channelPrefs)))
    (fun _ => Ret false).

(** ** Creating notifications *)

(** [src notifications/dto/notification.dto.ts:15-37 CreateNotificationDto] *)
Record CreateNotificationDto := {
  dto_type : string; dto_userId : string; dto_title : string; dto_message : string;
  dto_metadata : option json; dto_sourceKey : option string; dto_idempotencyKey : option string;
}.

(** [`${dto.userId}:${dto.type}:`] *)
Definition key_prefix (userId type : string) : string := userId +:+ ":" +:+ type +:+ ":".

(** [src notifications/services/notification.service.ts:294-348 buildSourceKey] *)
Definition buildSourceKey (dto : CreateNotificationDto) : option string :=
  let prefix := key_prefix (dto_userId dto) (dto_type dto) in
  if truthy_opt (dto_sourceKey dto) then dto_sourceKey dto
  else if truthy_opt (dto_idempotencyKey dto) then Some (prefix +:+ default "" (dto_idempotencyKey dto))
  else
    let metadata := default (JObj []) (dto_metadata dto) in
    let action := json_string <$> first_field metadata ["eventType"; "action"] in
    match first_field metadata ["idempotencyKey"; "deduplicationKey"; "sourceEventId"; "eventId"] with
    | Some explicitKey => Some (prefix +:+ json_string explicitKey)
    | None =>
        match first_field metadata ["messageId"; "commentId"; "reactionId"; "tipId"; "badgeId"; "reportId"] with
        | Some entityId =>
            Some (match action with
                  | Some a => prefix +:+ a +:+ ":" +:+ json_string entityId
                  | None => prefix +:+ json_string entityId
                  end)
        | None =>
            match first_field metadata ["confessionId"] with
            | Some confessionId =>
                Some (prefix +:+ default "confession" action +:+ ":" +:+ json_string confessionId)
            | None =>
                match action with
                | Some a =>
                    Some (match first_field metadata ["targetId"; "referenceId"; "subjectId"] with
                          | Some targetId => prefix +:+ a +:+ ":" +:+ json_string targetId
                          | None => prefix +:+ a
                          end)
                | None => None
                end
            end
        end
    end.
(** [dto.sourceKey ?? this.buildSourceKey(dto)]. *)
Definition source_key (dto : CreateNotificationDto) : option string :=
  match dto_sourceKey dto with Some k => Some k | None => buildSourceKey dto end.

(** [findOne({ where: { sourceKey } })]. *)
Definition by_source_key (k : string) (w : NotifDB) : option Notification :=
  snd <$> List.find (fun p => bool_decide (nf_sourceKey p.2 = Some k)) (map_to_list (notifs w)).
(** INSERT: ids and source keys are unique, and source keys have 255 characters at
    most. *)
Definition notif_insert (n : Notification) (w : NotifDB) : outcome notif_error unit * NotifDB :=
  if (255 <? String.length (default "" (nf_sourceKey n)))%nat then (Exn ValueTooLong, w)
  else match notifs w !! nf_id n, nf_sourceKey n ≫= (fun k => by_source_key k w) with
       | None, None => (Ok tt, w <| notifs ::= <[nf_id n := n]> |>)
       | _, _ => (Exn UniqueViolation, w)
       end.

Definition email_job (n : Notification) (dto : CreateNotificationDto) (sourceKey : option string) : json :=
  JObj ([("notificationId", JStr (nf_id n)); ("userId", JStr (dto_userId dto)); ("type", JStr (dto_type dto));
         ("title", JStr (nf_title n)); ("message", JStr (nf_message n));
         ("idempotencyKey", JStr (default (nf_id n) sourceKey))]
        ++ match nf_metadata n with Some m => [("metadata", m)] | None => [] end).

(** The row a request would insert. *)
Definition new_notification (env : Env) (dto : CreateNotificationDto) : Notification := {|
  nf_id := newId env; nf_type := dto_type dto; nf_userId := dto_userId dto; nf_title := dto_title dto;
  nf_message := dto_message dto; nf_metadata := dto_metadata dto; nf_sourceKey := source_key dto;
  isRead := false; readAt := None; nf_createdAt := clockNow env |}.

(** [src notifications/services/notification.service.ts:214-251 createNotification]:
    find the row of the source key, or insert one, or find the one inserted in the
    meantime. *)
Definition find_or_insert (env : Env) (dto : CreateNotificationDto) : action Notification :=
  let sourceKey := source_key dto in
  let* found := (match sourceKey with
                 | Some k => if truthy k then reads (by_source_key k) else Ret None
                 | None => Ret None
                 end) in
  match found with
  | Some n => Ret n
  | None =>
      let n := new_notification env dto in
      try_catch (do* attempts (notif_insert n) in Ret n)
        (fun error =>
           match error, sourceKey with
           | UniqueViolation, Some k =>
               if truthy k then
                 let* existing := reads (by_source_key k) in
                 match existing with Some e => Ret e | None => Throw error end
               else Throw error
           | _, _ => Throw error
           end)
  end.

(** [src notifications/services/notification.service.ts:191-292 createNotification] *)
Definition createNotification (env : Env) (dto : CreateNotificationDto) : action (option Notification) :=
  let* preference := getUserPreference env (dto_userId dto) in
  if negb (shouldSendNotification preference (dto_type dto)) then Ret None
  else
    let* channelPrefs := getUserChannelPreferences (dto_userId dto) (dto_type dto) in
    if from_option (fun c => negb (ch_inApp c)) false channelPrefs then Ret None
    else if isQuietHours preference (timeOfDay env) then Ret None
    else
      let* quiet := isQuietHoursForUser (dto_userId dto) (timeOfDay env) in
      if (quiet : bool) then Ret None
      else
        let* n := find_or_insert env dto in
        do* (if enableEmailNotifications preference && shouldSendEmail preference (dto_type dto)
                && from_option ch_email true channelPrefs && jobsEnabled env
             then queue_add env (Some ("email-" +:+ nf_id n)) (email_job n dto (source_key dto))
             else Ret tt) in
        Ret (Some n).

(** ** Messages *)

(** [src notifications/services/notification.service.ts:507-522 getRecentMessageNotifications] *)
Definition recent (env : Env) (userId : string) (windowMinutes : Z) (n : Notification) : bool :=
  str_eqb (nf_userId n) userId && str_eqb (nf_type n) NEW_MESSAGE
  && (clockNow env - windowMinutes * 60 * 1000 <? nf_createdAt n) && negb (isRead n).
Definition newest_first (a b : Notification) : bool := nf_createdAt b <=? nf_createdAt a.
Definition getRecentMessageNotifications (env : Env) (userId : string) (windowMinutes : Z) (w : NotifDB)
    : list Notification :=
  insertion_sort newest_first
    (List.filter (recent env userId windowMinutes) (map snd (map_to_list (notifs w)))).

Definition mark_read (now : ms) (n : Notification) : Notification :=
  n <| isRead := true |> <| readAt := Some now |>.
(** [update(criteria, { isRead: true, readAt: new Date() })]. *)
Definition mark_where (f : Notification -> bool) (now : ms) (w : NotifDB) : NotifDB :=
  w <| notifs ::= fmap (fun n => if f n then mark_read now n else n) |>.

(** [recentNotifications.map((n) => n.metadata?.messageId).filter(Boolean)]. *)
Definition message_ids (l : list Notification) : list json :=
  List.filter json_truthy (omap (fun n => nf_metadata n ≫= json_get "messageId") l).

(** [src notifications/services/notification.service.ts:397-426 createBatchNotification] *)
Definition createBatchNotification (env : Env) (userId : string) (recentNotifications : list Notification)
    (newMessageId : string) : action unit :=
  let messageIds := message_ids recentNotifications ++ [JStr newMessageId] in
  let count := Z.of_nat (length messageIds) in
  do* createNotification env {|
    dto_type := MESSAGE_BATCH; dto_userId := userId;
    dto_title := pretty count +:+ " New Messages";
    dto_message := "You have " +:+ pretty count +:+ " unread messages";
    dto_metadata := Some (JObj [("messageCount", JNum (num_of_Z count)); ("messageIds", JArr messageIds)]);
    dto_sourceKey := None; dto_idempotencyKey := None |} in
  if (length recentNotifications =? 0)%nat then Throw EmptyCriteria
  else writes (mark_where (fun n => includes (nf_id n) (map nf_id recentNotifications)) (clockNow env)).

(** [src notifications/services/notification.service.ts:361-395 createMessageNotification] *)
Definition createMessageNotification (env : Env) (userId senderId messageId messagePreview : string) : action unit :=
  let* preference := getUserPreference env userId in
  let* recentNotifications := reads (getRecentMessageNotifications env userId (batchWindowMinutes preference)) in
  if batchThreshold preference - 1 <=? Z.of_nat (length recentNotifications) then
    createBatchNotification env userId recentNotifications messageId
  else
    do* createNotification env {|
      dto_type := NEW_MESSAGE; dto_userId := userId; dto_title := "New Message";
      dto_message := messagePreview;
      dto_metadata := Some (JObj [("messageId", JStr messageId); ("senderId", JStr senderId)]);
      dto_sourceKey := None; dto_idempotencyKey := None |} in
    Ret tt.

(** ** The feed *)

(** [src notifications/services/notification.service.ts:428-459 getUserNotifications];
    the rows, their number and the number of unread ones, each query on its own. *)
Definition getUserNotifications (userId : string) (page limit : option Z) (unreadOnly : bool)
    : action (list Notification * Z * Z) :=
  let positive (d : Z) (o : option Z) := match o with Some n => if 0 <? n then n else d | None => d end in
  let pageNum := positive 1 page in
  let limitNum := positive 20 limit in
  let skip := (pageNum - 1) * limitNum in
  let* rows := reads (fun w =>
    insertion_sort newest_first
      (List.filter (fun n => str_eqb (nf_userId n) userId && (negb unreadOnly || negb (isRead n)))
                   (map snd (map_to_list (notifs w))))) in
  let* unreadCount := reads (fun w =>
    Z.of_nat (length (List.filter (fun n => str_eqb (nf_userId n) userId && negb (isRead n))
                                  (map snd (map_to_list (notifs w)))))) in
  Ret (firstn (Z.to_nat limitNum) (skipn (Z.to_nat skip) rows), Z.of_nat (length rows), unreadCount).

(** [src notifications/services/notification.service.ts:461-476 markAsRead] *)
Definition markAsRead (notificationId userId : string) (now : ms) : action Notification :=
  let* notification := reads (fun w =>
    match notifs w !! notificationId with
    | Some n => if str_eqb (nf_userId n) userId then Some n else None
    | None => None
    end) in
  match notification with
  | None => Throw (NotFound "Notification not found")
  | Some n =>
      let n := mark_read now n in
      do* writes (fun w => w <| notifs ::= <[notificationId := n]> |>) in
      Ret n
  end.

(** [src notifications/services/notification.service.ts:478-483 markAllAsRead] *)
Definition markAllAsRead (userId : string) (now : ms) : action unit :=
  writes (mark_where (fun n => str_eqb (nf_userId n) userId && negb (isRead n)) now).

(** ** The queue *)

(** [src notifications/delivery-state.ts:11-23 NotificationDeliveryOutcome] *)
Inductive DeliveryOutcome := QUEUED (jobId : option string) | SKIPPED (reason : string).

(** [a || b]. *)
Definition or_else {A} (truthy : A -> bool) (o : option A) (d : option A) : option A :=
  match o with Some a => if truthy a then Some a else d | None => d end.

(** [src notifications/services/notification.service.ts:87-115 enqueueNotification]:
    the id of the job and its data. *)
Definition stable_job_id (type : string) (payload : json) (jobId : option string) : option string :=
  let userId := first_field payload ["userId"; "recipientId"] in
  let eventKey := or_else json_truthy (first_field payload ["idempotencyKey"; "sourceKey"; "notificationId"; "messageId"])
                          (JStr <$> jobId) in
  or_else truthy jobId
    (match eventKey with
     | Some k =>
         if json_truthy k then
           Some ("notification-" +:+ sha256 (from_option json_string "unknown" userId +:+ ":" +:+ type +:+ ":" +:+ json_string k))
         else None
     | None => None
     end).
Definition job_payload (type : string) (payload : json) (jobId requestId : option string) : json :=
  let eventKey := or_else json_truthy (first_field payload ["idempotencyKey"; "sourceKey"; "notificationId"; "messageId"])
                          (JStr <$> jobId) in
  json_spread (Some payload)
    ([("type", JStr type)]
     ++ match eventKey with
        | Some k => if json_truthy k then [("idempotencyKey", JStr (json_string k))] else []
        | None => []
        end
     ++ match requestId with
        | Some r => if truthy r then [("requestId", JStr r)] else []
        | None => []
        end).

(** [src notifications/services/notification.service.ts:45-129 enqueueNotification] *)
Definition enqueueNotification (env : Env) (requestId : option string) (type : string) (payload : json)
    (jobId : option string) : action DeliveryOutcome :=
  if negb (jobsEnabled env) then Ret (SKIPPED "background_jobs_disabled")
  else
    let* canDeliver := (match first_field payload ["userId"; "recipientId"] with
                        | Some userId => shouldDeliverEmail env (json_string userId) type
                        | None => Ret true
                        end) in
    if negb canDeliver then Ret (SKIPPED "email_preference_disabled")
    else
      do* queue_add env (stable_job_id type payload jobId) (job_payload type payload jobId requestId) in
      Ret (QUEUED jobId).

(** ** Any interleaving of requests *)
Definition no_colon (s : string) : bool := str_forall (fun d => negb (Ascii.eqb d ":"%char)) s.
(** The source key of a notification starts with its user and its type. *)
Definition owned (userId type k : string) : Prop := exists r, k = key_prefix userId type +:+ r.

Lemma owned_truthy u ty k : owned u ty k -> truthy k = true.
Proof.
  intros [r ->]. unfold truthy, key_prefix. apply negb_true_iff, str_eqb_neq.
  destruct u; rewrite ?str_app_nil, !str_app_cons; done.
Qed.

Lemma key_prefix_cons u ty r : key_prefix u ty +:+ r = u +:+ String ":" (ty +:+ String ":" r).
Proof.
  unfold key_prefix. repeat (rewrite str_app_assoc || rewrite str_app_cons || rewrite str_app_nil). done.
Qed.

(** A key belongs to one user and one type. *)
Lemma owned_unique u ty u' ty' k :
  no_colon u = true -> no_colon ty = true -> no_colon u' = true -> no_colon ty' = true ->
  owned u ty k -> owned u' ty' k -> u = u' /\ ty = ty'.
Proof.
  intros Hu Ht Hu' Ht' [r ->] [r' H]. rewrite !key_prefix_cons in H.
  apply sep_inj in H as [-> H]; [|done..]. by apply sep_inj in H as [-> _].
Qed.

Lemma buildSourceKey_owned dto k :
  dto_sourceKey dto = None -> buildSourceKey dto = Some k -> owned (dto_userId dto) (dto_type dto) k.
Proof.
  intros Hs. unfold buildSourceKey. rewrite Hs. cbn.
  repeat case_match; intros; simplify_eq; unfold owned; eauto.
Qed.

Lemma source_key_owned dto k :
  (forall k', dto_sourceKey dto = Some k' -> owned (dto_userId dto) (dto_type dto) k') ->
  source_key dto = Some k -> owned (dto_userId dto) (dto_type dto) k.
Proof.
  unfold source_key. intros Hex. destruct (dto_sourceKey dto) as [k'|] eqn:Hs.
  - intros [= <-]. by apply Hex.
  - by apply buildSourceKey_owned.
Qed.

Lemma by_source_key_Some k w n :
  by_source_key k w = Some n -> exists i, notifs w !! i = Some n /\ nf_sourceKey n = Some k.
Proof.
  unfold by_source_key. intros H. apply fmap_Some in H as ([i m] & Hfind & ->).
  apply find_some in Hfind as [Hin%list_elem_of_In Hk]. cbn in Hk. boolp.
  exists i. split; [by apply elem_of_map_to_list|done].
Qed.

Lemma by_source_key_None k w i n :
  by_source_key k w = None -> notifs w !! i = Some n -> nf_sourceKey n <> Some k.
Proof.
  unfold by_source_key. intros H Hi. apply fmap_None in H.
  assert (In (i, n) (map_to_list (notifs w))) as Hin by by apply list_elem_of_In, elem_of_map_to_list.
  pose proof (find_none _ _ H _ Hin) as E. cbn in E. by boolp.
Qed.

(** What a notification is, apart from having been read. *)
Definition same_notice (n n' : Notification) : Prop :=
  nf_id n' = nf_id n /\ nf_userId n' = nf_userId n /\ nf_type n' = nf_type n /\ nf_sourceKey n' = nf_sourceKey n
  /\ nf_title n' = nf_title n /\ nf_message n' = nf_message n.

Record notif_inv (w : NotifDB) : Prop := {
  inv_id : forall i n, notifs w !! i = Some n -> nf_id n = i;
  inv_key : forall i j n m k, notifs w !! i = Some n -> notifs w !! j = Some m ->
    nf_sourceKey n = Some k -> nf_sourceKey m = Some k -> i = j;
  inv_owned : forall i n, notifs w !! i = Some n -> no_colon (nf_userId n) = true /\ no_colon (nf_type n) = true
    /\ (forall k, nf_sourceKey n = Some k -> owned (nf_userId n) (nf_type n) k);
  inv_email : forall i d, job_lookup ("email-" +:+ i) (queue w) = Some d ->
    exists n, notifs w !! i = Some n /\ json_get "notificationId" d = Some (JStr i)
      /\ json_get "userId" d = Some (JStr (nf_userId n))
      /\ json_get "idempotencyKey" d = Some (JStr (default i (nf_sourceKey n)));
}.

(** Requests keep the notifications and the jobs there are. *)
Definition notif_guar (_ : positive) (w w' : NotifDB) : Prop :=
  (forall i n, notifs w !! i = Some n -> exists n', notifs w' !! i = Some n' /\ same_notice n n')
  /\ (forall i d, job_lookup i (queue w) = Some d -> job_lookup i (queue w') = Some d).

Lemma same_notice_refl n : same_notice n n.
Proof. by split_and!. Qed.

Lemma notif_guar_refl t w : notif_guar t w w.
Proof. split; [|done]. intros i n Hi. eauto using same_notice_refl. Qed.

(** [i] is the notification of a request: its user, type and source key. *)
Definition notice_of (dto : CreateNotificationDto) (i : string) (w : NotifDB) : Prop :=
  exists n, notifs w !! i = Some n /\ nf_userId n = dto_userId dto /\ nf_type n = dto_type dto
    /\ nf_sourceKey n = source_key dto.

Lemma notice_of_guar t dto i w w' : notif_guar t w w' -> notice_of dto i w -> notice_of dto i w'.
Proof.
  intros [H _] (n & Hi & Hu & Ht & Hk). destruct (H i n Hi) as (n' & Hi' & _ & Eu & Et & Ek & _).
  exists n'. by rewrite Eu, Et, Ek.
Qed.

(** A step that only touches the preferences. *)
Lemma inv_other w w' : notifs w' = notifs w -> queue w' = queue w -> notif_inv w -> notif_inv w'.
Proof. intros En Eq [? ? ? ?]. by split; rewrite ?En, ?Eq. Qed.
Lemma guar_other t w w' : notifs w' = notifs w -> queue w' = queue w -> notif_guar t w w'.
Proof. intros En Eq. split; rewrite ?En, ?Eq; [|done]. intros i n Hi. eauto using same_notice_refl. Qed.

(** Marking notifications as read changes none of them. *)
Lemma inv_mark f now w : notif_inv w -> notif_inv (mark_where f now w).
Proof.
  intros [Hid Hkey Hown Hem].
  assert (forall i n', notifs (mark_where f now w) !! i = Some n' ->
    exists n, notifs w !! i = Some n /\ same_notice n n') as Hback.
  { intros i n'. cbn. rewrite lookup_fmap_Some. intros (n & <- & Hi). exists n. split; [done|]. by destruct (f n). }
  split.
  - intros i n' (n & Hi & E & _)%Hback. rewrite E. by apply Hid.
  - intros i j n' m' k (n & Hi & _ & _ & _ & En & _)%Hback (m & Hj & _ & _ & _ & Em & _)%Hback.
    rewrite En, Em. by apply Hkey.
  - intros i n' (n & Hi & _ & Eu & Et & Ek & _)%Hback. rewrite Eu, Et, Ek. by apply (Hown i).
  - intros i d Hd. destruct (Hem i d Hd) as (n & Hi & Hn). cbn. rewrite lookup_fmap, Hi. cbn.
    eexists. split; [done|]. by destruct (f n).
Qed.
Lemma guar_mark t f now w : notif_guar t w (mark_where f now w).
Proof.
  split; [|done]. intros i n Hi. cbn. rewrite lookup_fmap, Hi. cbn. eexists. split; [done|]. by destruct (f n).
Qed.


(** The insert of a row whose key belongs to its user and type. *)
Lemma notif_insert_ok t n w :
  notif_inv w -> no_colon (nf_userId n) = true -> no_colon (nf_type n) = true ->
  (forall k, nf_sourceKey n = Some k -> owned (nf_userId n) (nf_type n) k) ->
  match notif_insert n w with
  | (Ok _, w') => notif_inv w' /\ notif_guar t w w' /\ notifs w' !! nf_id n = Some n
  | (Exn _, w') => w' = w
  end.
Proof.
  intros HI Hu Ht Hk. unfold notif_insert. destruct (_ <? _)%nat; [done|].
  destruct (notifs w !! nf_id n) eqn:Hid; [done|].
  destruct (nf_sourceKey n ≫= _) eqn:Hkey; [done|]. destruct HI as [Hids Hkeys Hown Hem].
  assert (forall i m k, notifs w !! i = Some m -> nf_sourceKey n = Some k -> nf_sourceKey m <> Some k) as Hnew.
  { intros i m k Hi Hn. rewrite Hn in Hkey. cbn in Hkey. by eapply by_source_key_None. }
  split; [split|split; [split|]]; cbn.
  - intros i m. rewrite lookup_insert_Some. intros [[<- <-]|[_ Hi]]; [done|by apply Hids].
  - intros i j m m' k. rewrite !lookup_insert_Some. intros [[<- <-]|[Hne Hi]] [[<- <-]|[Hne' Hj]] H1 H2; [done|..].
    + by destruct (Hnew j m' k).
    + by destruct (Hnew i m k).
    + by eapply Hkeys.
  - intros i m. rewrite lookup_insert_Some. intros [[<- <-]|[_ Hi]]; [done|by apply (Hown i)].
  - intros i d Hd. destruct (Hem i d Hd) as (m & Hi & Hm). exists m. split; [|done].
    rewrite lookup_insert_ne; [done|congruence].
  - intros i m Hi. exists m. rewrite lookup_insert_ne by congruence. eauto using same_notice_refl.
  - done.
  - apply lookup_insert_eq.
Qed.

Section specs.
Context (t : positive).

Lemma stable_notice dto i : stable notif_inv notif_guar t (notice_of dto i).
Proof. intros t' w w' _ _ Hn HG. by eapply notice_of_guar. Qed.

(** The reads of preferences and channels, whatever is known before them. *)
Lemma spec_pref {B} env u (q : NotificationPreference -> action B) (post : outcome notif_error B -> NotifDB -> Prop) :
  (forall e w, post (Exn e) w) ->
  (forall p, rg notif_inv notif_guar t (fun _ => True) (q p) post) ->
  rg notif_inv notif_guar t (fun _ => True) (bind (getUserPreference env u) q) post.
Proof.
  intros Hexn Hq. unfold getUserPreference. destruct (negb (dbUp env)); [by intros w|].
  intros w HI _. split; [done|]. split; [apply notif_guar_refl|]. exists (fun _ => True). split; [done|].
  split; [apply stable_True|]. cbn. destruct (prefs w !! u) as [p|]; [apply Hq|].
  intros v HI' _. cbn. destruct (prefs v !! u) as [p|]; cbn.
  - split; [done|]. split; [apply notif_guar_refl|]. exists (fun _ => True). split; [done|]. by split; [apply stable_True|].
  - split; [by eapply inv_other; [..|exact HI']|]. split; [by apply guar_other|]. exists (fun _ => True).
    split; [done|]. split; [apply stable_True|]. apply Hq.
Qed.

Lemma spec_read {X B} (f : NotifDB -> X) (q : X -> action B) P post :
  stable notif_inv notif_guar t P ->
  (forall x, rg notif_inv notif_guar t P (q x) post) -> rg notif_inv notif_guar t P (bind (reads f) q) post.
Proof. intros HP Hq. apply rg_reads; [apply notif_guar_refl|done|auto]. Qed.

Section request.
Context (env : Env) (dto : CreateNotificationDto).
Context (Hu : no_colon (dto_userId dto) = true) (Ht : no_colon (dto_type dto) = true)
        (Hkey : forall k, dto_sourceKey dto = Some k -> owned (dto_userId dto) (dto_type dto) k).

(** A row found under the key is the notification of the request. *)
Lemma found_notice k w n :
  notif_inv w -> source_key dto = Some k -> by_source_key k w = Some n -> notice_of dto (nf_id n) w.
Proof.
  intros HI Hk (i & Hi & Hn)%by_source_key_Some. exists n. rewrite (inv_id _ HI i n Hi).
  destruct (inv_owned _ HI i n Hi) as (Hnu & Hnt & Hno).
  destruct (owned_unique (nf_userId n) (nf_type n) (dto_userId dto) (dto_type dto) k) as [-> ->];
    eauto using source_key_owned. split_and!; congruence.
Qed.

Lemma spec_find_or_insert :
  rg notif_inv notif_guar t (fun _ => True) (find_or_insert env dto)
    (fun o w => match o with Ok n => notice_of dto (nf_id n) w | Exn _ => True end).
Proof.
  assert (Htry : rg notif_inv notif_guar t (fun _ => True)
    (try_catch (do* attempts (notif_insert (new_notification env dto)) in Ret (new_notification env dto))
      (fun error =>
         match error, source_key dto with
         | UniqueViolation, Some k =>
             if truthy k then
               let* existing := reads (by_source_key k) in
               match existing with Some e => Ret e | None => Throw error end
             else Throw error
         | _, _ => Throw error
         end))
    (fun o w => match o with Ok n => notice_of dto (nf_id n) w | Exn _ => True end)).
  { intros w HI _. pose proof (notif_insert_ok t (new_notification env dto) w HI Hu Ht) as Hins.
    specialize (Hins ltac:(intros k Hk; by eapply source_key_owned)). cbn in Hins |- *.
    destruct (notif_insert _ w) as [[[]|e] w']; cbn.
    - destruct Hins as (? & ? & Hrow). split_and!; [done..|].
      exists (notice_of dto (newId env)). split; [by exists (new_notification env dto)|].
      split; [apply stable_notice|]. by intros v _ Hv.
    - subst w'. split; [done|]. split; [apply notif_guar_refl|]. exists (fun _ => True). split; [done|].
      split; [apply stable_True|]. destruct e; try by intros v.
      destruct (source_key dto) as [k|] eqn:Hk; [|by intros v]. destruct (truthy k); [|by intros v].
      intros v HI' _. cbn. split; [done|]. split; [apply notif_guar_refl|].
      destruct (by_source_key k v) as [n|] eqn:Hn; cbn.
      + exists (notice_of dto (nf_id n)). split; [by eapply found_notice|]. split; [apply stable_notice|]. by intros v' _.
      + exists (fun _ => True). split; [done|]. split; [apply stable_True|]. by intros v'. }
  unfold find_or_insert. destruct (source_key dto) as [k|] eqn:Hk; [|exact Htry].
  destruct (truthy k) eqn:Htr; [|exact Htry].
  intros w HI _. cbn. split; [done|]. split; [apply notif_guar_refl|].
  destruct (by_source_key k w) as [n|] eqn:Hn; cbn.
  - exists (notice_of dto (nf_id n)). split; [by eapply found_notice|]. split; [apply stable_notice|]. by intros v _.
  - exists (fun _ => True). split; [done|]. split; [apply stable_True|]. exact Htry.
Qed.

(** The mail of a notification goes to its user, under its key. *)
Lemma spec_email n b :
  rg notif_inv notif_guar t (notice_of dto (nf_id n))
    (if (b : bool) then queue_add env (Some ("email-" +:+ nf_id n)) (email_job n dto (source_key dto)) else Ret tt)
    (fun o w => match o with Ok _ => notice_of dto (nf_id n) w | Exn _ => True end).
Proof.
  destruct b; [|by intros w]. unfold queue_add. destruct (queueUp env); [|by intros w].
  intros w HI Hn. split; [|split].
  - destruct HI as [Hids Hkeys Hown Hem]. split; cbn; [done..|].
    intros i d. destruct (decide (nf_id n = i)) as [<-|Hne].
    + rewrite job_add_lookup. destruct (job_lookup _ (queue w)) as [d'|] eqn:Hd'; cbn; [intros [= <-]; by apply Hem|].
      intros [= <-]. destruct Hn as (m & Hi & Eu & _ & Ek). exists m. by rewrite Eu, Ek.
    + rewrite job_add_other; [apply Hem|]. by intros H%str_app_inj.
  - split; [intros i m Hi; eauto using same_notice_refl|]. intros i d Hd. by apply job_add_keeps.
  - exists (notice_of dto (nf_id n)). split; [done|]. split; [apply stable_notice|]. by intros v.
Qed.

Lemma spec_createNotification :
  rg notif_inv notif_guar t (fun _ => True) (createNotification env dto)
    (fun o w => match o with Ok (Some n) => notice_of dto (nf_id n) w | _ => True end).
Proof.
  unfold createNotification. apply spec_pref; [done|]. intros p.
  destruct (negb _); [by intros w|]. unfold getUserChannelPreferences. cbn [bind]. apply spec_read; [done|].
  intros u. cbn [bind]. destruct (from_option _ false _); [by intros w|]. destruct (isQuietHours _ _); [by intros w|].
  unfold isQuietHoursForUser. cbn [bind]. apply spec_read; [done|]. intros u'. cbn [bind].
  match goal with |- context [if ?b then Ret None else _] => destruct b end; [by intros w|].
  eapply rg_bind; [eapply rg_post; [|apply spec_find_or_insert]|].
  { intros [n|e] w; [|done]. intros Hn. exact Hn. }
  intros n. cbn. apply rg_bind with (Q := fun _ => notice_of dto (nf_id n)); [eapply rg_post; [|apply spec_email]|].
  { by intros [[]|e] w. }
  intros []. by intros w.
Qed.
End request.

Lemma spec_batch env u l m :
  no_colon u = true ->
  rg notif_inv notif_guar t (fun _ => True) (createBatchNotification env u l m) (fun _ _ => True).
Proof.
  intros Hu. unfold createBatchNotification.
  apply rg_bind with (Q := fun _ _ => True); [by eapply rg_post; [|apply spec_createNotification]; [intros []|..]|].
  intros _. destruct (_ =? _)%nat; [by intros w|]. intros w HI _.
  split; [by apply inv_mark|]. split; [by apply (guar_mark t)|]. exists (fun _ => True). by split_and!.
Qed.

Lemma spec_message env u s m p :
  no_colon u = true ->
  rg notif_inv notif_guar t (fun _ => True) (createMessageNotification env u s m p) (fun _ _ => True).
Proof.
  intros Hu. unfold createMessageNotification. apply spec_pref; [done|]. intros q.
  apply spec_read; [done|]. intros l. destruct (_ <=? _); [by apply spec_batch|].
  apply rg_bind with (Q := fun _ _ => True); [by eapply rg_post; [|apply spec_createNotification]; [intros []|..]|].
  intros _. by intros w.
Qed.

Lemma spec_markAsRead i u now :
  rg notif_inv notif_guar t (fun _ => True) (markAsRead i u now) (fun _ _ => True).
Proof.
  intros w HI _. cbn. split; [done|]. split; [apply notif_guar_refl|].
  destruct (notifs w !! i) as [n|] eqn:Hi; [|exists (fun _ => True); by split_and!].
  destruct (str_eqb _ _); [|exists (fun _ => True); by split_and!].
  exists (fun v => exists m, notifs v !! i = Some m /\ same_notice n m).
  split; [eauto using same_notice_refl|]. split.
  { intros t' v v' _ _ (m & Hm & Hnm) [HG _]. destruct (HG i m Hm) as (m' & Hm' & Hmm).
    exists m'. split; [done|]. unfold same_notice in *. intuition congruence. }
  intros v HI' (m & Hm & Hnm). cbn. assert (same_notice m (mark_read now n)) as Hs.
  { unfold same_notice in *. cbn. intuition congruence. }
  destruct HI' as [Hids Hkeys Hown Hem]. destruct Hs as (E1 & E2 & E3 & E4 & E5).
  split; [split|split; [split|]]; cbn.
  - intros j k. rewrite lookup_insert_Some. intros [[<- <-]|[_ Hj]]; [|by apply Hids]. rewrite E1. by apply Hids.
  - intros j j' k k' key. rewrite !lookup_insert_Some.
    intros [[<- <-]|[Hne Hj]] [[<- <-]|[Hne' Hj']] H1 H2; rewrite ?E4 in *; [done|..]; by eapply Hkeys.
  - intros j k. rewrite lookup_insert_Some. intros [[<- <-]|[_ Hj]]; [|by apply (Hown j)].
    rewrite E2, E3, E4. by apply (Hown i).
  - intros j d Hd. destruct (Hem j d Hd) as (k & Hj & Hk). destruct (decide (i = j)) as [<-|Hne].
    + rewrite lookup_insert_eq. simplify_eq. eexists. split; [done|]. by rewrite E2, E4.
    + rewrite lookup_insert_ne by done. eauto.
  - intros j k Hj. destruct (decide (i = j)) as [<-|Hne].
    + rewrite lookup_insert_eq. simplify_eq. by eexists.
    + rewrite lookup_insert_ne by done. eauto using same_notice_refl.
  - done.
  - exists (fun _ => True). by split_and!.
Qed.

(** What an answer of [enqueueNotification] means. *)
Definition enqueued (j : option string) (o : outcome notif_error DeliveryOutcome) (w : NotifDB) : Prop :=
  match o with
  | Ok (QUEUED _) => forall i, j = Some i -> is_Some (job_lookup i (queue w))
  | Ok (SKIPPED r) => r ∈ ["background_jobs_disabled"; "email_preference_disabled"]
  | Exn e => e = QueueDown
  end.

Lemma spec_shouldDeliverEmail env u type :
  rg notif_inv notif_guar t (fun _ => True) (shouldDeliverEmail env u type)
    (fun o _ => match o with Ok _ => True | Exn _ => False end).
Proof.
  unfold shouldDeliverEmail.
  apply rg_try_catch with (Q := fun _ _ => True); [|by intros e w].
  apply spec_pref; [done|]. intros p.
  repeat case_match; try by intros w. unfold getUserChannelPreferences. cbn [bind]. apply spec_read; [done|].
  intros x. by intros w.
Qed.

Lemma spec_enqueue env rid type payload jobId :
  (forall i, jobId <> Some ("email-" +:+ i)) ->
  rg notif_inv notif_guar t (fun _ => True) (enqueueNotification env rid type payload jobId)
    (enqueued (stable_job_id type payload jobId)).
Proof.
  intros Hid. unfold enqueueNotification. destruct (negb (jobsEnabled env)); [intros w; cbn; set_solver|].
  apply rg_bind with (Q := fun _ _ => True).
  { destruct (first_field _ _) as [u|]; [|by intros w].
    eapply rg_post; [|apply spec_shouldDeliverEmail]. by intros [].  }
  intros b. destruct (negb b); [intros w; cbn; set_solver|]. unfold queue_add. destruct (queueUp env); [|by intros w].
  intros w HI _. split; [|split].
  - destruct HI as [Hids Hkeys Hown Hem]. split; cbn; [done..|]. intros i d.
    destruct (stable_job_id type payload jobId) as [j|] eqn:Hj.
    + rewrite job_add_other; [apply Hem|]. intros ->. unfold stable_job_id, or_else in Hj.
      repeat case_match; simplify_eq; by eapply Hid.
    + rewrite job_add_number by done. apply Hem.
  - split; [intros i n Hi; eauto using same_notice_refl|]. intros i d Hd. by apply job_add_keeps.
  - set (j := stable_job_id type payload jobId).
    exists (fun w => forall i, j = Some i -> is_Some (job_lookup i (queue w))). split; [|split].
    + intros i ->. cbn. rewrite job_add_lookup. eauto.
    + intros t' v v' _ _ Hv [_ HG] i Hi. destruct (Hv i Hi) as [d Hd]. eauto.
    + by intros v.
Qed.

Lemma spec_other {A B} (p : action A) (a : B) :
  rg notif_inv notif_guar t (fun _ => True) p (fun _ _ => True) ->
  rg notif_inv notif_guar t (fun _ => True) (do* p in Ret a) (fun _ _ => True).
Proof. intros Hp. apply rg_bind with (Q := fun _ _ => True); [by eapply rg_post; [|exact Hp]; intros []|]. by intros _ w. Qed.

(** A write that leaves notifications and jobs alone. *)
Lemma spec_prefs_write (f : NotifDB -> NotifDB) :
  (forall w, notifs (f w) = notifs w /\ queue (f w) = queue w) ->
  rg notif_inv notif_guar t (fun _ => True) (writes f : action unit) (fun _ _ => True).
Proof.
  intros Hf w HI _. destruct (Hf w). cbn. split; [by eapply inv_other|]. split; [by apply guar_other|].
  exists (fun _ => True). by split_and!.
Qed.
End specs.

(** The requests of the service, and users who edit their preferences. *)
Inductive NotifActor :=
| ACreate (env : Env) (dto : CreateNotificationDto)
| AMessage (env : Env) (userId senderId messageId preview : string)
| AUpdate (env : Env) (userId : string) (updates : NotificationPreference -> NotificationPreference)
| AMatrix (userId : string) (preferences : json)
| AMarkRead (id userId : string) (now : ms)
| AMarkAll (userId : string) (now : ms)
| AFeed (userId : string) (page limit : option Z) (unreadOnly : bool)
| AEnqueue (env : Env) (requestId : option string) (type : string) (payload : json) (jobId : option string).

Definition serve_notif (a : NotifActor) : action (option Notification) :=
  match a with
  | ACreate env dto => createNotification env dto
  | AMessage env u s m p => do* createMessageNotification env u s m p in Ret None
  | AUpdate env u f => do* updateUserPreference env u f in Ret None
  | AMatrix u j => do* writes (fun w => w <| user_prefs ::= <[u := j]> |>) in Ret None
  | AMarkRead i u now => do* markAsRead i u now in Ret None
  | AMarkAll u now => do* markAllAsRead u now in Ret None
  | AFeed u page limit unread => do* getUserNotifications u page limit unread in Ret None
  | AEnqueue env r ty p j => do* enqueueNotification env r ty p j in Ret None
  end.

(** User ids and types without colons, explicit source keys that belong to their
    user, and job ids outside the space of the mails of notifications. *)
Definition well_named (a : NotifActor) : Prop :=
  match a with
  | ACreate _ dto => no_colon (dto_userId dto) = true /\ no_colon (dto_type dto) = true
      /\ forall k, dto_sourceKey dto = Some k -> owned (dto_userId dto) (dto_type dto) k
  | AMessage _ u _ _ _ => no_colon u = true
  | AEnqueue _ _ _ _ j => forall i, j <> Some ("email-" +:+ i)
  | _ => True
  end.

Lemma spec_serve_notif t a :
  well_named a ->
  rg notif_inv notif_guar t (fun _ => True) (serve_notif a)
    (fun o w => forall env dto n, a = ACreate env dto -> o = Ok (Some n) -> notice_of dto (nf_id n) w).
Proof.
  intros Ha. destruct a as [env dto| | | | | | |]; cbn in Ha.
  - destruct Ha as (Hu & Ht & Hk). eapply rg_post; [|by apply spec_createNotification].
    intros o w Ho env' dto' n [= <- <-] ->. exact Ho.
  - eapply rg_post; [|apply spec_other, spec_message; exact Ha]. done.
  - eapply rg_post; [|apply spec_other]; [done|]. unfold updateUserPreference. apply spec_pref; [done|].
    intros p. apply rg_bind with (Q := fun _ _ => True); [|by intros _ w].
    eapply rg_post; [|by apply spec_prefs_write]. by intros [].
  - eapply rg_post; [|apply spec_other; by apply spec_prefs_write]. done.
  - eapply rg_post; [|apply spec_other, spec_markAsRead]. done.
  - eapply rg_post; [|apply spec_other]; [done|]. intros w HI _. split; [by apply inv_mark|].
    split; [by apply (guar_mark t)|]. exists (fun _ => True). by split_and!.
  - eapply rg_post; [|apply spec_other]; [done|]. unfold getUserNotifications.
    apply spec_read; [done|]. intros l. apply spec_read; [done|]. intros n. by intros w.
  - eapply rg_post; [|apply spec_other; eapply rg_post; [|by apply spec_enqueue]]; done.
Qed.

(** ** A request on its own *)
Definition pref_of (u : string) (w : NotifDB) : NotificationPreference := default default_preference (prefs w !! u).
Definition channels_of (u type : string) (w : NotifDB) : option ChannelPreferences :=
  match (run (getUserChannelPreferences u type) w).1 with Ok c => c | Exn _ => None end.
Definition quiet_of (u time : string) (w : NotifDB) : bool :=
  match (run (isQuietHoursForUser u time) w).1 with Ok b => b | Exn _ => false end.

(** Does the user want to be notified now, and mailed about it? *)
Definition allowed (env : Env) (dto : CreateNotificationDto) (w : NotifDB) : bool :=
  let p := pref_of (dto_userId dto) w in
  shouldSendNotification p (dto_type dto)
  && from_option ch_inApp true (channels_of (dto_userId dto) (dto_type dto) w)
  && negb (isQuietHours p (timeOfDay env)) && negb (quiet_of (dto_userId dto) (timeOfDay env) w).
Definition mailed_too (env : Env) (dto : CreateNotificationDto) (w : NotifDB) : bool :=
  let p := pref_of (dto_userId dto) w in
  enableEmailNotifications p && shouldSendEmail p (dto_type dto)
  && from_option ch_email true (channels_of (dto_userId dto) (dto_type dto) w) && jobsEnabled env.
Definition with_mail (b : bool) (n : Notification) (dto : CreateNotificationDto) (w : NotifDB) : NotifDB :=
  if b then w <| queue ::= job_add (Some ("email-" +:+ nf_id n)) (email_job n dto (source_key dto)) |> else w.
(** The preferences of a user exist once they have been asked for. *)
Definition with_prefs (u : string) (w : NotifDB) : NotifDB := w <| prefs ::= <[u := pref_of u w]> |>.

Lemma with_prefs_id u w p : prefs w !! u = Some p -> with_prefs u w = w.
Proof.
  intros H. unfold with_prefs, pref_of. rewrite H. cbn. destruct w; cbn in *. unfold set_field; cbn.
  by rewrite insert_id.
Qed.

Lemma run_getUserPreference env u w :
  dbUp env = true -> run (getUserPreference env u) w = (Ok (pref_of u w), with_prefs u w).
Proof.
  intros Hup. unfold getUserPreference. rewrite Hup. cbn [negb]. run_simp.
  destruct (prefs w !! u) as [p|] eqn:Hp.
  - rewrite (with_prefs_id _ _ p) by done. unfold pref_of. by rewrite Hp.
  - run_simp. rewrite Hp. unfold with_prefs, pref_of. by rewrite Hp.
Qed.

Lemma run_createNotification env dto w :
  dbUp env = true -> queueUp env = true ->
  run (createNotification env dto) w =
  if allowed env dto w then
    match run (find_or_insert env dto) (with_prefs (dto_userId dto) w) with
    | (Ok n, w') => (Ok (Some n), with_mail (mailed_too env dto w) n dto w')
    | (Exn e, w') => (Exn e, w')
    end
  else (Ok None, with_prefs (dto_userId dto) w).
Proof.
  intros Hup Hq. unfold createNotification. rewrite run_bind, run_getUserPreference by done.
  unfold allowed, mailed_too. cbn [negb].
  destruct (shouldSendNotification _ _); cbn [negb andb]; [|done].
  rewrite run_bind. unfold channels_of. unfold getUserChannelPreferences. rewrite !run_bind, !run_reads. cbn [run fst].
  change (user_prefs (with_prefs _ w)) with (user_prefs w).
  match goal with |- context [from_option ch_inApp true ?c] => set (ch := c) end.
  replace (from_option (fun c => negb (ch_inApp c)) false ch) with (negb (from_option ch_inApp true ch))
    by (by destruct ch as [[[] [] []]|]).
  destruct (from_option ch_inApp true ch); cbn [negb andb]; [|done].
  destruct (isQuietHours _ _); cbn [negb andb]; [done|].
  rewrite run_bind. unfold quiet_of, isQuietHoursForUser. rewrite !run_bind, !run_reads. cbn [run fst].
  change (user_prefs (with_prefs _ w)) with (user_prefs w).
  match goal with |- context [negb ?b] => destruct b end; cbn [negb]; [done|].
  rewrite run_bind. destruct (run (find_or_insert env dto) _) as [[n|e] w']; [|done].
  rewrite run_bind. unfold queue_add. rewrite Hq. by destruct (_ && jobsEnabled env).
Qed.

Lemma by_source_key_here w i n k :
  notif_inv w -> notifs w !! i = Some n -> nf_sourceKey n = Some k -> by_source_key k w = Some n.
Proof.
  intros HI Hi Hk. destruct (by_source_key k w) as [m|] eqn:Hm.
  - apply by_source_key_Some in Hm as (j & Hj & Hk'). rewrite (inv_key w HI j i m n k) in Hj by done. congruence.
  - by destruct (by_source_key_None _ _ _ _ Hm Hi).
Qed.

(** What a request found or inserted, the next one with its key finds. *)
Lemma run_find_or_insert env dto w n w' k :
  notif_inv w -> no_colon (dto_userId dto) = true -> no_colon (dto_type dto) = true ->
  (forall k, dto_sourceKey dto = Some k -> owned (dto_userId dto) (dto_type dto) k) ->
  source_key dto = Some k -> run (find_or_insert env dto) w = (Ok n, w') ->
  prefs w' = prefs w /\ user_prefs w' = user_prefs w /\ queue w' = queue w
  /\ by_source_key k w' = Some n.
Proof.
  intros HI Hu Ht Hown Hk. unfold find_or_insert. rewrite Hk.
  rewrite (owned_truthy (dto_userId dto) (dto_type dto)) by by apply source_key_owned.
  run_simp. destruct (by_source_key k w) as [m|] eqn:Hm; [by intros [= <- <-]|].
  pose proof (notif_insert_ok 1%positive (new_notification env dto) w HI Hu Ht) as Hins.
  specialize (Hins ltac:(intros k' Hk'; by eapply source_key_owned)). run_simp.
  unfold notif_insert in *. destruct (_ <? _)%nat; [done|].
  destruct (notifs w !! _) eqn:Hid; [cbn; run_simp; by rewrite Hm|].
  destruct (nf_sourceKey _ ≫= _) eqn:Hkey; [cbn; run_simp; by rewrite Hm|]. cbn in Hins |- *.
  destruct Hins as (HI' & _ & Hrow). intros [= <- <-]. split_and!; try done.
  eapply by_source_key_here; [exact HI'|exact Hrow|done].
Qed.

(** ** Properties *)

(** C7. One notification per source key. Let requests of the service interleave in any
    way. A request that answers with a notification has left it in the table, for
    its own user, under its own type and key; two requests with one key answer with
    the same one; and every mail queued for a notification goes to its user, under
    its key. *)
Theorem create_notification_once (actors : gmap positive NotifActor) w0 w ps :
  notif_inv w0 -> (forall t a, actors !! t = Some a -> well_named a) ->
  pool_reach (w0, serve_notif <$> actors) (w, ps) ->
  (forall t env dto n, actors !! t = Some (ACreate env dto) -> ps !! t = Some (Ret (Some n)) ->
     exists n', notifs w !! nf_id n = Some n' /\ nf_userId n' = dto_userId dto /\ nf_type n' = dto_type dto
       /\ nf_sourceKey n' = source_key dto)
  /\ (forall t t' env env' dto dto' n n' k,
        actors !! t = Some (ACreate env dto) -> actors !! t' = Some (ACreate env' dto') ->
        source_key dto = Some k -> source_key dto' = Some k ->
        ps !! t = Some (Ret (Some n)) -> ps !! t' = Some (Ret (Some n')) -> nf_id n = nf_id n')
  /\ (forall i d, job_lookup ("email-" +:+ i) (queue w) = Some d ->
        exists n, notifs w !! i = Some n /\ json_get "userId" d = Some (JStr (nf_userId n))
          /\ json_get "idempotencyKey" d = Some (JStr (default i (nf_sourceKey n)))).
Proof.
  intros HI0 Hwell Hreach.
  assert (pool_ok notif_inv notif_guar (fun t o w => forall env dto n, actors !! t = Some (ACreate env dto) ->
            o = Ok (Some n) -> notice_of dto (nf_id n) w) (w0, serve_notif <$> actors)) as Hinit.
  { split; [done|]. intros t p. cbn. rewrite lookup_fmap_Some. intros (a & <- & Ha).
    exists (fun _ => True). split; [done|]. split; [apply stable_True|].
    eapply rg_post; [|apply spec_serve_notif, (Hwell t a Ha)].
    intros o v Ho env dto n Ha'. apply (Ho env). congruence. }
  destruct (rg_sound _ _ _ _ _ Hinit Hreach) as [HI Hps]. cbn in HI, Hps.
  assert (forall t env dto n, actors !! t = Some (ACreate env dto) -> ps !! t = Some (Ret (Some n)) ->
            notice_of dto (nf_id n) w) as Hrow.
  { intros t env dto n Ha Hret. destruct (Hps t _ Hret) as (P & HP & _ & Hrg). by eapply (Hrg w HI HP). }
  split; [exact Hrow|]. split.
  - intros t t' env env' dto dto' n n' k Ha Ha' Hk Hk' Hret Hret'.
    destruct (Hrow t env dto n Ha Hret) as (m & Hm & _ & _ & Em).
    destruct (Hrow t' env' dto' n' Ha' Hret') as (m' & Hm' & _ & _ & Em').
    apply (inv_key _ HI _ _ m m' k); [done|done|by rewrite Em|by rewrite Em'].
  - intros i d Hd. destruct (inv_email _ HI i d Hd) as (n & Hn & _ & Hu & Hk). eauto.
Qed.

(** Creating a notification twice is creating it once: the second request answers
    with the same notification and changes nothing, neither in the table nor in the
    queue. *)
Theorem create_notification_idempotent env env' dto k w n w' :
  notif_inv w -> no_colon (dto_userId dto) = true -> no_colon (dto_type dto) = true ->
  (forall k, dto_sourceKey dto = Some k -> owned (dto_userId dto) (dto_type dto) k) ->
  source_key dto = Some k ->
  dbUp env = true -> queueUp env = true -> dbUp env' = true -> queueUp env' = true ->
  timeOfDay env' = timeOfDay env -> jobsEnabled env' = jobsEnabled env ->
  run (createNotification env dto) w = (Ok (Some n), w') ->
  run (createNotification env' dto) w' = (Ok (Some n), w').
Proof.
  intros HI Hu Ht Hown Hk Hd Hq Hd' Hq' Htime Hjobs.
  rewrite run_createNotification by done. destruct (allowed env dto w) eqn:Hal; [|done].
  destruct (run (find_or_insert env dto) _) as [[m|e] v] eqn:Hf; [|done]. intros [= -> <-].
  set (u := dto_userId dto) in *.
  assert (notif_inv (with_prefs u w)) as HI1 by by eapply (inv_other w).
  destruct (run_find_or_insert env dto _ n v k HI1 Hu Ht Hown Hk Hf) as (Ep & Eu & _ & Hn).
  set (v' := with_mail _ _ _ v).
  assert (prefs v' = prefs v /\ user_prefs v' = user_prefs v /\ notifs v' = notifs v) as (Ep' & Eu' & En)
    by (by unfold v', with_mail; destruct (mailed_too _ _ _)).
  assert (prefs v' !! u = Some (pref_of u w)) as Hp by (rewrite Ep', Ep; apply lookup_insert_eq).
  assert (pref_of u v' = pref_of u w) as Hpo by (unfold pref_of at 1; by rewrite Hp).
  assert (forall ty, channels_of u ty v' = channels_of u ty w) as Hch.
  { intros ty. unfold channels_of, getUserChannelPreferences. run_simp. by rewrite Eu', Eu. }
  assert (forall time, quiet_of u time v' = quiet_of u time w) as Hqu.
  { intros time. unfold quiet_of, isQuietHoursForUser. run_simp. by rewrite Eu', Eu. }
  rewrite run_createNotification by done.
  replace (allowed env' dto v') with true by (rewrite <- Hal; unfold allowed; fold u; by rewrite Hpo, Hch, Hqu, Htime).
  fold u. rewrite (with_prefs_id u v' (pref_of u w)) by done. unfold find_or_insert. rewrite Hk.
  rewrite (owned_truthy u (dto_type dto)) by by apply source_key_owned. run_simp.
  replace (by_source_key k v') with (Some n) by (rewrite <- Hn; unfold by_source_key; by rewrite En). run_simp.
  replace (mailed_too env' dto v') with (mailed_too env dto w)
    by (unfold mailed_too; fold u; by rewrite Hpo, Hch, Hjobs).
  apply (f_equal (pair _)). unfold v', with_mail. destruct (mailed_too env dto w); [|done].
  unfold set_field; cbn. by rewrite job_add_twice.
Qed.
End service.

(** A window that ends the next morning is never quiet: the two times are compared
    as strings of one day. *)
Theorem overnight_never_quiet p start stop time :
  quietHoursStart p = Some start -> quietHoursEnd p = Some stop -> str_le start stop = false ->
  isQuietHours p time = false.
Proof.
  intros Hs He Hle. unfold isQuietHours, between_times. rewrite Hs, He.
  destruct (str_le start time) eqn:H1, (str_le time stop) eqn:H2; rewrite ?andb_false_r; try done.
  by rewrite (str_le_trans start time stop) in Hle.
Qed.

(** ** Witnesses *)
Definition ex_uuid : string := "7b0e6f0a-33a1-4a1e-9b3b-0d5c0f2f8a11".
Definition ex_env (id : string) : Env := {|
  dbUp := true; jobsEnabled := true; queueUp := true; timeOfDay := "12:00:00"; clockNow := 1000; newId := id |}.
Definition ex_dto : CreateNotificationDto := {|
  dto_type := MENTION; dto_userId := ex_uuid; dto_title := "Mentioned"; dto_message := "You were mentioned";
  dto_metadata := Some (JObj [("commentId", JNum (num_of_Z 7))]); dto_sourceKey := None;
  dto_idempotencyKey := None |}.
Example ex_dto_key : source_key ex_dto = Some (ex_uuid +:+ ":mention:7").
Proof. vm_compute. reflexivity. Qed.
Definition ex_batch_prefs : NotificationPreference :=
  {| enableInAppNotifications := true; inAppNewMessage := true; inAppMessageBatch := false;
     enableEmailNotifications := true; emailNewMessage := true; emailMessageBatch := true;
     emailAddress := Some "a@b.c"; batchWindowMinutes := 5; batchThreshold := 3;
     enableQuietHours := false; quietHoursStart := None; quietHoursEnd := None |}.
Definition ex_notif_db : NotifDB (Q := MapQueue json) :=
  {| prefs := {[ ex_uuid := ex_batch_prefs ]}; user_prefs := ∅; notifs := ∅; queue := (∅, []) |}.

Lemma ex_notif_inv : notif_inv ex_notif_db.
Proof.
  split; cbn.
  - intros i n. by rewrite lookup_empty.
  - intros i j n m k. by rewrite lookup_empty.
  - intros i n. by rewrite lookup_empty.
  - intros i d. by rewrite lookup_empty.
Qed.
Lemma ex_dto_named : forall k, dto_sourceKey ex_dto = Some k -> owned (dto_userId ex_dto) (dto_type ex_dto) k.
Proof. discriminate. Qed.

(** Two requests with one key that both look before either inserts. *)
Definition ex_creates : gmap positive NotifActor :=
  {[ 1%positive := ACreate (ex_env "n-1") ex_dto; 2%positive := ACreate (ex_env "n-2") ex_dto ]}.
Definition ex_creates_run :=
  run_schedule [1; 1; 1; 1; 2; 2; 2; 2; 1; 1; 2; 2; 2; 2]%positive (ex_notif_db, serve_notif id <$> ex_creates).
Definition answer (p : option (prog (NotifDB (Q := MapQueue json)) notif_error (option Notification))) : option string :=
  match p with Some (Ret (Some n)) => Some (nf_id n) | _ => None end.
Example ex_creates_answers :
  (answer (ex_creates_run.2 !! 1%positive), answer (ex_creates_run.2 !! 2%positive),
   map fst (map_to_list (notifs ex_creates_run.1))) = (Some "n-1", Some "n-1", ["n-1"]).
Proof. vm_compute. reflexivity. Qed.

Lemma create_notification_once_witness :
  exists n, ex_creates_run.2 !! 2%positive = Some (Ret (Some n)) /\ nf_id n = "n-1"
    /\ exists n', notifs ex_creates_run.1 !! nf_id n = Some n' /\ nf_userId n' = ex_uuid
         /\ nf_sourceKey n' = Some (ex_uuid +:+ ":mention:7").
Proof.
  eexists. split; [vm_compute; reflexivity|]. split; [reflexivity|].
  assert (pool_reach (ex_notif_db, serve_notif id <$> ex_creates) (ex_creates_run.1, ex_creates_run.2)) as Hreach.
  { rewrite <- surjective_pairing. apply run_schedule_reach. }
  destruct (create_notification_once id ex_creates ex_notif_db ex_creates_run.1 ex_creates_run.2 ex_notif_inv) as (Hrow & _); [|exact Hreach|].
  - intros t a. unfold ex_creates. rewrite lookup_insert_Some, lookup_singleton_Some.
    intros [[_ <-]|[_ [_ <-]]]; (split; [reflexivity|split; [reflexivity|discriminate]]).
  - destruct (Hrow 2%positive (ex_env "n-2") ex_dto _ eq_refl ltac:(vm_compute; reflexivity)) as (n' & H1 & H2 & _ & H3).
    rewrite ex_dto_key in H3. exact (ex_intro _ n' (conj H1 (conj H2 H3))).
Defined.

Lemma create_notification_idempotent_witness :
  exists n w', run (createNotification (ex_env "n-1") ex_dto) ex_notif_db = (Ok (Some n), w')
    /\ run (createNotification (ex_env "n-2") ex_dto) w' = (Ok (Some n), w').
Proof.
  eexists _, _. split; [vm_compute; reflexivity|].
  eapply (create_notification_idempotent (ex_env "n-1") (ex_env "n-2") ex_dto _ ex_notif_db);
    [exact ex_notif_inv|reflexivity|reflexivity|exact ex_dto_named|apply ex_dto_key|reflexivity..|].
  vm_compute. reflexivity.
Defined.

(** A user who does not want batches: the third message within the window marks
    the first two as read, and tells the user of no batch. *)
Theorem batch_reads_without_notice :
  let go id m := fun w => (run (createMessageNotification (ex_env id) ex_uuid "9" m "hi") w).2 in
  let w := go "n-3" "m-3" (go "n-2" "m-2" (go "n-1" "m-1" ex_notif_db)) in
  map (fun p => (p.1, isRead p.2)) (map_to_list (notifs w)) = [("n-1", true); ("n-2", true)].
Proof. vm_compute. reflexivity. Qed.
