(* ===== verification/Outbox.v ===== *)
(** * The transactional outbox

    [src/xconfess-backend/src/notifications/services/outbox-dispatcher.service.ts]:
    services write events beside the rows they concern; every ten seconds each
    instance of the backend claims a batch of them and hands them to the
    notifications queue through [Notifications.enqueueNotification].  The world is
    the table of events, the world of the notification service and the instances
    that are in a run. *)
From S2P Require Import Prelude Numbers Json Effects JobQueue Notifications.
Open Scope Z_scope.

(** [src common/entities/outbox-event.entity.ts:10-16 OutboxStatus] *)
Inductive OutboxStatus := PENDING | PROCESSING | COMPLETED | SKIPPED_EVENT | FAILED.
#[export] Instance outbox_status_eq_dec : EqDecision OutboxStatus.
Proof. solve_decision. Defined.

(** [src common/entities/outbox-event.entity.ts:19-63 OutboxEvent] *)
Record OutboxEvent := {
  ev_id : string; ev_type : string; ev_payload : json; ev_status : OutboxStatus; retryCount : Z;
  ev_lastError : option string; ev_idempotencyKey : option string; ev_createdAt : ms;
  processedAt : option ms; claimedBy : option string; claimedAt : option ms;
}.
#[export] Instance eta_OutboxEvent : Eta OutboxEvent := fun e => {|
  ev_id := ev_id e; ev_type := ev_type e; ev_payload := ev_payload e; ev_status := ev_status e;
  retryCount := retryCount e; ev_lastError := ev_lastError e; ev_idempotencyKey := ev_idempotencyKey e;
  ev_createdAt := ev_createdAt e; processedAt := processedAt e; claimedBy := claimedBy e; claimedAt := claimedAt e |}.

Section dispatcher.
Context {Q : Type} `{!JobQueue json Q} (sha256 : string -> string).

Record OutboxDB := {
  events : gmap string OutboxEvent;
  notif_db : NotifDB (Q := Q);
  busy : gset string;
}.
#[export] Instance eta_OutboxDB : Eta OutboxDB := fun w =>
  {| events := events w; notif_db := notif_db w; busy := busy w |}.
#[export] Program Instance notif_lens : Lens OutboxDB (NotifDB (Q := Q)) := {|
  lget := notif_db; lset n w := w <| notif_db := n |> |}.
Solve Obligations with by intros; repeat match goal with w : OutboxDB |- _ => destruct w end.

Abbreviation action := (prog OutboxDB notif_error).

Definition LOCK_TIMEOUT_MS : ms := 5 * 60 * 1000.
Definition dispatch_types : list string :=
  ["comment_notification"; "message_notification"; "reply_notification"; "reaction_notification";
   "reaction_update"; "report_notification"].

(** The WHERE clause of the claim. *)
Definition claimable (now : ms) (e : OutboxEvent) : bool :=
  match ev_status e with
  | PENDING => true
  | FAILED => retryCount e <? 5
  | PROCESSING => match claimedAt e with Some t => t <? now - LOCK_TIMEOUT_MS | None => false end
  | COMPLETED | SKIPPED_EVENT => false
  end.
Definition oldest_first (a b : OutboxEvent) : bool := ev_createdAt a <=? ev_createdAt b.
Definition batch (limit : nat) (now : ms) (w : OutboxDB) : list OutboxEvent :=
  firstn limit (insertion_sort oldest_first (List.filter (claimable now) (map snd (map_to_list (events w))))).
Definition claimed (instanceId : string) (now : ms) (e : OutboxEvent) : OutboxEvent :=
  e <| ev_status := PROCESSING |> <| claimedBy := Some instanceId |> <| claimedAt := Some now |>.

(** [src notifications/services/outbox-dispatcher.service.ts:55-125 claimBatch]: one
    transaction that selects with SKIP LOCKED and marks what it selected. *)
Definition claimBatch (instanceId : string) (now : ms) (limit : nat) : action (list OutboxEvent) :=
  access (fun w =>
    let es := batch limit now w in
    (map (claimed instanceId now) es,
     w <| events ::= fmap (fun e => if includes (ev_id e) (map ev_id es) then claimed instanceId now e else e) |>)).

(** [outboxRepo.save(event)]: the columns of the row as the instance has them. *)
Definition save (e : OutboxEvent) : action unit := writes (fun w => w <| events ::= <[ev_id e := e]> |>).

(** [event.idempotencyKey || event.id]. *)
Definition dispatch_key (e : OutboxEvent) : string :=
  match ev_idempotencyKey e with Some k => if truthy k then k else ev_id e | None => ev_id e end.

Definition error_message (e : notif_error) : string :=
  match e with
  | NotFound m => m
  | UniqueViolation => "duplicate key value violates unique constraint"
  | ValueTooLong => "value too long"
  | EmptyCriteria => "Empty criteria(s) are not allowed"
  | DatabaseDown => "connection terminated"
  | QueueDown => "Connection is closed."
  end.

(** [findOne({ where: { idempotencyKey, status: COMPLETED } })]. *)
Definition completed_with (k : string) (w : OutboxDB) : option OutboxEvent :=
  snd <$> List.find (fun p : string * OutboxEvent =>
            bool_decide (ev_idempotencyKey p.2 = Some k) && bool_decide (ev_status p.2 = COMPLETED))
          (map_to_list (events w)).

(** [src notifications/services/outbox-dispatcher.service.ts:127-195 processEvent] *)
Definition processEvent (env : Env) (event : OutboxEvent) : action unit :=
  let finish status := event <| ev_status := status |> <| processedAt := Some (clockNow env) |> in
  try_catch
    (let* existingCompleted := (match ev_idempotencyKey event with
       | Some k => if truthy k then reads (completed_with k) else Ret None
       | None => Ret None
       end : action (option OutboxEvent)) in
     if from_option (fun e => negb (str_eqb (ev_id e) (ev_id event))) false existingCompleted then
       save (finish COMPLETED)
     else if includes (ev_type event) dispatch_types then
       let* outcome := lift id (enqueueNotification sha256 env None (ev_type event) (ev_payload event)
                                  (Some (dispatch_key event))) in
       match outcome with
       | SKIPPED reason => save (finish SKIPPED_EVENT <| ev_lastError := Some reason |>)
       | QUEUED _ => save (finish COMPLETED)
       end
     else save (finish COMPLETED))
    (fun error => save (event <| ev_status := FAILED |> <| retryCount ::= Z.succ |>
                              <| ev_lastError := Some (error_message error) |>)).

(** [src notifications/services/outbox-dispatcher.service.ts:41-53 processEvents];
    [later e] is what the turn of [e] finds outside. *)
Definition processEvents (instanceId : string) (now : ms) (later : OutboxEvent -> Env) : action unit :=
  let* claimedEvents := claimBatch instanceId now 50 in
  for_each claimedEvents (fun e => processEvent (later e) e).

(** [src notifications/services/outbox-dispatcher.service.ts:27-39 handleOutbox] *)
Definition handleOutbox (instanceId : string) (now : ms) (later : OutboxEvent -> Env) : action unit :=
  let* running := access (fun w => (bool_decide (instanceId ∈ busy w), w <| busy ::= union {[ instanceId ]} |>)) in
  if (running : bool) then Ret tt
  else
    do* try_catch (processEvents instanceId now later) (fun _ => Ret tt) in
    writes (fun w => w <| busy ::= (fun b => b ∖ {[ instanceId ]}) |>).

(** A service that records an event in the transaction of its own rows: an INSERT
    under the unique index of the keys. *)
Definition record_event (e : OutboxEvent) : action unit :=
  attempts (fun w =>
    match events w !! ev_id e with
    | Some _ => (Exn UniqueViolation, w)
    | None =>
        if existsb (fun p => bool_decide (is_Some (ev_idempotencyKey e))
                             && bool_decide (ev_idempotencyKey p.2 = ev_idempotencyKey e)) (map_to_list (events w))
        then (Exn UniqueViolation, w)
        else (Ok tt, w <| events ::= <[ev_id e := e]> |>)
    end).

(** ** Any interleaving of dispatchers, producers and requests *)
Definition known (e : OutboxEvent) : bool := includes (ev_type e) dispatch_types.
Definition has_job (e : OutboxEvent) (w : OutboxDB) : Prop :=
  is_Some (job_lookup (dispatch_key e) (queue (notif_db w))).
Definition skip_reasons : list (option string) :=
  [Some "background_jobs_disabled"; Some "email_preference_disabled"].

Record outbox_inv (w : OutboxDB) : Prop := {
  o_notif : notif_inv (notif_db w);
  o_id : forall i e, events w !! i = Some e ->
    ev_id e = i /\ truthy i = true /\ forall j, dispatch_key e <> "email-" +:+ j;
  o_key : forall i j e f k, events w !! i = Some e -> events w !! j = Some f ->
    ev_idempotencyKey e = Some k -> ev_idempotencyKey f = Some k -> i = j;
  o_done : forall i e, events w !! i = Some e -> ev_status e = COMPLETED -> known e = true -> has_job e w;
  o_skip : forall i e, events w !! i = Some e -> ev_status e = SKIPPED_EVENT -> ev_lastError e ∈ skip_reasons;
}.

Definition same_event (e e' : OutboxEvent) : Prop :=
  ev_id e' = ev_id e /\ ev_type e' = ev_type e /\ ev_payload e' = ev_payload e
  /\ ev_idempotencyKey e' = ev_idempotencyKey e /\ ev_createdAt e' = ev_createdAt e.

(** Steps keep the events, their contents, and the jobs. *)
Definition outbox_guar (t : positive) (w w' : OutboxDB) : Prop :=
  (forall i e, events w !! i = Some e -> exists e', events w' !! i = Some e' /\ same_event e e')
  /\ notif_guar t (notif_db w) (notif_db w').

(** The row of an event that some instance has loaded. *)
Definition row_of (e : OutboxEvent) (w : OutboxDB) : Prop :=
  exists e', events w !! ev_id e = Some e' /\ same_event e e'.

Lemma same_event_refl e : same_event e e.
Proof. by split_and!. Qed.
Lemma same_event_trans e f g : same_event e f -> same_event f g -> same_event e g.
Proof. unfold same_event. intuition congruence. Qed.
Lemma same_event_key e e' : same_event e e' -> dispatch_key e' = dispatch_key e /\ known e' = known e.
Proof. intros (Ei & Et & _ & Ek & _). unfold dispatch_key, known. by rewrite Ei, Et, Ek. Qed.

Lemma outbox_guar_refl t w : outbox_guar t w w.
Proof. split; [|apply notif_guar_refl]. intros i e He. eauto using same_event_refl. Qed.

Lemma row_of_guar t e w w' : outbox_guar t w w' -> row_of e w -> row_of e w'.
Proof.
  intros [HG _] (e' & He & Hs). destruct (HG _ _ He) as (f & Hf & Hs').
  exists f. split; [exact Hf|]. by eapply same_event_trans.
Qed.
Lemma stable_row t e : stable outbox_inv outbox_guar t (row_of e).
Proof. intros t' w w' _ _ Hr HG. by eapply row_of_guar. Qed.
Lemma stable_row_job t e : stable outbox_inv outbox_guar t (fun w => row_of e w /\ has_job e w).
Proof.
  intros t' w w' _ _ [Hr [d Hd]] HG. split; [by eapply row_of_guar|].
  destruct HG as [_ [_ HG]]. eexists. by apply HG.
Qed.

(** Events change, jobs stay: what an update must respect. *)
Lemma inv_update t w (f : gmap string OutboxEvent -> gmap string OutboxEvent) :
  outbox_inv w ->
  (forall i e', f (events w) !! i = Some e' -> exists e, events w !! i = Some e /\ same_event e e'
     /\ (ev_status e' = COMPLETED -> known e' = true -> ev_status e = COMPLETED \/ has_job e' w)
     /\ (ev_status e' = SKIPPED_EVENT -> ev_status e = SKIPPED_EVENT /\ ev_lastError e' = ev_lastError e
                                        \/ ev_lastError e' ∈ skip_reasons)) ->
  (forall i e, events w !! i = Some e -> is_Some (f (events w) !! i)) ->
  outbox_inv (w <| events ::= f |>) /\ outbox_guar t w (w <| events ::= f |>).
Proof.
  intros HI Hback Hfwd. split; [split; cbn|split; [|apply notif_guar_refl]].
  - apply (o_notif _ HI).
  - intros i e' (e & He & Hs & _)%Hback. destruct (o_id _ HI i e He) as (Hi & Ht & Hk).
    destruct (same_event_key e e' Hs) as [-> _]. destruct Hs as (-> & _). done.
  - intros i j e' g' k (e & He & Hs & _)%Hback (g & Hg & Hs' & _)%Hback.
    destruct Hs as (_ & _ & _ & -> & _). destruct Hs' as (_ & _ & _ & -> & _). by apply (o_key _ HI).
  - intros i e' (e & He & Hs & Hd & _)%Hback Hst Hkn. destruct (Hd Hst Hkn) as [Hst'|Hj]; [|exact Hj].
    destruct (same_event_key e e' Hs) as [Ek En]. assert (known e = true) as Hkn0 by (by rewrite <- En). pose proof (o_done _ HI i e He Hst' Hkn0) as Hj.
    unfold has_job in *. by rewrite Ek.
  - intros i e' (e & He & Hs & _ & Hsk)%Hback Hst. destruct (Hsk Hst) as [[Hst' ->]|Hr]; [|done].
    by apply (o_skip _ HI i).
  - intros i e He. destruct (Hfwd i e He) as [e' He']. exists e'. split; [exact He'|].
    destruct (Hback i e' He') as (e0 & He0 & Hs & _). by simplify_eq.
Qed.

(** The queue grows under the service's guarantee. *)
Lemma inv_queue t w n :
  outbox_inv w -> notif_inv n -> notif_guar t (notif_db w) n ->
  outbox_inv (w <| notif_db := n |>) /\ outbox_guar t w (w <| notif_db := n |>).
Proof.
  intros HI HIn HG. split; [split; cbn|split; [|done]].
  - done.
  - apply (o_id _ HI).
  - apply (o_key _ HI).
  - intros i e He Hst Hkn. destruct (o_done _ HI i e He Hst Hkn) as [d Hd]. eexists. by apply HG.
  - apply (o_skip _ HI).
  - intros i e He. eauto using same_event_refl.
Qed.

(** Claims change neither events nor what is done. *)
Definition mark_claimed (instanceId : string) (now : ms) (es : list OutboxEvent) (e : OutboxEvent) : OutboxEvent :=
  if includes (ev_id e) (map ev_id es) then claimed instanceId now e else e.
Lemma inv_claim t w instanceId now es :
  outbox_inv w ->
  outbox_inv (w <| events ::= fmap (mark_claimed instanceId now es) |>)
  /\ outbox_guar t w (w <| events ::= fmap (mark_claimed instanceId now es) |>).
Proof.
  intros HI. apply inv_update; [done| |].
  - intros i e'. rewrite lookup_fmap_Some. intros (e & <- & He). exists e. split; [done|].
    unfold mark_claimed. destruct (includes _ _); cbn; [by split_and!|].
    split_and!; [apply same_event_refl|by left|by left].
  - intros i e He. rewrite lookup_fmap, He. done.
Qed.

Section steps.
Context (t : positive).

Lemma spec_save e P :
  stable outbox_inv outbox_guar t P -> (forall w, P w -> row_of e w) ->
  (forall w, P w -> ev_status e = COMPLETED -> known e = true -> has_job e w) ->
  (ev_status e = SKIPPED_EVENT -> ev_lastError e ∈ skip_reasons) ->
  rg outbox_inv outbox_guar t P (save e) (fun o _ => match o with Ok _ => True | Exn _ => False end).
Proof.
  intros HP Hrow Hjob Hskip w HI HPw. destruct (Hrow w HPw) as (e0 & He0 & Hs).
  destruct (inv_update t w (<[ev_id e := e]>) HI) as [HI' HG].
  - intros i e'. rewrite lookup_insert_Some. intros [[<- <-]|[Hne Hi]].
    + exists e0. split; [done|]. split; [unfold same_event in *; intuition congruence|]. split; [eauto|].
      intros Hst. right. by apply Hskip.
    + exists e'. split; [done|]. split; [apply same_event_refl|]. split; [by left|]. intros Hst. left. done.
  - intros i e' Hi. destruct (decide (ev_id e = i)) as [<-|Hne]; [rewrite lookup_insert_eq; eauto|].
    rewrite lookup_insert_ne by done. eauto.
  - split; [exact HI'|]. split; [exact HG|]. exists (fun _ => True). by split_and!.
Qed.

Lemma spec_enqueue_event env e :
  truthy (ev_id e) = true -> (forall j, dispatch_key e <> "email-" +:+ j) ->
  rg outbox_inv outbox_guar t (row_of e)
    (lift id (enqueueNotification sha256 env None (ev_type e) (ev_payload e) (Some (dispatch_key e))))
    (fun o w => match o with
                | Ok (QUEUED _) => row_of e w /\ has_job e w
                | Ok (SKIPPED r) => row_of e w /\ Some r ∈ skip_reasons
                | Exn _ => row_of e w
                end).
Proof.
  intros Hid Hk.
  eapply rg_weaken; [|eapply rg_post; [|eapply (rg_lift_frame notif_inv notif_guar outbox_inv outbox_guar id t (row_of e));
    [apply o_notif|intros; by apply inv_queue|by intros ??? _ [_ ?]|apply stable_row| |
     apply (spec_enqueue sha256 t env None (ev_type e) (ev_payload e)); by intros i [= Hi%Hk]]]].
  - intros w _ Hr. by split.
  - intros o w [Hr (o' & -> & Ho)]. destruct o' as [[j|r]|x]; cbn in *; [|split; [done|]|done].
    + split; [done|]. unfold has_job. apply Ho. unfold stable_job_id, or_else.
      assert (truthy (dispatch_key e) = true) as ->; [|done].
      unfold dispatch_key. destruct (ev_idempotencyKey e) as [k|]; [|done]. by destruct (truthy k) eqn:?.
    + unfold skip_reasons. set_solver.
  - intros w q. done.
Qed.

Lemma spec_processEvent env e :
  truthy (ev_id e) = true -> (forall j, dispatch_key e <> "email-" +:+ j) ->
  rg outbox_inv outbox_guar t (row_of e) (processEvent env e) (fun _ _ => True).
Proof.
  intros Hid Hk. unfold processEvent.
  assert (forall st P, (forall w, P w -> row_of e w) -> stable outbox_inv outbox_guar t P ->
    st <> SKIPPED_EVENT -> (forall w, P w -> st = COMPLETED -> known e = true -> has_job e w) ->
    rg outbox_inv outbox_guar t P
      (save (e <| ev_status := st |> <| processedAt := Some (clockNow env) |>))
      (fun o _ => match o with Ok _ => True | Exn _ => False end)) as Hsave.
  { intros st P HP Hst Hne Hj. by apply spec_save. }
  apply rg_try_catch with (Q := fun _ => row_of e).
  2: { intros x. eapply rg_post; [|by apply spec_save; [apply stable_row|..]]. done. }
  apply rg_bind with (Q := fun (o : option OutboxEvent) w =>
     (forall f, o = Some f -> ev_id f = ev_id e) /\ row_of e w).
  { destruct (ev_idempotencyKey e) as [k|] eqn:Hke; [|by intros w _ Hr].
    destruct (truthy k); [|by intros w _ Hr]. intros w HI Hr. cbn. split; [done|]. split; [apply outbox_guar_refl|].
    exists (row_of e). split; [done|]. split; [apply stable_row|]. intros v _ Hv. split; [|done].
    intros f Hf. unfold completed_with in Hf. apply fmap_Some in Hf as ([i g] & Hfind & ->).
    apply find_some in Hfind as [Hin%list_elem_of_In Hb]. cbn in Hb |- *. boolp.
    apply elem_of_map_to_list in Hin. destruct Hr as (e' & He' & Hs).
    assert (i = ev_id e) as <-; [|by apply (o_id _ HI)].
    eapply (o_key _ HI); [exact Hin|exact He'|done|]. destruct Hs as (_ & _ & _ & -> & _). done. }
  intros o. apply rg_pure. intros Ho. replace (from_option _ false o) with false.
  2: { destruct o as [f|]; [|done]. cbn. by rewrite Ho, str_eqb_refl. }
  destruct (includes (ev_type e) dispatch_types) eqn:Hkn.
  - apply rg_bind with (Q := fun outcome w => match outcome with
        | QUEUED _ => row_of e w /\ has_job e w | SKIPPED r => Some r ∈ skip_reasons /\ row_of e w end).
    + eapply rg_post; [|by apply spec_enqueue_event]. intros [[j|r]|x] w; [done|naive_solver|done].
    + intros [j|r].
      * eapply rg_post; [|apply (Hsave COMPLETED (fun w => row_of e w /\ has_job e w))].
        { by intros []. } { by intros w []. } { apply stable_row_job. } { done. } { by intros w []. }
      * apply rg_pure. intros Hr. eapply rg_post; [|apply spec_save]; [by intros []|apply stable_row|done|done|done].
  - eapply rg_post; [|apply Hsave with (P := row_of e)]; [by intros []|done|apply stable_row|done|].
    intros w _ _ Hkn'. unfold known in Hkn'. congruence.
Qed.

Lemma batch_rows limit now w e : outbox_inv w -> e ∈ batch limit now w -> events w !! ev_id e = Some e.
Proof.
  intros HI He. unfold batch in He. apply elem_of_take in He as (n & Hn & _).
  apply list_elem_of_lookup_2, elem_of_insertion_sort, list_elem_of_In, filter_In in Hn as [Hn _].
  apply list_elem_of_In, list_elem_of_fmap in Hn as ([i e'] & -> & Hin). cbn.
  apply elem_of_map_to_list in Hin. by destruct (o_id _ HI i e' Hin) as [-> _].
Qed.

(** Everything an instance has claimed is still a row. *)
Definition rows_of (es : list OutboxEvent) (w : OutboxDB) : Prop :=
  forall e, e ∈ es -> row_of e w.
Lemma stable_rows es : stable outbox_inv outbox_guar t (rows_of es).
Proof. intros t' w w' _ _ Hr HG e He. eapply row_of_guar; [done|by apply Hr]. Qed.

Lemma spec_processEvents instanceId now later :
  rg outbox_inv outbox_guar t (fun _ => True) (processEvents instanceId now later) (fun _ _ => True).
Proof.
  intros w HI _. cbn. set (es := batch 50 now w).
  destruct (inv_claim t w instanceId now es HI) as [HI' HG].
  split; [exact HI'|]. split; [exact HG|].
  exists (fun v => Forall (fun e => truthy (ev_id e) = true /\ forall j, dispatch_key e <> "email-" +:+ j)
                     (map (claimed instanceId now) es) /\ rows_of (map (claimed instanceId now) es) v).
  assert (forall e, e ∈ map (claimed instanceId now) es -> exists e0, events w !! ev_id e = Some e0 /\ same_event e e0) as Hrows.
  { intros e (e0 & -> & He)%list_elem_of_fmap. exists e0. split; [exact (batch_rows 50 now w e0 HI He)|done]. }
  split; [split|split].
  - apply Forall_forall. intros e (e0 & He0 & Hs)%Hrows. destruct (o_id _ HI _ _ He0) as (_ & Ht & Hk).
    destruct (same_event_key _ _ Hs) as [<- _]. done.
  - intros e (e0 & He0 & Hs)%Hrows. eapply row_of_guar; [exact HG|]. by exists e0.
  - intros t' v v' Hne HIv [Hf Hr] HGv. split; [done|]. by eapply stable_rows.
  - apply rg_pure. intros Hall. rewrite Forall_forall in Hall. apply rg_for_each; [|done].
    intros e He. destruct (Hall e He) as [Ht Hk].
    eapply rg_weaken; [|eapply rg_post; [|eapply rg_carry; [|by apply (spec_processEvent (later e) e)]]].
    + intros v _ Hv. split; [exact (Hv e He)|exact Hv].
    + by intros [[]|x] v [_ Hv].
    + intros t' v v' Hv HGv e' He'. eapply row_of_guar; [exact HGv|by apply Hv].
Qed.

Lemma spec_handleOutbox instanceId now later :
  rg outbox_inv outbox_guar t (fun _ => True) (handleOutbox instanceId now later) (fun _ _ => True).
Proof.
  assert (forall f w, outbox_inv w -> outbox_inv (w <| busy ::= f |>) /\ outbox_guar t w (w <| busy ::= f |>)) as Hbusy.
  { intros f w [? ? ? ? ?]. split; [by split|]. split; [|apply notif_guar_refl]. intros i e He. eauto using same_event_refl. }
  unfold handleOutbox. apply rg_bind with (Q := fun _ _ => True).
  { intros w HI _. destruct (Hbusy (union {[instanceId]}) w HI). cbn. split; [done|]. split; [done|].
    exists (fun _ => True). by split_and!. }
  intros running. destruct running; [by intros v|].
  apply rg_bind with (Q := fun _ _ => True).
  - apply rg_try_catch with (Q := fun _ _ => True); [|by intros _ v].
    eapply rg_post; [|apply spec_processEvents]. by intros [].
  - intros _ v HI' _. destruct (Hbusy (fun b => b ∖ {[instanceId]}) v HI'). cbn. split_and!; [done..|].
    exists (fun _ => True). by split_and!.
Qed.

(** A recorded event is pending and named outside the mails of notifications. *)
Definition recordable (e : OutboxEvent) : Prop :=
  truthy (ev_id e) = true /\ ev_status e = PENDING /\ forall j, dispatch_key e <> "email-" +:+ j.

Lemma spec_record e :
  recordable e ->
  rg outbox_inv outbox_guar t (fun _ => True) (record_event e)
    (fun o w => match o with Ok _ => row_of e w | Exn _ => True end).
Proof.
  intros (Hid & Hst & Hk) w HI _. cbn.
  destruct (events w !! ev_id e) as [e'|] eqn:He; cbn;
    [split; [done|]; split; [apply outbox_guar_refl|]; exists (fun _ => True); by split_and!|].
  destruct (existsb _ _) eqn:Hex; cbn;
    [split; [done|]; split; [apply outbox_guar_refl|]; exists (fun _ => True); by split_and!|].
  assert (forall i f k, events w !! i = Some f -> ev_idempotencyKey e = Some k -> ev_idempotencyKey f <> Some k) as Hnew.
  { intros i f k Hf Hek Hfk. assert (existsb (fun p : string * OutboxEvent => bool_decide (is_Some (ev_idempotencyKey e))
        && bool_decide (ev_idempotencyKey p.2 = ev_idempotencyKey e)) (map_to_list (events w)) = true) as Ht; [|congruence].
    apply existsb_exists. exists (i, f). split; [by apply list_elem_of_In, elem_of_map_to_list|].
    cbn. rewrite Hek, Hfk. by rewrite !bool_decide_eq_true_2. }
  destruct HI as [Hn Hids Hkeys Hdone Hskip]. split; [split|split; [split|]]; cbn.
  - done.
  - intros i f. rewrite lookup_insert_Some. intros [[<- <-]|[_ Hf]]; [done|by apply Hids].
  - intros i j f g k. rewrite !lookup_insert_Some.
    intros [[<- <-]|[Hi Hf]] [[<- <-]|[Hj Hg]] H1 H2; [done|..]; [by destruct (Hnew j g k)|by destruct (Hnew i f k)|].
    by eapply Hkeys.
  - intros i f. rewrite lookup_insert_Some. intros [[<- <-]|[_ Hf]]; [by rewrite Hst|]. by apply (Hdone i).
  - intros i f. rewrite lookup_insert_Some. intros [[<- <-]|[_ Hf]]; [by rewrite Hst|]. by apply (Hskip i).
  - intros i f Hf. exists f. rewrite lookup_insert_ne by congruence. split; [done|]. apply same_event_refl.
  - apply notif_guar_refl.
  - exists (row_of e). split; [exists e; cbn; rewrite lookup_insert_eq; split; [done|apply same_event_refl]|].
    split; [apply stable_row|]. by intros v.
Qed.
End steps.

Inductive OutboxActor :=
| ODispatch (instanceId : string) (now : ms) (later : OutboxEvent -> Env)
| ORecord (e : OutboxEvent)
| ONotif (a : NotifActor).
Definition serve_outbox (a : OutboxActor) : action unit :=
  match a with
  | ODispatch i now later => handleOutbox i now later
  | ORecord e => record_event e
  | ONotif a => do* lift id (serve_notif sha256 a) in Ret tt
  end.
Definition proper (a : OutboxActor) : Prop :=
  match a with ODispatch _ _ _ => True | ORecord e => recordable e | ONotif a => well_named a end.

Lemma spec_serve_outbox t a :
  proper a ->
  rg outbox_inv outbox_guar t (fun _ => True) (serve_outbox a)
    (fun o w => forall e, a = ORecord e -> o = Ok tt -> row_of e w).
Proof.
  intros Ha. destruct a as [i now later|e|a].
  - eapply rg_post; [|apply spec_handleOutbox]. done.
  - eapply rg_post; [|by apply spec_record]. by intros o w Ho e' [= <-] ->.
  - apply rg_bind with (Q := fun _ _ => True); [|by intros _ w].
    eapply rg_weaken; [|eapply rg_post; [|eapply (rg_lift_frame notif_inv notif_guar outbox_inv outbox_guar id t (fun _ => True));
      [apply o_notif|intros; by apply inv_queue|by intros ??? _ [_ ?]|apply stable_True|done|by apply (spec_serve_notif sha256 t a)]]].
    + done.
    + by intros [].
Qed.

(** ** A run on its own *)

(** Producers address events by mail, so that no preference is asked for. *)
Definition by_mail (e : OutboxEvent) : bool :=
  bool_decide (first_field (ev_payload e) ["userId"; "recipientId"] = None).
Definition accepting (env : Env) : bool := jobsEnabled env && queueUp env.
Definition event_job (e : OutboxEvent) : json :=
  job_payload (ev_type e) (ev_payload e) (Some (dispatch_key e)) None.
Definition finished (env : Env) (e : OutboxEvent) : OutboxEvent :=
  e <| ev_status := COMPLETED |> <| processedAt := Some (clockNow env) |>.
Definition posted (w : OutboxDB) (k : string) : option json := job_lookup k (queue (notif_db w)).

Lemma completed_same w e f k :
  outbox_inv w -> row_of e w -> ev_idempotencyKey e = Some k -> completed_with k w = Some f -> ev_id f = ev_id e.
Proof.
  intros HI (e' & He' & Hs) Hk Hf. unfold completed_with in Hf. apply fmap_Some in Hf as ([i g] & Hfind & ->).
  apply find_some in Hfind as [Hin%list_elem_of_In Hb]. cbn in Hb |- *. boolp.
  apply elem_of_map_to_list in Hin. rewrite (proj1 (o_id _ HI i g Hin)).
  eapply (o_key _ HI); [exact Hin|exact He'|done|]. destruct Hs as (_ & _ & _ & -> & _). done.
Qed.

Lemma run_processEvent env e w :
  outbox_inv w -> row_of e w -> by_mail e = true -> accepting env = true ->
  truthy (ev_id e) = true ->
  exists w', run (processEvent env e) w = (Ok tt, w')
    /\ events w' = <[ev_id e := finished env e]> (events w) /\ busy w' = busy w
    /\ posted w' (dispatch_key e) =
         (if known e then Some (default (event_job e) (posted w (dispatch_key e))) else posted w (dispatch_key e))
    /\ (forall k, k <> dispatch_key e -> posted w' k = posted w k).
Proof.
  intros HI Hrow Hmail [Hjobs Hq]%andb_true_iff Hid. unfold by_mail in Hmail. boolp.
  assert (forall o, run (match ev_idempotencyKey e with
       | Some k => if truthy k then reads (completed_with k) else Ret None
       | None => Ret None end : action (option OutboxEvent)) w = (Ok o, w) ->
     from_option (fun f => negb (str_eqb (ev_id f) (ev_id e))) false o = false) as Hcomp.
  { intros o. destruct (ev_idempotencyKey e) as [k|] eqn:Hk; [|by intros [= <-]].
    destruct (truthy k); [|by intros [= <-]]. run_simp. intros [= <-].
    destruct (completed_with k w) as [f|] eqn:Hf; [|done]. cbn.
    by rewrite (completed_same w e f k), str_eqb_refl. }
  assert (exists o, run (match ev_idempotencyKey e with
       | Some k => if truthy k then reads (completed_with k) else Ret None
       | None => Ret None end : action (option OutboxEvent)) w = (Ok o, w)) as [o Ho].
  { destruct (ev_idempotencyKey e) as [k|]; [destruct (truthy k)|]; by eexists. }
  unfold processEvent. rewrite run_try_catch, run_bind, Ho, (Hcomp o Ho). fold (known e).
  destruct (known e) eqn:Hkn.
  - rewrite run_bind, run_lift. unfold enqueueNotification. rewrite Hjobs, Hmail. cbn [negb]. run_simp.
    unfold queue_add. rewrite Hq. run_simp.
    assert (truthy (dispatch_key e) = true) as Hdk.
    { unfold dispatch_key. destruct (ev_idempotencyKey e) as [k|]; [|done]. by destruct (truthy k) eqn:?. }
    unfold stable_job_id, or_else. rewrite Hdk. eexists. split; [done|]. cbn. split_and!; [done..| |].
    + unfold posted. cbn. by rewrite job_add_lookup.
    + intros k Hne. unfold posted. cbn. by rewrite job_add_other.
  - eexists. split; [done|]. by cbn.
Qed.

(** The jobs a batch leaves: the first event of a key posts its job. *)
Definition post_batch (es : list OutboxEvent) (jobs : string -> option json) (k : string) : option json :=
  match jobs k with
  | Some d => Some d
  | None => event_job <$> List.find (fun e => known e && str_eqb (dispatch_key e) k) es
  end.

Lemma run_batch later es w :
  outbox_inv w -> (forall e, e ∈ es -> row_of e w) -> NoDup (map ev_id es) ->
  Forall (fun e => by_mail e = true /\ accepting (later e) = true) es ->
  exists w', run (for_each es (fun e => processEvent (later e) e)) w = (Ok tt, w')
    /\ busy w' = busy w
    /\ (forall e, e ∈ es -> events w' !! ev_id e = Some (finished (later e) e))
    /\ (forall i, ~ i ∈ map ev_id es -> events w' !! i = events w !! i)
    /\ (forall k, posted w' k = post_batch es (posted w) k).
Proof.
  revert w; induction es as [|e es IH]; intros w HI Hrows Hnd Hok; cbn [for_each].
  { exists w. split_and!; [done|done|set_solver|done|]. intros k. unfold post_batch. by destruct (posted w k). }
  apply NoDup_cons in Hnd as [Hnew Hnd]. apply Forall_cons in Hok as [[Hm Ha] Hok].
  assert (row_of e w) as Hrow by (apply Hrows; left). destruct Hrow as (e0 & He0 & Hs).
  destruct (o_id _ HI _ _ He0) as (_ & Ht & Hmk). destruct (same_event_key _ _ Hs) as [Ek _]. rewrite Ek in Hmk.
  destruct (run_processEvent (later e) e w HI ltac:(by exists e0) Hm Ha Ht) as (w1 & Hrun & Hev & Hb & Hp & Hpo).
  destruct (rg_run outbox_inv outbox_guar 1%positive (row_of e) (processEvent (later e) e) (fun _ _ => True) w)
    as [HI1 _]; [by apply spec_processEvent|done|by exists e0|]. rewrite Hrun in HI1. cbn in HI1.
  destruct (IH w1 HI1) as (w' & Hrun' & Hb' & Hin & Hout & Hpost); [|done|done|].
  { intros f Hf. destruct (Hrows f ltac:(by right)) as (f' & Hf' & Hs'). exists f'. split; [|done].
    rewrite Hev, lookup_insert_ne; [done|]. intros Heq. apply Hnew. rewrite Heq. by apply list_elem_of_fmap_2. }
  exists w'. rewrite run_bind, Hrun. split; [exact Hrun'|]. split; [congruence|]. split; [|split].
  - intros f [->|Hf]%elem_of_cons; [|by apply Hin]. rewrite Hout by done. rewrite Hev. apply lookup_insert_eq.
  - intros i Hi. rewrite Hout by set_solver. rewrite Hev, lookup_insert_ne; [done|]. set_solver.
  - intros k. rewrite Hpost. unfold post_batch. cbn [List.find]. destruct (str_eqb_spec (dispatch_key e) k) as [<-|Hne].
    + rewrite Hp. destruct (known e); cbn [andb]; [|done]. by destruct (posted w (dispatch_key e)).
    + rewrite Hpo by done. by rewrite andb_false_r.
Qed.

(** *** The outbox as a queue

    What the dispatcher implements: events wait, oldest first, and a run takes the
    next fifty off and posts their jobs. *)
Record Fifo := { waiting : list OutboxEvent; jobs : string -> option json }.
Definition fifo_run (n : nat) (q : Fifo) : Fifo :=
  {| waiting := skipn n (waiting q); jobs := post_batch (firstn n (waiting q)) (jobs q) |}.
Definition rows (w : OutboxDB) : list OutboxEvent := map snd (map_to_list (events w)).
Definition waiting_at (now : ms) (w : OutboxDB) : list OutboxEvent :=
  insertion_sort oldest_first (List.filter (claimable now) (rows w)).
(** The outbox [w], at a time when what is claimable does not change, is the queue [q]. *)
Definition implements (w : OutboxDB) (q : Fifo) : Prop :=
  (forall now, waiting_at now w = waiting q) /\ (forall k, posted w k = jobs q k).
(** No claim is open: no instance is in a run, and none has died in one. *)
Definition settled (w : OutboxDB) : Prop :=
  busy w = ∅ /\ forall i e, events w !! i = Some e -> ev_status e <> PROCESSING.

Lemma settled_claimable w now now' : settled w -> waiting_at now w = waiting_at now' w.
Proof.
  intros [_ H]. unfold waiting_at. f_equal. apply filter_ext_in. intros e (x & <- & Hin)%in_map_iff.
  apply list_elem_of_In in Hin. destruct x as [i e]. apply elem_of_map_to_list in Hin. pose proof (H i e Hin). unfold claimable. cbn.
  by destruct (ev_status e).
Qed.

Lemma NoDup_rows w : outbox_inv w -> NoDup (map ev_id (rows w)).
Proof.
  intros HI. unfold rows. rewrite map_map.
  rewrite (map_ext_in _ fst); [apply NoDup_fst_map_to_list|].
  intros [i e] Hin%list_elem_of_In%elem_of_map_to_list. by apply (o_id _ HI).
Qed.
Lemma waiting_perm now w : waiting_at now w ≡ₚ List.filter (claimable now) (rows w).
Proof. apply insertion_sort_perm. Qed.
Lemma NoDup_filter_map (f : OutboxEvent -> bool) l : NoDup (map ev_id l) -> NoDup (map ev_id (List.filter f l)).
Proof.
  induction l as [|e l IH]; cbn; [done|]. intros [Hn Hnd]%NoDup_cons. destruct (f e); cbn; [|auto].
  apply NoDup_cons. split; [|auto]. intros (x & Hx & [Hin _]%list_elem_of_In%filter_In)%list_elem_of_fmap.
  apply Hn. apply list_elem_of_fmap. exists x. split; [done|by apply list_elem_of_In].
Qed.
Lemma NoDup_waiting now w : outbox_inv w -> NoDup (map ev_id (waiting_at now w)).
Proof. intros HI. rewrite waiting_perm. by apply NoDup_filter_map, NoDup_rows. Qed.

(** The rows of a table updated in place. *)
Lemma rows_update w w' (g : OutboxEvent -> OutboxEvent) :
  events w' = g <$> events w -> rows w' = map g (rows w).
Proof. intros H. unfold rows. rewrite H, map_to_list_fmap, !map_map. apply map_ext. by intros [i e]. Qed.

Lemma oldest_total a b : oldest_first a b || oldest_first b a = true.
Proof. unfold oldest_first. apply orb_true_iff. rewrite !Z.leb_le. lia. Qed.
Lemma oldest_trans a b c : oldest_first a b = true -> oldest_first b c = true -> oldest_first a c = true.
Proof. unfold oldest_first. rewrite !Z.leb_le. lia. Qed.

(** One run takes the next batch off the queue. *)
Lemma run_handleOutbox instanceId now later w :
  outbox_inv w -> settled w ->
  Forall (fun e => by_mail e = true /\ accepting (later (claimed instanceId now e)) = true) (batch 50 now w) ->
  exists w', run (handleOutbox instanceId now later) w = (Ok tt, w')
    /\ outbox_inv w' /\ settled w'
    /\ waiting_at now w' = skipn 50 (waiting_at now w)
    /\ (forall k, posted w' k = post_batch (batch 50 now w) (posted w) k)
    /\ (forall e, e ∈ batch 50 now w -> exists e', events w' !! ev_id e = Some e' /\ ev_status e' = COMPLETED).
Proof.
  intros HI Hset Hok. pose proof Hset as [Hbusy Hproc].
  destruct (rg_run outbox_inv outbox_guar 1%positive (fun _ => True) (handleOutbox instanceId now later)
    (fun _ _ => True) w) as [HI' _]; [apply spec_handleOutbox|done|done|].
  unfold handleOutbox in *. rewrite run_bind, run_access in *. cbn [fst snd] in *.
  rewrite Hbusy in *. rewrite bool_decide_eq_false_2 in * by set_solver.
  rewrite run_bind, run_try_catch in *. unfold processEvents in *. rewrite run_bind in *.
  set (w0 := w <| busy ::= union {[instanceId]} |>) in *.
  change (batch 50 now w0) with (batch 50 now w) in *.
  unfold claimBatch in *. rewrite run_access in *. cbn [fst snd] in *. change (batch 50 now w0) with (batch 50 now w) in *.
  set (es := batch 50 now w) in *.
  set (w1 := w0 <| events ::= fmap (mark_claimed instanceId now es) |>).
  assert (outbox_inv w1) as HI1.
  { apply (inv_claim 1%positive w0). destruct HI. by split. }
  assert (forall e, e ∈ es -> events w !! ev_id e = Some e) as Hes by (intros e He; exact (batch_rows 50 now w e HI He)).
  assert (forall e, includes (ev_id e) (map ev_id es) = true -> events w !! ev_id e = Some e -> e ∈ es) as Hin.
  { intros e (f & Hf & Hfin)%includes_spec%list_elem_of_fmap He. pose proof (Hes f Hfin). rewrite Hf in He. by simplify_eq. }
  destruct (run_batch later (map (claimed instanceId now) es) w1 HI1) as (w2 & Hrun & Hb & Hdone & Hout & Hpost).
  { intros e (f & -> & Hf)%list_elem_of_fmap. exists (claimed instanceId now f). split; [|apply same_event_refl].
    cbn. rewrite lookup_fmap, (Hes f Hf). cbn. unfold mark_claimed.
    by rewrite (proj2 (includes_spec _ _)) by (by apply list_elem_of_fmap_2). }
  { rewrite map_map. cbn. pose proof (NoDup_waiting now w HI) as Hnd.
    rewrite <- (firstn_skipn 50 (waiting_at now w)), map_app in Hnd. by apply NoDup_app in Hnd as [Hnd _]. }
  { apply Forall_map. exact Hok. }
  rewrite map_map in Hout. cbn in Hout.
  set (g := fun e => if includes (ev_id e) (map ev_id es)
                     then finished (later (claimed instanceId now e)) (claimed instanceId now e) else e).
  assert (events w2 = g <$> events w) as Hev.
  { apply map_eq. intros i. rewrite lookup_fmap. destruct (decide (i ∈ map ev_id es)) as [Hi|Hi].
    - apply list_elem_of_fmap in Hi as (e & -> & He). rewrite (Hes e He). cbn. unfold g.
      rewrite (proj2 (includes_spec _ _)) by (by apply list_elem_of_fmap_2).
      apply (Hdone (claimed instanceId now e)). by apply list_elem_of_fmap_2.
    - rewrite (Hout i Hi). cbn. rewrite lookup_fmap. destruct (events w !! i) as [e|] eqn:He; [|done]. cbn.
      f_equal. unfold mark_claimed, g. destruct (o_id _ HI i e He) as [-> _].
      destruct (includes i _) eqn:Hinc; [|done]. by apply includes_spec in Hinc. }
  assert (run (for_each (map (claimed instanceId now) es) (fun e => processEvent (later e) e)) w1 = (Ok tt, w2)) as Hr by exact Hrun.
  match goal with |- context [run (for_each ?l ?b) ?v] => change (run (for_each l b) v) with
    (run (for_each (map (claimed instanceId now) es) (fun e => processEvent (later e) e)) w1) end.
  match type of HI' with context [run (for_each ?l ?b) ?v] => change (run (for_each l b) v) with
    (run (for_each (map (claimed instanceId now) es) (fun e => processEvent (later e) e)) w1) in HI' end.
  rewrite Hr in *. run_simp. run_simp_in HI'. eexists. split; [done|]. split; [exact HI'|].
  split; [|split; [|split]].
  - split; [cbn; rewrite Hb; cbn; rewrite Hbusy; set_solver|]. cbn. intros i e'. rewrite Hev, lookup_fmap_Some.
    intros (e & <- & He). unfold g. destruct (includes _ _); [done|]. by apply (Hproc i).
  - unfold waiting_at. rewrite (rows_update w _ g) by exact Hev.
    rewrite filter_map_comm.
    rewrite (filter_ext _ (fun e => claimable now e && negb (includes (ev_id e) (map ev_id es)))).
    2: { intros e. unfold g. destruct (includes _ _); cbn; [by rewrite andb_false_r|by rewrite andb_true_r]. }
    rewrite filter_andb. rewrite (map_ext_in g id), map_id.
    2: { intros e [_ He]%filter_In. unfold g. by destruct (includes _ _). }
    rewrite <- filter_insertion_sort; [|apply oldest_total|apply oldest_trans].
    apply (filter_drop ev_id 50 (waiting_at now w)), NoDup_waiting, HI.
  - intros k. transitivity (posted w2 k); [done|]. rewrite Hpost. unfold post_batch.
    change (posted w1 k) with (posted w k). destruct (posted w k); [done|]. clear. induction es as [|e l IH]; [done|]. cbn [map List.find].
    change (known (claimed instanceId now e)) with (known e).
    change (dispatch_key (claimed instanceId now e)) with (dispatch_key e). by destruct (_ && _).
  - intros e He. eexists. split; [cbn; apply (Hdone (claimed instanceId now e)); by apply list_elem_of_fmap_2|done].
Qed.

Lemma post_batch_app l l' f k : post_batch (l ++ l') f k = post_batch l' (post_batch l f) k.
Proof.
  unfold post_batch. destruct (f k); [done|].
  induction l as [|e l IH]; [reflexivity|]. cbn [app List.find]. by destruct (_ && _).
Qed.
Lemma post_batch_ext l f g k : f k = g k -> post_batch l f k = post_batch l g k.
Proof. unfold post_batch. by intros ->. Qed.
Lemma post_batch_known l f e : e ∈ l -> known e = true -> is_Some (post_batch l f (dispatch_key e)).
Proof.
  intros He Hk. unfold post_batch. destruct (f _); [eauto|].
  destruct (List.find _ l) as [e'|] eqn:Hf; [by eexists|].
  apply list_elem_of_In in He. pose proof (find_none _ _ Hf e He) as H. cbn beta in H. by rewrite Hk, str_eqb_refl in H.
Qed.

(** Runs one after the other. *)
Fixpoint dispatches (l : list (string * ms * (OutboxEvent -> Env))) (w : OutboxDB) : OutboxDB :=
  match l with
  | [] => w
  | (instanceId, now, later) :: l' => dispatches l' (run (handleOutbox instanceId now later) w).2
  end.

(** ** Properties *)

(** C5. No event is lost. Let dispatchers of any number of instances, services that
    record events and requests of the notification service interleave in any way,
    stale saves and expired claims included. An event that was recorded stays in the
    table; it is completed only when a job is in the queue under its key, or no job
    exists for its type; and it is skipped only because jobs are disabled or the
    recipient does not want mails. *)
Theorem outbox_no_loss (actors : gmap positive OutboxActor) w0 w ps :
  outbox_inv w0 -> (forall t a, actors !! t = Some a -> proper a) ->
  pool_reach (w0, serve_outbox <$> actors) (w, ps) ->
  (forall i e, events w0 !! i = Some e -> exists e', events w !! i = Some e' /\ same_event e e')
  /\ (forall t e, actors !! t = Some (ORecord e) -> ps !! t = Some (Ret tt) ->
        exists e', events w !! ev_id e = Some e' /\ same_event e e')
  /\ (forall i e, events w !! i = Some e -> ev_status e = COMPLETED ->
        is_Some (job_lookup (dispatch_key e) (queue (notif_db w))) \/ ~ ev_type e ∈ dispatch_types)
  /\ (forall i e, events w !! i = Some e -> ev_status e = SKIPPED_EVENT ->
        ev_lastError e = Some "background_jobs_disabled" \/ ev_lastError e = Some "email_preference_disabled").
Proof.
  intros HI0 Hproper Hreach.
  set (kept := fun w => forall i e, events w0 !! i = Some e -> exists e', events w !! i = Some e' /\ same_event e e').
  assert (pool_ok outbox_inv outbox_guar (fun t o w => (forall e, actors !! t = Some (ORecord e) -> o = Ok tt -> row_of e w))
            (w0, serve_outbox <$> actors)) as Hinit.
  { split; [done|]. intros t p. cbn. rewrite lookup_fmap_Some. intros (a & <- & Ha).
    exists (fun _ => True). split; [done|]. split; [apply stable_True|].
    eapply rg_post; [|apply spec_serve_outbox, (Hproper t a Ha)]. intros o v Ho e He. apply Ho. congruence. }
  destruct (rg_sound _ _ _ _ _ Hinit Hreach) as [HI Hps]. cbn in HI, Hps.
  assert (kept w) as Hkept.
  { apply (pool_guar_inv outbox_inv outbox_guar kept _ _ (w, ps)) with (3 := Hinit); [| |exact Hreach].
    - intros t v v' Hk [HG _] i e He. destruct (Hk i e He) as (e' & He' & Hs).
      destruct (HG i e' He') as (f & Hf & Hs'). exists f. split; [done|]. by eapply same_event_trans.
    - intros i e He. eauto using same_event_refl. }
  split; [exact Hkept|]. split; [|split].
  - intros t e Ha Hret. destruct (Hps t _ Hret) as (P & HP & _ & Hrg). by apply (Hrg w HI HP e Ha).
  - intros i e He Hst. destruct (known e) eqn:Hkn; [left; by apply (o_done _ HI i)|right].
    intros Hin%includes_spec. unfold known in Hkn. congruence.
  - intros i e He Hst. pose proof (o_skip _ HI i e He Hst) as Hr. unfold skip_reasons in Hr. set_solver.
Qed.

(** C33. The dispatcher implements a queue: a run that finds the queue accepting and no
    claim open answers for the fifty oldest events, which become completed; the
    other events keep waiting, in order; and the jobs there are afterwards are those
    of the abstract run, each under the key of its event. *)
Theorem handleOutbox_refines instanceId now later w q :
  outbox_inv w -> settled w -> implements w q ->
  Forall (fun e => by_mail e = true /\ accepting (later (claimed instanceId now e)) = true) (firstn 50 (waiting q)) ->
  exists w', run (handleOutbox instanceId now later) w = (Ok tt, w')
    /\ outbox_inv w' /\ settled w' /\ implements w' (fifo_run 50 q)
    /\ forall e, e ∈ firstn 50 (waiting q) -> exists e', events w' !! ev_id e = Some e' /\ ev_status e' = COMPLETED.
Proof.
  intros HI Hset [Hw Hj] Hok. rewrite <- (Hw now) in Hok |- *.
  destruct (run_handleOutbox instanceId now later w HI Hset Hok) as (w' & Hrun & HI' & Hset' & Hwait & Hpost & Hdone).
  exists w'. split; [done|]. split; [done|]. split; [done|]. split; [split|exact Hdone].
  - intros now'. rewrite (settled_claimable w' now' now Hset'), Hwait. cbn. by rewrite Hw.
  - intros k. rewrite Hpost. cbn. rewrite <- (Hw now). by apply post_batch_ext.
Qed.

(** The outbox drains: with the queue accepting, as many runs as there are fifties
    of events leave none waiting, and every event of a type that has one has its
    job in the queue. *)
Theorem outbox_drains l w :
  outbox_inv w -> settled w ->
  Forall (fun e => by_mail e = true) (waiting_at 0 w) ->
  Forall (fun r => forall e, accepting (r.2 e) = true) l ->
  (length (waiting_at 0 w) <= 50 * length l)%nat ->
  (forall now, waiting_at now (dispatches l w) = [])
  /\ (forall e, e ∈ waiting_at 0 w -> known e = true -> is_Some (posted (dispatches l w) (dispatch_key e)))
  /\ (forall k, posted (dispatches l w) k = post_batch (waiting_at 0 w) (posted w) k).
Proof.
  intros HI Hset Hmail Hacc Hlen.
  enough ((forall now, waiting_at now (dispatches l w) = [])
    /\ (forall k, posted (dispatches l w) k = post_batch (waiting_at 0 w) (posted w) k)) as [H1 H2].
  { split; [done|]. split; [|done]. intros e He Hk. rewrite H2. by apply post_batch_known. }
  revert w HI Hset Hmail Hlen. induction l as [|[[i now] later] l IH]; intros w HI Hset Hmail Hlen; cbn [dispatches].
  - destruct (waiting_at 0 w) as [|e l] eqn:Hw; [|cbn in Hlen; lia]. split.
    + intros now. by rewrite (settled_claimable w now 0 Hset).
    + intros k. unfold post_batch. by destruct (posted w k).
  - apply Forall_cons in Hacc as [Ha Hacc]. cbn in Ha.
    pose proof (settled_claimable w now 0 Hset) as Hnow.
    assert (waiting_at 0 w = batch 50 now w ++ skipn 50 (waiting_at now w)) as Hsplit
      by (rewrite <- Hnow; symmetry; apply firstn_skipn).
    rewrite Hsplit in Hmail. apply Forall_app in Hmail as [Hm1 Hm2].
    destruct (run_handleOutbox i now later w HI Hset) as (w' & Hrun & HI' & Hset' & Hwait & Hpost & _).
    { eapply Forall_impl; [exact Hm1|]. auto. }
    rewrite Hrun. cbn [snd]. pose proof (settled_claimable w' 0 now Hset') as Hnow'.
    destruct (IH Hacc w' HI' Hset') as [H1 H2].
    + by rewrite Hnow', Hwait.
    + rewrite Hnow', Hwait, length_drop, Hnow. cbn in Hlen. lia.
    + split; [done|]. intros k. rewrite H2, Hnow', Hwait, Hsplit, post_batch_app. by apply post_batch_ext.
Qed.
End dispatcher.

(** ** Witnesses *)
Definition ex_event (id key : string) (at_ : ms) : OutboxEvent := {|
  ev_id := id; ev_type := "reaction_notification"; ev_payload := JObj [("reactionId", JStr id); ("recipientEmail", JStr "a@b.c")];
  ev_status := PENDING; retryCount := 0; ev_lastError := None; ev_idempotencyKey := Some key;
  ev_createdAt := at_; processedAt := None; claimedBy := None; claimedAt := None |}.
Definition ex_outbox (es : list OutboxEvent) : OutboxDB (Q := MapQueue json) := {|
  events := list_to_map (map (fun e => (ev_id e, e)) es);
  notif_db := ex_notif_db; busy := ∅ |}.
Definition ex_two : OutboxDB (Q := MapQueue json) := ex_outbox [ex_event "e-1" "r:1" 10; ex_event "e-2" "r:2" 20].

Lemma ex_outbox_empty_inv : outbox_inv (ex_outbox []).
Proof.
  split; cbn; [apply ex_notif_inv|..].
  - intros i e. by rewrite lookup_empty.
  - intros i j e f k. by rewrite lookup_empty.
  - intros i e. by rewrite lookup_empty.
  - intros i e. by rewrite lookup_empty.
Qed.
Lemma ex_two_rows i e :
  events ex_two !! i = Some e -> (i = "e-1" /\ e = ex_event "e-1" "r:1" 10) \/ (i = "e-2" /\ e = ex_event "e-2" "r:2" 20).
Proof.
  cbn. rewrite !lookup_insert_Some. intros [[<- <-]|[_ [[<- <-]|[_ H]]]]; [by left|by right|by rewrite lookup_empty in H].
Qed.
Lemma ex_two_inv : outbox_inv ex_two.
Proof.
  split; [apply ex_notif_inv|..].
  - intros i e [[-> ->]|[-> ->]]%ex_two_rows; (split; [done|split; [done|]]; intros j; discriminate).
  - intros i j e f k [[-> ->]|[-> ->]]%ex_two_rows [[-> ->]|[-> ->]]%ex_two_rows; cbn; congruence.
  - intros i e [[-> ->]|[-> ->]]%ex_two_rows; discriminate.
  - intros i e [[-> ->]|[-> ->]]%ex_two_rows; discriminate.
Qed.
Lemma ex_two_settled : settled ex_two.
Proof. split; [reflexivity|]. intros i e [[-> ->]|[-> ->]]%ex_two_rows; discriminate. Qed.

(** Two instances, a claim that expires, a queue that fails the second of them. *)
Definition ex_dispatchers : gmap positive OutboxActor :=
  {[ 1%positive := ODispatch "host-1" 1000 (fun _ => ex_env "x");
     2%positive := ODispatch "host-2" 400000 (fun _ => ex_env "y") ]}.
Definition ex_dispatch_run :=
  run_schedule [1; 1; 2; 2; 1; 1; 1; 2; 2; 2; 1; 1; 1; 2; 2; 2; 1; 2]%positive
    (ex_two, serve_outbox id <$> ex_dispatchers).

Lemma outbox_no_loss_witness :
  map (fun p => (p.1, bool_decide (ev_status p.2 = COMPLETED))) (map_to_list (events ex_dispatch_run.1))
    = [("e-1", true); ("e-2", true)]
  /\ forall i e, events ex_dispatch_run.1 !! i = Some e -> ev_status e = COMPLETED ->
       is_Some (job_lookup (dispatch_key e) (queue (notif_db ex_dispatch_run.1))) \/ ~ ev_type e ∈ dispatch_types.
Proof.
  split; [vm_compute; reflexivity|].
  assert (pool_reach (ex_two, serve_outbox id <$> ex_dispatchers) (ex_dispatch_run.1, ex_dispatch_run.2)) as Hreach.
  { rewrite <- surjective_pairing. apply run_schedule_reach. }
  refine (proj1 (proj2 (proj2 (outbox_no_loss id ex_dispatchers ex_two ex_dispatch_run.1 ex_dispatch_run.2
                                 ex_two_inv _ Hreach)))).
  intros t a. unfold ex_dispatchers. rewrite lookup_insert_Some, lookup_singleton_Some.
  intros [[_ <-]|[_ [_ <-]]]; exact I.
Defined.

Lemma handleOutbox_refines_witness :
  exists w', run (handleOutbox id "host-1" 1000 (fun _ => ex_env "x")) ex_two = (Ok tt, w')
    /\ waiting_at 1000 w' = [] /\ posted w' "r:1" = Some (event_job (ex_event "e-1" "r:1" 10)).
Proof.
  destruct (handleOutbox_refines id "host-1" 1000 (fun _ => ex_env "x") ex_two
              {| waiting := waiting_at 0 ex_two; jobs := posted ex_two |} ex_two_inv ex_two_settled) as
    (w' & Hrun & _ & _ & [Hw Hj] & _).
  - split; [intros now; apply settled_claimable, ex_two_settled|reflexivity].
  - repeat constructor.
  - exists w'. split; [exact Hrun|]. split; [rewrite Hw|rewrite Hj]; vm_compute; reflexivity.
Defined.

Lemma outbox_drains_witness :
  waiting_at 5000 (dispatches id [("host-1", 1000, fun _ => ex_env "x")] ex_two) = []
  /\ is_Some (posted (dispatches id [("host-1", 1000, fun _ => ex_env "x")] ex_two) "r:2").
Proof.
  destruct (outbox_drains id [("host-1", 1000, fun _ => ex_env "x")] ex_two ex_two_inv ex_two_settled) as (H1 & H2 & _).
  - repeat constructor.
  - repeat constructor.
  - vm_compute. repeat constructor.
  - split; [apply H1|]. apply (H2 (ex_event "e-2" "r:2" 20)); [vm_compute; right; left|reflexivity].
Defined.

(** A database that does not answer while preferences are read looks like a user
    who wants no mail: the event is skipped for good. *)
Theorem outage_skips_event :
  let e := ex_event "e-1" "r:1" 10 <| ev_payload := JObj [("userId", JStr ex_uuid)] |> in
  let env := {| dbUp := false; jobsEnabled := true; queueUp := true; timeOfDay := "12:00:00"; clockNow := 1000; newId := "x" |} in
  let w' := (run (handleOutbox id "host-1" 1000 (fun _ => env)) (ex_outbox [e])).2 in
  option_map (fun e => (ev_status e, ev_lastError e)) (events w' !! "e-1") = Some (SKIPPED_EVENT, Some "email_preference_disabled")
  /\ forall now, waiting_at now w' = [].
Proof. split; [vm_compute; reflexivity|]. intros now. vm_compute. reflexivity. Qed.
