(* ===== verification/Mailer.v ===== *)
(** * Mails of notifications

    [src/xconfess-backend/src/notifications/services/email-notification.service.ts]:
    what the consumer of the notifications queue sends.  The fixed text of the HTML
    pages, the preferences table and the mail transport are inputs. *)
From S2P Require Import Prelude Numbers Json Effects JobQueue Notifications Outbox Delivery.

(** ** Escaping *)

Definition entity (c : Ascii.ascii) : string :=
  if Ascii.eqb c "&"%char then "&amp;"
  else if Ascii.eqb c "<"%char then "&lt;"
  else if Ascii.eqb c ">"%char then "&gt;"
  else if Ascii.eqb c (Ascii.ascii_of_nat 34) then "&quot;"
  else if Ascii.eqb c "'"%char then "&#039;"
  else String c EmptyString.
(** [src notifications/services/email-notification.service.ts:277-286 escapeHtml] of
    a string. *)
Fixpoint escapeHtml (text : string) : string :=
  match text with
  | EmptyString => EmptyString
  | String c rest => entity c +:+ escapeHtml rest
  end.

(** The reader's side: the five references back to their characters. *)
Definition references : list (string * Ascii.ascii) :=
  [("&amp;", "&"%char); ("&lt;", "<"%char); ("&gt;", ">"%char); ("&quot;", Ascii.ascii_of_nat 34); ("&#039;", "'"%char)].
Fixpoint render (fuel : nat) (s : string) : string :=
  match fuel, s with
  | S fuel', String c s' =>
      match List.find (fun r => starts_with r.1 s) references with
      | Some (r, d) => String d (render fuel' (skip_str (String.length r) s))
      | None => String c (render fuel' s')
      end
  | _, _ => EmptyString
  end.

Definition markup (c : Ascii.ascii) : bool :=
  Ascii.eqb c "<"%char || Ascii.eqb c ">"%char || Ascii.eqb c (Ascii.ascii_of_nat 34) || Ascii.eqb c "'"%char.

Lemma entity_no_markup c : str_forall (fun d => negb (markup d)) (entity c) = true.
Proof. destruct c as [[] [] [] [] [] [] [] []]; vm_compute; reflexivity. Qed.

(** A character that is no markup is read as itself, one that is from its reference. *)
Lemma render_entity fuel c s : render (S fuel) (entity c +:+ s) = String c (render fuel s).
Proof.
  assert (entity c = String c EmptyString /\ Ascii.eqb c "&"%char = false
          \/ exists r, entity c = String "&"%char r /\ forall s, List.find (fun p => starts_with p.1 (entity c +:+ s)) references = Some (entity c, c))
    as [[E Hc]|(r & E & Hf)].
  { unfold entity. destruct (Ascii.eqb_spec c "&"%char) as [->|]; [right; by eexists|].
    destruct (Ascii.eqb_spec c "<"%char) as [->|]; [right; by eexists|].
    destruct (Ascii.eqb_spec c ">"%char) as [->|]; [right; by eexists|].
    destruct (Ascii.eqb_spec c (Ascii.ascii_of_nat 34)) as [->|]; [right; by eexists|].
    destruct (Ascii.eqb_spec c "'"%char) as [->|]; [right; by eexists|]. by left. }
  - rewrite E, str_app_cons, str_app_nil. cbn [render].
    replace (List.find _ references) with (@None (string * Ascii.ascii)); [done|].
    unfold references. cbn [List.find fst starts_with]. rewrite !(Ascii.eqb_sym "&"%char c), Hc. done.
  - specialize (Hf s). rewrite <- (skip_str_app (String.length (entity c)) (entity c) s eq_refl) at 2. revert Hf. rewrite E, str_app_cons.
    cbn [render]. intros ->. done.
Qed.

(** ** Sending *)

(** The pages around the interpolated values. *)
Record Pages := {
  newMessagePage : string -> string -> string;
  batchPage : string -> string -> string;
  genericPage : string -> string -> string;
}.
Record Mail := { to_ : string; subject : string; html : string; body : string }.

(** [escapeHtml(v)] of a field: anything but a string has no [replace]. *)
Definition escape_field (v : option json) : option string :=
  match v with Some (JStr s) => Some (escapeHtml s) | _ => None end.
(** `${v}`. *)
Definition template (v : option json) : string := from_option json_string "undefined" v.

Section mailer.
Context (pages : Pages) (appUrl : string).
(** [findOne({ where: { userId } })], for a [userId] that may be undefined. *)
Context (find_preference : option json -> option NotificationPreference).

(** [src notifications/services/email-notification.service.ts:111-140 buildEmailContent];
    no value when a field cannot be escaped. *)
Definition buildEmailContent (notification : json) : option (string * string * string) :=
  let message := json_get "message" notification in
  let count := json_get "metadata" notification ≫= json_get "messageCount" in
  let counted d := match count with Some c => if json_truthy c then json_string c else d | None => d end in
  let type := default "" (json_string <$> json_get "type" notification) in
  if str_eqb type NEW_MESSAGE then
    m ← escape_field message;
    Some ("New Message on xConfess", newMessagePage pages m appUrl,
          "You have a new message on xConfess: " +:+ template message)
  else if str_eqb type MESSAGE_BATCH then
    Some (counted "Multiple" +:+ " New Messages on xConfess", batchPage pages (counted "0") appUrl,
          "You have " +:+ counted "multiple" +:+ " new messages on xConfess.")
  else
    t ← escape_field (json_get "title" notification);
    m ← escape_field message;
    Some (template (json_get "title" notification), genericPage pages t m, template message).

(** [src notifications/services/email-notification.service.ts:84-109 sendNotificationEmail];
    [verdict] is the code of the transport's error. *)
Definition sendNotificationEmail (verdict : option (option string)) (notification : json) (recipientEmail : string)
    : prog (list Mail) string unit :=
  try_catch
    (match buildEmailContent notification with
     | None => Throw ""
     | Some (s, h, b) =>
         attempts (fun box => match verdict with
           | Some code => (Exn (default "" code), box)
           | None => (Ok tt, box ++ [{| to_ := recipientEmail; subject := s; html := h; body := b |}])
           end)
     end)
    (fun code => Throw (if truthy code && includes code SAFE_CODES then code else "DELIVERY_FAILED")).

(** [src notifications/services/email-notification.service.ts:37-82 sendEmail] *)
Definition sendEmail (verdict : option (option string)) (data : json) : prog (list Mail) string unit :=
  match find_preference (json_get "userId" data) with
  | None => Ret tt
  | Some p =>
      if negb (enableEmailNotifications p) || negb (truthy_opt (emailAddress p)) then Ret tt
      else
        let type := default "" (json_string <$> json_get "type" data) in
        if str_eqb type NEW_MESSAGE && negb (emailNewMessage p) then Ret tt
        else if str_eqb type MESSAGE_BATCH && negb (emailMessageBatch p) then Ret tt
        else sendNotificationEmail verdict data (default "" (emailAddress p))
  end.

(** ** Properties *)

Lemma render_escape text fuel : (String.length text <= fuel)%nat -> render fuel (escapeHtml text) = text.
Proof.
  revert fuel. induction text as [|c text IH]; intros fuel Hf; cbn; [by destruct fuel|].
  destruct fuel as [|fuel]; cbn in Hf; [lia|]. rewrite render_entity, IH by lia. done.
Qed.

(** A page shows the text it was given: escaped text has no markup of its own, and
    a reader that resolves the references sees the text again. *)
Theorem escape_html_roundtrip text :
  str_forall (fun c => negb (markup c)) (escapeHtml text) = true
  /\ render (String.length text) (escapeHtml text) = text.
Proof.
  split; [|by apply render_escape].
  induction text as [|c text IH]; [done|]. cbn. by rewrite str_forall_app, entity_no_markup.
Qed.

Lemma find_existsb {A} (f : A -> bool) l : existsb f l = false -> List.find f l = None.
Proof. induction l as [|x l IH]; cbn; [done|]. intros [-> ?]%orb_false_iff. auto. Qed.

(** A field that is not among those written over is the one of the object. *)
Lemma json_get_spread k o fs :
  existsb (fun f => f.1 =s? k) fs = false -> json_get k (json_spread (Some o) fs) = json_get k o.
Proof.
  intros Hk. assert (forall gs, json_get k (JObj (fs ++ gs)) = json_get k (JObj gs)) as Happ.
  { intros gs. cbn. clear o. induction fs as [|f fs IH]; cbn in *; [done|]. apply orb_false_iff in Hk as [-> Hk].
    by apply IH. }
  destruct o as [| | | | |gs]; cbn [json_spread]; try (rewrite <- (app_nil_r fs); by rewrite Happ).
  rewrite Happ. cbn. induction gs as [|g gs IH]; cbn; [done|].
  destruct (str_eqb_spec g.1 k) as [<-|Hne].
  - rewrite Hk. cbn. by rewrite str_eqb_refl.
  - destruct (negb _); cbn; [|done]. by rewrite (proj2 (str_eqb_neq _ _) Hne).
Qed.

(** The jobs of the outbox carry neither the title nor the message of a mail, and no
    user: whatever preferences are found for nobody, and whatever the transport
    does, no mail is sent for them. *)
Theorem outbox_mails_nothing verdict e box :
  known e = true -> json_get "title" (ev_payload e) = None ->
  (run (sendEmail verdict (event_job e)) box).2 = box.
Proof.
  intros Hk Ht. unfold sendEmail. destruct (find_preference _) as [p|]; [|done].
  destruct (_ || _); [done|]. destruct (_ && _); [done|]. destruct (_ && _); [done|].
  unfold sendNotificationEmail. rewrite run_try_catch.
  assert (buildEmailContent (event_job e) = None) as ->; [|done].
  assert (json_get "title" (event_job e) = None) as Htitle.
  { unfold event_job, job_payload. rewrite json_get_spread; [done|].
    destruct (or_else _ _ _) as [k|]; [destruct (json_truthy k)|]; reflexivity. }
  assert (json_get "type" (event_job e) = Some (JStr (ev_type e))) as Htype.
  { unfold event_job, job_payload, json_spread. by destruct (ev_payload e). }
  unfold buildEmailContent. rewrite Htype, Htitle. cbn [default fmap option_fmap option_map json_string from_option].
  unfold known in Hk. apply includes_spec in Hk. unfold dispatch_types in Hk.
  repeat (apply elem_of_cons in Hk as [->|Hk]; [reflexivity|]). by apply not_elem_of_nil in Hk.
Qed.
End mailer.
