(* ===== verification/Reactions.v ===== *)
(** * Reactions

    [src/xconfess-backend/src/reaction/reaction.service.ts] and the ownership check
    of anonymous identities it relies on.  The transaction of a request is a read
    followed by an INSERT or an UPDATE that commits: rows under a unique index make
    concurrent writers wait for the commit, so each write with its commit is one
    access, and a violation is what the loser of a race sees. *)
From S2P Require Import Prelude Numbers Json Effects JobQueue Notifications Outbox.
From stdpp Require Import pretty.
Open Scope Z_scope.

(** ** Data *)

(** A confession with what is loaded of its author: whether reactions are shown and
    the decrypted mail address, if there is an author. *)
Record Author := { showReactions : bool; email : string }.
Record ConfessionRow := { rc_id : string; rc_isDeleted : bool; rc_author : option Author }.
(** An anonymous identity with the users it is linked to. *)
Record Identity := { an_id : string; linkedUserIds : list string }.

(** [src reaction/entities/reaction.entity.ts:13-36 Reaction] *)
Record Reaction := { re_id : string; emoji : string; re_confession : string; re_user : string; re_createdAt : ms }.
#[export] Instance eta_Reaction : Eta Reaction := fun r => {|
  re_id := re_id r; emoji := emoji r; re_confession := re_confession r; re_user := re_user r; re_createdAt := re_createdAt r |}.

Record Broadcast := { bc_confession : string; bc_reaction : string; bc_user : string; bc_emoji : string; bc_total : Z }.
Record ReactionDB := {
  confession_rows : gmap string ConfessionRow;
  identities : gmap string Identity;
  reactions : gmap string Reaction;
  outbox : gmap string OutboxEvent;
  broadcasts : list Broadcast;
}.
#[export] Instance eta_ReactionDB : Eta ReactionDB := fun w => {|
  confession_rows := confession_rows w; identities := identities w; reactions := reactions w;
  outbox := outbox w; broadcasts := broadcasts w |}.

Inductive reaction_error := BadRequest (m : string) | NotFoundError (m : string) | Forbidden (m : string) | Violation.
Abbreviation action := (prog ReactionDB reaction_error).

(** ** Operations *)

(** [src common/security/anonymous-identity-ownership.ts:13-32 assertCanUseAnonymousIdentity] *)
Definition assertCanUseAnonymousIdentity (anonymousUser : option Identity) (actorUserId : option string)
    : outcome reaction_error Identity :=
  match anonymousUser with
  | None => Exn (NotFoundError "Anonymous user not found")
  | Some a =>
      match linkedUserIds a with
      | [] => Ok a
      | ids =>
          if truthy_opt actorUserId && includes (default "" actorUserId) ids then Ok a
          else Exn (NotFoundError "Anonymous identity not found")
      end
  end.

(** [src reaction/dto/create-reaction.dto.ts:4-27 CreateReactionDto] *)
Record CreateReactionDto := { confessionId : string; dto_emoji : string; anonymousUserId : option string }.
(** What a request draws: the ids of a new reaction and of its event, and the clock. *)
Record Draw := { reactionId : string; eventId : string; at_time : ms }.

(** [findOne({ where: { confession, anonymousUser } })]. *)
Definition of_pair (c u : string) (r : Reaction) : bool := str_eqb (re_confession r) c && str_eqb (re_user r) u.
Definition find_reaction (c u : string) (w : ReactionDB) : option Reaction :=
  snd <$> List.find (fun p => of_pair c u p.2) (map_to_list (reactions w)).

Definition event_of (d : Draw) (type : string) (confession : string) (address : string) (r : Reaction) : OutboxEvent := {|
  ev_id := eventId d; ev_type := type;
  ev_payload := JObj [("reactionId", JStr (re_id r)); ("confessionId", JStr confession);
                      ("recipientEmail", JStr address); ("emoji", JStr (emoji r))];
  ev_status := PENDING; retryCount := 0; ev_lastError := None;
  ev_idempotencyKey := Some (type +:+ ":" +:+ re_id r +:+ ":" +:+ emoji r);
  ev_createdAt := at_time d; processedAt := None; claimedBy := None; claimedAt := None |}.
(** INSERT of an event: its id and its key are unique. *)
Definition insert_event (e : OutboxEvent) (w : ReactionDB) : option ReactionDB :=
  if bool_decide (is_Some (outbox w !! ev_id e))
     || existsb (fun p => bool_decide (ev_idempotencyKey p.2 = ev_idempotencyKey e)) (map_to_list (outbox w))
  then None else Some (w <| outbox ::= <[ev_id e := e]> |>).

(** [src reaction/reaction.service.ts:236-259 createOutboxEvent] *)
Definition createOutboxEvent (d : Draw) (confession : ConfessionRow) (r : Reaction) (type : string) (w : ReactionDB)
    : option ReactionDB :=
  match rc_author confession with
  | Some a => if truthy (email a) then insert_event (event_of d type (rc_id confession) (email a) r) w else Some w
  | None => Some w
  end.

(** [src reaction/reaction.service.ts:96-139 createReaction]: INSERT and commit, or a
    violation of a unique index. *)
Definition insert_reaction (d : Draw) (confession : ConfessionRow) (r : Reaction) : action (option Reaction) :=
  access (fun w =>
    match reactions w !! re_id r, find_reaction (re_confession r) (re_user r) w with
    | None, None =>
        match createOutboxEvent d confession r "reaction_notification" (w <| reactions ::= <[re_id r := r]> |>) with
        | Some w' => (Some r, w')
        | None => (None, w)
        end
    | _, _ => (None, w)
    end).

(** [src reaction/reaction.service.ts:148-158 createReaction]: the UPDATE of the emoji
    and its event, committed together or not at all. *)
Definition switch_emoji (d : Draw) (confession : ConfessionRow) (r : Reaction) : action Reaction :=
  attempts (fun w =>
    match createOutboxEvent d confession r "reaction_update" (w <| reactions ::= <[re_id r := r]> |>) with
    | Some w' => (Ok r, w')
    | None => (Exn Violation, w)
    end).

(** [src reaction/reaction.service.ts:221-225 getReactionCount] *)
Definition getReactionCount (confession : string) (w : ReactionDB) : Z :=
  Z.of_nat (length (List.filter (fun p => str_eqb (re_confession p.2) confession) (map_to_list (reactions w)))).

(** [src reaction/reaction.service.ts:45-214 createReaction] *)
Definition createReaction (d : Draw) (dto : CreateReactionDto) (actorUserId : option string) : action Reaction :=
  if negb (truthy_opt (anonymousUserId dto)) then Throw (BadRequest "Anonymous user id is required")
  else
    let anonymousUserId := default "" (anonymousUserId dto) in
    let* confession := reads (fun w => match confession_rows w !! confessionId dto with
                                       | Some c => if rc_isDeleted c then None else Some c
                                       | None => None
                                       end) in
    match confession with
    | None => Throw (NotFoundError "Confession not found")
    | Some confession =>
        if from_option (fun a => negb (showReactions a)) false (rc_author confession)
        then Throw (Forbidden "Reactions are disabled for this user")
        else
          let* anonymousUser := reads (fun w => identities w !! anonymousUserId) in
          do* of_outcome (assertCanUseAnonymousIdentity anonymousUser actorUserId) in
          let* existing := reads (find_reaction (confessionId dto) anonymousUserId) in
          let settle (existing : Reaction) : action (Reaction * bool) :=
            if str_eqb (emoji existing) (dto_emoji dto) then Ret (existing, false)
            else let* updated := switch_emoji d confession (existing <| emoji := dto_emoji dto |>) in Ret (updated, false) in
          let* result :=
            (match existing with
             | Some r => settle r
             | None =>
                 let reaction := {| re_id := reactionId d; emoji := dto_emoji dto; re_confession := confessionId dto;
                                    re_user := anonymousUserId; re_createdAt := at_time d |} in
                 let* inserted := insert_reaction d confession reaction in
                 match inserted with
                 | Some r => Ret (r, true)
                 | None =>
                     let* existing := reads (find_reaction (confessionId dto) anonymousUserId) in
                     match existing with Some r => settle r | None => Throw Violation end
                 end
             end) in
          let '(reaction, isNew) := result in
          if (isNew : bool) then
            do* writes (fun w => w <| broadcasts ::= (fun l => l ++
                  [{| bc_confession := rc_id confession; bc_reaction := re_id reaction; bc_user := anonymousUserId;
                      bc_emoji := emoji reaction; bc_total := getReactionCount (rc_id confession) w |}]) |>) in
            Ret reaction
          else Ret reaction
    end.

(** ** Switching back

    The key of an update names the reaction and the emoji, so that an emoji can be
    switched to once: the second time its event violates the unique key, and the
    request fails with the transaction. *)
Definition ex_reaction_db : ReactionDB := {|
  confession_rows := {[ "c" := {| rc_id := "c"; rc_isDeleted := false;
                                   rc_author := Some {| showReactions := true; email := "a@b.c" |} |} ]};
  identities := {[ "u" := {| an_id := "u"; linkedUserIds := ["7"] |} ]};
  reactions := ∅; outbox := ∅; broadcasts := [] |}.
Definition ex_react (n : nat) (e : string) : action Reaction :=
  createReaction {| reactionId := "r" +:+ pretty n; eventId := "e" +:+ pretty n; at_time := Z.of_nat n |}
    {| confessionId := "c"; dto_emoji := e; anonymousUserId := Some "u" |} (Some "7").
Fixpoint emojis (n : nat) (l : list string) (w : ReactionDB) : list (option string) :=
  match l with
  | [] => []
  | e :: l' => let '(o, w') := run (ex_react n e) w in
               match o with Ok r => Some (emoji r) | Exn _ => None end :: emojis (S n) l' w'
  end.
Theorem switch_back_fails :
  emojis 0 ["like"; "love"; "like"; "love"] ex_reaction_db = [Some "like"; Some "love"; Some "like"; None].
Proof. vm_compute. reflexivity. Qed.

(** ** Any interleaving of requests *)
Record reaction_inv (w : ReactionDB) : Prop := {
  r_id : forall i r, reactions w !! i = Some r -> re_id r = i;
  r_pair : forall i j r s, reactions w !! i = Some r -> reactions w !! j = Some s ->
    re_confession r = re_confession s -> re_user r = re_user s -> i = j;
  r_broadcast : forall b, b ∈ broadcasts w -> exists r, reactions w !! bc_reaction b = Some r;
  r_once : NoDup (map bc_reaction (broadcasts w));
}.

(** Reactions, and whoever changes confessions and identities meanwhile. *)
Inductive ReactionActor :=
| React (d : Draw) (dto : CreateReactionDto) (actorUserId : option string)
| Edit (f : gmap string ConfessionRow -> gmap string ConfessionRow) (g : gmap string Identity -> gmap string Identity).
Definition serve_reaction (a : ReactionActor) : action (option Reaction) :=
  match a with
  | React d dto u => let* r := createReaction d dto u in Ret (Some r)
  | Edit f g => do* writes (fun w => w <| confession_rows ::= f |> <| identities ::= g |>) in Ret None
  end.

(** The row [i] is the reaction of a pair. *)
Definition row_for (c u i : string) (w : ReactionDB) : Prop :=
  exists r, reactions w !! i = Some r /\ re_confession r = c /\ re_user r = u.

Lemma find_reaction_Some c u w r :
  reaction_inv w -> find_reaction c u w = Some r -> reactions w !! re_id r = Some r /\ re_confession r = c /\ re_user r = u.
Proof.
  intros HI H. unfold find_reaction in H. apply fmap_Some in H as ([i s] & Hfind & ->).
  apply find_some in Hfind as [Hin%list_elem_of_In Hp]. apply elem_of_map_to_list in Hin. unfold of_pair in Hp. cbn in *. boolp.
  by rewrite (r_id _ HI i s Hin).
Qed.
Lemma find_reaction_None c u w i r :
  find_reaction c u w = None -> reactions w !! i = Some r -> re_confession r = c -> re_user r = u -> False.
Proof.
  intros H Hi Hc Hu. unfold find_reaction in H. apply fmap_None in H.
  assert (In (i, r) (map_to_list (reactions w))) as Hin by by apply list_elem_of_In, elem_of_map_to_list.
  pose proof (find_none _ _ H _ Hin) as E. unfold of_pair in E. cbn in E. by rewrite Hc, Hu, !str_eqb_refl in E.
Qed.

Lemma createOutboxEvent_ok d c r ty w w' :
  createOutboxEvent d c r ty w = Some w' ->
  reactions w' = reactions w /\ broadcasts w' = broadcasts w /\ confession_rows w' = confession_rows w /\ identities w' = identities w.
Proof.
  unfold createOutboxEvent, insert_event. repeat case_match; intros; simplify_eq; done.
Qed.

Section rg.
Context (actors : gmap positive ReactionActor).
Definition drawn_by (t : positive) (i : string) : Prop :=
  exists d dto u, actors !! t = Some (React d dto u) /\ reactionId d = i.

Definition reaction_guar (t : positive) (w w' : ReactionDB) : Prop :=
  (forall c u i, row_for c u i w -> row_for c u i w')
  /\ exists l, broadcasts w' = broadcasts w ++ l /\ forall b, b ∈ l -> drawn_by t (bc_reaction b).

Lemma reaction_guar_refl t w : reaction_guar t w w.
Proof. split; [done|]. exists []. split; [by rewrite app_nil_r|set_solver]. Qed.
Lemma stable_row_for t c u i : stable reaction_inv reaction_guar t (row_for c u i).
Proof. intros t' w w' _ _ Hr [HG _]. by apply HG. Qed.

(** A new row of a pair that had none. *)
Lemma inv_insert t w w' r :
  reaction_inv w -> reactions w !! re_id r = None -> find_reaction (re_confession r) (re_user r) w = None ->
  reactions w' = <[re_id r := r]> (reactions w) -> broadcasts w' = broadcasts w ->
  reaction_inv w' /\ reaction_guar t w w'.
Proof.
  intros HI Hnew Hnone Hr Hb. destruct HI as [Hid Hpair Hbc Hnd]. split; [split|split].
  - intros i s. rewrite Hr, lookup_insert_Some. intros [[<- <-]|[_ Hs]]; [done|by apply Hid].
  - intros i j s s'. rewrite Hr, !lookup_insert_Some.
    intros [[<- <-]|[Hi Hs]] [[<- <-]|[Hj Hs']] Hc Hu; [done|..|by eapply Hpair]; exfalso.
    + by eapply (find_reaction_None _ _ w j s').
    + by eapply (find_reaction_None _ _ w i s).
  - intros b. rewrite Hb. intros Hin. destruct (Hbc b Hin) as [s Hs]. exists s. rewrite Hr, lookup_insert_ne; [done|congruence].
  - by rewrite Hb.
  - intros c u i (s & Hs & ? & ?). exists s. rewrite Hr, lookup_insert_ne by congruence. done.
  - exists []. rewrite Hb, app_nil_r. split; [done|set_solver].
Qed.
(** A row rewritten with another emoji. *)
Lemma inv_rewrite t w w' r s :
  reaction_inv w -> reactions w !! re_id r = Some s -> re_confession r = re_confession s -> re_user r = re_user s ->
  reactions w' = <[re_id r := r]> (reactions w) -> broadcasts w' = broadcasts w ->
  reaction_inv w' /\ reaction_guar t w w'.
Proof.
  intros HI Hs Hc Hu Hr Hb. destruct HI as [Hid Hpair Hbc Hnd].
  assert (forall i x, reactions w' !! i = Some x -> exists y, reactions w !! i = Some y /\ re_confession x = re_confession y
            /\ re_user x = re_user y /\ re_id x = i) as Hback.
  { intros i x. rewrite Hr, lookup_insert_Some. intros [[<- <-]|[_ Hx]]; [eauto|]. exists x. split_and!; auto. }
  split; [split|split].
  - by intros i x (_ & _ & _ & _ & ?)%Hback.
  - intros i j x y (x' & Hx & Hxc & Hxu & _)%Hback (y' & Hy & Hyc & Hyu & _)%Hback ? ?.
    by apply (Hpair i j x' y'); congruence.
  - intros b. rewrite Hb. intros Hin. destruct (Hbc b Hin) as [x Hx]. rewrite Hr.
    destruct (decide (re_id r = bc_reaction b)) as [<-|]; [rewrite lookup_insert_eq; eauto|rewrite lookup_insert_ne by done; eauto].
  - by rewrite Hb.
  - intros c u i (x & Hx & Hxc & Hxu). destruct (decide (re_id r = i)) as [<-|Hne].
    + exists r. rewrite Hr, lookup_insert_eq. simplify_eq. split_and!; congruence.
    + exists x. by rewrite Hr, lookup_insert_ne.
  - exists []. rewrite Hb, app_nil_r. split; [done|set_solver].
Qed.

Context (drawn_once : forall t t' i, drawn_by t i -> drawn_by t' i -> t = t').

(** The request's own new row, which nobody else broadcasts. *)
Definition unannounced (c u i : string) (w : ReactionDB) : Prop :=
  row_for c u i w /\ forall b, b ∈ broadcasts w -> bc_reaction b <> i.
Lemma stable_unannounced t c u i :
  drawn_by t i -> stable reaction_inv reaction_guar t (unannounced c u i).
Proof using drawn_once.
  intros Ht t' w w' Hne _ [Hr Hb] [HG (l & Hl & Hd)]. split; [by apply HG|].
  intros b. rewrite Hl, elem_of_app. intros [Hin|Hin]; [by apply Hb|]. intros <-.
  apply Hne. eapply drawn_once; [by apply Hd|done].
Qed.

Section request.
Context (t : positive) (d : Draw) (dto : CreateReactionDto) (actor : option string).
Context (Ht : actors !! t = Some (React d dto actor)).
Abbreviation pair_user := (default "" (anonymousUserId dto)).

Lemma spec_read_r {X B} (f : ReactionDB -> X) (q : X -> action B) P post :
  stable reaction_inv reaction_guar t P ->
  (forall x, rg reaction_inv reaction_guar t P (q x) post) ->
  rg reaction_inv reaction_guar t P (bind (reads f) q) post.
Proof using. intros HP Hq. apply rg_reads; [apply reaction_guar_refl|done|auto]. Qed.

Lemma spec_find {B} (q : option Reaction -> action B) post :
  rg reaction_inv reaction_guar t (fun _ => True) (q None) post ->
  (forall r, re_confession r = confessionId dto -> re_user r = pair_user ->
     rg reaction_inv reaction_guar t (row_for (confessionId dto) pair_user (re_id r)) (q (Some r)) post) ->
  rg reaction_inv reaction_guar t (fun _ => True) (bind (reads (find_reaction (confessionId dto) pair_user)) q) post.
Proof using.
  intros Hnone Hsome w HI _. cbn. split; [done|]. split; [apply reaction_guar_refl|].
  destruct (find_reaction _ _ w) as [r|] eqn:Hf.
  - destruct (find_reaction_Some _ _ _ _ HI Hf) as (Hr & Hc & Hu).
    exists (row_for (confessionId dto) pair_user (re_id r)). split; [by exists r|].
    split; [apply stable_row_for|by apply Hsome].
  - exists (fun _ => True). split; [done|]. split; [apply stable_True|done].
Qed.

Definition settled_post (o : outcome reaction_error (Reaction * bool)) (w : ReactionDB) : Prop :=
  match o with
  | Ok (r, false) => row_for (confessionId dto) pair_user (re_id r) w
  | Ok (r, true) => re_id r = reactionId d /\ unannounced (confessionId dto) pair_user (re_id r) w
  | Exn _ => True
  end.

Lemma spec_settle_reaction confession r :
  re_confession r = confessionId dto -> re_user r = pair_user ->
  rg reaction_inv reaction_guar t (row_for (confessionId dto) pair_user (re_id r))
    (if str_eqb (emoji r) (dto_emoji dto) then Ret (r, false)
     else let* updated := switch_emoji d confession (r <| emoji := dto_emoji dto |>) in Ret (updated, false))
    settled_post.
Proof using.
  intros Hc Hu. destruct (str_eqb _ _); [by intros w _ Hr|]. intros w HI (s & Hs & Hsc & Hsu). cbn.
  destruct (createOutboxEvent _ _ _ _ _) as [w'|] eqn:He; cbn.
  - apply createOutboxEvent_ok in He as (Er & Eb & _). cbn in Er, Eb.
    destruct (inv_rewrite t w w' (r <| emoji := dto_emoji dto |>) s) as [HI' HG]; cbn; [done|done|congruence..|done|done|].
    split; [done|]. split; [done|]. exists (row_for (confessionId dto) pair_user (re_id r)).
    split; [apply HG; by exists s|]. split; [apply stable_row_for|]. by intros v _ Hv.
  - split; [done|]. split; [apply reaction_guar_refl|]. exists (fun _ => True). split; [done|].
    split; [apply stable_True|]. by intros v.
Qed.

Lemma spec_insert {B} confession r (q : option Reaction -> action B) post :
  re_id r = reactionId d -> re_confession r = confessionId dto -> re_user r = pair_user ->
  rg reaction_inv reaction_guar t (unannounced (confessionId dto) pair_user (re_id r)) (q (Some r)) post ->
  rg reaction_inv reaction_guar t (fun _ => True) (q None) post ->
  rg reaction_inv reaction_guar t (fun _ => True) (bind (insert_reaction d confession r) q) post.
Proof using drawn_once Ht.
  intros Hid Hc Hu Hsome Hnone.
  assert (forall w, reaction_inv w -> exists Q : ReactionDB -> Prop, Q w /\ stable reaction_inv reaction_guar t Q
     /\ rg reaction_inv reaction_guar t Q (q None) post) as Hno.
  { intros w _. exists (fun _ => True). split; [done|]. split; [apply stable_True|done]. }
  intros w HI _. cbn. destruct (reactions w !! re_id r) as [x|] eqn:Hnew;
    [by split; [|split; [apply reaction_guar_refl|apply Hno]]|].
  destruct (find_reaction _ _ w) as [x|] eqn:Hfind; [by split; [|split; [apply reaction_guar_refl|apply Hno]]|].
  destruct (createOutboxEvent _ _ _ _ _) as [w'|] eqn:He; [|by split; [|split; [apply reaction_guar_refl|apply Hno]]].
  apply createOutboxEvent_ok in He as (Er & Eb & _). cbn in Er, Eb |- *.
  destruct (inv_insert t w w' r HI Hnew Hfind Er Eb) as [HI' HG]. split; [done|]. split; [done|].
  exists (unannounced (confessionId dto) pair_user (re_id r)). split; [split|split; [|done]].
  - exists r. by rewrite Er, lookup_insert_eq.
  - intros b. rewrite Eb. intros Hb Heq. destruct (r_broadcast _ HI b Hb) as [s Hs]. congruence.
  - apply stable_unannounced. by exists d, dto, actor.
Qed.

Lemma spec_announce confession r :
  re_id r = reactionId d ->
  rg reaction_inv reaction_guar t (unannounced (confessionId dto) pair_user (re_id r))
    ((do* writes (fun w => w <| broadcasts ::= (fun l => l ++
       [{| bc_confession := confession; bc_reaction := re_id r; bc_user := pair_user;
           bc_emoji := emoji r; bc_total := getReactionCount confession w |}]) |>) in Ret r) : action Reaction)
    (fun o w => match o with Ok r => row_for (confessionId dto) pair_user (re_id r) w | Exn _ => True end).
Proof using drawn_once Ht.
  intros Hid w HI [Hrow Hb]. cbn. destruct HI as [Hids Hpair Hbc Hnd]. split; [split; cbn|split; [split; cbn|]].
  - done.
  - done.
  - intros b [Hin| ->%list_elem_of_singleton]%elem_of_app; [by apply Hbc|]. destruct Hrow as (s & Hs & _). by exists s.
  - rewrite map_app. apply NoDup_app. split; [done|]. split; [|apply NoDup_singleton].
    intros i (b & -> & Hin)%list_elem_of_fmap. cbn. intros Heq%list_elem_of_singleton. by destruct (Hb b Hin).
  - done.
  - eexists. split; [done|]. intros b ->%list_elem_of_singleton. cbn. by exists d, dto, actor.
  - exists (row_for (confessionId dto) pair_user (re_id r)). split; [exact Hrow|]. split; [apply stable_row_for|]. by intros v _ Hv.
Qed.

Lemma spec_createReaction :
  rg reaction_inv reaction_guar t (fun _ => True) (createReaction d dto actor)
    (fun o w => match o with Ok r => row_for (confessionId dto) pair_user (re_id r) w | Exn _ => True end).
Proof using drawn_once Ht.
  unfold createReaction. destruct (negb _); [by intros w|]. apply spec_read_r; [done|]. intros [confession|]; [|by intros w].
  destruct (from_option _ _ _); [by intros w|]. apply spec_read_r; [done|]. intros a.
  destruct (assertCanUseAnonymousIdentity a actor) as [i|e]; [|by intros w]. cbn [of_outcome bind].
  assert (forall res : Reaction * bool, rg reaction_inv reaction_guar t (settled_post (Ok res))
    (let '(reaction, isNew) := res in
     if (isNew : bool) then
       do* writes (fun w => w <| broadcasts ::= (fun l => l ++
             [{| bc_confession := rc_id confession; bc_reaction := re_id reaction; bc_user := pair_user;
                 bc_emoji := emoji reaction; bc_total := getReactionCount (rc_id confession) w |}]) |>) in
       Ret reaction
     else Ret reaction : action Reaction)
    (fun o w => match o with Ok r => row_for (confessionId dto) pair_user (re_id r) w | Exn _ => True end)) as Hend.
  { intros [r []]; [|by intros w _ Hw]. apply rg_pure. intros Hid. by apply spec_announce. }
  assert (forall o w, settled_post o w -> match o with Ok a => settled_post (Ok a) w | Exn _ => True end) as Hpost
    by (by intros [res|e] w).
  apply spec_find.
  - apply rg_bind with (Q := fun res => settled_post (Ok res)); [|exact Hend].
    eapply rg_post; [exact Hpost|]. apply spec_insert; [done|done|done|by intros w _ Hw|].
    apply spec_find; [by intros w|]. intros r Hc Hu. by apply spec_settle_reaction.
  - intros r Hc Hu. apply rg_bind with (Q := fun res => settled_post (Ok res)); [|exact Hend].
    eapply rg_post; [exact Hpost|]. by apply spec_settle_reaction.
Qed.
End request.
End rg.

Lemma assert_allowed a u i :
  assertCanUseAnonymousIdentity (Some a) u = Ok i -> linkedUserIds a = [] \/ exists x, u = Some x /\ x ∈ linkedUserIds a.
Proof.
  unfold assertCanUseAnonymousIdentity. destruct (linkedUserIds a) as [|x l]; [by left|].
  destruct u as [y|]; [|discriminate]. change (truthy_opt (Some y)) with (truthy y). change (default "" (Some y)) with y.
  destruct (truthy y && includes y (x :: l)) eqn:Hy; [|discriminate].
  apply andb_true_iff in Hy as [_ Hy%includes_spec]. intros _. right. by exists y.
Qed.

(** An update commits the row with its event, or nothing. *)
Lemma run_switch_emoji d c r w :
  match run (switch_emoji d c r) w with
  | (Ok r', w') => r' = r /\ reactions w' = <[re_id r := r]> (reactions w) /\ broadcasts w' = broadcasts w
  | (Exn _, w') => w' = w
  end.
Proof.
  unfold switch_emoji. rewrite run_attempts. destruct (createOutboxEvent _ _ _ _ _) as [w'|] eqn:He; [|done].
  by apply createOutboxEvent_ok in He as (Er & Eb & _).
Qed.

(** ** Properties *)

(** C6. One reaction per confession and identity, announced once. Let any requests
    interleave, with changes of confessions and identities in between, each drawing
    its own id. No two reactions are of one pair; no reaction is broadcast twice;
    every request that answers answers with the row of its pair; and two requests of
    one pair answer with one row. *)
Theorem reactions_unique (actors : gmap positive ReactionActor) w0 w ps :
  reaction_inv w0 ->
  (forall t t' i, drawn_by actors t i -> drawn_by actors t' i -> t = t') ->
  pool_reach (w0, serve_reaction <$> actors) (w, ps) ->
  (forall i j r s, reactions w !! i = Some r -> reactions w !! j = Some s ->
     re_confession r = re_confession s -> re_user r = re_user s -> i = j)
  /\ NoDup (map bc_reaction (broadcasts w))
  /\ (forall t d dto u r, actors !! t = Some (React d dto u) -> ps !! t = Some (Ret (Some r)) ->
       row_for (confessionId dto) (default "" (anonymousUserId dto)) (re_id r) w)
  /\ (forall t t' d d' dto dto' u u' r r',
       actors !! t = Some (React d dto u) -> actors !! t' = Some (React d' dto' u') ->
       confessionId dto = confessionId dto' -> anonymousUserId dto = anonymousUserId dto' ->
       ps !! t = Some (Ret (Some r)) -> ps !! t' = Some (Ret (Some r')) -> re_id r = re_id r').
Proof.
  intros HI0 Hdrawn Hreach.
  assert (pool_ok reaction_inv (reaction_guar actors) (fun t o w => forall d dto u r,
            actors !! t = Some (React d dto u) -> o = Ok (Some r) ->
            row_for (confessionId dto) (default "" (anonymousUserId dto)) (re_id r) w) (w0, serve_reaction <$> actors)) as Hinit.
  { split; [done|]. intros t p. cbn. rewrite lookup_fmap_Some. intros (a & <- & Ha).
    exists (fun _ => True). split; [done|]. split; [apply stable_True|]. destruct a as [d dto u|f g]; cbn.
    - apply rg_bind with (Q := fun r => row_for (confessionId dto) (default "" (anonymousUserId dto)) (re_id r)).
      + eapply rg_post; [|by apply (spec_createReaction actors Hdrawn t d dto u)]. by intros [r|e] w'.
      + intros r v _ Hv d' dto' u' r' Ha' [= <-]. rewrite Ha in Ha'. by injection Ha' as <- <- <-.
    - intros v HI _. split; [destruct HI; by split|]. split; [split; [done|]; exists []; cbn; rewrite app_nil_r; set_solver|].
      exists (fun _ => True). split; [done|]. split; [apply stable_True|]. by intros v'. }
  destruct (rg_sound _ _ _ _ _ Hinit Hreach) as [HI Hps]. cbn in HI, Hps.
  assert (forall t d dto u r, actors !! t = Some (React d dto u) -> ps !! t = Some (Ret (Some r)) ->
       row_for (confessionId dto) (default "" (anonymousUserId dto)) (re_id r) w) as Hrow.
  { intros t d dto u r Ha Hret. destruct (Hps t _ Hret) as (P & HP & _ & Hrg). by eapply (Hrg w HI HP). }
  split; [apply (r_pair _ HI)|]. split; [apply (r_once _ HI)|]. split; [exact Hrow|].
  intros t t' d d' dto dto' u u' r r' Ha Ha' Hc Hu Hret Hret'.
  destruct (Hrow t d dto u r Ha Hret) as (s & Hs & Hsc & Hsu). destruct (Hrow t' d' dto' u' r' Ha' Hret') as (s' & Hs' & Hsc' & Hsu').
  apply (r_pair _ HI _ _ s s'); congruence.
Qed.

(** What one request does. If it fails, it leaves no trace. If it answers, the
    confession was there, shown, and open to reactions; the identity was free or the
    caller's own; the answer, with the emoji asked for, is the only row that
    changed; and there is a broadcast exactly when the pair had no reaction. *)
Theorem reaction_effect d dto u w :
  reaction_inv w ->
  match run (createReaction d dto u) w with
  | (Exn _, w') => w' = w
  | (Ok r, w') =>
      (exists c, confession_rows w !! confessionId dto = Some c /\ rc_isDeleted c = false
         /\ forall a, rc_author c = Some a -> showReactions a = true)
      /\ (exists a, identities w !! default "" (anonymousUserId dto) = Some a
           /\ (linkedUserIds a = [] \/ exists x, u = Some x /\ x ∈ linkedUserIds a))
      /\ re_confession r = confessionId dto /\ re_user r = default "" (anonymousUserId dto) /\ emoji r = dto_emoji dto
      /\ reactions w' = <[re_id r := r]> (reactions w)
      /\ (map bc_reaction (broadcasts w') = map bc_reaction (broadcasts w)
            ++ match find_reaction (confessionId dto) (default "" (anonymousUserId dto)) w with None => [re_id r] | Some _ => [] end)
  end.
Proof.
  intros HI. unfold createReaction. destruct (negb _); [done|]. run_simp.
  destruct (confession_rows w !! confessionId dto) as [c|] eqn:Hc; [|by run_simp].
  destruct (rc_isDeleted c) eqn:Hdel; [by run_simp|].
  destruct (from_option _ false (rc_author c)) eqn:Hauth; [by run_simp|]. run_simp.
  set (user := default "" (anonymousUserId dto)).
  assert (forall a, rc_author c = Some a -> showReactions a = true) as Hshow.
  { intros a Ha. rewrite Ha in Hauth. cbn in Hauth. by boolp. }
  destruct (identities w !! user) as [a|] eqn:Ha; [|by run_simp].
  destruct (assertCanUseAnonymousIdentity (Some a) u) as [i|e] eqn:Has; [|by run_simp]. apply assert_allowed in Has.
  run_simp. destruct (find_reaction (confessionId dto) user w) as [x|] eqn:Hf.
  - destruct (find_reaction_Some _ _ _ _ HI Hf) as (Hx & Hxc & Hxu).
    destruct (str_eqb_spec (emoji x) (dto_emoji dto)) as [He|He].
    + run_simp. split; [eauto|]. split; [eauto|]. rewrite app_nil_r. by rewrite insert_id.
    + pose proof (run_switch_emoji d c (x <| emoji := dto_emoji dto |>) w) as Hsw. run_simp.
      destruct (run (switch_emoji _ _ _) w) as [[r|e] w']; [|done]. destruct Hsw as (-> & Hr & Hb). run_simp.
      split; [eauto|]. split; [eauto|]. rewrite Hb, app_nil_r. by cbn in *.
  - unfold insert_reaction. run_simp. cbn. rewrite Hf.
    destruct (reactions w !! reactionId d) as [x|] eqn:Hnew; cbn; [run_simp; by rewrite Hf|].
    destruct (createOutboxEvent _ _ _ _ _) as [w'|] eqn:He; cbn; [|run_simp; by rewrite Hf].
    apply createOutboxEvent_ok in He as (Er & Eb & _). cbn in Er, Eb.
    split; [eauto|]. split; [eauto|]. rewrite Er, Eb, map_app. done.
Qed.

(** ** Witnesses *)
Lemma ex_reaction_inv : reaction_inv ex_reaction_db.
Proof.
  split; cbn; [by intros i r; rewrite lookup_empty|by intros i j r s; rewrite lookup_empty|by intros b ?%elem_of_nil|constructor].
Qed.
(** Two requests of one identity that both find no reaction. *)
Definition ex_reactors : gmap positive ReactionActor :=
  {[ 1%positive := React {| reactionId := "r1"; eventId := "e1"; at_time := 1 |}
       {| confessionId := "c"; dto_emoji := "like"; anonymousUserId := Some "u" |} (Some "7");
     2%positive := React {| reactionId := "r2"; eventId := "e2"; at_time := 2 |}
       {| confessionId := "c"; dto_emoji := "love"; anonymousUserId := Some "u" |} (Some "7") ]}.
Definition ex_reactions_run :=
  run_schedule [1; 2; 1; 2; 1; 2; 1; 2; 2; 2; 1]%positive (ex_reaction_db, serve_reaction <$> ex_reactors).
Definition ex_answer (t : positive) : option (string * string) :=
  match ex_reactions_run.2 !! t with Some (Ret (Some r)) => Some (re_id r, emoji r) | _ => None end.
Example ex_answers :
  (ex_answer 1, ex_answer 2, map bc_reaction (broadcasts ex_reactions_run.1)) = (Some ("r1", "like"), Some ("r1", "love"), ["r1"]).
Proof. vm_compute. reflexivity. Qed.
Lemma ex_drawn t t' i : drawn_by ex_reactors t i -> drawn_by ex_reactors t' i -> t = t'.
Proof.
  unfold drawn_by, ex_reactors. intros (d & dto & u & H & <-) (d' & dto' & u' & H' & Hi).
  rewrite lookup_insert_Some, lookup_singleton_Some in H. rewrite lookup_insert_Some, lookup_singleton_Some in H'.
  destruct H as [[<- [= <- <- <-]]|[_ [<- [= <- <- <-]]]]; destruct H' as [[<- [= <- <- <-]]|[_ [<- [= <- <- <-]]]]; done.
Qed.
Lemma reactions_unique_witness :
  ex_answer 1 = Some ("r1", "like") /\ ex_answer 2 = Some ("r1", "love")
  /\ NoDup (map bc_reaction (broadcasts ex_reactions_run.1)).
Proof.
  split; [vm_compute; reflexivity|]. split; [vm_compute; reflexivity|].
  assert (pool_reach (ex_reaction_db, serve_reaction <$> ex_reactors) (ex_reactions_run.1, ex_reactions_run.2)) as Hreach.
  { rewrite <- surjective_pairing. apply run_schedule_reach. }
  exact (proj1 (proj2 (reactions_unique ex_reactors ex_reaction_db _ _ ex_reaction_inv ex_drawn Hreach))).
Defined.

Lemma reaction_effect_witness :
  exists r w', run (ex_react 0 "like") ex_reaction_db = (Ok r, w') /\ emoji r = "like"
    /\ reactions w' = <[re_id r := r]> (reactions ex_reaction_db).
Proof.
  pose proof (reaction_effect {| reactionId := "r0"; eventId := "e0"; at_time := 0 |}
    {| confessionId := "c"; dto_emoji := "like"; anonymousUserId := Some "u" |} (Some "7") ex_reaction_db ex_reaction_inv) as H.
  assert (exists r w', run (ex_react 0 "like") ex_reaction_db = (Ok r, w')) as (r & w' & Hrun).
  { eexists _, _. vm_compute. reflexivity. }
  exists r, w'. split; [exact Hrun|]. unfold ex_react in Hrun. change ("r" +:+ pretty 0%nat) with "r0" in Hrun.
  change ("e" +:+ pretty 0%nat) with "e0" in Hrun. change (Z.of_nat 0) with 0 in Hrun. rewrite Hrun in H.
  destruct H as (_ & _ & _ & _ & He & Hr & _). split; [exact He|exact Hr].
Defined.
