(* ===== verification/Base64.v ===== *)
(** * Buffers: base64 and hex

    Node's [Buffer], as the services use it: a buffer is the string of its bytes.
    [Buffer.from(s, 'base64')] skips what is no base64 digit, takes both alphabets
    and stops at the padding. *)
From S2P Require Import Prelude.
Open Scope Z_scope.

Definition byte_val (c : Ascii.ascii) : Z := Z.of_nat (Ascii.nat_of_ascii c).
Definition byte_char (z : Z) : Ascii.ascii := Ascii.ascii_of_nat (Z.to_nat z).
Fixpoint bytes (s : string) : list Z :=
  match s with EmptyString => [] | String c s' => byte_val c :: bytes s' end.
Fixpoint of_bytes (l : list Z) : string :=
  match l with [] => EmptyString | b :: l' => String (byte_char b) (of_bytes l') end.

(** ** base64 *)
Definition b64_char (v : Z) : Ascii.ascii :=
  byte_char (if v <? 26 then v + 65 else if v <? 52 then v + 71 else if v <? 62 then v - 4
             else if v =? 62 then 43 else 47).
Definition b64_val (c : Ascii.ascii) : option Z :=
  let n := byte_val c in
  if (65 <=? n) && (n <=? 90) then Some (n - 65)
  else if (97 <=? n) && (n <=? 122) then Some (n - 71)
  else if (48 <=? n) && (n <=? 57) then Some (n + 4)
  else if (n =? 43) || (n =? 45) then Some 62
  else if (n =? 47) || (n =? 95) then Some 63
  else None.

Fixpoint sextets (l : list Z) : list Z :=
  match l with
  | a :: b :: c :: l' => a / 4 :: (a mod 4) * 16 + b / 16 :: (b mod 16) * 4 + c / 64 :: c mod 64 :: sextets l'
  | [a; b] => [a / 4; (a mod 4) * 16 + b / 16; (b mod 16) * 4]
  | [a] => [a / 4; (a mod 4) * 16]
  | [] => []
  end.
Fixpoint octets (l : list Z) : list Z :=
  match l with
  | w :: x :: y :: z :: l' => w * 4 + x / 16 :: (x mod 16) * 16 + y / 4 :: (y mod 4) * 64 + z :: octets l'
  | [w; x; y] => [w * 4 + x / 16; (x mod 16) * 16 + y / 4]
  | [w; x] => [w * 4 + x / 16]
  | _ => []
  end.

Definition padding (n : nat) : string :=
  match (n mod 3)%nat with 1%nat => "==" | 2%nat => "=" | _ => "" end.
Fixpoint b64_chars (l : list Z) : string :=
  match l with [] => EmptyString | v :: l' => String (b64_char v) (b64_chars l') end.
(** [buf.toString('base64')]. *)
Definition to_base64 (s : string) : string := b64_chars (sextets (bytes s)) +:+ padding (String.length s).

Fixpoint b64_digits (s : string) : list Z :=
  match s with
  | EmptyString => []
  | String c s' =>
      if Ascii.eqb c "="%char then []
      else match b64_val c with Some v => v :: b64_digits s' | None => b64_digits s' end
  end.
(** [Buffer.from(s, 'base64')]. *)
Definition from_base64 (s : string) : string := of_bytes (octets (b64_digits s)).

Example base64_1 : (to_base64 "hello", from_base64 "aGVsbG8=", from_base64 "aGV sbG8", from_base64 "a")
                   = ("aGVsbG8=", "hello", "hello", "").
Proof. vm_compute. reflexivity. Qed.

(** ** hex *)
Definition hex_val (c : Ascii.ascii) : option Z :=
  let n := byte_val c in
  if (48 <=? n) && (n <=? 57) then Some (n - 48)
  else if (97 <=? n) && (n <=? 102) then Some (n - 87)
  else if (65 <=? n) && (n <=? 70) then Some (n - 55)
  else None.
(** [Buffer.from(s, 'hex')]: up to the first pair that is not two hex digits. *)
Fixpoint from_hex (s : string) : string :=
  match s with
  | String a (String b s') =>
      match hex_val a, hex_val b with
      | Some x, Some y => String (byte_char (x * 16 + y)) (from_hex s')
      | _, _ => EmptyString
      end
  | _ => EmptyString
  end.

Definition hex_char (v : Z) : Ascii.ascii := byte_char (if v <? 10 then v + 48 else v + 87).
(** [buf.toString('hex')]. *)
Fixpoint to_hex (s : string) : string :=
  match s with
  | EmptyString => EmptyString
  | String c s' => String (hex_char (byte_val c / 16)) (String (hex_char (byte_val c mod 16)) (to_hex s'))
  end.
(** [/^[0-9a-fA-F]*$/.test(s)]. *)
Definition all_hex : string -> bool := str_forall (fun c => match hex_val c with Some _ => true | None => false end).

(** ** Lemmas *)
Lemma byte_val_range c : 0 <= byte_val c < 256.
Proof. unfold byte_val. pose proof (Ascii.nat_ascii_bounded c). lia. Qed.
Lemma byte_char_val c : byte_char (byte_val c) = c.
Proof. unfold byte_char, byte_val. rewrite Nat2Z.id. apply Ascii.ascii_nat_embedding. Qed.

Lemma of_bytes_bytes s : of_bytes (bytes s) = s.
Proof. induction s as [|c s IH]; cbn; [done|]. by rewrite byte_char_val, IH. Qed.
Lemma bytes_range s : Forall (fun b => 0 <= b < 256) (bytes s).
Proof. induction s as [|c s IH]; cbn; constructor; [apply byte_val_range|done]. Qed.
Lemma length_bytes s : length (bytes s) = String.length s.
Proof. induction s as [|c s IH]; cbn; congruence. Qed.

Lemma b64_char_digit v : 0 <= v < 64 -> b64_val (b64_char v) = Some v /\ Ascii.eqb (b64_char v) "="%char = false.
Proof.
  intros Hv.
  assert (forallb (fun n => bool_decide (b64_val (b64_char (Z.of_nat n)) = Some (Z.of_nat n))
                         && negb (Ascii.eqb (b64_char (Z.of_nat n)) "="%char)) (seq 0 64) = true) as H
    by (vm_compute; reflexivity).
  rewrite forallb_forall in H. specialize (H (Z.to_nat v)). rewrite in_seq in H. specialize (H ltac:(lia)).
  rewrite Z2Nat.id in H by lia. by boolp.
Qed.

(** Induction three bytes at a time. *)
Lemma list_ind3 {A} (P : list A -> Prop) :
  P [] -> (forall a, P [a]) -> (forall a b, P [a; b]) -> (forall a b c l, P l -> P (a :: b :: c :: l)) -> forall l, P l.
Proof.
  intros H0 H1 H2 H3. fix IH 1. intros [|a [|b [|c l]]]; [exact H0|apply H1|apply H2|apply H3, IH].
Qed.

Ltac sextet := repeat match goal with H : Forall _ (_ :: _) |- _ => apply Forall_cons in H as [? H] end;
               Z.to_euclidean_division_equations; lia.

Lemma sextets_range l : Forall (fun b => 0 <= b < 256) l -> Forall (fun v => 0 <= v < 64) (sextets l).
Proof.
  induction l as [|a|a b|a b c l IH] using list_ind3; intros H; cbn; [done|..];
    repeat (apply Forall_cons; split; [sextet|]); [done..|]. apply IH. by repeat apply Forall_inv_tail in H.
Qed.

Lemma octets_sextets l : Forall (fun b => 0 <= b < 256) l -> octets (sextets l) = l.
Proof.
  induction l as [|a|a b|a b c l IH] using list_ind3; intros H; cbn; [done|..].
  - f_equal. sextet.
  - f_equal; [sextet|]. f_equal. sextet.
  - f_equal; [sextet|]. f_equal; [sextet|]. f_equal; [sextet|]. apply IH. by repeat apply Forall_inv_tail in H.
Qed.

Lemma b64_digits_chars l s :
  Forall (fun v => 0 <= v < 64) l -> b64_digits (b64_chars l +:+ s) = l ++ b64_digits s.
Proof.
  induction l as [|v l IH]; [done|]. intros [Hv Hl]%Forall_cons. cbn [b64_chars]. rewrite str_app_cons. cbn [b64_digits].
  destruct (b64_char_digit v Hv) as [-> ->]. by rewrite IH.
Qed.

(** Decoding an encoded buffer gives it back. *)
Lemma from_to_base64 s : from_base64 (to_base64 s) = s.
Proof.
  unfold from_base64, to_base64. rewrite b64_digits_chars by apply sextets_range, bytes_range.
  assert (b64_digits (padding (String.length s)) = []) as ->.
  { unfold padding. by destruct (_ mod 3)%nat as [|[|[|]]]. }
  rewrite app_nil_r, octets_sextets by apply bytes_range. apply of_bytes_bytes.
Qed.

Lemma hex_char_val v : 0 <= v < 16 -> hex_val (hex_char v) = Some v.
Proof.
  intros Hv. assert (v = 0 \/ v = 1 \/ v = 2 \/ v = 3 \/ v = 4 \/ v = 5 \/ v = 6 \/ v = 7 \/ v = 8 \/ v = 9 \/ v = 10
    \/ v = 11 \/ v = 12 \/ v = 13 \/ v = 14 \/ v = 15) as H by lia. destruct_or! H; by subst.
Qed.

Lemma hex_digits_range c : 0 <= byte_val c / 16 < 16 /\ 0 <= byte_val c mod 16 < 16.
Proof. pose proof (byte_val_range c). Z.to_euclidean_division_equations. lia. Qed.

Lemma from_to_hex s : from_hex (to_hex s) = s.
Proof.
  induction s as [|c s IH]; [done|]. cbn [to_hex from_hex]. destruct (hex_digits_range c) as [H1 H2].
  rewrite !hex_char_val, IH by done. f_equal. rewrite <- (byte_char_val c) at 3. f_equal.
  pose proof (Z.div_mod (byte_val c) 16 ltac:(lia)). lia.
Qed.

Lemma to_hex_all s : all_hex (to_hex s) = true.
Proof.
  unfold all_hex. induction s as [|c s IH]; [done|]. cbn [to_hex str_forall].
  destruct (hex_digits_range c). by rewrite !hex_char_val.
Qed.

Lemma length_to_hex s : String.length (to_hex s) = (2 * String.length s)%nat.
Proof. induction s as [|c s IH]; cbn; lia. Qed.

(** Hexadecimal text has no colon. *)
Lemma to_hex_no_colon s : str_forall (fun c => negb (Ascii.eqb c ":"%char)) (to_hex s) = true.
Proof.
  pose proof (to_hex_all s) as H. revert H. unfold all_hex. generalize (to_hex s). intros t.
  induction t as [|c t IH]; [done|]. cbn. intros [Hc Ht]%andb_true_iff. rewrite IH by done.
  destruct (Ascii.eqb_spec c ":"%char) as [->|]; done.
Qed.
