(* ===== verification/Encryption.v ===== *)
(** * Envelope encryption

    [src/xconfess-backend/src/encryption/encryption.service.ts]: contents under
    data keys, data keys under versioned master keys.  AES-256-GCM is an interface
    with the one law the service relies on; random bytes are inputs. *)
From S2P Require Import Prelude Effects Base64.
From stdpp Require Import pretty.

(** AES-256-GCM, for keys of 32 bytes: decryption under the same key, nonce and tag
    undoes encryption. *)
Class AesGcm := {
  gcm_encrypt : string -> string -> string -> string * string;
  gcm_decrypt : string -> string -> string -> string -> option string;
  gcm_tag_length : forall k iv p, String.length (gcm_encrypt k iv p).2 = 16%nat;
  gcm_decrypt_encrypt : forall k iv p, String.length k = 32%nat ->
    gcm_decrypt k iv (gcm_encrypt k iv p).2 (gcm_encrypt k iv p).1 = Some p;
}.

Inductive crypto_error :=
| Misconfigured (message : string) | UnknownKeyVersion (v : string) | CannotRewrap (v : string) | CipherFailure.
Abbreviation result := (outcome crypto_error).
(** [const x = r; ...] where [r] may throw. *)
Definition rbind {A B} (r : result A) (f : A -> result B) : result B :=
  match r with Ok a => f a | Exn e => Exn e end.
Definition of_opt {A} (o : option A) (e : crypto_error) : result A :=
  match o with Some a => Ok a | None => Exn e end.

Definition IV_BYTES : nat := 12.
Definition KEY_BYTES : nat := 32.

(** [src encryption/encryption.service.ts:30-34 EnvelopePayload] *)
Record EnvelopePayload := { encryptedContent : string; wrappedDek : string; keyVersion : string }.

(** [src encryption/encryption.service.ts:37-48 EncryptionService] *)
Record EncryptionService := { masterKeys : gmap string string; currentVersion : string }.

Definition version_tag (n : nat) : string := "v" +:+ pretty n.
Definition key_name (n : nat) : string := "ENCRYPTION_MASTER_KEY_" +:+ version_tag n.

(** The loop of the constructor, from version [n] on; no value when the fuel is out. *)
Fixpoint load_keys (config : gmap string string) (fuel n : nat) (keys : gmap string string)
    : option (result (gmap string string)) :=
  match fuel with
  | O => None
  | S fuel' =>
      match config !! key_name n with
      | Some raw =>
          if truthy raw then
            let keyBuf := from_hex raw in
            if negb (String.length keyBuf =? KEY_BYTES)%nat then Some (Exn (Misconfigured "Master key must be 32 bytes"))
            else load_keys config fuel' (S n) (<[version_tag n := keyBuf]> keys)
          else Some (Ok keys)
      | None => Some (Ok keys)
      end
  end.

(** [src encryption/encryption.service.ts:50-87 constructor] *)
Definition new_EncryptionService (config : gmap string string) : option (result EncryptionService) :=
  match config !! "ENCRYPTION_CURRENT_KEY_VERSION" with
  | None => Some (Exn (Misconfigured "Configuration key does not exist"))
  | Some current =>
      r ← load_keys config (S (size config)) 1 ∅;
      Some (rbind r (fun keys =>
        if (size keys =? 0)%nat then Exn (Misconfigured "No ENCRYPTION_MASTER_KEY_* env variables configured")
        else match keys !! current with
             | None => Exn (Misconfigured "Current key version not found in configured keys")
             | Some _ => Ok {| masterKeys := keys; currentVersion := current |}
             end))
  end.

Section service.
Context `{!AesGcm}.

(** [src encryption/encryption.service.ts:198-204 aesgcmEncrypt]: nonce, tag,
    ciphertext; a key of another length is refused. *)
Definition aesgcmEncrypt (key iv plaintext : string) : result string :=
  if (String.length key =? KEY_BYTES)%nat then
    let '(encrypted, authTag) := gcm_encrypt key iv plaintext in Ok (iv +:+ authTag +:+ encrypted)
  else Exn CipherFailure.

(** [src encryption/encryption.service.ts:210-217 aesgcmDecrypt] *)
Definition aesgcmDecrypt (key data : string) : result string :=
  let iv := take_str IV_BYTES data in
  let authTag := take_str 16 (skip_str IV_BYTES data) in
  let ciphertext := skip_str (IV_BYTES + 16) data in
  if (String.length key =? KEY_BYTES)%nat then of_opt (gcm_decrypt key iv authTag ciphertext) CipherFailure
  else Exn CipherFailure.

Context (this : EncryptionService).
Definition currentKey : string := default "" (masterKeys this !! currentVersion this).

(** [src encryption/encryption.service.ts:95-106 encrypt]; [dek], [iv1] and [iv2] are
    the random bytes. *)
Definition encrypt (dek iv1 iv2 plaintext : string) : result EnvelopePayload :=
  rbind (aesgcmEncrypt dek iv1 plaintext) (fun content =>
  rbind (aesgcmEncrypt currentKey iv2 dek) (fun wrapped =>
  Ok {| encryptedContent := to_base64 content; wrappedDek := to_base64 wrapped; keyVersion := currentVersion this |})).

(** [src encryption/encryption.service.ts:111-129 decrypt] *)
Definition decrypt (payload : EnvelopePayload) : result string :=
  match masterKeys this !! keyVersion payload with
  | None => Exn (UnknownKeyVersion (keyVersion payload))
  | Some masterKey =>
      rbind (aesgcmDecrypt masterKey (from_base64 (wrappedDek payload))) (fun dek =>
      aesgcmDecrypt dek (from_base64 (encryptedContent payload)))
  end.

(** [src encryption/encryption.service.ts:136-163 rewrapDek] *)
Definition rewrapDek (iv : string) (payload : EnvelopePayload) : result EnvelopePayload :=
  if str_eqb (keyVersion payload) (currentVersion this) then Ok payload
  else
    match masterKeys this !! keyVersion payload with
    | None => Exn (CannotRewrap (keyVersion payload))
    | Some oldMasterKey =>
        rbind (aesgcmDecrypt oldMasterKey (from_base64 (wrappedDek payload))) (fun dek =>
        rbind (aesgcmEncrypt currentKey iv dek) (fun newWrappedDek =>
        Ok {| encryptedContent := encryptedContent payload; wrappedDek := to_base64 newWrappedDek;
              keyVersion := currentVersion this |}))
    end.

(** [src encryption/encryption.service.ts:188-190 isCurrentVersion] *)
Definition isCurrentVersion (v : string) : bool := str_eqb v (currentVersion this).
End service.

(** ** Well-formed services *)
Record service_wf (svc : EncryptionService) : Prop := {
  wf_keys : forall v k, masterKeys svc !! v = Some k -> String.length k = 32%nat;
  wf_current : is_Some (masterKeys svc !! currentVersion svc);
}.

Lemma version_tag_inj n m : version_tag n = version_tag m -> n = m.
Proof. intros H%str_app_inj. by apply (inj pretty). Qed.
Lemma key_name_inj n m : key_name n = key_name m -> n = m.
Proof. intros H%str_app_inj. by apply version_tag_inj. Qed.

(** The versions configured without a gap. *)
Definition configured (config : gmap string string) (n : nat) : Prop :=
  exists raw, config !! key_name n = Some raw /\ truthy raw = true.

Lemma configured_bound config n :
  (forall m, (1 <= m <= n)%nat -> configured config m) -> (n <= size config)%nat.
Proof.
  intros H. rewrite <- (length_seq n 1), <- (length_map key_name), <- size_dom.
  rewrite <- (size_list_to_set (C := gset string)) by (apply NoDup_fmap_2; [by intros ??; apply key_name_inj|apply NoDup_seq]).
  apply subseteq_size. intros x. rewrite elem_of_list_to_set, list_elem_of_fmap.
  intros (m & -> & Hm%elem_of_seq). apply elem_of_dom. destruct (H m ltac:(lia)) as (raw & -> & _). eauto.
Qed.

Lemma load_keys_spec config fuel n keys :
  (forall m, (1 <= m < n)%nat -> configured config m) -> (1 <= n)%nat -> (size config < fuel + n - 1)%nat ->
  (forall v k, keys !! v = Some k -> String.length k = 32%nat) ->
  exists r, load_keys config fuel n keys = Some r
    /\ forall keys', r = Ok keys' -> forall v k, keys' !! v = Some k -> String.length k = 32%nat.
Proof.
  revert n keys; induction fuel as [|fuel IH]; intros n keys Hconf Hn Hsize Hkeys.
  { pose proof (configured_bound config (n - 1) ltac:(intros m Hm; apply Hconf; lia)). lia. }
  cbn. destruct (config !! key_name n) as [raw|] eqn:Hraw.
  2: { eexists. split; [done|]. by intros ? [= <-]. }
  destruct (truthy raw) eqn:Ht; [|eexists; split; [done|]; by intros ? [= <-]].
  destruct (String.length (from_hex raw) =? KEY_BYTES)%nat eqn:Hl; cbn [negb]; [|by eexists].
  apply Nat.eqb_eq in Hl. apply IH; [|lia|lia|].
  - intros m Hm. destruct (decide (m = n)) as [->|]; [by exists raw|]. apply Hconf. lia.
  - intros v k. rewrite lookup_insert_Some. intros [[_ <-]|[_ H]]; [exact Hl|by eapply Hkeys].
Qed.

Section laws.
Context `{!AesGcm}.

Lemma aesgcm_roundtrip key iv p data :
  String.length key = 32%nat -> String.length iv = 12%nat -> aesgcmEncrypt key iv p = Ok data ->
  aesgcmDecrypt key data = Ok p.
Proof.
  intros Hk Hiv. unfold aesgcmEncrypt, aesgcmDecrypt. rewrite Hk. cbn [Nat.eqb KEY_BYTES].
  pose proof (gcm_tag_length key iv p) as Htag. pose proof (gcm_decrypt_encrypt key iv p Hk) as Hd.
  destruct (gcm_encrypt key iv p) as [ct tag]. cbn in Htag, Hd. intros [= <-].
  rewrite (take_str_app _ iv _ Hiv), (skip_str_app _ iv _ Hiv), (take_str_app _ tag _ Htag).
  rewrite <- str_app_assoc, skip_str_app; [by rewrite Hd|].
  rewrite length_str_app, Hiv, Htag. done.
Qed.
Lemma aesgcmEncrypt_ok key iv p : String.length key = 32%nat -> exists data, aesgcmEncrypt key iv p = Ok data.
Proof. intros Hk. unfold aesgcmEncrypt. rewrite Hk. cbn. destruct (gcm_encrypt _ _ _). eauto. Qed.

Context (svc : EncryptionService) (wf : service_wf svc).

Lemma currentKey_spec :
  masterKeys svc !! currentVersion svc = Some (currentKey svc) /\ String.length (currentKey svc) = 32%nat.
Proof using wf.
  destruct (wf_current _ wf) as [k Hk]. unfold currentKey. rewrite Hk. split; [done|]. by apply (wf_keys _ wf _ _ Hk).
Qed.

(** What is rewrapped decrypts as before, and its content is as before. *)
Lemma rewrap_decrypt iv p p' :
  String.length iv = 12%nat -> rewrapDek svc iv p = Ok p' ->
  encryptedContent p' = encryptedContent p /\ keyVersion p' = currentVersion svc /\ decrypt svc p' = decrypt svc p.
Proof using wf.
  intros Hiv. unfold rewrapDek. destruct (str_eqb_spec (keyVersion p) (currentVersion svc)) as [He|Hne].
  { by intros [= <-]. }
  destruct (masterKeys svc !! keyVersion p) as [old|] eqn:Hold; [|done].
  destruct (aesgcmDecrypt old _) as [dek|e] eqn:Hdek; cbn [rbind]; [|done].
  destruct currentKey_spec as [Hcur Hlen].
  destruct (aesgcmEncrypt_ok (currentKey svc) iv dek Hlen) as [data Hdata]. rewrite Hdata. cbn [rbind].
  intros [= <-]. cbn [keyVersion encryptedContent].
  split; [done|]. split; [done|]. unfold decrypt. cbn [keyVersion wrappedDek encryptedContent].
  rewrite Hcur, Hold, Hdek, from_to_base64. cbn [rbind].
  by rewrite (aesgcm_roundtrip _ _ _ _ Hlen Hiv Hdata).
Qed.

(** A payload that decrypts can be rewrapped. *)
Lemma rewrap_ok iv p text : decrypt svc p = Ok text -> exists p', rewrapDek svc iv p = Ok p'.
Proof using wf.
  unfold decrypt, rewrapDek. destruct (str_eqb _ _); [eauto|].
  destruct (masterKeys svc !! _) as [old|]; [|done]. destruct (aesgcmDecrypt old _) as [dek|e]; [|done]. cbn. intros _.
  destruct currentKey_spec as [_ Hlen]. destruct (aesgcmEncrypt_ok (currentKey svc) iv dek Hlen) as [data ->]. by eexists.
Qed.
End laws.

(** More master keys change nothing for what was encrypted under the old ones. *)
Lemma decrypt_mono `{!AesGcm} svc svc' p text :
  masterKeys svc ⊆ masterKeys svc' -> decrypt svc p = Ok text -> decrypt svc' p = Ok text.
Proof.
  intros Hsub. unfold decrypt. destruct (masterKeys svc !! keyVersion p) as [k|] eqn:Hk; [|done].
  by rewrite (lookup_weaken _ _ _ _ Hk Hsub).
Qed.

(** ** Properties *)

(** The constructor terminates, whatever the environment, and a service it returns
    is well formed: every master key has 32 bytes and the current version has one. *)
Theorem key_loading_terminates config :
  exists r, new_EncryptionService config = Some r /\ forall svc, r = Ok svc -> service_wf svc.
Proof.
  unfold new_EncryptionService. destruct (config !! "ENCRYPTION_CURRENT_KEY_VERSION") as [current|]; [|by eexists].
  destruct (load_keys_spec config (S (size config)) 1 ∅) as (r & -> & Hr); [lia|lia|lia|by intros v k; rewrite lookup_empty|].
  eexists. split; [done|]. intros svc. destruct r as [keys|e]; cbn; [|done].
  destruct (_ =? 0)%nat; [done|]. destruct (keys !! current) as [k|] eqn:Hk; [|done]. intros [= <-].
  split; cbn; [by apply Hr|by rewrite Hk].
Qed.

(** C21. Contents survive encryption and any number of rotations: what a service
    encrypts it decrypts, and after master keys were added and the data key was
    rewrapped under the current one, the content is untouched and still decrypts to
    the text. *)
Theorem envelope_roundtrip `{!AesGcm} svc svc' dek iv1 iv2 iv3 text :
  service_wf svc -> service_wf svc' -> masterKeys svc ⊆ masterKeys svc' ->
  String.length dek = 32%nat -> String.length iv1 = 12%nat -> String.length iv2 = 12%nat -> String.length iv3 = 12%nat ->
  exists p, encrypt svc dek iv1 iv2 text = Ok p /\ decrypt svc p = Ok text /\ isCurrentVersion svc (keyVersion p) = true
    /\ exists p', rewrapDek svc' iv3 p = Ok p' /\ encryptedContent p' = encryptedContent p
         /\ isCurrentVersion svc' (keyVersion p') = true /\ decrypt svc' p' = Ok text.
Proof.
  intros Hwf Hwf' Hsub Hd H1 H2 H3. destruct (currentKey_spec svc Hwf) as [Hcur Hlen].
  destruct (aesgcmEncrypt_ok dek iv1 text Hd) as [c Hc]. destruct (aesgcmEncrypt_ok (currentKey svc) iv2 dek Hlen) as [w Hw].
  unfold encrypt. rewrite Hc, Hw. cbn. eexists. split; [done|].
  set (p := {| encryptedContent := to_base64 c; wrappedDek := to_base64 w; keyVersion := currentVersion svc |}).
  assert (decrypt svc p = Ok text) as Hdec.
  { unfold decrypt, p. cbn [keyVersion wrappedDek encryptedContent].
    rewrite Hcur, !from_to_base64, (aesgcm_roundtrip _ _ _ _ Hlen H2 Hw). cbn [rbind].
    by rewrite (aesgcm_roundtrip _ _ _ _ Hd H1 Hc). }
  split; [done|]. split; [apply str_eqb_refl|]. pose proof (decrypt_mono svc svc' p text Hsub Hdec) as Hdec'.
  destruct (rewrap_ok svc' Hwf' iv3 p text Hdec') as [p' Hp']. exists p'. split; [done|].
  destruct (rewrap_decrypt svc' Hwf' iv3 p p' H3 Hp') as (-> & -> & ->).
  split; [done|]. split; [apply str_eqb_refl|done].
Qed.

(** ** Witnesses *)
(** A cipher of no secrecy that has the interface's laws: the tag is half the key. *)
#[local] Obligation Tactic := idtac.
Lemma length_take_str n s : (n <= String.length s)%nat -> String.length (take_str n s) = n.
Proof. revert s; induction n as [|n IH]; intros [|c s] H; cbn in *; [done..|lia|]. by rewrite IH by lia. Qed.
Definition half_tag (k : string) : string := take_str 16 (k +:+ "................").
Program Definition plain_gcm : AesGcm := {|
  gcm_encrypt k iv p := (p, half_tag k);
  gcm_decrypt k iv tag ct := if str_eqb tag (half_tag k) then Some ct else None;
|}.
Next Obligation. intros k iv p. apply (length_take_str 16). rewrite length_str_app. cbn. lia. Qed.
Next Obligation. intros k iv p _. cbn. by rewrite str_eqb_refl. Qed.

Definition hex64 (c : string) : string := Nat.iter 64 (fun s => c +:+ s) "".
Definition ex_config : gmap string string :=
  {[ "ENCRYPTION_CURRENT_KEY_VERSION" := "v1"; "ENCRYPTION_MASTER_KEY_v1" := hex64 "a" ]}.
Definition ex_service (current : string) (keys : gmap string string) : EncryptionService :=
  {| masterKeys := keys; currentVersion := current |}.
Definition ex_svc1 : EncryptionService := ex_service "v1" {[ "v1" := from_hex (hex64 "a") ]}.
Definition ex_svc2 : EncryptionService :=
  ex_service "v2" {[ "v1" := from_hex (hex64 "a"); "v2" := from_hex (hex64 "b") ]}.
Example ex_config_service : new_EncryptionService ex_config = Some (Ok ex_svc1).
Proof. vm_compute. reflexivity. Qed.

Lemma ex_svc1_wf : service_wf ex_svc1.
Proof.
  split; [|by eexists]. intros v k Hk. cbn in Hk. apply lookup_singleton_Some in Hk as [_ Hk]. by rewrite <- Hk.
Qed.
Lemma ex_svc2_wf : service_wf ex_svc2.
Proof.
  split; [|by eexists]. intros v k Hk. cbn in Hk. rewrite lookup_insert_Some, lookup_singleton_Some in Hk.
  destruct Hk as [[_ Hk]|[_ [_ Hk]]]; by rewrite <- Hk.
Qed.

Lemma envelope_roundtrip_witness :
  exists p p', @encrypt plain_gcm ex_svc1 (from_hex (hex64 "c")) "abcdefghijkl" "mnopqrstuvwx" "secret" = Ok p
    /\ @rewrapDek plain_gcm ex_svc2 "ABCDEFGHIJKL" p = Ok p' /\ keyVersion p' = "v2"
    /\ @decrypt plain_gcm ex_svc2 p' = Ok "secret".
Proof.
  destruct (@envelope_roundtrip plain_gcm ex_svc1 ex_svc2 (from_hex (hex64 "c")) "abcdefghijkl" "mnopqrstuvwx"
              "ABCDEFGHIJKL" "secret" ex_svc1_wf ex_svc2_wf) as (p & Hp & _ & _ & p' & Hp' & _ & Hv & Hd);
    [|reflexivity..|].
  - unfold ex_svc1, ex_svc2, ex_service. cbn [masterKeys]. apply map_subseteq_spec. intros v k Hk.
    apply lookup_singleton_Some in Hk as [<- <-]. vm_compute. reflexivity.
  - exists p, p'. split; [exact Hp|]. split; [exact Hp'|]. split; [|exact Hd]. apply str_eqb_eq in Hv. exact Hv.
Defined.
