(* ===== verification/ContentEncryption.v ===== *)
(** * Encryption of confessions at rest

    [src/xconfess-backend/src/utils/confession-encryption.ts]: the text of a
    confession is stored as the hexadecimal initialisation vector and AES-256-CBC
    ciphertext, joined by a colon.  The cipher is an interface with its one law;
    the random vector is an input. *)
From S2P Require Import Prelude Effects Base64.

(** AES-256-CBC, for keys of 32 bytes and vectors of 16: decryption undoes
    encryption, and padding makes every ciphertext at least a block. *)
Class AesCbc := {
  cbc_encrypt : string -> string -> string -> string;
  cbc_decrypt : string -> string -> string -> option string;
  cbc_nonempty : forall k iv t, cbc_encrypt k iv t <> "";
  cbc_decrypt_encrypt : forall k iv t, String.length k = 32%nat -> String.length iv = 16%nat ->
    cbc_decrypt k iv (cbc_encrypt k iv t) = Some t;
}.

Inductive content_error :=
| InvalidAesKey | NotEncrypted | InvalidCiphertext.
Abbreviation result := (outcome content_error).

Definition IV_LENGTH : nat := 16.

(** [src utils/confession-encryption.ts:14-26 resolveAesKey] *)
Definition resolveAesKey (key : string) : result string :=
  if all_hex key && (String.length key =? 64)%nat then Ok (from_hex key)
  else if (String.length key =? 32)%nat then Ok key
  else Exn InvalidAesKey.

(** [src utils/confession-encryption.ts:31-42 isEncryptedConfession] *)
Definition isEncryptedConfession (text : string) : bool :=
  match split_on ":"%char text with
  | [ivHex; encryptedHex] =>
      (String.length ivHex =? IV_LENGTH * 2)%nat && all_hex ivHex
      && (0 <? String.length encryptedHex)%nat && all_hex encryptedHex
  | _ => false
  end.

(** [src utils/confession-encryption.ts:47-53 assertEncryptedBeforeSave] *)
Definition assertEncryptedBeforeSave (text : string) : result unit :=
  if isEncryptedConfession text then Ok tt else Exn NotEncrypted.

Section cipher.
Context `{!AesCbc}.

(** [src utils/confession-encryption.ts:62-71 encryptConfession]; [iv] is
    [crypto.randomBytes(IV_LENGTH)]. *)
Definition encryptConfession (iv text key : string) : result string :=
  match resolveAesKey key with
  | Exn e => Exn e
  | Ok keyBytes =>
      let r := to_hex iv +:+ ":" +:+ to_hex (cbc_encrypt keyBytes iv text) in
      match assertEncryptedBeforeSave r with Ok _ => Ok r | Exn e => Exn e end
  end.

(** [src utils/confession-encryption.ts:80-88 decryptConfession]; a missing part, a
    vector of another length and bad padding are refused by the cipher. *)
Definition decryptConfession (encryptedText key : string) : result string :=
  match resolveAesKey key with
  | Exn e => Exn e
  | Ok keyBytes =>
      match split_on ":"%char encryptedText with
      | ivHex :: encrypted :: _ =>
          let iv := from_hex ivHex in
          if (String.length iv =? IV_LENGTH)%nat then
            match cbc_decrypt keyBytes iv (from_hex encrypted) with
            | Some t => Ok t
            | None => Exn InvalidCiphertext
            end
          else Exn InvalidCiphertext
      | _ => Exn InvalidCiphertext
      end
  end.

(** [src utils/confession-encryption.ts:94-106 safeDecryptConfession] *)
Definition safeDecryptConfession (encryptedText key : string) : result string :=
  if negb (isEncryptedConfession encryptedText) then Exn NotEncrypted
  else match decryptConfession encryptedText key with
       | Ok t => Ok t
       | Exn _ => Exn InvalidCiphertext
       end.

(** ** Lemmas *)

Lemma split_on_one c a b :
  str_forall (fun d => negb (Ascii.eqb d c)) a = true -> str_forall (fun d => negb (Ascii.eqb d c)) b = true ->
  split_on c (a +:+ String c b) = [a; b].
Proof.
  intros Ha Hb. assert (split_on c b = [b]) as Hs.
  { clear Ha. induction b as [|d b IH]; [done|]. cbn in *. apply andb_true_iff in Hb as [Hd Hb].
    apply negb_true_iff in Hd. by rewrite Hd, IH. }
  induction a as [|d a IH].
  - rewrite str_app_nil. cbn. by rewrite Ascii.eqb_refl, Hs.
  - rewrite str_app_cons. cbn in *. apply andb_true_iff in Ha as [Hd Ha]. apply negb_true_iff in Hd.
    by rewrite Hd, IH.
Qed.

Lemma resolveAesKey_length key k : resolveAesKey key = Ok k -> String.length k = 32%nat.
Proof.
  unfold resolveAesKey. destruct (all_hex key && _) eqn:Hk.
  - intros Hr. injection Hr as <-. apply andb_true_iff in Hk as [Hh Hl%Nat.eqb_eq].
    enough (forall n s, all_hex s = true -> String.length s = (2 * n)%nat -> String.length (from_hex s) = n) as Hlen
      by (by apply Hlen).
    intros n. unfold all_hex. induction n as [|n IH]; intros s Hs Hn; [by destruct s|].
    destruct s as [|a [|b s]]; cbn in Hn; [lia|lia|]. cbn in Hs.
    apply andb_true_iff in Hs as [Ha [Hb Hs]%andb_true_iff]. cbn [from_hex].
    destruct (hex_val a), (hex_val b); try done. cbn. by rewrite IH by (done || lia).
  - destruct (Nat.eqb_spec (String.length key) 32); [|done]. intros Hr. by injection Hr as <-.
Qed.

(** A stored text is one, and a text that was stored is read back. *)
Lemma encryptConfession_ok iv text key k :
  resolveAesKey key = Ok k -> String.length iv = IV_LENGTH ->
  encryptConfession iv text key = Ok (to_hex iv +:+ String ":" (to_hex (cbc_encrypt k iv text))).
Proof.
  intros Hk Hiv. unfold encryptConfession, assertEncryptedBeforeSave, isEncryptedConfession.
  rewrite Hk, str_app_cons, str_app_nil, split_on_one by apply to_hex_no_colon.
  rewrite !length_to_hex, !to_hex_all, Hiv. cbn [Nat.eqb IV_LENGTH Nat.mul Nat.add andb].
  pose proof (cbc_nonempty k iv text) as Hne. by destruct (cbc_encrypt k iv text).
Qed.

Lemma decrypt_encryptConfession iv text key c :
  String.length iv = IV_LENGTH -> encryptConfession iv text key = Ok c -> decryptConfession c key = Ok text.
Proof.
  intros Hiv Hc. destruct (resolveAesKey key) as [k|e] eqn:Hk; [|unfold encryptConfession in Hc; by rewrite Hk in Hc].
  rewrite (encryptConfession_ok iv text key k) in Hc by done. injection Hc as <-.
  unfold decryptConfession. rewrite Hk, split_on_one by apply to_hex_no_colon. rewrite !from_to_hex, Hiv.
  cbn [Nat.eqb IV_LENGTH]. rewrite cbc_decrypt_encrypt; [done|by apply (resolveAesKey_length key)|done].
Qed.

End cipher.

(** A cipher that keeps the law. *)
Definition plain_cbc : AesCbc.
Proof.
  refine {| cbc_encrypt k iv t := String "x" t;
            cbc_decrypt k iv c := match c with String _ t => Some t | EmptyString => None end |}; done.
Defined.
