(* ===== verification/Cursor.v ===== *)
(** * Cursors

    [src/xconfess-backend/src/common/pagination/]: the opaque tokens of paginated
    lists ([cursor.util.ts], [cursor-validation.decorator.ts]) and the order and
    position of the feed ([feed-ordering.ts]).  How [Date] reads a foreign text is a
    parameter. *)
From S2P Require Import Prelude Numbers Json Dates Base64.
Open Scope Z_scope.

(** [src common/pagination/cursor.util.ts:9-12 encodeCursor] *)
Definition encodeCursor (cursorObj : json) : string := to_base64 (stringify cursorObj).

(** [src common/pagination/cursor.util.ts:17-31 decodeCursor]: an object, or
    nothing. *)
Definition decodeCursor (cursor : option string) : option json :=
  match cursor with
  | Some c =>
      if truthy c then
        match parse (from_base64 c) with
        | Some (JObj fs) => Some (JObj fs)
        | _ => None
        end
      else None
  | None => None
  end.

(** [Number.isInteger(v)], and the integer. *)
Definition as_integer (v : option json) : option Z :=
  match v with
  | Some (JNum (Fin x)) => if Qeq_bool (inject_Z (Qfloor x)) x then Some (Qfloor x) else None
  | _ => None
  end.

(** The moment a row was created: a [Date] read from the database, or its text. *)
Inductive moment := AtDate (t : ms) | AtText (s : string).
(** [src common/pagination/feed-ordering.ts:67-70 FeedCursorRow] *)
Record FeedCursorRow := { row_id : string; row_created_at : moment }.
(** [src common/pagination/feed-ordering.ts:73-76 FeedCursorPosition] *)
Record FeedCursorPosition := { pos_id : string; pos_created_at : json }.

Definition moment_text (m : moment) : string := match m with AtDate t => toISOString t | AtText s => s end.

(** [src common/pagination/feed-ordering.ts:82-90 toFeedCursorPosition] *)
Definition toFeedCursorPosition (row : FeedCursorRow) : FeedCursorPosition :=
  {| pos_id := row_id row;
     pos_created_at := JStr (moment_text (row_created_at row)) |}.
Definition position_json (p : FeedCursorPosition) : json :=
  JObj [("id", JStr (pos_id p)); ("created_at", pos_created_at p)].

(** [src common/pagination/feed-ordering.ts:93-95 encodeFeedCursor] *)
Definition encodeFeedCursor (row : FeedCursorRow) : string := encodeCursor (position_json (toFeedCursorPosition row)).
(** The cursor of the aggregate sorts: an id and an offset. *)
Definition offset_cursor (id : string) (offset : Z) : string :=
  encodeCursor (JObj [("id", JStr id); ("offset", JNum (num_of_Z offset))]).

(** Timestamps of the database count microseconds; a [Date] read from one has
    milliseconds. *)
Definition us_of (t : ms) : Z := t * 1000.
Definition js_date (us : Z) : ms := us / 1000.

(** The canonical order, newest first: is [(t, i)] before [(t', i')] in the feed? *)
Definition feed_before (a b : Z * string) : bool :=
  (b.1 <? a.1) || ((a.1 =? b.1) && str_le b.2 a.2).

Section dates.
Context (Date_parse : string -> option ms).

(** [new Date(v).getTime()]; none is [NaN]. *)
Definition new_Date (v : json) : option ms :=
  match v with
  | JStr s => Date_parse s
  | JNum (Fin x) => Some (Z.quot (Qnum x) (Zpos (Qden x)))
  | JNum _ => None
  | JNull => Some 0
  | JBool b => Some (if b then 1 else 0)
  | JArr _ | JObj _ => Date_parse (json_string v)
  end.

(** [src common/pagination/feed-ordering.ts:105-118 feedKeysetPredicate]: the
    parameters of the row comparison. *)
Definition feedKeysetPredicate (p : FeedCursorPosition) : option ms * string :=
  (new_Date (pos_created_at p), pos_id p).

(** What the database makes of [(created_at, id) < (:createdAt, :id)]: it refuses an
    invalid date and a text that is no UUID. *)
Definition keyset_sql (uuid_of : string -> option string) (params : option ms * string) : option (Z * string -> bool) :=
  createdAt ← params.1; i ← uuid_of params.2;
  Some (fun row => (row.1 <? us_of createdAt) || ((row.1 =? us_of createdAt) && negb (str_le i row.2))).

(** [src common/pagination/cursor-validation.decorator.ts:16-35 validate] *)
Definition IsValidCursor (value : option json) : bool :=
  match value with
  | None | Some JNull => true
  | Some (JStr s) =>
      if negb (truthy s) then true
      else
        match decodeCursor (Some s) with
        | None => false
        | Some decoded =>
            match json_get "id" decoded with
            | Some (JStr _) | Some (JNum _) =>
                match as_integer (json_get "offset" decoded) with
                | Some n => 0 <=? n
                | None => false
                end
                || existsb (fun key => match json_get key decoded with
                                       | Some (JStr position) => bool_decide (is_Some (Date_parse position))
                                       | _ => false
                                       end) ["created_at"; "createdAt"; "lastMessageAt"]
            | _ => false
            end
        end
  | Some _ => false
  end.
End dates.

(** ** Lemmas *)

Lemma decode_encodeCursor fs :
  json_ok (JObj fs) -> decodeCursor (Some (encodeCursor (JObj fs))) = Some (JObj fs).
Proof.
  intros Hok. unfold decodeCursor, encodeCursor.
  assert (truthy (to_base64 (stringify (JObj fs))) = true) as ->.
  { apply negb_true_iff, str_eqb_neq. intros H. pose proof (from_to_base64 (stringify (JObj fs))) as Hb.
    rewrite H in Hb. by cbn in Hb. }
  by rewrite from_to_base64, parse_stringify.
Qed.

Lemma position_ok row : json_ok (position_json (toFeedCursorPosition row)).
Proof. split_and!; try done. apply NoDup_cons; split; [set_solver|apply NoDup_singleton]. Qed.

Lemma offset_ok i n : json_ok (JObj [("id", JStr i); ("offset", JNum (num_of_Z n))]).
Proof.
  split; [apply NoDup_cons; split; [set_solver|apply NoDup_singleton]|]. cbn. eauto.
Qed.

Lemma as_integer_Z n : as_integer (Some (JNum (num_of_Z n))) = Some n.
Proof.
  unfold as_integer, num_of_Z. rewrite Qfloor_Z.
  assert (Qeq_bool (inject_Z n) (inject_Z n) = true) as -> by (by apply Qeq_bool_iff). done.
Qed.

(** ** Properties *)

(** A cursor is read back. The token of a row decodes to the position of the row,
    and the token of an offset to the offset; both pass the validation of the
    routes. *)
Theorem cursor_roundtrip (Date_parse : string -> option ms) row i n :
  is_Some (Date_parse (moment_text (row_created_at row))) -> 0 <= n ->
  decodeCursor (Some (encodeFeedCursor row)) = Some (position_json (toFeedCursorPosition row)) /\
  IsValidCursor Date_parse (Some (JStr (encodeFeedCursor row))) = true /\
  (exists o, decodeCursor (Some (offset_cursor i n)) = Some o /\ as_integer (json_get "offset" o) = Some n) /\
  IsValidCursor Date_parse (Some (JStr (offset_cursor i n))) = true.
Proof.
  intros Hdate Hn.
  assert (decodeCursor (Some (encodeFeedCursor row)) = Some (position_json (toFeedCursorPosition row))) as H1
    by apply decode_encodeCursor, position_ok.
  assert (decodeCursor (Some (offset_cursor i n)) = Some (JObj [("id", JStr i); ("offset", JNum (num_of_Z n))])) as H2
    by apply decode_encodeCursor, offset_ok.
  split_and!; [done| |by eexists; split; [exact H2|apply (as_integer_Z n)]|].
  - unfold IsValidCursor. destruct (negb _); [done|]. rewrite H1.
    change (json_get "id" _) with (Some (JStr (pos_id (toFeedCursorPosition row)))). cbv beta iota.
    change (as_integer (json_get "offset" _)) with (@None Z). rewrite orb_false_l.
    apply existsb_exists. exists "created_at". split; [by left|]. by apply bool_decide_eq_true.
  - unfold IsValidCursor. destruct (negb _); [done|]. rewrite H2.
    change (json_get "id" _) with (Some (JStr i)). cbv beta iota.
    change (json_get "offset" _) with (Some (JNum (num_of_Z n))). rewrite as_integer_Z.
    by rewrite (proj2 (Z.leb_le 0 n)).
Qed.

Lemma cursor_roundtrip_witness :
  decodeCursor (Some (encodeFeedCursor {| row_id := "c1"; row_created_at := AtDate 1709210096789 |}))
  = Some (JObj [("id", JStr "c1"); ("created_at", JStr "2024-02-29T12:34:56.789Z")]).
Proof.
  assert (is_Some (parseISO "2024-02-29T12:34:56.789Z") /\ 0 <= 20) as [Hd Hn] by (split; [vm_compute; eauto|lia]).
  exact (proj1 (cursor_roundtrip parseISO {| row_id := "c1"; row_created_at := AtDate 1709210096789 |} "c1" 20 Hd Hn)).
Defined.
