(* ===== verification/Confessions.v ===== *)
(** * Confessions: edits, removal, scheduling, anchors and single views

    [src/xconfess-backend/src/confession/]: the operations of [confession.service.ts]
    on one confession, the scheduler ([confession-scheduler.service.ts]), the view
    cache ([confession-view-cache.service.ts]) and the cache service they evict
    ([cache/cache.service.ts]).  Redis keeps the promises of [CacheManager]; a flag
    of the world says whether it answers.  The verdict of the classifier and the
    answers of the Stellar network are inputs; the HTML sanitiser and SHA-256 are
    parameters. *)
From S2P Require Import Prelude Numbers Json Dates Effects Moderation CacheManager Base64 ContentEncryption Cursor.
Open Scope Z_scope.

(** ** Data *)

(** [src confession/entities/confession.entity.ts:19-138 AnonymousConfession] *)
Record AnonymousConfession := {
  c_id : string; c_message : string; c_gender : option string; c_created_at : Z;
  c_anonymousUserId : string; c_view_count : Z;
  c_isDeleted : bool; c_deletedAt : option ms; c_deletedBy : option string;
  c_moderationScore : Q; c_idempotencyKey : option string; c_moderationFlags : list ModerationCategory;
  c_moderationStatus : ModerationStatus; c_requiresReview : bool; c_isHidden : bool;
  c_moderationDetails : gmap string Q;
  c_stellarTxHash : option string; c_stellarHash : option string; c_isAnchored : bool; c_anchoredAt : option ms;
  c_status : string; c_publishAt : option ms;
}.
#[export] Instance eta_AnonymousConfession : Eta AnonymousConfession := fun c => {|
  c_id := c_id c; c_message := c_message c; c_gender := c_gender c; c_created_at := c_created_at c;
  c_anonymousUserId := c_anonymousUserId c; c_view_count := c_view_count c;
  c_isDeleted := c_isDeleted c; c_deletedAt := c_deletedAt c; c_deletedBy := c_deletedBy c;
  c_moderationScore := c_moderationScore c; c_idempotencyKey := c_idempotencyKey c;
  c_moderationFlags := c_moderationFlags c; c_moderationStatus := c_moderationStatus c;
  c_requiresReview := c_requiresReview c; c_isHidden := c_isHidden c;
  c_moderationDetails := c_moderationDetails c;
  c_stellarTxHash := c_stellarTxHash c; c_stellarHash := c_stellarHash c; c_isAnchored := c_isAnchored c;
  c_anchoredAt := c_anchoredAt c; c_status := c_status c; c_publishAt := c_publishAt c |}.

(** A reaction, as the confessions load it. *)
Record ReactionRow := { rx_id : string; rx_confession : string; rx_emoji : string; rx_createdAt : ms; rx_user : string }.

Definition status_str (s : ModerationStatus) : string :=
  match s with
  | PENDING => "pending" | APPROVED => "approved" | REJECTED => "rejected" | FLAGGED => "flagged"
  | ESCALATED => "escalated" | RESOLVED => "resolved" | HIDDEN => "hidden"
  end.

Inductive conf_error :=
| NotFound (m : string) | BadRequest (m : string) | Conflict (m : string) | Plain (m : string)
| Content (e : content_error) | ModFailed (e : mod_error) | QueryFailed.

Section service.
Context {C : Type} `{!CacheManager C} {aes : AesCbc}.
Context (sanitizeHtml : string -> string) (sha256 : string -> string) (aesKey : string).

(** The tables, the account behind each identity (the [users] row of its link, as
    serialised), the cache, the view markers and the clock. *)
Record ConfDB := {
  rows : gmap string AnonymousConfession;
  reaction_rows : list ReactionRow;
  comment_rows : list (string * bool);
  accounts : gmap string json;
  mod_db : ModDB;
  cache : C;
  views : C;
  cache_up : bool;
  clock : ms;
}.
#[export] Instance eta_ConfDB : Eta ConfDB := fun w => {|
  rows := rows w; reaction_rows := reaction_rows w; comment_rows := comment_rows w; accounts := accounts w;
  mod_db := mod_db w; cache := cache w; views := views w; cache_up := cache_up w; clock := clock w |}.

Abbreviation action := (prog ConfDB conf_error).

#[export] Program Instance mod_lens : Lens ConfDB ModDB := {|
  lget := mod_db; lset p w := w <| mod_db := p |> |}.
Solve Obligations with by intros; repeat match goal with w : ConfDB |- _ => destruct w end.

(** ** The cache service *)

(** [src cache/cache.service.ts:8-14 CACHE_TTL], in seconds. *)
Definition CONFESSION_SINGLE_TTL : Z := 1800.
(** [src cache/cache.service.ts:8-14 CACHE_TTL], in seconds. *)
Definition CONFESSION_LIST_TTL : Z := 300.

(** [src cache/cache.service.ts:31-46 get]: a failure is a miss. *)
Definition cache_service_get (key : string) : action (option cval) :=
  reads (fun w => if cache_up w then
                    match cache_get key (clock w) (cache w) with
                    | Some v => if cval_truthy v then Some v else None
                    | None => None
                    end
                  else None).
(** [src cache/cache.service.ts:48-60 set]: a failure is ignored. *)
Definition cache_service_set (key : string) (v : cval) (ttl : Z) : action unit :=
  writes (fun w => if cache_up w then w <| cache ::= cache_set key v (ttl * 1000) (clock w) |> else w).
(** [src cache/cache.service.ts:62-70 del]: a failure is ignored. *)
Definition cache_service_del (key : string) : action unit :=
  writes (fun w => if cache_up w then w <| cache ::= cache_del key |> else w).
(** [src cache/cache.service.ts:72-88 delPattern] *)
Definition delPattern (pattern : string) : action unit :=
  let* keys := reads (fun w => if cache_up w then cache_keys pattern (cache w) else []) in
  for_each keys cache_service_del.

(** [src cache/cache-namespace.ts:186-193 ConfessionCacheKeys] *)
Definition single_key (confessionId : string) : string := "confession:" +:+ confessionId.
(** [src cache/cache-namespace.ts:186-193 listPrefix] *)
Definition listPrefix : string := "confessions:".

(** [src confession/confession.service.ts:1468-1470 invalidateConfessionCache] *)
Definition invalidateConfessionCache : action unit := delPattern listPrefix.
(** [src confession/confession.service.ts:1477-1480 invalidateConfessionEntry] *)
Definition invalidateConfessionEntry (confessionId : string) : action unit :=
  do* cache_service_del (single_key confessionId) in invalidateConfessionCache.

(** ** Edits and removal *)

(** [src confession/confession.service.ts:116-122 sanitizeMessage] *)
Definition sanitizeMessage (message : string) : string := trim (sanitizeHtml message).

Definition of_content {A} (o : outcome content_error A) : action A := of_outcome (map_exn Content o).
Definition decrypted (c : AnonymousConfession) : action AnonymousConfession :=
  let* m := of_content (decryptConfession (c_message c) aesKey) in Ret (c <| c_message := m |>).

Definition find_row (P : AnonymousConfession -> bool) (id : string) (w : ConfDB) : option AnonymousConfession :=
  match rows w !! id with Some c => if P c then Some c else None | None => None end.
Definition not_deleted (c : AnonymousConfession) : bool := negb (c_isDeleted c).
(** [update(id, ...)]: a changed value must respect the unique index of its column. *)
Definition taken (f : AnonymousConfession -> option string) (id : string) (c c' : AnonymousConfession) (w : ConfDB) : bool :=
  bool_decide (is_Some (f c')) && negb (bool_decide (f c' = f c))
  && existsb (fun p : string * AnonymousConfession => negb (p.1 =s? id) && bool_decide (f p.2 = f c'))
       (map_to_list (rows w)).
Definition update_row (id : string) (f : AnonymousConfession -> AnonymousConfession) : action unit :=
  attempts (fun w =>
    match rows w !! id with
    | Some c => if taken c_stellarTxHash id c (f c) w || taken c_idempotencyKey id c (f c) w
                then (Exn QueryFailed, w)
                else (Ok tt, w <| rows ::= <[id := f c]> |>)
    | None => (Ok tt, w)
    end).

(** [src confession/dto/create-confession.dto.ts:13-60 CreateConfessionDto], every
    field optional. *)
Record UpdateConfessionDto := {
  u_message : option string; u_gender : option string; u_tags : option (list string);
  u_stellarTxHash : option string; u_idempotencyKey : option string;
}.
Definition or_old {A} (new old : option A) : option A := match new with Some _ => new | None => old end.
Definition apply_dto (dto : UpdateConfessionDto) (c : AnonymousConfession) : AnonymousConfession :=
  c <| c_message := default (c_message c) (u_message dto) |>
    <| c_gender := or_old (u_gender dto) (c_gender c) |>
    <| c_stellarTxHash := or_old (u_stellarTxHash dto) (c_stellarTxHash c) |>
    <| c_idempotencyKey := or_old (u_idempotencyKey dto) (c_idempotencyKey c) |>.
(** The ORM refuses a property that is no column, and an update of nothing. *)
Definition update_allowed (dto : UpdateConfessionDto) : bool :=
  bool_decide (u_tags dto = None)
  && (bool_decide (is_Some (u_message dto)) || bool_decide (is_Some (u_gender dto))
      || bool_decide (is_Some (u_stellarTxHash dto)) || bool_decide (is_Some (u_idempotencyKey dto))).
Definition moderated (r : ModerationResult) (c : AnonymousConfession) : AnonymousConfession :=
  c <| c_moderationScore := score r |> <| c_moderationFlags := flags r |> <| c_moderationStatus := status r |>
    <| c_requiresReview := requiresReview r |> <| c_isHidden := bool_decide (status r = REJECTED) |>
    <| c_moderationDetails := details r |>.

(** What an edit draws: the vector of the cipher, the id of the log, and the verdict
    of the classifier on the new text. *)
Record EditDraw := { ed_iv : string; ed_log : string; ed_verdict : ModerationResult }.

(** [src confession/confession.service.ts:538-582 update] *)
Definition update (d : EditDraw) (id : string) (dto : UpdateConfessionDto) : action (option AnonymousConfession) :=
  let* existing := reads (find_row not_deleted id) in
  match existing with
  | None => Throw (NotFound "Confession not found")
  | Some _ =>
      do* (if truthy_opt (u_message dto) then
             let sanitized := sanitizeMessage (default "" (u_message dto)) in
             if negb (truthy sanitized) then Throw (BadRequest "Invalid content")
             else
               let* message := of_content (encryptConfession (ed_iv d) sanitized aesKey) in
               do* (if bool_decide (u_tags dto = None) then
                      update_row id (fun c => moderated (ed_verdict d) (apply_dto dto c <| c_message := message |>))
                    else Throw QueryFailed) in
               let* now := reads clock in
               do* lift ModFailed (createLog (ed_log d) now sanitized (ed_verdict d) (Some id) None (Some "openai")) in
               Ret tt
           else if update_allowed dto then update_row id (apply_dto dto) else Throw QueryFailed) in
      do* invalidateConfessionEntry id in
      let* updated := reads (fun w => rows w !! id) in
      match updated with
      | Some c => let* c := decrypted c in Ret (Some c)
      | None => Ret None
      end
  end.

(** [src confession/confession.service.ts:584-596 remove] *)
Definition remove (id : string) (deletedBy : option string) : action string :=
  let* existing := reads (find_row not_deleted id) in
  match existing with
  | None => Throw (NotFound "Confession not found")
  | Some _ =>
      let* now := reads clock in
      do* update_row id (fun c => c <| c_isDeleted := true |> <| c_deletedAt := Some now |>
                                    <| c_deletedBy := if truthy_opt deletedBy then deletedBy else None |>) in
      do* invalidateConfessionEntry id in
      Ret id
  end.

Definition undeleted (c : AnonymousConfession) : AnonymousConfession :=
  c <| c_isDeleted := false |> <| c_deletedAt := None |> <| c_deletedBy := None |>.

(** [src confession/confession.service.ts:601-614 restore] *)
Definition restore (id : string) : action string :=
  let* existing := reads (find_row c_isDeleted id) in
  match existing with
  | None => Throw (NotFound "Soft-deleted confession not found")
  | Some _ => do* update_row id undeleted in do* invalidateConfessionEntry id in Ret id
  end.

(** [src confession/confession.service.ts:1567-1595 deleteConfession] *)
Definition deleteConfession (confessionId userId : string) : action unit :=
  let* confession := reads (fun w => rows w !! confessionId) in
  match confession with
  | None => Throw (NotFound "Confession not found")
  | Some _ =>
      let* now := reads clock in
      do* update_row confessionId (fun c => c <| c_isDeleted := true |> <| c_deletedAt := Some now |>
                                              <| c_deletedBy := Some userId |>) in
      invalidateConfessionEntry confessionId
  end.

(** [src confession/confession.service.ts:1601-1627 restoreConfession] *)
Definition restoreConfession (confessionId : string) : action unit :=
  let* confession := reads (fun w => rows w !! confessionId) in
  match confession with
  | None => Throw (NotFound "Confession not found")
  | Some _ => do* update_row confessionId undeleted in invalidateConfessionEntry confessionId
  end.

(** [save(confession)]: the columns of the row as the request has them. *)
Definition save_row (c : AnonymousConfession) : action unit := writes (fun w => w <| rows ::= <[c_id c := c]> |>).

(** [getLogsByConfession(confessionId)[0]]. *)
Definition latest_log_of (confessionId : string) : action (option ModerationLog) :=
  reads (fun w => latest_log confessionId (mod_db w)).

(** [src confession/confession.service.ts:1003-1036 updateModerationStatus] *)
Definition updateModerationStatus (confessionId : string) (s : ModerationStatus) (moderatorId : string)
    (notes : option string) : action AnonymousConfession :=
  let* confession := reads (fun w => rows w !! confessionId) in
  match confession with
  | None => Throw (NotFound "Confession not found")
  | Some c =>
      let c := c <| c_moderationStatus := s |> <| c_isHidden := bool_decide (s = REJECTED) |>
                 <| c_requiresReview := false |> in
      do* save_row c in
      do* invalidateConfessionEntry confessionId in
      let* log := latest_log_of confessionId in
      match log with
      | Some l =>
          let* now := reads clock in
          do* lift ModFailed (updateReview now (Moderation.id l) s moderatorId notes) in Ret c
      | None => Ret c
      end
  end.

(** ** Anchors *)

(** What the Stellar network answers: did the transaction succeed, and since when
    does the contract hold a hash? *)
Record Chain := { tx_succeeded : string -> bool; confession_at : string -> option Z }.

(** [src stellar/stellar.service.ts:253-258 isValidTxHash] *)
Definition isValidTxHash (txHash : string) : bool := all_hex txHash && (String.length txHash =? 64)%nat.
(** [src stellar/stellar.service.ts:244-248 hashConfession] *)
Definition hashConfession (content : string) (timestamp : ms) : string :=
  sha256 (stringify (JObj [("content", JStr content); ("timestamp", JNum (num_of_Z timestamp))])).
(** [src stellar/stellar.service.ts:347-363 processAnchorData]: the service passes no
    timestamp, so it is the time of the call. *)
Definition processAnchorData (confessionContent txHash : string) (now : ms) : option (string * string) :=
  if negb (isValidTxHash txHash) then None else Some (txHash, hashConfession confessionContent now).

Inductive AnchorAnswer :=
| AnchorAlreadyPending (txHash : string) (hash : option string)
| AnchorPending (confession : option AnonymousConfession).

(** [src confession/confession.service.ts:1292-1385 anchorConfession] *)
Definition anchorConfession (id stellarTxHash : string) : action AnchorAnswer :=
  let* confession := reads (find_row not_deleted id) in
  match confession with
  | None => Throw (NotFound "Confession not found")
  | Some c =>
      if c_isAnchored c then Throw (BadRequest "Confession is already anchored on Stellar")
      else if truthy_opt (c_stellarTxHash c) && bool_decide (c_stellarTxHash c = Some stellarTxHash) then
        Ret (AnchorAlreadyPending stellarTxHash (c_stellarHash c))
      else if negb (isValidTxHash stellarTxHash) then
        Throw (BadRequest "Invalid Stellar transaction hash format")
      else
        let* decryptedMessage := of_content (decryptConfession (c_message c) aesKey) in
        let* now := reads clock in
        match processAnchorData decryptedMessage stellarTxHash now with
        | None => Throw (BadRequest "Failed to process anchoring data")
        | Some (tx, hash) =>
            do* try_catch (update_row id (fun c => c <| c_stellarTxHash := Some tx |> <| c_stellarHash := Some hash |>))
                  (fun e => match e with
                            | QueryFailed => Throw (Conflict "Duplicate Stellar transaction hash detected for this confession.")
                            | e => Throw e
                            end) in
            do* cache_service_del (single_key id) in
            let* updated := reads (fun w => rows w !! id) in
            match updated with
            | Some c => let* c := decrypted c in Ret (AnchorPending (Some c))
            | None => Ret (AnchorPending None)
            end
        end
  end.

Record AnchorStatus := {
  as_isAnchored : bool; as_anchorPending : bool; as_isVerified : bool;
  as_txHash : option string; as_hash : option string; as_anchoredAt : option ms;
}.

(** [src confession/confession.service.ts:1390-1453 verifyStellarAnchor] *)
Definition verifyStellarAnchor (chain : Chain) (id : string) : action AnchorStatus :=
  let* confession := reads (find_row not_deleted id) in
  match confession with
  | None => Throw (NotFound "Confession not found")
  | Some c =>
      if negb (truthy_opt (c_stellarTxHash c)) then
        Ret {| as_isAnchored := false; as_anchorPending := false; as_isVerified := false;
               as_txHash := None; as_hash := None; as_anchoredAt := None |}
      else
        let txSucceeded := tx_succeeded chain (default "" (c_stellarTxHash c)) in
        let payloadMatches :=
          txSucceeded && truthy_opt (c_stellarHash c)
          && bool_decide (is_Some (confession_at chain (default "" (c_stellarHash c)))) in
        let status (c : AnonymousConfession) :=
          {| as_isAnchored := c_isAnchored c; as_anchorPending := negb (c_isAnchored c); as_isVerified := payloadMatches;
             as_txHash := c_stellarTxHash c; as_hash := c_stellarHash c; as_anchoredAt := c_anchoredAt c |} in
        if negb (c_isAnchored c) && payloadMatches then
          let* now := reads clock in
          let anchor c := c <| c_isAnchored := true |> <| c_anchoredAt := Some now |> in
          do* update_row id anchor in
          do* cache_service_del (single_key id) in
          Ret (status (anchor c))
        else Ret (status c)
  end.

(** ** Scheduling *)

(** [src confession/confession-scheduler.service.ts:67-77 invalidatePublishedCache] *)
Definition invalidatePublishedCache (publishedIds : list string) : action unit :=
  match publishedIds with
  | [] => Ret tt
  | _ => do* for_each publishedIds (fun id => cache_service_del (single_key id)) in delPattern listPrefix
  end.

Definition due (now : ms) (c : AnonymousConfession) : bool :=
  (c_status c =s? "scheduled") && from_option (fun t => t <=? now) false (c_publishAt c).
Definition published (now : ms) (c : AnonymousConfession) : AnonymousConfession :=
  c <| c_status := "published" |> <| c_created_at := us_of now |>.

(** [src confession/confession-scheduler.service.ts:20-61 publishScheduledConfessions]:
    the transaction locks the rows it selects. *)
Definition publishScheduledConfessions : action unit :=
  let* publishedIds := access (fun w =>
    let now := clock w in
    (map fst (List.filter (fun p : string * AnonymousConfession => due now p.2) (map_to_list (rows w))),
     w <| rows ::= fmap (fun c => if due now c then published now c else c) |>)) in
  invalidatePublishedCache publishedIds.

(** [src confession/confession-scheduler.service.ts:79-99 scheduleConfession]; no
    date is an invalid one, which passes the comparison and fails in the
    database. *)
Definition scheduleConfession (confessionId : string) (publishAt : option ms) : action AnonymousConfession :=
  let* confession := reads (fun w => rows w !! confessionId) in
  match confession with
  | None => Throw (Plain "Confession not found")
  | Some c =>
      let* now := reads clock in
      if from_option (fun t => t <=? now) false publishAt then Throw (Plain "Publish date must be in the future")
      else
        match publishAt with
        | None => Throw QueryFailed
        | Some _ =>
            let c := c <| c_status := "scheduled" |> <| c_publishAt := publishAt |> in
            do* save_row c in Ret c
        end
  end.

(** [src confession/confession-scheduler.service.ts:101-115 cancelSchedule] *)
Definition cancelSchedule (confessionId : string) : action AnonymousConfession :=
  let* confession := reads (fun w => rows w !! confessionId) in
  match confession with
  | None => Throw (Plain "Confession not found")
  | Some c => let c := c <| c_status := "draft" |> <| c_publishAt := None |> in do* save_row c in Ret c
  end.

(** ** Single views *)

(** [key.replace(/:/g, '_')]. *)
Definition no_colons : string -> string := str_map (fun c => if Ascii.eqb c ":"%char then "_"%char else c).
Definition viewed_key (confessionId userOrIp : string) : string :=
  "confession:viewed:" +:+ no_colons confessionId +:+ ":" +:+ no_colons userOrIp.
Definition VIEW_CACHE_EXPIRY : Z := 60 * 60.

(** [src confession/confession-view-cache.service.ts:11-30 checkAndMarkView]: SET NX;
    without an answer the view counts. *)
Definition checkAndMarkView (confessionId userOrIp : string) : action bool :=
  access (fun w =>
    if negb (cache_up w) then (true, w)
    else match cache_get (viewed_key confessionId userOrIp) (clock w) (views w) with
         | Some _ => (false, w)
         | None => (true, w <| views ::= cache_set (viewed_key confessionId userOrIp) (CStr "1")
                                           (VIEW_CACHE_EXPIRY * 1000) (clock w) |>)
         end).

(** [src confession/repository/confession.repository.ts:392-397 incrementViewCountAtomically] *)
Definition incrementViewCountAtomically (id : string) : action unit :=
  attempts (fun w => match rows w !! id with
                     | Some c => (Ok tt, w <| rows ::= <[id := c <| c_view_count ::= Z.succ |>]> |>)
                     | None => (Exn (Plain "Confession not found"), w)
                     end).

Definition opt_json {A} (f : A -> json) (o : option A) : json := match o with Some a => f a | None => JNull end.
Definition date_json (t : ms) : json := JStr (toISOString t).
Definition reactions_of (id : string) (w : ConfDB) : list ReactionRow :=
  List.filter (fun r => rx_confession r =s? id) (reaction_rows w).
Definition reaction_json (r : ReactionRow) : json :=
  JObj [("id", JStr (rx_id r)); ("emoji", JStr (rx_emoji r)); ("createdAt", date_json (rx_createdAt r));
        ("anonymousUser", JObj [("id", JStr (rx_user r))])].
(** The identity with its links and their accounts, as the relations load them. *)
Definition identity_json (c : AnonymousConfession) (account : option json) : json :=
  JObj [("id", JStr (c_anonymousUserId c));
        ("userLinks", JArr (match account with
                            | Some u => [JObj [("anonymousUserId", JStr (c_anonymousUserId c)); ("user", u)]]
                            | None => []
                            end))].
(** The columns and relations the first query of a view selects. *)
Definition selected_json (c : AnonymousConfession) (account : option json) (rs : list ReactionRow) : json :=
  JObj [("id", JStr (c_id c)); ("message", JStr (c_message c)); ("gender", opt_json JStr (c_gender c));
        ("created_at", date_json (js_date (c_created_at c))); ("view_count", JNum (num_of_Z (c_view_count c)));
        ("moderationStatus", JStr (status_str (c_moderationStatus c)));
        ("reactions", JArr (map reaction_json rs)); ("anonymousUser", identity_json c account)].
(** The columns of a row. *)
Definition columns (c : AnonymousConfession) : list (string * json) :=
  [("id", JStr (c_id c)); ("message", JStr (c_message c)); ("gender", opt_json JStr (c_gender c));
   ("created_at", date_json (js_date (c_created_at c))); ("view_count", JNum (num_of_Z (c_view_count c)));
   ("moderationStatus", JStr (status_str (c_moderationStatus c)));
   ("anonymousUserId", JStr (c_anonymousUserId c));
   ("isDeleted", JBool (c_isDeleted c)); ("deletedAt", opt_json date_json (c_deletedAt c));
   ("deletedBy", opt_json JStr (c_deletedBy c)); ("moderationScore", JNum (Fin (c_moderationScore c)));
   ("moderationFlags", JArr (map (fun k => JStr (category_str k)) (c_moderationFlags c)));
   ("requiresReview", JBool (c_requiresReview c));
   ("isHidden", JBool (c_isHidden c)); ("idempotencyKey", opt_json JStr (c_idempotencyKey c));
   ("stellarTxHash", opt_json JStr (c_stellarTxHash c)); ("stellarHash", opt_json JStr (c_stellarHash c));
   ("isAnchored", JBool (c_isAnchored c)); ("anchoredAt", opt_json date_json (c_anchoredAt c));
   ("status", JStr (c_status c)); ("publishAt", opt_json date_json (c_publishAt c))].
(** The whole row with its relations. *)
Definition entity_json (c : AnonymousConfession) (account : option json) (rs : list ReactionRow) : json :=
  JObj (columns c ++ [("reactions", JArr (map reaction_json rs)); ("anonymousUser", identity_json c account)]).

(** [user.shouldShowReactions()] of an account. *)
Definition shouldShowReactions (account : json) : bool :=
  match json_get "privacySettings" account with
  | None => true
  | Some p => negb (json_truthy p) || match json_get "showReactions" p with Some (JBool false) => false | _ => true end
  end.
Definition shown_reactions (account : option json) (rs : list ReactionRow) : list ReactionRow :=
  if from_option shouldShowReactions true account then rs else [].

Record ViewRequest := { rq_user : option string; rq_forwarded : option string; rq_ip : option string }.
Definition viewer (req : ViewRequest) : string :=
  let userOrIp := match rq_user req with
                  | Some u => u
                  | None => match or_old (rq_forwarded req) (rq_ip req) with Some s => s | None => "undefined" end
                  end in
  if truthy userOrIp then userOrIp else default "" (rq_ip req).

Definition visible (c : AnonymousConfession) : bool := negb (c_isDeleted c) && negb (c_isHidden c).
(** A row with the account of its author and its reactions. *)
Definition loaded (P : AnonymousConfession -> bool) (id : string) (w : ConfDB)
    : option (AnonymousConfession * option json * list ReactionRow) :=
  match find_row P id w with
  | Some c => Some (c, accounts w !! c_anonymousUserId c, reactions_of id w)
  | None => None
  end.

Definition cval_json (v : cval) : json :=
  match v with CStr s => JStr s | CNum z => JNum (num_of_Z z) | CJson j => j end.

(** [src confession/confession.service.ts:861-947 getConfessionByIdWithViewCount] *)
Definition getConfessionByIdWithViewCount (id : string) (req : ViewRequest) : action json :=
  let* cached := cache_service_get (single_key id) in
  match cached with
  | Some v => Ret (cval_json v)
  | None =>
      let* conf := reads (loaded visible id) in
      match conf with
      | None => Throw (NotFound "Confession not found")
      | Some (c, account, rs) =>
          let* counted := checkAndMarkView id (viewer req) in
          if (counted : bool) then
            do* incrementViewCountAtomically id in
            let* updated := reads (loaded (fun _ => true) id) in
            let* answer := (match updated with
              | Some (c, account, rs) =>
                  let* c := decrypted c in Ret (entity_json c account (shown_reactions account rs))
              | None => Ret JNull
              end : action json) in
            do* cache_service_set (single_key id) (CJson answer) CONFESSION_SINGLE_TTL in
            Ret answer
          else
            let* c := decrypted c in
            let answer := selected_json c account (shown_reactions account rs) in
            do* cache_service_set (single_key id) (CJson answer) CONFESSION_SINGLE_TTL in
            Ret answer
      end
  end.

(** ** Eviction *)

Definition del_all (keys : list string) (c : C) : C := fold_left (fun c k => cache_del k c) keys c.

Lemma get_del_all keys k now c :
  cache_get k now (del_all keys c) = if bool_decide (k ∈ keys) then None else cache_get k now c.
Proof using C CacheManager0.
  clear sanitizeHtml sha256 aesKey.
  revert c. induction keys as [|x keys IH]; intros c; [done|]. cbn. rewrite IH.
  destruct (decide (k ∈ keys)) as [Hk|Hk]; [by rewrite !bool_decide_true by set_solver|].
  rewrite bool_decide_false by done. destruct (decide (x = k)) as [->|Hne].
  - by rewrite cache_get_del, bool_decide_true by set_solver.
  - by rewrite cache_get_del_ne, bool_decide_false by set_solver.
Qed.

Lemma run_del_keys keys w : cache_up w = true ->
  run (for_each keys cache_service_del) w = (Ok tt, w <| cache ::= del_all keys |>).
Proof.
  revert w. induction keys as [|k keys IH]; intros w Hup; [by destruct w|].
  cbn [for_each]. unfold cache_service_del at 1. run_simp. rewrite Hup. by rewrite IH.
Qed.

(** An eviction leaves no entry of the confession and no page. *)
Lemma run_invalidate id w : cache_up w = true -> exists c',
  run (invalidateConfessionEntry id) w = (Ok tt, w <| cache := c' |>)
  /\ (forall k now, k = single_key id \/ starts_with listPrefix k = true -> cache_get k now c' = None)
  /\ (forall k now, cache_get k now c' = None \/ cache_get k now c' = cache_get k now (cache w)).
Proof using C CacheManager0.
  clear sanitizeHtml sha256 aesKey. intros Hup. unfold invalidateConfessionEntry, cache_service_del at 1. run_simp. rewrite Hup.
  unfold invalidateConfessionCache, delPattern. run_simp. rewrite run_del_keys by done.
  cbn [cache_up set_field]. rewrite Hup.
  set (c := cache_del (single_key id) (cache w)). exists (del_all (cache_keys listPrefix c) c).
  split; [done|]. assert (forall k now, cache_get k now c = None \/ cache_get k now c = cache_get k now (cache w)) as Hc.
  { intros k now. subst c. destruct (decide (single_key id = k)) as [<-|Hne]; [left; apply cache_get_del|right].
    by rewrite cache_get_del_ne. }
  split; intros k now; rewrite get_del_all; case_bool_decide as Hk; [done| |by left|apply Hc].
  intros [->|Hp]; [apply cache_get_del|].
  destruct (cache_get k now c) as [v|] eqn:Hv; [|done]. by apply cache_keys_complete with (p := listPrefix) in Hv.
Qed.

(** ** Anchors *)

(** The fields of a row an anchor leaves alone. *)
Lemma payload_inj a b t t' :
  stringify (JObj [("content", JStr a); ("timestamp", JNum (num_of_Z t))])
  = stringify (JObj [("content", JStr b); ("timestamp", JNum (num_of_Z t'))]) -> a = b /\ t = t'.
Proof.
  assert (forall a t, json_ok (JObj [("content", JStr a); ("timestamp", JNum (num_of_Z t))])) as Hok.
  { intros a' t''. split; [apply NoDup_cons; split; [set_solver|apply NoDup_singleton]|]. cbn. eauto. }
  intros H. pose proof (parse_stringify _ (Hok a t)) as Ha. rewrite H, parse_stringify in Ha by apply Hok.
  by injection Ha as -> ->.
Qed.

Lemma hashConfession_inj `{!Inj eq eq sha256} a b t t' :
  hashConfession a t = hashConfession b t' -> a = b /\ t = t'.
Proof. intros H%(inj sha256). by apply payload_inj. Qed.

Lemma run_update_row id f w w' :
  run (update_row id f) w = (Ok tt, w') -> w' = w <| rows := alter f id (rows w) |>.
Proof.
  unfold update_row. rewrite run_attempts. destruct (rows w !! id) as [c|] eqn:Hc.
  - case_match; [done|]. intros H'. injection H' as <-. by rewrite (alter_as_insert f id c).
  - intros H'. injection H' as <-. rewrite alter_id; [by destruct w|]. congruence.
Qed.

Lemma run_decrypted c w :
  run (decrypted c) w =
  (match decryptConfession (c_message c) aesKey with Ok m => Ok (c <| c_message := m |>) | Exn e => Exn (Content e) end, w).
Proof. unfold decrypted, of_content. run_simp. by destruct (decryptConfession _ _). Qed.

Lemma run_cache_del k w : exists c', run (cache_service_del k) w = (Ok tt, w <| cache := c' |>).
Proof.
  unfold cache_service_del. run_simp. destruct (cache_up w); [by eexists|]. exists (cache w). by destruct w.
Qed.

(** What an accepted anchor request stores: the transaction, and the hash of the text
    with the time of the request. *)
Lemma run_anchor id tx w ans w1 :
  run (anchorConfession id tx) w = (Ok (AnchorPending ans), w1) ->
  exists c m, rows w !! id = Some c /\ c_isDeleted c = false /\ c_isAnchored c = false
    /\ rows w1 = <[id := c <| c_stellarTxHash := Some tx |>
                          <| c_stellarHash := Some (hashConfession m (clock w)) |>]> (rows w).
Proof.
  unfold anchorConfession, find_row. run_simp. destruct (rows w !! id) as [c|] eqn:Hc; [|done].
  unfold not_deleted. destruct (c_isDeleted c) eqn:Hdel; [done|]. cbn [negb].
  destruct (c_isAnchored c) eqn:Hanc; [done|]. destruct (truthy_opt _ && _); [done|].
  destruct (isValidTxHash tx) eqn:Htx; [|done]. cbn [negb]. unfold of_content. run_simp.
  destruct (decryptConfession (c_message c) aesKey) as [m|e]; [|done]. cbn [map_exn]. run_simp.
  unfold processAnchorData. rewrite Htx. cbn [negb]. run_simp.
  destruct (run (update_row id _) w) as [[[]|e] w'] eqn:Hu; [|by destruct e].
  apply run_update_row in Hu. rewrite run_bind. destruct (run_cache_del (single_key id) w') as [c' ->]. run_simp.
  intros Hr. exists c, m. split_and!; [done..|].
  assert (rows w1 = rows w') as ->.
  { destruct (rows (w' <| cache := c' |>) !! id); run_simp_in Hr; [|by injection Hr as _ <-].
    rewrite run_decrypted in Hr. destruct (decryptConfession _ _); [by injection Hr as _ <-|done]. }
  rewrite Hu. cbn [rows set_field]. by rewrite (alter_as_insert _ id c).
Qed.

(** What a verification answers and changes. *)
Lemma run_verify chain id w st w' :
  run (verifyStellarAnchor chain id) w = (Ok st, w') ->
  exists c, rows w !! id = Some c /\ c_isDeleted c = false /\
    let confirmed := truthy_opt (c_stellarTxHash c) && tx_succeeded chain (default "" (c_stellarTxHash c))
                     && truthy_opt (c_stellarHash c)
                     && bool_decide (is_Some (confession_at chain (default "" (c_stellarHash c)))) in
    as_isVerified st = confirmed /\
    rows w' = (if negb (c_isAnchored c) && confirmed
               then <[id := c <| c_isAnchored := true |> <| c_anchoredAt := Some (clock w) |>]> (rows w) else rows w) /\
    as_isAnchored st = truthy_opt (c_stellarTxHash c) && (c_isAnchored c || confirmed).
Proof.
  unfold verifyStellarAnchor, find_row. run_simp. destruct (rows w !! id) as [c|] eqn:Hc; [|done].
  unfold not_deleted. destruct (c_isDeleted c) eqn:Hdel; [done|]. cbn [negb].
  destruct (truthy_opt (c_stellarTxHash c)) eqn:Htx; cbn [negb andb].
  2:{ intros Hr. injection Hr as <- <-. exists c. by rewrite Htx, andb_false_r. }
  set (confirmed := tx_succeeded _ _ && _ && _).
  destruct (negb (c_isAnchored c) && confirmed) eqn:Hp.
  - run_simp. destruct (run (update_row id _) w) as [[[]|e] w2] eqn:Hu; [|done].
    apply run_update_row in Hu. rewrite run_bind. destruct (run_cache_del (single_key id) w2) as [c' ->]. run_simp.
    intros Hr. injection Hr as <- <-. exists c. rewrite Htx. cbn [andb]. fold confirmed. rewrite Hp.
    apply andb_true_iff in Hp as [_ Hcf]. rewrite Hcf. split_and!; [done|done|done| |by rewrite orb_true_r].
    rewrite Hu. cbn [rows set_field]. by rewrite (alter_as_insert _ id c).
  - run_simp. intros Hr. injection Hr as <- <-. exists c. rewrite Htx. cbn [andb]. fold confirmed. rewrite Hp.
    split_and!; [done..|]. cbn. destruct (c_isAnchored c); [done|]. by cbn in *.
Qed.

(** ** Properties *)

(** An anchor is promoted exactly when the network confirms it: the verification of a
    pending anchor makes the confession anchored, at the time of the call, if its
    transaction succeeded and the contract holds its hash, and changes nothing
    otherwise; no other confession changes. *)
Theorem verify_promotes_confirmed chain id w st w' c tx h :
  rows w !! id = Some c -> c_isAnchored c = false -> c_stellarTxHash c = Some tx -> truthy tx = true ->
  c_stellarHash c = Some h -> truthy h = true ->
  run (verifyStellarAnchor chain id) w = (Ok st, w') ->
  as_isAnchored st = true <-> tx_succeeded chain tx = true /\ is_Some (confession_at chain h).
Proof.
  intros Hc Hanc Htx Htt Hh Hth Hr. apply run_verify in Hr as (c0 & Hc0 & _ & _ & _ & Hst).
  rewrite Hc in Hc0. injection Hc0 as <-. rewrite Htx, Hh, Hanc in Hst. cbn in Hst. rewrite Htt, Hth in Hst.
  rewrite Hst. cbn. rewrite andb_true_r, andb_true_iff, bool_decide_eq_true. done.
Qed.

(** Anchors are never confirmed. The hash a request stores covers the time of that
    request, while the chain can only hold hashes of payloads stamped before it: as
    long as it does, no verification promotes the anchor. *)
Theorem anchor_never_confirms `{!Inj eq eq sha256} chain id tx w ans w1 w2 st w3 :
  run (anchorConfession id tx) w = (Ok (AnchorPending ans), w1) ->
  rows w2 !! id = rows w1 !! id ->
  (forall h, is_Some (confession_at chain h) -> exists content t, t < clock w /\ h = hashConfession content t) ->
  run (verifyStellarAnchor chain id) w2 = (Ok st, w3) ->
  as_isAnchored st = false /\ rows w3 = rows w2.
Proof.
  intros Ha Hrows Hchain Hv. apply run_anchor in Ha as (c & m & Hc & Hdel & Hanc & Hw1).
  apply run_verify in Hv as (c2 & Hc2 & _ & Hver & Hw3 & Hst).
  rewrite Hrows, Hw1, lookup_insert_eq in Hc2. injection Hc2 as <-.
  cbn [c_stellarTxHash c_stellarHash c_isAnchored set_field default from_option] in *. rewrite Hanc in *.
  set (h := hashConfession m (clock w)) in *.
  assert (bool_decide (is_Some (confession_at chain h)) = false) as Hno.
  { apply bool_decide_eq_false. intros Hs. destruct (Hchain h Hs) as (content & t & Ht & Hh).
    apply hashConfession_inj in Hh as [_ Heq]. lia. }
  change (Datatypes.id h) with h in *. rewrite Hno, !andb_false_r in Hst, Hw3.
  split; [rewrite Hst; by destruct (truthy_opt (Some tx))|done].
Qed.

(** An edit may replace the transaction of an anchored confession, which stays
    anchored: the whole body of the request is written to the row. *)
Theorem edit_rewrites_anchor d id w c tx :
  rows w !! id = Some c -> c_isDeleted c = false -> c_isAnchored c = true -> cache_up w = true ->
  taken c_stellarTxHash id c (c <| c_stellarTxHash := Some tx |>) w = false ->
  exists c', rows (run (update d id {| u_message := None; u_gender := None; u_tags := None; u_stellarTxHash := Some tx;
                                      u_idempotencyKey := None |}) w).2 !! id = Some c'
             /\ c_isAnchored c' = true /\ c_stellarTxHash c' = Some tx /\ c_stellarHash c' = c_stellarHash c.
Proof.
  intros Hc Hdel Hanc Hup Ht. unfold update, find_row. run_simp. rewrite Hc. unfold not_deleted. rewrite Hdel.
  cbn [negb u_message truthy_opt from_option]. change (update_allowed _) with true. cbv iota.
  set (f := apply_dto _). assert (f c = c <| c_stellarTxHash := Some tx |>) as Hf by (by destruct c).
  assert (run (update_row id f) w = (Ok tt, w <| rows ::= <[id := f c]> |>)) as Hu.
  { unfold update_row. rewrite run_attempts, Hc, Hf, Ht. unfold taken at 1. cbn [c_idempotencyKey set_field].
    rewrite (bool_decide_true (c_idempotencyKey c = c_idempotencyKey c)), andb_false_r by done. done. }
  run_simp. rewrite Hu. run_simp.
  match goal with |- context [run (invalidateConfessionEntry id) ?v] =>
    destruct (run_invalidate id v Hup) as (c'' & Hinv & _) end. rewrite Hinv. run_simp.
  cbn [rows set_field]. rewrite lookup_insert_eq. run_simp. rewrite run_decrypted.
  exists (f c). split_and!; [|by rewrite Hf..].
  destruct (decryptConfession _ _); run_simp; apply lookup_insert_eq.
Qed.

(** A view that counts answers with the account of the author: the users row behind
    the identity, whatever it holds, is part of the response. *)
Theorem view_reveals_author id req w c account m :
  rows w !! id = Some c -> visible c = true -> accounts w !! c_anonymousUserId c = Some account ->
  decryptConfession (c_message c) aesKey = Ok m ->
  cache_get (single_key id) (clock w) (cache w) = None ->
  cache_up w = true -> cache_get (viewed_key id (viewer req)) (clock w) (views w) = None ->
  exists j w', run (getConfessionByIdWithViewCount id req) w = (Ok j, w') /\
    json_get "anonymousUser" j = Some (identity_json c (Some account)).
Proof.
  intros Hc Hvis Hacc Hm Hcache Hup Hview. unfold getConfessionByIdWithViewCount, cache_service_get. run_simp.
  rewrite Hup, Hcache. run_simp. unfold loaded at 1, find_row. rewrite Hc, Hvis.
  unfold checkAndMarkView. run_simp. rewrite Hup. cbn [negb]. rewrite Hview. run_simp.
  unfold incrementViewCountAtomically. run_simp. cbn [rows set_field]. rewrite Hc. run_simp.
  unfold loaded, find_row. cbn [rows accounts set_field]. rewrite lookup_insert_eq. cbn [c_anonymousUserId set_field].
  rewrite Hacc. run_simp. rewrite run_decrypted. cbn [c_message set_field]. rewrite Hm. run_simp.
  unfold cache_service_set. run_simp. eexists _, _. split; [reflexivity|]. reflexivity.
Qed.

(** An eviction the cache does not answer is skipped: a confession removed meanwhile
    is still served from its entry afterwards. *)
Theorem outage_keeps_entry id by_whom req w v r w1 :
  cache_up w = false -> cache_get (single_key id) (clock w) (cache w) = Some v -> cval_truthy v = true ->
  run (remove id by_whom) w = (Ok r, w1) ->
  (exists c, rows w1 !! id = Some c /\ c_isDeleted c = true) /\
  (run (getConfessionByIdWithViewCount id req) (w1 <| cache_up := true |>)).1 = Ok (cval_json v).
Proof.
  intros Hup Hv Htr. unfold remove, find_row. run_simp. destruct (rows w !! id) as [c|] eqn:Hc; [|done].
  unfold not_deleted. destruct (c_isDeleted c) eqn:Hdel; [done|]. cbn [negb]. run_simp.
  destruct (run (update_row id _) w) as [[[]|e] w2] eqn:Hu; [|done]. apply run_update_row in Hu.
  unfold invalidateConfessionEntry, cache_service_del at 1, invalidateConfessionCache, delPattern. run_simp.
  assert (cache_up w2 = false) as Hup2 by (by rewrite Hu). rewrite Hup2. run_simp. rewrite Hup2. cbn [for_each].
  run_simp. intros Hr. injection Hr as <- <-. split.
  - rewrite Hu. cbn [rows set_field]. rewrite (alter_as_insert _ id c), lookup_insert_eq by done. eauto.
  - unfold getConfessionByIdWithViewCount, cache_service_get. run_simp. cbn [cache_up cache clock set_field].
    rewrite Hu. cbn [cache clock set_field]. by rewrite Hv, Htr.
Qed.

End service.

(** ** Concrete worlds *)

Definition ex_key : string := "0123456789abcdef0123456789abcdef".
Definition ex_iv : string := "0123456789abcdef".
Definition ex_stored (t : string) : string :=
  match encryptConfession (H := plain_cbc) ex_iv t ex_key with Ok c => c | Exn _ => "" end.
Definition ex_row (i : string) (created : Z) (text : string) : AnonymousConfession := {|
  c_id := i; c_message := ex_stored text; c_gender := None; c_created_at := created; c_anonymousUserId := "a1";
  c_view_count := 0; c_isDeleted := false; c_deletedAt := None; c_deletedBy := None; c_moderationScore := 0;
  c_idempotencyKey := None; c_moderationFlags := []; c_moderationStatus := APPROVED; c_requiresReview := false;
  c_isHidden := false; c_moderationDetails := ∅; c_stellarTxHash := None; c_stellarHash := None;
  c_isAnchored := false; c_anchoredAt := None; c_status := "published"; c_publishAt := None |}.
Definition ex_world (rs : list AnonymousConfession) : ConfDB (C := map_cache) := {|
  rows := list_to_map (map (fun c => (c_id c, c)) rs); reaction_rows := []; comment_rows := [];
  accounts := {[ "a1" := JObj [("id", JNum (num_of_Z 7)); ("username", JStr "alice"); ("password", JStr "$2b$10$h")] ]};
  mod_db := {| logs := ∅; audit := [] |}; cache := ∅; views := ∅; cache_up := true; clock := 1000000 |}.

Fixpoint repeat_str (n : nat) (c : Ascii.ascii) : string :=
  match n with O => EmptyString | S n' => String c (repeat_str n' c) end.
Definition ex_tx (c : Ascii.ascii) : string := repeat_str 64 c.
Definition ex_pending : AnonymousConfession :=
  ex_row "c1" 5000000 "hello" <| c_stellarTxHash := Some (ex_tx "a"%char) |> <| c_stellarHash := Some "h1" |>.
Definition ex_chain : Chain := {|
  tx_succeeded tx := bool_decide (tx = ex_tx "a"%char);
  confession_at h := if bool_decide (h = "h1") then Some 900 else None |}.

Definition ex_requests : gmap positive (prog (ConfDB (C := map_cache)) conf_error unit) :=
  {[ 1%positive := let* _ := verifyStellarAnchor ex_chain "c1" in Ret tt;
     2%positive := let* _ := anchorConfession (aes := plain_cbc) (fun s => s) ex_key "c1" (ex_tx "b"%char) in Ret tt ]}.
Definition ex_overlap := run_schedule [1; 2; 2; 2; 2; 2; 1; 1; 1]%positive (ex_world [ex_pending], ex_requests).

(** A verification that overlaps a second anchor request leaves the confession
    anchored to a transaction the network never confirmed. *)
Theorem anchor_swapped : exists w ps c,
  pool_reach (ex_world [ex_pending], ex_requests) (w, ps) /\
  rows w !! "c1" = Some c /\ c_isAnchored c = true /\ c_stellarTxHash c = Some (ex_tx "b"%char) /\
  tx_succeeded ex_chain (ex_tx "b"%char) = false.
Proof.
  exists ex_overlap.1, ex_overlap.2, (default ex_pending (rows ex_overlap.1 !! "c1")). split.
  { rewrite <- surjective_pairing. apply run_schedule_reach. }
  split_and!; vm_compute; reflexivity.
Qed.

Lemma verify_promotes_confirmed_witness :
  as_isAnchored (match (run (verifyStellarAnchor ex_chain "c1") (ex_world [ex_pending])).1 with
                 | Ok st => st
                 | Exn _ => Build_AnchorStatus false false false None None None
                 end) = true.
Proof.
  destruct (run (verifyStellarAnchor ex_chain "c1") (ex_world [ex_pending])) as [o w'] eqn:Hr.
  assert (exists st, o = Ok st) as [st ->].
  { assert (o = (run (verifyStellarAnchor ex_chain "c1") (ex_world [ex_pending])).1) as -> by (by rewrite Hr).
    vm_compute. eauto. }
  cbn [fst]. apply (verify_promotes_confirmed ex_chain "c1" (ex_world [ex_pending]) st w' ex_pending (ex_tx "a"%char) "h1"
    eq_refl eq_refl eq_refl eq_refl eq_refl eq_refl Hr).
  split; [reflexivity|]. exists 900. reflexivity.
Defined.

Definition ex_viewer : ViewRequest := {| rq_user := None; rq_forwarded := None; rq_ip := Some "127.0.0.1" |}.
Definition ex_view : prog (ConfDB (C := map_cache)) conf_error json :=
  getConfessionByIdWithViewCount (aes := plain_cbc) ex_key "c1" ex_viewer.
Definition ex_view_and_removal : gmap positive (prog (ConfDB (C := map_cache)) conf_error unit) :=
  {[ 1%positive := let* _ := ex_view in Ret tt; 2%positive := let* _ := remove "c1" None in Ret tt ]}.
Definition ex_resurrected :=
  run_schedule [1; 1; 2; 2; 2; 2; 2; 2; 1; 1; 1; 1]%positive (ex_world [ex_row "c1" 5000000 "hello"], ex_view_and_removal).

(** A view that began before a removal caches the removed confession: views after the
    removal are served it. *)
Theorem view_caches_removed : exists w ps c j,
  pool_reach (ex_world [ex_row "c1" 5000000 "hello"], ex_view_and_removal) (w, ps) /\
  ps = {[ 1%positive := Ret tt; 2%positive := Ret tt ]} /\
  rows w !! "c1" = Some c /\ c_isDeleted c = true /\
  (run ex_view w).1 = Ok j /\ json_get "message" j = Some (JStr "hello").
Proof.
  exists ex_resurrected.1, ex_resurrected.2, (default (ex_row "" 0 "") (rows ex_resurrected.1 !! "c1")),
    (match (run ex_view ex_resurrected.1).1 with Ok j => j | Exn _ => JNull end). split.
  { rewrite <- surjective_pairing. apply run_schedule_reach. }
  split_and!; vm_compute; reflexivity.
Qed.
