(* ===== verification/Feed.v ===== *)
(** * Feeds

    [src/xconfess-backend/src/confession/confession.service.ts]: the public feed, the
    tag feed and a user's own confessions, their order, cursors and cached pages,
    over the world of [Confessions]; and the form in which a confession is shown
    ([utils/confession-mapper.ts]).  How [Date] reads a text and how the database
    reads a UUID are parameters. *)
From S2P Require Import Prelude Numbers Json Dates Effects Moderation CacheManager Base64 ContentEncryption Cursor.
From S2P Require Import Confessions.
Open Scope Z_scope.

(** ** Data *)

(** [src confession/dto/get-confessions.dto.ts:9-13 SortOrder] *)
Inductive SortOrder := TRENDING | NEWEST | MOST_DISCUSSED.
#[export] Instance SortOrder_eq_dec : EqDecision SortOrder.
Proof. solve_decision. Defined.
Definition sort_str (s : SortOrder) : string :=
  match s with TRENDING => "trending" | NEWEST => "newest" | MOST_DISCUSSED => "most_discussed" end.
(** [src confession/dto/get-confessions.dto.ts:15-19 Gender] *)
Inductive Gender := MALE | FEMALE | OTHER.
#[export] Instance Gender_eq_dec : EqDecision Gender.
Proof. solve_decision. Defined.
Definition gender_str (g : Gender) : string :=
  match g with MALE => "male" | FEMALE => "female" | OTHER => "other" end.

(** [src confession/dto/get-confessions.dto.ts:21-36 GetConfessionsDto]: a query that
    passed the validation of the route. *)
Record GetConfessionsDto := {
  dto_cursor : option string; dto_limit : option nat; dto_page : option nat;
  dto_sort : option SortOrder; dto_gender : option Gender;
}.
#[export] Instance eta_GetConfessionsDto : Eta GetConfessionsDto := fun d => {|
  dto_cursor := dto_cursor d; dto_limit := dto_limit d; dto_page := dto_page d;
  dto_sort := dto_sort d; dto_gender := dto_gender d |}.

(** ** The form of a confession *)

Fixpoint count_type (k : string) (l : list (string * Z)) : list (string * Z) :=
  match l with
  | [] => [(k, 1)]
  | (k', n) :: l' => if k' =s? k then (k', n + 1) :: l' else (k', n) :: count_type k l'
  end.
(** The thumbs-up and the heart, in UTF-8. *)
Definition thumbs_up : string := of_bytes [240; 159; 145; 141].
Definition red_heart : string := of_bytes [226; 157; 164; 239; 184; 143].
Definition reaction_type (emoji : string) : string :=
  let emoji := to_lower emoji in
  if (emoji =s? thumbs_up) || contains_str "like" emoji then "like"
  else if (emoji =s? red_heart) || contains_str "love" emoji then "love"
  else if truthy emoji then emoji else "like".

(** [src confession/utils/confession-mapper.ts:14-36 aggregateReactions] *)
Definition aggregateReactions (rs : list ReactionRow) : list (string * Z) :=
  fold_left (fun counts r => count_type (reaction_type (rx_emoji r)) counts) rs [].

(** [src confession/utils/confession-mapper.ts:38-51 mapToSlimConfession]; the flag is
    the column [requiresReview], when the query selected it. *)
Definition mapToSlimConfession (c : AnonymousConfession) (rs : list ReactionRow) (review : option bool) : json :=
  JObj [("id", JStr (c_id c)); ("message", JStr (c_message c)); ("gender", opt_json JStr (c_gender c));
        ("created_at", date_json (js_date (c_created_at c))); ("view_count", JNum (num_of_Z (c_view_count c)));
        ("isAnchored", JBool (c_isAnchored c)); ("stellarTxHash", opt_json JStr (c_stellarTxHash c));
        ("reactions", JArr (map (fun tc => JObj [("type", JStr tc.1); ("count", JNum (num_of_Z tc.2))])
                              (aggregateReactions rs)));
        ("contentWarning", JBool (bool_decide (review = Some true)
                                  || (status_str (c_moderationStatus c) =s? "flagged")))].

(** [src common/pagination/cursor-paginated-response.dto.ts:50-61 constructor] *)
Definition CursorPaginatedResponseDto (data : list json) (nextCursor : option string) (hasMore : bool) (limit : nat) : json :=
  JObj [("data", JArr data); ("nextCursor", opt_json JStr nextCursor); ("hasMore", JBool hasMore);
        ("hasNextPage", JBool hasMore); ("limit", JNum (num_of_Z (Z.of_nat limit)))].


Section feed.
Context {C : Type} `{!CacheManager C} {aes : AesCbc} (aesKey : string).
Context (Date_parse : string -> option ms) (uuid_of : string -> option string).
Abbreviation ConfDB := (ConfDB (C := C)).
Abbreviation action := (prog ConfDB conf_error).

(** ** The query *)

(** [privacy_settings->>'isDiscoverable' IS DISTINCT FROM 'false'], for the account
    behind the author, if there is one. *)
Definition discoverable (account : option json) : bool :=
  match account ≫= json_get "privacySettings" with
  | None | Some JNull => true
  | Some p => match json_get "isDiscoverable" p with
              | None | Some JNull => true
              | Some v => negb (json_string v =s? "false")
              end
  end.

(** [src confession/confession.service.ts:439-482 andWhere]: the conditions of the
    public feed. *)
Definition in_feed (gender : option Gender) (w : ConfDB) (c : AnonymousConfession) : bool :=
  negb (c_isDeleted c) && negb (c_isHidden c)
  && (bool_decide (c_moderationStatus c = APPROVED) || bool_decide (c_moderationStatus c = PENDING))
  && negb (c_status c =s? "draft")
  && (negb (c_status c =s? "scheduled") || from_option (fun t => t <=? clock w) false (c_publishAt c))
  && discoverable (accounts w !! c_anonymousUserId c)
  && match gender with Some g => bool_decide (c_gender c = Some (gender_str g)) | None => true end.

Definition position (c : AnonymousConfession) : Z * string := (c_created_at c, c_id c).
(** The aggregate a sort orders by. *)
Definition sort_score (s : SortOrder) (w : ConfDB) (c : AnonymousConfession) : nat :=
  match s with
  | NEWEST => 0
  | TRENDING => length (reactions_of (c_id c) w)
  | MOST_DISCUSSED =>
      length (List.filter (fun m : string * bool => (m.1 =s? c_id c) && negb m.2) (comment_rows w))
  end.
(** [src common/pagination/feed-ordering.ts:36-64 applyNewestFeedOrder]: the order of a
    sort with its tie-breakers. *)
Definition before (s : SortOrder) (w : ConfDB) (a b : AnonymousConfession) : bool :=
  (sort_score s w b <? sort_score s w a)%nat
  || ((sort_score s w a =? sort_score s w b)%nat && feed_before (position a) (position b)).

Definition all_rows (w : ConfDB) : list AnonymousConfession := map snd (map_to_list (rows w)).

(** [src confession/confession.service.ts:1178-1213 applyFeedCursor]: the condition and
    the offset of a page; none when the database refuses the parameters. *)
Definition applyFeedCursor (sort : SortOrder) (cursor : option string) (page : option nat) (limit : nat)
    : option ((Z * string -> bool) * nat) :=
  let parsed := decodeCursor cursor in
  let by_page := match page with Some p => if (1 <? p)%nat then ((p - 1) * limit)%nat else 0%nat | None => 0%nat end in
  match sort with
  | NEWEST =>
      match parsed ≫= json_get "created_at" with
      | Some t =>
          if json_truthy t then
            let i := match parsed ≫= json_get "id" with Some j => json_string j | None => "undefined" end in
            keep ← keyset_sql uuid_of (feedKeysetPredicate Date_parse {| pos_id := i; pos_created_at := t |});
            Some (keep, 0%nat)
          else Some (fun _ => true, by_page)
      | None => Some (fun _ => true, by_page)
      end
  | _ =>
      match as_integer (parsed ≫= json_get "offset") with
      | Some n => if 0 <=? n then Some (fun _ => true, Z.to_nat n) else Some (fun _ => true, by_page)
      | None => Some (fun _ => true, by_page)
      end
  end.

(** [src confession/confession.service.ts:1216-1230 buildFeedNextCursor] *)
Definition buildFeedNextCursor (items : list AnonymousConfession) (limit : nat) (sort : SortOrder) (offset : nat)
    : option string :=
  if (length items <=? limit)%nat then None
  else
    match items !! (limit - 1)%nat with
    | None => None
    | Some lastItem =>
        Some (match sort with
              | NEWEST => encodeFeedCursor {| row_id := c_id lastItem;
                                              row_created_at := AtDate (js_date (c_created_at lastItem)) |}
              | _ => offset_cursor (c_id lastItem) (Z.of_nat (offset + limit))
              end)
    end.

(** The rows of a page and one more. *)
Definition select (sort : SortOrder) (P : AnonymousConfession -> bool) (keep : Z * string -> bool) (offset limit : nat)
    (w : ConfDB) : list AnonymousConfession :=
  firstn (limit + 1) (skipn offset (insertion_sort (before sort w)
    (List.filter (fun c => P c && keep (position c)) (all_rows w)))).

(** [items.map((item) => mapToSlimConfession({ ...item, message: decrypt(item.message) }))]. *)
Fixpoint map_outcome {X Y E} (f : X -> outcome E Y) (l : list X) : outcome E (list Y) :=
  match l with
  | [] => Ok []
  | x :: l' => match f x with
               | Ok y => match map_outcome f l' with Ok ys => Ok (y :: ys) | Exn e => Exn e end
               | Exn e => Exn e
               end
  end.
Definition shown (f : AnonymousConfession -> list ReactionRow -> json) (w : ConfDB) (c : AnonymousConfession)
    : outcome content_error json :=
  match decryptConfession (c_message c) aesKey with
  | Ok m => Ok (f (c <| c_message := m |>) (reactions_of (c_id c) w))
  | Exn e => Exn e
  end.

(** The answer of a page, from one reading of the tables. *)
Definition page_of (P : AnonymousConfession -> bool) (f : AnonymousConfession -> list ReactionRow -> json)
    (sort : SortOrder) (cursor : option string) (page : option nat) (limit : nat) (w : ConfDB) : outcome conf_error json :=
  match applyFeedCursor sort cursor page limit with
  | None => Exn QueryFailed
  | Some (keep, offset) =>
      let items := select sort P keep offset limit w in
      let hasMore := (limit <? length items)%nat in
      let resultItems := if hasMore then firstn limit items else items in
      match map_outcome (shown f w) resultItems with
      | Exn e => Exn (Content e)
      | Ok data => Ok (CursorPaginatedResponseDto data (buildFeedNextCursor items limit sort offset) hasMore limit)
      end
  end.

Definition number_text (n : nat) : string := num_str (Some (Z.of_nat n)).
(** [src cache/cache.service.ts:161-163 buildKey] *)
Definition buildKey (parts : list string) : string := join_with ":" parts.
Definition feed_limit (dto : GetConfessionsDto) : nat := default 10%nat (dto_limit dto).
Definition feed_sort (dto : GetConfessionsDto) : SortOrder := default NEWEST (dto_sort dto).
(** [src confession/confession.service.ts:418-425 cacheKey] *)
Definition feed_key (dto : GetConfessionsDto) : string :=
  buildKey ["confessions";
            match dto_cursor dto with Some c => if truthy c then c else "no-cursor" | None => "no-cursor" end;
            number_text (match dto_page dto with Some (S p) => S p | _ => 1%nat end);
            number_text (feed_limit dto);
            from_option gender_str "all" (dto_gender dto);
            from_option sort_str "recent" (dto_sort dto)].

(** The feed does not select the review flag. *)
Definition slim (c : AnonymousConfession) (rs : list ReactionRow) : json := mapToSlimConfession c rs None.
Definition feed_page (dto : GetConfessionsDto) (w : ConfDB) : outcome conf_error json :=
  page_of (in_feed (dto_gender dto) w) slim (feed_sort dto) (dto_cursor dto) (dto_page dto) (feed_limit dto) w.

(** [src confession/confession.service.ts:414-536 loadConfessionsFeed] *)
Definition loadConfessionsFeed (dto : GetConfessionsDto) : action json :=
  let* cached := cache_service_get (feed_key dto) in
  match cached with
  | Some v => Ret (cval_json v)
  | None =>
      let* answer := reads (feed_page dto) in
      let* response := of_outcome answer in
      do* cache_service_set (feed_key dto) (CJson response) CONFESSION_LIST_TTL in
      Ret response
  end.

(** ** The other lists *)

Definition own (anonIds : list string) (gender : option Gender) (mstatus : option ModerationStatus)
    (c : AnonymousConfession) : bool :=
  includes (c_anonymousUserId c) anonIds && negb (c_isDeleted c)
  && match gender with Some g => bool_decide (c_gender c = Some (gender_str g)) | None => true end
  && match mstatus with Some s => bool_decide (c_moderationStatus c = s) | None => true end.
Definition own_json (c : AnonymousConfession) (rs : list ReactionRow) : json := JObj (columns c).

(** [src confession/confession.service.ts:1083-1170 getUserConfessions]; [anonIds] are
    the identities of the user, [mstatus] the filter on the moderation status. *)
Definition getUserConfessions (anonIds : list string) (dto : GetConfessionsDto) (mstatus : option ModerationStatus)
    : action json :=
  match anonIds with
  | [] => Ret (CursorPaginatedResponseDto [] None false (feed_limit dto))
  | _ =>
      let* answer := reads (fun w => page_of (own anonIds (dto_gender dto) mstatus) own_json (feed_sort dto)
                                       (dto_cursor dto) (dto_page dto) (feed_limit dto) w) in
      of_outcome answer
  end.

(** [src confession/confession.service.ts:1494-1553 loadConfessionsByTag] with the
    query of [findByTag] (repository/confession.repository.ts:498-563), whose
    condition calls [JSON_TYPE], a function the database does not have. *)
Definition loadConfessionsByTag (known_tag : bool) (tagName : string) (cursor : option string) (page limit : nat)
    (sort : option string) : action json :=
  if (limit <? 1)%nat || (100 <? limit)%nat then Throw (BadRequest "limit must be between 1 and 100")
  else if negb known_tag then Throw (NotFound "Tag not found")
  else
    let* cached := cache_service_get (buildKey ["confessions"; "tag"; tagName;
        match cursor with Some c => if truthy c then c else "page_" +:+ number_text page | None => "page_" +:+ number_text page end;
        number_text limit; match sort with Some s => if truthy s then s else "newest" | None => "newest" end]) in
    match cached with
    | Some v => Ret (cval_json v)
    | None => Throw QueryFailed
    end.

(** [src confession/confession.service.ts:1455-1466 toResponseDto] *)
Definition toResponseDto (c : AnonymousConfession) : outcome content_error json :=
  match decryptConfession (c_message c) aesKey with
  | Ok m => Ok (JObj [("id", JStr (c_id c)); ("message", JStr m);
                      ("createdAt", date_json (js_date (c_created_at c)));
                      ("updatedAt", date_json (js_date (c_created_at c)))])
  | Exn e => Exn e
  end.

(** [src confession/confession.service.ts:1264-1287 findOne] *)
Definition findOne (id : string) : action json :=
  let* confession := reads (find_row not_deleted id) in
  match confession with
  | None => Throw (NotFound "Confession not found")
  | Some c => of_content (toResponseDto c)
  end.

(** [src confession/confession.service.ts:1245-1262 findAll] *)
Definition findAll : action (list json) :=
  let* confessions := reads (fun w => insertion_sort (before NEWEST w) (List.filter not_deleted (all_rows w))) in
  of_content (map_outcome toResponseDto confessions).

(** [src confession/confession.service.ts:619-637 getDeletedConfessions] *)
Definition getDeletedConfessions (page limit : nat) : action (list json * nat) :=
  let* found := reads (fun w => insertion_sort (before NEWEST w) (List.filter c_isDeleted (all_rows w))) in
  let data := firstn limit (skipn ((page - 1) * limit) found) in
  let* items := of_content (map_outcome (fun c =>
    match decryptConfession (c_message c) aesKey with
    | Ok m => Ok (JObj (columns (c <| c_message := m |>)))
    | Exn e => Exn e
    end) data) in
  Ret (items, length found).

(** [publishAt] ascending. *)
Definition publishes_before (a b : AnonymousConfession) : bool :=
  match c_publishAt a, c_publishAt b with Some s, Some t => s <? t | Some _, None => true | None, _ => false end.
(** [src confession/confession-scheduler.service.ts:120-132 getScheduledConfessions] *)
Definition getScheduledConfessions (userId : string) : action (list AnonymousConfession) :=
  reads (fun w => insertion_sort publishes_before
    (List.filter (fun c => (c_anonymousUserId c =s? userId) && (c_status c =s? "scheduled")) (all_rows w))).

(** ** What readers are served after a removal *)

Section removed.
Context (sanitizeHtml sha256 : string -> string) (gone : string).

Definition clean (j : json) : Prop := json_get "id" j <> Some (JStr gone).
Lemma clean_of j i : json_get "id" j = Some (JStr i) -> i <> gone -> clean j.
Proof. unfold clean. congruence. Qed.
(** The confessions of a page. *)
Definition items_of (page : json) : list json :=
  match json_get "data" page with Some (JArr l) => l | _ => [] end.

(** The confession is deleted, and neither a page nor an entry of the cache has it. *)
Record gone_inv (w : ConfDB) : Prop := {
  gi_row : exists c, rows w !! gone = Some c /\ c_isDeleted c = true;
  gi_keyed : forall k c, rows w !! k = Some c -> c_id c = k;
  gi_pages : forall k now v, starts_with listPrefix k = true -> clock w <= now ->
               cache_get k now (cache w) = Some v -> Forall clean (items_of (cval_json v));
  gi_single : forall i now v, clock w <= now ->
                cache_get (single_key i) now (cache w) = Some v -> clean (cval_json v);
}.

#[local] Arguments starts_with : simpl never.
#[local] Arguments single_key : simpl never.
Abbreviation kept := (safe (E := conf_error) gone_inv).

Lemma deleted_row w c : gone_inv w -> rows w !! c_id c = Some c -> c_isDeleted c = false -> c_id c <> gone.
Proof. intros [(c' & Hc' & Hd) _ _ _] Hc Hdel Heq. rewrite Heq, Hc' in Hc. congruence. Qed.

Lemma inv_same w w' : rows w' = rows w -> cache w' = cache w -> clock w' = clock w -> gone_inv w -> gone_inv w'.
Proof. intros Hr Hc Hk [H1 H2 H3 H4]. constructor; rewrite ?Hr, ?Hc, ?Hk; done. Qed.

Lemma safe_cache_del k : kept (cache_service_del k) (fun _ => True).
Proof.
  apply safe_writes. intros w [H1 H2 H3 H4]. destruct (cache_up w); [|done].
  assert (forall k' now v, cache_get k' now (cache_del k (cache w)) = Some v -> cache_get k' now (cache w) = Some v) as Hd.
  { intros k' now v. destruct (decide (k = k')) as [->|Hne]; [by rewrite cache_get_del|by rewrite cache_get_del_ne]. }
  constructor; cbn; [done|done|intros k' now v ? ? ?; eapply H3; eauto|intros i now v ? ?; eapply H4; eauto].
Qed.

Lemma safe_delPattern p : kept (delPattern p) (fun _ => True).
Proof.
  eapply (safe_bind _ _ _ (fun _ => True)); [by apply safe_reads|]. intros keys _.
  apply safe_for_each. intros k _. apply safe_cache_del.
Qed.

Lemma safe_invalidate id : kept (invalidateConfessionEntry id) (fun _ => True).
Proof. eapply safe_bind; [apply safe_cache_del|]. intros _ _. apply safe_delPattern. Qed.

(** An edit of a row keeps the removed one removed. *)
Lemma gone_insert w k c : gone_inv w -> c_id c = k -> (k = gone -> c_isDeleted c = true) ->
  gone_inv (w <| rows ::= <[k := c]> |>).
Proof.
  intros [(c0 & Hc0 & Hd) H2 H3 H4] Hk Hg. constructor; cbn; [|intros k' c'|done|done].
  - destruct (decide (k = gone)) as [->|Hne].
    + exists c. rewrite lookup_insert_eq. eauto.
    + exists c0. by rewrite lookup_insert_ne.
  - destruct (decide (k = k')) as [<-|Hne].
    + rewrite lookup_insert_eq. by intros [= <-].
    + rewrite lookup_insert_ne by done. apply H2.
Qed.

Lemma safe_update_row id f :
  (forall c, c_id (f c) = c_id c) -> (id = gone -> forall c, c_isDeleted c = true -> c_isDeleted (f c) = true) ->
  kept (update_row id f) (fun _ => True).
Proof.
  intros Hid Hdel. apply safe_attempts. intros w HI. destruct (rows w !! id) as [c|] eqn:Hc; [|done].
  destruct (_ || _); [done|]. cbn. split; [|done]. pose proof HI as [(c0 & Hc0 & Hd) H2 _ _].
  apply gone_insert; [done|by rewrite Hid, (H2 id)|]. intros ->. rewrite Hc0 in Hc. simplify_eq. by apply Hdel.
Qed.

Lemma safe_save_row c : (c_id c = gone -> c_isDeleted c = true) -> kept (save_row c) (fun _ => True).
Proof. intros Hc. apply safe_writes. intros w HI. by apply gone_insert. Qed.

Lemma safe_cache_get_page k : starts_with listPrefix k = true ->
  kept (cache_service_get k) (fun o => match o with Some v => Forall clean (items_of (cval_json v)) | None => True end).
Proof.
  intros Hk. apply safe_reads. intros w [_ _ H3 _]. destruct (cache_up w); [|done].
  destruct (cache_get k (clock w) (cache w)) as [v|] eqn:Hv; [|done]. destruct (cval_truthy v); [|done].
  by eapply H3.
Qed.

Lemma safe_cache_get_single i :
  kept (cache_service_get (single_key i)) (fun o => match o with Some v => clean (cval_json v) | None => True end).
Proof.
  apply safe_reads. intros w [_ _ _ H4]. destruct (cache_up w); [|done].
  destruct (cache_get (single_key i) (clock w) (cache w)) as [v|] eqn:Hv; [|done].
  destruct (cval_truthy v); [|done]. by eapply H4.
Qed.

Lemma single_not_page i : starts_with listPrefix (single_key i) = false.
Proof. done. Qed.

Lemma get_set_cases k k' v v' ttl t now c : 0 < ttl -> t <= now ->
  cache_get k' now (cache_set k v ttl t c) = Some v' -> (k = k' /\ v' = v) \/ cache_get k' now c = Some v'.
Proof.
  intros Ht Hn. destruct (decide (k = k')) as [->|Hne].
  - rewrite cache_get_set by done. case_match; [|done]. intros [= <-]. by left.
  - rewrite cache_get_set_ne by done. by right.
Qed.

Lemma safe_cache_set_page k v : starts_with listPrefix k = true -> Forall clean (items_of (cval_json v)) ->
  kept (cache_service_set k v CONFESSION_LIST_TTL) (fun _ => True).
Proof.
  intros Hk Hv. apply safe_writes. intros w [H1 H2 H3 H4]. destruct (cache_up w); [|done]. constructor; cbn; [done|done|..].
  - intros k' now v' Hp Hn [[_ ->]|Hg]%get_set_cases; [done|by eapply H3|done|done].
  - intros i now v' Hn [[Hki _]|Hg]%get_set_cases; [|by eapply H4|done|done].
    subst k. by rewrite single_not_page in Hk.
Qed.

Lemma safe_cache_set_single i v : clean (cval_json v) ->
  kept (cache_service_set (single_key i) v CONFESSION_SINGLE_TTL) (fun _ => True).
Proof.
  intros Hv. apply safe_writes. intros w [H1 H2 H3 H4]. destruct (cache_up w); [|done]. constructor; cbn; [done|done|..].
  - intros k' now v' Hp Hn [[<- _]|Hg]%get_set_cases; [|by eapply H3|done|done]. by rewrite single_not_page in Hp.
  - intros i' now v' Hn [[_ ->]|Hg]%get_set_cases; [done|by eapply H4|done|done].
Qed.

(** The requests that touch confessions, and the passing of time. *)
Inductive ConfActor :=
| AFeed (dto : GetConfessionsDto)
| AView (id : string) (req : ViewRequest)
| AOwn (anonIds : list string) (dto : GetConfessionsDto) (mstatus : option ModerationStatus)
| AOne (id : string)
| AAll
| AEdit (d : EditDraw) (id : string) (dto : UpdateConfessionDto)
| ARemove (id : string) (deletedBy : option string)
| ADelete (id userId : string)
| ARestore (id : string)
| ARestoreConfession (id : string)
| AModerate (id : string) (s : ModerationStatus) (moderatorId : string) (notes : option string)
| AAnchor (id stellarTxHash : string)
| AVerify (chain : Chain) (id : string)
| APublish
| ASchedule (id : string) (publishAt : option ms)
| ACancel (id : string)
| AScheduled (userId : string)
| ADeleted (page limit : nat)
| ATick (d : N).

(** A confession as its row is answered. *)
Definition row_json (c : AnonymousConfession) : json := JObj (columns c).
(** The confessions a request is answered with. *)
Definition serve (a : ConfActor) : action (list json) :=
  match a with
  | AFeed dto => let* page := loadConfessionsFeed dto in Ret (items_of page)
  | AView id req => let* j := getConfessionByIdWithViewCount aesKey id req in Ret [j]
  | AOwn ids dto st => let* page := getUserConfessions ids dto st in Ret (items_of page)
  | AOne id => let* j := findOne id in Ret [j]
  | AAll => findAll
  | AEdit d id dto =>
      let* c := update sanitizeHtml aesKey d id dto in
      Ret (match c with Some c => [JObj (columns c)] | None => [] end)
  | ARemove id by_whom => let* _ := remove id by_whom in Ret []
  | ADelete id u => do* deleteConfession id u in Ret []
  | ARestore id => let* _ := restore id in Ret []
  | ARestoreConfession id => do* restoreConfession id in Ret []
  | AModerate id s m notes => let* c := updateModerationStatus id s m notes in Ret [row_json c]
  | AAnchor id tx =>
      let* r := anchorConfession sha256 aesKey id tx in
      Ret (match r with AnchorPending (Some c) => [JObj (columns c)] | _ => [] end)
  | AVerify chain id => let* _ := verifyStellarAnchor chain id in Ret []
  | APublish => do* publishScheduledConfessions in Ret []
  | ASchedule id t => let* c := scheduleConfession id t in Ret [row_json c]
  | ACancel id => let* c := cancelSchedule id in Ret [row_json c]
  | AScheduled u => let* l := getScheduledConfessions u in Ret (map row_json l)
  | ADeleted page limit => let* l := getDeletedConfessions page limit in Ret l.1
  | ATick d => do* writes (fun w => w <| clock ::= Z.add (Z.of_N d) |>) in Ret []
  end.

(** The requests that look rows up whether they are deleted or not: those that name
    the removed confession, the list of an identity's scheduled ones and the list of
    the deleted ones. *)
Definition sees_deleted (a : ConfActor) : Prop :=
  match a with
  | AModerate i _ _ _ | ASchedule i _ | ACancel i => i = gone
  | AScheduled _ | ADeleted _ _ => True
  | _ => False
  end.

Lemma shown_clean f w c j :
  (forall c rs, json_get "id" (f c rs) = Some (JStr (c_id c))) -> c_id c <> gone -> shown f w c = Ok j -> clean j.
Proof.
  unfold shown, clean. intros Hf Hc. destruct (decryptConfession _ _); [|done]. intros [= <-]. rewrite Hf. cbn.
  congruence.
Qed.

Lemma map_outcome_Forall {X Y E} (f : X -> outcome E Y) (P : X -> Prop) (Q : Y -> Prop) l ys :
  (forall x y, P x -> f x = Ok y -> Q y) -> Forall P l -> map_outcome f l = Ok ys -> Forall Q ys.
Proof.
  intros Hf Hl. revert ys. induction Hl as [|x l Hx _ IH]; intros ys; cbn; [by intros [= <-]|].
  destruct (f x) as [y|] eqn:Hy; [|done]. destruct (map_outcome f l); [|done]. intros [= <-]. eauto.
Qed.

(** Rows that are not deleted are other confessions. *)
Lemma rows_clean w (l : list AnonymousConfession) :
  gone_inv w -> (forall c, c ∈ l -> c ∈ all_rows w /\ c_isDeleted c = false) -> Forall (fun c => c_id c <> gone) l.
Proof.
  intros HI Hl. apply Forall_forall. intros c [Hc Hd]%Hl. unfold all_rows in Hc. apply list_elem_of_In in Hc.
  apply in_map_iff in Hc as ([k c'] & <- & Hk). apply list_elem_of_In, elem_of_map_to_list in Hk.
  apply (deleted_row w); [done| |done]. cbn. by rewrite (gi_keyed w HI k c').
Qed.

Lemma page_clean (P : AnonymousConfession -> bool) f sort cursor page limit w j :
  gone_inv w -> (forall c, P c = true -> c_isDeleted c = false) ->
  (forall c rs, json_get "id" (f c rs) = Some (JStr (c_id c))) ->
  page_of P f sort cursor page limit w = Ok j -> Forall clean (items_of j).
Proof.
  intros HI HP Hf. unfold page_of. destruct (applyFeedCursor _ _ _ _) as [[keep offset]|]; [|done].
  set (items := select _ _ _ _ _ _). set (l := if (limit <? length items)%nat then _ else _).
  destruct (map_outcome _ l) as [data|] eqn:Hd; [|done]. intros [= <-]. cbn [items_of json_get].
  eapply (map_outcome_Forall _ _ _ _ _ (fun c y => shown_clean f w c y Hf)); [|exact Hd]. apply (rows_clean w); [done|].
  intros c Hc. assert (c ∈ items) as Hci.
  { subst l. destruct (_ <? _)%nat; [by apply elem_of_firstn in Hc|done]. }
  apply elem_of_firstn, elem_of_skipn, elem_of_insertion_sort in Hci.
  apply list_elem_of_In, filter_In in Hci as [Hci Hp]. apply andb_true_iff in Hp as [Hp _].
  split; [by apply list_elem_of_In|by apply HP].
Qed.

#[local] Hint Resolve safe_cache_del safe_invalidate safe_delPattern : core.

(** Reading the clock, or anything nothing is claimed of. *)
Lemma safe_look {X} (f : ConfDB -> X) : kept (reads f) (fun _ => True).
Proof. by apply safe_reads. Qed.
Lemma safe_content {X} (o : outcome content_error X) : kept (of_content o) (fun _ => True).
Proof. by apply safe_of_outcome. Qed.
Lemma safe_decrypted c (P : AnonymousConfession -> Prop) :
  (forall m, P (c <| c_message := m |>)) -> kept (decrypted aesKey c) P.
Proof. intros H. eapply safe_bind; [apply safe_content|]. intros m _. apply H. Qed.
Lemma safe_mod {X E'} (inj : E' -> conf_error) (p : prog ModDB E' X) :
  kept (lift (W := ConfDB) inj p) (fun _ => True).
Proof. apply safe_lift. intros w q. by apply inv_same. Qed.

(** A request that finds the row among those that are not deleted finds another one. *)
Lemma safe_find P i : (forall c, P c = true -> c_isDeleted c = false) ->
  kept (reads (find_row P i)) (fun o => is_Some o -> i <> gone).
Proof.
  intros HP. apply safe_reads. intros w [(c0 & Hc0 & Hd) _ _ _] [c Hc] ->. unfold find_row in Hc.
  rewrite Hc0 in Hc. destruct (P c0) eqn:Hp; [|done]. apply HP in Hp. congruence.
Qed.
(** A row as it is read. *)
Definition as_read (i : string) (c : AnonymousConfession) : Prop := c_id c = i /\ (i = gone -> c_isDeleted c = true).
Lemma safe_read_row i :
  kept (reads (fun w => rows w !! i)) (fun o => match o with Some c => as_read i c | None => True end).
Proof.
  apply safe_reads. intros w [(c0 & Hc0 & Hd) H2 _ _]. destruct (rows w !! i) as [c|] eqn:Hc; [|done].
  split; [by apply H2|]. intros ->. congruence.
Qed.
Lemma not_deleted_false c : not_deleted c = true -> c_isDeleted c = false.
Proof. apply negb_true_iff. Qed.

Lemma safe_update d i dto :
  kept (update sanitizeHtml aesKey d i dto) (fun o => match o with Some c => c_id c <> gone | None => True end).
Proof.
  eapply safe_bind; [apply (safe_find _ i not_deleted_false)|]. intros [c|] Hi; [|done].
  assert (i <> gone) as Hne by eauto. clear Hi.
  eapply (safe_bind _ _ _ (fun _ => True)).
  { destruct (truthy_opt (u_message dto)).
    - cbv zeta. destruct (truthy _); [|done]. eapply safe_bind; [apply safe_content|]. intros m _.
      eapply (safe_bind _ _ _ (fun _ => True)); [case_bool_decide; [by apply safe_update_row|done]|]. intros _ _.
      eapply safe_bind; [apply safe_look|]. intros now _. eapply safe_bind; [apply safe_mod|]. done.
    - destruct (update_allowed dto); [by apply safe_update_row|done]. }
  intros _ _. eapply safe_bind; [apply safe_invalidate|]. intros _ _.
  eapply safe_bind; [apply (safe_read_row i)|]. intros [c'|] Hc'; [|done]. destruct Hc' as [Hc' _].
  eapply safe_bind; [apply (safe_decrypted _ (fun c => c_id c <> gone)); cbn; congruence|]. done.
Qed.

Lemma safe_delete i f : (forall c, c_id (f c) = c_id c) -> (i = gone -> forall c, c_isDeleted c = true -> c_isDeleted (f c) = true) ->
  kept (do* update_row i f in invalidateConfessionEntry i) (fun _ => True).
Proof. intros Hf Hd. eapply safe_bind; [by apply safe_update_row|]. intros _ _. apply safe_invalidate. Qed.

Lemma safe_remove i by_whom : kept (remove i by_whom) (fun _ => True).
Proof.
  eapply safe_bind; [apply safe_look|]. intros [c|] _; [|done]. eapply safe_bind; [apply safe_look|]. intros now _.
  eapply safe_bind; [by apply safe_update_row|]. intros _ _. eapply safe_bind; [apply safe_invalidate|]. done.
Qed.
Lemma safe_deleteConfession i u : kept (deleteConfession i u) (fun _ => True).
Proof.
  eapply safe_bind; [apply safe_look|]. intros [c|] _; [|done]. eapply safe_bind; [apply safe_look|]. intros now _.
  by apply safe_delete.
Qed.
Lemma safe_restore i : i <> gone -> kept (restore i) (fun _ => True).
Proof.
  intros Hi. eapply safe_bind; [apply safe_look|]. intros [c|] _; [|done].
  eapply safe_bind; [by apply safe_update_row|]. intros _ _. eapply safe_bind; [apply safe_invalidate|]. done.
Qed.
Lemma safe_restoreConfession i : i <> gone -> kept (restoreConfession i) (fun _ => True).
Proof. intros Hi. eapply safe_bind; [apply safe_look|]. intros [c|] _; [|done]. by apply safe_delete. Qed.

Lemma safe_moderate i s m notes : kept (updateModerationStatus i s m notes) (fun c => c_id c = i).
Proof.
  eapply safe_bind; [apply (safe_read_row i)|]. intros [c|] Hc; [|done]. destruct Hc as [<- Hg].
  eapply safe_bind; [by apply safe_save_row|]. intros _ _. eapply safe_bind; [apply safe_invalidate|]. intros _ _.
  eapply safe_bind; [apply safe_look|]. intros [l|] _; [|done]. eapply safe_bind; [apply safe_look|]. intros now _.
  eapply safe_bind; [apply safe_mod|]. done.
Qed.

Lemma safe_anchor i tx : kept (anchorConfession sha256 aesKey i tx)
  (fun r => match r with AnchorPending (Some c) => c_id c <> gone | _ => True end).
Proof.
  eapply safe_bind; [apply (safe_find _ i not_deleted_false)|]. intros [c|] Hi; [|done].
  assert (i <> gone) as Hne by eauto. clear Hi.
  destruct (c_isAnchored c); [done|]. destruct (_ && _); [done|]. destruct (negb _); [done|].
  eapply safe_bind; [apply safe_content|]. intros m _. eapply safe_bind; [apply safe_look|]. intros now _.
  destruct (processAnchorData _ _ _ _) as [[t h]|]; [|done].
  eapply safe_bind; [apply safe_try_catch; [by apply safe_update_row|by intros []]|]. intros _ _.
  eapply safe_bind; [apply safe_cache_del|]. intros _ _.
  eapply safe_bind; [apply (safe_read_row i)|]. intros [c'|] Hc'; [|done]. destruct Hc' as [Hc' _].
  eapply safe_bind; [apply (safe_decrypted _ (fun c => c_id c <> gone)); cbn; congruence|]. done.
Qed.

Lemma safe_verify chain i : kept (verifyStellarAnchor chain i) (fun _ => True).
Proof.
  eapply safe_bind; [apply safe_look|]. intros [c|] _; [|done]. destruct (negb _); [done|].
  cbv zeta. destruct (negb _ && _); [|done].
  eapply safe_bind; [apply safe_look|]. intros now _. eapply safe_bind; [by apply safe_update_row|]. intros _ _.
  eapply safe_bind; [apply safe_cache_del|]. done.
Qed.

Lemma safe_publish : kept publishScheduledConfessions (fun _ => True).
Proof.
  eapply (safe_bind _ _ _ (fun _ => True)).
  - apply safe_access. intros w [(c & Hc & Hd) H2 H3 H4]. split; [|done]. constructor; cbn; [..|done|done].
    + eexists. rewrite lookup_fmap, Hc. split; [done|]. by destruct (due _ _).
    + intros k c'. rewrite lookup_fmap. destruct (rows w !! k) as [c0|] eqn:Hk; [|done].
      intros [= <-]. rewrite <- (H2 k c0 Hk). by destruct (due _ _).
  - intros ids _. destruct ids; [done|]. eapply safe_bind; [by apply safe_for_each|]. intros _ _. apply safe_delPattern.
Qed.
Lemma safe_schedule i t : kept (scheduleConfession i t) (fun c => c_id c = i).
Proof.
  eapply safe_bind; [apply (safe_read_row i)|]. intros [c|] Hc; [|done]. destruct Hc as [<- Hg].
  eapply safe_bind; [apply safe_look|]. intros now _. destruct (from_option _ _ _); [done|]. destruct t; [|done].
  eapply safe_bind; [by apply safe_save_row|]. done.
Qed.
Lemma safe_cancel i : kept (cancelSchedule i) (fun c => c_id c = i).
Proof.
  eapply safe_bind; [apply (safe_read_row i)|]. intros [c|] Hc; [|done]. destruct Hc as [<- Hg].
  eapply safe_bind; [by apply safe_save_row|]. done.
Qed.

Lemma in_feed_live g w c : in_feed g w c = true -> c_isDeleted c = false.
Proof. unfold in_feed. by destruct (c_isDeleted c). Qed.
Lemma own_live ids g s c : own ids g s c = true -> c_isDeleted c = false.
Proof. unfold own. by destruct (includes _ _), (c_isDeleted c). Qed.
Lemma visible_live c : visible c = true -> c_isDeleted c = false.
Proof. unfold visible. by destruct (c_isDeleted c). Qed.

Lemma feed_key_page dto : starts_with listPrefix (feed_key dto) = true.
Proof. done. Qed.

Lemma safe_feed dto : kept (loadConfessionsFeed dto) (fun j => Forall clean (items_of j)).
Proof.
  eapply safe_bind; [apply safe_cache_get_page, feed_key_page|]. intros [v|] Hv; [done|].
  eapply (safe_bind _ _ _ (fun o => forall j, o = Ok j -> Forall clean (items_of j))).
  { apply safe_reads. intros w HI j. apply page_clean; [done|apply in_feed_live|done]. }
  intros o Ho. eapply safe_bind; [apply safe_of_outcome, Ho|]. intros j Hj.
  eapply safe_bind; [by apply safe_cache_set_page; [apply feed_key_page|]|]. done.
Qed.

Lemma safe_own ids dto st : kept (getUserConfessions ids dto st) (fun j => Forall clean (items_of j)).
Proof.
  unfold getUserConfessions. destruct ids as [|i ids]; [constructor|].
  eapply (safe_bind _ _ _ (fun o => forall j, o = Ok j -> Forall clean (items_of j))).
  { apply safe_reads. intros w HI j. apply page_clean; [done|apply own_live|done]. }
  intros o Ho. by apply safe_of_outcome.
Qed.

Lemma safe_loaded P i : (forall w, gone_inv w -> is_Some (find_row P i w) -> i <> gone) ->
  kept (reads (loaded P i)) (fun o => match o with Some (c, _, _) => i <> gone /\ c_id c = i | None => True end).
Proof.
  intros HP. apply safe_reads. intros w HI. unfold loaded. destruct (find_row P i w) as [c|] eqn:Hc; [|done].
  split; [apply (HP w HI); by rewrite Hc|]. unfold find_row in Hc.
  destruct (rows w !! i) as [c'|] eqn:Hr; [|done]. destruct (P c'); [|done]. injection Hc as <-. by apply (gi_keyed w HI).
Qed.

Lemma safe_count i v : i <> gone ->
  kept (checkAndMarkView i v) (fun _ => True) /\ kept (incrementViewCountAtomically i) (fun _ => True).
Proof.
  intros Hi. split.
  - apply safe_access. intros w HI. split; [|done]. destruct (negb _); [done|]. destruct (cache_get _ _ _); [done|by apply (inv_same w)].
  - apply safe_attempts. intros w HI. destruct (rows w !! i) as [c|] eqn:Hc; [|done]. split; [|done].
    apply gone_insert; [done| |done]. exact (gi_keyed w HI i c Hc).
Qed.

Lemma safe_view i req : kept (getConfessionByIdWithViewCount aesKey i req) clean.
Proof.
  eapply safe_bind; [apply safe_cache_get_single|]. intros [v|] Hv; [done|].
  eapply safe_bind; [apply safe_loaded with (P := visible)|].
  { intros w [(c0 & Hc0 & Hd) _ _ _] [c Hc] ->. unfold find_row in Hc. rewrite Hc0 in Hc.
    destruct (visible c0) eqn:Hp; [|done]. apply visible_live in Hp. congruence. }
  intros [[[c account] rs]|] Hc; [|done]. destruct Hc as [Hi Hc]. destruct (safe_count i (viewer req) Hi) as [Hmark Hincr].
  assert (forall f : AnonymousConfession -> json, (forall c, json_get "id" (f c) = Some (JStr (c_id c))) ->
            forall c, c_id c = i -> kept (let* c := decrypted aesKey c in Ret (f c)) clean) as Hshow.
  { intros f Hf c' Hc'. eapply safe_bind; [apply (safe_decrypted _ (fun c => c_id c = i)); intros m; exact Hc'|].
    intros c'' Hc''. unfold clean. cbn. rewrite Hf. congruence. }
  assert (forall j, clean j -> kept (do* cache_service_set (single_key i) (CJson j) CONFESSION_SINGLE_TTL in Ret j) clean) as Hset.
  { intros j Hj. eapply safe_bind; [by apply safe_cache_set_single|]. done. }
  eapply safe_bind; [apply Hmark|]. intros [] _.
  - eapply safe_bind; [apply Hincr|]. intros _ _.
    eapply safe_bind; [apply safe_loaded with (P := fun _ => true); done|]. intros updated Hu.
    eapply safe_bind; [|apply Hset]. destruct updated as [[[c' account'] rs']|]; [|done].
    apply (Hshow (fun c => entity_json c account' (shown_reactions account' rs'))); [done|apply Hu].
  - eapply (safe_bind _ _ _ (fun c => c_id c = i)); [by apply (safe_decrypted _ (fun c => c_id c = i))|].
    intros c' Hc'. apply Hset, (clean_of _ (c_id c')); [done|congruence].
Qed.

Lemma dto_clean c j : c_id c <> gone -> toResponseDto c = Ok j -> clean j.
Proof.
  unfold toResponseDto. intros Hc. destruct (decryptConfession _ _); [|done]. intros [= <-]. by apply (clean_of _ (c_id c)).
Qed.
Lemma safe_findOne i : kept (findOne i) clean.
Proof.
  eapply safe_bind; [apply safe_reads with (phi := fun o => match o with Some c => c_id c <> gone | None => True end)|].
  { intros w HI. unfold find_row. destruct (rows w !! i) as [c|] eqn:Hc; [|done].
    destruct (not_deleted c) eqn:Hd; [|done]. apply not_deleted_false in Hd.
    apply (deleted_row w); [done| |done]. by rewrite (gi_keyed w HI i c). }
  intros [c|] Hc; [|done]. apply safe_of_outcome. intros j Hj. apply (dto_clean c); [done|].
  by destruct (toResponseDto c); [injection Hj as ->|].
Qed.
Lemma safe_findAll : kept findAll (Forall clean).
Proof.
  eapply (safe_bind _ _ _ (Forall (fun c => c_id c <> gone))).
  - apply safe_reads. intros w HI. apply (rows_clean w); [done|]. intros c Hc%elem_of_insertion_sort%list_elem_of_In.
    apply filter_In in Hc as [Hc Hd]. split; [by apply list_elem_of_In|by apply not_deleted_false].
  - intros l Hl. apply safe_of_outcome. intros js Hjs. destruct (map_outcome toResponseDto l) as [ys|] eqn:Hm; [|done].
    injection Hjs as ->. by eapply (map_outcome_Forall _ _ _ _ _ dto_clean).
Qed.

Lemma row_clean i c : c_id c = i -> i = gone \/ Forall clean [row_json c].
Proof.
  intros <-. destruct (decide (c_id c = gone)) as [->|Hne]; [by left|right].
  apply Forall_singleton. by apply (clean_of _ (c_id c)).
Qed.

(** No request but a restore of the removed confession brings it back, and none but those
    that look deleted rows up is answered with it. *)
Lemma safe_serve a : a <> ARestore gone -> a <> ARestoreConfession gone ->
  kept (serve a) (fun l => sees_deleted a \/ Forall clean l).
Proof.
  intros Hr Hrc.
  assert (forall (p : action (list json)), kept p (Forall clean) -> kept p (fun l => sees_deleted a \/ Forall clean l)) as Hshown.
  { intros p Hp. eapply safe_mono; [|exact Hp]. by right. }
  assert (forall X (p : action X), kept p (fun _ => True) -> kept (let* _ := p in Ret []) (Forall clean)) as Hsilent.
  { intros X p Hp. eapply safe_bind; [apply Hp|]. constructor. }
  assert (forall p : action json, kept p clean -> kept (let* j := p in Ret [j]) (Forall clean)) as Hone.
  { intros p Hp. eapply safe_bind; [apply Hp|]. intros j Hj. by repeat constructor. }
  assert (forall i (p : action AnonymousConfession), (sees_deleted a <-> i = gone) -> kept p (fun c => c_id c = i) ->
            kept (let* c := p in Ret [row_json c]) (fun l => sees_deleted a \/ Forall clean l)) as Hnamed.
  { intros i p Ha Hp. eapply safe_bind; [exact Hp|]. intros c Hc.
    destruct (row_clean i c Hc) as [Hi|Hl]; [left; by apply Ha|by right]. }
  assert (forall (p : action (list json)), sees_deleted a -> kept p (fun _ => True) ->
            kept p (fun l => sees_deleted a \/ Forall clean l)) as Hall.
  { intros p Ha Hp. eapply safe_mono; [|exact Hp]. by left. }
  destruct a; cbn [serve].
  - apply Hshown. eapply safe_bind; [apply safe_feed|]. done.
  - apply Hshown, Hone, safe_view.
  - apply Hshown. eapply safe_bind; [apply safe_own|]. done.
  - apply Hshown, Hone, safe_findOne.
  - apply Hshown, safe_findAll.
  - apply Hshown. eapply safe_bind; [apply safe_update|]. intros [c|] Hc; repeat constructor. by apply (clean_of _ (c_id c)).
  - apply Hshown, Hsilent, safe_remove.
  - apply Hshown, Hsilent, safe_deleteConfession.
  - apply Hshown, Hsilent, safe_restore. congruence.
  - apply Hshown, Hsilent, safe_restoreConfession. congruence.
  - apply Hnamed with (i := id); [done|]. apply safe_moderate.
  - apply Hshown. eapply safe_bind; [apply safe_anchor|]. intros [|[c|]] Hc; repeat constructor. by apply (clean_of _ (c_id c)).
  - apply Hshown, Hsilent, safe_verify.
  - apply Hshown, Hsilent, safe_publish.
  - apply Hnamed with (i := id); [done|]. apply safe_schedule.
  - apply Hnamed with (i := id); [done|]. apply safe_cancel.
  - apply Hall; [done|]. eapply safe_bind; [apply safe_look|]. done.
  - apply Hall; [done|]. eapply (safe_bind _ _ _ (fun _ => True)); [|done].
    eapply safe_bind; [apply safe_look|]. intros found _. eapply safe_bind; [apply safe_content|]. done.
  - apply Hshown, Hsilent, safe_writes. intros w [H1 H2 H3 H4]. constructor; cbn; [done|done|..].
    + intros k now v Hk Hn. apply H3; [done|lia].
    + intros k now v Hn. apply H4. lia.
Qed.

(** A removal establishes the invariant. *)
Lemma run_remove_inv by_whom w0 w1 :
  cache_up w0 = true -> (forall k c, rows w0 !! k = Some c -> c_id c = k) ->
  (forall i now v, cache_get (single_key i) now (cache w0) = Some v -> json_get "id" (cval_json v) = Some (JStr i)) ->
  run (remove gone by_whom) w0 = (Ok gone, w1) -> gone_inv w1.
Proof.
  intros Hup Hkeyed Hown. unfold remove, find_row. run_simp. destruct (rows w0 !! gone) as [c|] eqn:Hc; [|done].
  destruct (not_deleted c); [|done]. run_simp.
  match goal with |- context [run (update_row gone ?f) w0] => set (g := f) end.
  destruct (run (update_row gone g) w0) as [[[]|e] w2] eqn:Hu; [|done]. apply run_update_row in Hu. run_simp.
  destruct (run_invalidate gone w2) as (c' & Hinv & Hgone & Hkeep); [by rewrite Hu|]. rewrite Hinv. run_simp.
  intros [= <-]. rewrite (alter_as_insert g gone c) in Hu by done. rewrite Hu in *. clear Hu Hinv w2.
  cbn [cache set_field] in Hkeep. constructor; cbn [rows cache clock set_field].
  - exists (g c). by rewrite lookup_insert_eq.
  - intros k c0. destruct (decide (k = gone)) as [->|Hne].
    + rewrite lookup_insert_eq. intros [= <-]. apply (Hkeyed _ _ Hc).
    + rewrite lookup_insert_ne by done. apply Hkeyed.
  - intros k now v Hk _. rewrite Hgone by auto. done.
  - intros i now v _ Hv. destruct (decide (i = gone)) as [->|Hne]; [by rewrite Hgone in Hv by auto|].
    destruct (Hkeep (single_key i) now) as [Hn|Hs]; [by rewrite Hn in Hv|]. rewrite Hs in Hv. apply Hown in Hv.
    unfold clean. congruence.
Qed.
End removed.

End feed.

(** ** A concrete run *)

Definition ex_dto : GetConfessionsDto := {|
  dto_cursor := None; dto_limit := None; dto_page := None; dto_sort := None; dto_gender := None |}.
Definition ex_two : ConfDB (C := map_cache) := ex_world [ex_row "c1" 5000000 "hello"; ex_row "c2" 6000000 "world"].
Definition ex_feed : prog (ConfDB (C := map_cache)) conf_error (list json) :=
  serve (aes := plain_cbc) ex_key parseISO Some (fun s => s) (fun s => s) (AFeed ex_dto).
Definition ex_removed : ConfDB (C := map_cache) := (run (remove "c1" None) (run ex_feed ex_two).2).2.
Definition ex_actors : gmap positive ConfActor :=
  {[ 1%positive := AFeed ex_dto; 2%positive := AView "c1" ex_viewer; 3%positive := ARestore "c2" ]}.
Definition ex_requests_after : gmap positive (prog (ConfDB (C := map_cache)) conf_error (list json)) :=
  serve (aes := plain_cbc) ex_key parseISO Some (fun s => s) (fun s => s) <$> ex_actors.
Definition ex_served := run_schedule [1; 2; 3; 1; 2; 1]%positive (ex_removed, ex_requests_after).
Definition ex_answer : list json := match ex_served.2 !! 1%positive with Some (Ret l) => l | _ => [] end.
Example ex_first_page : match (run ex_feed ex_two).1 with Ok l => map (json_get "id") l | Exn _ => [] end
  = [Some (JStr "c2"); Some (JStr "c1")].
Proof. vm_compute. reflexivity. Qed.


(** Who schedules the removed confession, with no account at all, is answered with its
    row, and so is who lists the deleted ones. *)
Definition ex_asked (a : ConfActor) : outcome conf_error (list (option json)) :=
  match (run (serve (aes := plain_cbc) ex_key parseISO Some (fun s => s) (fun s => s) a) ex_removed).1 with
  | Ok l => Ok (map (json_get "id") l)
  | Exn e => Exn e
  end.
Theorem removed_row_answered :
  map ex_asked [ASchedule "c1" (Some 9999999999999); ACancel "c1"; ADeleted 1 50; AOne "c1"]
  = [Ok [Some (JStr "c1")]; Ok [Some (JStr "c1")]; Ok [Some (JStr "c1")]; Exn (NotFound "Confession not found")].
Proof. vm_compute. reflexivity. Qed.
