(* ===== verification/FeedWalk.v ===== *)
(** * Reading the feed to its end

    Following the cursors of the public feed of [Feed]: the keys of its cached pages,
    what a client collects page by page, and the cases in which it misses a
    confession. *)
From S2P Require Import Prelude Numbers Json Dates Effects Moderation CacheManager Base64 ContentEncryption Cursor.
From S2P Require Import Confessions Feed.
Open Scope Z_scope.

Section walk.
Context {C : Type} `{!CacheManager C} {aes : AesCbc} (aesKey : string).
Context (Date_parse : string -> option ms) (uuid_of : string -> option string).
Abbreviation ConfDB := (ConfDB (C := C)).
Abbreviation action := (prog ConfDB conf_error).
Abbreviation feed_page := (feed_page (C := C) aesKey Date_parse uuid_of).
Abbreviation load := (loadConfessionsFeed (C := C) aesKey Date_parse uuid_of).

(** The query for the page after a cursor. *)
Definition next_dto (dto : GetConfessionsDto) (c : string) : GetConfessionsDto := dto <| dto_cursor := Some c |>.

(** A client that asks for pages until there is no next cursor. *)
Fixpoint feed_walk (fuel : nat) (dto : GetConfessionsDto) : action (list json) :=
  match fuel with
  | O => Throw (Plain "out of pages")
  | S fuel' =>
      let* page := load dto in
      match json_get "nextCursor" page with
      | Some (JStr c) =>
          let* rest := feed_walk fuel' (next_dto dto c) in Ret (items_of page ++ rest)
      | _ => Ret (items_of page)
      end
  end.

(** The rows the feed shows, in its order. *)
Definition visible_feed (dto : GetConfessionsDto) (w : ConfDB) : list AnonymousConfession :=
  insertion_sort (before (feed_sort dto) w) (List.filter (in_feed (dto_gender dto) w) (all_rows w)).

(** ** Cached pages *)

Definition cursor_text (cursor : option string) : string :=
  match cursor with Some c => if truthy c then c else "no-cursor" | None => "no-cursor" end.
Definition page_no (page : option nat) : nat := match page with Some (S p) => S p | _ => 1%nat end.

Lemma feed_key_parts dto : feed_key dto =
  (((("confessions:" +:+ cursor_text (dto_cursor dto)) +:+ ":" +:+ number_text (page_no (dto_page dto)))
     +:+ ":" +:+ number_text (feed_limit dto)) +:+ ":" +:+ from_option gender_str "all" (dto_gender dto))
  +:+ ":" +:+ from_option sort_str "recent" (dto_sort dto).
Proof. unfold feed_key, buildKey. rewrite !join_with_cons. cbn [join_with]. by rewrite !str_app_assoc. Qed.

Lemma number_text_inj n m : number_text n = number_text m -> n = m.
Proof.
  unfold number_text. intros H. pose proof (parseInt_num_str (Z.of_nat n) ltac:(lia)) as Hn.
  rewrite H, parseInt_num_str in Hn by lia. injection Hn. lia.
Qed.

Lemma feed_key_inj a b : feed_key a = feed_key b ->
  cursor_text (dto_cursor a) = cursor_text (dto_cursor b) /\ page_no (dto_page a) = page_no (dto_page b) /\
  feed_limit a = feed_limit b /\ dto_gender a = dto_gender b /\ dto_sort a = dto_sort b.
Proof.
  rewrite !feed_key_parts.
  assert (forall x y s t : string, str_forall (fun c => negb (Ascii.eqb c ":"%char)) s = true ->
    str_forall (fun c => negb (Ascii.eqb c ":"%char)) t = true -> x +:+ ":" +:+ s = y +:+ ":" +:+ t -> x = y /\ s = t) as Hsep.
  { intros x y s t Hs Ht H. by apply (sep_inj_r ":"%char). }
  intros H.
  apply Hsep in H as [H Hsort]; [|by destruct (dto_sort a) as [[]|]|by destruct (dto_sort b) as [[]|]].
  apply Hsep in H as [H Hgender]; [|by destruct (dto_gender a) as [[]|]|by destruct (dto_gender b) as [[]|]].
  apply Hsep in H as [H Hlimit]; [|apply num_str_no_colon..]. apply Hsep in H as [H Hpage]; [|apply num_str_no_colon..].
  apply number_text_inj in Hlimit, Hpage.
  assert (cursor_text (dto_cursor a) = cursor_text (dto_cursor b)) as Hcur
    by (rewrite !str_app_cons in H; by injection H).
  split_and!; [done..| |].
  - destruct (dto_gender a) as [[]|], (dto_gender b) as [[]|]; by cbn in Hgender.
  - destruct (dto_sort a) as [[]|], (dto_sort b) as [[]|]; by cbn in Hsort.
Qed.

Lemma decode_cursor_text c : decodeCursor (Some (cursor_text c)) = decodeCursor c.
Proof.
  assert (decodeCursor (Some "no-cursor") = None) as Hno by (vm_compute; reflexivity).
  destruct c as [c|]; cbn [cursor_text]; [|done]. destruct (truthy c) eqn:Hc; [done|].
  rewrite Hno. unfold decodeCursor. by rewrite Hc.
Qed.

(** Queries with one key are answered with one page. *)
Lemma feed_page_key a b w : feed_key a = feed_key b -> feed_page a w = feed_page b w.
Proof.
  intros (Hc & Hp & Hl & Hg & Hs)%feed_key_inj. unfold Feed.feed_page, feed_sort. rewrite Hg, Hs, Hl.
  assert (decodeCursor (dto_cursor a) = decodeCursor (dto_cursor b)) as Hd
    by (by rewrite <- decode_cursor_text, Hc, decode_cursor_text).
  assert (applyFeedCursor Date_parse uuid_of (default NEWEST (dto_sort b)) (dto_cursor a) (dto_page a) (feed_limit b)
          = applyFeedCursor Date_parse uuid_of (default NEWEST (dto_sort b)) (dto_cursor b) (dto_page b) (feed_limit b)) as Ha.
  { assert (forall l, match dto_page a with Some p => if (1 <? p)%nat then ((p - 1) * l)%nat else 0%nat | None => 0%nat end
                    = match dto_page b with Some p => if (1 <? p)%nat then ((p - 1) * l)%nat else 0%nat | None => 0%nat end) as Hby.
    { intros l. destruct (dto_page a) as [[|[|p]]|], (dto_page b) as [[|[|q]]|]; cbn in Hp;
        first [reflexivity|discriminate|by rewrite Hp]. }
    unfold applyFeedCursor. by rewrite Hd, Hby. }
  unfold page_of. by rewrite Ha.
Qed.

(** Every cached page is the page the tables would give. *)
Definition coherent (w : ConfDB) : Prop :=
  forall dto now v, clock w <= now -> cache_get (feed_key dto) now (cache w) = Some v ->
    exists fs, v = CJson (JObj fs) /\ feed_page dto w = Ok (JObj fs).

(** Nothing but the cache has changed. *)
Definition same_tables (w w' : ConfDB) : Prop := exists c, w' = w <| cache := c |>.

Lemma feed_page_same dto w w' : same_tables w w' -> feed_page dto w' = feed_page dto w.
Proof. by intros [c ->]. Qed.
Lemma same_tables_trans w1 w2 w3 : same_tables w1 w2 -> same_tables w2 w3 -> same_tables w1 w3.
Proof. intros [c ->] [c' ->]. by exists c'. Qed.

(** A page that is loaded is the page of the tables, cached or not, and the cache
    stays coherent. *)
Lemma run_load dto w fs : coherent w -> feed_page dto w = Ok (JObj fs) ->
  exists w', run (load dto) w = (Ok (JObj fs), w') /\ same_tables w w' /\ coherent w'.
Proof.
  intros Hco Hpage. unfold loadConfessionsFeed, cache_service_get, cache_service_set. run_simp.
  assert (same_tables w w) as Hrefl by (exists (cache w); by destruct w).
  destruct (cache_up w) eqn:Hup.
  - destruct (cache_get (feed_key dto) (clock w) (cache w)) as [v|] eqn:Hv.
    + destruct (Hco dto (clock w) v ltac:(lia) Hv) as (fs' & -> & Hfs). rewrite Hpage in Hfs. injection Hfs as <-.
      cbn [cval_truthy json_truthy]. exists w. by run_simp.
    + run_simp. rewrite Hpage. run_simp. rewrite Hup. eexists. split; [done|]. split; [by eexists|].
      intros dto' now v Hn Hget. cbn [cache clock set_field] in *.
      apply get_set_cases in Hget as [[Hk ->]|Hget]; [..|done|done].
      * exists fs. split; [done|]. rewrite <- (feed_page_key _ _ _ Hk). done.
      * by apply (Hco dto' now v).
  - run_simp. rewrite Hpage. run_simp. rewrite Hup. by exists w.
Qed.

(** ** The walk *)

(** What the tables hold for the walk to be exact: a row has the id it is stored
    under, its text can be decrypted, and, in the newest order, which compares the
    position in a cursor with the columns, its id is a UUID and it was created on a
    millisecond. *)
Record walkable (sort : SortOrder) (w : ConfDB) : Prop := {
  wk_keyed : forall k c, rows w !! k = Some c -> c_id c = k;
  wk_readable : forall k c, rows w !! k = Some c -> exists m, decryptConfession (c_message c) aesKey = Ok m;
  wk_uuid : sort = NEWEST -> forall k c, rows w !! k = Some c -> uuid_of (c_id c) = Some (c_id c);
  wk_ms : sort = NEWEST -> forall k c, rows w !! k = Some c -> exists t, year_four t /\ c_created_at c = us_of t;
}.

Lemma elem_of_all_rows c (w : ConfDB) : c ∈ all_rows w -> exists k, rows w !! k = Some c.
Proof.
  unfold all_rows. rewrite list_elem_of_In. intros ([k c'] & <- & Hk)%in_map_iff. exists k.
  by apply elem_of_map_to_list, list_elem_of_In.
Qed.

Lemma feed_before_trans a b c : feed_before a b = true -> feed_before b c = true -> feed_before a c = true.
Proof.
  unfold feed_before. rewrite !orb_true_iff, !andb_true_iff, !Z.ltb_lt, !Z.eqb_eq.
  intros [H1|[H1 Hi]] [H2|[H2 Hj]]; try (left; lia). right. split; [lia|by eapply str_le_trans].
Qed.
Lemma feed_before_total a b : feed_before a b || feed_before b a = true.
Proof.
  unfold feed_before. pose proof (str_le_total a.2 b.2) as Hs. apply orb_true_iff in Hs.
  rewrite !orb_true_iff, !andb_true_iff, !Z.ltb_lt, !Z.eqb_eq.
  destruct (Z.lt_total a.1 b.1) as [?|[?|?]]; [tauto| |tauto]. naive_solver.
Qed.
Lemma feed_before_antisym a b : feed_before a b = true -> feed_before b a = true -> a = b.
Proof.
  unfold feed_before. rewrite !orb_true_iff, !andb_true_iff, !Z.ltb_lt, !Z.eqb_eq. destruct a, b; cbn.
  intros [?|[-> Ha]] [?|[? Hb]]; try lia. f_equal. by apply str_le_antisym.
Qed.

Section order.
Context (s : SortOrder) (w : ConfDB).
Lemma before_trans a b c : before s w a b = true -> before s w b c = true -> before s w a c = true.
Proof.
  unfold before. rewrite !orb_true_iff, !andb_true_iff, !Nat.ltb_lt, !Nat.eqb_eq.
  intros [H1|[H1 Hi]] [H2|[H2 Hj]]; try (left; lia). right. split; [lia|by eapply feed_before_trans].
Qed.
Lemma before_total a b : before s w a b || before s w b a = true.
Proof.
  unfold before. pose proof (feed_before_total (position a) (position b)) as Hs. apply orb_true_iff in Hs.
  rewrite !orb_true_iff, !andb_true_iff, !Nat.ltb_lt, !Nat.eqb_eq.
  destruct (Nat.lt_total (sort_score s w a) (sort_score s w b)) as [?|[?|?]]; [tauto| |tauto]. naive_solver.
Qed.
Lemma before_antisym a b : before s w a b = true -> before s w b a = true -> position a = position b.
Proof.
  unfold before. rewrite !orb_true_iff, !andb_true_iff, !Nat.ltb_lt, !Nat.eqb_eq.
  intros [?|[? Ha]] [?|[? Hb]]; try lia. by apply feed_before_antisym.
Qed.
End order.

(** The position in a cursor selects what follows its row. *)
Lemma keep_after x b t : c_created_at x = us_of t ->
  ((position b).1 <? us_of t) || (((position b).1 =? us_of t) && negb (str_le (c_id x) (position b).2))
  = negb (feed_before (position b) (position x)).
Proof.
  intros Hx. unfold feed_before, position. cbn [fst snd]. rewrite Hx.
  destruct (Z.ltb_spec (us_of t) (c_created_at b)), (Z.eqb_spec (c_created_at b) (us_of t)),
    (Z.ltb_spec (c_created_at b) (us_of t)); cbn; try lia; done.
Qed.

Lemma js_date_us t : js_date (us_of t) = t.
Proof. unfold js_date, us_of. by apply Z.div_mul. Qed.
Lemma iso_text_truthy t : json_truthy (JStr (toISOString t)) = true.
Proof. reflexivity. Qed.

Section pages.
Context (Hdates : forall t, year_four t -> Date_parse (toISOString t) = Some t).
Context (dto : GetConfessionsDto) (w : ConfDB) (Hw : walkable (feed_sort dto) w) (Hlimit : (1 <= feed_limit dto)%nat).
Abbreviation L := (visible_feed dto w).
Abbreviation limit := (feed_limit dto).

(** The cursor selects what is left of the feed after [n] confessions. *)
Definition selects (cursor : option string) (n : nat) : Prop :=
  exists keep off,
    applyFeedCursor Date_parse uuid_of (feed_sort dto) cursor (dto_page dto) limit = Some (keep, off) /\
    skipn off (insertion_sort (before (feed_sort dto) w)
      (List.filter (fun c => in_feed (dto_gender dto) w c && keep (position c)) (all_rows w))) = skipn n L /\
    (feed_sort dto <> NEWEST -> off = n).

Lemma elem_of_feed c : c ∈ L -> exists k, rows w !! k = Some c.
Proof using.
  unfold visible_feed. rewrite elem_of_insertion_sort, list_elem_of_In. intros [Hc _]%filter_In.
  by apply elem_of_all_rows, list_elem_of_In.
Qed.

Lemma NoDup_feed_ids : NoDup (map c_id L).
Proof using Hw.
  unfold visible_feed. rewrite insertion_sort_perm.
  assert (NoDup (map c_id (all_rows w))) as Hall.
  { unfold all_rows. rewrite map_map.
    assert (map (fun p : string * AnonymousConfession => c_id p.2) (map_to_list (rows w)) = map fst (map_to_list (rows w))) as ->.
    { apply map_ext_in. intros [k c] Hk%list_elem_of_In%elem_of_map_to_list. by apply (wk_keyed _ _ Hw). }
    apply NoDup_fst_map_to_list. }
  induction (all_rows w) as [|c l IH]; cbn in *; [constructor|]. apply NoDup_cons in Hall as [Hc Hl].
  destruct (in_feed _ w c); cbn; [|by apply IH]. apply NoDup_cons. split; [|by apply IH].
  intros (c' & Hid & Hc')%list_elem_of_fmap. apply Hc. rewrite Hid. apply list_elem_of_fmap_2.
  apply list_elem_of_In, filter_In in Hc' as [Hc' _]. by apply list_elem_of_In.
Qed.
Lemma NoDup_feed : NoDup L.
Proof using Hw. eapply NoDup_fmap_1, NoDup_feed_ids. Qed.

(** The position of the last confession of a page selects the rest. *)
Lemma selects_newest n x : feed_sort dto = NEWEST -> L !! n = Some x ->
  selects (Some (encodeFeedCursor {| row_id := c_id x; row_created_at := AtDate (js_date (c_created_at x)) |})) (S n).
Proof using Hw Hdates.
  intros Hs Hx. destruct (elem_of_feed x) as [k Hk]; [by eapply list_elem_of_lookup_2|].
  destruct (wk_ms _ _ Hw Hs k x Hk) as (t & Ht & Hxt). pose proof (wk_uuid _ _ Hw Hs k x Hk) as Hu.
  set (row := {| row_id := c_id x; row_created_at := AtDate (js_date (c_created_at x)) |}).
  pose proof (decode_encodeCursor _ (position_ok row)) as Hdec.
  change (decodeCursor (Some (encodeFeedCursor row)) = Some (position_json (toFeedCursorPosition row))) in Hdec.
  assert (applyFeedCursor Date_parse uuid_of NEWEST (Some (encodeFeedCursor row)) (dto_page dto) limit
          = Some (fun r => (r.1 <? us_of t) || ((r.1 =? us_of t) && negb (str_le (c_id x) r.2)), 0%nat)) as Happ.
  { unfold applyFeedCursor. rewrite Hdec. unfold row. rewrite Hxt, js_date_us.
    transitivity (keyset_sql uuid_of (Date_parse (toISOString t), c_id x) ≫= fun keep => Some (keep, 0%nat)); [reflexivity|].
    unfold keyset_sql. cbn [fst snd]. rewrite Hdates by done. simpl. by rewrite Hu. }
  unfold selects. rewrite Hs, Happ. eexists _, 0%nat.
  split; [done|]. split; [|done]. cbn [skipn]. rewrite filter_andb, <- filter_insertion_sort by (apply before_total || apply before_trans).
  assert (L = insertion_sort (before NEWEST w) (List.filter (in_feed (dto_gender dto) w) (all_rows w))) as HL
    by (unfold visible_feed; by rewrite Hs).
  rewrite <- HL. rewrite <- (filter_after (before NEWEST w) (before_total NEWEST w) n x L).
  - apply List.filter_ext. intros b. exact (keep_after x b t Hxt).
  - intros y Hy Hxy Hyx. pose proof (before_antisym _ _ _ _ Hyx Hxy) as Hp. injection Hp as _ Hid.
    destruct (elem_of_feed y Hy) as [k' Hk']. pose proof (wk_keyed _ _ Hw _ _ Hk'). pose proof (wk_keyed _ _ Hw _ _ Hk).
    congruence.
  - apply NoDup_feed.
  - rewrite HL. apply insertion_sort_sorted; [apply before_total|apply before_trans].
  - done.
Qed.

Lemma not_newest {A} (s : SortOrder) (a b : A) :
  s <> NEWEST -> match s with NEWEST => a | TRENDING | MOST_DISCUSSED => b end = b.
Proof using. by destruct s. Qed.

(** In the other orders the cursor counts. *)
Lemma selects_offset i n : feed_sort dto <> NEWEST -> selects (Some (offset_cursor i (Z.of_nat n))) n.
Proof using Hw Hlimit Hdates.
  intros Hs. exists (fun _ => true), n.
  assert (applyFeedCursor Date_parse uuid_of (feed_sort dto) (Some (offset_cursor i (Z.of_nat n))) (dto_page dto) limit
          = Some (fun _ => true, n)) as ->.
  { unfold applyFeedCursor, offset_cursor. rewrite decode_encodeCursor by apply offset_ok.
    change (Some (JObj [("id", JStr i); ("offset", JNum (num_of_Z (Z.of_nat n)))]) ≫= json_get "offset")
      with (Some (JNum (num_of_Z (Z.of_nat n)))).
    rewrite as_integer_Z, (proj2 (Z.leb_le 0 _)), Nat2Z.id by lia. by destruct (feed_sort dto). }
  split; [done|]. split; [|done]. f_equal. unfold visible_feed. f_equal. apply List.filter_ext.
  intros c. apply andb_true_r.
Qed.

Lemma selects_first : dto_cursor dto = None -> (default 1 (dto_page dto) <= 1)%nat -> selects (dto_cursor dto) 0.
Proof using Hw Hlimit Hdates.
  intros Hc Hp. exists (fun _ => true), 0%nat. split; [|split; [|done]].
  - unfold applyFeedCursor. rewrite Hc. destruct (dto_page dto) as [[|[|p]]|]; cbn in Hp; [..|lia|];
      by destruct (feed_sort dto).
  - f_equal. unfold visible_feed. f_equal. apply List.filter_ext. intros c. apply andb_true_r.
Qed.

(** A row is shown with its own id. *)
Lemma shown_ids l : (forall c, c ∈ l -> c ∈ L) -> exists data,
  map_outcome (shown aesKey slim w) l = Ok data /\ map (json_get "id") data = map (fun c => Some (JStr (c_id c))) l.
Proof using Hw Hlimit Hdates.
  induction l as [|c l IH]; intros Hl; [by exists []|]. destruct IH as (data & Hdata & Hids); [set_solver|].
  destruct (elem_of_feed c) as [k Hk]; [set_solver|]. destruct (wk_readable _ _ Hw k c Hk) as [m Hm].
  cbn [map_outcome map]. unfold shown at 1. rewrite Hm, Hdata. eexists. split; [done|]. cbn [map]. by rewrite Hids.
Qed.

(** One page: the next confessions, and a cursor to the rest if there is any. *)
Lemma one_page n : selects (dto_cursor dto) n -> exists data next,
  feed_page dto w = Ok (CursorPaginatedResponseDto data next (limit <? length (skipn n L))%nat limit) /\
  map (json_get "id") data = map (fun c => Some (JStr (c_id c))) (firstn limit (skipn n L)) /\
  if (limit <? length (skipn n L))%nat then exists c, next = Some c /\ selects (Some c) (n + limit) else next = None.
Proof using Hw Hlimit Hdates.
  intros (keep & off & Happ & Hsel & Hoff). unfold Feed.feed_page, page_of. rewrite Happ. unfold select. rewrite Hsel.
  set (rest := skipn n L) in *.
  assert ((limit <? length (firstn (limit + 1) rest))%nat = (limit <? length rest)%nat) as Hmore.
  { apply eq_bool_prop_intro. rewrite !Is_true_true, !Nat.ltb_lt, length_firstn. lia. }
  rewrite Hmore.
  assert ((if (limit <? length rest)%nat then firstn limit (firstn (limit + 1) rest) else firstn (limit + 1) rest)
          = firstn limit rest) as ->.
  { destruct (Nat.ltb_spec limit (length rest)); [by rewrite firstn_firstn, Nat.min_l by lia|].
    by rewrite !firstn_all2 by lia. }
  destruct (shown_ids (firstn limit rest)) as (data & -> & Hids).
  { intros c Hc%elem_of_firstn%elem_of_skipn. done. }
  eexists data, _. split; [done|]. split; [done|]. unfold buildFeedNextCursor.
  destruct (Nat.ltb_spec limit (length rest)) as [Hlt|Hge].
  - rewrite (proj2 (Nat.leb_gt _ _)) by (rewrite length_firstn; lia).
    assert (exists x, L !! (n + (limit - 1))%nat = Some x) as [x Hx].
    { apply lookup_lt_is_Some. subst rest. rewrite length_skipn in Hlt. lia. }
    assert (firstn (limit + 1) rest !! (limit - 1)%nat = Some x) as ->.
    { rewrite lookup_take_lt by lia. exact (eq_trans (lookup_drop L n (limit - 1)) Hx). }
    eexists. split; [done|]. destruct (decide (feed_sort dto = NEWEST)) as [Hs|Hs].
    + rewrite Hs. replace (n + limit)%nat with (S (n + (limit - 1))) by lia. by apply selects_newest.
    + rewrite (Hoff Hs), not_newest by done. apply (selects_offset (c_id x) (n + limit) Hs).
  - by rewrite (proj2 (Nat.leb_le _ _)) by (rewrite length_firstn; lia).
Qed.
End pages.

Lemma run_walk (Hdates : forall t, year_four t -> Date_parse (toISOString t) = Some t) w fuel : forall dto w0 n,
  walkable (feed_sort dto) w -> (1 <= feed_limit dto)%nat -> selects dto w (dto_cursor dto) n ->
  same_tables w w0 -> coherent w0 -> (length (skipn n (visible_feed dto w)) < fuel)%nat ->
  exists js w1, run (feed_walk fuel dto) w0 = (Ok js, w1) /\
    map (json_get "id") js = map (fun c => Some (JStr (c_id c))) (skipn n (visible_feed dto w)) /\
    same_tables w w1 /\ coherent w1.
Proof.
  induction fuel as [|fuel IH]; intros dto w0 n Hw Hlimit Hsel Hsame Hco Hfuel; [lia|].
  destruct (one_page Hdates dto w Hw Hlimit n Hsel) as (data & next & Hpage & Hids & Hnext).
  destruct (run_load dto w0 _ Hco (eq_trans (feed_page_same dto w w0 Hsame) Hpage)) as (w1 & Hrun & Hsame1 & Hco1).
  cbn [feed_walk]. rewrite run_bind. fold (CursorPaginatedResponseDto data next (feed_limit dto <? length (skipn n (visible_feed dto w)))%nat (feed_limit dto)) in Hrun.
  rewrite Hrun. clear Hrun Hpage. unfold CursorPaginatedResponseDto at 1.
  change (json_get "nextCursor" _) with (Some (opt_json JStr next)).
  pose proof (same_tables_trans _ _ _ Hsame Hsame1) as Hsame2.
  destruct (Nat.ltb_spec (feed_limit dto) (length (skipn n (visible_feed dto w)))) as [Hlt|Hge].
  - destruct Hnext as (c & -> & Hc). cbn [opt_json]. rewrite run_bind.
    destruct (IH (next_dto dto c) w1 (n + feed_limit dto)%nat Hw Hlimit Hc Hsame2 Hco1) as (js & w2 & Hr & Hjs & Hs2 & Hc2).
    { rewrite length_skipn in *. change (visible_feed (next_dto dto c) w) with (visible_feed dto w). lia. }
    rewrite Hr. exists (data ++ js), w2. split; [done|]. split; [|done].
    rewrite map_app, Hids, Hjs, <- map_app. f_equal.
    change (visible_feed (next_dto dto c) w) with (visible_feed dto w).
    rewrite <- (firstn_skipn (feed_limit dto) (skipn n (visible_feed dto w))) at 2.
    by rewrite skipn_skipn, Nat.add_comm.
  - subst next. cbn [opt_json]. exists data, w1. split; [done|]. split; [|done].
    by rewrite Hids, firstn_all2.
Qed.

(** C9. The feed is read exactly. A client that follows the cursors from the first page,
    whatever pages of the feed are cached, collects the confessions the feed shows,
    each once, in the order of the feed, and stops; as long as the tables do not
    change and the rows were created on a millisecond. *)
Theorem feed_walk_exact (Hdates : forall t, year_four t -> Date_parse (toISOString t) = Some t) dto w :
  walkable (feed_sort dto) w -> (1 <= feed_limit dto)%nat ->
  dto_cursor dto = None -> (default 1 (dto_page dto) <= 1)%nat -> coherent w ->
  exists js w', run (feed_walk (S (length (visible_feed dto w))) dto) w = (Ok js, w') /\
    map (json_get "id") js = map (fun c => Some (JStr (c_id c))) (visible_feed dto w) /\
    NoDup (map c_id (visible_feed dto w)) /\
    (forall c, c ∈ visible_feed dto w <-> c ∈ all_rows w /\ in_feed (dto_gender dto) w c = true).
Proof.
  intros Hw Hlimit Hcur Hp Hco. assert (same_tables w w) as Hrefl by (exists (cache w); by destruct w).
  destruct (run_walk Hdates w (S (length (visible_feed dto w))) dto w 0 Hw Hlimit (selects_first Hdates dto w Hw Hlimit Hcur Hp) Hrefl Hco)
    as (js & w1 & Hr & Hjs & _); [rewrite length_skipn; lia|].
  exists js, w1. split; [done|]. split; [done|]. split; [by apply NoDup_feed_ids|].
  intros c. unfold visible_feed. rewrite elem_of_insertion_sort, !list_elem_of_In. apply filter_In.
Qed.

(** The feed never warns: the warning depends on a column the query does not select and
    on a status the query leaves out. *)
Theorem feed_never_warns g (w : ConfDB) c rs :
  in_feed g w c = true -> json_get "contentWarning" (slim c rs) = Some (JBool false).
Proof.
  unfold in_feed. intros H. assert (c_moderationStatus c = APPROVED \/ c_moderationStatus c = PENDING) as Hs.
  { destruct (bool_decide (c_moderationStatus c = APPROVED)) eqn:Ha; [left; by apply bool_decide_eq_true in Ha|].
    destruct (bool_decide (c_moderationStatus c = PENDING)) eqn:Hp; [right; by apply bool_decide_eq_true in Hp|].
    cbn in H. rewrite andb_false_r in H. done. }
  change (json_get "contentWarning" (slim c rs))
    with (Some (JBool (false || (status_str (c_moderationStatus c) =s? "flagged")))).
  by destruct Hs as [-> | ->].
Qed.

(** No tag has a feed: for a known tag and an allowed page size, the request fails in
    the database. *)
Theorem tag_feed_fails tagName cursor page limit sort (w : ConfDB) :
  (1 <= limit <= 100)%nat -> (forall k now, cache_get k now (cache w) = None) ->
  (run (loadConfessionsByTag true tagName cursor page limit sort) w).1 = Exn QueryFailed.
Proof.
  intros Hl Hcache. unfold loadConfessionsByTag, cache_service_get.
  destruct (Nat.ltb_spec limit 1), (Nat.ltb_spec 100 limit); try lia. cbn [orb negb]. run_simp. rewrite Hcache. by destruct (cache_up w).
Qed.
End walk.

(** ** Concrete walks *)

Definition ex_small : GetConfessionsDto := ex_dto <| dto_limit := Some 1%nat |>.
Definition ex_walk (w : ConfDB (C := map_cache)) : list (option json) :=
  match (run (feed_walk (aes := plain_cbc) ex_key parseISO Some 5 ex_small) w).1 with
  | Ok js => map (json_get "id") js
  | Exn _ => []
  end.

Lemma feed_walk_exact_witness : exists js w',
  run (feed_walk (aes := plain_cbc) ex_key parseISO Some 3 ex_small) ex_two = (Ok js, w') /\
  map (json_get "id") js = [Some (JStr "c2"); Some (JStr "c1")].
Proof.
  assert (forall k c, rows ex_two !! k = Some c -> c = ex_row "c1" 5000000 "hello" /\ k = "c1" \/ c = ex_row "c2" 6000000 "world" /\ k = "c2") as Hrows.
  { intros k c Hk. apply elem_of_list_to_map_2 in Hk. set_solver. }
  assert (walkable (aes := plain_cbc) ex_key Some (feed_sort ex_small) ex_two) as Hw.
  { constructor.
    - intros k c [[-> ->]|[-> ->]]%Hrows; reflexivity.
    - intros k c [[-> ->]|[-> ->]]%Hrows; eexists; vm_compute; reflexivity.
    - done.
    - intros _ k c [[-> ->]|[-> ->]]%Hrows; [exists 5000|exists 6000]; split; vm_compute; intuition discriminate. }
  assert (coherent (aes := plain_cbc) ex_key parseISO Some ex_two) as Hco.
  { intros dto now v _ Hv. unfold cache_get, map_cache_manager, map_get in Hv. cbn [cache ex_two ex_world] in Hv. by rewrite lookup_empty in Hv. }
  destruct (feed_walk_exact (aes := plain_cbc) ex_key parseISO Some parse_toISOString ex_small ex_two Hw ltac:(cbn; lia)
    eq_refl ltac:(cbn; lia) Hco) as (js & w' & Hr & Hids & _).
  assert (visible_feed ex_small ex_two = [ex_row "c2" 6000000 "world"; ex_row "c1" 5000000 "hello"]) as HL
    by (vm_compute; reflexivity).
  rewrite HL in Hr, Hids. exists js, w'. split; [exact Hr|exact Hids].
Defined.

(** Confessions of one millisecond are lost between pages. The position in a cursor
    has milliseconds, the column has microseconds: after a page that ends with one of
    two confessions of the same millisecond, the other is not on the next one. *)
Theorem same_millisecond_skipped :
  let w := ex_world [ex_row "c1" 5000100 "hello"; ex_row "c2" 5000900 "world"] in
  map c_id (visible_feed ex_small w) = ["c2"; "c1"] /\ ex_walk w = [Some (JStr "c2")].
Proof. split; vm_compute; reflexivity. Qed.
