(* ===== verification/KeyRotation.v ===== *)
(** * Rotation of the master key

    [src/xconfess-backend/src/key-rotation/key-rotation.service.ts]: every data key
    of the confessions is rewrapped under the current master key, batch by batch.
    The world is the columns of the confessions it reads and the audit log. *)
From S2P Require Import Prelude Effects Base64 Encryption.

(** [src confession/entities/confession.entity.ts:140-151 AnonymousConfession]: the
    columns of the envelope. *)
Record Confession := {
  cf_id : string; cf_encryptedContent : option string; cf_wrappedDek : option string;
  cf_keyVersion : option string; cf_migrationStatus : option string }.
#[export] Instance eta_RotConfession : Eta Confession := fun c => {|
  cf_id := cf_id c; cf_encryptedContent := cf_encryptedContent c; cf_wrappedDek := cf_wrappedDek c;
  cf_keyVersion := cf_keyVersion c; cf_migrationStatus := cf_migrationStatus c |}.

Inductive RotationAudit := KEY_ROTATION_STARTED | KEY_ROTATION_FAILURE (confessionId : string) | KEY_ROTATION_COMPLETED.
Record RotationDB := { confessions : gmap string Confession; audit : list RotationAudit }.
#[export] Instance eta_RotationDB : Eta RotationDB := fun w =>
  {| confessions := confessions w; audit := audit w |}.

(** [src key-rotation/key-rotation.service.ts:9-20 RotationResult] *)
Record RotationResult := {
  total : nat; rotated : nat; alreadyCurrent : nat; failed : nat;
  quarantined : list string; lastProcessedId : option string }.
#[export] Instance eta_RotationResult : Eta RotationResult := fun r => {|
  total := total r; rotated := rotated r; alreadyCurrent := alreadyCurrent r; failed := failed r;
  quarantined := quarantined r; lastProcessedId := lastProcessedId r |}.
Definition no_result : RotationResult := {|
  total := 0; rotated := 0; alreadyCurrent := 0; failed := 0; quarantined := []; lastProcessedId := None |}.

Section rotation.
Context `{!AesGcm} (svc : EncryptionService).
(** The nonce that rewrapping the key of a confession draws. *)
Context (nonce : string -> string).
(** [src key-rotation/key-rotation.service.ts:22-26 RotationOptions], with their
    defaults. *)
Context (batchSize : nat) (dryRun : bool) (resumeAfterId : option string).

Abbreviation action := (prog RotationDB crypto_error).
Definition log (a : RotationAudit) : action unit := writes (fun w => w <| audit ::= (fun l => l ++ [a]) |>).

(** The WHERE clause; the resumption point counts for the first batch. *)
Definition wrapped (c : Confession) : bool :=
  truthy_opt (cf_wrappedDek c) && bool_decide (cf_migrationStatus c = Some "completed").
Definition selected (batchNumber : nat) (c : Confession) : bool :=
  wrapped c &&
  match resumeAfterId with
  | Some r => negb (truthy r && (batchNumber =? 1)%nat) || negb (str_le (cf_id c) r)
  | None => true
  end.
Definition by_id (a b : Confession) : bool := str_le (cf_id a) (cf_id b).
Definition conf_rows (w : RotationDB) : list Confession := map snd (map_to_list (confessions w)).
Definition next_batch (batchNumber offset : nat) (w : RotationDB) : list Confession :=
  firstn batchSize (skipn offset (insertion_sort by_id (List.filter (selected batchNumber) (conf_rows w)))).

Definition payload_of (c : Confession) : EnvelopePayload := {|
  encryptedContent := default "" (cf_encryptedContent c); wrappedDek := default "" (cf_wrappedDek c);
  keyVersion := default "" (cf_keyVersion c) |}.
Definition with_payload (p : EnvelopePayload) (c : Confession) : Confession :=
  c <| cf_wrappedDek := Some (wrappedDek p) |> <| cf_keyVersion := Some (keyVersion p) |>.

(** [src key-rotation/key-rotation.service.ts:113-160 rotateMasterKey]: the body of
    the loop over a batch. *)
Definition rotate_one (confession : Confession) (result : RotationResult) : action RotationResult :=
  if isCurrentVersion svc (default "" (cf_keyVersion confession)) then Ret (result <| alreadyCurrent ::= S |>)
  else
    match rewrapDek svc (nonce (cf_id confession)) (payload_of confession) with
    | Ok p =>
        do* (if dryRun then Ret tt
             else writes (fun w => w <| confessions ::= alter (with_payload p) (cf_id confession) |>)) in
        Ret (result <| rotated ::= S |>)
    | Exn _ =>
        do* log (KEY_ROTATION_FAILURE (cf_id confession)) in
        Ret (result <| failed ::= S |> <| quarantined ::= (fun l => l ++ [cf_id confession]) |>)
    end.

(** [src key-rotation/key-rotation.service.ts:85-169 rotateMasterKey]: the loop, no
    value when the fuel is out. *)
Fixpoint rotate_batches (fuel batchNumber offset : nat) (result : RotationResult) : action (option RotationResult) :=
  match fuel with
  | O => Ret None
  | S fuel' =>
      let* batch := reads (next_batch batchNumber offset) in
      match last batch with
      | None => Ret (Some result)
      | Some final =>
          let* result := fold_each batch rotate_one (result <| total ::= Nat.add (length batch) |>) in
          rotate_batches fuel' (S batchNumber) (offset + batchSize) (result <| lastProcessedId := Some (cf_id final) |>)
      end
  end.

(** [src key-rotation/key-rotation.service.ts:48-202 rotateMasterKey] *)
Definition rotateMasterKey (fuel : nat) : action (option RotationResult) :=
  do* log KEY_ROTATION_STARTED in
  let* result := rotate_batches fuel 1 0 no_result in
  do* log KEY_ROTATION_COMPLETED in
  Ret result.

(** [src key-rotation/key-rotation.service.ts:207-214 getRotationPendingCount] *)
Definition getRotationPendingCount (w : RotationDB) : nat :=
  length (List.filter (fun c => bool_decide (is_Some (cf_wrappedDek c))
                             && bool_decide (cf_migrationStatus c = Some "completed")) (conf_rows w)).

(** ** What a rotation does to one row *)
Inductive RowFate := IsCurrent | Rotates (p : EnvelopePayload) | Fails.
Definition fate (c : Confession) : RowFate :=
  if isCurrentVersion svc (default "" (cf_keyVersion c)) then IsCurrent
  else match rewrapDek svc (nonce (cf_id c)) (payload_of c) with Ok p => Rotates p | Exn _ => Fails end.
Definition rotated_row (c : Confession) : Confession :=
  match fate c with Rotates p => if dryRun then c else with_payload p c | _ => c end.
Definition tally (result : RotationResult) (c : Confession) : RotationResult :=
  match fate c with
  | IsCurrent => result <| alreadyCurrent ::= S |>
  | Rotates _ => result <| rotated ::= S |>
  | Fails => result <| failed ::= S |> <| quarantined ::= (fun l => l ++ [cf_id c]) |>
  end.

Definition row_ok (w : RotationDB) : Prop := forall i c, confessions w !! i = Some c -> cf_id c = i.

Lemma rotated_row_id c : cf_id (rotated_row c) = cf_id c.
Proof. unfold rotated_row. destruct (fate c); [done| |done]. by destruct dryRun. Qed.

Lemma run_rotate_one c result w :
  confessions w !! cf_id c = Some c ->
  exists w', run (rotate_one c result) w = (Ok (tally result c), w')
    /\ confessions w' = <[cf_id c := rotated_row c]> (confessions w).
Proof.
  intros Hc. unfold rotate_one, tally, rotated_row, fate.
  destruct (isCurrentVersion _ _); [exists w; split; [done|by rewrite insert_id]|].
  destruct (rewrapDek _ _ _) as [p|e]; run_simp.
  - destruct dryRun; run_simp; eexists; (split; [done|]); [by rewrite insert_id|]. cbn. by apply alter_as_insert.
  - eexists. split; [done|]. cbn. by rewrite insert_id.
Qed.

(** Rows [l] of the table rotated, the others as they were. *)
Definition rotate_rows (l : list Confession) (c : Confession) : Confession :=
  if includes (cf_id c) (map cf_id l) then rotated_row c else c.

Lemma run_rotate_batch l result w :
  row_ok w -> NoDup (map cf_id l) -> (forall c, c ∈ l -> confessions w !! cf_id c = Some c) ->
  exists w', run (fold_each l rotate_one result) w = (Ok (foldl tally result l), w')
    /\ confessions w' = rotate_rows l <$> confessions w.
Proof.
  revert result w; induction l as [|c l IH]; intros result w Hok Hnd Hl; cbn [fold_each foldl].
  { exists w. split; [done|]. apply map_eq. intros i. rewrite lookup_fmap. by destruct (confessions w !! i). }
  apply NoDup_cons in Hnd as [Hnew Hnd]. rewrite run_bind.
  destruct (run_rotate_one c result w) as (w1 & -> & Hw1); [apply Hl; left|].
  destruct (IH (tally result c) w1) as (w' & -> & Hw').
  { intros i d. rewrite Hw1, lookup_insert_Some. intros [[<- <-]|[_ Hd]]; [apply rotated_row_id|by apply Hok]. }
  { done. }
  { intros d Hd. rewrite Hw1, lookup_insert_ne; [by apply Hl; right|]. intros Heq. apply Hnew. rewrite Heq.
    by apply list_elem_of_fmap_2. }
  exists w'. split; [done|]. rewrite Hw', Hw1. apply map_eq. intros i. rewrite !lookup_fmap.
  destruct (decide (cf_id c = i)) as [<-|Hne].
  - rewrite lookup_insert_eq, (Hl c) by left. cbn. unfold rotate_rows. rewrite rotated_row_id. cbn [map includes existsb].
    rewrite str_eqb_refl. cbn [orb]. destruct (includes (cf_id c) (map cf_id l)) eqn:Hin; [|done].
    apply includes_spec in Hin. done.
  - rewrite lookup_insert_ne by done. destruct (confessions w !! i) as [d|] eqn:Hd; [|done]. cbn.
    f_equal. unfold rotate_rows. cbn [map includes existsb]. rewrite (Hok i d Hd).
    rewrite (proj2 (str_eqb_neq i (cf_id c))) by congruence. done.
Qed.

Definition rotates (c : Confession) : bool := match fate c with Rotates _ => true | _ => false end.
Definition fails (c : Confession) : bool := match fate c with Fails => true | _ => false end.
Definition is_current (c : Confession) : bool := match fate c with IsCurrent => true | _ => false end.

(** The figures of a result, after the rows [l]. *)
Record counts_of (l : list Confession) (n : nat) (r r' : RotationResult) : Prop := {
  c_total : total r' = (total r + n)%nat;
  c_rotated : rotated r' = (rotated r + length (List.filter rotates l))%nat;
  c_current : alreadyCurrent r' = (alreadyCurrent r + length (List.filter is_current l))%nat;
  c_failed : failed r' = (failed r + length (List.filter fails l))%nat;
  c_quarantined : quarantined r' = quarantined r ++ map cf_id (List.filter fails l);
}.

Lemma fate_counts l :
  length l = (length (List.filter rotates l) + length (List.filter is_current l) + length (List.filter fails l))%nat.
Proof.
  induction l as [|c l IH]; [done|].
  assert (rotates c = match fate c with Rotates _ => true | _ => false end) as Er by done.
  assert (fails c = match fate c with Fails => true | _ => false end) as Ef by done.
  assert (is_current c = match fate c with IsCurrent => true | _ => false end) as Ec by done.
  cbn [List.filter]. rewrite Er, Ef, Ec. destruct (fate c); cbn; lia.
Qed.
Lemma tally_counts l r : counts_of l 0 r (foldl tally r l).
Proof.
  revert r; induction l as [|c l IH]; intros r; cbn [foldl]; [split; cbn; rewrite ?app_nil_r; lia || done|].
  destruct (IH (tally r c)) as [Ht Hr Hc Hf Hq]. revert Ht Hr Hc Hf Hq. unfold tally.
  assert (rotates c = match fate c with Rotates _ => true | _ => false end) as Er by done.
  assert (fails c = match fate c with Fails => true | _ => false end) as Ef by done.
  assert (is_current c = match fate c with IsCurrent => true | _ => false end) as Ec by done.
  destruct (fate c); intros Ht Hr Hc Hf Hq; cbn in Ht, Hr, Hc, Hf, Hq;
    split; cbn [List.filter]; rewrite ?Er, ?Ef, ?Ec, ?Ht, ?Hr, ?Hc, ?Hf, ?Hq; cbn; rewrite <- ?app_assoc; lia || done.
Qed.
Lemma counts_app l l' n n' r r' r'' :
  counts_of l n r r' -> counts_of l' n' r' r'' -> counts_of (l ++ l') (n + n') r r''.
Proof.
  intros [Ht Hr Hc Hf Hq] [Ht' Hr' Hc' Hf' Hq'].
  split; rewrite ?List.filter_app, ?length_app, ?map_app, ?Ht', ?Hr', ?Hc', ?Hf', ?Hq', ?Ht, ?Hr, ?Hc, ?Hf, ?Hq, <- ?app_assoc;
    lia || done.
Qed.

Context (nonce_length : forall i, String.length (nonce i) = 12%nat) (batch_pos : (0 < batchSize)%nat)
        (no_resume : resumeAfterId = None).

(** A rewrapped key is not empty, so a rotated row stays selected. *)
Lemma rewrap_nonempty iv p p' :
  String.length iv = 12%nat -> isCurrentVersion svc (keyVersion p) = false ->
  rewrapDek svc iv p = Ok p' -> truthy (wrappedDek p') = true.
Proof using.
  intros Hiv Hc. unfold rewrapDek. unfold isCurrentVersion in Hc. rewrite Hc.
  destruct (masterKeys svc !! _) as [k|]; [|done]. destruct (aesgcmDecrypt k _) as [dek|]; [|done]. cbn [rbind].
  destruct (aesgcmEncrypt _ iv dek) as [data|] eqn:Hd; [|done]. cbn [rbind]. intros [= <-]. cbn [wrappedDek].
  unfold aesgcmEncrypt in Hd. destruct (_ =? _)%nat; [|done]. destruct (gcm_encrypt _ _ _) as [ct tag].
  injection Hd as <-. destruct iv as [|c1 [|c2 [|c3 iv]]]; try done.
Qed.

Lemma rotated_row_wrapped c : wrapped (rotated_row c) = wrapped c \/ truthy_opt (cf_wrappedDek c) = false.
Proof using nonce_length.
  unfold rotated_row, fate. destruct (isCurrentVersion _ _) eqn:Hc; [by left|].
  destruct (rewrapDek _ _ _) as [p|] eqn:Hp; [|by left]. destruct dryRun; [by left|].
  destruct (truthy_opt (cf_wrappedDek c)) eqn:Ht; [left|by right].
  unfold wrapped. cbn [cf_wrappedDek cf_migrationStatus with_payload set_field truthy_opt from_option].
  by rewrite (rewrap_nonempty _ (payload_of c) p (nonce_length _) Hc Hp), Ht.
Qed.

Section table.
Context (w0 : RotationDB) (Hok : row_ok w0).
Definition selection : list Confession := insertion_sort by_id (List.filter wrapped (conf_rows w0)).

Lemma selection_rows c : c ∈ selection -> confessions w0 !! cf_id c = Some c /\ wrapped c = true.
Proof using Hok.
  unfold selection. rewrite elem_of_insertion_sort, list_elem_of_In, filter_In. intros [Hin Hw].
  split; [|done]. unfold conf_rows in Hin. apply in_map_iff in Hin as ([i d] & <- & Hid).
  apply list_elem_of_In, elem_of_map_to_list in Hid. cbn. by rewrite (Hok i d Hid).
Qed.

Lemma selection_nodup : NoDup (map cf_id selection).
Proof using Hok.
  unfold selection. rewrite insertion_sort_perm.
  assert (NoDup (map cf_id (conf_rows w0))) as Hnd.
  { unfold conf_rows. rewrite map_map, (map_ext_in _ fst); [apply NoDup_fst_map_to_list|].
    intros [i c] Hin%list_elem_of_In%elem_of_map_to_list. by apply Hok. }
  induction (conf_rows w0) as [|c l IH]; cbn; [done|]. apply NoDup_cons in Hnd as [Hnew Hnd].
  destruct (wrapped c); cbn; [|auto]. apply NoDup_cons. split; [|auto].
  intros (d & Hd & [Hin _]%list_elem_of_In%filter_In)%list_elem_of_fmap. apply Hnew, list_elem_of_fmap.
  exists d. split; [done|by apply list_elem_of_In].
Qed.

(** The next batch, after the first [offset] rows have been rotated. *)
Lemma next_batch_spec n offset w :
  confessions w = rotate_rows (firstn offset selection) <$> confessions w0 ->
  next_batch n offset w = firstn batchSize (skipn offset selection).
Proof using Hok nonce_length no_resume.
  intros Hw. unfold next_batch. f_equal.
  assert (conf_rows w = map (rotate_rows (firstn offset selection)) (conf_rows w0)) as ->.
  { unfold conf_rows. rewrite Hw, map_to_list_fmap, !map_map. apply map_ext. by intros [i c]. }
  rewrite filter_map_comm.
  assert (forall c, cf_id (rotate_rows (firstn offset selection) c) = cf_id c) as Hid.
  { intros c. unfold rotate_rows. destruct (includes _ _); [apply rotated_row_id|done]. }
  assert (List.filter (fun c => selected n (rotate_rows (firstn offset selection) c)) (conf_rows w0)
          = List.filter wrapped (conf_rows w0)) as ->.
  { apply filter_ext_in. intros c Hc. unfold selected. rewrite no_resume, andb_true_r. unfold rotate_rows.
    destruct (includes _ _) eqn:Hin; [|done]. destruct (rotated_row_wrapped c) as [->|Hf]; [done|].
    apply includes_spec, list_elem_of_fmap in Hin as (d & Hd & Hin). apply elem_of_take in Hin as (m & Hm & _).
    apply list_elem_of_lookup_2, selection_rows in Hm as [Hm Hwd]. unfold conf_rows in Hc.
    apply in_map_iff in Hc as ([i c'] & <- & Hc). apply list_elem_of_In, elem_of_map_to_list in Hc. cbn in *.
    rewrite <- Hd, (Hok i c' Hc), Hc in Hm. injection Hm as ->. unfold wrapped in Hwd. by rewrite Hf in Hwd. }
  rewrite insertion_sort_map by (intros x y; unfold by_id; by rewrite !Hid). fold selection.
  rewrite skipn_map. transitivity (map id (skipn offset selection)); [|by rewrite map_id]. apply map_ext_in.
  intros c Hc%list_elem_of_In. unfold rotate_rows. destruct (includes _ _) eqn:Hin; [|done]. exfalso.
  apply includes_spec in Hin. pose proof selection_nodup as Hnd. rewrite <- (firstn_skipn offset selection), map_app in Hnd.
  apply NoDup_app in Hnd as (_ & Hdis & _). apply (Hdis _ Hin). by apply list_elem_of_fmap_2.
Qed.

Lemma rotate_rows_app l l' c :
  NoDup (map cf_id (l ++ l')) -> rotate_rows (l ++ l') c = rotate_rows l' (rotate_rows l c).
Proof using.
  rewrite map_app. intros (_ & Hdis & _)%NoDup_app. unfold rotate_rows. rewrite map_app.
  assert (includes (cf_id c) (map cf_id l ++ map cf_id l') = includes (cf_id c) (map cf_id l) || includes (cf_id c) (map cf_id l')) as ->
    by apply existsb_app.
  destruct (includes (cf_id c) (map cf_id l)) eqn:H1; cbn [orb]; [|done]. rewrite rotated_row_id.
  destruct (includes (cf_id c) (map cf_id l')) eqn:H2; [|done].
  apply includes_spec in H1, H2. by destruct (Hdis _ H1).
Qed.

(** The loop ends, with every selected row rotated. *)
Lemma run_rotate_batches fuel n offset result w :
  confessions w = rotate_rows (firstn offset selection) <$> confessions w0 ->
  (length selection - offset < fuel)%nat ->
  exists r w', run (rotate_batches fuel n offset result) w = (Ok (Some r), w')
    /\ confessions w' = rotate_rows selection <$> confessions w0
    /\ counts_of (skipn offset selection) (length (skipn offset selection)) result r.
Proof using Hok nonce_length no_resume batch_pos.
  revert n offset result w. induction fuel as [|fuel IH]; intros n offset result w Hw Hf; [lia|].
  cbn [rotate_batches]. rewrite run_bind, run_reads, (next_batch_spec n offset w Hw).
  set (batch := firstn batchSize (skipn offset selection)).
  assert (skipn offset selection = batch ++ skipn (offset + batchSize) selection) as Hsplit.
  { unfold batch. rewrite <- skipn_skipn, Nat.add_comm || rewrite Nat.add_comm, <- skipn_skipn. symmetry. apply firstn_skipn. }
  destruct (last batch) as [final|] eqn:Hlast.
  2: { apply last_None in Hlast.
    assert (skipn offset selection = []) as Hnil.
    { unfold batch in Hlast. destruct (skipn offset selection); [done|]. destruct batchSize; [lia|done]. }
    exists result, w. split; [done|]. rewrite Hnil. split; [|by apply tally_counts with (l := [])].
    rewrite Hw. rewrite <- (firstn_skipn offset selection) at 2. by rewrite Hnil, app_nil_r. }
  assert (batch <> []) as Hne by (intros Hb; rewrite Hb in Hlast; done).
  assert (NoDup (map cf_id (firstn offset selection ++ batch))) as Hnd.
  { pose proof selection_nodup as Hnd. rewrite <- (firstn_skipn offset selection), Hsplit, app_assoc, map_app in Hnd.
    by apply NoDup_app in Hnd as [Hnd _]. }
  rewrite run_bind.
  destruct (run_rotate_batch batch (result <| total ::= Nat.add (length batch) |>) w) as (w1 & Hrun & Hw1).
  { intros i c. rewrite Hw, lookup_fmap_Some. intros (d & <- & Hd). unfold rotate_rows.
    destruct (includes _ _); rewrite ?rotated_row_id; by apply Hok. }
  { rewrite map_app in Hnd. by apply NoDup_app in Hnd as (_ & _ & Hnd). }
  { intros c Hc. rewrite Hw, lookup_fmap. destruct (selection_rows c) as [-> _].
    { rewrite <- (firstn_skipn offset selection), Hsplit. set_solver. }
    cbn. f_equal. unfold rotate_rows. destruct (includes _ _) eqn:Hin; [|done]. apply includes_spec in Hin.
    rewrite map_app in Hnd. apply NoDup_app in Hnd as (_ & Hdis & _). destruct (Hdis _ Hin). by apply list_elem_of_fmap_2. }
  rewrite Hrun.
  destruct (IH (S n) (offset + batchSize)%nat (foldl tally (result <| total ::= Nat.add (length batch) |>) batch
              <| lastProcessedId := Some (cf_id final) |>) w1) as (r & w' & Hrun' & Hw' & Hcounts).
  { assert (firstn (offset + batchSize) selection = firstn offset selection ++ batch) as ->.
    { unfold batch. by rewrite take_take_drop. }
    rewrite Hw1, Hw. apply map_eq. intros i. rewrite !lookup_fmap. destruct (confessions w0 !! i) as [c|]; [|done].
    cbn. f_equal. by rewrite rotate_rows_app. }
  { assert (0 < length (skipn offset selection))%nat as Hpos by (rewrite Hsplit, length_app; destruct batch; [done|cbn; lia]).
    rewrite length_skipn in Hpos. lia. }
  exists r, w'. split; [exact Hrun'|]. split; [exact Hw'|]. rewrite Hsplit, length_app.
  eapply counts_app; [|exact Hcounts].
  destruct (tally_counts batch (result <| total ::= Nat.add (length batch) |>)) as [Ht Hr Hc Hfa Hq].
  split; cbn in *; rewrite ?Ht, ?Hr, ?Hc, ?Hfa, ?Hq; cbn; lia || done.
Qed.

Lemma selection_length : (length selection <= size (confessions w0))%nat.
Proof using.
  clear. unfold selection. rewrite (insertion_sort_perm by_id), filter_length_le. unfold conf_rows.
  by rewrite length_map, length_map_to_list.
Qed.

(** The row of a confession afterwards. *)
Lemma rotate_selection i c :
  confessions w0 !! i = Some c ->
  rotate_rows selection c = if wrapped c then rotated_row c else c.
Proof using Hok.
  intros Hi. pose proof (Hok i c Hi) as Hid. unfold rotate_rows. destruct (wrapped c) eqn:Hw.
  - assert (c ∈ selection) as Hin.
    { unfold selection. apply elem_of_insertion_sort, list_elem_of_In, filter_In. split; [|done].
      unfold conf_rows. apply in_map_iff. exists (i, c). split; [done|].
      by apply list_elem_of_In, elem_of_map_to_list. }
    by rewrite (proj2 (includes_spec _ _)) by (by apply list_elem_of_fmap_2).
  - destruct (includes _ _) eqn:Hin; [|done]. apply includes_spec, list_elem_of_fmap in Hin as (d & Hd & Hin).
    apply selection_rows in Hin as [Hrow Hwd]. rewrite <- Hd, Hid, Hi in Hrow. congruence.
Qed.
End table.

Context (wf : service_wf svc).

(** A rotated row holds the same content under the same data key. *)
Lemma rotated_row_content c :
  cf_encryptedContent (rotated_row c) = cf_encryptedContent c
  /\ decrypt svc (payload_of (rotated_row c)) = decrypt svc (payload_of c)
  /\ (dryRun = true -> rotated_row c = c)
  /\ (dryRun = false -> isCurrentVersion svc (default "" (cf_keyVersion (rotated_row c))) = true
                        \/ fails c = true /\ rotated_row c = c).
Proof using wf nonce_length.
  unfold rotated_row, fails, fate. destruct (isCurrentVersion svc (default "" (cf_keyVersion c))) eqn:Hc.
  { split_and!; [done..|]. by left. }
  destruct (rewrapDek svc (nonce (cf_id c)) (payload_of c)) as [p|e] eqn:Hp; [|split_and!; [done..|]; by right].
  destruct dryRun; [by split_and!|]. destruct (rewrap_decrypt svc wf _ _ _ (nonce_length _) Hp) as (He & Hv & Hd).
  split; [done|]. split; [|split; [done|]].
  - rewrite <- Hd. f_equal. unfold payload_of at 1. cbn. destruct p; cbn in *. by rewrite He.
  - intros _. left. cbn. rewrite Hv. apply str_eqb_refl.
Qed.
End rotation.

(** ** Properties *)

(** C20. The rotation ends, and loses nothing. With fuel for one batch more than there
    are rows it returns its result; every confession still has its content and
    decrypts as before; unless it is a dry run, which changes no row, every selected
    confession is now under the current master key, or is in quarantine, as it was,
    because its data key cannot be unwrapped; and the counts add up. *)
Theorem rotation_complete `{!AesGcm} svc nonce batchSize dryRun fuel w :
  service_wf svc -> (forall i, String.length (nonce i) = 12%nat) -> (0 < batchSize)%nat -> row_ok w ->
  (size (confessions w) < fuel)%nat ->
  exists r w', run (rotateMasterKey svc nonce batchSize dryRun None fuel) w = (Ok (Some r), w')
    /\ total r = length (List.filter wrapped (conf_rows w))
    /\ total r = (rotated r + alreadyCurrent r + failed r)%nat /\ failed r = length (quarantined r)
    /\ forall i c, confessions w !! i = Some c -> exists c', confessions w' !! i = Some c'
         /\ cf_encryptedContent c' = cf_encryptedContent c
         /\ decrypt svc (payload_of c') = decrypt svc (payload_of c)
         /\ (dryRun || negb (wrapped c) = true -> c' = c)
         /\ (dryRun = false -> wrapped c = true ->
              isCurrentVersion svc (default "" (cf_keyVersion c')) = true
              \/ c' = c /\ i ∈ quarantined r /\ exists e, rewrapDek svc (nonce i) (payload_of c) = Exn e).
Proof.
  intros Hwf Hn Hb Hok Hfuel. unfold rotateMasterKey, log. rewrite run_bind, run_writes.
  set (w0 := w <| audit ::= _ |>). pose proof (selection_length w0) as Hlen.
  destruct (run_rotate_batches svc nonce batchSize dryRun None Hn Hb eq_refl w0 Hok fuel 1 0 no_result w0)
    as (r & w1 & Hrun & Hw1 & [Ht Hr Hc Hf Hq]).
  { apply map_eq. intros i. rewrite lookup_fmap. by destruct (confessions w0 !! i). }
  { rewrite Nat.sub_0_r. exact (Nat.le_lt_trans _ _ _ Hlen Hfuel). }
  rewrite run_bind, Hrun, run_bind, run_writes. rewrite drop_0 in *. eexists r, _. split; [done|].
  rewrite Ht, Hr, Hc, Hf, Hq. cbn [no_result total rotated alreadyCurrent failed quarantined Nat.add app].
  split; [unfold selection; by rewrite (insertion_sort_perm by_id)|]. split; [|split].
  - pose proof (fate_counts svc nonce (selection w0)). lia.
  - by rewrite length_map.
  - intros i c Hi. exists (if wrapped c then rotated_row svc nonce dryRun c else c). split.
    { cbn. rewrite Hw1, lookup_fmap. change (confessions w0) with (confessions w). rewrite Hi. cbn. f_equal.
      by apply (rotate_selection svc nonce dryRun w0 Hok i). }
    destruct (wrapped c) eqn:Hw; [|by split_and!; try done; rewrite orb_true_r].
    destruct (rotated_row_content svc nonce dryRun Hn Hwf c) as (H1 & H2 & H3 & H4).
    split; [done|]. split; [done|]. split; [rewrite orb_false_r; exact H3|].
    intros Hdry _. destruct (H4 Hdry) as [Hcur|[Hfail Hsame]]; [by left|]. right. split; [done|].
    pose proof (Hok i c Hi) as Hid. split.
    + apply list_elem_of_fmap. exists c. split; [done|]. apply list_elem_of_In, filter_In. split; [|done].
      apply list_elem_of_In. unfold selection. apply elem_of_insertion_sort, list_elem_of_In, filter_In.
      split; [|done]. unfold conf_rows. apply in_map_iff. exists (i, c). split; [done|].
      by apply list_elem_of_In, elem_of_map_to_list.
    + unfold fails, fate in Hfail. rewrite Hid in Hfail.
      repeat case_match; simplify_eq; eauto.
Qed.

(** The number of confessions that await rotation does not fall when they are
    rotated: the query does not look at the version. *)
Theorem pending_count_unaffected `{!AesGcm} svc nonce batchSize fuel w r w' :
  (forall i, String.length (nonce i) = 12%nat) -> (0 < batchSize)%nat -> row_ok w -> (size (confessions w) < fuel)%nat ->
  run (rotateMasterKey svc nonce batchSize false None fuel) w = (Ok (Some r), w') ->
  getRotationPendingCount w' = getRotationPendingCount w.
Proof.
  intros Hn Hb Hok Hfuel. unfold rotateMasterKey, log. rewrite run_bind, run_writes.
  set (w0 := w <| audit ::= _ |>). pose proof (selection_length w0) as Hlen.
  destruct (run_rotate_batches svc nonce batchSize false None Hn Hb eq_refl w0 Hok fuel 1 0 no_result w0)
    as (r' & w1 & Hrun & Hw1 & _).
  { apply map_eq. intros i. rewrite lookup_fmap. by destruct (confessions w0 !! i). }
  { rewrite Nat.sub_0_r. exact (Nat.le_lt_trans _ _ _ Hlen Hfuel). }
  rewrite run_bind, Hrun, run_bind, run_writes. intros [= <- <-].
  unfold getRotationPendingCount, conf_rows. cbn [confessions set_field]. rewrite Hw1, map_to_list_fmap, map_map.
  rewrite (map_ext _ (fun x => rotate_rows svc nonce false (selection w0) x.2)) by (by intros [i c]).
  rewrite <- (map_map snd (rotate_rows svc nonce false (selection w0))), filter_map_comm, length_map.
  f_equal. apply filter_ext_in. intros c Hc. change (map_to_list (confessions w0)) with (map_to_list (confessions w)) in Hc.
  apply in_map_iff in Hc as ([i c'] & <- & Hi). apply list_elem_of_In, elem_of_map_to_list in Hi. cbn [snd].
  rewrite (rotate_selection svc nonce false w0 Hok i c' Hi). destruct (wrapped c') eqn:Hw; [|done].
  unfold rotated_row. destruct (fate svc nonce c'); [done| |done]. cbn. unfold wrapped in Hw.
  destruct (cf_wrappedDek c'); [done|]. by rewrite andb_false_l in Hw.
Qed.

(** ** Witnesses *)
Definition ex_payload : EnvelopePayload :=
  match @encrypt plain_gcm ex_svc1 (from_hex (hex64 "c")) "abcdefghijkl" "mnopqrstuvwx" "secret" with
  | Ok p => p | Exn _ => {| encryptedContent := ""; wrappedDek := ""; keyVersion := "" |} end.
Definition ex_conf (id version : string) : Confession := {|
  cf_id := id; cf_encryptedContent := Some (encryptedContent ex_payload); cf_wrappedDek := Some (wrappedDek ex_payload);
  cf_keyVersion := Some version; cf_migrationStatus := Some "completed" |}.
Definition ex_confessions (l : list Confession) : RotationDB :=
  {| confessions := list_to_map (map (fun c => (cf_id c, c)) l); audit := [] |}.
Definition ex_nonce (_ : string) : string := "ABCDEFGHIJKL".

Lemma ex_row_ok l : row_ok (ex_confessions l).
Proof.
  intros i c Hc. cbn in Hc. apply elem_of_list_to_map_2, list_elem_of_fmap in Hc as (d & Hd & _). by simplify_eq.
Qed.

(** A row under the old key, and one whose version is not configured. *)
Definition ex_table : RotationDB := ex_confessions [ex_conf "a" "v1"; ex_conf "b" "v9"].
Lemma rotation_complete_witness :
  exists r w', run (@rotateMasterKey plain_gcm ex_svc2 ex_nonce 1 false None 3) ex_table = (Ok (Some r), w')
    /\ total r = 2%nat /\ total r = (rotated r + alreadyCurrent r + failed r)%nat
    /\ exists c', confessions w' !! "a" = Some c' /\ decrypt (H := plain_gcm) ex_svc2 (payload_of c') = Ok "secret".
Proof.
  destruct (@rotation_complete plain_gcm ex_svc2 ex_nonce 1 false 3 ex_table ex_svc2_wf) as (r & w' & Hrun & Ht & Hsum & _ & Hrows);
    [reflexivity|lia|apply ex_row_ok|vm_compute; lia|].
  exists r, w'. split; [exact Hrun|]. split; [rewrite Ht; vm_compute; reflexivity|]. split; [exact Hsum|].
  destruct (Hrows "a" (ex_conf "a" "v1") ltac:(vm_compute; reflexivity)) as (c' & Hc' & _ & Hd & _).
  exists c'. split; [exact Hc'|]. rewrite Hd. vm_compute. reflexivity.
Defined.

(** A rotation resumed after "c" applies the resumption point to its first batch
    only: the second starts over at the offset, before the point. *)
Definition ex_resumed := run (@rotateMasterKey plain_gcm ex_svc2 ex_nonce 1 false (Some "c") 9)
                             (ex_confessions (map (fun i => ex_conf i "v1") ["a"; "b"; "c"; "d"])).
Theorem resume_goes_back :
  map (fun i => cf_keyVersion <$> confessions ex_resumed.2 !! i) ["a"; "b"; "c"; "d"]
    = [Some (Some "v1"); Some (Some "v2"); Some (Some "v2"); Some (Some "v2")]
  /\ match ex_resumed.1 with Ok (Some r) => (total r, rotated r, alreadyCurrent r) | _ => (0, 0, 0)%nat end
     = (4, 3, 1)%nat.
Proof. split; vm_compute; reflexivity. Qed.
