(* ===== verification/AnonymousUser.v ===== *)
(** * Anonymous identities

    [src/xconfess-backend/src/user/anonymous-user.service.ts]: the identities
    under which users act, the links from users to them, the 24-hour session
    window and the wallet fingerprints.  Requests are programs over the two
    tables; generated ids and the clock are fields of the request.  The wallet
    fingerprint (SHA-256, keyed when a secret is configured) is a parameter. *)
From S2P Require Import Prelude Effects.
Open Scope Z_scope.

(** ** Data *)

(** [src user/entities/anonymous-user.entity.ts:15-25 AnonymousUser] *)
Record AnonymousUser := {
  an_id : string;
  walletFingerprint : option string;
  an_createdAt : ms;
}.
#[export] Instance AnonymousUser_eq_dec : EqDecision AnonymousUser.
Proof. solve_decision. Defined.

(** [src user/entities/user-anonymous-link.entity.ts:17-37 UserAnonymousUser] *)
Record UserAnonymousUser := {
  ln_id : string;
  ln_userId : Z;
  anonymousUserId : string;
  ln_createdAt : ms;
}.
#[export] Instance UserAnonymousUser_eq_dec : EqDecision UserAnonymousUser.
Proof. solve_decision. Defined.

(** The two tables; links in the order they were inserted. *)
Record AnonDB := { anons : gmap string AnonymousUser; links : list UserAnonymousUser }.
#[export] Instance eta_AnonDB : Eta AnonDB := fun w => {| anons := anons w; links := links w |}.

(** A violated unique index, PostgreSQL's code 23505. *)
Inductive db_error := UniqueViolation.

(** The inputs of one request: the ids the database generates for the rows it
    may insert, and its reading of the clock. *)
Record AnonRequest := { rq_anonId : string; rq_linkId : string; rq_now : ms }.

Definition hours (n : Z) : ms := n * 3600000.

Section service.
Context (fingerprint : string -> string).

(** [A-Z2-7]. *)
Definition base32_char (c : Ascii.ascii) : bool := between "A"%char "Z"%char c || between "2"%char "7"%char c.

(** [src user/anonymous-user.service.ts:45-54 getWalletFingerprint]:
    [/^G[A-Z2-7]{55}$/]. *)
Definition getWalletFingerprint (walletAddress : option string) : option string :=
  match walletAddress with
  | Some (String g rest as addr) =>
      if Ascii.eqb g "G"%char && (String.length rest =? 55)%nat && str_forall base32_char rest
      then Some (fingerprint addr) else None
  | _ => None
  end.

(** [findOne({ where: { walletFingerprint } })]. *)
Definition find_wallet (fp : option string) (w : AnonDB) : option AnonymousUser :=
  snd <$> List.find (fun kv => bool_decide (walletFingerprint kv.2 = fp)) (map_to_list (anons w)).

Definition new_anon (r : AnonRequest) (fp : option string) : AnonymousUser :=
  {| an_id := rq_anonId r; walletFingerprint := fp; an_createdAt := rq_now r |}.

(** [save(anon)] under the unique index on the fingerprint; SQL NULLs do not
    collide. *)
Definition insert_anon (r : AnonRequest) (fp : option string) (w : AnonDB)
    : outcome db_error AnonymousUser * AnonDB :=
  if bool_decide (fp <> None /\ find_wallet fp w <> None) then (Exn UniqueViolation, w)
  else (Ok (new_anon r fp), w <| anons ::= <[rq_anonId r := new_anon r fp]> |>).

(** [src user/anonymous-user.service.ts:20-43 create] *)
Definition create (r : AnonRequest) (walletAddress : option string)
    : prog AnonDB db_error AnonymousUser :=
  let fp := getWalletFingerprint walletAddress in
  let* existing := if truthy_opt fp then reads (find_wallet fp) else Ret None in
  match existing with
  | Some a => Ret a
  | None =>
      try_catch (attempts (insert_anon r fp)) (fun error =>
        if truthy_opt fp then
          let* existing := reads (find_wallet fp) in
          match existing with Some a => Ret a | None => Throw error end
        else Throw error)
  end.

Definition link_of (r : AnonRequest) (userId : Z) (a : AnonymousUser) : UserAnonymousUser :=
  {| ln_id := rq_linkId r; ln_userId := userId; anonymousUserId := an_id a; ln_createdAt := rq_now r |}.
Definition insert_link (l : UserAnonymousUser) (w : AnonDB) : AnonDB := w <| links ::= (fun ls => ls ++ [l]) |>.

(** The rows of a session window, the latest first. *)
Definition in_window (userId : Z) (cutoff : ms) (l : UserAnonymousUser) : bool :=
  (ln_userId l =? userId) && (cutoff <? ln_createdAt l).
Definition later (l l' : UserAnonymousUser) : bool := ln_createdAt l' <=? ln_createdAt l.
Definition latest_link (userId : Z) (cutoff : ms) (w : AnonDB) : option UserAnonymousUser :=
  head (insertion_sort later (List.filter (in_window userId cutoff) (links w))).
(** The row with its [anonymousUser] relation loaded. *)
Definition session_identity (userId : Z) (cutoff : ms) (w : AnonDB) : option AnonymousUser :=
  match latest_link userId cutoff w with
  | Some l => anons w !! anonymousUserId l
  | None => None
  end.

(** [src user/anonymous-user.service.ts:56-89 getOrCreateForUserSession] *)
Definition getOrCreateForUserSession (r : AnonRequest) (userId : Z) (sessionWindowHours : Z)
    : prog AnonDB db_error AnonymousUser :=
  let sessionCutoff := rq_now r - hours sessionWindowHours in
  let* existing := reads (session_identity userId sessionCutoff) in
  match existing with
  | Some a => Ret a
  | None =>
      let* anon := create r None in
      do* writes (insert_link (link_of r userId anon)) in
      Ret anon
  end.

(** [src user/anonymous-user.service.ts:103-113 rotateAnonymousContext] *)
Definition rotateAnonymousContext (r : AnonRequest) (userId : Z) : prog AnonDB db_error AnonymousUser :=
  let* newAnon := create r None in
  do* writes (insert_link (link_of r userId newAnon)) in
  Ret newAnon.

(** [src user/anonymous-user.service.ts:95-101 findByWalletAddress] *)
Definition findByWalletAddress (walletAddress : string) : prog AnonDB db_error (option AnonymousUser) :=
  let fp := getWalletFingerprint (Some walletAddress) in
  if truthy_opt fp then reads (find_wallet fp) else Ret None.

(** [src user/anonymous-user.service.ts:115-121 getAnonIdsForUser] *)
Definition getAnonIdsForUser (userId : Z) : prog AnonDB db_error (list string) :=
  reads (fun w => map anonymousUserId (List.filter (fun l => ln_userId l =? userId) (links w))).

(** [src user/anonymous-user.service.ts:123-131 cleanupExpiredSessions] *)
Definition cleanupExpiredSessions (now : ms) (sessionWindowHours : Z) : prog AnonDB db_error unit :=
  writes (fun w =>
    w <| links ::= List.filter (fun l => negb (now - hours sessionWindowHours <? ln_createdAt l)) |>).

(** ** Invariant and guarantee *)
Record anon_inv (w : AnonDB) : Prop := {
  inv_id : forall k a, anons w !! k = Some a -> an_id a = k;
  inv_wallet : forall k k' a a' f, anons w !! k = Some a -> anons w !! k' = Some a' ->
                 walletFingerprint a = Some f -> walletFingerprint a' = Some f -> k = k';
  inv_link : forall l, l ∈ links w -> is_Some (anons w !! anonymousUserId l);
  inv_private : forall l l', l ∈ links w -> l' ∈ links w ->
                  anonymousUserId l = anonymousUserId l' -> ln_userId l = ln_userId l';
}.

(** A request only adds rows: an identity under its own id, links to it. *)
Record anon_guar (own : option string) (w w' : AnonDB) : Prop := {
  g_anons : forall k a, anons w !! k = Some a -> anons w' !! k = Some a;
  g_new : forall k, own <> Some k -> anons w !! k = None -> anons w' !! k = None;
  g_links : forall l, l ∈ links w -> l ∈ links w';
  g_new_link : forall l, l ∈ links w' -> l ∈ links w \/ own = Some (anonymousUserId l);
}.

(** ** Lemmas *)
Lemma anon_guar_refl own w : anon_guar own w w.
Proof. split; auto. Qed.

Lemma find_wallet_Some fp w a :
  anon_inv w -> find_wallet fp w = Some a -> anons w !! an_id a = Some a /\ walletFingerprint a = fp.
Proof using fingerprint.
  intros HI. unfold find_wallet. rewrite fmap_Some. intros ([k u] & Hf & ->).
  apply List.find_some in Hf as [Hin Hp]. cbn in *. boolp.
  apply list_elem_of_In, elem_of_map_to_list in Hin. by rewrite (inv_id _ HI _ _ Hin).
Qed.

Lemma find_wallet_None f w k a :
  find_wallet (Some f) w = None -> anons w !! k = Some a -> walletFingerprint a <> Some f.
Proof using fingerprint.
  unfold find_wallet. rewrite fmap_None. intros Hf Hk Hw.
  pose proof (List.find_none _ _ Hf (k, a)) as Hn. cbn in Hn.
  rewrite bool_decide_eq_true_2 in Hn by done.
  enough (true = false) by done. apply Hn. by apply list_elem_of_In, elem_of_map_to_list.
Qed.

(** ** One request among others *)
Section actor.
Context (fingerprint_nonempty : forall s, fingerprint s <> "").
Context (own : positive -> option string)
        (own_inj : forall t t' k, own t = Some k -> own t' = Some k -> t = t').
Context (t : positive) (r : AnonRequest) (Hown : own t = Some (rq_anonId r)).

Abbreviation spec := (@rg AnonDB db_error anon_inv (fun t => anon_guar (own t))).

(** The id the request would use is free; it has no links; it stands for [a]. *)
Definition free (w : AnonDB) : Prop := anons w !! rq_anonId r = None.
Definition unlinked (w : AnonDB) : Prop := forall l, l ∈ links w -> anonymousUserId l <> rq_anonId r.
Definition stored (a : AnonymousUser) (w : AnonDB) : Prop := anons w !! an_id a = Some a.
Definition linked (u : Z) (a : AnonymousUser) (w : AnonDB) : Prop :=
  exists l, l ∈ links w /\ ln_userId l = u /\ anonymousUserId l = an_id a.

Lemma stable_free : stable anon_inv (fun t => anon_guar (own t)) t free.
Proof using own_inj Hown.
  intros t' w w' Hne _ HP Hg. apply (g_new _ _ _ Hg); [|done].
  intros Heq. apply Hne, (own_inj t' t _ Heq Hown).
Qed.

Lemma stable_stored a : stable anon_inv (fun t => anon_guar (own t)) t (stored a).
Proof. intros t' w w' _ _ HP Hg. by apply (g_anons _ _ _ Hg). Qed.

Lemma stable_linked u a : stable anon_inv (fun t => anon_guar (own t)) t (linked u a).
Proof. intros t' w w' _ _ (l & ? & ?) Hg. exists l. split; [by apply (g_links _ _ _ Hg)|done]. Qed.

Lemma stable_fresh a :
  stable anon_inv (fun t => anon_guar (own t)) t (fun w => stored a w /\ unlinked w).
Proof using own_inj Hown.
  intros t' w w' Hne _ [Hs Hu] Hg. split; [by apply (g_anons _ _ _ Hg)|].
  intros l Hl Heq. destruct (g_new_link _ _ _ Hg l Hl) as [?|Ho]; [by eapply Hu|].
  apply Hne, (own_inj t' t (rq_anonId r)); congruence.
Qed.

(** The new row keeps the invariant when no other has its fingerprint. *)
Lemma insert_row_ok fp w :
  let a := new_anon r fp in
  let w' := w <| anons ::= <[rq_anonId r := a]> |> in
  anon_inv w -> free w ->
  (forall f k a', fp = Some f -> anons w !! k = Some a' -> walletFingerprint a' <> Some f) ->
  anon_inv w' /\ anon_guar (own t) w w' /\ stored a w' /\ unlinked w'.
Proof using Hown.
  intros a w' [H1 H2 H3 H4] Hfree Hfp. split_and!.
  - split; cbn; try done.
    + intros k u. rewrite lookup_insert_Some. intros [[<- <-]|[? Hu]]; [done|by apply H1].
    + intros k k' u u' f. rewrite !lookup_insert_Some.
      intros [[<- <-]|[? Hu]] [[<- <-]|[? Hu']] Hf Hf'; cbn in *; [done|..].
      * destruct (Hfp f _ _ Hf Hu' Hf').
      * destruct (Hfp f _ _ Hf' Hu Hf).
      * by eapply H2.
    + intros l Hl. destruct (decide (rq_anonId r = anonymousUserId l)) as [->|].
      * rewrite lookup_insert_eq. eauto.
      * rewrite lookup_insert_ne by done. by apply H3.
  - split; cbn; auto.
    + intros k u Hu. rewrite lookup_insert_ne; [done|]. intros <-. unfold free in Hfree. congruence.
    + intros k Hk Hn. rewrite lookup_insert_ne; [done|]. congruence.
  - unfold stored. cbn. by rewrite lookup_insert_eq.
  - intros l Hl Heq. destruct (H3 l Hl) as [x Hx]. unfold free in Hfree. congruence.
Qed.

(** What [create] promises. *)
Definition create_post (fp : option string) (o : outcome db_error AnonymousUser) (w : AnonDB) : Prop :=
  exists a, o = Ok a /\ stored a w /\ walletFingerprint a = fp
            /\ (fp = None -> an_id a = rq_anonId r /\ unlinked w).

Lemma spec_create_anon : spec t free (create r None) (create_post None).
Proof using own_inj Hown.
  intros w HI Hfree. unfold create, insert_anon. cbn.
  destruct (insert_row_ok None w HI Hfree ltac:(done)) as (HI' & HG & Hst & Hu).
  split; [done|split; [done|]].
  exists (fun w => stored (new_anon r None) w /\ unlinked w). split; [done|split; [apply stable_fresh|]].
  intros v _ [Hv Hv']. exists (new_anon r None). eauto.
Qed.

Lemma spec_create_wallet addr f :
  getWalletFingerprint (Some addr) = Some f ->
  spec t free (create r (Some addr)) (create_post (Some f)).
Proof using own_inj Hown fingerprint_nonempty.
  intros Hfp. unfold create. rewrite Hfp.
  assert (truthy_opt (Some f) = true) as Ht.
  { unfold getWalletFingerprint in Hfp. repeat case_match; simplify_eq. cbn. unfold truthy.
    rewrite (proj2 (str_eqb_neq _ _)); auto. }
  rewrite Ht. assert (forall v a, anon_inv v -> find_wallet (Some f) v = Some a ->
    stored a v /\ walletFingerprint a = Some f) as Hfind by apply find_wallet_Some.
  intros w HI Hfree. cbn. split; [done|split; [apply anon_guar_refl|]].
  destruct (find_wallet (Some f) w) as [a|] eqn:Hf.
  { destruct (Hfind _ _ HI Hf) as [Hs Hw]. exists (stored a).
    split; [done|split; [apply stable_stored|]]. intros v _ Hv. exists a. by split_and!. }
  exists free. split; [done|split; [apply stable_free|]]. intros v HIv Hfv. cbn. unfold insert_anon.
  destruct (find_wallet (Some f) v) as [a|] eqn:Hf';
    [rewrite bool_decide_eq_true_2 by done|rewrite bool_decide_eq_false_2 by naive_solver]; cbn.
  - split; [done|split; [apply anon_guar_refl|]]. destruct (Hfind _ _ HIv Hf') as [Hs Hw].
    exists (stored a). split; [done|split; [apply stable_stored|]].
    intros u HIu Hu. cbn. split; [done|split; [apply anon_guar_refl|]].
    assert (exists b, find_wallet (Some f) u = Some b) as [b Hb].
    { destruct (find_wallet (Some f) u) eqn:Hn; [eauto|]. by destruct (find_wallet_None _ _ _ _ Hn Hu). }
    rewrite Hb. destruct (Hfind _ _ HIu Hb) as [Hsb Hwb].
    exists (stored b). split; [done|split; [apply stable_stored|]]. intros x _ Hx. exists b. by split_and!.
  - destruct (insert_row_ok (Some f) v HIv Hfv) as (HI' & HG & Hst & Hu).
    { intros g k a' [= <-] Hk. by eapply find_wallet_None. }
    split; [done|split; [done|]].
    exists (stored (new_anon r (Some f))). split; [done|split; [apply stable_stored|]].
    intros x _ Hx. exists (new_anon r (Some f)). by split_and!.
Qed.

(** A link to the identity the request created itself. *)
Lemma spec_link u a :
  spec t (fun w => (stored a w /\ unlinked w) /\ an_id a = rq_anonId r)
    (do* writes (insert_link (link_of r u a)) in Ret a)
    (fun o w => o = Ok a /\ stored a w /\ linked u a w).
Proof using Hown.
  clear fingerprint_nonempty own_inj. intros w HI [[Hst Hun] Hid]. cbn. destruct HI as [H1 H2 H3 H4].
  assert (forall l, l ∈ links w ++ [link_of r u a] <-> l ∈ links w \/ l = link_of r u a) as Hin.
  { intros l. rewrite elem_of_app, list_elem_of_singleton. done. }
  split_and!.
  - split; cbn; try done.
    + intros l [Hl| ->]%Hin; [by apply H3|]. rewrite Hst. eauto.
    + intros l l' [Hl| ->]%Hin [Hl'| ->]%Hin; cbn; [by apply H4|..|done]; intros Heq.
      * by destruct (Hun l Hl); rewrite Heq.
      * by destruct (Hun l' Hl'); rewrite <- Heq.
  - split; cbn; auto; [set_solver|]. intros l [Hl| ->]%Hin; [auto|]. right. by rewrite Hown, <- Hid.
  - exists (fun w => stored a w /\ linked u a w). split; [split; [done|]|split].
    + exists (link_of r u a). cbn. rewrite Hin. auto.
    + intros t' v v' Hne HI' [Hs Hl] HG. split; [by eapply stable_stored|by eapply stable_linked].
    + intros v _ [??]. auto.
Qed.

Lemma spec_rotate u :
  spec t free (rotateAnonymousContext r u)
    (fun o w => exists a, o = Ok a /\ stored a w /\ linked u a w).
Proof using own_inj Hown.
  unfold rotateAnonymousContext.
  apply rg_bind with (Q := fun a w => (stored a w /\ unlinked w) /\ an_id a = rq_anonId r).
  - eapply rg_post; [|apply spec_create_anon]. intros o w (a & -> & Hs & _ & Hid).
    destruct (Hid eq_refl). auto.
  - intros a. eapply rg_post; [|apply spec_link]. intros o w (-> & ? & ?). eauto.
Qed.

Lemma session_identity_linked u cutoff w a :
  anon_inv w -> session_identity u cutoff w = Some a -> stored a w /\ linked u a w.
Proof using fingerprint.
  intros HI. unfold session_identity, latest_link. case_match eqn:Hh; [|done]. intros Ha.
  apply head_insertion_sort_elem, list_elem_of_In, filter_In in Hh as [Hl%list_elem_of_In Hw].
  unfold in_window in Hw. boolp. pose proof (inv_id _ HI _ _ Ha) as Hid.
  unfold stored. rewrite Hid. split; [done|]. eexists; eauto.
Qed.

Lemma spec_session u h :
  spec t free (getOrCreateForUserSession r u h)
    (fun o w => exists a, o = Ok a /\ stored a w /\ linked u a w).
Proof using own_inj Hown.
  unfold getOrCreateForUserSession. intros w HI Hfree. cbn. split; [done|split; [apply anon_guar_refl|]].
  destruct (session_identity u _ w) as [a|] eqn:Hs.
  - exists (fun w => stored a w /\ linked u a w).
    split; [by eapply session_identity_linked|split].
    + intros t' v v' Hne HI' [??] HG. split; [by eapply stable_stored|by eapply stable_linked].
    + intros v _ [??]. eauto.
  - exists free. split; [done|split; [apply stable_free|]].
    exact (spec_rotate u).
Qed.
End actor.

(** The requests that name an identity: a session of a user, a rotation, the
    connection of a wallet. *)
Inductive AnonAction :=
| Session (userId sessionWindowHours : Z)
| Rotate (userId : Z)
| Connect (walletAddress : string).
Definition perform (q : AnonRequest * AnonAction) : prog AnonDB db_error AnonymousUser :=
  match q.2 with
  | Session u h => getOrCreateForUserSession q.1 u h
  | Rotate u => rotateAnonymousContext q.1 u
  | Connect addr => create q.1 (Some addr)
  end.
Definition action_user (a : AnonAction) : option Z :=
  match a with Session u _ | Rotate u => Some u | Connect _ => None end.
Definition valid_action (a : AnonAction) : Prop :=
  match a with Connect addr => getWalletFingerprint (Some addr) <> None | _ => True end.

(** What a request that names an identity has when it returns. *)
Definition perform_post (act : AnonAction) (o : outcome db_error AnonymousUser) (w : AnonDB) : Prop :=
  exists a, o = Ok a /\ stored a w
    /\ match act with
       | Session u _ | Rotate u => linked u a w
       | Connect addr => walletFingerprint a = getWalletFingerprint (Some addr)
       end.

Lemma perform_pool (reqs : gmap positive (AnonRequest * AnonAction)) w0 w ps :
  (forall s, fingerprint s <> "") -> anon_inv w0 ->
  (forall t q, reqs !! t = Some q -> anons w0 !! rq_anonId q.1 = None /\ valid_action q.2) ->
  (forall t t' q q', reqs !! t = Some q -> reqs !! t' = Some q' ->
     rq_anonId q.1 = rq_anonId q'.1 -> t = t') ->
  pool_reach (w0, perform <$> reqs) (w, ps) ->
  anon_inv w /\
  (forall t q a, reqs !! t = Some q -> ps !! t = Some (Ret a) -> perform_post q.2 (Ok a) w) /\
  (forall t e, ps !! t <> Some (Throw e)).
Proof using fingerprint.
  intros Hfp HI0 Hfree Hids Hreach.
  set (own := fun t => (fun q : AnonRequest * AnonAction => rq_anonId q.1) <$> reqs !! t).
  assert (forall t t' k, own t = Some k -> own t' = Some k -> t = t') as Hinj.
  { intros t t' k (q & Hq & ->)%fmap_Some (q' & Hq' & Heq)%fmap_Some. by eapply Hids. }
  assert (pool_ok anon_inv (fun t => anon_guar (own t))
            (fun t o w => exists q, reqs !! t = Some q /\ perform_post q.2 o w)
            (w0, perform <$> reqs)) as Hinit.
  { split; [done|]. intros t p. cbn. rewrite lookup_fmap_Some. intros (q & <- & Hq).
    assert (own t = Some (rq_anonId q.1)) as Hown by (apply fmap_Some; eauto).
    destruct (Hfree _ _ Hq) as [Hf Hv].
    exists (free q.1). split; [done|split; [by eapply stable_free|]].
    destruct q as [r act]. unfold perform. cbn [fst snd] in *.
    eapply rg_post with (post := perform_post act); [intros; eexists; eauto|].
    destruct act as [u h|u|addr]; unfold perform_post.
    - by eapply spec_session.
    - by eapply spec_rotate.
    - cbn in Hv. destruct (getWalletFingerprint (Some addr)) as [f|] eqn:Haddr; [|done].
      eapply rg_post; [|by eapply spec_create_wallet]. intros o v (a & -> & Hs & Hw & _). eauto. }
  destruct (rg_sound _ _ _ _ _ Hinit Hreach) as [HI Hps]. cbn in HI, Hps.
  split; [done|split].
  - intros t q a Hq Ha. destruct (Hps t _ Ha) as (P & HP & _ & Hrg).
    destruct (Hrg w HI HP) as (q' & Hq' & Hpost). by simplify_eq.
  - intros t e He. destruct (Hps t _ He) as (P & HP & _ & Hrg).
    by destruct (Hrg w HI HP) as (q' & Hq' & a & ? & _).
Qed.

(** ** Properties *)

(** C15. Identities are private to a user. Let any number of session requests,
    rotations and wallet connections interleave at their awaits. No identity is
    ever linked to two users; requests of different users are answered with
    different identities; connections of one wallet are answered with one
    identity; and none of the requests fails on the race for the unique index. *)
Theorem anonymous_identity_private (reqs : gmap positive (AnonRequest * AnonAction)) w0 w ps :
  (forall s, fingerprint s <> "") -> anon_inv w0 ->
  (forall t q, reqs !! t = Some q -> anons w0 !! rq_anonId q.1 = None /\ valid_action q.2) ->
  (forall t t' q q', reqs !! t = Some q -> reqs !! t' = Some q' ->
     rq_anonId q.1 = rq_anonId q'.1 -> t = t') ->
  pool_reach (w0, perform <$> reqs) (w, ps) ->
  (forall l l', l ∈ links w -> l' ∈ links w ->
     anonymousUserId l = anonymousUserId l' -> ln_userId l = ln_userId l')
  /\ (forall t t' q q' u u' a a', reqs !! t = Some q -> reqs !! t' = Some q' ->
        ps !! t = Some (Ret a) -> ps !! t' = Some (Ret a') ->
        action_user q.2 = Some u -> action_user q'.2 = Some u' -> an_id a = an_id a' -> u = u')
  /\ (forall t t' q q' addr a a', reqs !! t = Some q -> reqs !! t' = Some q' ->
        ps !! t = Some (Ret a) -> ps !! t' = Some (Ret a') ->
        q.2 = Connect addr -> q'.2 = Connect addr -> a = a')
  /\ (forall t e, ps !! t <> Some (Throw e)).
Proof using fingerprint.
  intros Hfp HI0 Hfree Hids Hreach.
  destruct (perform_pool _ _ _ _ Hfp HI0 Hfree Hids Hreach) as (HI & Hres & Hthrow).
  split_and!; [apply (inv_private _ HI)|..|done].
  - intros t t' q q' u u' a a' Hq Hq' Ha Ha' Hu Hu' Heq.
    destruct (Hres _ _ _ Hq Ha) as (? & [= <-] & _ & H1).
    destruct (Hres _ _ _ Hq' Ha') as (? & [= <-] & _ & H2).
    destruct (q.2), (q'.2); cbn in *; simplify_eq;
      destruct H1 as (l & ? & <- & ?), H2 as (l' & ? & <- & ?);
      apply (inv_private _ HI); congruence.
  - intros t t' q q' addr a a' Hq Hq' Ha Ha' Hc Hc'.
    destruct (Hres _ _ _ Hq Ha) as (? & [= <-] & Hs & H1).
    destruct (Hres _ _ _ Hq' Ha') as (? & [= <-] & Hs' & H2).
    rewrite Hc in H1. rewrite Hc' in H2.
    assert (getWalletFingerprint (Some addr) <> None) as Hv by (pose proof (proj2 (Hfree _ _ Hq)) as Hv; by rewrite Hc in Hv).
    destruct (getWalletFingerprint (Some addr)) as [f|]; [|done].
    pose proof (inv_wallet _ HI _ _ _ _ f Hs Hs' H1 H2) as Hid.
    unfold stored in Hs, Hs'. rewrite Hid in Hs. congruence.
Qed.

Lemma latest_link_stronger u c c' w :
  c <= c' ->
  latest_link u c' w =
  match latest_link u c w with Some l => if c' <? ln_createdAt l then Some l else None | None => None end.
Proof using fingerprint.
  intros Hc. unfold latest_link.
  rewrite (head_sort_filter later (in_window u c) (in_window u c')).
  - destruct (head _) as [l|] eqn:Hl; [|done].
    apply head_insertion_sort_elem, list_elem_of_In, filter_In in Hl as [_ Hl].
    unfold in_window in *. boolp. by rewrite H, Z.eqb_refl.
  - intros x y. unfold later. apply orb_true_iff. rewrite !Z.leb_le. lia.
  - unfold in_window. intros x Hx. boolp. rewrite H, Z.eqb_refl. cbn. apply Z.ltb_lt. lia.
  - unfold in_window, later. intros x y Hx Hy Hle Hy'. boolp. rewrite H3, Z.eqb_refl. cbn.
    apply Z.ltb_lt. lia.
Qed.

(** The session window. The first request of a user is answered with the
    identity of a link younger than the window; every later request of the user
    gets the same identity and writes nothing while that link is younger than the
    window, and a new identity, linked to the user, from then on. *)
Theorem session_window r r' u h w :
  anon_inv w -> anons w !! rq_anonId r = None -> 0 < h -> rq_now r <= rq_now r' ->
  exists a l w1,
    run (getOrCreateForUserSession r u h) w = (Ok a, w1)
    /\ l ∈ links w1 /\ ln_userId l = u /\ anonymousUserId l = an_id a
    /\ rq_now r - hours h < ln_createdAt l
    /\ run (getOrCreateForUserSession r' u h) w1 =
       if rq_now r' - hours h <? ln_createdAt l then (Ok a, w1)
       else (Ok (new_anon r' None),
             insert_link (link_of r' u (new_anon r' None))
               (w1 <| anons ::= <[rq_anonId r' := new_anon r' None]> |>)).
Proof using fingerprint.
  intros HI Hfree Hh Hnow.
  assert (forall r w, run (getOrCreateForUserSession r u h) w =
    match session_identity u (rq_now r - hours h) w with
    | Some a => (Ok a, w)
    | None => (Ok (new_anon r None), insert_link (link_of r u (new_anon r None))
                 (w <| anons ::= <[rq_anonId r := new_anon r None]> |>))
    end) as Hrun.
  { intros x v. unfold getOrCreateForUserSession. run_simp. by destruct (session_identity _ _ v). }
  set (c := rq_now r - hours h) in *. set (c' := rq_now r' - hours h).
  assert (c <= c') as Hc by (subst c c'; lia).
  destruct (latest_link u c w) as [l|] eqn:Hl.
  - pose proof Hl as Hin. apply head_insertion_sort_elem, list_elem_of_In, filter_In in Hin as [Hin%list_elem_of_In Hw].
    unfold in_window in Hw. boolp. destruct (inv_link _ HI _ Hin) as [a Ha].
    exists a, l, w. rewrite !Hrun. fold c c'. unfold session_identity.
    rewrite (latest_link_stronger u c c' w Hc), Hl, Ha.
    split_and!; [done..|by rewrite (inv_id _ HI _ _ Ha)|done|].
    destruct (c' <? ln_createdAt l); [by rewrite Ha|done].
  - rewrite Hrun. fold c. unfold session_identity. rewrite Hl.
    set (a := new_anon r None). set (l := link_of r u a). set (w1 := insert_link _ _).
    exists a, l, w1. assert (latest_link u c w1 = Some l) as Hl1.
    { unfold latest_link, w1, insert_link. cbn. rewrite List.filter_app.
      unfold latest_link in Hl. destruct (List.filter (in_window u c) (links w)) as [|x ls] eqn:Hf.
      - cbn. unfold in_window. cbn. rewrite Z.eqb_refl. cbn.
        rewrite (proj2 (Z.ltb_lt _ _)); [done|]. subst c. unfold hours. lia.
      - rewrite insertion_sort_cons, head_insert_sorted in Hl. destruct (head _); [|done]. by case_match. }
    split_and!; try done; [set_solver|subst c; unfold hours; cbn; lia|].
    rewrite Hrun. fold c'. unfold session_identity. rewrite (latest_link_stronger u c c' w1 Hc), Hl1.
    destruct (c' <? ln_createdAt l); [|done]. unfold w1, insert_link. cbn. by rewrite lookup_insert_eq.
Qed.

(** The cleanup deletes the links it should keep: afterwards nobody has a
    session, and every expired link is still there. *)
Theorem cleanup_drops_live_sessions now h u w :
  let w' := (run (cleanupExpiredSessions now h) w).2 in
  session_identity u (now - hours h) w' = None
  /\ (forall l, l ∈ links w -> ln_createdAt l <= now - hours h -> l ∈ links w').
Proof using fingerprint.
  cbn. unfold session_identity, latest_link. cbn. split.
  - destruct (List.filter (in_window u _) _) as [|l ls] eqn:Hf; [done|].
    assert (l ∈ l :: ls) as Hl by set_solver. rewrite <- Hf in Hl.
    apply list_elem_of_In, filter_In in Hl as [[_ Hn]%filter_In Hw].
    unfold in_window in Hw. boolp. lia.
  - intros l Hl Hle. apply list_elem_of_In, filter_In. split; [by apply list_elem_of_In|].
    apply negb_true_iff, Z.ltb_ge. lia.
Qed.
End service.

(** ** Witnesses *)
Definition ex_address : string := "GAAAAAAAAAAAAAAAAAAAAAAAAAAAAAAAAAAAAAAAAAAAAAAAAAAAAAAA".
Definition ex_request (k : string) (now : ms) : AnonRequest :=
  {| rq_anonId := "A" +:+ k; rq_linkId := "L" +:+ k; rq_now := now |}.
Definition ex_reqs : gmap positive (AnonRequest * AnonAction) :=
  {[ 1%positive := (ex_request "1" 10, Session 1 24); 2%positive := (ex_request "2" 10, Session 2 24);
     3%positive := (ex_request "3" 11, Connect ex_address);
     4%positive := (ex_request "4" 11, Connect ex_address) ]}.
Definition ex_fp (s : string) : string := "fp" +:+ s.
Definition ex_empty : AnonDB := {| anons := ∅; links := [] |}.
Definition ex_end :=
  run_schedule [1; 2; 1; 2; 3; 4; 2; 1; 3; 4; 4]%positive (ex_empty, perform ex_fp <$> ex_reqs).

Lemma ex_empty_inv : anon_inv ex_empty.
Proof. split; cbn; set_solver. Qed.

Lemma anonymous_identity_private_witness :
  new_anon (ex_request "3" 11) (Some (ex_fp ex_address))
  = new_anon (ex_request "3" 11) (Some (ex_fp ex_address))
  /\ forall t e, ex_end.2 !! t <> Some (Throw e).
Proof.
  assert (pool_reach (ex_empty, perform ex_fp <$> ex_reqs) (ex_end.1, ex_end.2)) as Hreach.
  { rewrite <- surjective_pairing. apply run_schedule_reach. }
  destruct (anonymous_identity_private ex_fp ex_reqs ex_empty ex_end.1 ex_end.2) as (_ & _ & Hc & Ht).
  - intros s. discriminate.
  - apply ex_empty_inv.
  - intros t q Hq. split; [apply lookup_empty|]. revert Hq. unfold ex_reqs.
    rewrite !lookup_insert_Some, lookup_singleton_Some. intros Hq.
    repeat (destruct_or?; destruct_and?); subst; first [exact I|vm_compute; discriminate].
  - intros t t' q q'. unfold ex_reqs. rewrite !lookup_insert_Some, !lookup_singleton_Some.
    intros Hq Hq' Heq. repeat (destruct_or?; destruct_and?); subst; try reflexivity; vm_compute in Heq; discriminate Heq.
  - exact Hreach.
  - split; [|exact Ht].
    refine (Hc 3%positive 4%positive _ _ ex_address _ _ eq_refl eq_refl _ _ eq_refl eq_refl);
      vm_compute; reflexivity.
Defined.

Lemma session_window_witness :
  exists a l w1,
    run (getOrCreateForUserSession ex_fp (ex_request "1" 0) 7 24) ex_empty = (Ok a, w1)
    /\ l ∈ links w1 /\ ln_userId l = 7 /\ anonymousUserId l = an_id a
    /\ 0 - hours 24 < ln_createdAt l
    /\ run (getOrCreateForUserSession ex_fp (ex_request "2" 500) 7 24) w1 =
       if 500 - hours 24 <? ln_createdAt l then (Ok a, w1)
       else (Ok (new_anon (ex_request "2" 500) None),
             insert_link (link_of (ex_request "2" 500) 7 (new_anon (ex_request "2" 500) None))
               (w1 <| anons ::= <["A2" := new_anon (ex_request "2" 500) None]> |>)).
Proof.
  apply (session_window ex_fp (ex_request "1" 0) (ex_request "2" 500) 7 24 ex_empty ex_empty_inv);
    [apply lookup_empty|reflexivity|discriminate].
Defined.
