(* ===== verification/Auth.v ===== *)
(** * Authentication: login, sessions, two factors, step-up proofs

    [src/xconfess-backend/src/auth/]: [auth.service.ts] (login),
    [auth.controller.ts] (the login routes), [jwt.strategy.ts] (sessions),
    [step-up.service.ts] with [guards/step-up.guard.ts], and the part of
    [user/user.service.ts] they use.  The world is the users table, the cache and
    the identities.  bcrypt, AES-GCM, SHA-256, TOTP, JSON and JWT are parameters;
    a profile keeps the fields that decide, not those only copied to the answer. *)
From S2P Require Import Prelude Numbers Json Effects Dates CacheManager Lockout InvocationPolicy AnonymousUser.
Open Scope Z_scope.

(** [src user/entities/user.entity.ts:10-14 UserRole] *)
Inductive UserRole := USER | MODERATOR | ADMIN.
#[export] Instance UserRole_eq_dec : EqDecision UserRole.
Proof. solve_decision. Defined.

(** [src user/entities/user.entity.ts:38-130 User] *)
Record User := {
  u_id : Z;
  username : string;
  password : string;
  emailEncrypted : string; emailIv : string; emailTag : string;
  emailHash : string;
  role : UserRole;
  is_active : bool;
  resetPasswordToken : option string;
  resetPasswordExpires : option ms;
  totpEnabled : bool;
  totpSecretEncrypted : option string; totpSecretIv : option string; totpSecretTag : option string;
  recoveryCodesEncrypted : option string; recoveryCodesIv : option string; recoveryCodesTag : option string;
}.
#[export] Instance eta_User : Eta User := fun u => {|
  u_id := u_id u; username := username u; password := password u; emailEncrypted := emailEncrypted u;
  emailIv := emailIv u; emailTag := emailTag u; emailHash := emailHash u; role := role u;
  is_active := is_active u; resetPasswordToken := resetPasswordToken u;
  resetPasswordExpires := resetPasswordExpires u; totpEnabled := totpEnabled u;
  totpSecretEncrypted := totpSecretEncrypted u; totpSecretIv := totpSecretIv u;
  totpSecretTag := totpSecretTag u; recoveryCodesEncrypted := recoveryCodesEncrypted u;
  recoveryCodesIv := recoveryCodesIv u; recoveryCodesTag := recoveryCodesTag u |}.

(** The answer's [UserResponse]. *)
Record UserResponse := {
  r_id : Z; r_username : string; r_role : UserRole; r_active : bool; r_email : string }.

(** What is thrown: an [AppException], another HTTP exception of NestJS, a plain
    error. *)
Inductive auth_error :=
| App (message code : string) (status : Z)
| Http (status : Z) (message : string)
| Plain (message : string).
Definition is_http (e : auth_error) : bool := match e with Plain _ => false | _ => true end.
Definition error_message (e : auth_error) : string :=
  match e with App m _ _ | Http _ m | Plain m => m end.
Definition NotFound (m : string) := Http 404 m.
Definition BadRequest (m : string) := Http 400 m.
Definition Unauthorized (m : string) := Http 401 m.
Definition invalid_credentials (m : string) := App m "AUTH_INVALID_CREDENTIALS" 401.

(** The claims of a token: a session's or a step-up proof's; [iat] and [exp] are
    added by the signature.
    [src auth/interfaces/jwt-payload.interface.ts:7-19 JwtPayload] *)
Record Claims := {
  sub : Z;
  c_username : option string;
  c_email : option string;
  c_role : option UserRole;
  c_scopes : option (list string);
  purpose : option string;
}.

(** JWTs: a signed token verifies until the whole second it expires, and only
    signed tokens verify. *)
Inductive jwt_result := Valid (c : Claims) (iat : Z) | Expired | Invalid (message : string).
Definition secs (t : ms) : Z := t / 1000.
Class Jwt (T : Type) := {
  jwt_sign : Claims -> Z -> ms -> T;
  jwt_verify : T -> ms -> jwt_result;
  jwt_verify_sign : forall c ttl t now,
    jwt_verify (jwt_sign c ttl t) now =
    if secs now <? secs t + ttl then Valid c (secs t) else Expired;
  jwt_unforgeable : forall tok now c iat, jwt_verify tok now = Valid c iat ->
    exists ttl t, tok = jwt_sign c ttl t /\ iat = secs t;
}.

(** [src auth/interfaces/jwt-payload.interface.ts:25-32 RequestUser] *)
Record RequestUser := {
  q_id : Z; q_username : option string; q_email : option string; q_role : UserRole;
  q_scopes : list string }.

Section auth.
Context {C : Type} `{!CacheManager C} {T : Type} `{!Jwt T}.
Context (sha256 : string -> string) (bcrypt_compare : string -> string -> bool)
        (decrypt : string -> string -> string -> option string)
        (encrypt : string -> string * string * string)
        (totp_verify : string -> string -> ms -> bool)
        (JSON_parse_codes : string -> option (list string)) (JSON_codes : list string -> string).

Record AuthDB := { users : gmap Z User; cache : C; anonDB : AnonDB }.
#[export] Instance eta_AuthDB : Eta AuthDB := fun w =>
  {| users := users w; cache := cache w; anonDB := anonDB w |}.
#[export] Instance cache_lens : Lens AuthDB C.
Proof. refine {| lget := cache; lset := fun x w => w <| cache := x |> |}; [done|by intros []|done]. Defined.
#[export] Instance anon_lens : Lens AuthDB AnonDB.
Proof. refine {| lget := anonDB; lset := fun x w => w <| anonDB := x |> |}; [done|by intros []|done]. Defined.

Abbreviation action := (prog AuthDB auth_error).
Definition cache_exn (e : cache_error) : auth_error :=
  match e with ServiceUnavailable m => Http 503 m | RangeError => Plain "Invalid time value" end.
Definition db_exn (_ : db_error) : auth_error := Plain "duplicate key value".
Definition lockout {A} (p : prog C cache_error A) : action A := lift cache_exn p.

(** ** Users *)
Definition find_user (f : User -> bool) (w : AuthDB) : option User :=
  snd <$> List.find (fun kv => f kv.2) (map_to_list (users w)).

(** [src user/user.service.ts:55-63 findByEmail] *)
Definition findByEmail (email : string) : action (option User) :=
  reads (find_user (fun u => str_eqb (emailHash u) (sha256 (to_lower (trim email))))).

(** [src user/user.service.ts:75-81 findById] *)
Definition findById (id : Z) : action (option User) := reads (fun w => users w !! id).

(** [userRepository.save(user)]: the whole row. *)
Definition save (u : User) : action unit := writes (fun w => w <| users ::= <[u_id u := u]> |>).

(** The methods that read a user, change it and save it. *)
Definition with_user (id : Z) (f : User -> User) : action User :=
  let* user := findById id in
  let* u := of_option user (NotFound "User not found") in
  do* save (f u) in Ret (f u).

(** [src user/user.service.ts:302-321 setTotpSecret] *)
Definition setTotpSecret (id : Z) (encrypted iv tag : string) : action unit :=
  do* with_user id (fun u => u <| totpSecretEncrypted := Some encrypted |> <| totpSecretIv := Some iv |>
                              <| totpSecretTag := Some tag |> <| totpEnabled := true |>) in Ret tt.

(** [src user/user.service.ts:323-340 disableTotp] *)
Definition disableTotp (id : Z) : action unit :=
  do* with_user id (fun u =>
        u <| totpEnabled := false |> <| totpSecretEncrypted := None |> <| totpSecretIv := None |>
          <| totpSecretTag := None |> <| recoveryCodesEncrypted := None |> <| recoveryCodesIv := None |>
          <| recoveryCodesTag := None |>) in Ret tt.

(** [src user/user.service.ts:342-353 setRecoveryCodes] *)
Definition setRecoveryCodes (id : Z) (encrypted iv tag : string) : action unit :=
  do* with_user id (fun u => u <| recoveryCodesEncrypted := Some encrypted |> <| recoveryCodesIv := Some iv |>
                              <| recoveryCodesTag := Some tag |>) in Ret tt.

(** [src user/user.service.ts:256-262 deactivateAccount] *)
Definition deactivateAccount (id : Z) : action User := with_user id (fun u => u <| is_active := false |>).
(** [src user/user.service.ts:264-270 reactivateAccount] *)
Definition reactivateAccount (id : Z) : action User := with_user id (fun u => u <| is_active := true |>).
(** [src user/user.service.ts:282-288 setUserRole] *)
Definition setUserRole (id : Z) (r : UserRole) : action User := with_user id (fun u => u <| role := r |>).

(** [codes.indexOf(code)] and [codes.splice(idx, 1)]. *)
Fixpoint remove_first (code : string) (codes : list string) : option (list string) :=
  match codes with
  | [] => None
  | c :: cs => if str_eqb c code then Some cs else cons c <$> remove_first code cs
  end.

(** [src user/user.service.ts:355-388 consumeRecoveryCode] *)
Definition consumeRecoveryCode (id : Z) (code : string) : action bool :=
  let* user := findById id in
  let* u := of_option user (NotFound "User not found") in
  match recoveryCodesEncrypted u with
  | Some e =>
      if negb (truthy e) then Ret false
      else
      match decrypt e (default "" (recoveryCodesIv u)) (default "" (recoveryCodesTag u)) ≫= JSON_parse_codes with
      | None => Ret false
      | Some codes =>
          match remove_first code codes with
          | None => Ret false
          | Some codes' =>
              let '(e', iv, tag) := encrypt (JSON_codes codes') in
              do* save (u <| recoveryCodesEncrypted := Some e' |> <| recoveryCodesIv := Some iv |>
                          <| recoveryCodesTag := Some tag |>) in
              Ret true
          end
      end
  | None => Ret false
  end.

(** ** Login *)
Definition response_of (u : User) (email : string) : UserResponse :=
  {| r_id := u_id u; r_username := username u; r_role := role u; r_active := is_active u; r_email := email |}.
Definition decrypted (u : User) : action UserResponse :=
  match decrypt (emailEncrypted u) (emailIv u) (emailTag u) with
  | Some email => Ret (response_of u email)
  | None => Throw (Plain "Unsupported state or unable to authenticate data")
  end.

(** [src auth/auth.service.ts:45-82 validateUser] *)
Definition validateUser (email pw : string) : action (option UserResponse) :=
  let* user := findByEmail email in
  match user with
  | Some u =>
      if bcrypt_compare pw (password u) then
        if negb (is_active u)
        then Throw (App "Account is deactivated. Please reactivate your account to continue."
                        "AUTH_ACCOUNT_DEACTIVATED" 401)
        else let* r := decrypted u in Ret (Some r)
      else Ret None
  | None => Ret None
  end.

(** [src auth/auth.service.ts:235-262 validateUserById] *)
Definition validateUserById (id : Z) : action (option UserResponse) :=
  let* user := findById id in
  match user with
  | Some u => if is_active u then let* r := decrypted u in Ret (Some r) else Ret None
  | None => Ret None
  end.

(** The session token: [expiresIn: '1d'], auth.module.ts:31. *)
Definition SESSION_TTL : Z := 86400.
Definition session_claims (u : UserResponse) (scopes : list string) : Claims := {|
  sub := r_id u; c_username := Some (r_username u); c_email := Some (r_email u);
  c_role := Some (r_role u); c_scopes := Some scopes; purpose := None |}.

Record LoginResult := { access_token : T; lr_user : UserResponse; anonymousUserId : string }.

(** What one request brings: its clock and the ids for the rows it may insert. *)
Definition open_session (r : AnonRequest) (u : UserResponse) (scopes : list string) : action LoginResult :=
  let* anonymousUser := lift db_exn (getOrCreateForUserSession sha256 r (r_id u) 24) in
  Ret {| access_token := jwt_sign (session_claims u scopes) SESSION_TTL (rq_now r);
         lr_user := u; anonymousUserId := an_id anonymousUser |}.

(** [src auth/auth.service.ts:84-142 login] *)
Definition login (r : AnonRequest) (email pw : string) : action LoginResult :=
  let* lockStatus := lockout (getStatus email (rq_now r)) in
  if isLocked lockStatus
  then Throw (invalid_credentials "Too many failed login attempts. Please try again later.")
  else
    let* user := validateUser email pw in
    match user with
    | None =>
        do* lockout (recordFailedAttempt email (rq_now r)) in
        Throw (invalid_credentials "Invalid credentials")
    | Some u =>
        do* lockout (clearLockout email) in
        open_session r u
          (if bool_decide (r_role u = ADMIN) then getDefaultAdminStellarInvocationScopes else [])
    end.

Inductive LoginAnswer := LoggedIn (l : LoginResult) | TwoFactorRequired (userId : Z).

(** [src auth/auth.controller.ts:223-253 login] *)
Definition controller_login (r : AnonRequest) (email pw : string) : action LoginAnswer :=
  try_catch
    (let* validated := validateUser email pw in
     match validated with
     | None => Throw (Unauthorized "Invalid credentials")
     | Some _ =>
         let* dbUser := findByEmail email in
         match dbUser with
         | Some u =>
             if totpEnabled u then Ret (TwoFactorRequired (u_id u))
             else let* result := login r email pw in Ret (LoggedIn result)
         | None => let* result := login r email pw in Ret (LoggedIn result)
         end
     end)
    (fun error =>
       if is_http error then Throw error else Throw (BadRequest ("Login failed: " +:+ error_message error))).

(** The TOTP secret of a user, when all three columns are set. *)
Definition totp_columns (u : User) : option (string * string * string) :=
  match totpSecretEncrypted u, totpSecretIv u, totpSecretTag u with
  | Some e, Some iv, Some tag => if truthy e && truthy iv && truthy tag then Some (e, iv, tag) else None
  | _, _, _ => None
  end.

(** [src auth/auth.controller.ts:139-197 login2fa] *)
Definition login2fa (r : AnonRequest) (userId : Z) (token recoveryCode : option string)
    : action LoginResult :=
  if userId =? 0 then Throw (BadRequest "Missing userId") else
  let* valid := validateUserById userId in
  let* user := of_option valid (Unauthorized "Invalid user") in
  let* dbUser := findById userId in
  if truthy_opt recoveryCode then
    let* consumed := consumeRecoveryCode userId (default "" recoveryCode) in
    if negb consumed then Throw (Unauthorized "Invalid recovery code")
    else open_session r user []
  else if negb (truthy_opt token) then Throw (BadRequest "Missing token")
  else
    match dbUser ≫= totp_columns with
    | None => Throw (Unauthorized "TOTP not configured")
    | Some (e, iv, tag) =>
        match decrypt e iv tag with
        | None => Throw (Unauthorized "Failed to decrypt TOTP secret")
        | Some secret =>
            if totp_verify secret (default "" token) (rq_now r) then open_session r user []
            else Throw (Unauthorized "Invalid TOTP token")
        end
    end.

(** ** Sessions *)
Definition STEP_UP_TOKEN_PURPOSE : string := "step_up".

(** [src auth/jwt.strategy.ts:23-55 validate] *)
Definition validate (payload : Claims) : action RequestUser :=
  if bool_decide (purpose payload = Some STEP_UP_TOKEN_PURPOSE) then Throw (Plain "Invalid token")
  else
    let* user := findById (sub payload) in
    match user with
    | None => Throw (Plain "User not found")
    | Some u =>
        if negb (is_active u) then Throw (Unauthorized "Account is deactivated")
        else Ret {| q_id := sub payload; q_username := c_username payload; q_email := c_email payload;
                    q_role := role u; q_scopes := default [] (c_scopes payload) |}
    end.

(** [src auth/jwt-auth.guard.ts:15-47 mapJwtAuthError] *)
Definition mapJwtAuthError (message : string) : auth_error :=
  let normalized := to_lower message in
  let has s := contains_str s normalized in
  if has "jwt expired" || has "token expired" || has "expired"
  then App "Authentication token has expired" "AUTH_SESSION_EXPIRED" 401
  else if has "invalid token" || has "invalid signature" || has "jwt malformed" || has "no auth token"
          || has "invalid jwt"
  then App "Invalid authentication token" "AUTH_TOKEN_INVALID" 401
  else App "Unauthorized" "AUTH_UNAUTHORIZED" 401.

(** [src auth/jwt-auth.guard.ts:49-72 handleRequest]: the token is verified, its
    payload validated, and every failure mapped by its message. *)
Definition handleRequest (token : T) (now : ms) : action RequestUser :=
  try_catch
    (match jwt_verify token now with
     | Valid c _ => validate c
     | Expired => Throw (Plain "jwt expired")
     | Invalid m => Throw (Plain m)
     end)
    (fun e => Throw (mapJwtAuthError (if truthy (error_message e) then error_message e else "Unauthorized"))).

(** ** Step-up proofs *)
Definition DEFAULT_STEP_UP_TTL_SECONDS : Z := 300.

(** [src auth/step-up.service.ts:43-56 constructor] *)
Definition step_up_ttl (configured : option string) : Z :=
  match parseInt (default "" configured) with
  | Some n => if 0 <? n then n else DEFAULT_STEP_UP_TTL_SECONDS
  | None => DEFAULT_STEP_UP_TTL_SECONDS
  end.

(** [src auth/step-up.service.ts:154-197 verifyTotp] *)
Definition verifyTotp (u : User) (token : string) (now : ms) : action bool :=
  if negb (totpEnabled u) then Throw (invalid_credentials "TOTP is not configured for this account")
  else match totp_columns u with
       | None => Throw (invalid_credentials "TOTP is not configured for this account")
       | Some (e, iv, tag) =>
           match decrypt e iv tag with
           | None => Throw (invalid_credentials "Failed to verify TOTP token")
           | Some secret => Ret (totp_verify secret token now)
           end
       end.

Record StepUpProofResult := { stepUpToken : T; expiresIn : Z }.
Definition proof_claims (userId : Z) : Claims := {|
  sub := userId; c_username := None; c_email := None; c_role := None; c_scopes := None;
  purpose := Some STEP_UP_TOKEN_PURPOSE |}.

(** [src auth/step-up.service.ts:62-111 createProof] *)
Definition createProof (ttl : Z) (userId : Z) (pw totpToken : option string) (now : ms)
    : action StepUpProofResult :=
  let* user := findById userId in
  match user with
  | None => Throw (App "User not found" "NOT_FOUND" 404)
  | Some u =>
      let* verified :=
        if truthy_opt totpToken then verifyTotp u (default "" totpToken) now
        else if truthy_opt pw then Ret (bcrypt_compare (default "" pw) (password u))
        else Throw (App "Either password or totpToken must be provided" "MISSING_PARAMETER" 400) in
      if negb verified then Throw (invalid_credentials "Step-up verification failed")
      else Ret {| stepUpToken := jwt_sign (proof_claims userId) ttl now; expiresIn := ttl |}
  end.

(** [src auth/step-up.service.ts:118-152 assertValidProof] *)
Definition assertValidProof (userId : Z) (token : option T) (now : ms) : outcome auth_error unit :=
  match token with
  | None => Exn (App "Step-up authentication is required for this action" "AUTH_STEP_UP_REQUIRED" 403)
  | Some tok =>
      match jwt_verify tok now with
      | Expired => Exn (App "Step-up proof has expired — please re-authenticate" "AUTH_STEP_UP_EXPIRED" 403)
      | Invalid _ => Exn (App "Invalid step-up proof" "AUTH_STEP_UP_INVALID" 403)
      | Valid payload _ =>
          if bool_decide (purpose payload <> Some STEP_UP_TOKEN_PURPOSE) || negb (sub payload =? userId)
          then Exn (App "Invalid step-up proof" "AUTH_STEP_UP_INVALID" 403)
          else Ok tt
      end
  end.

(** [src auth/guards/step-up.guard.ts:25-42 canActivate]: the header may be an
    array. *)
Definition step_up_guard (user : option RequestUser) (header : list T) (now : ms) : outcome auth_error bool :=
  match user with
  | None => Exn (App "User is not authenticated" "AUTH_UNAUTHORIZED" 401)
  | Some u =>
      match assertValidProof (q_id u) (head header) now with
      | Ok _ => Ok true
      | Exn e => Exn e
      end
  end.

(** ** Sockets

    A handshake verifies its token itself: none of them asks for its purpose or its
    revocation, and the first keeps the number as text. *)
Record SocketData := { so_userId : Z; so_username : option string; so_user : option (Z * UserRole * bool) }.
(** [src notifications/gateways/notification.gateway.ts:59-78 afterInit]: the user of the
    room a socket may listen to. *)
Definition notification_handshake (token : option T) (now : ms) : outcome string SocketData :=
  match token with
  | None => Exn "Authentication failed"
  | Some tok =>
      match jwt_verify tok now with
      | Valid payload _ =>
          if sub payload =? 0 then Exn "Authentication failed"
          else Ok {| so_userId := sub payload; so_username := c_username payload; so_user := None |}
      | _ => Exn "Authentication failed"
      end
  end.
(** [src auth/guards/ws-jwt.guard.ts:32-124 canActivate], where the users may not be at
    hand. *)
Definition ws_canActivate (has_users : bool) (token : option T) (now : ms) : action SocketData :=
  let failed reason := Throw (App "Authentication failed" reason 401) in
  match token with
  | None => failed "NO_TOKEN_PROVIDED"
  | Some tok =>
      match jwt_verify tok now with
      | Expired => failed "EXPIRED_TOKEN"
      | Invalid _ => failed "MALFORMED_TOKEN"
      | Valid payload _ =>
          if sub payload =? 0 then failed "MALFORMED_TOKEN"
          else
            let data := {| so_userId := sub payload; so_username := c_username payload; so_user := None |} in
            if negb has_users then Ret data
            else
              let* user := findById (sub payload) in
              match user with
              | Some u => Ret {| so_userId := sub payload; so_username := c_username payload; so_user := Some (u_id u, role u, is_active u) |}
              | None => Ret data
              end
      end
  end.
(** [src admin/realtime/admin.gateway.ts:86-148 handleConnection]: the administrator who
    joins the room, or nobody. *)
Definition admin_connection (token : option T) (now : ms) : action (option (Z * UserRole)) :=
  match token with
  | None => Ret None
  | Some tok =>
      match jwt_verify tok now with
      | Valid payload _ =>
          let* user := findById (sub payload) in
          match user with
          | Some u => if bool_decide (role u = ADMIN) then Ret (Some (sub payload, role u)) else Ret None
          | None => Ret None
          end
      | _ => Ret None
      end
  end.

(** ** Lemmas *)

(** Users are stored under their id. *)
Definition users_ok (w : AuthDB) : Prop := forall k u, users w !! k = Some u -> u_id u = k.

Definition credential_of (email pw : string) (w : AuthDB) : option User :=
  match find_user (fun u => str_eqb (emailHash u) (sha256 (to_lower (trim email)))) w with
  | Some u => if bcrypt_compare pw (password u) then Some u else None
  | None => None
  end.

Lemma find_user_Some f w u :
  users_ok w -> find_user f w = Some u -> users w !! u_id u = Some u /\ f u = true.
Proof using C.
  intros Hok. unfold find_user. rewrite fmap_Some. intros ([k v] & Hf & ->).
  apply List.find_some in Hf as [Hin Hp]. apply list_elem_of_In, elem_of_map_to_list in Hin.
  cbn in *. by rewrite (Hok _ _ Hin).
Qed.

Lemma run_validateUser email pw w :
  run (validateUser email pw) w =
  (match credential_of email pw w with
   | Some u =>
       if negb (is_active u)
       then Exn (App "Account is deactivated. Please reactivate your account to continue."
                     "AUTH_ACCOUNT_DEACTIVATED" 401)
       else match decrypt (emailEncrypted u) (emailIv u) (emailTag u) with
            | Some email => Ok (Some (response_of u email))
            | None => Exn (Plain "Unsupported state or unable to authenticate data")
            end
   | None => Ok None
   end, w).
Proof.
  unfold validateUser, findByEmail, credential_of, decrypted. run_simp.
  destruct (find_user _ w) as [u|]; [|done]. destruct (bcrypt_compare pw (password u)); [|done].
  destruct (negb (is_active u)); [done|]. run_simp. by destruct (decrypt _ _ _).
Qed.

Lemma run_lockout_status email now w : exists o, run (lockout (getStatus email now)) w = (o, w).
Proof.
  unfold lockout. rewrite run_lift. destruct (getStatus_reads email now (lget w)) as [o ->].
  exists (map_exn cache_exn o). by rewrite lset_lget.
Qed.

(** [open_session] signs a session token and touches the identities only. *)
Lemma open_session_inv r u scopes w o w' :
  run (open_session r u scopes) w = (o, w') ->
  cache w' = cache w /\ users w' = users w /\
  forall l, o = Ok l -> access_token l = jwt_sign (session_claims u scopes) SESSION_TTL (rq_now r) /\ lr_user l = u.
Proof.
  unfold open_session. run_simp.
  destruct (run (getOrCreateForUserSession _ _ _ _) _) as [[a|e] d]; cbn [map_exn];
    run_simp; intros [= <- <-]; (split; [done|split; [done|]]); intros l [= <-]. done.
Qed.

Lemma open_session_Ok l r u scopes w w' :
  run (open_session r u scopes) w = (Ok l, w') ->
  access_token l = jwt_sign (session_claims u scopes) SESSION_TTL (rq_now r) /\ lr_user l = u.
Proof. intros H. by apply (open_session_inv _ _ _ _ _ _ H). Qed.

(** A login that gets past the password check neither counts nor locks. *)
Lemma login_credentialed r email pw u w o w' :
  credential_of email pw w = Some u -> run (login r email pw) w = (o, w') ->
  forall k now v, cache_get k now (cache w') = Some v -> cache_get k now (cache w) = Some v.
Proof.
  intros Hu. unfold login. run_simp.
  destruct (run_lockout_status email (rq_now r) w) as [[st|e] ->]; [|by intros [= <- <-]].
  destruct (isLocked st); [by intros [= <- <-]|]. run_simp. rewrite run_validateUser, Hu.
  destruct (negb (is_active u)); [by intros [= <- <-]|].
  destruct (decrypt _ _ _) as [em|]; [|by intros [= <- <-]].
  unfold lockout, clearLockout. run_simp.
  intros Hopen k now v. destruct (open_session_inv _ _ _ _ _ _ Hopen) as [-> _]. cbn.
  intros Hk. destruct (decide (k = LOCKED_KEY email)) as [->|].
  { by rewrite cache_get_del in Hk. }
  rewrite cache_get_del_ne in Hk by done.
  destruct (decide (k = ATTEMPTS_KEY email)) as [->|]; [by rewrite cache_get_del in Hk|].
  by rewrite cache_get_del_ne in Hk.
Qed.

Lemma controller_login_cache r email pw w k now v :
  cache_get k now (cache (run (controller_login r email pw) w).2) = Some v ->
  cache_get k now (cache w) = Some v.
Proof.
  unfold controller_login. run_simp. rewrite run_validateUser.
  destruct (credential_of email pw w) as [u|] eqn:Hu; [|run_simp; done].
  assert (forall o w', run (login r email pw) w = (o, w') ->
    forall k now v, cache_get k now (cache w') = Some v -> cache_get k now (cache w) = Some v) as Hlogin
    by (intros; by eapply login_credentialed).
  destruct (negb (is_active u)); [run_simp; done|].
  destruct (decrypt _ _ _) as [em|]; [|run_simp; done]. unfold findByEmail. run_simp.
  assert (forall A (f : LoginResult -> A), 
    cache_get k now (cache (run (try_catch (let* result := login r email pw in Ret (f result)) (fun error =>
       if is_http error then Throw error else Throw (BadRequest ("Login failed: " +:+ error_message error)))) w).2)
      = Some v -> cache_get k now (cache w) = Some v) as Hl.
  { intros A f. run_simp. destruct (run (login r email pw) w) as [[l|e] w'] eqn:Hr; run_simp; [by eapply Hlogin|].
    destruct (is_http e); run_simp; by eapply Hlogin. }
  destruct (find_user _ w) as [d|]; [destruct (totpEnabled d); [by run_simp|]|].
  - intros Hv. apply (Hl _ LoggedIn). revert Hv. by run_simp.
  - intros Hv. apply (Hl _ LoggedIn). revert Hv. by run_simp.
Qed.

(** What the guard makes of a token it can verify. *)
Lemma handleRequest_session u scopes t now w :
  run (handleRequest (jwt_sign (session_claims u scopes) SESSION_TTL t) now) w =
  (if secs now <? secs t + SESSION_TTL then
     match users w !! r_id u with
     | Some v =>
         if is_active v
         then Ok {| q_id := r_id u; q_username := Some (r_username u); q_email := Some (r_email u);
                    q_role := role v; q_scopes := scopes |}
         else Exn (App "Unauthorized" "AUTH_UNAUTHORIZED" 401)
     | None => Exn (App "Unauthorized" "AUTH_UNAUTHORIZED" 401)
     end
   else Exn (App "Authentication token has expired" "AUTH_SESSION_EXPIRED" 401), w).
Proof.
  unfold handleRequest. run_simp. rewrite jwt_verify_sign.
  destruct (secs now <? secs t + SESSION_TTL); [|done]. unfold validate.
  rewrite bool_decide_eq_false_2 by done. unfold findById. run_simp. cbn [sub session_claims].
  destruct (users w !! r_id u) as [v|]; [|done]. by destruct (is_active v).
Qed.

(** ** Properties *)

(** A login answers for the user with the given address and password, active and
    not locked out.  Its token opens the user's session, with the role the user
    has at the time of use, for a day and as long as the account exists and is
    active; after the day it reports an expired session. It is no step-up proof. *)
Theorem login_session r email pw l w w' :
  users_ok w -> run (login r email pw) w = (Ok l, w') ->
  exists u em, credential_of email pw w = Some u /\ is_active u = true
    /\ users w !! u_id u = Some u /\ lr_user l = response_of u em
    /\ (forall now v, run (handleRequest (access_token l) now) v =
         (if secs now <? secs (rq_now r) + SESSION_TTL then
            match users v !! u_id u with
            | Some x =>
                if is_active x
                then Ok {| q_id := u_id u; q_username := Some (username u); q_email := Some em;
                           q_role := role x;
                           q_scopes := if bool_decide (role u = ADMIN)
                                       then getDefaultAdminStellarInvocationScopes else [] |}
                else Exn (App "Unauthorized" "AUTH_UNAUTHORIZED" 401)
            | None => Exn (App "Unauthorized" "AUTH_UNAUTHORIZED" 401)
            end
          else Exn (App "Authentication token has expired" "AUTH_SESSION_EXPIRED" 401), v))
    /\ (forall id now, assertValidProof id (Some (access_token l)) now <> Ok tt).
Proof.
  intros Hok. unfold login. run_simp.
  destruct (run_lockout_status email (rq_now r) w) as [[st|e] ->]; [|done].
  destruct (isLocked st); [done|]. run_simp. rewrite run_validateUser.
  destruct (credential_of email pw w) as [u|] eqn:Hu.
  2: { run_simp. destruct (run (lockout _) w) as [[?|?] ?]; done. }
  destruct (is_active u) eqn:Hact; [|done]. cbn [negb].
  destruct (decrypt _ _ _) as [em|] eqn:Hem; [|done].
  destruct (run (lockout (clearLockout email)) w) as [[[]|e] w1] eqn:Hcl; [|by run_simp; rewrite Hcl].
  run_simp. rewrite Hcl. intros Hopen. destruct (open_session_Ok _ _ _ _ _ _ Hopen) as [Ht Hl].
  exists u, em. split_and!; try done.
  - unfold credential_of in Hu. destruct (find_user _ w) as [x|] eqn:Hx; [|done].
    destruct (bcrypt_compare _ _); [|done]. simplify_eq. by eapply find_user_Some.
  - intros now v. rewrite Ht. apply handleRequest_session.
  - intros id now. rewrite Ht. unfold assertValidProof. rewrite jwt_verify_sign. 
    destruct (secs now <? _); [|done]. by rewrite bool_decide_eq_true_2.
Qed.

(** C34. A step-up proof takes a fresh credential of its user, is accepted for that
    user alone and until the whole second its time is over, and the guard of the HTTP
    routes does not take it for a session; nothing is written. *)
Theorem step_up_proof ttl userId pw totpToken now p w w' :
  run (createProof ttl userId pw totpToken now) w = (Ok p, w') ->
  w' = w
  /\ (exists u, users w !! userId = Some u
       /\ ((exists s e iv tag t, totpEnabled u = true /\ totp_columns u = Some (e, iv, tag)
               /\ decrypt e iv tag = Some s /\ totpToken = Some t /\ totp_verify s t now = true)
           \/ exists q, pw = Some q /\ bcrypt_compare q (password u) = true))
  /\ (forall id now', assertValidProof id (Some (stepUpToken p)) now' = Ok tt
                     <-> id = userId /\ secs now' < secs now + ttl)
  /\ (forall now' v, exists e, run (handleRequest (stepUpToken p) now') v = (Exn e, v)).
Proof.
  unfold createProof, findById. run_simp. destruct (users w !! userId) as [u|] eqn:Hu; [|done].
  set (check := if truthy_opt totpToken then _ else _).
  assert (forall o v, run check w = (o, v) -> v = w /\ (o = Ok true ->
    ((exists s e iv tag t, totpEnabled u = true /\ totp_columns u = Some (e, iv, tag)
               /\ decrypt e iv tag = Some s /\ totpToken = Some t /\ totp_verify s t now = true)
           \/ exists q, pw = Some q /\ bcrypt_compare q (password u) = true))) as Hcheck.
  { unfold check. intros o v. destruct totpToken as [t|]; [destruct (truthy_opt (Some t))|cbn [truthy_opt from_option]].
    - cbn [default from_option]. unfold verifyTotp. destruct (totpEnabled u) eqn:He; [|by intros [= <- <-]].
      cbn [negb]. destruct (totp_columns u) as [[[e iv] tag]|] eqn:Hc; [|by intros [= <- <-]].
      destruct (decrypt e iv tag) as [s|] eqn:Hd; [|by intros [= <- <-]].
      cbn. intros [= <- <-]. split; [done|]. intros [= Hv]. left. eauto 10.
    - destruct pw as [q|]; [|by intros [= <- <-]]. destruct (truthy_opt (Some q)); [|by intros [= <- <-]].
      cbn. intros [= <- <-]. split; [done|]. intros [= Hv]. right. eauto.
    - destruct pw as [q|]; [|by intros [= <- <-]]. destruct (truthy_opt (Some q)); [|by intros [= <- <-]].
      cbn. intros [= <- <-]. split; [done|]. intros [= Hv]. right. eauto. }
  run_simp. destruct (run check w) as [[[]|e] v] eqn:Hrun; cbn [negb]; [|done..].
  destruct (Hcheck _ _ eq_refl) as [-> Hcred]. intros [= <- <-]. split; [done|].
  split; [eauto|]. cbn [stepUpToken]. split.
  - intros id now'. unfold assertValidProof. rewrite jwt_verify_sign.
    destruct (Z.ltb_spec (secs now') (secs now + ttl)); [|split; [done|lia]].
    rewrite bool_decide_eq_false_2 by (intros Hne; by apply Hne). cbn [sub proof_claims orb].
    destruct (Z.eqb_spec userId id) as [->|Hne]; cbn [negb]; split; [by intros _|done|done|intros [-> _]; by destruct Hne].
  - intros now' v'. unfold handleRequest. run_simp. rewrite jwt_verify_sign.
    destruct (secs now' <? secs now + ttl); [|eauto]. unfold validate.
    rewrite bool_decide_eq_true_2 by done. run_simp. eauto.
Qed.

(** The sockets take a step-up proof for a session, as long as it is valid: of its user
    for notifications and reactions, and in the room of the administrators if he is one,
    deactivated or not. *)
Theorem proof_opens_sockets ttl userId pw totpToken now p w w' now' v u :
  run (createProof ttl userId pw totpToken now) w = (Ok p, w') -> userId <> 0 -> secs now' < secs now + ttl -> users v !! userId = Some u ->
  let data x := {| so_userId := userId; so_username := None; so_user := x |} in
  notification_handshake (Some (stepUpToken p)) now' = Ok (data None)
  /\ run (ws_canActivate false (Some (stepUpToken p)) now') v = (Ok (data None), v)
  /\ run (ws_canActivate true (Some (stepUpToken p)) now') v = (Ok (data (Some (u_id u, role u, is_active u))), v)
  /\ (role u = ADMIN -> run (admin_connection (Some (stepUpToken p)) now') v = (Ok (Some (userId, ADMIN)), v)).
Proof.
  intros Hp H0 Hlt Hu. assert (stepUpToken p = jwt_sign (proof_claims userId) ttl now) as ->.
  { revert Hp. unfold createProof. run_simp. destruct (run (findById userId) w) as [[[x|]|e] w1]; [|done..]. run_simp.
    match goal with |- context [run ?q w1] => destruct (run q w1) as [[[]|e] w2]; cbn [negb]; [|done..] end. by intros [= <- <-]. }
  unfold notification_handshake, ws_canActivate, admin_connection. rewrite jwt_verify_sign, (proj2 (Z.ltb_lt _ _) Hlt). cbn [sub proof_claims c_username].
  rewrite (proj2 (Z.eqb_neq _ _) H0). cbn [negb]. unfold findById. run_simp. rewrite Hu. split_and!; [done..|]. intros Hr. by rewrite Hr.
Qed.

(** A revocation outlives the tokens it revokes: whatever login issued no later
    than the revocation is afterwards either expired or refused by the session
    check, for ever. *)
Theorem revocation_outlives_tokens u scopes t0 t now userId c :
  0 < t -> t0 <= t -> t <= now ->
  let tok := jwt_sign (session_claims u scopes) SESSION_TTL t0 in
  let c' := (run (revokeUserSessions true true userId t) c).2 in
  jwt_verify tok now = Expired
  \/ exists iat, jwt_verify tok now = Valid (session_claims u scopes) iat
      /\ (run (isSessionValid true userId iat now) c').1 = Ok false.
Proof.
  intros Ht Ht0 Hnow tok c'. subst tok. rewrite jwt_verify_sign. unfold SESSION_TTL.
  destruct (Z.ltb_spec (secs now) (secs t0 + 86400)) as [Hlt|]; [|by left].
  right. exists (secs t0). split; [done|]. subst c'. cbn [negb revokeUserSessions]. run_simp.
  unfold isSessionValid. run_simp. unfold secs in *.
  pose proof (Z.mul_div_le t0 1000 ltac:(done)). pose proof (Z.mul_succ_div_gt now 1000 ltac:(done)).
  rewrite cache_get_set by lia. rewrite (proj2 (Z.ltb_lt _ _)) by lia.
  unfold truthy_num. rewrite (proj2 (Z.eqb_neq _ _)) by lia. cbn [negb].
  by rewrite (proj2 (Z.ltb_ge _ _)) by lia.
Qed.

(** Through the login route no account is ever locked: the password is checked
    before the lockout service is asked, and a wrong one is refused there, so
    that failures are never counted. *)
Theorem route_never_locks (attempts : list (AnonRequest * string * string)) email now w :
  cache_get (LOCKED_KEY email) now (cache w) = None ->
  cache_get (LOCKED_KEY email) now
    (cache (fold_left (fun w q => (run (controller_login q.1.1 q.1.2 q.2) w).2) attempts w)) = None.
Proof.
  revert w; induction attempts as [|q qs IH]; intros w Hw; cbn [fold_left]; [done|]. apply IH.
  destruct (cache_get _ now (cache (run (controller_login q.1.1 q.1.2 q.2) w).2)) as [v|] eqn:Hv; [|done].
  apply controller_login_cache in Hv. congruence.
Qed.

(** The second factor is the only one: a current TOTP code and the number of the
    account open a session, without a password. *)
Theorem totp_code_alone_logs_in r userId u em e iv tag s code w :
  userId <> 0 -> users w !! userId = Some u -> is_active u = true ->
  decrypt (emailEncrypted u) (emailIv u) (emailTag u) = Some em ->
  totp_columns u = Some (e, iv, tag) -> decrypt e iv tag = Some s ->
  truthy code = true -> totp_verify s code (rq_now r) = true ->
  run (login2fa r userId (Some code) None) w = run (open_session r (response_of u em) []) w.
Proof.
  intros Hid Hu Hact Hem Hc Hd Ht Hv. unfold login2fa, validateUserById, findById, decrypted.
  rewrite (proj2 (Z.eqb_neq _ _)) by done. run_simp. rewrite Hu, Hact, Hem. run_simp. rewrite Hu.
  cbn [truthy_opt from_option mbind option_bind default]. rewrite Ht, Hc, Hd. cbn. by rewrite Hv.
Qed.

(** ** Recovery codes *)

(** Encryption and JSON are read back. *)
Definition readable : Prop :=
  (forall s, let '(e, iv, tag) := encrypt s in decrypt e iv tag = Some s /\ truthy e = true)
  /\ forall codes, JSON_parse_codes (JSON_codes codes) = Some codes.

(** The codes a user still has. *)
Definition codes_of (u : User) : option (list string) :=
  match recoveryCodesEncrypted u with
  | Some e => if truthy e
              then decrypt e (default "" (recoveryCodesIv u)) (default "" (recoveryCodesTag u)) ≫= JSON_parse_codes
              else None
  | None => None
  end.

Lemma run_consume id code w :
  run (consumeRecoveryCode id code) w =
  match users w !! id with
  | None => (Exn (NotFound "User not found"), w)
  | Some u =>
      match codes_of u ≫= remove_first code with
      | None => (Ok false, w)
      | Some codes' =>
          let '(e', iv, tag) := encrypt (JSON_codes codes') in
          (Ok true, w <| users ::= <[u_id u := u <| recoveryCodesEncrypted := Some e' |>
              <| recoveryCodesIv := Some iv |> <| recoveryCodesTag := Some tag |>]> |>)
      end
  end.
Proof.
  unfold consumeRecoveryCode, findById, codes_of, save. run_simp.
  destruct (users w !! id) as [u|]; [|done]. destruct (recoveryCodesEncrypted u) as [e|]; [|done].
  destruct (truthy e); [|done]. cbn [negb]. destruct (decrypt e _ _ ≫= JSON_parse_codes) as [cs|]; [|done].
  cbn [mbind option_bind]. destruct (remove_first code cs) as [cs'|]; [|done].
  destruct (encrypt (JSON_codes cs')) as [[e' iv] tag]. by run_simp.
Qed.

Lemma remove_first_spec code codes codes' :
  NoDup codes -> remove_first code codes = Some codes' ->
  code ∈ codes /\ NoDup codes' /\ forall c, c ∈ codes' <-> c ∈ codes /\ c <> code.
Proof.
  clear. revert codes'; induction codes as [|c cs IH]; intros codes' Hnd; cbn; [done|].
  apply NoDup_cons in Hnd as [Hc Hcs]. destruct (str_eqb_spec c code) as [->|Hne].
  - intros [= <-]. split_and!; [set_solver|done|]. intros x. set_solver.
  - intros (cs' & Hr & ->)%fmap_Some. destruct (IH _ Hcs Hr) as (? & ? & Hin). split_and!; [set_solver| |].
    + apply NoDup_cons. rewrite Hin. naive_solver.
    + intros x. rewrite !elem_of_cons, Hin. naive_solver.
Qed.

Lemma remove_first_None code codes : remove_first code codes = None <-> code ∉ codes.
Proof.
  clear. induction codes as [|c cs IH]; cbn; [split; [set_solver|done]|].
  destruct (str_eqb_spec c code) as [->|Hne]; [split; [done|set_solver]|].
  rewrite fmap_None, IH. set_solver.
Qed.

(** A recovery code works once, and using it costs no other code: exactly the
    others are left. *)
Theorem recovery_code_single_use id code u codes w :
  readable -> users_ok w -> users w !! id = Some u -> codes_of u = Some codes -> NoDup codes ->
  code ∈ codes ->
  exists w', run (consumeRecoveryCode id code) w = (Ok true, w')
    /\ run (consumeRecoveryCode id code) w' = (Ok false, w')
    /\ (exists u' codes', users w' !! id = Some u' /\ codes_of u' = Some codes'
        /\ forall c, c ∈ codes' <-> c ∈ codes /\ c <> code)
    /\ (forall id', id' <> id -> users w' !! id' = users w !! id').
Proof.
  intros [Henc Hjson] Hok Hu Hcodes Hnd Hin. rewrite run_consume, Hu, Hcodes. cbn [mbind option_bind].
  destruct (remove_first code codes) as [codes'|] eqn:Hr; [|by apply remove_first_None in Hr].
  specialize (Henc (JSON_codes codes')). destruct (encrypt (JSON_codes codes')) as [[e iv] tag].
  destruct Henc as [Hdec Htr]. set (u' := u <| recoveryCodesEncrypted := _ |> <| recoveryCodesIv := _ |> <| _ := _ |>).
  assert (codes_of u' = Some codes') as Hc'.
  { unfold codes_of. cbn. rewrite Htr, Hdec. cbn. apply Hjson. }
  eexists. split; [done|]. rewrite (Hok _ _ Hu).
  destruct (remove_first_spec _ _ _ Hnd Hr) as (_ & _ & Hcs). split_and!.
  - rewrite run_consume. cbn. rewrite lookup_insert_eq, Hc'. cbn [mbind option_bind].
    rewrite (proj2 (remove_first_None code codes')); [done|]. rewrite Hcs. by intros [_ ?].
  - exists u', codes'. cbn. by rewrite lookup_insert_eq.
  - intros id' Hne. cbn. by rewrite lookup_insert_ne.
Qed.
End auth.

(** ** Witnesses *)
Definition ex_token : Type := Claims * Z * ms.
Definition ex_verify (tok : ex_token) (now : ms) : jwt_result :=
  let '(c, ttl, t) := tok in if secs now <? secs t + ttl then Valid c (secs t) else Expired.
#[export] Instance ex_jwt : Jwt ex_token.
Proof.
  refine {| jwt_sign := fun c ttl t => (c, ttl, t); jwt_verify := ex_verify |}; [done|].
  intros [[c ttl] t] now c' iat. unfold ex_verify. case_match; [|done]. intros [= -> <-]. by exists ttl, t.
Defined.

(** A cipher that prepends a letter, and an encoding of lists of codes. *)
Definition ex_encrypt (s : string) : string * string * string := (String "x" s, "iv", "tag").
Definition ex_decrypt (e iv tag : string) : option string :=
  match e with String _ s => Some s | EmptyString => None end.
Fixpoint ex_bits (p : positive) : string :=
  match p with
  | xH => EmptyString
  | xO p => String "0" (ex_bits p)
  | xI p => String "1" (ex_bits p)
  end.
Fixpoint ex_unbits (s : string) : positive :=
  match s with
  | EmptyString => 1%positive
  | String c s' => if Ascii.eqb c "1"%char then xI (ex_unbits s') else xO (ex_unbits s')
  end.
Definition ex_JSON (codes : list string) : string := ex_bits (encode codes).
Definition ex_parse (s : string) : option (list string) := decode (ex_unbits s).
Lemma ex_readable : readable ex_decrypt ex_encrypt ex_parse ex_JSON.
Proof.
  split; [done|]. intros codes. unfold ex_parse, ex_JSON.
  assert (forall p, ex_unbits (ex_bits p) = p) as -> by (induction p; cbn; congruence). apply decode_encode.
Qed.

Definition ex_user : User := {|
  u_id := 7; username := "alice"; password := "s3cret"; emailEncrypted := "xa@b.c"; emailIv := "iv";
  emailTag := "tag"; emailHash := "a@b.c"; role := ADMIN; is_active := true; resetPasswordToken := None;
  resetPasswordExpires := None; totpEnabled := true; totpSecretEncrypted := Some "xsecret";
  totpSecretIv := Some "iv"; totpSecretTag := Some "tag";
  recoveryCodesEncrypted := Some (String "x" (ex_JSON ["A1"; "B2"])); recoveryCodesIv := Some "iv";
  recoveryCodesTag := Some "tag" |}.
Definition ex_world : AuthDB (C := map_cache) :=
  {| users := {[ 7 := ex_user ]}; cache := ∅; anonDB := ex_empty |}.
Definition ex_totp (secret token : string) (now : ms) : bool := str_eqb secret "secret" && str_eqb token "123456".
Definition ex_login :=
  run (login (T := ex_token) (fun s => s) str_eqb ex_decrypt (ex_request "1" 1000) " A@b.c" "s3cret") ex_world.
Definition ex_no_login : LoginResult (T := ex_token) :=
  {| access_token := (proof_claims 0, 0, 0);
     lr_user := {| r_id := 0; r_username := ""; r_role := USER; r_active := false; r_email := "" |};
     anonymousUserId := "" |}.
Definition ex_result : LoginResult := match ex_login.1 with Ok l => l | Exn _ => ex_no_login end.

Lemma ex_users_ok : users_ok ex_world.
Proof. intros k u. cbn. by intros [<- <-]%lookup_singleton_Some. Qed.

Lemma login_session_witness :
  exists u em, credential_of (fun s => s) str_eqb " A@b.c" "s3cret" ex_world = Some u
    /\ is_active u = true /\ users ex_world !! u_id u = Some u /\ lr_user ex_result = response_of u em.
Proof.
  destruct (login_session (T := ex_token) (fun s => s) str_eqb ex_decrypt (ex_request "1" 1000) " A@b.c" "s3cret"
              ex_result ex_world ex_login.2 ex_users_ok) as (u & em & H1 & H2 & H3 & H4 & _).
  - vm_compute. reflexivity.
  - exists u, em. auto.
Defined.

Definition ex_proof : StepUpProofResult (T := ex_token) :=
  {| stepUpToken := (proof_claims 7, 300, 1000); expiresIn := 300 |}.
Lemma step_up_proof_witness :
  assertValidProof (T := ex_token) 7 (Some (stepUpToken ex_proof)) 300999 = Ok tt
  /\ assertValidProof (T := ex_token) 8 (Some (stepUpToken ex_proof)) 1000 <> Ok tt.
Proof.
  destruct (step_up_proof (C := map_cache) (T := ex_token) str_eqb ex_decrypt ex_totp 300 7 None (Some "123456") 1000
              ex_proof ex_world ex_world) as (_ & _ & H & _).
  - vm_compute. reflexivity.
  - split; [apply H; split; [done|vm_compute; reflexivity]|]. intros Hv%H. destruct Hv as [Hv _]. discriminate.
Defined.

Lemma revocation_outlives_tokens_witness :
  let u := response_of ex_user "a@b.c" in
  let tok := jwt_sign (T := ex_token) (session_claims u []) SESSION_TTL 5000 in
  let c' := (run (revokeUserSessions true true "7" 6000) (∅ : map_cache)).2 in
  jwt_verify tok 7000 = Expired
  \/ exists iat, jwt_verify tok 7000 = Valid (session_claims u []) iat
      /\ (run (isSessionValid true "7" iat 7000) c').1 = Ok false.
Proof. apply (revocation_outlives_tokens (T := ex_token)); lia. Defined.

Lemma route_never_locks_witness :
  cache_get (LOCKED_KEY "a@b.c") 9000
    (cache (fold_left (fun w q =>
       (run (controller_login (T := ex_token) (fun s => s) str_eqb ex_decrypt q.1.1 q.1.2 q.2) w).2)
       (repeat (ex_request "1" 1000, "a@b.c", "wrong") 20) ex_world)) = None.
Proof. apply (route_never_locks (T := ex_token)). reflexivity. Defined.

Lemma totp_code_alone_logs_in_witness :
  run (login2fa (T := ex_token) (fun s => s) ex_decrypt ex_encrypt ex_totp ex_parse ex_JSON
         (ex_request "1" 1000) 7 (Some "123456") None) ex_world
  = run (open_session (fun s => s) (ex_request "1" 1000) (response_of ex_user "a@b.c") []) ex_world.
Proof.
  eapply (totp_code_alone_logs_in (T := ex_token) (fun s => s) ex_decrypt ex_encrypt ex_totp ex_parse ex_JSON
           (ex_request "1" 1000) 7 ex_user "a@b.c" "xsecret" "iv" "tag" "secret"); done || reflexivity.
Defined.

Lemma recovery_code_single_use_witness :
  exists w', run (consumeRecoveryCode ex_decrypt ex_encrypt ex_parse ex_JSON 7 "A1") ex_world = (Ok true, w')
    /\ run (consumeRecoveryCode ex_decrypt ex_encrypt ex_parse ex_JSON 7 "A1") w' = (Ok false, w').
Proof.
  destruct (recovery_code_single_use ex_decrypt ex_encrypt ex_parse ex_JSON 7 "A1" ex_user ["A1"; "B2"] ex_world)
    as (w' & H1 & H2 & _).
  - exact ex_readable.
  - exact ex_users_ok.
  - reflexivity.
  - vm_compute. reflexivity.
  - repeat constructor; set_solver.
  - set_solver.
  - exists w'. auto.
Defined.
