(* ===== verification/PasswordReset.v ===== *)
(** * Password reset

    [src/xconfess-backend/src/auth/password-reset.service.ts] and the reset
    methods of [auth.service.ts] and [user.service.ts]: tokens of which only the
    hash is stored, the conditional update that consumes one, and the two routes.
    The world adds the [password_resets] table, and the history of the updates
    that consumed a token, to the one of Auth.  SHA-256, bcrypt and the mail
    service are parameters. *)
From S2P Require Import Prelude Numbers Effects CacheManager Lockout AnonymousUser Auth.
Open Scope Z_scope.

(** [src auth/entities/password-reset.entity.ts:12-49 PasswordReset] *)
Record PasswordReset := {
  pr_id : Z;
  tokenHash : string;
  userId : Z;
  expiresAt : ms;
  used : bool;
  usedAt : option ms;
  ipAddress : option string;
  userAgent : option string;
}.
#[export] Instance eta_PasswordReset : Eta PasswordReset := fun r => {|
  pr_id := pr_id r; tokenHash := tokenHash r; userId := userId r; expiresAt := expiresAt r;
  used := used r; usedAt := usedAt r; ipAddress := ipAddress r; userAgent := userAgent r |}.

(** [src auth/password-reset.service.ts:7-11 PasswordResetConsumeReason] *)
Inductive ConsumeReason := valid | invalid | expired | reused.

Section reset.
Context {C : Type} `{!CacheManager C}.
Context (sha256 : string -> string) (bcrypt_hash : string -> string)
        (decrypt : string -> string -> string -> option string).

Record ResetDB := {
  auth : AuthDB (C := C);
  resets : gmap Z PasswordReset;
  next_id : Z;
  consumed_by : list (string * positive);
}.
#[export] Instance eta_ResetDB : Eta ResetDB := fun w => {|
  auth := auth w; resets := resets w; next_id := next_id w; consumed_by := consumed_by w |}.
#[export] Instance auth_lens : Lens ResetDB (AuthDB (C := C)).
Proof. refine {| lget := auth; lset := fun x w => w <| auth := x |> |}; [done|by intros []|done]. Defined.

Abbreviation action := (prog ResetDB auth_error).
Definition in_auth {A} (p : prog (AuthDB (C := C)) auth_error A) : action A := lift (fun e => e) p.

(** [src auth/password-reset.service.ts:28-30 hashToken] *)
Definition hashToken (token : string) : string := sha256 token.

(** [findOne({ where: ... })] and [update(where, change)]; the update returns
    whether it affected a row. *)
Definition find_reset (f : PasswordReset -> bool) (w : ResetDB) : option PasswordReset :=
  snd <$> List.find (fun kv => f kv.2) (map_to_list (resets w)).
Definition update_resets (f : PasswordReset -> bool) (g : PasswordReset -> PasswordReset) (w : ResetDB) : ResetDB :=
  w <| resets ::= fmap (fun r => if f r then g r else r) |>.
Definition has_hash (h : string) (r : PasswordReset) : bool := str_eqb (tokenHash r) h.
Definition mark_used (now : ms) (r : PasswordReset) : PasswordReset :=
  r <| used := true |> <| usedAt := Some now |>.

(** [src auth/password-reset.service.ts:177-193 invalidateUserTokens] *)
Definition invalidateUserTokens (uid : Z) (now : ms) : action unit :=
  writes (update_resets (fun r => (userId r =? uid) && negb (used r)) (mark_used now)).

(** [save(passwordReset)]: a new serial id, under the unique index on the hash. *)
Definition insert_reset (h : string) (uid : Z) (exp : ms) (ip ua : option string) (w : ResetDB)
    : outcome auth_error PasswordReset * ResetDB :=
  if find_reset (has_hash h) w is Some _ then (Exn (Plain "duplicate key value"), w)
  else
    let r := {| pr_id := next_id w; tokenHash := h; userId := uid; expiresAt := exp; used := false;
                usedAt := None; ipAddress := ip; userAgent := ua |} in
    (Ok r, w <| resets ::= <[next_id w := r]> |> <| next_id ::= Z.succ |>).

Definition RESET_MINUTES : Z := 15.

(** [src auth/password-reset.service.ts:32-78 createResetToken]; [token] is the
    random one. *)
Definition createResetToken (token : string) (uid : Z) (ip ua : option string) (now : ms) : action string :=
  try_catch
    (do* invalidateUserTokens uid now in
     do* attempts (insert_reset (hashToken token) uid (now + RESET_MINUTES * 60000) ip ua) in
     Ret token)
    (fun error => Throw (Plain ("Failed to create reset token: " +:+ error_message error))).

(** [src auth/password-reset.service.ts:80-112 findValidToken] *)
Definition findValidToken (token : string) (now : ms) : action (option PasswordReset) :=
  let* row := reads (find_reset (fun r => has_hash (hashToken token) r && negb (used r))) in
  match row with
  | None => Ret None
  | Some r => if expiresAt r <? now then Ret None else Ret (Some r)
  end.

(** The conditional UPDATE of [consumeValidToken]; [me] is the request, for the
    history. *)
Definition consume_where (h : string) (now : ms) (r : PasswordReset) : bool :=
  has_hash h r && negb (used r) && (now <? expiresAt r).
Definition consume_update (me : positive) (h : string) (now : ms) (w : ResetDB) : bool * ResetDB :=
  if existsb (fun kv => consume_where h now kv.2) (map_to_list (resets w))
  then (true, update_resets (consume_where h now) (mark_used now) w
                <| consumed_by ::= (fun l => l ++ [(h, me)]) |>)
  else (false, w).

(** [src auth/password-reset.service.ts:118-156 consumeValidToken] *)
Definition consumeValidToken (me : positive) (token : string) (now : ms)
    : action (option PasswordReset * ConsumeReason) :=
  let h := hashToken token in
  let* existing := reads (find_reset (has_hash h)) in
  match existing with
  | None => Ret (None, invalid)
  | Some r =>
      if used r then Ret (None, reused)
      else if expiresAt r <=? now then Ret (None, expired)
      else
        let* affected := access (consume_update me h now) in
        if negb affected then Ret (None, reused)
        else
          let* consumed := reads (find_reset (has_hash h)) in
          match consumed with
          | None => Ret (None, invalid)
          | Some r' => Ret (Some r', valid)
          end
  end.

(** [src auth/password-reset.service.ts:158-175 markTokenAsUsed] *)
Definition markTokenAsUsed (tokenId : Z) (now : ms) : action unit :=
  writes (update_resets (fun r => pr_id r =? tokenId) (mark_used now)).

(** [src auth/password-reset.service.ts:195-211 cleanupExpiredTokens] *)
Definition cleanupExpiredTokens (now : ms) : action unit :=
  writes (fun w => w <| resets ::= filter (fun kv => ~ expiresAt kv.2 < now) |>).

(** [src user/user.service.ts:236-250 updatePassword] *)
Definition updatePassword (uid : Z) (newPassword : string) : action unit :=
  do* in_auth (with_user uid (fun u =>
        u <| password := bcrypt_hash newPassword |> <| resetPasswordToken := None |>
          <| resetPasswordExpires := None |>)) in Ret tt.

(** [switch (reason)] of [resetPassword]. *)
Definition rejection (reason : ConsumeReason) : auth_error :=
  match reason with
  | expired => App "Reset token expired" "AUTH_SESSION_EXPIRED" 422
  | reused => App "Reset token already used" "RESOURCE_GONE" 410
  | invalid | valid => App "Invalid reset token" "AUTH_TOKEN_INVALID" 400
  end.

(** [error instanceof AppException || BadRequestException || GoneException ||
    UnprocessableEntityException]. *)
Definition rethrown (e : auth_error) : bool :=
  match e with App _ _ _ => true | Http st _ => (st =? 400) || (st =? 410) || (st =? 422) | Plain _ => false end.

(** [src auth/auth.service.ts:163-233 resetPassword] *)
Definition resetPassword (me : positive) (token newPassword : string) (now : ms) : action string :=
  try_catch
    (let* consumed := consumeValidToken me token now in
     match consumed with
     | (None, reason) => Throw (rejection reason)
     | (Some r, _) =>
         do* updatePassword (userId r) newPassword in
         Ret "Password has been reset successfully"
     end)
    (fun error =>
       if rethrown error then Throw error
       else Throw (App "Failed to reset password" "INTERNAL_SERVER_ERROR" 500)).

(** [src auth/auth.controller.ts:369-387 resetPassword] *)
Definition controller_resetPassword (me : positive) (token newPassword : string) (now : ms) : action string :=
  try_catch (resetPassword me token newPassword now) (fun error =>
    match error with
    | Http 400 _ => Throw error
    | _ => Throw (BadRequest ("Failed to reset password: " +:+ error_message error))
    end).

Definition RESET_SENT : string := "If the user exists, a password reset email has been sent.".

(** [src auth/auth.service.ts:264-349 forgotPassword]; [mail] is what the mail
    service does with the address, the token and the name. *)
Definition forgotPassword (mail : string -> string -> string -> outcome auth_error unit)
    (token : string) (email : option string) (uid : option Z) (ip ua : option string) (now : ms)
    : action string :=
  try_catch
    (if negb (truthy_opt email || from_option truthy_num false uid)
     then Throw (App "Either email or userId must be provided" "BAD_REQUEST" 400)
     else
     let* user := if truthy_opt email then in_auth (findByEmail sha256 (default "" email))
                  else in_auth (findById (default 0 uid)) in
     match user with
     | None => Ret RESET_SENT
     | Some u =>
         do* invalidateUserTokens (u_id u) now in
         let* tok := createResetToken token (u_id u) ip ua now in
         let* address := of_option (decrypt (emailEncrypted u) (emailIv u) (emailTag u))
                                   (Plain "Unsupported state or unable to authenticate data") in
         do* of_outcome (mail address tok (username u)) in
         Ret RESET_SENT
     end)
    (fun error => match error with Http 400 _ => Throw error | _ => Ret RESET_SENT end).

(** ** Invariant and guarantee *)

(** Hashes are unique, a hash is consumed at most once, and what was consumed is
    marked as used. *)
Record reset_inv (w : ResetDB) : Prop := {
  i_hash : forall k k' r r', resets w !! k = Some r -> resets w !! k' = Some r' ->
             tokenHash r = tokenHash r' -> k = k';
  i_next : forall k r, resets w !! k = Some r -> k < next_id w;
  i_once : NoDup (map fst (consumed_by w));
  i_used : forall h p k r, (h, p) ∈ consumed_by w -> resets w !! k = Some r -> tokenHash r = h ->
             used r = true;
}.

(** Request [t], which may issue the token of hash [own], inserts no other hash,
    unmarks no token, and consumes stored tokens in its own name. *)
Record reset_guar (own : option string) (t : positive) (w w' : ResetDB) : Prop := {
  g_rows : forall k r', resets w' !! k = Some r' ->
    (exists r, resets w !! k = Some r /\ tokenHash r = tokenHash r' /\ (used r = true -> used r' = true))
    \/ own = Some (tokenHash r');
  g_keep : forall e, e ∈ consumed_by w -> e ∈ consumed_by w';
  g_log : forall e, e ∈ consumed_by w' -> e ∈ consumed_by w \/
    e.2 = t /\ exists k r, resets w !! k = Some r /\ tokenHash r = e.1;
}.

(** ** Lemmas *)
Lemma reset_guar_same own t w w' :
  resets w' = resets w -> consumed_by w' = consumed_by w -> reset_guar own t w w'.
Proof. intros Hr Hc. split; rewrite ?Hr, ?Hc; eauto. Qed.

Lemma reset_inv_same w w' :
  resets w' = resets w -> consumed_by w' = consumed_by w -> next_id w' = next_id w ->
  reset_inv w -> reset_inv w'.
Proof. intros Hr Hc Hn [H1 H2 H3 H4]. by split; rewrite ?Hr, ?Hc, ?Hn. Qed.

Lemma find_reset_Some f w r :
  find_reset f w = Some r -> exists k, resets w !! k = Some r /\ f r = true.
Proof.
  unfold find_reset. rewrite fmap_Some. intros ([k v] & Hf & ->).
  apply List.find_some in Hf as [Hin Hp]. exists k. by apply list_elem_of_In, elem_of_map_to_list in Hin.
Qed.

Lemma find_reset_None f w k r : find_reset f w = None -> resets w !! k = Some r -> f r = false.
Proof.
  unfold find_reset. rewrite fmap_None. intros Hn Hk.
  apply (List.find_none _ _ Hn (k, r)). by apply list_elem_of_In, elem_of_map_to_list.
Qed.

(** Marking rows as used. *)
Lemma update_lookup f g w k r' :
  resets (update_resets f g w) !! k = Some r' ->
  exists r, resets w !! k = Some r /\ r' = if f r then g r else r.
Proof. cbn. rewrite lookup_fmap_Some. intros (r & <- & Hr). eauto. Qed.

Lemma mark_if (f : PasswordReset -> bool) now r :
  tokenHash (if f r then mark_used now r else r) = tokenHash r
  /\ (used r = true -> used (if f r then mark_used now r else r) = true).
Proof. by destruct (f r). Qed.

Lemma update_ok own t f now w :
  reset_inv w -> reset_inv (update_resets f (mark_used now) w)
                 /\ reset_guar own t w (update_resets f (mark_used now) w).
Proof.
  intros [H1 H2 H3 H4]. split; split; try done.
  - intros k k' r r' (x & Hx & ->)%update_lookup (x' & Hx' & ->)%update_lookup.
    rewrite !(proj1 (mark_if _ _ _)). by apply H1.
  - intros k r (x & Hx & _)%update_lookup. by eapply H2.
  - intros h p k r Hlog (x & Hx & ->)%update_lookup. rewrite (proj1 (mark_if _ _ _)). intros Hh.
    apply (proj2 (mark_if f now x)). by eapply H4.
  - intros k r (x & Hx & ->)%update_lookup. left. exists x. rewrite (proj1 (mark_if _ _ _)).
    split_and!; [done..|]. apply mark_if.
  - intros e He. by left.
Qed.

(** The consuming update wins only for a hash nobody consumed. *)
Lemma consume_ok own t h now w :
  reset_inv w ->
  let '(affected, w') := consume_update t h now w in
  reset_inv w' /\ reset_guar own t w w' /\ (affected = true -> (h, t) ∈ consumed_by w').
Proof.
  intros HI. unfold consume_update. destruct (existsb _ _) eqn:Hex.
  2: { split; [done|split; [by apply reset_guar_same|done]]. }
  apply existsb_exists in Hex as ([k r] & Hin & Hw). apply list_elem_of_In, elem_of_map_to_list in Hin.
  unfold consume_where, has_hash in Hw. cbn in Hw.
  apply andb_true_iff in Hw as [[Hh%str_eqb_eq Hu%negb_true_iff]%andb_true_iff Hexp].
  destruct (update_ok own t (consume_where h now) now w HI) as [[H1 H2 H3 H4] [G1 G2 G3]].
  pose proof (i_once _ HI) as Honce. pose proof (i_used _ HI) as Hused.
  set (w' := update_resets _ _ w) in *. split_and!.
  - split; cbn; [done|done| |].
    + rewrite map_app. cbn. apply NoDup_app. split; [done|split; [|apply NoDup_singleton]].
      intros x (e & -> & He)%list_elem_of_fmap Hx%list_elem_of_singleton. destruct e as [x' p]. cbn in Hx. subst x'.
      assert (used r = true) by (by eapply Hused). congruence.
    + intros h' p k' r' Hlog Hr' Hh'. apply elem_of_app in Hlog as [Hlog|Hlog]; [by eapply H4|].
      apply list_elem_of_singleton in Hlog as [= -> ->].
      apply update_lookup in Hr' as (x & Hx & ->). rewrite (proj1 (mark_if _ _ _)) in Hh'.
      assert (k' = k) as -> by (apply (i_hash _ HI k' k x r); congruence).
      assert (x = r) as -> by congruence. unfold consume_where, has_hash. by rewrite Hh, str_eqb_refl, Hu, Hexp.
  - split; cbn; [done| |].
    + intros e He. apply elem_of_app. auto.
    + intros e [He|He]%elem_of_app; [by left|]. apply list_elem_of_singleton in He as ->. right. eauto.
  - intros _. cbn. apply elem_of_app. right. by apply list_elem_of_singleton.
Qed.

(** A token whose hash is neither stored nor in the history. *)
Definition new_hash (h : string) (w : ResetDB) : Prop :=
  (forall k r, resets w !! k = Some r -> tokenHash r <> h) /\ (forall p, (h, p) ∉ consumed_by w).
Definition new_row (h : string) (uid : Z) (exp : ms) (ip ua : option string) (w : ResetDB) : PasswordReset :=
  {| pr_id := next_id w; tokenHash := h; userId := uid; expiresAt := exp; used := false;
     usedAt := None; ipAddress := ip; userAgent := ua |}.

Lemma insert_ok t h uid exp ip ua w :
  reset_inv w -> new_hash h w ->
  let w' := w <| resets ::= <[next_id w := new_row h uid exp ip ua w]> |> <| next_id ::= Z.succ |> in
  insert_reset h uid exp ip ua w = (Ok (new_row h uid exp ip ua w), w')
  /\ reset_inv w' /\ reset_guar (Some h) t w w'
  /\ (forall k r, resets w !! k = Some r -> resets w' !! k = Some r).
Proof.
  intros HI [Hr Hl]. unfold insert_reset. destruct (find_reset _ w) as [r|] eqn:Hf.
  { apply find_reset_Some in Hf as (k & Hk & Hh). unfold has_hash in Hh. boolp. by destruct (Hr _ _ Hk). }
  destruct HI as [H1 H2 H3 H4]. split_and!; [done|split; cbn|split; cbn|cbn].
  - intros k k' r r' [[<- <-]|[? Hk]]%lookup_insert_Some [[<- <-]|[? Hk']]%lookup_insert_Some; cbn;
      intros Heq; [done|by destruct (Hr _ _ Hk')|by destruct (Hr _ _ Hk)|by eapply H1].
  - intros k r [[<- <-]|[? Hk]]%lookup_insert_Some; [lia|]. specialize (H2 _ _ Hk). lia.
  - done.
  - intros h' p k r Hlog [[<- <-]|[? Hk]]%lookup_insert_Some; cbn; [|by eapply H4].
    intros <-. by destruct (Hl p).
  - intros k r [[<- <-]|[? Hk]]%lookup_insert_Some; [by right|left; eauto].
  - done.
  - by left.
  - intros k r Hk. rewrite lookup_insert_ne; [done|]. intros <-. specialize (H2 _ _ Hk). lia.
Qed.

Lemma new_hash_update h f now w : new_hash h w -> new_hash h (update_resets f (mark_used now) w).
Proof.
  intros [Hr Hl]. split; [|done]. intros k r (x & Hx & ->)%update_lookup.
  rewrite (proj1 (mark_if _ _ _)). by eapply Hr.
Qed.

(** ** Requests among others *)
Inductive ResetAction :=
| Reset (token newPassword : string) (now : ms)
| Forgot (mail : string -> string -> string -> outcome auth_error unit) (token : string)
    (email : option string) (uid : option Z) (ip ua : option string) (now : ms)
| Cleanup (now : ms).
Definition perform (t : positive) (a : ResetAction) : action string :=
  match a with
  | Reset token pw now => resetPassword t token pw now
  | Forgot mail token email uid ip ua now => forgotPassword mail token email uid ip ua now
  | Cleanup now => do* cleanupExpiredTokens now in Ret ""
  end.
Definition issued (a : ResetAction) : option string :=
  match a with Forgot _ token _ _ _ _ _ => Some (hashToken token) | _ => None end.

Section actor.
Context (own : positive -> option string)
        (own_inj : forall t t' h, own t = Some h -> own t' = Some h -> t = t').
Context (t : positive).

Abbreviation G := (fun t => reset_guar (own t) t).
Abbreviation spec := (@rg ResetDB auth_error reset_inv G).

Definition won (h : string) (w : ResetDB) : Prop := (h, t) ∈ consumed_by w.
(** Nobody has stored or consumed the hash this request issues. *)
Definition fresh (w : ResetDB) : Prop := forall h, own t = Some h -> new_hash h w.

Lemma stable_won h : stable reset_inv G t (won h).
Proof. intros t' w w' _ _ HP Hg. by apply (g_keep _ _ _ _ Hg). Qed.

Lemma stable_new_token : stable reset_inv G t fresh.
Proof using own_inj.
  intros t' w w' Hne _ HP Hg h Hh. destruct (HP h Hh) as [Hr Hl]. split.
  - intros k r' Hk Heq. destruct (g_rows _ _ _ _ Hg _ _ Hk) as [(r & Hr' & Ht & _)|Ho].
    + by apply (Hr _ _ Hr'); congruence.
    + apply Hne, (own_inj t' t h); congruence.
  - intros p Hin. destruct (g_log _ _ _ _ Hg _ Hin) as [Hold|(_ & k & r & Hk & Hh')]; [by eapply Hl|].
    by eapply Hr.
Qed.

(** What runs in the rest of the world changes neither tokens nor history. *)
Lemma spec_auth {B} (p : prog (AuthDB (C := C)) auth_error B) (Q : ResetDB -> Prop) :
  (forall w x, Q w -> Q (lset x w)) -> stable reset_inv G t Q ->
  spec t Q (in_auth p) (fun _ w => Q w).
Proof.
  intros HQ Hst. induction p as [a|e|X f k IH]; cbn; [auto|auto|].
  intros w HI HP. destruct (f (auth w)) as [x q]. cbn.
  split; [by apply (reset_inv_same w)|split; [by apply reset_guar_same|]].
  exists Q. split; [by apply HQ|split; [done|apply IH]].
Qed.

Lemma spec_update f now (Q : ResetDB -> Prop) {B} (q : action B) post :
  (forall w, Q w -> Q (update_resets f (mark_used now) w)) -> stable reset_inv G t Q ->
  spec t Q q post ->
  spec t Q (bind (writes (update_resets f (mark_used now))) (fun _ => q)) post.
Proof.
  intros HQ Hst Hq. apply rg_writes with (Q := Q); [|done..].
  intros w HI HP. destruct (update_ok (own t) t f now w HI). auto.
Qed.

Lemma fresh_update f now w : fresh w -> fresh (update_resets f (mark_used now) w).
Proof. intros HP h Hh. by apply new_hash_update, HP. Qed.

Lemma spec_reset token pw now :
  spec t (fun _ => True) (resetPassword t token pw now)
    (fun o w => match o with Ok _ => won (hashToken token) w | Exn _ => True end).
Proof.
  unfold resetPassword.
  apply rg_try_catch with (Q := fun _ _ => True).
  2: { intros e. by destruct (rethrown e). }
  apply rg_bind with (Q := fun res w => match res with (Some _, _) => won (hashToken token) w | _ => True end).
  - unfold consumeValidToken. apply rg_reads; [by intros; apply reset_guar_same|apply stable_True|].
    intros w HI _. destruct (find_reset _ w) as [r|]; [|by intros v].
    destruct (used r); [by intros v|]. destruct (expiresAt r <=? now); [by intros v|].
    intros v HIv _. pose proof (consume_ok (own t) t (hashToken token) now v HIv) as Hc. cbn.
    destruct (consume_update t (hashToken token) now v) as [affected v']. destruct Hc as (HI' & HG & Hwon).
    cbn. split; [done|split; [done|]].
    exists (fun w => affected = true -> won (hashToken token) w). split; [done|split].
    { intros t' x x' Hne Hx HP Hg Ha. eapply stable_won; eauto. }
    destruct affected; cbn [negb]; [|by intros x].
    intros x HIx Hx. cbn. split; [done|split; [by apply reset_guar_same|]].
    exists (won (hashToken token)). split; [by apply Hx|split; [apply stable_won|]].
    by destruct (find_reset _ x); intros y.
  - intros [[r|] reason]; [|by intros w].
    apply rg_bind with (Q := fun _ => won (hashToken token)); [|by intros [] w].
    unfold updatePassword. apply rg_bind with (Q := fun _ => won (hashToken token)); [|by intros ? w].
    eapply rg_post; [|apply (spec_auth _ (won (hashToken token))); [done|apply stable_won]].
    by intros [?|?] w.
Qed.

Lemma spec_forgot mail token email uid ip ua now :
  own t = Some (hashToken token) ->
  spec t fresh (forgotPassword mail token email uid ip ua now) (fun _ _ => True).
Proof using own_inj.
  intros Hown. unfold forgotPassword.
  apply rg_try_catch with (Q := fun _ _ => True).
  2: { intros [? ? ?|st ?|?]; cbn; [done| |done]. by repeat case_match. }
  destruct (negb _); [by intros w|].
  assert (forall u : User, spec t fresh
    (do* invalidateUserTokens (u_id u) now in
     let* tok := createResetToken token (u_id u) ip ua now in
     let* address := of_option (decrypt (emailEncrypted u) (emailIv u) (emailTag u))
                               (Plain "Unsupported state or unable to authenticate data") in
     do* of_outcome (mail address tok (username u)) in
     Ret RESET_SENT) (fun _ _ => True)) as Hsend.
  { intros u. unfold invalidateUserTokens. apply spec_update; [apply fresh_update|apply stable_new_token|].
    apply rg_bind with (Q := fun _ _ => True).
    - unfold createResetToken. apply rg_try_catch with (Q := fun _ _ => True); [|by intros e w].
      unfold invalidateUserTokens. apply spec_update; [apply fresh_update|apply stable_new_token|].
      intros w HI HP. cbn.
      destruct (insert_ok t (hashToken token) (u_id u) (now + RESET_MINUTES * 60000) ip ua w HI (HP _ Hown))
        as (-> & HI' & HG & _). rewrite Hown. cbn [fst snd]. split; [done|split; [done|]].
      exists (fun _ => True). split; [done|split; [apply stable_True|]]. by intros v.
    - intros tok. destruct (decrypt _ _ _); [|by intros w]. cbn. by destruct (mail _ _ _). }
  apply rg_bind with (Q := fun _ => fresh).
  - destruct (truthy_opt email); (eapply rg_post; [|apply (spec_auth _ fresh); [done|apply stable_new_token]]);
      by intros [?|?] w.
  - intros [u|]; [|by intros w]. eapply rg_post; [|apply Hsend]. by intros [?|?] w.
Qed.

Lemma spec_cleanup now : spec t (fun _ => True) (do* cleanupExpiredTokens now in Ret "") (fun _ _ => True).
Proof.
  unfold cleanupExpiredTokens. apply rg_writes with (Q := fun _ => True); [|done|by intros w].
  intros w [H1 H2 H3 H4] _. set (w' := w <| resets ::= _ |>).
  assert (forall k r, resets w' !! k = Some r -> resets w !! k = Some r) as Hsub.
  { intros k r Hk. cbn in Hk. apply map_lookup_filter_Some in Hk. tauto. }
  split_and!; [split; cbn|split; cbn|done].
  - intros k k' r r' ?%Hsub ?%Hsub. by apply H1.
  - intros k r ?%Hsub. by eapply H2.
  - done.
  - intros h p k r ? ?%Hsub. by eapply H4.
  - intros k r ?%Hsub. left. eauto.
  - done.
  - by left.
Qed.
End actor.

(** What a sequential reset does, by the row of its token. *)
Lemma run_resetPassword me token pw now w r k :
  reset_inv w -> resets w !! k = Some r -> tokenHash r = hashToken token ->
  (used r = true -> run (resetPassword me token pw now) w = (Exn (rejection reused), w))
  /\ (used r = false -> expiresAt r <= now ->
      run (resetPassword me token pw now) w = (Exn (rejection expired), w))
  /\ (forall u, used r = false -> now < expiresAt r -> users (auth w) !! userId r = Some u -> u_id u = userId r ->
      exists w', run (resetPassword me token pw now) w = (Ok "Password has been reset successfully", w')
        /\ users (auth w') = <[userId r := u <| password := bcrypt_hash pw |> <| resetPasswordToken := None |>
                                             <| resetPasswordExpires := None |>]> (users (auth w))
        /\ resets w' = resets (update_resets (consume_where (hashToken token) now) (mark_used now) w)).
Proof.
  intros HI Hk Hh.
  assert (forall v x j, reset_inv v -> resets v !! j = Some x -> tokenHash x = hashToken token ->
            find_reset (has_hash (hashToken token)) v = Some x) as Hfind.
  { intros v x j HIv Hj Hx. destruct (find_reset _ v) as [y|] eqn:Hf.
    - apply find_reset_Some in Hf as (k' & Hk' & Hy). unfold has_hash in Hy. boolp.
      assert (k' = j) as -> by (apply (i_hash _ HIv k' j y x); congruence). congruence.
    - pose proof (find_reset_None _ _ _ _ Hf Hj) as Hn. unfold has_hash in Hn. by rewrite Hx, str_eqb_refl in Hn. }
  pose proof (Hfind w r k HI Hk Hh) as Hf.
  unfold resetPassword, consumeValidToken. split; [|split].
  - intros Hu. run_simp. by rewrite Hf, Hu.
  - intros Hu He. run_simp. rewrite Hf, Hu. by rewrite (proj2 (Z.leb_le _ _)).
  - intros u Hu He Hus Hid. run_simp. rewrite Hf, Hu, (proj2 (Z.leb_gt _ _)) by done. run_simp.
    assert (existsb (fun kv => consume_where (hashToken token) now kv.2) (map_to_list (resets w)) = true) as Hex.
    { apply existsb_exists. exists (k, r). split; [by apply list_elem_of_In, elem_of_map_to_list|].
      unfold consume_where, has_hash. cbn. by rewrite Hh, str_eqb_refl, Hu, (proj2 (Z.ltb_lt _ _)). }
    pose proof (consume_ok None me (hashToken token) now w HI) as Hc.
    unfold consume_update in *. rewrite Hex in *. cbn [fst snd negb]. run_simp.
    destruct Hc as (HI' & _ & _). set (w1 := _ <| consumed_by ::= _ |>) in *.
    assert (resets w1 !! k = Some (mark_used now r)) as Hk1.
    { cbn. rewrite lookup_fmap, Hk. cbn. unfold consume_where, has_hash.
      by rewrite Hh, str_eqb_refl, Hu, (proj2 (Z.ltb_lt _ _)). }
    rewrite (Hfind w1 _ k HI' Hk1 Hh). unfold updatePassword, in_auth, with_user, findById, save. run_simp.
    cbn [lget auth_lens]. change (auth w1) with (auth w). cbn [userId mark_used set_field]. rewrite Hus.
    eexists. split; [reflexivity|]. cbn. by rewrite Hid.
Qed.

Lemma createResetToken_shape token uid ip ua now w :
  exists o v, run (createResetToken token uid ip ua now) w = (o, v)
    /\ (o = Ok token \/ exists m, o = Exn (Plain m)).
Proof.
  unfold createResetToken, invalidateUserTokens. run_simp.
  destruct (insert_reset _ _ _ _ _ _) as [[r|e] v]; run_simp; eauto 10.
Qed.

(** ** Properties *)

(** C3. A reset token sets one password. Let any number of resets, requests for
    tokens and cleanups interleave at their awaits, the random tokens being new
    and distinct. At most one reset with a given token succeeds, and once one
    has, every later reset with that token is rejected and changes nothing. *)
Theorem reset_token_single_use (reqs : gmap positive ResetAction) w0 w ps :
  reset_inv w0 ->
  (forall t a h, reqs !! t = Some a -> issued a = Some h ->
     new_hash h w0) ->
  (forall t t' a a' h, reqs !! t = Some a -> reqs !! t' = Some a' ->
     issued a = Some h -> issued a' = Some h -> t = t') ->
  pool_reach (w0, map_imap (fun t a => Some (perform t a)) reqs) (w, ps) ->
  forall t token pw now m, reqs !! t = Some (Reset token pw now) -> ps !! t = Some (Ret m) ->
  (forall t' pw' now' m', reqs !! t' = Some (Reset token pw' now') -> ps !! t' = Some (Ret m') -> t = t')
  /\ (forall me pw' now', exists reason,
        run (resetPassword me token pw' now') w = (Exn (rejection reason), w)).
Proof.
  intros HI0 Hfree Hids Hreach.
  set (own := fun t => reqs !! t ≫= issued).
  assert (forall t t' h, own t = Some h -> own t' = Some h -> t = t') as Hinj.
  { intros t t' h (a & Ha & Hh)%bind_Some (a' & Ha' & Hh')%bind_Some. by eapply Hids. }
  assert (pool_ok reset_inv (fun t => reset_guar (own t) t)
            (fun t o w => forall token pw now m, reqs !! t = Some (Reset token pw now) -> o = Ok m ->
                            won t (hashToken token) w)
            (w0, map_imap (fun t a => Some (perform t a)) reqs)) as Hinit.
  { split; [done|]. intros t p. cbn. rewrite map_lookup_imap, bind_Some. intros (a & Ha & [= <-]).
    exists (fresh own t). split; [|split; [by apply stable_new_token|]].
    { intros h (a' & Ha' & Hh)%bind_Some. simplify_eq. by eapply Hfree. }
    destruct a as [token pw now|mail token email uid ip ua now|now]; unfold perform.
    - apply rg_weaken with (P' := fun _ => True); [done|].
      eapply rg_post; [|apply spec_reset]. intros [m|e] v Hv token' pw' now' m' Heq Ho; by simplify_eq.
    - eapply rg_post; [|apply spec_forgot; [done|]]. { intros o v _ * Heq. simplify_eq. }
      unfold own. by rewrite Ha.
    - apply rg_weaken with (P' := fun _ => True); [done|].
      eapply rg_post; [|apply spec_cleanup]. intros o v _ * Heq. simplify_eq. }
  destruct (rg_sound _ _ _ _ _ Hinit Hreach) as [HI Hps]. cbn in HI, Hps.
  assert (forall t token pw now m, reqs !! t = Some (Reset token pw now) -> ps !! t = Some (Ret m) ->
            (hashToken token, t) ∈ consumed_by w) as Hwon.
  { intros t token pw now m Ha Hm. destruct (Hps t _ Hm) as (P & HP & _ & Hrg). by eapply (Hrg w HI HP). }
  intros t token pw now m Ha Hm. pose proof (Hwon _ _ _ _ _ Ha Hm) as H1. split.
  - intros t' pw' now' m' Ha' Hm'. pose proof (Hwon _ _ _ _ _ Ha' Hm') as H2.
    apply list_elem_of_lookup in H1 as [i Hi], H2 as [j Hj].
    assert (i = j) as ->; [|congruence].
    eapply NoDup_lookup; [apply (i_once _ HI)|rewrite list_lookup_fmap, Hi; reflexivity|].
    by rewrite list_lookup_fmap, Hj.
  - intros me pw' now'. destruct (find_reset (has_hash (hashToken token)) w) as [r|] eqn:Hf.
    + apply find_reset_Some in Hf as (k & Hk & Hh). unfold has_hash in Hh. boolp. exists reused.
      eapply run_resetPassword; [done..|]. by eapply (i_used _ HI).
    + exists invalid. unfold resetPassword, consumeValidToken. run_simp. by rewrite Hf.
Qed.

(** One outstanding token. After a token was created for a user, it is the only
    one of the user that is not used up; for fifteen minutes it sets that user's
    password and nobody else's, afterwards it is rejected as expired; and an
    older token of the user is rejected as used. *)
Theorem reset_flow token uid ip ua t0 u w w1 :
  reset_inv w -> users (auth w) !! uid = Some u -> u_id u = uid -> new_hash (hashToken token) w ->
  run (createResetToken token uid ip ua t0) w = (Ok token, w1) ->
  (forall k r, resets w1 !! k = Some r -> userId r = uid -> used r = false -> tokenHash r = hashToken token)
  /\ (forall me pw now, now < t0 + 900000 -> exists w2,
        run (resetPassword me token pw now) w1 = (Ok "Password has been reset successfully", w2)
        /\ password <$> users (auth w2) !! uid = Some (bcrypt_hash pw)
        /\ forall uid', uid' <> uid -> users (auth w2) !! uid' = users (auth w) !! uid')
  /\ (forall me pw now, t0 + 900000 <= now ->
        run (resetPassword me token pw now) w1 = (Exn (rejection expired), w1))
  /\ (forall me old pw now k r, resets w !! k = Some r -> userId r = uid -> tokenHash r = hashToken old ->
        run (resetPassword me old pw now) w1 = (Exn (rejection reused), w1)).
Proof.
  intros HI Hu Hid Hnew. unfold createResetToken, invalidateUserTokens. run_simp.
  set (inval := fun r => (userId r =? uid) && negb (used r)).
  set (wi := update_resets inval (mark_used t0) w).
  destruct (update_ok None 1%positive inval t0 w HI) as [HIi _]. fold wi in HIi.
  pose proof (new_hash_update _ inval t0 _ Hnew) as Hnewi. fold wi in Hnewi.
  destruct (insert_ok 1%positive (hashToken token) uid (t0 + RESET_MINUTES * 60000) ip ua wi HIi Hnewi)
    as (-> & HI1 & _ & Hold). run_simp. intros [= <-].
  set (row := new_row _ _ _ _ _ _) in *. set (w1 := wi <| resets ::= _ |> <| next_id ::= _ |>) in *.
  assert (resets w1 !! next_id wi = Some row) as Hrow by (cbn; by rewrite lookup_insert_eq).
  assert (forall k r, resets w !! k = Some r -> userId r = uid ->
            exists r', resets wi !! k = Some r' /\ tokenHash r' = tokenHash r /\ used r' = true) as Hinv.
  { intros k r Hk Hr. exists (if inval r then mark_used t0 r else r). split; [cbn; by rewrite lookup_fmap, Hk|].
    unfold inval. rewrite Hr, Z.eqb_refl. by destruct (used r) eqn:Hur. }
  split_and!.
  - intros k r Hk Hr Hus. cbn in Hk. apply lookup_insert_Some in Hk as [[_ <-]|[_ Hk]]; [done|].
    apply lookup_fmap_Some in Hk as (x & <- & Hk).
    assert (userId x = uid) as Hx by (revert Hr; by destruct (inval x)).
    destruct (Hinv _ _ Hk Hx) as (r' & Hr' & _ & Hu'). cbn in Hr'. rewrite lookup_fmap, Hk in Hr'. cbn in Hr'.
    congruence.
  - intros me pw now Hnow.
    destruct (run_resetPassword me token pw now w1 row _ HI1 Hrow eq_refl) as (_ & _ & Hok).
    destruct (Hok u eq_refl) as (w2 & Hrun & Hus & _); [done|done|done|]. exists w2. split; [done|].
    rewrite Hus. cbn [userId row new_row]. split; [by rewrite lookup_insert_eq|].
    intros uid' Hne. by rewrite lookup_insert_ne.
  - intros me pw now Hnow. eapply run_resetPassword; done.
  - intros me old pw now k r Hk Hr Hh. destruct (Hinv _ _ Hk Hr) as (r' & Hr' & Hh' & Hu').
    eapply run_resetPassword; [done|by apply Hold|congruence|done].
Qed.

(** Nobody learns whether an account exists: whatever the input and the state,
    as long as the mail service does not reject the request itself, the answer to
    a forgotten password is the same. *)
Theorem forgot_password_uniform mail token email uid ip ua now w :
  (forall address tok name m, mail address tok name <> Exn (Http 400 m)) ->
  (run (forgotPassword mail token email uid ip ua now) w).1 = Ok RESET_SENT.
Proof.
  intros Hmail. unfold forgotPassword. run_simp. destruct (negb _); [done|]. run_simp.
  assert (exists o v, run (if truthy_opt email then in_auth (findByEmail sha256 (default "" email))
                           else in_auth (findById (default 0 uid))) w = (Ok o, v)) as (o & v & ->).
  { unfold in_auth, findByEmail, findById. destruct (truthy_opt email); run_simp; eauto. }
  destruct o as [u|]; [|done]. unfold invalidateUserTokens. run_simp.
  destruct (createResetToken_shape token (u_id u) ip ua now
    (update_resets (fun r => (userId r =? u_id u) && negb (used r)) (mark_used now) v))
    as (o & w2 & -> & [->|[m ->]]); [|done]. run_simp.
  destruct (decrypt _ _ _) as [a|]; [|done]. run_simp.
  destruct (mail a token (username u)) as [[]|[? ? ?|st m|?]] eqn:Hm; try done.
  specialize (Hmail a token (username u) m). rewrite Hm in Hmail.
  repeat case_match; try done; subst; naive_solver.
Qed.
End reset.

(** ** Witnesses *)
Definition ex_row : PasswordReset := {|
  pr_id := 1; tokenHash := "tok"; userId := 7; expiresAt := 10000; used := false; usedAt := None;
  ipAddress := None; userAgent := None |}.
Definition ex_db : ResetDB (C := map_cache) :=
  {| auth := ex_world; resets := {[ 1 := ex_row ]}; next_id := 2; consumed_by := [] |}.
Definition ex_mail (address token name : string) : outcome auth_error unit := Ok tt.
Definition ex_actions : gmap positive ResetAction :=
  {[ 1%positive := Reset "tok" "first" 100; 2%positive := Reset "tok" "second" 100;
     3%positive := Forgot ex_mail "new" None (Some 7) None None 200 ]}.
Definition ex_same (s : string) : string := s.
Definition ex_perform := perform (C := map_cache) ex_same ex_same ex_decrypt.
Definition ex_final :=
  run_schedule [1; 2; 3; 2; 1; 2; 2; 2; 1; 1; 3; 3; 3]%positive
    (ex_db, map_imap (fun t a => Some (ex_perform t a)) ex_actions).

Lemma ex_db_inv : reset_inv ex_db.
Proof.
  split; cbn.
  - intros k k' r r'. rewrite !lookup_singleton_Some. naive_solver.
  - intros k r [<- <-]%lookup_singleton_Some. done.
  - constructor.
  - set_solver.
Qed.

Lemma ex_db_new h : h <> "tok" -> new_hash h ex_db.
Proof. intros Hh. split; cbn; [|set_solver]. intros k r Hk.
  apply lookup_singleton_Some in Hk as [<- <-]. cbn. congruence. Qed.

Lemma ex_issued t a h : ex_actions !! t = Some a -> issued ex_same a = Some h -> t = 3%positive /\ h = "new".
Proof.
  unfold ex_actions. rewrite !lookup_insert_Some, lookup_singleton_Some. intros Ha Hh.
  repeat (destruct_or?; destruct_and?); subst; cbn in Hh; simplify_eq. done.
Qed.

Lemma reset_token_single_use_witness :
  exists reason, run (resetPassword ex_same ex_same 9 "tok" "third" 300) ex_final.1 = (Exn (rejection reason), ex_final.1).
Proof.
  assert (pool_reach (ex_db, map_imap (fun t a => Some (ex_perform t a)) ex_actions)
            (ex_final.1, ex_final.2)) as Hreach.
  { rewrite <- surjective_pairing. apply run_schedule_reach. }
  refine (proj2 (reset_token_single_use ex_same ex_same ex_decrypt ex_actions ex_db ex_final.1 ex_final.2 ex_db_inv
                   _ _ Hreach 2%positive "tok" "second" 100 "Password has been reset successfully" _ _) 9%positive "third" 300).
  - intros t a h Ha Hh. destruct (ex_issued _ _ _ Ha Hh) as [_ ->]. by apply ex_db_new.
  - intros t t' a a' h Ha Ha' Hh Hh'.
    destruct (ex_issued _ _ _ Ha Hh) as [-> _], (ex_issued _ _ _ Ha' Hh') as [-> _]. reflexivity.
  - reflexivity.
  - vm_compute. reflexivity.
Defined.

Definition ex_created := run (createResetToken ex_same "new" 7 None None 500) ex_db.
Lemma reset_flow_witness :
  exists w2, run (resetPassword ex_same ex_same 4 "new" "fresh" 800) ex_created.2
             = (Ok "Password has been reset successfully", w2)
    /\ password <$> users (auth w2) !! 7 = Some "fresh"
    /\ forall uid', uid' <> 7 -> users (auth w2) !! uid' = users (auth ex_db) !! uid'.
Proof.
  refine (proj1 (proj2 (reset_flow ex_same ex_same "new" 7 None None 500 ex_user ex_db ex_created.2
                          ex_db_inv eq_refl eq_refl _ _)) 4%positive "fresh" 800 _).
  - by apply ex_db_new.
  - vm_compute. reflexivity.
  - lia.
Defined.

Lemma forgot_password_uniform_witness :
  (run (forgotPassword ex_same ex_decrypt ex_mail "new" None (Some 99) None None 5) ex_db).1 = Ok RESET_SENT.
Proof. apply forgot_password_uniform. intros * H. discriminate H. Defined.
