(* ===== verification/Reports.v ===== *)
(** * Reports

    [src/xconfess-backend/src/report/reports.service.ts], the report routes of
    [admin/services/admin.service.ts] and [admin/services/report-priority.service.ts]:
    readers report confessions, moderators decide reports.  Reads are accesses of
    their own; a write with the commit of its transaction is one access.  After a
    violation of a unique index the database refuses every statement of the
    transaction, so that the lookup in the handler of the violation fails. *)
From S2P Require Import Prelude Numbers Json Dates Effects JobQueue Notifications Outbox Reactions Base64 Cursor.
Open Scope Z_scope.

(** ** Data *)

(** [src admin/entities/report.entity.ts:15-22 ReportType] *)
Inductive ReportType := SPAM | HARASSMENT | HATE_SPEECH | INAPPROPRIATE_CONTENT | COPYRIGHT | OTHER_TYPE.
(** [src admin/entities/report.entity.ts:24-29 ReportStatus] *)
Inductive ReportStatus := REPORT_PENDING | REVIEWING | RESOLVED | DISMISSED.
#[export] Instance ReportType_eq_dec : EqDecision ReportType.
Proof. solve_decision. Defined.
#[export] Instance ReportStatus_eq_dec : EqDecision ReportStatus.
Proof. solve_decision. Defined.
Definition report_status_str (s : ReportStatus) : string :=
  match s with REPORT_PENDING => "pending" | REVIEWING => "reviewing" | RESOLVED => "resolved" | DISMISSED => "dismissed" end.
Definition report_type_str (t : ReportType) : string :=
  match t with
  | SPAM => "spam" | HARASSMENT => "harassment" | HATE_SPEECH => "hate_speech"
  | INAPPROPRIATE_CONTENT => "inappropriate_content" | COPYRIGHT => "copyright" | OTHER_TYPE => "other"
  end.

(** [src admin/entities/report.entity.ts:37-119 Report] *)
Record Report := {
  rp_id : string; rp_confession : string; rp_reporter : option Z; rp_anonymous : option string;
  rp_type : ReportType; rp_reason : option string; rp_status : ReportStatus; rp_resolvedBy : option Z;
  rp_resolvedAt : option ms; rp_notes : option string; rp_template : option Z; rp_key : option string;
  rp_createdAt : Z; rp_priority : Z; rp_priorityReason : option string; rp_priorityAt : option ms; rp_version : Z;
}.
#[export] Instance eta_Report : Eta Report := fun r => {|
  rp_id := rp_id r; rp_confession := rp_confession r; rp_reporter := rp_reporter r; rp_anonymous := rp_anonymous r;
  rp_type := rp_type r; rp_reason := rp_reason r; rp_status := rp_status r; rp_resolvedBy := rp_resolvedBy r;
  rp_resolvedAt := rp_resolvedAt r; rp_notes := rp_notes r; rp_template := rp_template r; rp_key := rp_key r;
  rp_createdAt := rp_createdAt r; rp_priority := rp_priority r; rp_priorityReason := rp_priorityReason r;
  rp_priorityAt := rp_priorityAt r; rp_version := rp_version r |}.

(** What is written of an action of a moderator or a reporter. *)
Record AuditEntry := {
  au_action : string; au_actor : Z; au_entity : string; au_before : option ReportStatus; au_notes : option string;
}.
(** The tables; of a confession what the relations load of the accounts behind its
    author, a mail address each; the clock of the database, in microseconds, and
    whether the audit table can be written. *)
Record ReportDB := {
  reported : gmap string (list (option string));
  reporters : gmap string Identity;
  rep_rows : gmap string Report;
  rep_outbox : gmap string OutboxEvent;
  rep_audit : list AuditEntry;
  audit_up : bool;
  rep_clock : Z;
}.
#[export] Instance eta_ReportDB : Eta ReportDB := fun w => {|
  reported := reported w; reporters := reporters w; rep_rows := rep_rows w; rep_outbox := rep_outbox w;
  rep_audit := rep_audit w; audit_up := audit_up w; rep_clock := rep_clock w |}.

Inductive report_error :=
| BadRequestException (m : string) | NotFoundException (m : string) | ForbiddenException (m : string) | QueryFailedError.
Abbreviation action := (prog ReportDB report_error).

(** ** Reporting *)

(** [src report/dto/create-report.dto.ts:12-23 CreateReportDto] *)
Record CreateReportDto := { dto_type : option ReportType; dto_reason : option string }.
(** What a request draws: the ids of a new report and of its event. *)
Record ReportDraw := { newReportId : string; newEventId : string }.

Definition find_report (P : Report -> bool) (w : ReportDB) : option Report :=
  snd <$> List.find (fun p : string * Report => P p.2) (map_to_list (rep_rows w)).
Definition by_key (key : string) (reporterId : Z) (r : Report) : bool :=
  bool_decide (rp_key r = Some key) && bool_decide (rp_reporter r = Some reporterId).
(** [src report/reports.service.ts:111-128 createReport]: the duplicate check: a report of the same sender, not older than [since]. *)
Definition in_window (confessionId : string) (reporterId : option Z) (anonymousUserId : option string) (since : Z)
    (r : Report) : bool :=
  (rp_confession r =s? confessionId) && (since <? rp_createdAt r)
  && match reporterId with
     | Some u => bool_decide (rp_reporter r = Some u)
     | None => if truthy_opt anonymousUserId then bool_decide (rp_anonymous r = anonymousUserId) else true
     end.

(** The unique indexes of the table (migrations/1774790308946-20260329-update-report-dedupe-constraint.ts,
    migrations/20260425000001-add-idempotency-key-to-reports.ts): would the row repeat one? *)
Definition same_opt {A} `{!EqDecision A} (a b : option A) : bool := bool_decide (is_Some a) && bool_decide (a = b).
(** [src xconfess-backend/migrations/1774790308946-20260329-update-report-dedupe-constraint.ts:16-25 up],
    and the index of the idempotency keys. *)
Definition conflicts (r r' : Report) : bool :=
  ((rp_confession r =s? rp_confession r') && same_opt (rp_reporter r) (rp_reporter r'))
  || ((rp_confession r =s? rp_confession r') && same_opt (rp_anonymous r) (rp_anonymous r'))
  || (same_opt (rp_key r) (rp_key r') && same_opt (rp_reporter r) (rp_reporter r')).

(** [src report/reports.service.ts:227-234 getRecipientEmail] *)
Definition getRecipientEmail (links : list (option string)) : option string :=
  match links with Some mail :: _ => Some mail | _ => None end.

Definition report_event (d : ReportDraw) (r : Report) (recipientEmail : string) (at_time : ms) : OutboxEvent := {|
  ev_id := newEventId d; ev_type := "report_notification";
  ev_payload := JObj [("reportId", JStr (rp_id r)); ("confessionId", JStr (rp_confession r));
                      ("recipientEmail", JStr recipientEmail); ("type", JStr (report_type_str (rp_type r)));
                      ("reason", from_option JStr JNull (rp_reason r))];
  ev_status := PENDING; retryCount := 0; ev_lastError := None; ev_idempotencyKey := Some ("report:" +:+ rp_id r);
  ev_createdAt := at_time; processedAt := None; claimedBy := None; claimedAt := None |}.

Definition new_report (d : ReportDraw) (confessionId : string) (reporterId : option Z) (anonymousUserId : option string)
    (dto : CreateReportDto) (key : option string) (now : Z) : Report := {|
  rp_id := newReportId d; rp_confession := confessionId; rp_reporter := reporterId;
  rp_anonymous := match reporterId with None => anonymousUserId | Some _ => None end;
  rp_type := default OTHER_TYPE (dto_type dto); rp_reason := dto_reason dto; rp_status := REPORT_PENDING;
  rp_resolvedBy := None; rp_resolvedAt := None; rp_notes := None; rp_template := None; rp_key := key;
  rp_createdAt := now; rp_priority := 0; rp_priorityReason := None; rp_priorityAt := None; rp_version := 1 |}.

(** [src report/reports.service.ts:146-201 createReport]: the row and its event are
    committed together; a violation of a unique index fails the request, as the
    lookup that follows it is refused. *)
Definition insert_report (d : ReportDraw) (confessionId : string) (reporterId : option Z) (anonymousUserId : option string)
    (dto : CreateReportDto) (key : option string) (links : list (option string)) : action Report :=
  attempts (fun w =>
    let r := new_report d confessionId reporterId anonymousUserId dto key (rep_clock w) in
    if bool_decide (is_Some (rep_rows w !! rp_id r)) || bool_decide (is_Some (find_report (conflicts r) w))
       || negb (bool_decide (is_Some (reported w !! confessionId)))
    then (Exn QueryFailedError, w)
    else
      let w' := w <| rep_rows ::= <[rp_id r := r]> |> in
      match getRecipientEmail links with
      | Some mail =>
          if truthy mail then
            let e := report_event d r mail (js_date (rep_clock w)) in
            if bool_decide (is_Some (rep_outbox w !! ev_id e))
               || existsb (fun p => bool_decide (ev_idempotencyKey p.2 = ev_idempotencyKey e)) (map_to_list (rep_outbox w))
            then (Exn QueryFailedError, w)
            else (Ok r, w' <| rep_outbox ::= <[ev_id e := e]> |>)
          else (Ok r, w')
      | None => (Ok r, w')
      end).

(** A write of the audit service: its failure is only logged. *)
Definition audit_write (e : AuditEntry) : action unit :=
  writes (fun w => if audit_up w then w <| rep_audit ::= fun l => l ++ [e] |> else w).

Definition DAY_US : Z := 24 * 60 * 60 * 1000 * 1000.

(** [src report/reports.service.ts:52-225 createReport] *)
Definition createReport (d : ReportDraw) (confessionId : string) (reporterId : option Z) (dto : CreateReportDto)
    (anonymousUserId key : option string) : action Report :=
  let lookup : action Report :=
    let* now := reads rep_clock in
    let since := now - DAY_US in
    let* confession := reads (fun w => reported w !! confessionId) in
    match confession with
    | None => Throw (NotFoundException "Confession not found")
    | Some links =>
        let* existing := reads (find_report (in_window confessionId reporterId anonymousUserId since)) in
        match existing with
        | Some r => Ret r
        | None =>
            let* saved := insert_report d confessionId reporterId anonymousUserId dto key links in
            do* (match reporterId with
                 | Some u => if negb (u =? 0) then
                               audit_write {| au_action := "report_created"; au_actor := u; au_entity := rp_id saved;
                                              au_before := None; au_notes := Some (default "unspecified" (dto_reason dto)) |}
                             else Ret tt
                 | None => Ret tt
                 end) in
            Ret saved
        end
    end in
  match reporterId with
  | None =>
      if negb (truthy_opt anonymousUserId) then
        Throw (BadRequestException "Anonymous reports require a valid anonymous identity")
      else
        let* anonymousReporter := reads (fun w => reporters w !! default "" anonymousUserId) in
        match assertCanUseAnonymousIdentity anonymousReporter None with
        | Exn (NotFoundError m) => Throw (NotFoundException m)
        | Exn _ => Throw QueryFailedError
        | Ok _ => lookup
        end
  | Some u =>
      if truthy_opt key then
        let* prior := reads (find_report (by_key (default "" key) u)) in
        match prior with Some r => Ret r | None => lookup end
      else lookup
  end.

(** ** Decisions *)

Definition decided (r : Report) : bool := bool_decide (rp_status r = RESOLVED) || bool_decide (rp_status r = DISMISSED).

Definition decision (status : ReportStatus) (admin : Z) (notes : option string) (now : ms) (version : Z) (r : Report)
    : Report :=
  r <| rp_status := status |> <| rp_resolvedBy := Some admin |> <| rp_resolvedAt := Some now |>
    <| rp_notes := notes |> <| rp_version := version |>.

(** [src report/reports.service.ts:261-278 resolveReport]:
    [UPDATE ... WHERE id = :id AND version = :version RETURNING *]. *)
Definition update_versioned (id : string) (previousVersion : Z) (f : Report -> Report) : action (option Report) :=
  access (fun w => match rep_rows w !! id with
                   | Some r => if rp_version r =? previousVersion
                               then (Some (f r), w <| rep_rows ::= <[id := f r]> |>)
                               else (None, w)
                   | None => (None, w)
                   end).

(** The account of a moderator: its id and whether it is an administrator. *)
Record Moderator := { mo_id : Z; mo_admin : bool }.

Definition already (r : Report) : report_error :=
  BadRequestException ("Report is already " +:+ report_status_str (rp_status r)).
Definition missing (id : string) : report_error := NotFoundException ("Report with ID " +:+ id +:+ " not found").

(** [src report/reports.service.ts:252-306 resolveReport]: the part the three routes
    share, the guarded UPDATE and the audit entry. *)
Definition settle_report (report : Report) (admin : Z) (status : ReportStatus) (notes reason : option string)
    : action Report :=
  let* now := reads rep_clock in
  let* updatedReport :=
    update_versioned (rp_id report) (rp_version report)
      (decision status admin notes (js_date now) (rp_version report + 1)) in
  match updatedReport with
  | None => Throw (BadRequestException "Report was modified by another moderator. Please refresh and try again.")
  | Some r =>
      do* audit_write {| au_action := "report_" +:+ report_status_str status; au_actor := admin;
                         au_entity := rp_id report; au_before := Some (rp_status report); au_notes := reason |} in
      Ret r
  end.

(** [src report/reports.service.ts:236-314 resolveReport] *)
Definition resolveReport (reportId : string) (admin : Moderator) (reason : option string) : action Report :=
  let* report := reads (fun w => rep_rows w !! reportId) in
  match report with
  | None => Throw (missing reportId)
  | Some r =>
      if negb (mo_admin admin) then Throw (ForbiddenException "Only admins can resolve reports")
      else if decided r then Throw (already r)
      else settle_report r (mo_id admin) RESOLVED
             (Some (if truthy_opt reason then default "" reason else "Report resolved")) reason
  end.

(** [src report/reports.service.ts:316-394 dismissReport] *)
Definition dismissReport (reportId : string) (admin : Moderator) (reason : option string) : action Report :=
  let* report := reads (fun w => rep_rows w !! reportId) in
  match report with
  | None => Throw (missing reportId)
  | Some r =>
      if negb (mo_admin admin) then Throw (ForbiddenException "Only admins can dismiss reports")
      else if decided r then Throw (already r)
      else settle_report r (mo_id admin) DISMISSED (Some (default "Report dismissed" reason)) reason
  end.

(** [src report/reports.service.ts:396-493 actionReport]: [resolve] is the action
    [resolved]. *)
Definition actionReport (id : string) (admin : Z) (resolve : bool) (note : option string) : action Report :=
  let* report := reads (fun w => rep_rows w !! id) in
  match report with
  | None => Throw (missing id)
  | Some r =>
      if decided r then Throw (already r)
      else settle_report r admin (if resolve then RESOLVED else DISMISSED)
             (Some (default (if resolve then "Report resolved" else "Report dismissed") note)) note
  end.

(** ** The routes of administrators *)

Definition admin_audit (action : string) (admin : Z) (id : string) (before : option ReportStatus) (notes : option string)
    : AuditEntry :=
  {| au_action := action; au_actor := admin; au_entity := id; au_before := before; au_notes := notes |}.
(** [src admin/services/admin.service.ts:171-196 resolveReport]: [save(report)] and the audit entry of the transaction, committed together: the
    columns of the row become those the request has. *)
Definition save_reports (rs : list Report) (entries : list AuditEntry) : action unit :=
  attempts (fun w =>
    if audit_up w || bool_decide (length entries = 0%nat) then
      (Ok tt, w <| rep_rows ::= fun m => fold_left (fun m r => <[rp_id r := r]> m) rs m |>
                <| rep_audit ::= fun l => l ++ entries |>)
    else (Exn QueryFailedError, w)).

(** [src admin/services/admin.service.ts:157-212 resolveReport] *)
Definition admin_resolveReport (id : string) (adminId : Z) (resolutionNotes : option string) (templateId : option Z)
    : action Report :=
  let* report := reads (fun w => rep_rows w !! id) in
  match report with
  | None => Throw (NotFoundException "Report not found")
  | Some r =>
      if bool_decide (rp_status r = RESOLVED) then Throw (BadRequestException "Report already resolved")
      else
        let* now := reads rep_clock in
        let r := r <| rp_status := RESOLVED |> <| rp_resolvedBy := Some adminId |> <| rp_resolvedAt := Some (js_date now) |>
                   <| rp_notes := resolutionNotes |> <| rp_template := templateId |> in
        do* save_reports [r] [admin_audit "report_resolved" adminId id None resolutionNotes] in
        Ret r
  end.

(** [src admin/services/admin.service.ts:214-257 dismissReport] *)
Definition admin_dismissReport (id : string) (adminId : Z) (notes : option string) : action Report :=
  let* report := reads (fun w => rep_rows w !! id) in
  match report with
  | None => Throw (NotFoundException "Report not found")
  | Some r =>
      if bool_decide (rp_status r = DISMISSED) then Throw (BadRequestException "Report already dismissed")
      else
        let* now := reads rep_clock in
        let r := r <| rp_status := DISMISSED |> <| rp_resolvedBy := Some adminId |> <| rp_resolvedAt := Some (js_date now) |>
                   <| rp_notes := notes |> in
        do* save_reports [r] [admin_audit "report_dismissed" adminId id None notes] in
        Ret r
  end.

(** [src admin/services/admin.service.ts:36-40 BulkResolveOutcome] *)
Inductive BulkResolveOutcome :=
| BulkResolved (id : string) (previousStatus : ReportStatus)
| BulkSkipped (id : string) (previousStatus : ReportStatus)
| BulkNotFound (id : string).
(** [src admin/services/admin.service.ts:42-48 BulkResolveResult] *)
Record BulkResolveResult := {
  br_requested : nat; br_resolved : nat; br_skipped : nat; br_notFound : nat; br_outcomes : list BulkResolveOutcome;
}.
Definition outcome_id (o : BulkResolveOutcome) : string :=
  match o with BulkResolved i _ | BulkSkipped i _ | BulkNotFound i => i end.
Definition is_resolved (o : BulkResolveOutcome) : bool := match o with BulkResolved _ _ => true | _ => false end.
Definition is_skipped (o : BulkResolveOutcome) : bool := match o with BulkSkipped _ _ => true | _ => false end.
Definition is_missing (o : BulkResolveOutcome) : bool := match o with BulkNotFound _ => true | _ => false end.

(** [src admin/services/admin.service.ts:278-306 bulkResolveReports]: the loop over the ids: the rows it found are objects it changes in place, so that
    a repeated id meets the row as the first turn left it. *)
Fixpoint bulk_loop (ids : list string) (adminId : Z) (notes : option string) (now : ms) (found : gmap string Report)
    : list BulkResolveOutcome * list Report :=
  match ids with
  | [] => ([], [])
  | id :: ids' =>
      match found !! id with
      | None => let '(os, rs) := bulk_loop ids' adminId notes now found in (BulkNotFound id :: os, rs)
      | Some r =>
          if negb (bool_decide (rp_status r = REPORT_PENDING)) then
            let '(os, rs) := bulk_loop ids' adminId notes now found in (BulkSkipped id (rp_status r) :: os, rs)
          else
            let r' := r <| rp_status := RESOLVED |> <| rp_resolvedBy := Some adminId |>
                        <| rp_resolvedAt := Some now |> <| rp_notes := notes |> in
            let '(os, rs) := bulk_loop ids' adminId notes now (<[id := r']> found) in
            (BulkResolved id (rp_status r) :: os, r' :: rs)
      end
  end.

(** [src admin/services/admin.service.ts:259-346 bulkResolveReports] *)
Definition bulkResolveReports (ids : list string) (adminId : Z) (notes : option string) : action BulkResolveResult :=
  let* found := reads (fun w => filter (fun p : string * Report => p.1 ∈ ids) (rep_rows w)) in
  let* now := reads rep_clock in
  let '(outcomes, toSave) := bulk_loop ids adminId notes (js_date now) found in
  do* save_reports (map (fun r => r <| rp_version ::= Z.add 1 |>) toSave)
        (map (fun o => admin_audit "bulk_action" adminId (outcome_id o)
                         (match o with BulkResolved _ s | BulkSkipped _ s => Some s | BulkNotFound _ => None end) notes)
             outcomes) in
  Ret {| br_requested := length ids;
         br_resolved := length (List.filter is_resolved outcomes);
         br_skipped := length (List.filter is_skipped outcomes);
         br_notFound := length (List.filter is_missing outcomes);
         br_outcomes := outcomes |}.

(** ** Priorities *)

Definition LOW : Z := 0.
Definition MEDIUM : Z := 1.
Definition HIGH : Z := 2.
Definition CRITICAL : Z := 3.
(** [src admin/services/report-priority.service.ts:17-24 priorityMap] *)
Definition priorityMap (t : ReportType) : Z :=
  match t with
  | HATE_SPEECH => CRITICAL
  | HARASSMENT | INAPPROPRIATE_CONTENT => HIGH
  | SPAM | COPYRIGHT => MEDIUM
  | OTHER_TYPE => LOW
  end.
(** [src admin/services/report-priority.service.ts:31-46 calculatePriority] *)
Definition calculatePriority (r : Report) : Z * string :=
  let priority := priorityMap (rp_type r) in
  if priority <? HIGH then (HIGH, "Escalated due to high-risk content type: " +:+ report_type_str (rp_type r))
  else (priority, "Based on report type: " +:+ report_type_str (rp_type r)).
Definition open_report (r : Report) : bool := negb (decided r).
(** [src admin/services/report-priority.service.ts:58-79 recalculateAllPriorities] *)
Definition recalculateAllPriorities : action unit :=
  let* reports := reads (fun w => List.filter open_report (map snd (map_to_list (rep_rows w)))) in
  let* now := reads rep_clock in
  let rated r := r <| rp_priority := (calculatePriority r).1 |> <| rp_priorityReason := Some (calculatePriority r).2 |>
                   <| rp_priorityAt := Some (js_date now) |> in
  save_reports (map rated reports) [].
(** [src admin/services/report-priority.service.ts:81-92 getHighPriorityReports] *)
Definition getHighPriorityReports (limit : nat) (w : ReportDB) : list Report :=
  firstn limit (insertion_sort
    (fun a b => (rp_priority b <? rp_priority a) || ((rp_priority a =? rp_priority b) && (rp_createdAt a <=? rp_createdAt b)))
    (List.filter (fun r => open_report r && (bool_decide (rp_priority r = CRITICAL) || bool_decide (rp_priority r = HIGH)))
       (map snd (map_to_list (rep_rows w))))).

(** ** The list of reports *)

Definition MAX_LIMIT : nat := 100.
(** The filters of a list of reports. *)
Record ReportFilter := { rf_status : option ReportStatus; rf_type : option ReportType; rf_from : option ms; rf_to : option ms }.
Definition passes (f : ReportFilter) (r : Report) : bool :=
  match rf_status f with Some s => bool_decide (rp_status r = s) | None => true end
  && match rf_type f with Some t => bool_decide (rp_type r = t) | None => true end
  && match rf_from f with Some t => us_of t <=? rp_createdAt r | None => true end
  && match rf_to f with Some t => rp_createdAt r <=? us_of t | None => true end.
Definition report_position (r : Report) : Z * string := (rp_createdAt r, rp_id r).
Definition report_before (a b : Report) : bool := feed_before (report_position a) (report_position b).

(** [src admin/services/admin.service.ts:883-950 getReportsCursor]: the rows of a page
    and whether there are more; the position is that of a decoded cursor. *)
Definition getReportsCursor (f : ReportFilter) (limit : nat) (position : option (ms * string)) (w : ReportDB)
    : list Report * bool :=
  let take := Nat.min (limit + 1) MAX_LIMIT in
  let after (r : Report) :=
    match position with
    | Some (t, i) => (rp_createdAt r <? us_of t) || ((rp_createdAt r =? us_of t) && negb (str_le i (rp_id r)))
    | None => true
    end in
  let reports := firstn take (insertion_sort report_before
                   (List.filter (fun r => passes f r && after r) (map snd (map_to_list (rep_rows w))))) in
  let hasMore := (limit <? length reports)%nat in
  (if hasMore then removelast reports else reports, hasMore).

(** [src report/reports.service.ts:495-516 findAll] *)
Definition findAllReports (status : option ReportStatus) (page limit : nat) (w : ReportDB) : list Report * nat :=
  let found := insertion_sort (fun a b => rp_createdAt b <=? rp_createdAt a)
    (List.filter (fun r => match status with Some s => bool_decide (rp_status r = s) | None => true end)
       (map snd (map_to_list (rep_rows w)))) in
  (firstn limit (skipn ((page - 1) * limit) found), length found).

(** ** Any interleaving of requests *)

(** A row under its id, and no two rows that an index would refuse. *)
Record report_inv (w : ReportDB) : Prop := {
  ri_id : forall i r, rep_rows w !! i = Some r -> rp_id r = i;
  ri_unique : forall i j r s, rep_rows w !! i = Some r -> rep_rows w !! j = Some s -> conflicts r s = true -> i = j;
}.

(** Requests of the service and of the routes of administrators, and what changes around
    them. *)
Inductive ReportActor :=
| RCreate (d : ReportDraw) (confessionId : string) (reporterId : option Z) (dto : CreateReportDto)
    (anonymousUserId key : option string)
| RResolve (id : string) (admin : Moderator) (reason : option string)
| RDismiss (id : string) (admin : Moderator) (reason : option string)
| RAction (id : string) (admin : Z) (resolve : bool) (note : option string)
| RAdminResolve (id : string) (adminId : Z) (notes : option string) (templateId : option Z)
| RAdminDismiss (id : string) (adminId : Z) (notes : option string)
| RBulk (ids : list string) (adminId : Z) (notes : option string)
| RAround (f : gmap string (list (option string)) -> gmap string (list (option string)))
    (g : gmap string Identity -> gmap string Identity) (up : bool) (clock : Z).
Definition serve_report (a : ReportActor) : action (option Report) :=
  match a with
  | RCreate d c u dto a k => let* r := createReport d c u dto a k in Ret (Some r)
  | RResolve id m reason => let* r := resolveReport id m reason in Ret (Some r)
  | RDismiss id m reason => let* r := dismissReport id m reason in Ret (Some r)
  | RAction id m b note => let* r := actionReport id m b note in Ret (Some r)
  | RAdminResolve id m notes template => let* r := admin_resolveReport id m notes template in Ret (Some r)
  | RAdminDismiss id m notes => let* r := admin_dismissReport id m notes in Ret (Some r)
  | RBulk ids m notes => let* _ := bulkResolveReports ids m notes in Ret None
  | RAround f g up clock =>
      do* writes (fun w => w <| reported ::= f |> <| reporters ::= g |> <| audit_up := up |> <| rep_clock := clock |>) in
      Ret None
  end.

(** The report a request decides, who does, and how. *)
Definition decides (a : ReportActor) : option (string * Z * ReportStatus) :=
  match a with
  | RResolve id m _ => Some (id, mo_id m, RESOLVED)
  | RDismiss id m _ => Some (id, mo_id m, DISMISSED)
  | RAction id m b _ => Some (id, m, if b then RESOLVED else DISMISSED)
  | RAdminResolve id m _ _ => Some (id, m, RESOLVED)
  | RAdminDismiss id m _ => Some (id, m, DISMISSED)
  | _ => None
  end.
(** The reports a route of the administrators names: it does not look at the version of
    what it writes. *)
Definition overrides (a : ReportActor) (id : string) : Prop :=
  match a with
  | RAdminResolve i _ _ _ | RAdminDismiss i _ _ => i = id
  | RBulk ids _ _ => id ∈ ids
  | _ => False
  end.
Definition asks (a : ReportActor) (id : string) (admin : Z) (status : ReportStatus) : Prop :=
  decides a = Some (id, admin, status) \/ (exists ids notes, a = RBulk ids admin notes /\ id ∈ ids /\ status = RESOLVED).

Section pool.
(** What the requests of a pool name and ask, and the rows they start with. *)
Context (overridden : string -> Prop) (asked : string -> Z -> ReportStatus -> Prop) (rows0 : gmap string Report).

(** The fields the indexes are on. *)
Definition index_fields (r : Report) := (rp_id r, rp_confession r, rp_reporter r, rp_anonymous r, rp_key r).
(** What happens to a row: nothing, or a decision; a decided one stays decided, and as it
    is unless a route of the administrators names it. *)
Definition row_step (r r' : Report) : Prop :=
  index_fields r' = index_fields r
  /\ (~ overridden (rp_id r) -> r' = r \/ rp_version r < rp_version r' /\ decided r = false)
  /\ (decided r = true -> decided r' = true).
Definition report_guar (t : positive) (w w' : ReportDB) : Prop :=
  forall i r, rep_rows w !! i = Some r -> exists r', rep_rows w' !! i = Some r' /\ row_step r r'.
(** A decision is one of the start or was asked for. *)
Definition sourced (i : string) (r : Report) : Prop :=
  decided r = true ->
  (exists r0, rows0 !! i = Some r0 /\ rp_status r0 = rp_status r /\ rp_resolvedBy r0 = rp_resolvedBy r)
  \/ exists admin, rp_resolvedBy r = Some admin /\ asked i admin (rp_status r).
Record live_inv (w : ReportDB) : Prop := {
  lv_inv : report_inv w;
  lv_sourced : forall i r, rep_rows w !! i = Some r -> sourced i r;
}.
Abbreviation rep_rg := (rg live_inv report_guar).

Lemma row_step_refl r : row_step r r.
Proof. split; [done|]. split; [by left|done]. Qed.
Lemma report_guar_same t w w' : rep_rows w' = rep_rows w -> report_guar t w w'.
Proof. intros H i r Hr. exists r. rewrite H. split; [done|apply row_step_refl]. Qed.
Lemma report_inv_same w w' : rep_rows w' = rep_rows w -> live_inv w -> live_inv w'.
Proof. intros H [[H1 H2] H3]. constructor; [constructor|]; rewrite H; done. Qed.
Lemma row_step_trans r1 r2 r3 : row_step r1 r2 -> row_step r2 r3 -> row_step r1 r3.
Proof.
  intros (Hf1 & H1 & D1) (Hf2 & H2 & D2). split; [congruence|]. split; [|auto]. intros Ho.
  assert (rp_id r2 = rp_id r1) as Hid by by injection Hf1.
  destruct (H1 Ho) as [->|[Hv Hd]]; [by apply H2|]. right. split; [|done].
  rewrite <- Hid in Ho. destruct (H2 Ho) as [->|[Hv' _]]; lia.
Qed.

Lemma conflicts_fields r s r' s' :
  index_fields r = index_fields r' -> index_fields s = index_fields s' -> conflicts r s = conflicts r' s'.
Proof. unfold index_fields, conflicts. intros [= _ -> -> -> ->] [= _ -> -> -> ->]. done. Qed.
Lemma conflicts_sym r s : conflicts r s = conflicts s r.
Proof.
  assert (forall A (EqA : EqDecision A) (a b : option A), same_opt a b = same_opt b a) as Hs.
  { intros A EqA a b. unfold same_opt. repeat case_bool_decide; subst; naive_solver. }
  assert ((rp_confession r =s? rp_confession s) = (rp_confession s =s? rp_confession r)) as Hc.
  { destruct (decide (rp_confession r = rp_confession s)) as [->|Hne]; [done|].
    by rewrite !(proj2 (str_eqb_neq _ _)) by done. }
  unfold conflicts. by rewrite Hc, (Hs _ _ (rp_reporter r)), (Hs _ _ (rp_anonymous r)), (Hs _ _ (rp_key r)).
Qed.

(** The row as a request read it, or as decided since. *)
Definition row_seen (r : Report) (w : ReportDB) : Prop :=
  exists r', rep_rows w !! rp_id r = Some r' /\ row_step r r'.
Lemma stable_row_seen t r : stable live_inv report_guar t (row_seen r).
Proof.
  intros t' w w' _ _ (r1 & Hr1 & Hs1) HG. destruct (HG _ _ Hr1) as (r2 & Hr2 & Hs2). exists r2.
  split; [done|by eapply row_step_trans].
Qed.
(** A decided row stays decided, and as it is where nobody overrides it. *)
Definition final_row (r : Report) (w : ReportDB) : Prop :=
  decided r = true /\ exists r', rep_rows w !! rp_id r = Some r' /\ decided r' = true /\ (~ overridden (rp_id r) -> r' = r).
Lemma final_row_guar t r w w' : final_row r w -> report_guar t w w' -> final_row r w'.
Proof.
  intros [Hd (r1 & Hr1 & Hd1 & Ho)] HG. destruct (HG _ _ Hr1) as (r2 & Hr2 & Hf & Hs & Hk). split; [done|].
  exists r2. split; [done|]. split; [auto|]. intros Hn. specialize (Ho Hn) as ->. destruct (Hs Hn) as [->|[_ ?]]; [done|congruence].
Qed.
Lemma stable_final_row t r : stable live_inv report_guar t (final_row r).
Proof. intros t' w w' _ _ H HG. by eapply final_row_guar. Qed.

Section request.
Context (t : positive).

Lemma spec_report_look {X B} (f : ReportDB -> X) (q : X -> action B) P post :
  stable live_inv report_guar t P -> (forall x, rep_rg t P (q x) post) -> rep_rg t P (bind (reads f) q) post.
Proof. intros HP Hq. apply rg_reads; [by intros w; apply report_guar_same|done|auto]. Qed.
Lemma spec_report_ignore {B} (p : action B) P post : (forall o w, post o w) -> rep_rg t P p (fun _ _ => True) -> rep_rg t P p post.
Proof. intros Hp. apply rg_post. auto. Qed.
Lemma spec_audit e {B} (q : action B) P post :
  stable live_inv report_guar t P -> (forall w, P w -> P (w <| rep_audit ::= fun l => l ++ [e] |>)) ->
  rep_rg t P q post -> rep_rg t P (do* audit_write e in q) post.
Proof.
  intros HP Ha Hq. apply rg_writes with (Q := P); [|done|done]. intros w HI HPw. destruct (audit_up w).
  - split; [by apply (report_inv_same w)|]. split; [by apply report_guar_same|by apply Ha].
  - split; [done|]. split; [by apply report_guar_same|done].
Qed.

Lemma step_inv w i r r' :
  live_inv w -> rep_rows w !! i = Some r -> row_step r r' -> sourced i r' ->
  live_inv (w <| rep_rows ::= <[i := r']> |>) /\ report_guar t w (w <| rep_rows ::= <[i := r']> |>).
Proof using.
  intros [[Hid Huniq] Hsrc] Hr Hs Hn. pose proof Hs as [Hf _].
  assert (forall j x, <[i := r']> (rep_rows w) !! j = Some x -> exists y, rep_rows w !! j = Some y /\ index_fields x = index_fields y) as Hback.
  { intros j x. rewrite lookup_insert_Some. intros [[<- <-]|[_ Hx]]; eauto. }
  split; [split; [split; cbn|cbn]|].
  - intros j x (y & Hy & Hxy)%Hback. rewrite <- (Hid j y Hy). by injection Hxy.
  - intros j k x y (x' & Hx & Hfx)%Hback (y' & Hy & Hfy)%Hback Hc. rewrite (conflicts_fields _ _ _ _ Hfx Hfy) in Hc. eauto.
  - intros j x. rewrite lookup_insert_Some. intros [[<- <-]|[_ Hx]]; [done|by apply Hsrc].
  - intros j x Hx. destruct (decide (i = j)) as [<-|Hne]; cbn.
    + exists r'. rewrite lookup_insert_eq. split; [done|]. by simplify_eq.
    + exists x. rewrite lookup_insert_ne by done. split; [done|apply row_step_refl].
Qed.

Definition decision_post (id : string) (admin : Z) (status : ReportStatus) (o : outcome report_error Report) (w : ReportDB)
    : Prop :=
  match o with
  | Ok r => final_row r w /\ rp_id r = id /\ rp_status r = status /\ rp_resolvedBy r = Some admin
  | Exn _ => True
  end.

(** A decision is taken on the row as it was read, or refused. *)
Lemma spec_settle_report r admin status notes reason :
  decided r = false -> status = RESOLVED \/ status = DISMISSED -> asked (rp_id r) admin status ->
  rep_rg t (row_seen r) (settle_report r admin status notes reason)
    (decision_post (rp_id r) admin status).
Proof using.
  intros Hopen Hstatus Hasked. unfold settle_report. apply spec_report_look; [apply stable_row_seen|]. intros now.
  set (f := decision status admin notes (js_date now) (rp_version r + 1)).
  intros w HI (r0 & Hr0 & Hf & Hstep & _). unfold update_versioned. cbn. rewrite Hr0.
  assert (rp_id r0 = rp_id r) as Hid by by injection Hf.
  destruct (Z.eqb_spec (rp_version r0) (rp_version r)) as [Hv|Hv]; cbn.
  - assert (decided (f r0) = true) as Hdf by (by destruct Hstatus as [-> | ->]).
    destruct (step_inv w (rp_id r) r0 (f r0)) as [HI' HG]; [done|done|..].
    { split; [done|]. split; [|done]. rewrite Hid. intros Ho. right. destruct (Hstep Ho) as [->|[Hlt _]]; [|lia]. split; [cbn; lia|done]. }
    { intros _. right. by exists admin. }
    split; [done|]. split; [done|]. exists (final_row (f r0)).
    split; [split; [done|]; cbn; rewrite Hid; exists (f r0); by rewrite lookup_insert_eq|].
    split; [apply stable_final_row|].
    apply (spec_audit _ (Ret (f r0)) (final_row (f r0)) (decision_post (rp_id r) admin status));
      [apply stable_final_row|done|]. by intros w' _ Hfinal.
  - split; [done|]. split; [by apply report_guar_same|]. exists (fun _ => True). split; [done|].
    split; [apply stable_True|]. by intros w'.
Qed.

(** Reading a report. *)
Lemma spec_read_report {B} id (q : option Report -> action B) post :
  (forall w, post (Exn (missing id)) w) ->
  (forall r, rp_id r = id -> rep_rg t (row_seen r) (q (Some r)) post) ->
  rep_rg t (fun _ => True) (q None) post ->
  rep_rg t (fun _ => True) (bind (reads (fun w => rep_rows w !! id)) q) post.
Proof.
  intros _ Hsome Hnone w HI _. cbn. split; [done|]. split; [by apply report_guar_same|].
  destruct (rep_rows w !! id) as [r|] eqn:Hr.
  - exists (row_seen r). pose proof (ri_id _ (lv_inv _ HI) _ _ Hr) as Hid. split; [exists r; rewrite Hid; split; [done|apply row_step_refl]|].
    split; [apply stable_row_seen|by apply Hsome].
  - exists (fun _ => True). split; [done|]. split; [apply stable_True|done].
Qed.

Lemma spec_resolve id m reason : asked id (mo_id m) RESOLVED ->
  rep_rg t (fun _ => True) (resolveReport id m reason) (decision_post id (mo_id m) RESOLVED).
Proof using.
  intros Ha. apply spec_read_report; [done| |by intros w]. intros r <-. destruct (negb _); [by intros w|].
  destruct (decided r) eqn:Hd; [by intros w|]. by apply spec_settle_report; [|left|].
Qed.
Lemma spec_dismiss id m reason : asked id (mo_id m) DISMISSED ->
  rep_rg t (fun _ => True) (dismissReport id m reason) (decision_post id (mo_id m) DISMISSED).
Proof using.
  intros Ha. apply spec_read_report; [done| |by intros w]. intros r <-. destruct (negb _); [by intros w|].
  destruct (decided r) eqn:Hd; [by intros w|]. by apply spec_settle_report; [|right|].
Qed.
Lemma spec_action id admin (b : bool) note : asked id admin (if b then RESOLVED else DISMISSED) ->
  rep_rg t (fun _ => True) (actionReport id admin b note) (decision_post id admin (if b then RESOLVED else DISMISSED)).
Proof using.
  intros Ha. apply spec_read_report; [done| |by intros w]. intros r <-.
  destruct (decided r) eqn:Hd; [by intros w|]. apply spec_settle_report; [done| |done]. by destruct b; [left|right].
Qed.

(** Rows written over those that were read, whatever is there now. *)
Definition written (r : Report) (w : ReportDB) : Prop :=
  decided r = true /\ overridden (rp_id r) /\ sourced (rp_id r) r
  /\ exists x, rep_rows w !! rp_id r = Some x /\ index_fields r = index_fields x.
Lemma stable_written r : stable live_inv report_guar t (written r).
Proof using.
  intros t' w w' _ _ (Hd & Ho & Hs & x & Hx & Hf) HG. split; [done|]. split; [done|]. split; [done|].
  destruct (HG _ _ Hx) as (y & Hy & Hfy & _). exists y. split; [done|congruence].
Qed.
Lemma save_inv rs : forall w, live_inv w -> Forall (fun r => written r w) rs ->
  let w' := w <| rep_rows ::= fun m => fold_left (fun m r => <[rp_id r := r]> m) rs m |> in
  live_inv w' /\ report_guar t w w'.
Proof using.
  induction rs as [|r rs IH]; intros w HI Hall w'.
  { split; [by apply (report_inv_same w)|by apply report_guar_same]. }
  inversion Hall as [|? ? (Hd & Ho & Hs & x & Hx & Hf) Hrs]; subst.
  assert (rp_id x = rp_id r) as Hid by by injection Hf.
  destruct (step_inv w (rp_id r) x r HI Hx) as [HI1 HG1]; [|done|].
  { split; [done|]. split; [by rewrite Hid|done]. }
  destruct (IH _ HI1) as [HI2 HG2].
  { eapply Forall_impl; [exact Hrs|]. intros y (Hdy & Hoy & Hsy & z & Hz & Hfz). split; [done|]. split; [done|]. split; [done|].
    destruct (HG1 _ _ Hz) as (z' & Hz' & Hfz' & _). exists z'. split; [done|congruence]. }
  split; [exact HI2|]. intros i y Hy. destruct (HG1 _ _ Hy) as (y1 & Hy1 & H1). destruct (HG2 _ _ Hy1) as (y2 & Hy2 & H2).
  exists y2. split; [exact Hy2|by eapply row_step_trans].
Qed.
Lemma spec_save_one r entries {B} (b : B) post :
  (forall w, final_row r w -> post (Ok b) w) -> (forall e w, post (Exn e) w) ->
  rep_rg t (written r) (do* save_reports [r] entries in Ret b) post.
Proof using.
  intros Hok Hexn w HI Hw. unfold save_reports. cbn [bind attempts]. destruct (_ || _); cbn [fst snd bind].
  - destruct (save_inv [r] w HI) as [HI' HG]; [by apply Forall_singleton|]. cbn zeta in HI', HG.
    split; [by eapply report_inv_same; [|exact HI']|]. split; [exact HG|]. exists (final_row r).
    destruct Hw as (Hd & Ho & _). split; [split; [done|]; exists r; cbn; by rewrite lookup_insert_eq|].
    split; [apply stable_final_row|]. intros w' _ Hf. by apply Hok.
  - split; [done|]. split; [by apply report_guar_same|]. exists (fun _ => True). split; [done|]. split; [apply stable_True|].
    intros w' _ _. apply Hexn.
Qed.

Lemma spec_admin_resolve id admin notes template : asked id admin RESOLVED -> overridden id ->
  rep_rg t (fun _ => True) (admin_resolveReport id admin notes template) (decision_post id admin RESOLVED).
Proof using.
  intros Ha Ho. apply spec_read_report; [done| |by intros w]. intros r <-. destruct (bool_decide _); [by intros w|].
  apply spec_report_look; [apply stable_row_seen|]. intros now. cbv zeta. match goal with |- context [save_reports [?x] _] => set (r' := x) end.
  apply rg_from. intros w _ (x & Hx & Hf & _). exists (written r'). split; [|apply spec_save_one; [by intros w' Hw'|done]].
  split; [done|]. split; [done|]. split; [intros _; right; by exists admin|]. by exists x.
Qed.
Lemma spec_admin_dismiss id admin notes : asked id admin DISMISSED -> overridden id ->
  rep_rg t (fun _ => True) (admin_dismissReport id admin notes) (decision_post id admin DISMISSED).
Proof using.
  intros Ha Ho. apply spec_read_report; [done| |by intros w]. intros r <-. destruct (bool_decide _); [by intros w|].
  apply spec_report_look; [apply stable_row_seen|]. intros now. cbv zeta. match goal with |- context [save_reports [?x] _] => set (r' := x) end.
  apply rg_from. intros w _ (x & Hx & Hf & _). exists (written r'). split; [|apply spec_save_one; [by intros w' Hw'|done]].
  split; [done|]. split; [done|]. split; [intros _; right; by exists admin|]. by exists x.
Qed.

(** The rows a bulk resolution writes are those it found. *)
Lemma bulk_loop_written (P : string -> Report -> Prop) adminId notes now ids : forall found,
  (forall i r, P i r -> P i (r <| rp_status := RESOLVED |> <| rp_resolvedBy := Some adminId |> <| rp_resolvedAt := Some now |> <| rp_notes := notes |>)) ->
  (forall i r, found !! i = Some r -> P i r) ->
  Forall (fun r => rp_status r = RESOLVED /\ rp_resolvedBy r = Some adminId /\ exists i, i ∈ ids /\ P i r) (bulk_loop ids adminId notes now found).2.
Proof using.
  induction ids as [|id ids IH]; intros found HP Hf; cbn [bulk_loop]; [constructor|].
  assert (forall found', (forall i r, found' !! i = Some r -> P i r) ->
    Forall (fun r => rp_status r = RESOLVED /\ rp_resolvedBy r = Some adminId /\ exists i, i ∈ id :: ids /\ P i r) (bulk_loop ids adminId notes now found').2) as Hrest.
  { intros found' Hf'. eapply Forall_impl; [by apply IH|]. intros r (H1 & H2 & i & Hi & Hr). split; [done|]. split; [done|]. exists i. split; [by right|done]. }
  destruct (found !! id) as [r|] eqn:Hr.
  - destruct (negb _).
    + specialize (Hrest found Hf). by destruct (bulk_loop ids adminId notes now found).
    + match goal with |- context [<[id := ?x]> found] => specialize (Hrest (<[id := x]> found)) end.
      destruct (bulk_loop ids adminId notes now _) as [os rs]. cbn [snd] in *. constructor.
      * split; [done|]. split; [done|]. exists id. split; [by left|by apply HP, Hf].
      * apply Hrest. intros i x. rewrite lookup_insert_Some. intros [[<- <-]|[_ Hx]]; [by apply HP, Hf|by apply Hf].
  - specialize (Hrest found Hf). by destruct (bulk_loop ids adminId notes now found).
Qed.
Lemma spec_bulk ids admin notes : (forall i, i ∈ ids -> asked i admin RESOLVED /\ overridden i) ->
  rep_rg t (fun _ => True) (bulkResolveReports ids admin notes) (fun _ _ => True).
Proof using.
  intros Hids. unfold bulkResolveReports. intros w HI _. cbn [bind reads access fst snd]. split; [done|]. split; [by apply report_guar_same|].
  set (found := filter _ _).
  set (P (i : string) (r : Report) := rp_id r = i /\ exists x, index_fields r = index_fields x /\ rep_rows w !! i = Some x).
  assert (forall i r, found !! i = Some r -> P i r) as Hfound.
  { intros i r Hr. subst found. apply map_lookup_filter_Some in Hr as [Hr _]. split; [by apply (ri_id _ (lv_inv _ HI))|by exists r]. }
  set (Q (v : ReportDB) := forall i x, rep_rows w !! i = Some x -> exists y, rep_rows v !! i = Some y /\ index_fields y = index_fields x).
  exists Q. split; [intros i x Hx; by exists x|].
  assert (stable live_inv report_guar t Q) as HQ.
  { intros t' v v' _ _ Hv HG i x Hx. destruct (Hv i x Hx) as (y & Hy & Hf). destruct (HG _ _ Hy) as (z & Hz & Hfz & _). exists z. split; [done|congruence]. }
  split; [exact HQ|].
  change (rep_rg t Q (bind (reads rep_clock) (fun now => let '(outcomes, toSave) := bulk_loop ids admin notes (js_date now) found in
    do* save_reports (map (fun r => r <| rp_version ::= Z.add 1 |>) toSave)
        (map (fun o => admin_audit "bulk_action" admin (outcome_id o)
                         (match o with BulkResolved _ s | BulkSkipped _ s => Some s | BulkNotFound _ => None end) notes)
             outcomes) in
  Ret {| br_requested := length ids;
         br_resolved := length (List.filter is_resolved outcomes);
         br_skipped := length (List.filter is_skipped outcomes);
         br_notFound := length (List.filter is_missing outcomes);
         br_outcomes := outcomes |})) (fun _ _ => True)).
  apply spec_report_look; [exact HQ|]. intros now.
  pose proof (bulk_loop_written P admin notes (js_date now) ids found) as Hw.
  destruct (bulk_loop ids admin notes (js_date now) found) as [outcomes toSave]. cbn [snd] in Hw.
  specialize (Hw ltac:(intros i r [H1 (x & H2 & H3)]; split; [exact H1|by exists x]) Hfound).
  intros v HIv Hv. unfold save_reports. cbn [bind attempts]. destruct (_ || _); cbn [fst snd bind].
  - destruct (save_inv (map (fun r => r <| rp_version ::= Z.add 1 |>) toSave) v HIv) as [HI' HG].
    { apply Forall_forall. intros r Hr. apply list_elem_of_In, in_map_iff in Hr as (r1 & <- & Hr%list_elem_of_In).
      apply (proj1 (Forall_forall _ _) Hw) in Hr as (Hs & Hb & i & Hi & Hid & x & Hf & Hx). destruct (Hids i Hi) as [Ha Ho]. subst i.
      destruct (Hv _ _ Hx) as (y & Hy & Hfy). unfold written, decided. cbn [rp_status rp_id set_field]. cbn. rewrite Hs.
      split; [done|]. split; [done|]. split; [intros _; right; exists admin; cbn; by rewrite Hs|]. exists y. split; [done|].
      unfold index_fields in *. cbn. congruence. }
    split; [by eapply report_inv_same; [|exact HI']|]. split; [exact HG|]. exists (fun _ => True). split; [done|]. split; [apply stable_True|]. by intros v'.
  - split; [done|]. split; [by apply report_guar_same|]. exists (fun _ => True). split; [done|]. split; [apply stable_True|]. by intros v'.
Qed.

(** A statement that may be refused. *)
Lemma spec_attempts {X} (f : ReportDB -> outcome report_error X * ReportDB) P (post : outcome report_error X -> ReportDB -> Prop) :
  (forall w, live_inv w -> P w -> live_inv (f w).2 /\ report_guar t w (f w).2 /\
     exists Q : ReportDB -> Prop, Q (f w).2 /\ stable live_inv report_guar t Q /\ forall w', Q w' -> post (f w).1 w') ->
  rep_rg t P (attempts f) post.
Proof.
  intros H w HI HP. destruct (H w HI HP) as (HI' & HG & Q & HQ & Hst & Hpost). split; [done|]. split; [done|].
  exists Q. split; [done|]. split; [done|]. destruct (f w).1; cbn; intros w' _ Hw'; by apply Hpost.
Qed.

Section create.
Context (d : ReportDraw) (c : string) (u : option Z) (dto : CreateReportDto) (a key : option string).
(** The row [i] is a report of the sender on the confession. *)
Definition owner_row (i : string) (w : ReportDB) : Prop :=
  exists r, rep_rows w !! i = Some r /\ rp_confession r = c
    /\ match u with Some x => rp_reporter r = Some x | None => is_Some a /\ rp_anonymous r = a end.
Definition create_post (o : outcome report_error Report) (w : ReportDB) : Prop :=
  match o with Ok r => truthy_opt key = false -> owner_row (rp_id r) w | Exn _ => True end.

Definition owner_post (o : outcome report_error Report) (w : ReportDB) : Prop :=
  match o with Ok r => owner_row (rp_id r) w | Exn _ => True end.

Lemma stable_owner_row i : stable live_inv report_guar t (owner_row i).
Proof using.
  intros t' w w' _ _ (r & Hr & Hc & Hu) HG. destruct (HG _ _ Hr) as (r' & Hr' & [= _ Hc' Hu' Ha' _] & _).
  exists r'. rewrite Hc', Hu', Ha'. done.
Qed.
Lemma find_report_Some P w r : live_inv w -> find_report P w = Some r -> rep_rows w !! rp_id r = Some r /\ P r = true.
Proof using.
  intros HI Hf. unfold find_report in Hf. apply fmap_Some in Hf as ([i r'] & Hfind & ->). cbn.
  apply find_some in Hfind as [Hin%list_elem_of_In%elem_of_map_to_list HP]. cbn in HP.
  by rewrite (ri_id _ (lv_inv _ HI) _ _ Hin).
Qed.
Lemma find_report_None P w i r : find_report P w = None -> rep_rows w !! i = Some r -> P r = false.
Proof using.
  intros Hf Hr. unfold find_report in Hf. apply fmap_None in Hf.
  assert (In (i, r) (map_to_list (rep_rows w))) as Hin by by apply list_elem_of_In, elem_of_map_to_list.
  exact (find_none _ _ Hf _ Hin).
Qed.

Lemma insert_inv w w' r :
  live_inv w -> rep_rows w !! rp_id r = None -> find_report (conflicts r) w = None -> decided r = false ->
  rep_rows w' = <[rp_id r := r]> (rep_rows w) -> live_inv w' /\ report_guar t w w'.
Proof using.
  intros [[Hid Huniq] Hsrc] Hnew Hnone Hd Hr. split; [split; [split|]|].
  - intros i s. rewrite Hr, lookup_insert_Some. intros [[<- <-]|[_ Hs]]; [done|by apply Hid].
  - intros i j s s'. rewrite Hr, !lookup_insert_Some.
    intros [[<- <-]|[Hi Hs]] [[<- <-]|[Hj Hs']] Hc; [done|..|by eapply Huniq]; exfalso.
    + by rewrite (find_report_None _ _ _ _ Hnone Hs') in Hc.
    + rewrite conflicts_sym in Hc. by rewrite (find_report_None _ _ _ _ Hnone Hs) in Hc.
  - intros i s. rewrite Hr, lookup_insert_Some. intros [[<- <-]|[_ Hs]]; [by intros Hds; rewrite Hd in Hds|by apply Hsrc].
  - intros i s Hs. exists s. rewrite Hr, lookup_insert_ne by congruence. split; [done|apply row_step_refl].
Qed.

Lemma spec_insert_report links : match u with Some _ => True | None => is_Some a end ->
  rep_rg t (fun _ => True) (insert_report d c u a dto key links)
    owner_post.
Proof using.
  intros Hua. apply spec_attempts. intros w HI _.
  set (r := new_report d c u a dto key (rep_clock w)). cbv zeta.
  assert (live_inv w /\ report_guar t w w /\ exists Q : ReportDB -> Prop, Q w /\ stable live_inv report_guar t Q
    /\ forall w' : ReportDB, Q w' -> True) as Hno.
  { split; [done|]. split; [by apply report_guar_same|]. exists (fun _ => True). by split; [|split; [apply stable_True|]]. }
  destruct (bool_decide (is_Some (rep_rows w !! rp_id r))) eqn:Hnew; cbn [orb]; [apply Hno|].
  destruct (bool_decide (is_Some (find_report (conflicts r) w))) eqn:Hfind; cbn [orb]; [apply Hno|].
  apply bool_decide_eq_false in Hnew, Hfind. rewrite <- eq_None_not_Some in Hnew, Hfind.
  destruct (negb _); [apply Hno|].
  assert (forall w', rep_rows w' = <[rp_id r := r]> (rep_rows w) ->
    live_inv w' /\ report_guar t w w' /\ exists Q : ReportDB -> Prop, Q w' /\ stable live_inv report_guar t Q
      /\ forall v, Q v -> owner_row (rp_id r) v) as Hyes.
  { intros w' Hw'. destruct (insert_inv w w' r HI Hnew Hfind eq_refl Hw') as [HI' HG]. split; [done|]. split; [done|].
    exists (owner_row (rp_id r)). split; [|split; [apply stable_owner_row|done]].
    exists r. rewrite Hw', lookup_insert_eq. split; [done|]. split; [done|]. by destruct u. }
  destruct (getRecipientEmail links) as [mail|]; [|by apply Hyes]. destruct (truthy mail); [|by apply Hyes].
  destruct (_ || _); [apply Hno|by apply Hyes].
Qed.

Lemma spec_insert_audit links : match u with Some _ => True | None => is_Some a end ->
  rep_rg t (fun _ => True)
    (let* saved := insert_report d c u a dto key links in
     do* (match u with
          | Some u => if negb (u =? 0) then
                        audit_write {| au_action := "report_created"; au_actor := u; au_entity := rp_id saved;
                                       au_before := None; au_notes := Some (default "unspecified" (dto_reason dto)) |}
                      else Ret tt
          | None => Ret tt
          end) in
     Ret saved) owner_post.
Proof using.
  intros Hua. apply rg_bind with (Q := fun r => owner_row (rp_id r)).
  - eapply rg_post; [|by apply spec_insert_report]. by intros [r|e] w'.
  - intros r. destruct u as [x|]; [|by intros w' _ Hw']. destruct (negb (x =? 0)); [|by intros w' _ Hw'].
    apply (spec_audit _ (Ret r) (owner_row (rp_id r)) owner_post); [apply stable_owner_row|done|by intros w' _ Hw'].
Qed.

Lemma spec_createReport : rep_rg t (fun _ => True) (createReport d c u dto a key) create_post.
Proof using.
  unfold createReport. set (lookup := bind (reads rep_clock) _).
  assert (match u with Some _ => True | None => truthy_opt a = true end ->
          rep_rg t (fun _ => True) lookup owner_post) as Hlookup.
  { intros Hua. assert (match u with Some _ => True | None => is_Some a end) as Hua'.
    { destruct u; [done|]. destruct a; [eauto|discriminate]. }
    subst lookup. apply spec_report_look; [done|]. intros now. apply spec_report_look; [done|]. intros [links|]; [|by intros w].
    intros w HI _. cbn. split; [done|]. split; [by apply report_guar_same|].
    destruct (find_report _ w) as [r|] eqn:Hf.
    - exists (owner_row (rp_id r)). apply find_report_Some in Hf as [Hr HP]; [|done].
      split; [|split; [apply stable_owner_row|by intros w' _ Hw']]. exists r. split; [done|]. unfold in_window in HP.
      apply andb_true_iff in HP as [HP Hs]. apply andb_true_iff in HP as [Hc _]. boolp. split; [done|].
      destruct u as [x|]; [by apply bool_decide_eq_true in Hs|]. rewrite Hua in Hs. split; [done|].
      by apply bool_decide_eq_true in Hs.
    - exists (fun _ => True). split; [done|]. split; [apply stable_True|].
      by apply spec_insert_audit. }
  assert (forall P, match u with Some _ => True | None => truthy_opt a = true end -> rep_rg t P lookup create_post) as Hl.
  { intros P Hua. apply rg_weaken with (P' := fun _ => True); [done|]. eapply rg_post; [|by apply Hlookup].
    intros [r|e] w'; [|done]. intros Hr _. exact Hr. }
  destruct u as [x|].
  - destruct (truthy_opt key) eqn:Hk; [|by apply Hl]. apply spec_report_look; [done|]. intros [r|]; [|by apply Hl].
    intros w _ _. cbn. by rewrite Hk.
  - destruct (truthy_opt a) eqn:Ha; [|by intros w]. apply spec_report_look; [done|]. intros i.
    destruct (assertCanUseAnonymousIdentity i None) as [?|[]]; try by intros w. by apply Hl.
Qed.
End create.
End request.

(** What an answer tells of the rows. *)
Definition report_post (a : ReportActor) (o : outcome report_error (option Report)) (w : ReportDB) : Prop :=
  match o with
  | Ok (Some r) =>
      match a with
      | RCreate _ c u _ anon key => truthy_opt key = false -> owner_row c u anon (rp_id r) w
      | _ => match decides a with Some (id, admin, status) => decision_post id admin status (Ok r) w | None => True end
      end
  | _ => True
  end.

Lemma spec_serve_report t a : (forall i admin status, asks a i admin status -> asked i admin status) ->
  (forall i, overrides a i -> overridden i) -> rep_rg t (fun _ => True) (serve_report a) (report_post a).
Proof using.
  intros Hasked Hover.
  assert (forall (p : action Report) (post : outcome report_error Report -> ReportDB -> Prop),
    (forall r w, post (Ok r) w -> report_post a (Ok (Some r)) w) -> rep_rg t (fun _ => True) p post ->
    rep_rg t (fun _ => True) (let* r := p in Ret (Some r)) (report_post a)) as Hsome.
  { intros p post Hpost Hp. apply rg_bind with (Q := fun r => post (Ok r)).
    - eapply rg_post; [|exact Hp]. by intros [r|e] w.
    - intros r w _ Hw. by apply Hpost. }
  destruct a as [d c u dto anon key|id m reason|id m reason|id admin b note|id admin notes tm|id admin notes|ids admin notes|f g up clock]; cbn [serve_report].
  - eapply Hsome; [|apply (spec_createReport t)]. done.
  - eapply Hsome; [|apply (spec_resolve t), Hasked; by left]. done.
  - eapply Hsome; [|apply (spec_dismiss t), Hasked; by left]. done.
  - eapply Hsome; [|apply (spec_action t), Hasked; by left]. done.
  - eapply Hsome; [|apply (spec_admin_resolve t); [apply Hasked; by left|by apply Hover]]. done.
  - eapply Hsome; [|apply (spec_admin_dismiss t); [apply Hasked; by left|by apply Hover]]. done.
  - apply rg_bind with (Q := fun _ _ => True); [|by intros r w].
    eapply rg_post; [|apply spec_bulk; intros i Hi; split; [apply Hasked; right; eauto|by apply Hover]]. by intros [r|e] w.
  - apply rg_writes with (Q := fun _ => True); [|apply stable_True|by intros w].
    intros w HI _. split; [by apply (report_inv_same w)|]. split; [by apply report_guar_same|done].
Qed.
End pool.

(** What the requests of a pool name and ask. *)
Definition pool_overrides (requests : gmap positive ReportActor) (i : string) : Prop :=
  exists t a, requests !! t = Some a /\ overrides a i.
Definition pool_asks (requests : gmap positive ReportActor) (i : string) (admin : Z) (status : ReportStatus) : Prop :=
  exists t a, requests !! t = Some a /\ asks a i admin status.

Lemma report_pool_ok (requests : gmap positive ReportActor) w0 w ps :
  let O := pool_overrides requests in
  report_inv w0 -> pool_reach (w0, serve_report <$> requests) (w, ps) ->
  live_inv (pool_asks requests) (rep_rows w0) w
  /\ (forall t a r, requests !! t = Some a -> ps !! t = Some (Ret (Some r)) -> report_post O a (Ok (Some r)) w)
  /\ (forall r, final_row O r w0 -> final_row O r w).
Proof.
  intros O HI Hreach. set (I := live_inv (pool_asks requests) (rep_rows w0)).
  set (post t o v := forall a, requests !! t = Some a -> report_post O a o v).
  assert (I w0) as HI0.
  { split; [done|]. intros i r Hr _. left. by exists r. }
  assert (pool_ok I (report_guar O) post (w0, serve_report <$> requests)) as Hok.
  { split; [done|]. intros t p Hp. cbn in Hp. rewrite lookup_fmap in Hp. destruct (requests !! t) as [a|] eqn:Ha; [|done].
    injection Hp as <-. exists (fun _ => True). split; [done|]. split; [apply stable_True|].
    eapply rg_post; [|apply spec_serve_report].
    - unfold post. intros o v Hv a' Ha'. congruence.
    - intros i admin status H. by exists t, a.
    - intros i H. by exists t, a. }
  destruct (rg_sound _ _ _ _ _ Hok Hreach) as [HI' Hall]. split; [done|]. split.
  - intros t a r Ha Hr. destruct (Hall t _ Hr) as (P & HP & _ & Hrg). exact (Hrg w HI' HP a Ha).
  - intros r Hr.
    apply (pool_guar_inv I (report_guar O) (final_row O r) post (w0, serve_report <$> requests) (w, ps));
      [|exact Hr|exact Hok|exact Hreach]. intros t v v' Hf HG. by eapply final_row_guar.
Qed.

(** Reports are not repeated. However requests interleave, no two rows report a
    confession for one sender, and all requests without an idempotency key that are
    answered for a confession and a sender are answered with one report. *)
Theorem reports_not_repeated (requests : gmap positive ReportActor) w0 w ps c u anon :
  report_inv w0 -> pool_reach (w0, serve_report <$> requests) (w, ps) ->
  (forall i j r s, rep_rows w !! i = Some r -> rep_rows w !! j = Some s -> rp_confession r = rp_confession s ->
     is_Some (rp_reporter r) /\ rp_reporter r = rp_reporter s
     \/ is_Some (rp_anonymous r) /\ rp_anonymous r = rp_anonymous s -> i = j) /\
  (forall t t' d d' dto dto' r r',
     requests !! t = Some (RCreate d c u dto anon None) -> requests !! t' = Some (RCreate d' c u dto' anon None) ->
     ps !! t = Some (Ret (Some r)) -> ps !! t' = Some (Ret (Some r')) -> rp_id r = rp_id r').
Proof.
  intros HI Hreach. destruct (report_pool_ok requests w0 w ps HI Hreach) as ([HI' _] & Hpost & _).
  assert (forall i j r s, rep_rows w !! i = Some r -> rep_rows w !! j = Some s -> rp_confession r = rp_confession s ->
     is_Some (rp_reporter r) /\ rp_reporter r = rp_reporter s
     \/ is_Some (rp_anonymous r) /\ rp_anonymous r = rp_anonymous s -> i = j) as Huniq.
  { intros i j r s Hr Hs Hc Hu. eapply (ri_unique _ HI'); [done..|]. unfold conflicts, same_opt.
    rewrite Hc, str_eqb_refl. destruct Hu as [[Hx Hy]|[Hx Hy]]; rewrite !Hy in *.
    - by rewrite (bool_decide_true (is_Some (rp_reporter s))), bool_decide_true.
    - rewrite (bool_decide_true (is_Some (rp_anonymous s))), (bool_decide_true (rp_anonymous s = rp_anonymous s)) by done.
      cbn. by rewrite orb_true_r. }
  split; [exact Huniq|]. intros t t' d d' dto dto' r r' Ha Ha' Hr Hr'.
  destruct (Hpost t _ r Ha Hr eq_refl) as (x & Hx & Hxc & Hxu). destruct (Hpost t' _ r' Ha' Hr' eq_refl) as (y & Hy & Hyc & Hyu).
  apply (Huniq _ _ x y Hx Hy); [congruence|].
  destruct u as [v|]; [left|right]; [rewrite Hxu, Hyu; eauto|]. destruct Hxu as [Hs Hxa], Hyu as [_ Hya].
  rewrite Hxa, Hya. done.
Qed.


(** ** Bulk resolution *)

Definition bulk_resolved (adminId : Z) (notes : option string) (now : ms) (r : Report) : Report :=
  r <| rp_status := RESOLVED |> <| rp_resolvedBy := Some adminId |> <| rp_resolvedAt := Some now |> <| rp_notes := notes |>.
Definition save_all (rs : list Report) (m : gmap string Report) : gmap string Report :=
  fold_left (fun m r => <[rp_id r := r]> m) (map (fun r => r <| rp_version ::= Z.add 1 |>) rs) m.

Lemma includes_ne i id ids : id <> i -> includes i (id :: ids) = includes i ids.
Proof.
  intros Hne. destruct (includes i ids) eqn:Hi.
  - apply includes_spec in Hi. apply includes_spec. by right.
  - destruct (includes i (id :: ids)) eqn:Hc; [|done]. apply includes_spec, elem_of_cons in Hc as [?|Hc%includes_spec]; congruence.
Qed.

Lemma bulk_loop_spec adminId notes now ids : forall found m i,
  (forall k r, found !! k = Some r -> rp_id r = k) ->
  let '(os, rs) := bulk_loop ids adminId notes now found in
  map outcome_id os = ids /\
  (length (List.filter is_resolved os) + length (List.filter is_skipped os) + length (List.filter is_missing os) = length ids)%nat /\
  save_all rs m !! i =
    match found !! i with
    | Some r => if includes i ids && bool_decide (rp_status r = REPORT_PENDING)
                then Some (bulk_resolved adminId notes now r <| rp_version ::= Z.add 1 |>) else m !! i
    | None => m !! i
    end.
Proof.
  induction ids as [|id ids IH]; intros found m i Hkey; cbn [bulk_loop].
  { cbn. split_and!; [done|done|]. by destruct (found !! i). }
  destruct (found !! id) as [r|] eqn:Hr.
  - destruct (bool_decide (rp_status r = REPORT_PENDING)) eqn:Hp; cbn [negb].
    + fold (bulk_resolved adminId notes now r). set (r' := bulk_resolved adminId notes now r).
      specialize (IH (<[id := r']> found) (<[id := r' <| rp_version ::= Z.add 1 |>]> m) i).
      destruct (bulk_loop ids adminId notes now (<[id := r']> found)) as [os rs].
      destruct IH as (Hids & Hcount & Hsave).
      { intros k x. rewrite lookup_insert_Some. intros [[<- <-]|[_ Hx]]; [cbn; by apply Hkey|by apply Hkey]. }
      split; [cbn; by rewrite Hids|]. split; [cbn; lia|].
      change (save_all (r' :: rs) m) with (save_all rs (<[rp_id r := r' <| rp_version ::= Z.add 1 |>]> m)).
      rewrite (Hkey _ _ Hr), Hsave. destruct (decide (id = i)) as [<-|Hne].
      * rewrite !lookup_insert_eq, Hr. cbn [includes existsb]. rewrite str_eqb_refl. cbn. by rewrite Hp, andb_false_r.
      * rewrite !lookup_insert_ne by done. destruct (found !! i) as [x|]; [|done]. by rewrite includes_ne.
    + specialize (IH found m i Hkey). destruct (bulk_loop ids adminId notes now found) as [os rs].
      destruct IH as (Hids & Hcount & Hsave). split; [cbn; by rewrite Hids|]. split; [cbn; lia|]. rewrite Hsave.
      destruct (decide (id = i)) as [<-|Hne]; [by rewrite Hr, Hp, !andb_false_r|].
      destruct (found !! i) as [x|]; [|done]. by rewrite includes_ne.
  - specialize (IH found m i Hkey). destruct (bulk_loop ids adminId notes now found) as [os rs].
    destruct IH as (Hids & Hcount & Hsave). split; [cbn; by rewrite Hids|]. split; [cbn; lia|]. rewrite Hsave.
    destruct (decide (id = i)) as [<-|Hne]; [by rewrite Hr|].
    destruct (found !! i) as [x|]; [|done]. by rewrite includes_ne.
Qed.

(** A bulk resolution resolves the pending reports it names, once each, and no other.
    Every id has one outcome and one audit entry, repeated ids and ids of no report
    among them. *)
Theorem bulk_resolve_exact ids adminId notes w res w' :
  report_inv w -> run (bulkResolveReports ids adminId notes) w = (Ok res, w') ->
  map outcome_id (br_outcomes res) = ids /\
  (br_resolved res + br_skipped res + br_notFound res = br_requested res)%nat /\
  map au_entity (rep_audit w') = map au_entity (rep_audit w) ++ ids /\
  forall i, rep_rows w' !! i =
    match rep_rows w !! i with
    | Some r => Some (if includes i ids && bool_decide (rp_status r = REPORT_PENDING)
                      then bulk_resolved adminId notes (js_date (rep_clock w)) r <| rp_version ::= Z.add 1 |> else r)
    | None => None
    end.
Proof.
  intros HI. unfold bulkResolveReports. run_simp.
  set (found := filter _ (rep_rows w)). set (now := js_date (rep_clock w)).
  assert (forall i, found !! i = if includes i ids then rep_rows w !! i else None) as Hfound.
  { intros i. subst found. destruct (includes i ids) eqn:Hi; [apply includes_spec in Hi|].
    - destruct (rep_rows w !! i) as [r|] eqn:Hr; [by apply map_lookup_filter_Some|].
      apply map_lookup_filter_None. by left.
    - apply map_lookup_filter_None. right. intros r _ Hin. cbn in Hin. apply includes_spec in Hin. congruence. }
  assert (forall k r, found !! k = Some r -> rp_id r = k) as Hkey.
  { intros k r. rewrite Hfound. destruct (includes k ids); [apply (ri_id _ HI)|done]. }
  pose proof (bulk_loop_spec adminId notes now ids found (rep_rows w)) as Hspec.
  destruct (bulk_loop ids adminId notes now found) as [os rs]. unfold save_reports. run_simp.
  destruct (_ || _); [|done]. run_simp. intros [= <- <-]. cbn [br_outcomes br_resolved br_skipped br_notFound br_requested
    rep_rows rep_audit set_field].
  destruct (Hspec "" Hkey) as (Hids & Hcount & _). split; [done|]. split; [done|]. split.
  - rewrite map_app, map_map. f_equal. rewrite <- Hids. by apply map_ext.
  - intros i. destruct (Hspec i Hkey) as (_ & _ & Hsave). unfold save_all in Hsave. rewrite Hsave, Hfound.
    destruct (includes i ids); destruct (rep_rows w !! i) as [r|]; try done. cbn [andb].
    by destruct (bool_decide _).
Qed.

(** ** Concrete reports *)

Definition ex_report (i : string) (status : ReportStatus) : Report := {|
  rp_id := i; rp_confession := "c1"; rp_reporter := Some 7; rp_anonymous := None; rp_type := SPAM; rp_reason := None;
  rp_status := status; rp_resolvedBy := None; rp_resolvedAt := None; rp_notes := None; rp_template := None; rp_key := None;
  rp_createdAt := 5000000; rp_priority := 0; rp_priorityReason := None; rp_priorityAt := None; rp_version := 1 |}.
Definition ex_reports (rs : list Report) : ReportDB := {|
  reported := {[ "c1" := [Some "author@example.org"]; "c2" := [] ]}; reporters := ∅;
  rep_rows := list_to_map (map (fun r => (rp_id r, r)) rs); rep_outbox := ∅; rep_audit := []; audit_up := true;
  rep_clock := 6000000 |}.
Definition ex_spam : CreateReportDto := {| dto_type := Some SPAM; dto_reason := None |}.
Definition ex_create (n : string) (c : string) (key : option string) : action Report :=
  createReport {| newReportId := "r" +:+ n; newEventId := "e" +:+ n |} c (Some 7) ex_spam None key.
Definition ex_report_requests : gmap positive ReportActor :=
  {[ 1%positive := RCreate {| newReportId := "r1"; newEventId := "e1" |} "c1" (Some 7) ex_spam None None;
     2%positive := RCreate {| newReportId := "r2"; newEventId := "e2" |} "c1" (Some 7) ex_spam None None ]}.
(** Both requests look for a report before either has written one; then the first
    writes, and the second is refused; a third try finds the report. *)
Definition ex_reported := run_schedule [1; 1; 1; 1; 1; 2; 2; 2]%positive (ex_reports [], serve_report <$> ex_report_requests).

Lemma ex_reports_inv rs : NoDup (map rp_id rs) ->
  (forall r s, r ∈ rs -> s ∈ rs -> conflicts r s = true -> r = s) -> report_inv (ex_reports rs).
Proof.
  intros Hnd Hc. assert (forall i r, rep_rows (ex_reports rs) !! i = Some r -> r ∈ rs /\ rp_id r = i) as Hrow.
  { intros i r Hr. apply elem_of_list_to_map_2, list_elem_of_fmap in Hr as (x & [= -> ->] & Hx). done. }
  split.
  - by intros i r [_ Hr]%Hrow.
  - intros i j r s [Hr <-]%Hrow [Hs <-]%Hrow H. by rewrite (Hc r s).
Qed.

Lemma reports_not_repeated_witness :
  map (fun p : string * Report => rp_id p.2) (map_to_list (rep_rows ex_reported.1)) = ["r1"] /\
  forall i j r s, rep_rows ex_reported.1 !! i = Some r -> rep_rows ex_reported.1 !! j = Some s ->
    rp_confession r = rp_confession s ->
    is_Some (rp_reporter r) /\ rp_reporter r = rp_reporter s
    \/ is_Some (rp_anonymous r) /\ rp_anonymous r = rp_anonymous s -> i = j.
Proof.
  split; [vm_compute; reflexivity|].
  refine (proj1 (reports_not_repeated ex_report_requests (ex_reports []) ex_reported.1 ex_reported.2 "c1" (Some 7) None _ _)).
  - apply ex_reports_inv; [constructor|]. intros r s Hr. by apply elem_of_nil in Hr.
  - rewrite <- surjective_pairing. apply run_schedule_reach.
Defined.

Definition ex_moderators : gmap positive ReportActor :=
  {[ 1%positive := RResolve "r1" {| mo_id := 1; mo_admin := true |} None; 2%positive := RAction "r1" 2 false None ]}.
(** Two moderators have read the report when the first decides it. *)
Definition ex_decided :=
  run_schedule [1; 2; 1; 1; 2; 2; 1]%positive (ex_reports [ex_report "r1" REPORT_PENDING], serve_report <$> ex_moderators).
Definition ex_answer_of (t : positive) : option Report :=
  match ex_decided.2 !! t with Some (Ret o) => o | _ => None end.


Definition ex_bulk := run (bulkResolveReports ["r1"; "r9"; "r1"; "r2"] 3 None)
  (ex_reports [ex_report "r1" REPORT_PENDING; ex_report "r2" DISMISSED <| rp_reporter := Some 8 |>]).
Lemma bulk_resolve_exact_witness : exists res w', ex_bulk = (Ok res, w') /\
  (br_resolved res, br_skipped res, br_notFound res, br_requested res) = (1, 2, 1, 4)%nat /\
  map au_entity (rep_audit w') = ["r1"; "r9"; "r1"; "r2"].
Proof.
  assert (exists res w', ex_bulk = (Ok res, w')) as (res & w' & Hr) by (eexists _, _; vm_compute; reflexivity).
  exists res, w'. split; [exact Hr|]. split; [vm_compute in Hr; by injection Hr as <- _|].
  refine (proj1 (proj2 (proj2 (bulk_resolve_exact _ _ _ _ _ _ _ Hr)))).
  apply ex_reports_inv.
  - apply NoDup_cons; split; [|apply NoDup_singleton]. intros Hin%list_elem_of_singleton. vm_compute in Hin. discriminate Hin.
  - intros x y [->|[->|[]%elem_of_nil]%elem_of_cons]%elem_of_cons [->|[->|[]%elem_of_nil]%elem_of_cons]%elem_of_cons;
      vm_compute; congruence.
Defined.

(** ** What goes wrong *)

(** A second report fails. The duplicate check looks back a day, the index for ever: a
    reader who reports a confession again after a day is answered with an error. *)
Theorem later_report_fails :
  let w := (run (ex_create "1" "c1" None) (ex_reports [])).2 in
  (run (ex_create "2" "c1" None) (w <| rep_clock ::= Z.add (2 * DAY_US) |>)).1 = Exn QueryFailedError.
Proof. vm_compute. reflexivity. Qed.

(** A key answers for any confession: a request with a key the reader used for
    another confession is answered with that report, and reports nothing. *)
Theorem key_answers_other_confession :
  let w := (run (ex_create "1" "c1" (Some "k")) (ex_reports [])).2 in
  exists r, run (ex_create "2" "c2" (Some "k")) w = (Ok r, w) /\ rp_confession r = "c1".
Proof. eexists. vm_compute. split; reflexivity. Qed.

(** The routes of administrators skip the version: of two who read a pending report,
    both are answered, and the second decision replaces the first. *)
Definition ex_admins : gmap positive (action Report) :=
  {[ 1%positive := admin_resolveReport "r1" 1 None None; 2%positive := admin_dismissReport "r1" 2 None ]}.
Theorem admins_decide_twice :
  let s := run_schedule [1; 2; 1; 1; 2; 2]%positive (ex_reports [ex_report "r1" REPORT_PENDING], ex_admins) in
  exists r r', s.2 !! 1%positive = Some (Ret r) /\ s.2 !! 2%positive = Some (Ret r') /\
    rp_status r = RESOLVED /\ rp_status r' = DISMISSED /\ rep_rows s.1 !! "r1" = Some r' /\ rp_version r' = rp_version r.
Proof. eexists _, _. vm_compute. repeat split. Qed.
(** Nor does it take a race: a report another administrator dismissed can be resolved. *)
Theorem admin_reopens_decision :
  let w := ex_reports [ex_report "r1" DISMISSED] in
  exists r, (run (admin_resolveReport "r1" 1 None None) w).1 = Ok r /\ rp_status r = RESOLVED.
Proof. eexists. vm_compute. repeat split. Qed.

(** A page of the largest size is the last one: the query takes at most a hundred
    rows, and it takes one more than the page to see that there are more. *)
Theorem full_page_is_last f limit position w :
  (MAX_LIMIT <= limit)%nat -> (getReportsCursor f limit position w).2 = false.
Proof.
  intros Hl. unfold getReportsCursor. cbn [snd]. apply Nat.ltb_ge. rewrite length_firstn. lia.
Qed.

(** No report has less than high priority: the escalation for repeated offenders is
    applied to every report that is not high already. *)
Theorem every_report_escalated r : HIGH <= (calculatePriority r).1.
Proof. unfold calculatePriority. destruct (rp_type r); vm_compute; discriminate. Qed.
