(* ===== verification/MessageCrypto.v ===== *)
(** * End-to-end encryption of private messages

    [src/xconfess-backend/src/messages/crypto/message-e2e.crypto.ts], the protocol as
    the server knows it: it only checks the shape of an envelope; the clients, in
    [MessageClient], derive the key of a thread from their key pairs, encrypt and
    decrypt.  Web Crypto is an interface with its laws; what it draws is an input. *)
From S2P Require Import Prelude Numbers Json Dates Effects Base64 Cursor.
Open Scope Z_scope.

(** Web Crypto: keys of X25519 in their two formats, the agreement, HKDF and PBKDF2
    with SHA-256, and AES-256-GCM with its tag of 16 bytes appended.  A call that
    rejects is [None].  [generateKey seed] are the raw public and the PKCS #8
    private key of what it drew. *)
Class WebCrypto := {
  PrivateKey : Type;
  PublicKey : Type;
  import_pkcs8 : string -> option PrivateKey;
  import_raw : string -> option PublicKey;
  generateKey : string -> string * string;
  deriveBits : PrivateKey -> PublicKey -> option string;
  sha256 : string -> string;
  hkdf : string -> string -> string -> string;
  pbkdf2 : string -> string -> Z -> string;
  gcm_encrypt : string -> string -> string -> string;
  gcm_decrypt : string -> string -> string -> option string;
}.
(** Both sides of a pair of generated keys agree on their bits; what a key encrypts
    with a nonce it decrypts with it. *)
Class WebCryptoLaws (C : WebCrypto) := {
  keys_agree : forall s s', exists k p k' p' bits,
    import_pkcs8 (generateKey s).2 = Some k /\ import_raw (generateKey s).1 = Some p
    /\ import_pkcs8 (generateKey s').2 = Some k' /\ import_raw (generateKey s').1 = Some p'
    /\ deriveBits k p' = Some bits /\ deriveBits k' p = Some bits;
  gcm_length : forall key iv t, String.length (gcm_encrypt key iv t) = (String.length t + 16)%nat;
  gcm_decrypt_encrypt : forall key iv t, String.length iv = 12%nat ->
    gcm_decrypt key iv (gcm_encrypt key iv t) = Some t;
}.

Inductive e2e_error := InvalidEnvelope | DataError | OperationError | SyntaxError | TypeError | UnsupportedBackup.
Abbreviation result := (outcome e2e_error).
Definition orelse {A} (o : option A) (e : e2e_error) : result A := match o with Some a => Ok a | None => Exn e end.
Definition andthen {A B} (r : result A) (f : A -> result B) : result B := match r with Ok a => f a | Exn e => Exn e end.
#[local] Notation "'let?' x := r 'in' q" := (andthen r (fun x => q)) (at level 10, x name, r at level 100, q at level 200).

(** ** base64url *)

Definition replace_char (a b : Ascii.ascii) : string -> string := str_map (fun c => if Ascii.eqb c a then b else c).
(** [s.replace(/c+$/, '')]. *)
Fixpoint strip_trailing (c : Ascii.ascii) (s : string) : string :=
  match s with
  | EmptyString => EmptyString
  | String d s' => if str_forall (fun x => Ascii.eqb x c) s then EmptyString else String d (strip_trailing c s')
  end.
Fixpoint repeat_char (c : Ascii.ascii) (n : nat) : string :=
  match n with O => EmptyString | S n' => String c (repeat_char c n') end.

(** [src messages/crypto/message-e2e.crypto.ts:29-35 toBase64Url] *)
Definition toBase64Url (bytes : string) : string :=
  strip_trailing "="%char (replace_char "/"%char "_"%char (replace_char "+"%char "-"%char (to_base64 bytes))).
Definition padded (value : string) : string :=
  replace_char "_"%char "/"%char (replace_char "-"%char "+"%char value) +:+ repeat_char "="%char ((4 - String.length value mod 4) mod 4).
(** [src messages/crypto/message-e2e.crypto.ts:37-42 fromBase64Url] *)
Definition fromBase64Url (value : string) : string := from_base64 (padded value).

(** ** Envelopes *)

Definition MESSAGE_E2E_VERSION : Z := 1.
Definition MESSAGE_E2E_INFO : string := "xconfess-e2e-v1".
Definition ENCRYPTED_PREVIEW : string := "[Encrypted message]".
Definition GCM_NONCE_BYTES : Z := 12.
Definition GCM_TAG_BYTES : Z := 16.
Definition ENVELOPE_KEYS : list string := ["v"; "alg"; "iv"; "ct"].
Definition url_char (c : Ascii.ascii) : bool :=
  between "A"%char "Z"%char c || between "a"%char "z"%char c || between "0"%char "9"%char c
  || Ascii.eqb c "_"%char || Ascii.eqb c "-"%char.
Definition BASE64URL_RE (s : string) : bool := truthy s && str_forall url_char s.

(** [src messages/crypto/message-e2e.crypto.ts:15-20 MessageCiphertextEnvelope]: the
    other two fields are constants. *)
Record MessageCiphertextEnvelope := { iv : string; ct : string }.

(** [src messages/crypto/message-e2e.crypto.ts:44-46 buildThreadId] *)
Definition buildThreadId (confessionId senderAnonId : string) : string := confessionId +:+ ":" +:+ senderAnonId.

Definition envelope_json (e : MessageCiphertextEnvelope) : json :=
  JObj [("v", JNum (num_of_Z MESSAGE_E2E_VERSION)); ("alg", JStr "aes-256-gcm"); ("iv", JStr (iv e)); ("ct", JStr (ct e))].
(** [src messages/crypto/message-e2e.crypto.ts:48-50 serializeEnvelope] *)
Definition serializeEnvelope (e : MessageCiphertextEnvelope) : string := stringify (envelope_json e).

(** [src messages/crypto/message-e2e.crypto.ts:53-58 base64UrlByteLength] *)
Definition base64UrlByteLength (value : option json) : Z :=
  match value with
  | Some (JStr s) => if negb (BASE64URL_RE s) then -1 else Z.of_nat (String.length (fromBase64Url s))
  | _ => -1
  end.

(** [src messages/crypto/message-e2e.crypto.ts:60-103 parseEnvelope] *)
Definition parseEnvelope (payload : string) : option MessageCiphertextEnvelope :=
  match parse payload with
  | Some (JObj fs) =>
      let keys := map fst fs in
      if negb (length keys =? length ENVELOPE_KEYS)%nat || negb (forallb (fun key => includes key keys) ENVELOPE_KEYS)
      then None
      else
        let field k := json_get k (JObj fs) in
        if negb (bool_decide (as_integer (field "v") = Some MESSAGE_E2E_VERSION))
           || negb (match field "alg" with Some (JStr a) => a =s? "aes-256-gcm" | _ => false end) then None
        else if negb (base64UrlByteLength (field "iv") =? GCM_NONCE_BYTES) then None
        else if base64UrlByteLength (field "ct") <? GCM_TAG_BYTES then None
        else match field "iv", field "ct" with
             | Some (JStr i), Some (JStr c) => Some {| iv := i; ct := c |}
             | _, _ => None
             end
  | _ => None
  end.

(** [src messages/crypto/message-e2e.crypto.ts:105-107 isEncryptedPayload] *)
Definition isEncryptedPayload (payload : string) : bool := match parseEnvelope payload with Some _ => true | None => false end.

(** [src messages/dto/message.dto.ts:12-16 content]: what the routes validate of a content;
    its characters are its bytes where it is ASCII, as every envelope is. *)
Definition content_valid (content : string) : bool := (1 <=? String.length content)%nat && (String.length content <=? 1000)%nat.
(** What a route takes for the content of a message. *)
Definition accepts (content : string) : bool := content_valid content && isEncryptedPayload content.

(** ** Keys and messages *)
Section crypto.
Context `{C : WebCrypto}.

Record MessageKeyPair := { publicKey : string; privateKey : string }.

(** [src messages/crypto/message-e2e.crypto.ts:119-132 generateMessageKeyPair] *)
Definition generateMessageKeyPair (drawn : string) : MessageKeyPair :=
  {| publicKey := toBase64Url (generateKey drawn).1; privateKey := toBase64Url (generateKey drawn).2 |}.

(** [src messages/crypto/message-e2e.crypto.ts:134-167 deriveThreadKey], with the two
    imports of lines 109-117 *)
Definition deriveThreadKey (privateKeyBase64Url peerPublicKeyBase64Url threadId : string) : result string :=
  let? privateKey := orelse (import_pkcs8 (fromBase64Url privateKeyBase64Url)) DataError in
  let? peerPublicKey := orelse (import_raw (fromBase64Url peerPublicKeyBase64Url)) DataError in
  let? sharedBits := orelse (deriveBits privateKey peerPublicKey) OperationError in
  Ok (hkdf sharedBits (sha256 threadId) MESSAGE_E2E_INFO).

(** [src messages/crypto/message-e2e.crypto.ts:169-194 encryptMessage]; [nonce] is
    [randomBytes(12)]. *)
Definition encryptMessage (nonce plaintext privateKeyBase64Url peerPublicKeyBase64Url threadId : string) : result string :=
  let? key := deriveThreadKey privateKeyBase64Url peerPublicKeyBase64Url threadId in
  Ok (serializeEnvelope {| iv := toBase64Url nonce; ct := toBase64Url (gcm_encrypt key nonce plaintext) |}).

(** [src messages/crypto/message-e2e.crypto.ts:196-220 decryptMessage] *)
Definition decryptMessage (payload privateKeyBase64Url peerPublicKeyBase64Url threadId : string) : result string :=
  let? envelope := orelse (parseEnvelope payload) InvalidEnvelope in
  let? key := deriveThreadKey privateKeyBase64Url peerPublicKeyBase64Url threadId in
  orelse (gcm_decrypt key (fromBase64Url (iv envelope)) (fromBase64Url (ct envelope))) OperationError.

Definition ITERATIONS : Z := 310000.
Definition backup_json (salt nonce ct : string) : json :=
  JObj [("v", JNum (num_of_Z 1)); ("salt", JStr (toBase64Url salt)); ("iv", JStr (toBase64Url nonce)); ("ct", JStr (toBase64Url ct))].
(** [src messages/crypto/message-e2e.crypto.ts:222-260 wrapPrivateKeyWithPassphrase];
    [salt] and [nonce] are random. *)
Definition wrapPrivateKeyWithPassphrase (salt nonce privateKeyBase64Url passphrase : string) : string :=
  stringify (backup_json salt nonce (gcm_encrypt (pbkdf2 passphrase salt ITERATIONS) nonce privateKeyBase64Url)).

(** A field that the code treats as a string. *)
Definition str_field (k : string) (j : json) : result string :=
  match json_get k j with Some (JStr s) => Ok s | _ => Exn TypeError end.
(** [src messages/crypto/message-e2e.crypto.ts:262-300 unwrapPrivateKeyWithPassphrase] *)
Definition unwrapPrivateKeyWithPassphrase (wrappedPayload passphrase : string) : result string :=
  let? parsed := orelse (parse wrappedPayload) SyntaxError in
  match parsed with
  | JNull => Exn TypeError
  | _ =>
      if negb (bool_decide (as_integer (json_get "v" parsed) = Some 1)) then Exn UnsupportedBackup
      else
        let? salt := str_field "salt" parsed in
        let? nonce := str_field "iv" parsed in
        let? ct := str_field "ct" parsed in
        orelse (gcm_decrypt (pbkdf2 passphrase (fromBase64Url salt) ITERATIONS) (fromBase64Url nonce) (fromBase64Url ct))
          OperationError
  end.
End crypto.
