(* ===== verification/MessageClient.v ===== *)
(** * End-to-end encryption in the browser

    [src/xconfess-frontend/app/lib/crypto/messageE2E.ts], the protocol of
    [MessageCrypto] as the client runs it, with [atob] for base64; the theorems on the
    two together. *)
From S2P Require Import Prelude Numbers Json Dates Effects Base64 Cursor MessageCrypto.
Open Scope Z_scope.

#[local] Notation "'let?' x := r 'in' q" := (andthen r (fun x => q)) (at level 10, x name, r at level 100, q at level 200).

(** ** The client *)
(** [atob]: white space is skipped, up to two signs of padding complete a group of
    four, and any other character is refused. *)
Definition ascii_ws (c : Ascii.ascii) : bool := Ascii.eqb c " "%char || Ascii.eqb c "009"%char || Ascii.eqb c "010"%char || Ascii.eqb c "012"%char || Ascii.eqb c "013"%char.
Fixpoint remove_chars (f : Ascii.ascii -> bool) (s : string) : string :=
  match s with EmptyString => EmptyString | String c s' => if f c then remove_chars f s' else String c (remove_chars f s') end.
Definition unpadded (s : string) : string :=
  let n := String.length s in
  if negb (n mod 4 =? 0)%nat then s
  else if skip_str (n - 2) s =s? "==" then take_str (n - 2) s
  else if skip_str (n - 1) s =s? "=" then take_str (n - 1) s
  else s.
Definition atob (data : string) : option string :=
  let s := unpadded (remove_chars ascii_ws data) in
  if (String.length s mod 4 =? 1)%nat
     || negb (str_forall (fun c => bool_decide (is_Some (b64_val c)) && negb (Ascii.eqb c "-"%char) && negb (Ascii.eqb c "_"%char)) s)
  then None else Some (of_bytes (octets (b64_digits s))).

(** [src xconfess-frontend/app/lib/crypto/messageE2E.ts:30-36 fromBase64Url] *)
Definition fromBase64Url (value : string) : result string := orelse (atob (padded value)) DataError.

(** [src xconfess-frontend/app/lib/crypto/messageE2E.ts:46-62 parseEnvelope]: fields
    that are no strings of the alphabet, and further fields, are let through. *)
Definition parseEnvelope (payload : string) : option MessageCiphertextEnvelope :=
  match parse payload with
  | Some (JObj fs) =>
      let field k := json_get k (JObj fs) in
      if bool_decide (as_integer (field "v") = Some MESSAGE_E2E_VERSION)
         && match field "alg" with Some (JStr a) => a =s? "aes-256-gcm" | _ => false end
      then match field "iv", field "ct" with
           | Some (JStr i), Some (JStr c) => Some {| iv := i; ct := c |}
           | _, _ => None
           end
      else None
  | _ => None
  end.

(** [src xconfess-frontend/app/lib/crypto/messageE2E.ts:64-66 isEncryptedPayload] *)
Definition isEncryptedPayload (payload : string) : bool := match parseEnvelope payload with Some _ => true | None => false end.

Section crypto.
Context `{C : WebCrypto}.

(** [src xconfess-frontend/app/lib/crypto/messageE2E.ts:88-101 generateMessageKeyPair] *)
Definition generateMessageKeyPair (drawn : string) : MessageKeyPair :=
  {| publicKey := toBase64Url (generateKey drawn).1; privateKey := toBase64Url (generateKey drawn).2 |}.

(** [src xconfess-frontend/app/lib/crypto/messageE2E.ts:103-133 deriveThreadKey], with
    the two imports of lines 68-86 *)
Definition deriveThreadKey (privateKeyBase64Url peerPublicKeyBase64Url threadId : string) : result string :=
  let? pkcs8 := fromBase64Url privateKeyBase64Url in
  let? privateKey := orelse (import_pkcs8 pkcs8) DataError in
  let? raw := fromBase64Url peerPublicKeyBase64Url in
  let? peerPublicKey := orelse (import_raw raw) DataError in
  let? sharedBits := orelse (deriveBits privateKey peerPublicKey) OperationError in
  Ok (hkdf sharedBits (sha256 threadId) MESSAGE_E2E_INFO).

(** [src xconfess-frontend/app/lib/crypto/messageE2E.ts:135-155 encryptMessage] *)
Definition encryptMessage (nonce plaintext privateKeyBase64Url peerPublicKeyBase64Url threadId : string) : result string :=
  let? key := deriveThreadKey privateKeyBase64Url peerPublicKeyBase64Url threadId in
  Ok (stringify (envelope_json {| iv := toBase64Url nonce; ct := toBase64Url (gcm_encrypt key nonce plaintext) |})).

(** [src xconfess-frontend/app/lib/crypto/messageE2E.ts:157-176 decryptMessage] *)
Definition decryptMessage (payload privateKeyBase64Url peerPublicKeyBase64Url threadId : string) : result string :=
  let? envelope := orelse (parseEnvelope payload) InvalidEnvelope in
  let? key := deriveThreadKey privateKeyBase64Url peerPublicKeyBase64Url threadId in
  let? nonce := fromBase64Url (iv envelope) in
  let? cipher := fromBase64Url (ct envelope) in
  orelse (gcm_decrypt key nonce cipher) OperationError.

(** [src xconfess-frontend/app/lib/crypto/messageE2E.ts:178-211 wrapPrivateKeyWithPassphrase] *)
Definition wrapPrivateKeyWithPassphrase (salt nonce privateKeyBase64Url passphrase : string) : string :=
  stringify (backup_json salt nonce (gcm_encrypt (pbkdf2 passphrase salt ITERATIONS) nonce privateKeyBase64Url)).

(** [src xconfess-frontend/app/lib/crypto/messageE2E.ts:213-253 unwrapPrivateKeyWithPassphrase] *)
Definition unwrapPrivateKeyWithPassphrase (wrappedPayload passphrase : string) : result string :=
  let? parsed := orelse (parse wrappedPayload) SyntaxError in
  match parsed with
  | JNull => Exn TypeError
  | _ =>
      if negb (bool_decide (as_integer (json_get "v" parsed) = Some 1)) then Exn UnsupportedBackup
      else
        let? salt_text := str_field "salt" parsed in
        let? salt := fromBase64Url salt_text in
        let? nonce_text := str_field "iv" parsed in
        let? nonce := fromBase64Url nonce_text in
        let? ct_text := str_field "ct" parsed in
        let? ct := fromBase64Url ct_text in
        orelse (gcm_decrypt (pbkdf2 passphrase salt ITERATIONS) nonce ct) OperationError
  end.
End crypto.

(** ** Lemmas *)

Lemma strip_trailing_app c a b :
  str_forall (fun x => negb (Ascii.eqb x c)) a = true -> str_forall (fun x => Ascii.eqb x c) b = true ->
  strip_trailing c (a +:+ b) = a.
Proof.
  intros Ha Hb. induction a as [|d a IH].
  - destruct b as [|d b]; [done|]. rewrite str_app_nil. cbn [strip_trailing]. by rewrite Hb.
  - rewrite str_app_cons. cbn in *. apply andb_true_iff in Ha as [Hd Ha].
    apply negb_true_iff in Hd. rewrite Hd. cbn [andb]. by rewrite IH.
Qed.
Lemma str_map_app f a b : str_map f (a +:+ b) = str_map f a +:+ str_map f b.
Proof. induction a as [|c a IH]; [done|]. rewrite str_app_cons. cbn. by rewrite IH. Qed.
Lemma length_str_map f s : String.length (str_map f s) = String.length s.
Proof. induction s as [|c s IH]; cbn; congruence. Qed.
Lemma length_b64_chars l : String.length (b64_chars l) = length l.
Proof. induction l as [|v l IH]; cbn; congruence. Qed.
Lemma length_repeat_char c n : String.length (repeat_char c n) = n.
Proof. induction n as [|n IH]; cbn; congruence. Qed.

(** A digit in the alphabet of base64url, and back. *)
Definition to_url (c : Ascii.ascii) : Ascii.ascii :=
  let c := if Ascii.eqb c "+"%char then "-"%char else c in if Ascii.eqb c "/"%char then "_"%char else c.
Definition from_url (c : Ascii.ascii) : Ascii.ascii :=
  let c := if Ascii.eqb c "-"%char then "+"%char else c in if Ascii.eqb c "_"%char then "/"%char else c.
Definition plain_digit (c : Ascii.ascii) : bool :=
  bool_decide (is_Some (b64_val c)) && negb (Ascii.eqb c "-"%char) && negb (Ascii.eqb c "_"%char).
Lemma digit_chars v : 0 <= v < 64 ->
  let c := b64_char v in
  from_url (to_url c) = c /\ url_char (to_url c) = true /\ Ascii.eqb (to_url c) "="%char = false
  /\ plain_digit c = true /\ ascii_ws c = false /\ Ascii.eqb c "="%char = false.
Proof.
  intros Hv.
  assert (forallb (fun n => let c := b64_char (Z.of_nat n) in
    Ascii.eqb (from_url (to_url c)) c && url_char (to_url c) && negb (Ascii.eqb (to_url c) "="%char)
    && plain_digit c && negb (ascii_ws c) && negb (Ascii.eqb c "="%char)) (seq 0 64) = true) as H
    by (vm_compute; reflexivity).
  rewrite forallb_forall in H. specialize (H (Z.to_nat v)). rewrite in_seq in H. specialize (H ltac:(lia)).
  rewrite Z2Nat.id in H by lia. cbv zeta in H. rewrite !andb_true_iff, !negb_true_iff in H.
  destruct H as (((((H1 & H2) & H3) & H4) & H5) & H6). apply Ascii.eqb_eq in H1. by split_and!.
Qed.

Abbreviation digits := (Forall (fun v => 0 <= v < 64)).
Lemma replaced_chars l : digits l ->
  replace_char "_"%char "/"%char (replace_char "-"%char "+"%char
    (replace_char "/"%char "_"%char (replace_char "+"%char "-"%char (b64_chars l)))) = b64_chars l
  /\ str_forall url_char (replace_char "/"%char "_"%char (replace_char "+"%char "-"%char (b64_chars l))) = true
  /\ str_forall (fun x => negb (Ascii.eqb x "="%char)) (replace_char "/"%char "_"%char (replace_char "+"%char "-"%char (b64_chars l))) = true
  /\ str_forall plain_digit (b64_chars l) = true
  /\ str_forall (fun c => negb (ascii_ws c)) (b64_chars l) = true.
Proof.
  unfold replace_char. induction 1 as [|v l Hv _ (IH1 & IH2 & IH3 & IH4 & IH5)]; [done|]. cbn [b64_chars str_map str_forall].
  destruct (digit_chars v Hv) as (H1 & H2 & H3 & H4 & H5 & _). unfold to_url, from_url in *. cbv zeta in *.
  rewrite IH1, IH2, IH3, IH4, IH5, H1, H2, H3, H4, H5. done.
Qed.

(** Three bytes make four digits. *)
Lemma length_sextets l : length (sextets l) = ((4 * length l + 2) / 3)%nat.
Proof.
  induction l as [|a|a b|a b c l IH] using list_ind3; [done..|]. cbn [sextets length]. rewrite IH.
  replace (4 * S (S (S (length l))) + 2)%nat with (4 * length l + 2 + 4 * 3)%nat by lia.
  rewrite Nat.div_add by lia. lia.
Qed.

Definition url_chars (bytes' : string) : string :=
  replace_char "/"%char "_"%char (replace_char "+"%char "-"%char (b64_chars (sextets (bytes bytes')))).
Lemma toBase64Url_chars s : toBase64Url s = url_chars s.
Proof.
  unfold toBase64Url, to_base64, replace_char, url_chars. rewrite !str_map_app.
  apply strip_trailing_app; [apply replaced_chars, sextets_range, bytes_range|].
  unfold padding. by destruct (_ mod 3)%nat as [|[|[|]]].
Qed.
Lemma length_toBase64Url s : String.length (toBase64Url s) = ((4 * String.length s + 2) / 3)%nat.
Proof.
  rewrite toBase64Url_chars. unfold url_chars, replace_char. rewrite !length_str_map, length_b64_chars, length_sextets.
  by rewrite length_bytes.
Qed.
Lemma pad_count n : ((4 - ((4 * n + 2) / 3) mod 4) mod 4)%nat = match (n mod 3)%nat with 1%nat => 2 | 2%nat => 1 | _ => 0 end%nat.
Proof.
  rewrite (Nat.div_mod_eq n 3) at 1. pose proof (Nat.mod_upper_bound n 3 ltac:(lia)) as Hn.
  set (q := (n / 3)%nat). destruct (n mod 3)%nat as [|[|[|]]] eqn:E; [..|lia];
    match goal with |- context [((4 * (3 * q + ?r) + 2) / 3)%nat] =>
      replace (4 * (3 * q + r) + 2)%nat with (4 * r + 2 + 4 * q * 3)%nat by lia end;
    rewrite Nat.div_add by lia.
  - change ((4 * 0 + 2) / 3)%nat with 0%nat. replace (0 + 4 * q)%nat with (0 + q * 4)%nat by lia. by rewrite Nat.Div0.mod_add.
  - change ((4 * 1 + 2) / 3)%nat with 2%nat. replace (2 + 4 * q)%nat with (2 + q * 4)%nat by lia. by rewrite Nat.Div0.mod_add.
  - change ((4 * 2 + 2) / 3)%nat with 3%nat. replace (3 + 4 * q)%nat with (3 + q * 4)%nat by lia. by rewrite Nat.Div0.mod_add.
Qed.
Lemma padded_toBase64Url s : padded (toBase64Url s) = to_base64 s.
Proof.
  unfold padded. rewrite length_toBase64Url, pad_count, toBase64Url_chars. unfold url_chars.
  destruct (replaced_chars (sextets (bytes s))) as [-> _]; [apply sextets_range, bytes_range|].
  unfold to_base64, padding. f_equal. by destruct (_ mod 3)%nat as [|[|[|]]].
Qed.
Lemma fromBase64Url_toBase64Url s : MessageCrypto.fromBase64Url (toBase64Url s) = s.
Proof. unfold MessageCrypto.fromBase64Url. rewrite padded_toBase64Url. apply from_to_base64. Qed.

Lemma str_forall_skip f n s : str_forall f s = true -> str_forall f (skip_str n s) = true.
Proof.
  revert s; induction n as [|n IH]; intros [|c s]; cbn; try done. intros [_ H]%andb_true_iff. by apply IH.
Qed.
Lemma remove_chars_none f s : str_forall (fun c => negb (f c)) s = true -> remove_chars f s = s.
Proof.
  induction s as [|c s IH]; cbn; [done|]. intros [Hc Hs]%andb_true_iff. apply negb_true_iff in Hc. by rewrite Hc, IH.
Qed.
Lemma str_forall_impl (f g : Ascii.ascii -> bool) s : (forall c, f c = true -> g c = true) -> str_forall f s = true -> str_forall g s = true.
Proof.
  intros H. induction s as [|c s IH]; cbn; [done|]. intros [Hc Hs]%andb_true_iff. by rewrite (H c Hc), IH.
Qed.
Lemma unpadded_app a n : str_forall (fun x => negb (Ascii.eqb x "="%char)) a = true -> (n <= 2)%nat ->
  ((String.length a + n) mod 4 = 0)%nat -> unpadded (a +:+ repeat_char "="%char n) = a.
Proof.
  intros Ha Hn H4. unfold unpadded. rewrite length_str_app, length_repeat_char, H4. cbn [negb Nat.eqb].
  assert (forall k b, (0 < String.length b)%nat -> str_forall (fun x => Ascii.eqb x "="%char) b = true ->
    (skip_str k a =s? b) = false) as Hne.
  { intros k b Hb Heq. apply str_eqb_neq. intros He. pose proof (str_forall_skip _ k a Ha) as Hs. rewrite He in Hs.
    destruct b as [|c b]; [cbn in Hb; lia|]. cbn in Hs, Heq. apply andb_true_iff in Hs as [Hs _]. apply andb_true_iff in Heq as [Heq _].
    by rewrite Heq in Hs. }
  destruct n as [|[|[|]]]; [| | |lia]; cbn [repeat_char].
  - rewrite str_app_empty_r, !Hne by (done || (cbn; lia)). done.
  - replace (String.length a + 1 - 1)%nat with (String.length a) by lia.
    rewrite (skip_str_app (String.length a) a "=") by done.
    destruct (skip_str (String.length a + 1 - 2) (a +:+ "=") =s? "==") eqn:E; [exfalso|by rewrite take_str_app].
    apply str_eqb_eq in E. destruct (decide (a = "")) as [->|Hnil]; [done|].
    assert (exists k, k < String.length a /\ (String.length a + 1 - 2) = k)%nat as (k & Hk & Hk').
    { exists (String.length a - 1)%nat. destruct a; [done|]. cbn. lia. }
    rewrite Hk' in E. clear Hk' Hne H4 Hnil. revert k Hk E. induction a as [|c a IH]; intros k Hk E; [cbn in Hk; lia|].
    rewrite str_app_cons in E. cbn in Ha. apply andb_true_iff in Ha as [Hc Ha].
    destruct k as [|k]; cbn in E.
    + injection E as -> _. done.
    + apply (IH Ha k); [cbn in Hk; lia|done].
  - replace (String.length a + 2 - 2)%nat with (String.length a) by lia.
    by rewrite (skip_str_app (String.length a) a "=="), str_eqb_refl, take_str_app.
Qed.

Lemma atob_to_base64 s : atob (to_base64 s) = Some s.
Proof.
  set (l := sextets (bytes s)). pose proof (sextets_range (bytes s) (bytes_range s)) as Hl. fold l in Hl.
  destruct (replaced_chars l Hl) as (_ & _ & _ & Hplain & Hws).
  set (n := match (String.length s mod 3)%nat with 1 => 2 | 2 => 1 | _ => 0 end%nat).
  assert (to_base64 s = b64_chars l +:+ repeat_char "="%char n) as Hs.
  { unfold to_base64, padding. fold l. f_equal. subst n. by destruct (_ mod 3)%nat as [|[|[|]]]. }
  assert (n <= 2)%nat as Hn by (subst n; destruct (_ mod 3)%nat as [|[|[|]]]; lia).
  pose proof (pad_count (String.length s)) as Hp. fold n in Hp. rewrite <- (length_bytes s), <- length_sextets in Hp. fold l in Hp.
  rewrite Hs. unfold atob.
  rewrite remove_chars_none; [rewrite unpadded_app; [|..|done|]|].
  - replace (String.length (b64_chars l) mod 4 =? 1)%nat with false.
    2:{ symmetry. apply Nat.eqb_neq. rewrite length_b64_chars. intros H. rewrite H in Hp. cbn in Hp. lia. }
    cbn [orb]. change (fun c => bool_decide (is_Some (b64_val c)) && negb (Ascii.eqb c "-"%char) && negb (Ascii.eqb c "_"%char))
      with plain_digit. rewrite Hplain. cbn [negb].
    pose proof (b64_digits_chars l "" Hl) as Hd. rewrite str_app_empty_r in Hd. rewrite Hd. cbn [b64_digits]. rewrite app_nil_r.
    subst l. by rewrite octets_sextets, of_bytes_bytes by apply bytes_range.
  - apply (str_forall_impl plain_digit); [|done]. intros c Hc. destruct (Ascii.eqb_spec c "="%char) as [->|]; done.
  - rewrite length_b64_chars. pose proof (Nat.mod_upper_bound (length l) 4 ltac:(lia)).
    rewrite (Nat.div_mod_eq (length l) 4). rewrite <- Hp.
    destruct (length l mod 4)%nat as [|[|[|[|]]]] eqn:E; [..|lia];
      cbn in Hp; [| lia | |].
    all: replace ((4 - 0) mod 4)%nat with 0%nat by done; try replace ((4 - 2) mod 4)%nat with 2%nat by done;
      try replace ((4 - 3) mod 4)%nat with 1%nat by done.
    + replace (4 * (length l / 4) + 0 + 0)%nat with (0 + (length l / 4) * 4)%nat by lia. by rewrite Nat.Div0.mod_add.
    + replace (4 * (length l / 4) + 2 + 2)%nat with (0 + (length l / 4 + 1) * 4)%nat by lia. by rewrite Nat.Div0.mod_add.
    + replace (4 * (length l / 4) + 3 + 1)%nat with (0 + (length l / 4 + 1) * 4)%nat by lia. by rewrite Nat.Div0.mod_add.
  - rewrite str_forall_app, Hws. by destruct n as [|[|[|]]]; [..|lia].
Qed.
Lemma client_fromBase64Url s : fromBase64Url (toBase64Url s) = Ok s.
Proof. unfold fromBase64Url. by rewrite padded_toBase64Url, atob_to_base64. Qed.
Lemma BASE64URL_toBase64Url s : s <> "" -> BASE64URL_RE (toBase64Url s) = true.
Proof.
  intros Hs. unfold BASE64URL_RE, truthy. apply andb_true_iff. split.
  - apply negb_true_iff, str_eqb_neq. intros H. apply (f_equal String.length) in H. rewrite length_toBase64Url in H.
    destruct s as [|c s]; [done|]. cbn [String.length] in H.
    pose proof (Nat.Div0.div_le_mono 3 (4 * S (String.length s) + 2) 3 ltac:(lia)) as H'. rewrite H in H'. cbn in H'. lia.
  - rewrite toBase64Url_chars. apply (replaced_chars (sextets (bytes s))), sextets_range, bytes_range.
Qed.
Lemma byteLength_toBase64Url s : s <> "" -> base64UrlByteLength (Some (JStr (toBase64Url s))) = Z.of_nat (String.length s).
Proof. intros Hs. unfold base64UrlByteLength. by rewrite BASE64URL_toBase64Url, fromBase64Url_toBase64Url. Qed.

Lemma parse_envelope_json e : parse (serializeEnvelope e) = Some (envelope_json e).
Proof.
  apply parse_stringify. cbn. split; [|split; [by exists MESSAGE_E2E_VERSION|done]].
  repeat (apply NoDup_cons; split; [set_solver|]). apply NoDup_nil_2.
Qed.
Lemma parse_serializeEnvelope e :
  base64UrlByteLength (Some (JStr (iv e))) = 12 -> 16 <= base64UrlByteLength (Some (JStr (ct e))) ->
  MessageCrypto.parseEnvelope (serializeEnvelope e) = Some e.
Proof.
  intros Hiv Hct. unfold MessageCrypto.parseEnvelope. rewrite parse_envelope_json. unfold envelope_json.
  cbn [map fst length Nat.eqb negb orb forallb ENVELOPE_KEYS includes existsb str_eqb].
  change (json_get "v" _) with (Some (JNum (num_of_Z 1))). change (as_integer _) with (Some 1).
  change (json_get "alg" ?j) with (Some (JStr "aes-256-gcm")). change (json_get "iv" ?j) with (Some (JStr (iv e))).
  change (json_get "ct" ?j) with (Some (JStr (ct e))). rewrite Hiv.
  destruct (Z.ltb_spec (base64UrlByteLength (Some (JStr (ct e)))) GCM_TAG_BYTES) as [Hlt|_]; [unfold GCM_TAG_BYTES in Hlt; lia|].
  by destruct e.
Qed.
Lemma client_parse_serializeEnvelope e : parseEnvelope (serializeEnvelope e) = Some e.
Proof. unfold parseEnvelope. rewrite parse_envelope_json. by destruct e. Qed.

(** What the parser answers as an object repeats no key. *)
Lemma json_set_keys k v fs x : x ∈ map fst (json_set k v fs) <-> x = k \/ x ∈ map fst fs.
Proof.
  induction fs as [|f fs IH]; cbn; [set_solver|].
  destruct (str_eqb_spec f.1 k) as [->|]; cbn; rewrite !elem_of_cons, ?IH; naive_solver.
Qed.
Lemma json_set_nodup k v fs : NoDup (map fst fs) -> NoDup (map fst (json_set k v fs)).
Proof.
  induction fs as [|f fs IH]; cbn; [intros _; apply NoDup_cons; split; [set_solver|apply NoDup_nil_2]|].
  intros [Hf Hfs]%NoDup_cons. destruct (str_eqb_spec f.1 k) as [<-|Hne]; cbn; apply NoDup_cons; [done|].
  rewrite json_set_keys. naive_solver.
Qed.
Lemma obj_of_keys l fs : obj_of l = JObj fs -> NoDup (map fst fs).
Proof.
  unfold obj_of. intros [= <-]. enough (forall acc, NoDup (map fst acc) ->
    NoDup (map fst (fold_left (fun fs m => json_set m.1 m.2 fs) l acc))) as H by (apply H, NoDup_nil_2).
  induction l as [|m l IH]; intros acc Hacc; cbn; [done|]. apply IH. by apply json_set_nodup.
Qed.
Lemma parse_keys s fs : parse s = Some (JObj fs) -> NoDup (map fst fs).
Proof.
  unfold parse. destruct (parse_value _ s) as [[j r]|] eqn:Hp; [|done]. cbn. destruct (skip_ws r =s? ""); [|done].
  intros [= ->]. revert Hp. generalize (2 * String.length s + 2)%nat. intros [|fuel]; [done|]. cbn [parse_value].
  destruct (skip_ws s) as [|c s']; [done|]. intros Hp.
  repeat match goal with
         | H : (if ?b then _ else _) = _ |- _ => destruct b
         | H : (?o ≫= _) = _ |- _ => destruct o as [[??]|]; cbn in H
         end; try done; simplify_eq; try apply NoDup_nil_2.
  by eapply obj_of_keys.
Qed.

Lemma json_get_elem k v fs : json_get k (JObj fs) = Some v -> (k, v) ∈ fs.
Proof.
  cbn. intros H. induction fs as [|[k' v'] fs IH]; [done|]. cbn in H. destruct (str_eqb_spec k' k) as [->|].
  - injection H as ->. by left.
  - right. by apply IH.
Qed.
Lemma elem_json_get k v fs : NoDup (map fst fs) -> (k, v) ∈ fs -> json_get k (JObj fs) = Some v.
Proof.
  cbn. induction fs as [|[k' v'] fs IH]; [set_solver|]. cbn. intros [Hk Hnd]%NoDup_cons [[= -> ->]|Hin]%elem_of_cons.
  - by rewrite str_eqb_refl.
  - destruct (str_eqb_spec k' k) as [->|]; [|by apply IH]. destruct Hk. apply list_elem_of_fmap. by exists (k, v).
Qed.

(** The server lets through exactly the envelopes of the protocol: a JSON object
    with the four keys and no other, in any order, of version 1 and this algorithm,
    whose nonce and ciphertext are base64url texts of 12 bytes and of at least the 16
    bytes of a tag. *)
Theorem envelope_strict payload :
  MessageCrypto.isEncryptedPayload payload = true <->
  exists fs v i c, parse payload = Some (JObj fs)
    /\ fs ≡ₚ [("v", v); ("alg", JStr "aes-256-gcm"); ("iv", JStr i); ("ct", JStr c)]
    /\ as_integer (Some v) = Some 1
    /\ BASE64URL_RE i = true /\ String.length (MessageCrypto.fromBase64Url i) = 12%nat
    /\ BASE64URL_RE c = true /\ (16 <= String.length (MessageCrypto.fromBase64Url c))%nat.
Proof.
  unfold MessageCrypto.isEncryptedPayload, MessageCrypto.parseEnvelope. split.
  - destruct (parse payload) as [[| | | | |fs]|] eqn:Hp; try done. pose proof (parse_keys _ _ Hp) as Hnd. cbv zeta.
    destruct (negb (length _ =? _)%nat) eqn:Hlen; [done|]. cbn [orb].
    destruct (negb (forallb _ _)); [done|]. apply negb_false_iff, Nat.eqb_eq in Hlen. rewrite length_map in Hlen.
    destruct (negb (bool_decide _)) eqn:Hv; [done|]. apply negb_false_iff, bool_decide_eq_true in Hv. cbn [orb].
    destruct (json_get "v" _) as [v|] eqn:Gv; [|done].
    destruct (json_get "alg" _) as [[| | |alg| |]|] eqn:Ga; try done. destruct (str_eqb_spec alg "aes-256-gcm") as [->|]; [|done].
    cbn [negb]. destruct (json_get "iv" _) as [[| | |i| |]|] eqn:Gi; try done. unfold base64UrlByteLength at 1.
    destruct (BASE64URL_RE i) eqn:Ri; [|done]. cbn [negb].
    destruct (Z.eqb_spec (Z.of_nat (String.length (MessageCrypto.fromBase64Url i))) GCM_NONCE_BYTES) as [Li|]; [|done]. cbn [negb].
    destruct (json_get "ct" _) as [[| | |c| |]|] eqn:Gc; try done. unfold base64UrlByteLength.
    destruct (BASE64URL_RE c) eqn:Rc; [|done]. cbn [negb].
    destruct (Z.ltb_spec (Z.of_nat (String.length (MessageCrypto.fromBase64Url c))) GCM_TAG_BYTES) as [|Lc]; [done|]. intros _.
    exists fs, v, i, c. split; [done|]. unfold GCM_NONCE_BYTES, GCM_TAG_BYTES in *. split_and!; try done; try lia. symmetry.
    apply submseteq_length_Permutation; [|by rewrite Hlen].
    apply NoDup_submseteq; [repeat (apply NoDup_cons; split; [set_solver|]); apply NoDup_nil_2|].
    intros x. rewrite !elem_of_cons. intros [->|[->|[->|[->|Hnil]]]]; [by apply json_get_elem..|by apply elem_of_nil in Hnil].
  - intros (fs & v & i & c & Hp & Hfs & Hv & Ri & Li & Rc & Lc). rewrite Hp. pose proof (parse_keys _ _ Hp) as Hnd. cbv zeta.
    rewrite length_map, (Permutation_length Hfs).
    unfold ENVELOPE_KEYS. cbn [length Nat.eqb negb orb].
    assert (forall k j, (k, j) ∈ [("v", v); ("alg", JStr "aes-256-gcm"); ("iv", JStr i); ("ct", JStr c)] ->
      json_get k (JObj fs) = Some j) as Hget.
    { intros k j Hin. apply elem_json_get; [done|]. by rewrite Hfs. }
    assert (forallb (fun key => includes key (map fst fs)) ["v"; "alg"; "iv"; "ct"] = true) as ->.
    { apply forallb_forall. intros k Hk%list_elem_of_In. apply includes_spec. apply (fmap_Permutation fst) in Hfs.
      change (fst <$> fs) with (map fst fs) in Hfs. by rewrite Hfs. }
    rewrite (Hget "v" v), (Hget "alg" (JStr "aes-256-gcm")), (Hget "iv" (JStr i)), (Hget "ct" (JStr c)), Hv by set_solver.
    unfold base64UrlByteLength. rewrite Ri, Rc, Li. cbn [negb bool_decide str_eqb].
    destruct (Z.ltb_spec (Z.of_nat (String.length (MessageCrypto.fromBase64Url c))) GCM_TAG_BYTES) as [Hlt|_]; [unfold GCM_TAG_BYTES in Hlt; lia|done].
Qed.

Section laws.
Context `{L : WebCryptoLaws}.

Lemma derive_generated a b thread :
  exists key, deriveThreadKey (privateKey (generateMessageKeyPair a)) (publicKey (generateMessageKeyPair b)) thread = Ok key
    /\ deriveThreadKey (privateKey (generateMessageKeyPair b)) (publicKey (generateMessageKeyPair a)) thread = Ok key
    /\ MessageCrypto.deriveThreadKey (privateKey (MessageCrypto.generateMessageKeyPair a)) (publicKey (MessageCrypto.generateMessageKeyPair b)) thread = Ok key
    /\ MessageCrypto.deriveThreadKey (privateKey (MessageCrypto.generateMessageKeyPair b)) (publicKey (MessageCrypto.generateMessageKeyPair a)) thread = Ok key.
Proof.
  destruct (keys_agree a b) as (k & p & k' & p' & bits & H1 & H2 & H3 & H4 & H5 & H6).
  exists (hkdf bits (sha256 thread) MESSAGE_E2E_INFO). unfold deriveThreadKey, MessageCrypto.deriveThreadKey. cbn [privateKey publicKey generateMessageKeyPair MessageCrypto.generateMessageKeyPair].
  rewrite !client_fromBase64Url, !fromBase64Url_toBase64Url. cbn. rewrite H1, H2, H3, H4. cbn. by rewrite H5, H6.
Qed.

Lemma encrypted_envelope key nonce t : String.length nonce = 12%nat ->
  let e := {| iv := toBase64Url nonce; ct := toBase64Url (gcm_encrypt key nonce t) |} in
  MessageCrypto.parseEnvelope (serializeEnvelope e) = Some e.
Proof.
  intros Hn e. apply parse_serializeEnvelope; cbn [iv ct e].
  - rewrite byteLength_toBase64Url, Hn; [done|]. by intros ->.
  - pose proof (gcm_length key nonce t) as Hl. rewrite byteLength_toBase64Url, Hl; [lia|]. intros H. rewrite H in Hl. cbn in Hl. lia.
Qed.
Lemma quoted_url s : str_forall url_char s = true -> forall rest, quoted s rest = s +:+ String dquote rest.
Proof.
  induction s as [|c s IH]; [done|]. cbn [str_forall]. intros [Hc Hs]%andb_true_iff rest. rewrite str_app_cons. cbn [quoted].
  rewrite IH by done. clear -Hc. by destruct c as [[] [] [] [] [] [] [] []].
Qed.
Lemma length_serialized e : str_forall url_char (iv e) = true -> str_forall url_char (ct e) = true ->
  String.length (serializeEnvelope e) = (43 + String.length (iv e) + String.length (ct e))%nat.
Proof.
  intros Hi Hc. unfold serializeEnvelope, envelope_json. cbn [stringify map join_with fst snd].
  assert (forall s, str_forall url_char s = true -> String.length (quote s) = (String.length s + 2)%nat) as Hq.
  { intros s Hs. unfold quote. rewrite quoted_url by done. cbn [String.length]. rewrite length_str_app. cbn. lia. }
  rewrite !length_str_app, (Hq (iv e)), (Hq (ct e)) by done.
  change (is_finite (num_of_Z MESSAGE_E2E_VERSION)) with true. change (number_string (num_of_Z MESSAGE_E2E_VERSION)) with "1". cbn [String.length].
  change (String.length (quote "v")) with 3%nat. change (String.length (quote "alg")) with 5%nat.
  change (String.length (quote "aes-256-gcm")) with 13%nat. change (String.length (quote "iv")) with 4%nat.
  change (String.length (quote "ct")) with 4%nat. lia.
Qed.
(** The longest text of an envelope that the body of a message (at most 1000
    characters) can carry. *)
Lemma longest_text n : (59 + (4 * (n + 16) + 2) / 3 <= 1000 <-> n <= 689)%nat.
Proof.
  split; intros H.
  - destruct (decide (n <= 689)%nat) as [|Hn]; [done|].
    pose proof (Nat.Div0.div_le_mono (4 * (690 + 16) + 2) (4 * (n + 16) + 2) 3 ltac:(lia)) as Hd.
    change ((4 * (690 + 16) + 2) / 3)%nat with 942%nat in Hd. lia.
  - pose proof (Nat.Div0.div_le_mono (4 * (n + 16) + 2) (4 * (689 + 16) + 2) 3 ltac:(lia)) as Hd.
    change ((4 * (689 + 16) + 2) / 3)%nat with 940%nat in Hd. lia.
Qed.
(** C25. What one browser encrypts for a thread, both browsers of the thread read: with
    the key pairs the client generates, the client and the protocol of the server decrypt
    the envelope to the text from either side.  The envelope has the strict shape, its
    length is that of the text in base64 and a constant, and the routes of the server,
    which take at most 1000 characters, accept it exactly when the text has at most 689
    bytes. *)
Theorem e2e_end_to_end drawnA drawnB thread nonce text :
  String.length nonce = 12%nat ->
  let A := generateMessageKeyPair drawnA in
  let B := generateMessageKeyPair drawnB in
  exists payload, encryptMessage nonce text (privateKey A) (publicKey B) thread = Ok payload
    /\ MessageCrypto.isEncryptedPayload payload = true
    /\ accepts payload = (String.length text <=? 689)%nat
    /\ String.length payload = (59 + (4 * (String.length text + 16) + 2) / 3)%nat
    /\ decryptMessage payload (privateKey B) (publicKey A) thread = Ok text
    /\ decryptMessage payload (privateKey A) (publicKey B) thread = Ok text
    /\ MessageCrypto.decryptMessage payload (privateKey B) (publicKey A) thread = Ok text
    /\ MessageCrypto.encryptMessage nonce text (privateKey A) (publicKey B) thread = Ok payload.
Proof.
  intros Hn A B. destruct (derive_generated drawnA drawnB thread) as (key & H1 & H2 & H3 & H4). fold A B in H1, H2.
  pose proof (encrypted_envelope key nonce text Hn) as Hp. cbv zeta in Hp.
  set (e := {| iv := toBase64Url nonce; ct := toBase64Url (gcm_encrypt key nonce text) |}) in *.
  change (privateKey (MessageCrypto.generateMessageKeyPair drawnA)) with (privateKey A) in H3, H4. change (publicKey (MessageCrypto.generateMessageKeyPair drawnA)) with (publicKey A) in H3, H4.
  change (privateKey (MessageCrypto.generateMessageKeyPair drawnB)) with (privateKey B) in H3, H4. change (publicKey (MessageCrypto.generateMessageKeyPair drawnB)) with (publicKey B) in H3, H4.
  assert (String.length (serializeEnvelope e) = (59 + (4 * (String.length text + 16) + 2) / 3)%nat) as Hlen.
  { rewrite length_serialized; cbn [iv ct e]; [|rewrite toBase64Url_chars; apply replaced_chars, sextets_range, bytes_range..].
    by rewrite !length_toBase64Url, Hn, gcm_length. }
  assert (MessageCrypto.isEncryptedPayload (serializeEnvelope e) = true) as Hshape by (unfold MessageCrypto.isEncryptedPayload; by rewrite Hp).
  exists (serializeEnvelope e). unfold accepts, content_valid. rewrite Hshape, andb_true_r, Hlen. unfold encryptMessage, MessageCrypto.encryptMessage, decryptMessage, MessageCrypto.decryptMessage.
  rewrite H1, H2, H3, H4, Hp, client_parse_serializeEnvelope. cbn [andthen orelse iv ct e].
  rewrite !client_fromBase64Url, !fromBase64Url_toBase64Url. cbn [andthen]. rewrite !gcm_decrypt_encrypt by done.
  split_and!; try done. pose proof (longest_text (String.length text)) as Hl.
  destruct (Nat.leb_spec (String.length text) 689) as [Ht|Ht]; [apply andb_true_iff; split; apply Nat.leb_le; lia|].
  apply andb_false_iff. right. apply Nat.leb_gt. lia.
Qed.

(** A private key wrapped under a passphrase is unwrapped with it, by the client
    and by the protocol of the server. *)
Theorem key_backup_roundtrip salt nonce key passphrase : String.length nonce = 12%nat ->
  unwrapPrivateKeyWithPassphrase (wrapPrivateKeyWithPassphrase salt nonce key passphrase) passphrase = Ok key
  /\ MessageCrypto.unwrapPrivateKeyWithPassphrase (MessageCrypto.wrapPrivateKeyWithPassphrase salt nonce key passphrase) passphrase = Ok key.
Proof.
  intros Hn. unfold unwrapPrivateKeyWithPassphrase, MessageCrypto.unwrapPrivateKeyWithPassphrase, wrapPrivateKeyWithPassphrase, MessageCrypto.wrapPrivateKeyWithPassphrase.
  set (c := gcm_encrypt _ _ _). rewrite parse_stringify.
  2:{ cbn. split; [|split; [by exists 1|done]]. repeat (apply NoDup_cons; split; [set_solver|]). apply NoDup_nil_2. }
  unfold backup_json. cbn [orelse andthen]. change (as_integer (json_get "v" _)) with (Some 1).
  unfold str_field. change (json_get "salt" ?j) with (Some (JStr (toBase64Url salt))).
  change (json_get "iv" ?j) with (Some (JStr (toBase64Url nonce))). change (json_get "ct" ?j) with (Some (JStr (toBase64Url c))).
  cbn [negb bool_decide andthen]. rewrite !client_fromBase64Url, !fromBase64Url_toBase64Url. cbn [andthen]. subst c.
  by rewrite gcm_decrypt_encrypt.
Qed.
End laws.

(** ** A browser and a server *)

Definition toy_bits (a b : string) : string := if str_le a b then a +:+ b else b +:+ a.
#[export] Instance toy_crypto : WebCrypto := {|
  PrivateKey := string; PublicKey := string; import_pkcs8 := Some; import_raw := Some;
  generateKey := fun s => (s, s); deriveBits := fun a b => Some (toy_bits a b);
  sha256 := fun s => s; hkdf := fun b s i => b +:+ s +:+ i; pbkdf2 := fun p s _ => p +:+ s;
  gcm_encrypt := fun key iv t => t +:+ "0123456789abcdef";
  gcm_decrypt := fun key iv c => Some (take_str (String.length c - 16) c);
|}.
#[export] Instance toy_laws : WebCryptoLaws toy_crypto.
Proof.
  split.
  - intros s s'. exists s, s, s', s', (toy_bits s s'). split_and!; try done. cbn. f_equal. unfold toy_bits.
    destruct (str_le s s') eqn:H1, (str_le s' s) eqn:H2; try done.
    + by rewrite (str_le_antisym _ _ H1 H2).
    + pose proof (str_le_total s s') as H. by rewrite H1, H2 in H.
  - intros key iv0 t. cbn. rewrite length_str_app. done.
  - intros key iv0 t _. cbn. f_equal. apply take_str_app. rewrite length_str_app. cbn. lia.
Defined.

Lemma e2e_end_to_end_witness :
  exists payload, encryptMessage "nonce-nonce-" "hello" (privateKey (generateMessageKeyPair "alice"))
                    (publicKey (generateMessageKeyPair "bob")) "c:s" = Ok payload
    /\ accepts payload = true
    /\ decryptMessage payload (privateKey (generateMessageKeyPair "bob"))
         (publicKey (generateMessageKeyPair "alice")) "c:s" = Ok "hello".
Proof.
  destruct (e2e_end_to_end "alice" "bob" "c:s" "nonce-nonce-" "hello" eq_refl) as (p & H1 & _ & H3 & _ & H2 & _).
  exists p. by split_and!.
Defined.
Lemma key_backup_roundtrip_witness :
  unwrapPrivateKeyWithPassphrase
    (wrapPrivateKeyWithPassphrase "0123456789abcdef" "nonce-nonce-" "secret" "pass") "pass" = Ok "secret".
Proof. exact (proj1 (key_backup_roundtrip "0123456789abcdef" "nonce-nonce-" "secret" "pass" eq_refl)). Defined.

(** The client lets through what the server refuses. *)
Lemma client_lenient : exists payload, isEncryptedPayload payload = true /\ MessageCrypto.isEncryptedPayload payload = false.
Proof.
  exists (stringify (JObj [("v", JNum (num_of_Z 1)); ("alg", JStr "aes-256-gcm"); ("iv", JStr ""); ("ct", JStr ""); ("x", JNull)])).
  vm_compute. done.
Qed.
