(* ===== verification/Messages.v ===== *)
(** * Private messages

    [src/xconfess-backend/src/messages/messages.service.ts], its repository
    [messages/repository/message.repository.ts], the routes of
    [messages/messages.controller.ts] with [common/guards/ownership.guard.ts] in front
    of them, and [messages/message-throttle.service.ts].  A reader writes to the
    author of a confession under an anonymous identity; the messages of one identity
    on one confession are a thread, which both sides read.  The store of the
    anonymous identities is that of [AnonymousUser]; every other read is an access, a
    transaction one access.  How the database reads the texts of a cursor and the
    hash of an idempotency key are parameters. *)
From stdpp Require Import pretty.
From S2P Require Import Prelude Numbers Json Dates Effects JobQueue Notifications Outbox Base64 Cursor AnonymousUser MessageCrypto.
Open Scope Z_scope.

(** ** Data *)

(** [src messages/entities/message.entity.ts:14-18 MessageDeliveryStatus] *)
Inductive MessageDeliveryStatus := SENT | DELIVERED | READ.
#[export] Instance MessageDeliveryStatus_eq_dec : EqDecision MessageDeliveryStatus.
Proof. solve_decision. Defined.

(** [src messages/entities/message.entity.ts:20-89 Message]; the columns of the
    throttle are below. *)
Record Message := {
  ms_id : Z; ms_sender : string; ms_confession : string; ms_content : string; ms_key : option string;
  isEncrypted : bool; ms_createdAt : ms; hasReply : bool; replyContent : option string; repliedAt : option ms;
  authorReadAt : option ms; senderReadAt : option ms; deliveryStatus : MessageDeliveryStatus;
  deliveredAt : option ms; readAt : option ms;
}.
#[export] Instance eta_Message : Eta Message := fun m => {|
  ms_id := ms_id m; ms_sender := ms_sender m; ms_confession := ms_confession m; ms_content := ms_content m;
  ms_key := ms_key m; isEncrypted := isEncrypted m; ms_createdAt := ms_createdAt m; hasReply := hasReply m;
  replyContent := replyContent m; repliedAt := repliedAt m; authorReadAt := authorReadAt m;
  senderReadAt := senderReadAt m; deliveryStatus := deliveryStatus m; deliveredAt := deliveredAt m; readAt := readAt m |}.

(** The row of an account, as far as it is used here: its mail address, and the
    privacy setting, which may be absent. *)
Record Account := { ac_id : Z; ac_mail : string; ac_replies : option bool; ac_password : string }.
(** [src user/entities/user.entity.ts:144-147 canReceiveReplies] *)
Definition canReceiveReplies (u : Account) : bool := default true (ac_replies u).

(** A confession: its stored text and the identity of its author. *)
Record MsgConfession := { mc_message : string; mc_author : option string }.

Record MsgDB := {
  md_anon : AnonDB;
  md_accounts : gmap Z Account;
  md_confessions : gmap string MsgConfession;
  md_rows : gmap Z Message;
  md_seq : Z;
  md_outbox : gmap string OutboxEvent;
  md_analytics : list string;
  md_clock : ms;
}.
#[export] Instance eta_MsgDB : Eta MsgDB := fun w => {|
  md_anon := md_anon w; md_accounts := md_accounts w; md_confessions := md_confessions w; md_rows := md_rows w;
  md_seq := md_seq w; md_outbox := md_outbox w; md_analytics := md_analytics w; md_clock := md_clock w |}.
#[export] Program Instance msg_anon_lens : Lens MsgDB AnonDB := {| lget := md_anon; lset a w := w <| md_anon := a |> |}.
Solve Obligations with by intros; repeat match goal with w : MsgDB |- _ => destruct w end.

Inductive message_error :=
| BadRequestException (m : string) | NotFoundException (m : string) | ForbiddenException (m : string)
| ConflictException (m : string) | QueryFailedError.
Abbreviation action := (prog MsgDB message_error).

(** [src messages/repository/message.repository.ts:6-6 ThreadViewerRole] *)
Inductive ThreadViewerRole := AUTHOR | SENDER.
#[export] Instance ThreadViewerRole_eq_dec : EqDecision ThreadViewerRole.
Proof. solve_decision. Defined.

(** [src common/pagination/cursor-paginated-response.dto.ts:33-62 CursorPaginatedResponseDto] *)
Record Page (A : Type) := { pg_data : list A; pg_next : option string; pg_more : bool; pg_limit : nat }.
Arguments pg_data {A}. Arguments pg_next {A}. Arguments pg_more {A}. Arguments pg_limit {A}. Arguments Build_Page {A}.
(** [src messages/dto/get-messages-query.dto.ts:19-57 GetMessagesQueryDto]: the fields
    the service reads. *)
Record GetMessagesQueryDto := { q_cursor : option string; q_limit : option nat; q_page : option nat }.
#[export] Instance eta_GetMessagesQueryDto : Eta GetMessagesQueryDto := fun q =>
  {| q_cursor := q_cursor q; q_limit := q_limit q; q_page := q_page q |}.

(** ** Rows *)

Definition select_rows (P : Message -> bool) (w : MsgDB) : list Message :=
  map snd (map_to_list (filter (fun p : Z * Message => P p.2 = true) (md_rows w))).
(** [UPDATE ... SET ... WHERE ...], with the number of the rows. *)
Definition update_where (P : Message -> bool) (f : ms -> Message -> Message) (w : MsgDB) : Z * MsgDB :=
  (Z.of_nat (length (select_rows P w)), w <| md_rows ::= fmap (fun m => if P m then f (md_clock w) m else m) |>).
Definition in_thread (confessionId senderId : string) (m : Message) : bool :=
  (ms_confession m =s? confessionId) && (ms_sender m =s? senderId).
Definition is_null {A} (o : option A) : bool := match o with None => true | Some _ => false end.

(** [src messages/repository/message.repository.ts:15-41 markThreadRead] *)
Definition markThreadRead (confessionId senderId : string) (role : ThreadViewerRole) : action unit :=
  match role with
  | AUTHOR =>
      let* _n := access (update_where (fun m => in_thread confessionId senderId m && is_null (authorReadAt m))
                           (fun now m => m <| authorReadAt := Some now |>)) in Ret tt
  | SENDER =>
      let* _n := access (update_where (fun m => in_thread confessionId senderId m && hasReply m && is_null (senderReadAt m))
                           (fun now m => m <| senderReadAt := Some now |>)) in Ret tt
  end.
(** [src messages/repository/message.repository.ts:47-63 markMessagesDelivered] *)
Definition markMessagesDelivered (confessionId senderId : string) : action Z :=
  access (update_where (fun m => in_thread confessionId senderId m && bool_decide (deliveryStatus m = SENT))
            (fun now m => m <| deliveryStatus := DELIVERED |> <| deliveredAt := Some now |>)).
(** [src messages/repository/message.repository.ts:69-85 markMessagesRead] *)
Definition markMessagesRead (confessionId senderId : string) : action Z :=
  access (update_where (fun m => in_thread confessionId senderId m && negb (bool_decide (deliveryStatus m = READ)))
            (fun now m => m <| deliveryStatus := READ |> <| readAt := Some now |>)).

(** The identities of a user. *)
Definition anon_ids (userId : Z) (w : MsgDB) : list string :=
  map anonymousUserId (List.filter (fun l => ln_userId l =? userId) (links (md_anon w))).

(** [src messages/messages.service.ts:57-74 resolveThreadViewerRole] *)
Definition resolveThreadViewerRole (confessionAuthorId : option string) (senderId : string) (userAnonIds : list string)
    : option ThreadViewerRole :=
  let isAuthor := truthy_opt confessionAuthorId && includes (default "" confessionAuthorId) userAnonIds in
  let isSender := includes senderId userAnonIds in
  if negb isAuthor && negb isSender then None else Some (if isAuthor then AUTHOR else SENDER).

(** [anonymousUser.userLinks?.[0]?.user]. *)
Definition linked_account (anonId : string) (w : MsgDB) : option Account :=
  match List.find (fun l => anonymousUserId l =s? anonId) (links (md_anon w)) with
  | Some l => md_accounts w !! ln_userId l
  | None => None
  end.
Definition author_account (c : MsgConfession) (w : MsgDB) : option Account :=
  match mc_author c with Some a => linked_account a w | None => None end.
(** [src messages/messages.service.ts:497-504 getRecipientEmail] *)
Definition getRecipientEmail (user : option Account) : option string := ac_mail <$> user.

(** INSERT of an event: its id and its key are unique. *)
Definition insert_event (e : OutboxEvent) (w : MsgDB) : option MsgDB :=
  if bool_decide (is_Some (md_outbox w !! ev_id e))
     || existsb (fun p => bool_decide (ev_idempotencyKey p.2 = ev_idempotencyKey e)) (map_to_list (md_outbox w))
  then None else Some (w <| md_outbox ::= <[ev_id e := e]> |>).
(** [if (recipientEmail) await outboxRepo.save(...)]. *)
Definition notify_outbox (e : string -> OutboxEvent) (recipient : option Account) (w : MsgDB) : option MsgDB :=
  if truthy_opt (getRecipientEmail recipient) then insert_event (e (default "" (getRecipientEmail recipient))) w else Some w.

Definition message_event (eventId : string) (now : ms) (m : Message) (recipientEmail : string) : OutboxEvent := {|
  ev_id := eventId; ev_type := "message_notification";
  ev_payload := JObj [("messageId", JNum (num_of_Z (ms_id m))); ("confessionId", JStr (ms_confession m));
                      ("recipientEmail", JStr recipientEmail); ("senderId", JStr (ms_sender m));
                      ("messagePreview", JStr ENCRYPTED_PREVIEW)];
  ev_status := PENDING; retryCount := 0; ev_lastError := None; ev_idempotencyKey := Some ("message:" +:+ pretty (ms_id m));
  ev_createdAt := now; processedAt := None; claimedBy := None; claimedAt := None |}.
Definition reply_event (eventId : string) (now : ms) (m : Message) (recipientEmail : string) : OutboxEvent := {|
  ev_id := eventId; ev_type := "reply_notification";
  ev_payload := JObj [("messageId", JNum (num_of_Z (ms_id m))); ("confessionId", JStr (ms_confession m));
                      ("recipientEmail", JStr recipientEmail); ("replyPreview", JStr ENCRYPTED_PREVIEW)];
  ev_status := PENDING; retryCount := 0; ev_lastError := None; ev_idempotencyKey := Some ("reply:" +:+ pretty (ms_id m));
  ev_createdAt := now; processedAt := None; claimedBy := None; claimedAt := None |}.

Section messages.
Context (fingerprint sha256hex : string -> string).
Context (Date_parse : string -> option ms) (int_of : string -> option Z).

(** ** Sending *)

(** [src messages/dto/message.dto.ts:4-18 CreateMessageDto] *)
Record CreateMessageDto := { confession_id : string; content : string }.
(** What a request draws: what [getOrCreateForUserSession] may insert, and the id of an
    event. *)
Record MsgDraw := { dr_anon : AnonRequest; dr_event : string }.
(** The entity that is answered: the row and what is loaded with it. *)
Record Answered := { an_message : Message; an_user : option Account }.

(** [src messages/messages.service.ts:89-93 create]: the hash of the user's id and the key. *)
Definition scopedKeyOf (userId : Z) (idempotencyKey : string) : string :=
  sha256hex (stringify (JArr [JNum (num_of_Z userId); JStr idempotencyKey])).

Definition new_message (id : Z) (sender : string) (dto : CreateMessageDto) (scopedKey : option string) (now : ms) : Message := {|
  ms_id := id; ms_sender := sender; ms_confession := confession_id dto; ms_content := content dto; ms_key := scopedKey;
  isEncrypted := true; ms_createdAt := now; hasReply := false; replyContent := None; repliedAt := None;
  authorReadAt := None; senderReadAt := None; deliveryStatus := SENT; deliveredAt := None; readAt := None |}.
Definition find_key (k : string) (w : MsgDB) : option Message :=
  snd <$> List.find (fun p : Z * Message => bool_decide (ms_key p.2 = Some k)) (map_to_list (md_rows w)).

(** [src messages/messages.service.ts:118-184 create]: the transaction. The advisory
    lock of a key lets the transactions of the key follow one another. *)
Definition insert_message (d : MsgDraw) (sender : string) (author : option Account) (dto : CreateMessageDto)
    (scopedKey : option string) : action Answered :=
  attempts (fun w =>
    match scopedKey ≫= fun k => find_key k w with
    | Some existing =>
        if negb (ms_confession existing =s? confession_id dto) || negb (ms_content existing =s? content dto)
        then (Exn (ConflictException "Idempotency-Key was already used for a different message"), w)
        else (Ok {| an_message := existing; an_user := None |}, w)
    | None =>
        let message := new_message (md_seq w + 1) sender dto scopedKey (md_clock w) in
        if is_null (md_confessions w !! confession_id dto) then (Exn QueryFailedError, w <| md_seq ::= Z.add 1 |>)
        else
          match notify_outbox (message_event (dr_event d) (md_clock w) message) author
                  (w <| md_seq ::= Z.add 1 |> <| md_rows ::= <[ms_id message := message]> |>) with
          | Some w' => (Ok {| an_message := message; an_user := author |}, w')
          | None => (Exn QueryFailedError, w <| md_seq ::= Z.add 1 |>)
          end
    end).

(** [src messages/messages.service.ts:76-203 create] *)
Definition create (d : MsgDraw) (dto : CreateMessageDto) (userId : Z) (idempotencyKey : option string) : action Answered :=
  let bad := match idempotencyKey with
             | Some k => negb (truthy (trim k)) || (128 <? String.length k)%nat
             | None => false
             end in
  if bad then Throw (BadRequestException "Idempotency-Key must contain 1 to 128 characters")
  else
    let scopedKey := scopedKeyOf userId <$> idempotencyKey in
    if negb (isEncryptedPayload (content dto))
    then Throw (BadRequestException "Message content must be an E2E ciphertext envelope")
    else
      let* confession := reads (fun w => match md_confessions w !! confession_id dto with
                                         | Some c => Some (author_account c w)
                                         | None => None
                                         end) in
      match confession with
      | None => Throw (NotFoundException "Confession not found")
      | Some authorUser =>
          if negb (from_option canReceiveReplies true authorUser)
          then Throw (ForbiddenException "This user is not accepting messages")
          else
            let* sender := lift (fun _ => QueryFailedError) (getOrCreateForUserSession fingerprint (dr_anon d) userId 24) in
            let* saved := insert_message d (an_id sender) authorUser dto scopedKey in
            do* writes (fun w => w <| md_analytics ::= fun l =>
                    let k := "message_sent:" +:+ pretty (ms_id (an_message saved)) in
                    if includes k l then l else l ++ [k] |>) in
            Ret saved
      end.

(** ** Reading *)

(** [decodeCursor] is in [Cursor]; the
    parameters of a query, as the database takes them. *)
Definition sql_int (v : option json) : option Z :=
  match v with Some (JNum _) => as_integer v | Some (JStr s) => int_of s | _ => None end.
Definition sql_date (v : option json) : option ms := v ≫= new_Date Date_parse.
Definition page_limit (q : GetMessagesQueryDto) : nat := match q_limit q with Some (S n) => S n | _ => 20%nat end.

(** The WHERE clause and the offset of a page of a thread; [None] is a query the
    database refuses. *)
Definition thread_position (q : GetMessagesQueryDto) : option ((Message -> bool) * nat) :=
  if truthy_opt (q_cursor q) then
    match decodeCursor (q_cursor q) with
    | Some parsed =>
        cursorDate ← sql_date (json_get "createdAt" parsed); cursorId ← sql_int (json_get "id" parsed);
        Some (fun m => (cursorDate <? ms_createdAt m) || ((ms_createdAt m =? cursorDate) && (cursorId <? ms_id m)), 0%nat)
    | None => Some (fun _ => true, 0%nat)
    end
  else match q_page q with
       | Some p => Some (fun _ => true, if (1 <? p)%nat then ((p - 1) * page_limit q)%nat else 0%nat)
       | None => Some (fun _ => true, 0%nat)
       end.
Definition older (a b : Message) : bool :=
  (ms_createdAt a <? ms_createdAt b) || ((ms_createdAt a =? ms_createdAt b) && (ms_id a <=? ms_id b)).
Definition message_cursor (m : Message) : string :=
  encodeCursor (JObj [("id", JNum (num_of_Z (ms_id m))); ("createdAt", JStr (toISOString (ms_createdAt m)))]).

(** The query of a page, from the mark on: one more row than asked for. *)
Definition thread_page (confessionId senderId : string) (q : GetMessagesQueryDto) (w : MsgDB)
    : outcome message_error (Page Message) :=
  let limit := page_limit q in
  match thread_position q with
  | None => Exn QueryFailedError
  | Some (keep, off) =>
      let messages := firstn (limit + 1) (skipn off (insertion_sort older
                        (select_rows (fun m => in_thread confessionId senderId m && keep m) w))) in
      let hasMore := (limit <? length messages)%nat in
      let resultMessages := if hasMore then firstn limit messages else messages in
      let isInitialRequest := negb (truthy_opt (q_cursor q)) && (match q_page q with Some p => (p <=? 1)%nat | None => true end) in
      if isInitialRequest && bool_decide (resultMessages = []) then Exn (NotFoundException "Thread not found")
      else
        let nextCursor := if hasMore then message_cursor <$> last resultMessages else None in
        Ok {| pg_data := resultMessages; pg_next := nextCursor; pg_more := hasMore; pg_limit := limit |}
  end.

(** [src messages/messages.service.ts:205-302 findForConfessionThread] *)
Definition findForConfessionThread (confessionId senderId : string) (userId : Z) (q : GetMessagesQueryDto)
    : action (Page Message) :=
  if negb (truthy (trim confessionId)) then Throw (BadRequestException "Invalid confession ID")
  else
    let* confession := reads (fun w => md_confessions w !! confessionId) in
    match confession with
    | None => Throw (NotFoundException "Thread not found")
    | Some c =>
        let* anonIds := reads (anon_ids userId) in
        match resolveThreadViewerRole (mc_author c) senderId anonIds with
        | None => Throw (NotFoundException "Thread not found")
        | Some viewerRole =>
            do* markThreadRead confessionId senderId viewerRole in
            do* (match viewerRole with
                 | SENDER => let* _n := markMessagesDelivered confessionId senderId in Ret tt
                 | AUTHOR => Ret tt
                 end) in
            let* page := reads (thread_page confessionId senderId q) in
            of_outcome page
        end
    end.

(** A thread id: the two parts of the path. *)
Definition split_thread (threadId : string) : option (string * string) :=
  match split_on "_"%char threadId with
  | c :: s :: _ => if truthy c && truthy s then Some (c, s) else None
  | _ => None
  end.

(** [src messages/messages.service.ts:524-560 getThreadWithParticipantCheck] *)
Definition getThreadWithParticipantCheck (threadId : string) (userId : Z) (q : GetMessagesQueryDto) : action (Page Message) :=
  match split_thread threadId with
  | None => Throw (NotFoundException "Thread not found")
  | Some (confessionId, senderId) =>
      let* confession := reads (fun w => md_confessions w !! confessionId) in
      match confession with
      | None => Throw (NotFoundException "Thread not found")
      | Some c =>
          let* anonIds := reads (anon_ids userId) in
          match resolveThreadViewerRole (mc_author c) senderId anonIds with
          | None => Throw (NotFoundException "Thread not found")
          | Some _ => findForConfessionThread confessionId senderId userId q
          end
      end
  end.

(** [src messages/messages.service.ts:567-594 markMessagesAsRead] *)
Definition markMessagesAsRead (confessionId senderId : string) (userId : Z) : action (bool * Z) :=
  let* confession := reads (fun w => md_confessions w !! confessionId) in
  match confession with
  | None => Throw (NotFoundException "Thread not found")
  | Some _ =>
      let* anonIds := reads (anon_ids userId) in
      if negb (includes senderId anonIds) then Throw (NotFoundException "Thread not found")
      else let* updatedCount := markMessagesRead confessionId senderId in Ret (true, updatedCount)
  end.

(** [src messages/messages.service.ts:601-639 deleteForUser] *)
Definition deleteForUser (userId : Z) (threadId : string) : action bool :=
  match split_thread threadId with
  | None => Throw (NotFoundException "Thread not found")
  | Some (confessionId, senderId) =>
      let* confession := reads (fun w => md_confessions w !! confessionId) in
      match confession with
      | None => Throw (NotFoundException "Thread not found")
      | Some c =>
          let* anonIds := reads (anon_ids userId) in
          match resolveThreadViewerRole (mc_author c) senderId anonIds with
          | None => Throw (NotFoundException "Thread not found")
          | Some viewerRole => do* markThreadRead confessionId senderId viewerRole in Ret true
          end
      end
  end.

(** ** The inbox *)

(** What the inbox shows of a thread. *)
Record Thread := {
  th_confession : string; th_sender : string; th_author : option string; th_preview : string; th_last : string;
  th_encrypted : bool; th_lastAt : ms; th_unread : bool; th_unreadCount : Z; th_isAuthor : bool;
  th_delivery : option (MessageDeliveryStatus * option ms * option ms);
}.
#[export] Instance eta_Thread : Eta Thread := fun t => {|
  th_confession := th_confession t; th_sender := th_sender t; th_author := th_author t; th_preview := th_preview t;
  th_last := th_last t; th_encrypted := th_encrypted t; th_lastAt := th_lastAt t; th_unread := th_unread t;
  th_unreadCount := th_unreadCount t; th_isAuthor := th_isAuthor t; th_delivery := th_delivery t |}.
Definition thread_id (t : Thread) : string := th_confession t +:+ "_" +:+ th_sender t.

Definition unread_for (role : option ThreadViewerRole) (m : Message) : bool :=
  match role with
  | Some AUTHOR => is_null (authorReadAt m)
  | Some SENDER => hasReply m && is_null (senderReadAt m)
  | None => false
  end.
Definition new_thread (m : Message) (c : MsgConfession) (role : option ThreadViewerRole) : Thread :=
  let unread := unread_for role m in
  {| th_confession := ms_confession m; th_sender := ms_sender m; th_author := mc_author c;
     th_preview := take_str 50 (mc_message c) +:+ (if (50 <? String.length (mc_message c))%nat then "..." else "");
     th_last := if isEncrypted m then ENCRYPTED_PREVIEW else ms_content m; th_encrypted := isEncrypted m;
     th_lastAt := ms_createdAt m; th_unread := unread; th_unreadCount := if unread then 1 else 0;
     th_isAuthor := bool_decide (role = Some AUTHOR);
     th_delivery := if bool_decide (role = Some SENDER) then Some (deliveryStatus m, deliveredAt m, readAt m) else None |}.

(** [src messages/messages.service.ts:350-408 findAllThreadsForUser]: the map of the
    threads, in the order of their first messages. *)
Fixpoint group_threads (anonIds : list string) (confessions : gmap string MsgConfession) (ms : list Message)
    (acc : list Thread) : list Thread :=
  match ms with
  | [] => acc
  | m :: ms' =>
      let c := default {| mc_message := ""; mc_author := None |} (confessions !! ms_confession m) in
      let role := resolveThreadViewerRole (mc_author c) (ms_sender m) anonIds in
      let threadId := ms_confession m +:+ "_" +:+ ms_sender m in
      group_threads anonIds confessions ms'
        (if includes threadId (map thread_id acc) then
           map (fun t => if (thread_id t =s? threadId) && unread_for role m
                         then t <| th_unread := true |> <| th_unreadCount ::= Z.add 1 |> else t) acc
         else acc ++ [new_thread m c role])
  end.
Definition newer (a b : Message) : bool := ms_createdAt b <=? ms_createdAt a.
(** A message of a thread of these identities. *)
Definition concerns (anonIds : list string) (confessions : gmap string MsgConfession) (m : Message) : bool :=
  includes (ms_sender m) anonIds
  || match confessions !! ms_confession m with
     | Some c => match mc_author c with Some a => includes a anonIds | None => false end
     | None => false
     end.
Definition threads_position (q : GetMessagesQueryDto) : option (Message -> bool) :=
  if truthy_opt (q_cursor q) then
    match decodeCursor (q_cursor q) with
    | Some parsed => cursorDate ← sql_date (json_get "lastMessageAt" parsed); Some (fun m => ms_createdAt m <? cursorDate)
    | None => Some (fun _ => true)
    end
  else Some (fun _ => true).
Definition threads_page (anonIds : list string) (q : GetMessagesQueryDto) (w : MsgDB) : outcome message_error (Page Thread) :=
  let limit := page_limit q in
  match threads_position q with
  | None => Exn QueryFailedError
  | Some keep =>
      let messages := firstn (limit * 10) (insertion_sort newer
                        (select_rows (fun m => concerns anonIds (md_confessions w) m && keep m) w)) in
      let allThreads := group_threads anonIds (md_confessions w) messages [] in
      let hasMore := (limit <? length allThreads)%nat in
      let resultThreads := if hasMore then firstn limit allThreads else allThreads in
      let nextCursor := if hasMore then
                          (fun t => encodeCursor (JObj [("id", JStr (thread_id t)); ("lastMessageAt", JStr (toISOString (th_lastAt t)))]))
                            <$> last resultThreads
                        else None in
      Ok {| pg_data := resultThreads; pg_next := nextCursor; pg_more := hasMore; pg_limit := limit |}
  end.
(** [src messages/messages.service.ts:304-428 findAllThreadsForUser] *)
Definition findAllThreadsForUser (userId : Z) (q : GetMessagesQueryDto) : action (Page Thread) :=
  let* anonIds := reads (anon_ids userId) in
  if bool_decide (anonIds = []) then
    Ret {| pg_data := []; pg_next := None; pg_more := false; pg_limit := page_limit q |}
  else let* page := reads (threads_page anonIds q) in of_outcome page.

(** ** Replying *)

(** [src messages/dto/message.dto.ts:20-30 ReplyMessageDto] *)
Record ReplyMessageDto := { message_id : Z; dto_reply : string }.

(** [src messages/messages.service.ts:466-494 reply]: the transaction; [save] writes the
    columns of the entity as it was read. *)
Definition save_reply (eventId : string) (message : Message) (sender : option Account) (text : string) : action Answered :=
  attempts (fun w =>
    let message := message <| hasReply := true |> <| replyContent := Some (trim text) |> <| isEncrypted := true |>
                     <| repliedAt := Some (md_clock w) |> <| senderReadAt := None |> in
    match notify_outbox (reply_event eventId (md_clock w) message) sender
            (w <| md_rows ::= <[ms_id message := message]> |>) with
    | Some w' => (Ok {| an_message := message; an_user := sender |}, w')
    | None => (Exn QueryFailedError, w)
    end).

(** [src messages/messages.service.ts:430-495 reply] *)
Definition reply (eventId : string) (dto : ReplyMessageDto) (userId : Z) : action Answered :=
  if negb (truthy (dto_reply dto)) || negb (truthy (trim (dto_reply dto)))
  then Throw (BadRequestException "Reply content cannot be empty")
  else if negb (isEncryptedPayload (dto_reply dto))
  then Throw (BadRequestException "Reply content must be an E2E ciphertext envelope")
  else
    let* message := reads (fun w => match md_rows w !! message_id dto with
                                    | Some m => Some (m, md_confessions w !! ms_confession m, linked_account (ms_sender m) w)
                                    | None => None
                                    end) in
    match message with
    | None => Throw (NotFoundException "Message not found")
    | Some (m, confession, sender) =>
        if hasReply m then Throw (ForbiddenException "Already replied")
        else
          let* anonIds := reads (anon_ids userId) in
          let confessionAuthorId := confession ≫= mc_author in
          if negb (truthy_opt confessionAuthorId) || negb (includes (default "" confessionAuthorId) anonIds)
          then Throw (NotFoundException "Message not found")
          else save_reply eventId m sender (dto_reply dto)
    end.
End messages.

(** ** The routes *)

(** [src common/decorators/ownership.decorator.ts:5-10 OwnershipMeta] *)
Record OwnershipMeta := { paramKey : string; adminBypass : bool }.
(** The signed-in user of a request, and its texts by name. *)
Record OwnedRequest := {
  or_user : option (Z * string); or_params : gmap string string; or_body : gmap string string; or_query : gmap string string;
}.
(** [src common/guards/ownership.guard.ts:32-81 canActivate] *)
Definition canActivate (meta : option OwnershipMeta) (req : OwnedRequest) : outcome message_error bool :=
  match meta with
  | None => Ok true
  | Some meta =>
      match or_user req with
      | None => Exn (ForbiddenException "Not authenticated")
      | Some (authedUserId, role) =>
          if authedUserId =? 0 then Exn (ForbiddenException "Not authenticated")
          else if adminBypass meta && (role =s? "admin") then Ok true
          else
            let resourceOwnerId := match or_params req !! paramKey meta with
                                   | Some v => Some v
                                   | None => match or_body req !! paramKey meta with
                                             | Some v => Some v
                                             | None => or_query req !! paramKey meta
                                             end
                                   end in
            if negb (truthy_opt resourceOwnerId) then Exn (ForbiddenException "Ownership check failed: missing resource ID")
            else if bool_decide (resourceOwnerId = Some (pretty authedUserId)) then Ok true
            else Exn (ForbiddenException "Access denied: resource belongs to another user")
      end
  end.

(** ** The throttle

    [MessageThrottleService]: a limit of messages per sender and confession, over two
    columns of the messages.  The module provides it and nothing calls it. *)
Module Throttle.
(** [src messages/message-throttle.service.ts:6-9 ThrottleConfig] *)
Record ThrottleConfig := { windowMs : ms; maxMessages : Z }.
(** [src messages/message-throttle.service.ts:11-16 ThrottleStatus] *)
Record ThrottleStatus := { isThrottled : bool; remaining : Z; resetTime : ms; messagesSentInWindow : Z }.
(** The columns of a message. *)
Record Columns := { throttleKey : option string; rateLimitWindow : option ms }.
(** [src messages/message-throttle.service.ts:21-24 defaultConfig] *)
Definition defaultConfig : ThrottleConfig := {| windowMs := 60 * 1000; maxMessages := 5 |}.
(** [src messages/message-throttle.service.ts:31-36 generateThrottleKey] *)
Definition generateThrottleKey (senderId confessionId : string) : string := senderId +:+ ":" +:+ confessionId.
(** [src messages/message-throttle.service.ts:38-71 checkAndRecordMessage] *)
Definition checkAndRecordMessage (now : ms) (senderId confessionId : string) (config : ThrottleConfig) (rows : gmap Z Columns)
    : ThrottleStatus :=
  let key := generateThrottleKey senderId confessionId in
  let windowStart := now - windowMs config in
  let count := Z.of_nat (size (filter (fun p : Z * Columns => throttleKey p.2 = Some key /\ rateLimitWindow p.2 = Some windowStart) rows)) in
  {| isThrottled := maxMessages config <=? count; remaining := Z.max 0 (maxMessages config - count);
     resetTime := now + windowMs config; messagesSentInWindow := count |}.
(** [src messages/message-throttle.service.ts:73-95 enforceThrottle]; [later] is the
    second reading of the clock, and the answer the seconds in the message of a
    refusal. *)
Definition enforceThrottle (now later : ms) (senderId confessionId : string) (config : ThrottleConfig) (rows : gmap Z Columns)
    : outcome Z unit :=
  let status := checkAndRecordMessage now senderId confessionId config rows in
  if isThrottled status then Exn (- ((later - resetTime status) / 1000)) else Ok tt.
(** [src messages/message-throttle.service.ts:97-112 recordMessageWithThrottle] *)
Definition recordMessageWithThrottle (now later recorded : ms) (senderId confessionId : string) (config : ThrottleConfig)
    (rows : gmap Z Columns) : outcome Z Columns :=
  match enforceThrottle now later senderId confessionId config rows with
  | Exn e => Exn e
  | Ok _ => Ok {| throttleKey := Some (generateThrottleKey senderId confessionId); rateLimitWindow := Some (recorded - windowMs config) |}
  end.
(** [src messages/message-throttle.service.ts:122-132 cleanupExpiredWindows]: the rows
    of the messages are deleted. *)
Definition cleanupExpiredWindows (now : ms) (rows : gmap Z Columns) : gmap Z Columns :=
  filter (fun p : Z * Columns => from_option (fun t => negb (t <? now - 60 * 60 * 1000)) true (rateLimitWindow p.2) = true) rows.

(** Messages of an earlier instant do not count: the window is compared for equality. *)
Theorem throttle_counts_one_instant now s c config rows : 0 < maxMessages config ->
  (forall i r, rows !! i = Some r -> rateLimitWindow r <> Some (now - windowMs config)) ->
  isThrottled (checkAndRecordMessage now s c config rows) = false.
Proof.
  intros Hmax Hrows. unfold checkAndRecordMessage. cbn [isThrottled].
  assert (filter (fun p : Z * Columns => throttleKey p.2 = Some (generateThrottleKey s c) /\ rateLimitWindow p.2 = Some (now - windowMs config)) rows = ∅) as ->.
  { apply map_empty. intros i. apply map_lookup_filter_None. right. intros r Hr [_ Hw]. by apply (Hrows i r). }
  rewrite map_size_empty. apply Z.leb_gt. lia.
Qed.
End Throttle.
