(* ===== verification/MessageSafety.v ===== *)
(** * What private messages promise

    Theorems on [Messages]: a message is sent once under an idempotency key and an
    answered reply stays, however requests interleave; the answers of the reading
    routes depend on the reader's own threads alone; and following the cursors of a
    thread reads each of its messages once. *)
From stdpp Require Import pretty.
From S2P Require Import Prelude Numbers Json Dates Effects JobQueue Notifications Outbox Base64 Cursor AnonymousUser MessageCrypto.
From S2P Require Import Messages.
Open Scope Z_scope.

Section messages.
Context (fingerprint sha256hex : string -> string).
Context (Date_parse : string -> option ms) (int_of : string -> option Z).
Abbreviation get_thread := (getThreadWithParticipantCheck Date_parse int_of).
Abbreviation get_inbox := (findAllThreadsForUser Date_parse).

(** ** Privacy *)

(** The routes of a reader, and their answers. *)
Inductive ReadRoute :=
| GetThread (threadId : string) (q : GetMessagesQueryDto)
| GetInbox (q : GetMessagesQueryDto)
| MarkRead (confessionId senderId : string)
| DeleteThread (threadId : string).
Inductive ReadAnswer :=
| AMessages (p : Page Message) | AThreads (p : Page Thread) | AMarked (r : bool * Z) | ADeleted (b : bool).
Definition serve_read (userId : Z) (r : ReadRoute) : action ReadAnswer :=
  match r with
  | GetThread t q => let* p := get_thread t userId q in Ret (AMessages p)
  | GetInbox q => let* p := get_inbox userId q in Ret (AThreads p)
  | MarkRead c s => let* x := markMessagesAsRead c s userId in Ret (AMarked x)
  | DeleteThread t => let* b := deleteForUser userId t in Ret (ADeleted b)
  end.

(** The messages of the threads a user takes part in. *)
Definition own_messages (userId : Z) (w : MsgDB) : gmap Z Message :=
  filter (fun p : Z * Message => concerns (anon_ids userId w) (md_confessions w) p.2 = true) (md_rows w).
(** Two worlds that differ in the messages of other people, and in what no reading
    route reads. *)
Record same_view (userId : Z) (w w' : MsgDB) : Prop := {
  sv_anon : md_anon w = md_anon w';
  sv_confessions : md_confessions w = md_confessions w';
  sv_clock : md_clock w = md_clock w';
  sv_messages : own_messages userId w = own_messages userId w';
}.

Section view.
Context (u : Z).

(** A program whose answer, and whose effect on the view, the view determines. *)
Definition agrees {A} (p : action A) (w1 w2 : MsgDB) : Prop :=
  (run p w1).1 = (run p w2).1 /\ same_view u (run p w1).2 (run p w2).2
  /\ md_anon (run p w1).2 = md_anon w1 /\ md_confessions (run p w1).2 = md_confessions w1.

Lemma agrees_ret {A} (o : outcome message_error A) w1 w2 : same_view u w1 w2 -> agrees (of_outcome o) w1 w2.
Proof. intros H. unfold agrees. by rewrite !run_of_outcome. Qed.
Lemma agrees_throw {A} e w1 w2 : same_view u w1 w2 -> agrees (Throw e : action A) w1 w2.
Proof. intros H. by split. Qed.
Lemma agrees_bind {A B} (p : action A) (q : A -> action B) w1 w2 :
  agrees p w1 w2 ->
  (forall a v1 v2, same_view u v1 v2 -> md_anon v1 = md_anon w1 -> md_confessions v1 = md_confessions w1 -> agrees (q a) v1 v2) ->
  agrees (bind p q) w1 w2.
Proof.
  intros (Ho & Hv & Ha & Hc) Hq. unfold agrees. rewrite !run_bind. destruct (run p w1) as [[a|e] v1], (run p w2) as [[b|e'] v2];
    cbn in *; try done.
  - injection Ho as ->. destruct (Hq b v1 v2 Hv Ha Hc) as (H1 & H2 & H3 & H4). split_and!; [done|done|congruence|congruence].
  - by injection Ho as ->.
Qed.
Lemma agrees_reads {X A} (f : MsgDB -> X) (q : X -> action A) w1 w2 :
  same_view u w1 w2 -> f w1 = f w2 -> agrees (q (f w1)) w1 w2 -> agrees (bind (reads f) q) w1 w2.
Proof. intros Hv Hf Hq. unfold agrees in *. rewrite !run_bind, !run_reads, <- Hf. done. Qed.

Lemma concerns_ident ids cs m m' :
  ms_sender m' = ms_sender m -> ms_confession m' = ms_confession m -> concerns ids cs m' = concerns ids cs m.
Proof. unfold concerns. by intros -> ->. Qed.

Lemma select_rows_view (P : Message -> bool) w1 w2 :
  same_view u w1 w2 -> (forall m, P m = true -> concerns (anon_ids u w1) (md_confessions w1) m = true) ->
  select_rows P w1 = select_rows P w2.
Proof.
  intros [Ha Hc _ Hm] HP. unfold select_rows. f_equal. f_equal.
  assert (forall w, md_anon w = md_anon w1 -> md_confessions w = md_confessions w1 ->
    filter (fun p : Z * Message => P p.2 = true) (md_rows w) = filter (fun p : Z * Message => P p.2 = true) (own_messages u w)) as Hown.
  { intros w Haw Hcw. apply map_eq. intros i. apply option_eq. intros m. unfold own_messages. rewrite !map_lookup_filter_Some. cbn.
    assert (anon_ids u w = anon_ids u w1) as -> by (unfold anon_ids; by rewrite Haw). rewrite Hcw. naive_solver. }
  rewrite (Hown w1), (Hown w2) by congruence. by rewrite Hm.
Qed.

Lemma agrees_update (P : Message -> bool) (f : ms -> Message -> Message) w1 w2 :
  same_view u w1 w2 -> (forall m, P m = true -> concerns (anon_ids u w1) (md_confessions w1) m = true) ->
  (forall t m, ms_sender (f t m) = ms_sender m /\ ms_confession (f t m) = ms_confession m) ->
  agrees (access (update_where P f)) w1 w2.
Proof.
  intros Hv HP Hf. unfold agrees. rewrite !run_access. unfold update_where. cbn [fst snd].
  rewrite (select_rows_view P w1 w2 Hv HP). split_and!; try done. destruct Hv as [Ha Hc Ht Hm].
  split; cbn; [done..|]. unfold own_messages in *. cbn [md_rows md_confessions set_field anon_ids md_anon] in *.
  change (anon_ids u (w1 <| md_rows ::= ?g |>)) with (anon_ids u w1). change (anon_ids u (w2 <| md_rows ::= ?g |>)) with (anon_ids u w2).
  assert (anon_ids u w2 = anon_ids u w1) as Hids by (unfold anon_ids; by rewrite Ha). rewrite Hids, <- Hc in *. rewrite Ht.
  set (g := fun m => if P m then f (md_clock w2) m else m).
  assert (forall rows : gmap Z Message,
    filter (fun p : Z * Message => concerns (anon_ids u w1) (md_confessions w1) p.2 = true) (g <$> rows)
    = g <$> filter (fun p : Z * Message => concerns (anon_ids u w1) (md_confessions w1) p.2 = true) rows) as Hg.
  { intros rows. apply map_eq. intros i. apply option_eq. intros m. rewrite map_lookup_filter_Some, !lookup_fmap_Some. cbn.
    assert (forall x, concerns (anon_ids u w1) (md_confessions w1) (g x) = concerns (anon_ids u w1) (md_confessions w1) x) as Hgx.
    { intros x. unfold g. destruct (P x); [|done]. by apply concerns_ident; apply Hf. }
    split.
    - intros ((x & <- & Hx) & Hv). exists x. split; [done|]. apply map_lookup_filter_Some. split; [done|]. cbn. by rewrite <- Hgx.
    - intros (x & <- & (Hx & Hv)%map_lookup_filter_Some). split; [by exists x|]. by rewrite Hgx. }
  rewrite !Hg. by f_equal.
Qed.

(** The messages of a thread the user has a role in. *)
Lemma role_concerns c s cf ids cs role m :
  cs !! c = Some cf -> resolveThreadViewerRole (mc_author cf) s ids = Some role -> in_thread c s m = true ->
  concerns ids cs m = true.
Proof.
  unfold resolveThreadViewerRole, in_thread, concerns. intros Hc Hr [Hmc Hms]%andb_true_iff.
  apply str_eqb_eq in Hmc, Hms. rewrite Hmc, Hms, Hc. destruct (includes s ids); [done|]. cbn in *.
  destruct (mc_author cf) as [a|]; cbn in *; [|done]. destruct (truthy a), (includes a ids); by cbn in *.
Qed.
Lemma anon_ids_same w1 w2 : md_anon w2 = md_anon w1 -> anon_ids u w2 = anon_ids u w1.
Proof. unfold anon_ids. by intros ->. Qed.

(** A mark on the rows of a thread the user has a role in. *)
Lemma agrees_mark (P : Message -> bool) f c s cf role w1 w2 :
  same_view u w1 w2 -> md_confessions w1 !! c = Some cf ->
  resolveThreadViewerRole (mc_author cf) s (anon_ids u w1) = Some role ->
  (forall m, P m = true -> in_thread c s m = true) ->
  (forall t m, ms_sender (f t m) = ms_sender m /\ ms_confession (f t m) = ms_confession m) ->
  agrees (access (update_where P f)) w1 w2.
Proof.
  intros Hv Hc Hr HP Hf. apply agrees_update; [done| |done]. intros m Hm. eapply role_concerns; [done|done|by apply HP].
Qed.

Lemma agrees_markThreadRead c s cf role w1 w2 :
  same_view u w1 w2 -> md_confessions w1 !! c = Some cf ->
  resolveThreadViewerRole (mc_author cf) s (anon_ids u w1) = Some role ->
  agrees (markThreadRead c s role) w1 w2.
Proof.
  intros Hv Hc Hr. unfold markThreadRead.
  destruct role; (eapply agrees_bind; [eapply agrees_mark; [done|done|done| |done]|intros; by apply (agrees_ret (Ok tt))]);
    intros m; rewrite !andb_true_iff; tauto.
Qed.

Lemma agrees_thread c s q w1 w2 : same_view u w1 w2 ->
  agrees (findForConfessionThread Date_parse int_of c s u q) w1 w2.
Proof.
  intros Hv. unfold findForConfessionThread. destruct (negb _); [by apply agrees_throw|].
  apply agrees_reads; [done|by rewrite (sv_confessions _ _ _ Hv)|]. destruct (md_confessions w1 !! c) as [cf|] eqn:Hc; [|by apply agrees_throw].
  apply agrees_reads; [done|symmetry; apply anon_ids_same; symmetry; apply Hv|].
  destruct (resolveThreadViewerRole _ _ _) as [role|] eqn:Hr; [|by apply agrees_throw].
  eapply agrees_bind; [by eapply agrees_markThreadRead|]. intros [] v1 v2 Hv' Ha' Hc'.
  eapply agrees_bind.
  - destruct role; [by apply (agrees_ret (Ok tt))|]. eapply agrees_bind; [|intros; by apply (agrees_ret (Ok tt))].
    eapply agrees_mark; [done|by rewrite Hc'|by rewrite (anon_ids_same _ _ Ha')| |done].
    intros m; rewrite !andb_true_iff; tauto.
  - intros [] x1 x2 Hx Hax Hcx. apply agrees_reads; [done| |by apply agrees_ret].
    unfold thread_page. destruct (thread_position _ _ q) as [[keep off]|]; [|done].
    rewrite (select_rows_view _ x1 x2); [done|done|]. intros m [Hm _]%andb_true_iff.
    assert (anon_ids u x1 = anon_ids u w1) as -> by (apply anon_ids_same; congruence). rewrite Hcx, Hc'.
    by eapply role_concerns.
Qed.

Lemma agrees_serve r w1 w2 : same_view u w1 w2 -> agrees (serve_read u r) w1 w2.
Proof.
  intros Hv. destruct r as [t q|q|c s|t]; cbn [serve_read];
    (eapply agrees_bind; [|intros a v1 v2 ? _ _; by apply (agrees_ret (Ok _))]).
  - unfold getThreadWithParticipantCheck. destruct (split_thread t) as [[c s]|]; [|by apply agrees_throw].
    apply agrees_reads; [done|by rewrite (sv_confessions _ _ _ Hv)|]. destruct (md_confessions w1 !! c) as [cf|] eqn:Hc; [|by apply agrees_throw].
    apply agrees_reads; [done|symmetry; apply anon_ids_same; symmetry; apply Hv|].
    destruct (resolveThreadViewerRole _ _ _) as [role|] eqn:Hr; [|by apply agrees_throw]. by apply agrees_thread.
  - unfold findAllThreadsForUser. apply agrees_reads; [done|symmetry; apply anon_ids_same; symmetry; apply Hv|].
    destruct (bool_decide _); [by apply (agrees_ret (Ok _))|]. apply agrees_reads; [done| |by apply agrees_ret].
    unfold threads_page. destruct (threads_position _ q) as [keep|]; [|done]. rewrite <- (sv_confessions _ _ _ Hv).
    rewrite (select_rows_view _ w1 w2); [done|done|]. by intros m [Hm _]%andb_true_iff.
  - unfold markMessagesAsRead. apply agrees_reads; [done|by rewrite (sv_confessions _ _ _ Hv)|].
    destruct (md_confessions w1 !! c) as [cf|] eqn:Hc; [|by apply agrees_throw].
    apply agrees_reads; [done|symmetry; apply anon_ids_same; symmetry; apply Hv|].
    destruct (negb _) eqn:Hs; [by apply agrees_throw|]. apply negb_false_iff in Hs.
    eapply agrees_bind; [|intros; by apply (agrees_ret (Ok _))].
    apply agrees_update; [done| |done]. intros m [Hm _]%andb_true_iff. unfold concerns, in_thread in *.
    apply andb_true_iff in Hm as [_ ->%str_eqb_eq]. by rewrite Hs.
  - unfold deleteForUser. destruct (split_thread t) as [[c s]|]; [|by apply agrees_throw].
    apply agrees_reads; [done|by rewrite (sv_confessions _ _ _ Hv)|]. destruct (md_confessions w1 !! c) as [cf|] eqn:Hc; [|by apply agrees_throw].
    apply agrees_reads; [done|symmetry; apply anon_ids_same; symmetry; apply Hv|].
    destruct (resolveThreadViewerRole _ _ _) as [role|] eqn:Hr; [|by apply agrees_throw].
    eapply agrees_bind; [by eapply agrees_markThreadRead|]. intros; by apply (agrees_ret (Ok _)).
Qed.
End view.

(** C10. A reading route tells and changes nothing of other people's threads: in two
    worlds that agree on the messages of the threads a user takes part in, whatever
    the other messages are, it gives the user the same answer, errors included, and
    leaves worlds that agree in the same way. *)
Theorem messages_private userId r w1 w2 : same_view userId w1 w2 ->
  (run (serve_read userId r) w1).1 = (run (serve_read userId r) w2).1
  /\ same_view userId (run (serve_read userId r) w1).2 (run (serve_read userId r) w2).2.
Proof. intros Hv. destruct (agrees_serve userId r w1 w2 Hv) as (H1 & H2 & _). done. Qed.

(** ** Any interleaving of requests *)

(** Requests of the service, and the clock. *)
Inductive MsgActor :=
| MCreate (d : MsgDraw) (dto : CreateMessageDto) (userId : Z) (idempotencyKey : option string)
| MReply (eventId : string) (dto : ReplyMessageDto) (userId : Z)
| MRead (userId : Z) (r : ReadRoute)
| MClock (t : ms).
Definition serve_message (a : MsgActor) : action (option Answered) :=
  match a with
  | MCreate d dto u k => let* x := create fingerprint sha256hex d dto u k in Ret (Some x)
  | MReply e dto u => let* x := reply e dto u in Ret (Some x)
  | MRead u r => let* _x := serve_read u r in Ret None
  | MClock t => do* writes (fun w => w <| md_clock := t |>) in Ret None
  end.

Section interleaving.
(** The identities whose account has a mail address. *)
Context (mailed : string -> Prop).

Definition reply_key (i : Z) : string := "reply:" +:+ pretty i.
(** The event of a reply to the message [i] has been written. *)
Definition replied_event (i : Z) (w : MsgDB) : Prop :=
  exists k e, md_outbox w !! k = Some e /\ ev_idempotencyKey e = Some (reply_key i).
Record msg_inv (w : MsgDB) : Prop := {
  mi_id : forall i m, md_rows w !! i = Some m -> ms_id m = i /\ i <= md_seq w;
  mi_key : forall i j m m' k, md_rows w !! i = Some m -> md_rows w !! j = Some m' ->
             ms_key m = Some k -> ms_key m' = Some k -> i = j;
  mi_outbox : forall i j e e' k, md_outbox w !! i = Some e -> md_outbox w !! j = Some e' ->
                ev_idempotencyKey e = Some k -> ev_idempotencyKey e' = Some k -> i = j;
  mi_mail : forall s, mailed s -> exists a, linked_account s w = Some a /\ truthy (ac_mail a) = true;
}.
(** What no request changes of a message. *)
Definition ident (m : Message) := (ms_id m, ms_sender m, ms_confession m, ms_content m, ms_key m).
Record msg_guar (t : positive) (w w' : MsgDB) : Prop := {
  mg_rows : forall i m, md_rows w !! i = Some m -> exists m', md_rows w' !! i = Some m' /\ ident m' = ident m
              /\ (mailed (ms_sender m) -> replied_event i w -> hasReply m' = hasReply m /\ replyContent m' = replyContent m);
  mg_outbox : forall k e, md_outbox w !! k = Some e -> md_outbox w' !! k = Some e;
  mg_links : exists l, links (md_anon w') = links (md_anon w) ++ l;
  mg_users : md_accounts w' = md_accounts w;
}.
Abbreviation mrg := (rg msg_inv msg_guar).
Abbreviation mstable := (stable msg_inv msg_guar).

Lemma linked_account_grow w w' s a : (exists l, links (md_anon w') = links (md_anon w) ++ l) -> md_accounts w' = md_accounts w ->
  linked_account s w = Some a -> linked_account s w' = Some a.
Proof.
  intros [l Hl] Hu. unfold linked_account. rewrite Hl, Hu. clear Hl Hu.
  induction (links (md_anon w)) as [|x ls IH]; [done|]. cbn [app List.find]. destruct (anonymousUserId x =s? s); [done|exact IH].
Qed.
Lemma mg_accounts t w w' s a : msg_guar t w w' -> linked_account s w = Some a -> linked_account s w' = Some a.
Proof. intros [_ _ Hl Hu]. by apply linked_account_grow. Qed.
Lemma msg_guar_rows t w w' : md_rows w' = md_rows w -> (forall k e, md_outbox w !! k = Some e -> md_outbox w' !! k = Some e) ->
  md_anon w' = md_anon w -> md_accounts w' = md_accounts w -> msg_guar t w w'.
Proof. intros Hr Ho Ha Hu. split; [|done| |done]. { intros i m Hm. exists m. by rewrite Hr. } exists []. by rewrite Ha, app_nil_r. Qed.
Lemma msg_guar_refl t w : msg_guar t w w.
Proof. by apply msg_guar_rows. Qed.

(** *** Assertions *)
Definition row_like (m : Message) (w : MsgDB) : Prop :=
  exists m', md_rows w !! ms_id m = Some m' /\ ident m' = ident m.
(** The message of an answered request. *)
Definition sent_as (dto : CreateMessageDto) (scopedKey : option string) (i : Z) (w : MsgDB) : Prop :=
  exists m, md_rows w !! i = Some m /\ ms_confession m = confession_id dto /\ ms_content m = content dto
    /\ (forall k, scopedKey = Some k -> ms_key m = Some k).
(** An answered reply, with the event [k]. *)
Definition replied_with (text : string) (k : string) (i : Z) (w : MsgDB) : Prop :=
  exists m, md_rows w !! i = Some m /\ (mailed (ms_sender m) ->
    hasReply m = true /\ replyContent m = Some text
    /\ exists e, md_outbox w !! k = Some e /\ ev_idempotencyKey e = Some (reply_key i)).

Lemma stable_row_like t m : mstable t (row_like m).
Proof.
  intros t' w w' _ _ (m' & Hm & Hi) HG. destruct (mg_rows _ _ _ HG _ _ Hm) as (m'' & Hm' & Hi' & _). exists m''. split; [done|congruence].
Qed.
Lemma stable_sent_as t dto k i : mstable t (sent_as dto k i).
Proof.
  intros t' w w' _ _ (m & Hm & Hc & Ht & Hk) HG. destruct (mg_rows _ _ _ HG _ _ Hm) as (m' & Hm' & [= _ _ Hc' Ht' Hk'] & _).
  exists m'. rewrite Hc', Ht', Hk'. done.
Qed.
Lemma stable_replied_with t text k i : mstable t (replied_with text k i).
Proof.
  intros t' w w' _ _ (m & Hm & Hr) HG. destruct (mg_rows _ _ _ HG _ _ Hm) as (m' & Hm' & Hi & Hkeep). exists m'. split; [done|].
  injection Hi as _ Hs _ _ _. rewrite Hs. intros Hmail. destruct (Hr Hmail) as (H1 & H2 & e & He & Hk).
  destruct (Hkeep Hmail) as [-> ->]; [by exists k, e|]. split; [done|]. split; [done|]. exists e. split; [by apply (mg_outbox _ _ _ HG)|done].
Qed.
Lemma stable_linked_account t s a : mstable t (fun w => linked_account s w = Some a).
Proof. intros t' w w' _ _ H HG. by eapply mg_accounts. Qed.

(** *** Steps *)
Section request.
Context (t : positive).

Lemma spec_msg_reads {X A} (f : MsgDB -> X) (q : X -> action A) P post :
  mstable t P -> (forall x, mrg t P (q x) post) -> mrg t P (bind (reads f) q) post.
Proof.
  intros HP Hq w HI Hw. cbn. split; [done|]. split; [apply msg_guar_refl|]. exists P. by split.
Qed.
Lemma spec_msg_attempts {X} (f : MsgDB -> outcome message_error X * MsgDB) P (post : outcome message_error X -> MsgDB -> Prop) :
  (forall w, msg_inv w -> P w -> msg_inv (f w).2 /\ msg_guar t w (f w).2 /\
     exists Q : MsgDB -> Prop, Q (f w).2 /\ mstable t Q /\ forall w', Q w' -> post (f w).1 w') ->
  mrg t P (attempts f) post.
Proof.
  intros H w HI HP. destruct (H w HI HP) as (HI' & HG & Q & HQ & Hst & Hpost). split; [done|]. split; [done|].
  exists Q. split; [done|]. split; [done|]. destruct (f w).1; cbn; intros w' _ Hw'; by apply Hpost.
Qed.

(** A mark keeps what the invariant speaks of. *)
Lemma spec_mark {A} (P : Message -> bool) (f : ms -> Message -> Message) (q : Z -> action A) post :
  (forall now m, ident (f now m) = ident m /\ hasReply (f now m) = hasReply m /\ replyContent (f now m) = replyContent m) ->
  (forall n, mrg t (fun _ => True) (q n) post) ->
  mrg t (fun _ => True) (bind (access (update_where P f)) q) post.
Proof.
  intros Hf Hq w [H1 H2 H3 H4] _. cbn. set (g := fun m => if P m then f (md_clock w) m else m).
  assert (forall m, ident (g m) = ident m /\ hasReply (g m) = hasReply m /\ replyContent (g m) = replyContent m) as Hg.
  { intros m. unfold g. by destruct (P m). }
  split; [split; cbn; [| |done|done]|].
  - intros i m (x & <- & Hx)%lookup_fmap_Some. destruct (Hg x) as ([= -> _ _ _ _] & _). by apply H1.
  - intros i j m m' k (x & <- & Hx)%lookup_fmap_Some (y & <- & Hy)%lookup_fmap_Some.
    destruct (Hg x) as ([= _ _ _ _ ->] & _), (Hg y) as ([= _ _ _ _ ->] & _). by apply (H2 i j).
  - split; [split; cbn; [|done|exists []; by rewrite app_nil_r|done]|].
    + intros i m Hm. exists (g m). rewrite lookup_fmap, Hm. destruct (Hg m) as (? & ? & ?). done.
    + exists (fun _ => True). split; [done|]. split; [apply stable_True|apply Hq].
Qed.
Lemma spec_mark_end (P : Message -> bool) (f : ms -> Message -> Message) {A} (x : A) :
  (forall now m, ident (f now m) = ident m /\ hasReply (f now m) = hasReply m /\ replyContent (f now m) = replyContent m) ->
  mrg t (fun _ => True) (bind (access (update_where P f)) (fun _ => Ret x) : action A) (fun _ _ => True).
Proof. intros Hf. apply spec_mark; [done|]. by intros n w. Qed.
Lemma spec_markThreadRead c s role : mrg t (fun _ => True) (markThreadRead c s role) (fun _ _ => True).
Proof. by destruct role; apply spec_mark_end. Qed.
Lemma spec_msg_ignore {A B} (p : action A) (q : A -> action B) :
  mrg t (fun _ => True) p (fun _ _ => True) -> (forall a, mrg t (fun _ => True) (q a) (fun _ _ => True)) ->
  mrg t (fun _ => True) (bind p q) (fun _ _ => True).
Proof.
  intros Hp Hq. apply rg_bind with (Q := fun _ _ => True); [|done]. eapply rg_post; [|exact Hp]. by intros [] w.
Qed.
Lemma spec_of_outcome {A} (o : outcome message_error A) : mrg t (fun _ => True) (of_outcome o) (fun _ _ => True).
Proof. by destruct o. Qed.

Lemma spec_serve_read u r : mrg t (fun _ => True) (serve_read u r) (fun _ _ => True).
Proof.
  assert (forall c s q, mrg t (fun _ => True) (findForConfessionThread Date_parse int_of c s u q) (fun _ _ => True)) as Hthread.
  { intros c s q. unfold findForConfessionThread. destruct (negb _); [done|].
    apply spec_msg_reads; [apply stable_True|]. intros [cf|]; [|done].
    apply spec_msg_reads; [apply stable_True|]. intros ids. destruct (resolveThreadViewerRole _ _ _) as [role|]; [|done].
    apply spec_msg_ignore; [apply spec_markThreadRead|]. intros _. apply spec_msg_ignore; [destruct role; [done|by apply spec_mark_end]|].
    intros _. apply spec_msg_reads; [apply stable_True|]. intros o. apply spec_of_outcome. }
  destruct r as [th q|q|c s|th]; cbn [serve_read]; (apply spec_msg_ignore; [|done]).
  - unfold getThreadWithParticipantCheck. destruct (split_thread th) as [[c s]|]; [|done].
    apply spec_msg_reads; [apply stable_True|]. intros [cf|]; [|done].
    apply spec_msg_reads; [apply stable_True|]. intros ids. destruct (resolveThreadViewerRole _ _ _) as [role|]; [apply Hthread|done].
  - unfold findAllThreadsForUser. apply spec_msg_reads; [apply stable_True|]. intros ids. destruct (bool_decide _); [done|].
    apply spec_msg_reads; [apply stable_True|]. intros o. apply spec_of_outcome.
  - unfold markMessagesAsRead. apply spec_msg_reads; [apply stable_True|]. intros [cf|]; [|done].
    apply spec_msg_reads; [apply stable_True|]. intros ids. destruct (negb _); [done|]. apply spec_mark; [done|by intros n w].
  - unfold deleteForUser. destruct (split_thread th) as [[c s]|]; [|done]. apply spec_msg_reads; [apply stable_True|]. intros [cf|]; [|done].
    apply spec_msg_reads; [apply stable_True|]. intros ids. destruct (resolveThreadViewerRole _ _ _) as [role|]; [|done].
    apply spec_msg_ignore; [apply spec_markThreadRead|done].
Qed.

(** *** Writing rows and events *)
Lemma msg_guar_trans w1 w2 w3 : msg_guar t w1 w2 -> msg_guar t w2 w3 -> msg_guar t w1 w3.
Proof.
  intros [R1 O1 [l1 L1] U1] [R2 O2 [l2 L2] U2]. split; [|auto| |congruence].
  2:{ exists (l1 ++ l2). by rewrite L2, L1, app_assoc. }
  intros i m Hm. destruct (R1 i m Hm) as (m' & Hm' & Hi & Hk).
  destruct (R2 i m' Hm') as (m'' & Hm'' & Hi' & Hk'). exists m''. split; [done|]. split; [congruence|].
  intros Hs Hev. destruct (Hk Hs Hev) as [<- <-]. apply Hk'; [by injection Hi as _ -> _ _ _|]. destruct Hev as (k & e & He & Hke).
  exists k, e. auto.
Qed.
Lemma write_row_ok w w' m :
  msg_inv w -> md_rows w' = <[ms_id m := m]> (md_rows w) -> md_outbox w' = md_outbox w -> md_anon w' = md_anon w ->
  md_accounts w' = md_accounts w -> md_seq w <= md_seq w' -> ms_id m <= md_seq w' ->
  (forall m0, md_rows w !! ms_id m = Some m0 -> ident m = ident m0 /\
     (mailed (ms_sender m0) -> replied_event (ms_id m) w -> hasReply m = hasReply m0 /\ replyContent m = replyContent m0)) ->
  (md_rows w !! ms_id m = None -> forall k j m', ms_key m = Some k -> md_rows w !! j = Some m' -> ms_key m' <> Some k) ->
  msg_inv w' /\ msg_guar t w w'.
Proof.
  intros [H1 H2 H3 H4] Hr Ho Ha Hac Hs Hid Hold Hnew.
  assert (forall s, linked_account s w' = linked_account s w) as Hlink by (intros s; unfold linked_account; by rewrite Ha, Hac).
  assert (forall j x, md_rows w' !! j = Some x -> (md_rows w !! j = None /\ j = ms_id m /\ x = m) \/
    exists y, md_rows w !! j = Some y /\ ident x = ident y) as Hback.
  { intros j x. rewrite Hr, lookup_insert_Some. intros [[<- <-]|[_ Hx]]; [|eauto].
    destruct (md_rows w !! ms_id m) as [m0|] eqn:E; [right|left; done]. exists m0. split; [done|]. by apply Hold. }
  split; [split|split].
  - intros j x [(Hn & -> & ->)|(y & Hy & [= -> _ _ _ _])]%Hback; [by split|]. destruct (H1 j y Hy). split; [done|lia].
  - intros j j' x x' k [(Hn & -> & ->)|(y & Hy & [= _ _ _ _ ->])]%Hback [(Hn' & -> & ->)|(y' & Hy' & [= _ _ _ _ ->])]%Hback Hk Hk'; [done|..].
    + by destruct (Hnew Hn k j' y' Hk Hy').
    + by destruct (Hnew Hn' k j y Hk' Hy).
    + by apply (H2 j j' y y' k).
  - rewrite Ho. exact H3.
  - intros s Hm. rewrite Hlink. by apply H4.
  - intros j x Hx. rewrite Hr. destruct (decide (ms_id m = j)) as [<-|Hne].
    + exists m. rewrite lookup_insert_eq. split; [done|]. by apply Hold.
    + exists x. by rewrite lookup_insert_ne.
  - rewrite Ho. done.
  - exists []. by rewrite Ha, app_nil_r.
  - done.
Qed.
Lemma notify_cases e r w w' : notify_outbox e r w = Some w' ->
  (w' = w /\ truthy_opt (getRecipientEmail r) = false) \/
  (exists mail, w' = w <| md_outbox ::= <[ev_id (e mail) := e mail]> |> /\ md_outbox w !! ev_id (e mail) = None
     /\ forall k e', md_outbox w !! k = Some e' -> ev_idempotencyKey e' <> ev_idempotencyKey (e mail)).
Proof.
  unfold notify_outbox, insert_event. destruct (truthy_opt _); [|intros [= ->]; by left]. set (ev := e _).
  destruct (bool_decide (is_Some (md_outbox w !! ev_id ev))) eqn:Hn; [done|]. cbn [orb].
  destruct (existsb _ _) eqn:Hk; [done|]. intros [= <-]. right. exists (default "" (getRecipientEmail r)). fold ev.
  apply bool_decide_eq_false in Hn. rewrite <- eq_None_not_Some in Hn. split; [done|]. split; [done|].
  intros k e' He Heq. apply not_true_iff_false in Hk. apply Hk, existsb_exists. exists (k, e').
  split; [by apply list_elem_of_In, elem_of_map_to_list|by apply bool_decide_eq_true].
Qed.
Lemma event_ok w ev : msg_inv w -> md_outbox w !! ev_id ev = None ->
  (forall k e', md_outbox w !! k = Some e' -> ev_idempotencyKey e' <> ev_idempotencyKey ev) ->
  let w' := w <| md_outbox ::= <[ev_id ev := ev]> |> in msg_inv w' /\ msg_guar t w w'.
Proof.
  intros [H1 H2 H3 H4] Hn Hk w'. split; [split; [done|done| |done]|apply msg_guar_rows; [done| |done..]].
  - cbn. intros i j e e' k. rewrite !lookup_insert_Some.
    intros [[<- <-]|[_ He]] [[<- <-]|[_ He']] Hke Hke'; [done|..|by apply (H3 i j e e' k)]; exfalso.
    + apply (Hk _ _ He'). congruence.
    + apply (Hk _ _ He). congruence.
  - cbn. intros k e He. rewrite lookup_insert_ne; [done|]. congruence.
Qed.
Lemma inv_seq w : msg_inv w -> msg_inv (w <| md_seq ::= Z.add 1 |>) /\ msg_guar t w (w <| md_seq ::= Z.add 1 |>).
Proof.
  intros [H1 H2 H3 H4]. split; [|by apply msg_guar_rows]. split; [|done..]. cbn. intros i m Hm. destruct (H1 i m Hm). split; [done|lia].
Qed.
Lemma find_key_Some k w m : msg_inv w -> find_key k w = Some m -> md_rows w !! ms_id m = Some m /\ ms_key m = Some k.
Proof.
  unfold find_key. intros HI ((i & m') & Hf & ->)%fmap_Some. apply find_some in Hf as [Hin%list_elem_of_In%elem_of_map_to_list Hk].
  cbn in *. apply bool_decide_eq_true in Hk. by rewrite (proj1 (mi_id _ HI _ _ Hin)).
Qed.
Lemma find_key_None k w j m : find_key k w = None -> md_rows w !! j = Some m -> ms_key m <> Some k.
Proof.
  unfold find_key. intros Hf%fmap_None Hm Hk. assert (In (j, m) (map_to_list (md_rows w))) as Hin by by apply list_elem_of_In, elem_of_map_to_list.
  pose proof (find_none _ _ Hf _ Hin) as H. cbn in H. by apply bool_decide_eq_false in H.
Qed.

(** The transaction of a message, with or without a key. *)
Definition create_post (dto : CreateMessageDto) (scopedKey : option string) (o : outcome message_error Answered) (w : MsgDB) : Prop :=
  match o with Ok a => sent_as dto scopedKey (ms_id (an_message a)) w | Exn _ => True end.
Lemma spec_insert_message d sender author dto scopedKey :
  mrg t (fun _ => True) (insert_message d sender author dto scopedKey) (create_post dto scopedKey).
Proof.
  apply spec_msg_attempts. intros w HI _.
  assert (forall w' (e : message_error), msg_inv w' /\ msg_guar t w w' -> msg_inv w' /\ msg_guar t w w' /\ exists Q : MsgDB -> Prop,
    Q w' /\ mstable t Q /\ forall v, Q v -> create_post dto scopedKey (Exn e) v) as Hno.
  { intros w' e [HI' HG]. split; [done|]. split; [done|]. exists (fun _ => True). by split; [|split; [apply stable_True|]]. }
  destruct (scopedKey ≫= _) as [existing|] eqn:Hf.
  - destruct scopedKey as [k|]; [|done]. cbn in Hf. apply find_key_Some in Hf as [Hrow Hk]; [|done].
    destruct (str_eqb_spec (ms_confession existing) (confession_id dto)) as [Hc|]; [|apply Hno; split; [done|apply msg_guar_refl]].
    destruct (str_eqb_spec (ms_content existing) (content dto)) as [Ht|]; [|apply Hno; split; [done|apply msg_guar_refl]].
    cbn. split; [done|]. split; [apply msg_guar_refl|]. exists (sent_as dto (Some k) (ms_id existing)). split; [|by split; [apply stable_sent_as|]].
    exists existing. split_and!; try done. congruence.
  - cbv zeta. destruct (is_null _); [by apply Hno, inv_seq|]. set (m := new_message (md_seq w + 1) sender dto scopedKey (md_clock w)).
    set (w1 := w <| md_seq ::= Z.add 1 |> <| md_rows ::= <[ms_id m := m]> |>) in *.
    destruct (notify_outbox (message_event (dr_event d) (md_clock w) m) author w1) as [w'|] eqn:Hw; [|by apply Hno, inv_seq].
    assert (md_rows w !! ms_id m = None) as Hfresh.
    { destruct (md_rows w !! ms_id m) as [m0|] eqn:E; [|done]. destruct (mi_id _ HI _ _ E). cbn in *. lia. }
    destruct (write_row_ok w w1 m HI) as [HI1 HG1]; [done..|cbn; lia|cbn; lia|by rewrite Hfresh| |].
    { intros _ k j m' Hk Hj. cbn in Hk. subst scopedKey. cbn in Hf. by eapply find_key_None. }
    assert (msg_inv w' /\ msg_guar t w1 w' /\ md_rows w' = md_rows w1) as (HI' & HG' & Hrows).
    { apply notify_cases in Hw as [[-> _]|(mail & -> & Hn & Hk)]; [split; [done|]; split; [apply msg_guar_refl|done]|].
      destruct (event_ok w1 (message_event (dr_event d) (md_clock w) m mail) HI1 Hn Hk). done. }
    cbn. split; [done|]. split; [by eapply msg_guar_trans|]. exists (sent_as dto scopedKey (ms_id m)).
    split; [|by split; [apply stable_sent_as|]]. exists m. rewrite Hrows. cbn. rewrite lookup_insert_eq. done.
Qed.

(** The identities: rows and links are only added. *)
Definition links_grow (_ : positive) (a a' : AnonDB) : Prop := exists l, links a' = links a ++ l.
Lemma links_grow_refl a : links_grow t a a.
Proof. exists []. by rewrite app_nil_r. Qed.
Lemma spec_identity r u h :
  rg (fun _ => True) links_grow t (fun _ => True) (getOrCreateForUserSession fingerprint r u h) (fun _ _ => True).
Proof.
  intros w _ _. cbn. split; [done|]. split; [apply links_grow_refl|]. exists (fun _ => True). split; [done|]. split; [apply stable_True|].
  destruct (session_identity _ _ _); [done|]. intros w1 _ _.
  cbn. split; [done|]. split; [exists []; cbn; by rewrite app_nil_r|]. exists (fun _ => True). split; [done|].
  split; [apply stable_True|]. intros w2 _ _. cbn. split; [done|]. split; [by eexists|].
  exists (fun _ => True). split; [done|]. split; [apply stable_True|done].
Qed.
Lemma spec_sender r u : mrg t (fun _ => True) (lift (fun _ => QueryFailedError) (getOrCreateForUserSession fingerprint r u 24)) (fun _ _ => True).
Proof.
  eapply rg_weaken; [|eapply rg_post; [|eapply (rg_lift_frame (fun _ : AnonDB => True) links_grow) with (F := fun _ => True);
    [| | | | |apply spec_identity]]]; try done.
  - intros w q [H1 H2 H3 H4] _ Hq. split.
    + split; [done..|]. intros s Hs. destruct (H4 s Hs) as (a & Ha & Hm). exists a. split; [by eapply linked_account_grow|done].
    + split; [|done|exact Hq|done]. intros i m Hm. by exists m.
  - by intros t' w w' _ [_ _ HL _].
Qed.

(** A write next to the rows. *)
Lemma spec_aside {B} (P : MsgDB -> Prop) (f : MsgDB -> MsgDB) (x : B) (post : outcome message_error B -> MsgDB -> Prop) :
  mstable t P -> (forall w, md_rows (f w) = md_rows w /\ md_outbox (f w) = md_outbox w /\ md_anon (f w) = md_anon w
                     /\ md_accounts (f w) = md_accounts w /\ md_seq (f w) = md_seq w) ->
  (forall w, P w -> P (f w)) -> (forall w, P w -> post (Ok x) w) ->
  mrg t P (do* writes f in Ret x) post.
Proof.
  intros HP Hf Hkeep Hpost. apply rg_writes with (Q := P); [|done|intros w _; apply Hpost].
  intros w [H1 H2 H3 H4] Hw. destruct (Hf w) as (Hr & Ho & Ha & Hu & Hs). split; [|split; [|by apply Hkeep]].
  - split; rewrite ?Hr, ?Ho, ?Hs; [done..|]. intros s. unfold linked_account. rewrite Ha, Hu. apply H4.
  - apply msg_guar_rows; [done| |done|done]. by rewrite Ho.
Qed.

Lemma spec_create_message d dto u key :
  mrg t (fun _ => True) (create fingerprint sha256hex d dto u key) (create_post dto (scopedKeyOf sha256hex u <$> key)).
Proof.
  unfold create. destruct (match key with Some _ => _ | None => _ end); [done|]. cbv zeta.
  destruct (negb (isEncryptedPayload _)); [done|]. apply spec_msg_reads; [apply stable_True|]. intros [author|]; [|done].
  destruct (negb _); [done|]. apply rg_bind with (Q := fun _ _ => True).
  - eapply rg_post; [|apply spec_sender]. by intros [].
  - intros sender. apply rg_bind with (Q := fun a => sent_as dto (scopedKeyOf sha256hex u <$> key) (ms_id (an_message a))).
    + eapply rg_post; [|apply spec_insert_message]. by intros [a|e] w.
    + intros a. by apply spec_aside; [apply stable_sent_as|..].
Qed.

(** *** Replies *)
Definition reply_post (eventId : string) (dto : ReplyMessageDto) (o : outcome message_error Answered) (w : MsgDB) : Prop :=
  match o with
  | Ok a => ms_id (an_message a) = message_id dto /\ replied_with (trim (dto_reply dto)) eventId (message_id dto) w
  | Exn _ => True
  end.
Lemma spec_save_reply eventId m sender text :
  (mailed (ms_sender m) -> truthy_opt (getRecipientEmail sender) = true) ->
  mrg t (row_like m) (save_reply eventId m sender text)
    (fun o w => match o with Ok a => ms_id (an_message a) = ms_id m /\ replied_with (trim text) eventId (ms_id m) w | Exn _ => True end).
Proof.
  intros Hmail. apply spec_msg_attempts. intros w HI (m0 & Hm0 & Hid). cbv zeta.
  set (m' := m <| hasReply := true |> <| replyContent := Some (trim text) |> <| isEncrypted := true |>
               <| repliedAt := Some (md_clock w) |> <| senderReadAt := None |>).
  set (w1 := w <| md_rows ::= <[ms_id m' := m']> |>).
  destruct (notify_outbox (reply_event eventId (md_clock w) m') sender w1) as [w'|] eqn:Hw; cbn [fst snd].
  2:{ split; [done|]. split; [apply msg_guar_refl|]. exists (fun _ => True). split; [done|]. by split; [apply stable_True|]. }
  assert (ms_sender m0 = ms_sender m) as Hs0 by (by injection Hid).
  assert (md_rows w1 = <[ms_id m' := m']> (md_rows w)) as Hrow by done.
  assert (forall k e', md_outbox w !! k = Some e' -> mailed (ms_sender m) -> ev_idempotencyKey e' <> Some (reply_key (ms_id m))) as Hnone.
  { intros k e' He Hm. apply notify_cases in Hw as [[_ Hno]|(mail & _ & _ & Hk)]; [by rewrite (Hmail Hm) in Hno|]. exact (Hk k e' He). }
  destruct (write_row_ok w w1 m' HI Hrow) as [HI1 HG1]; [done|done|done|cbn; lia| | | |].
  - by apply (mi_id _ HI _ _ Hm0).
  - intros x Hx. change (ms_id m') with (ms_id m) in *. rewrite Hm0 in Hx. injection Hx as <-. split; [done|].
    rewrite Hs0. intros Hm (k & e & He & Hk). by destruct (Hnone k e He Hm).
  - intros Hn. change (ms_id m') with (ms_id m) in Hn. congruence.
  - assert (msg_inv w' /\ msg_guar t w1 w' /\ md_rows w' = md_rows w1 /\
      (mailed (ms_sender m) -> exists e, md_outbox w' !! eventId = Some e /\ ev_idempotencyKey e = Some (reply_key (ms_id m)))) as (HI' & HG' & Hrows & Hev).
    { apply notify_cases in Hw as [[-> Hno]|(mail & -> & Hn & Hk)].
      - split; [done|]. split; [apply msg_guar_refl|]. split; [done|]. intros Hm. by rewrite (Hmail Hm) in Hno.
      - destruct (event_ok w1 (reply_event eventId (md_clock w) m' mail) HI1 Hn Hk). split; [done|]. split; [done|]. split; [done|].
        intros _. exists (reply_event eventId (md_clock w) m' mail). cbn. by rewrite lookup_insert_eq. }
    split; [done|]. split; [by eapply msg_guar_trans|]. exists (replied_with (trim text) eventId (ms_id m)).
    split; [|by split; [apply stable_replied_with|]]. exists m'. rewrite Hrows, Hrow. change (ms_id m') with (ms_id m).
    rewrite lookup_insert_eq. split; [done|]. intros Hm. split; [done|]. split; [done|]. by apply Hev.
Qed.
Lemma spec_reply eventId dto u : mrg t (fun _ => True) (reply eventId dto u) (reply_post eventId dto).
Proof.
  unfold reply. destruct (_ || _); [done|]. destruct (negb _); [done|]. intros w HI _. cbn.
  split; [done|]. split; [apply msg_guar_refl|]. destruct (md_rows w !! message_id dto) as [m|] eqn:Hm.
  2:{ exists (fun _ => True). split; [done|]. by split; [apply stable_True|]. }
  destruct (mi_id _ HI _ _ Hm) as [Hid _]. exists (row_like m). split; [exists m; by rewrite Hid|]. split; [apply stable_row_like|].
  assert (mailed (ms_sender m) -> truthy_opt (getRecipientEmail (linked_account (ms_sender m) w)) = true) as Hmail.
  { intros Hs. destruct (mi_mail _ HI _ Hs) as (a & -> & Ha). done. }
  destruct (hasReply m); [done|]. apply spec_msg_reads; [apply stable_row_like|]. intros ids. destruct (_ || _); [done|].
  eapply rg_post; [|by apply spec_save_reply]. intros [a|e] w'; [|done]. cbn. by rewrite Hid.
Qed.
End request.

(** What an answer tells of the tables. *)
Definition message_post (a : MsgActor) (o : outcome message_error (option Answered)) (w : MsgDB) : Prop :=
  match o with
  | Ok (Some x) =>
      match a with
      | MCreate _ dto u k => create_post dto (scopedKeyOf sha256hex u <$> k) (Ok x) w
      | MReply e dto _ => reply_post e dto (Ok x) w
      | _ => True
      end
  | _ => True
  end.
Lemma spec_serve_message t a : mrg t (fun _ => True) (serve_message a) (message_post a).
Proof.
  destruct a as [d dto u k|e dto u|u r|clock]; cbn [serve_message].
  - apply rg_bind with (Q := fun x => create_post dto (scopedKeyOf sha256hex u <$> k) (Ok x)); [|by intros x w _ Hw].
    eapply rg_post; [|apply (spec_create_message t)]. by intros [x|e] w.
  - apply rg_bind with (Q := fun x => reply_post e dto (Ok x)); [|by intros x w _ Hw].
    eapply rg_post; [|apply (spec_reply t)]. by intros [x|e'] w.
  - apply rg_bind with (Q := fun _ _ => True); [|by intros x w _ _].
    eapply rg_post; [|apply (spec_serve_read t)]. by intros [x|e] w.
  - by apply spec_aside; [apply stable_True|..].
Qed.
Lemma message_pool_ok (requests : gmap positive MsgActor) w0 w ps :
  msg_inv w0 -> pool_reach (w0, serve_message <$> requests) (w, ps) ->
  msg_inv w /\ (forall t a x, requests !! t = Some a -> ps !! t = Some (Ret (Some x)) -> message_post a (Ok (Some x)) w)
  /\ (forall i m, md_rows w0 !! i = Some m -> exists m', md_rows w !! i = Some m' /\ ident m' = ident m).
Proof.
  intros HI Hreach. set (post t o v := forall a, requests !! t = Some a -> message_post a o v).
  assert (pool_ok msg_inv msg_guar post (w0, serve_message <$> requests)) as Hok.
  { split; [done|]. intros t p Hp. cbn in Hp. rewrite lookup_fmap in Hp. destruct (requests !! t) as [a|] eqn:Ha; [|done].
    injection Hp as <-. exists (fun _ => True). split; [done|]. split; [apply stable_True|].
    eapply rg_post; [|apply spec_serve_message]. unfold post. intros o v Hv a' Ha'. congruence. }
  destruct (rg_sound _ _ _ _ _ Hok Hreach) as [HI' Hall]. split; [done|]. split.
  - intros t a x Ha Hx. destruct (Hall t _ Hx) as (P & HP & _ & Hrg). exact (Hrg w HI' HP a Ha).
  - intros i m Hm. destruct (mi_id _ HI _ _ Hm) as [Hid _].
    enough (row_like m w) as (m' & Hm' & Hi) by (rewrite Hid in Hm'; eauto).
    apply (pool_guar_inv msg_inv msg_guar (row_like m) post (w0, serve_message <$> requests) (w, ps));
      [|exists m; by rewrite Hid|exact Hok|exact Hreach]. intros t v v' (m1 & Hm1 & Hi1) HG.
    destruct (mg_rows _ _ _ HG _ _ Hm1) as (m2 & Hm2 & Hi2 & _). exists m2. split; [done|congruence].
Qed.
End interleaving.

(** C11. A message is sent once. However requests interleave, no two rows carry one
    scoped key, and of two answered requests to send with a key each, those of one
    user and one key are answered with one message, whose confession and content
    both asked for, and any others with two. *)
Theorem message_sent_once `{!Inj (=) (=) sha256hex} (requests : gmap positive MsgActor) w0 w ps
    t t' d d' dto dto' u u' k k' x x' :
  msg_inv (fun _ => False) w0 -> pool_reach (w0, serve_message <$> requests) (w, ps) ->
  requests !! t = Some (MCreate d dto u (Some k)) -> ps !! t = Some (Ret (Some x)) ->
  requests !! t' = Some (MCreate d' dto' u' (Some k')) -> ps !! t' = Some (Ret (Some x')) ->
  (ms_id (an_message x) = ms_id (an_message x') <-> (u, k) = (u', k'))
  /\ ((u, k) = (u', k') -> confession_id dto = confession_id dto' /\ content dto = content dto').
Proof.
  intros HI Hreach Ht Hx Ht' Hx'. destruct (message_pool_ok (fun _ => False) requests w0 w ps HI Hreach) as (HIw & Hpost & _).
  destruct (Hpost _ _ _ Ht Hx) as (m & Hm & Hc & Hcon & Hk). destruct (Hpost _ _ _ Ht' Hx') as (m' & Hm' & Hc' & Hcon' & Hk').
  specialize (Hk _ eq_refl). specialize (Hk' _ eq_refl).
  assert (forall a b, scopedKeyOf sha256hex a.1 a.2 = scopedKeyOf sha256hex b.1 b.2 -> a = b :> Z * string) as Hinj.
  { intros [a1 a2] [b1 b2] Heq. cbn in Heq. unfold scopedKeyOf in Heq. apply (inj sha256hex), (f_equal parse) in Heq.
    rewrite !parse_stringify in Heq by (cbn; eauto). by injection Heq as -> ->. }
  assert ((u, k) = (u', k') -> ms_id (an_message x) = ms_id (an_message x')) as Hsame.
  { intros [= -> ->]. by apply (mi_key _ _ HIw _ _ m m' (scopedKeyOf sha256hex u' k')). }
  split; [split; [|exact Hsame]|].
  - intros Heq. rewrite Heq in Hm. rewrite Hm in Hm'. injection Hm' as <-. rewrite Hk in Hk'. injection Hk' as Hk'.
    by apply (Hinj (u, k) (u', k')).
  - intros Heq. rewrite (Hsame Heq) in Hm. rewrite Hm in Hm'. injection Hm' as <-. split; congruence.
Qed.

(** A reply is given once. However requests interleave, an answered reply to the
    message of an identity whose account has a mail address is the reply of the row
    ever after, and at most one request to reply to the message is answered. *)
Theorem reply_final (mailed : string -> Prop) (requests : gmap positive MsgActor) w0 w ps t e dto u x m :
  msg_inv mailed w0 -> pool_reach (w0, serve_message <$> requests) (w, ps) ->
  requests !! t = Some (MReply e dto u) -> ps !! t = Some (Ret (Some x)) ->
  md_rows w !! message_id dto = Some m -> mailed (ms_sender m) ->
  hasReply m = true /\ replyContent m = Some (trim (dto_reply dto))
  /\ (forall t' e' dto' u' x', requests !! t' = Some (MReply e' dto' u') -> ps !! t' = Some (Ret (Some x')) ->
        message_id dto' = message_id dto -> e' = e /\ trim (dto_reply dto') = trim (dto_reply dto)).
Proof.
  intros HI Hreach Ht Hx Hm Hmail. destruct (message_pool_ok mailed requests w0 w ps HI Hreach) as (HIw & Hpost & _).
  destruct (Hpost _ _ _ Ht Hx) as (_ & m0 & Hm0 & Hr). rewrite Hm in Hm0. injection Hm0 as <-.
  destruct (Hr Hmail) as (H1 & H2 & ev & Hev & Hk). split; [done|]. split; [done|].
  intros t' e' dto' u' x' Ht' Hx' Hid. destruct (Hpost _ _ _ Ht' Hx') as (_ & m1 & Hm1 & Hr').
  rewrite Hid, Hm in Hm1. injection Hm1 as <-. destruct (Hr' Hmail) as (_ & H3 & ev' & Hev' & Hk').
  rewrite Hid in Hk'. split; [|congruence]. by apply (mi_outbox _ _ HIw _ _ _ _ _ Hev' Hev Hk' Hk).
Qed.
End messages.

(** ** Reading a thread to its end *)

Section walks.
Context (Date_parse : string -> option ms) (int_of : string -> option Z).

(** A client that follows the cursors of a thread. *)
Fixpoint thread_walk (fuel : nat) (confessionId senderId : string) (userId : Z) (q : GetMessagesQueryDto) : action (list Message) :=
  match fuel with
  | O => Throw QueryFailedError
  | S fuel' =>
      let* page := findForConfessionThread Date_parse int_of confessionId senderId userId q in
      match pg_next page with
      | Some c =>
          let* rest := thread_walk fuel' confessionId senderId userId (q <| q_cursor := Some c |>) in
          Ret (pg_data page ++ rest)
      | None => Ret (pg_data page)
      end
  end.

(** The position of a message in its thread, and the positions of a thread. *)
Definition position (m : Message) : Z * Z := (ms_createdAt m, ms_id m).
Definition pos_le (a b : Z * Z) : bool := (a.1 <? b.1) || ((a.1 =? b.1) && (a.2 <=? b.2)).
Definition positions (c s : string) (w : MsgDB) : list (Z * Z) :=
  insertion_sort pos_le (map position (select_rows (in_thread c s) w)).

Lemma pos_le_total a b : pos_le a b || pos_le b a = true.
Proof.
  unfold pos_le. destruct (Z.ltb_spec a.1 b.1), (Z.ltb_spec b.1 a.1), (Z.eqb_spec a.1 b.1), (Z.eqb_spec b.1 a.1),
    (Z.leb_spec a.2 b.2), (Z.leb_spec b.2 a.2); cbn; lia || done.
Qed.
Lemma pos_le_trans a b c : pos_le a b = true -> pos_le b c = true -> pos_le a c = true.
Proof. unfold pos_le. rewrite !orb_true_iff, !andb_true_iff, !Z.ltb_lt, !Z.eqb_eq, !Z.leb_le. lia. Qed.
Lemma pos_le_antisym a b : pos_le a b = true -> pos_le b a = true -> a = b.
Proof.
  unfold pos_le. rewrite !orb_true_iff, !andb_true_iff, !Z.ltb_lt, !Z.eqb_eq, !Z.leb_le. intros.
  destruct a, b. f_equal; cbn in *; lia.
Qed.

(** Sorting by a key, and sorting a permutation. *)
Lemma insertion_sort_key {A B} (f : A -> B) (le : B -> B -> bool) (l : list A) :
  insertion_sort le (map f l) = map f (insertion_sort (fun a b => le (f a) (f b)) l).
Proof.
  induction l as [|x l IH]; [done|]. cbn [map]. rewrite !insertion_sort_cons, IH. clear IH.
  induction (insertion_sort _ l) as [|y k IH]; cbn; [done|]. destruct (le (f x) (f y)); cbn; [done|]. by rewrite IH.
Qed.
Lemma sorted_perm_eq {A} (le : A -> A -> bool) (l l' : list A) :
  (forall x y, le x y = true -> le y x = true -> x = y) -> sorted_by le l -> sorted_by le l' -> l ≡ₚ l' -> l = l'.
Proof.
  intros Hanti. revert l'. induction l as [|x l IH]; intros l' Hl Hl' Hp; [by apply Permutation_nil_l in Hp|].
  destruct l' as [|y l']; [by apply Permutation_nil_r in Hp|]. destruct Hl as [Hx Hl], Hl' as [Hy Hl'].
  assert (x = y) as ->.
  { assert (x ∈ y :: l') as [->|Hxl]%elem_of_cons by (rewrite <- Hp; left); [done|].
    assert (y ∈ x :: l) as [->|Hyl]%elem_of_cons by (rewrite Hp; left); [done|]. by apply Hanti; auto. }
  f_equal. apply IH; [done|done|]. by apply Permutation_cons_inv in Hp.
Qed.
Lemma sort_positions l l' : l ≡ₚ l' -> insertion_sort pos_le l = insertion_sort pos_le l'.
Proof.
  intros Hp. apply (sorted_perm_eq pos_le); [apply pos_le_antisym|apply insertion_sort_sorted; [apply pos_le_total|apply pos_le_trans]..|].
  by rewrite !insertion_sort_perm.
Qed.

Lemma filter_perm {A} (f : A -> bool) (l l' : list A) : l ≡ₚ l' -> List.filter f l ≡ₚ List.filter f l'.
Proof.
  induction 1 as [|x l l' _ IH|x y l|l1 l2 l3 _ IH1 _ IH2]; cbn; [done| | |by etrans].
  - destruct (f x); [by constructor|done].
  - destruct (f x), (f y); try done. apply Permutation_swap.
Qed.
Lemma elem_of_select_rows P w m : m ∈ select_rows P w <-> exists i, md_rows w !! i = Some m /\ P m = true.
Proof.
  unfold select_rows. rewrite list_elem_of_fmap. split.
  - intros ([i x] & -> & Hi%elem_of_map_to_list%map_lookup_filter_Some). cbn. eauto.
  - intros (i & Hi & HP). exists (i, m). split; [done|]. by apply elem_of_map_to_list, map_lookup_filter_Some.
Qed.
Lemma select_rows_filter P K w : select_rows (fun m => P m && K m) w ≡ₚ List.filter K (select_rows P w).
Proof.
  unfold select_rows. rewrite filter_map_comm. apply (fmap_Permutation snd). apply NoDup_Permutation.
  - apply NoDup_map_to_list.
  - apply NoDup_ListNoDup, List.NoDup_filter, NoDup_ListNoDup, NoDup_map_to_list.
  - intros [i m]. rewrite (list_elem_of_In (List.filter _ _)), filter_In.
    rewrite <- list_elem_of_In, !elem_of_map_to_list, !map_lookup_filter_Some. cbn. rewrite andb_true_iff. tauto.
Qed.

Section walk.
Context (Hdates : forall t, year_four t -> Date_parse (toISOString t) = Some t).
Context (c s : string) (u : Z) (w : MsgDB) (cf : MsgConfession) (role : ThreadViewerRole).
Context (Hname : truthy (trim c) = true) (Hcf : md_confessions w !! c = Some cf)
        (Hrole : resolveThreadViewerRole (mc_author cf) s (anon_ids u w) = Some role)
        (Hkeyed : forall i m, md_rows w !! i = Some m -> ms_id m = i)
        (Hyears : forall i m, md_rows w !! i = Some m -> year_four (ms_createdAt m)).
Abbreviation L := (positions c s w).

(** The world with marks of readers on its messages. *)
Definition marked (v : MsgDB) : Prop :=
  md_anon v = md_anon w /\ md_confessions v = md_confessions w /\
  exists g, md_rows v = g <$> md_rows w /\ forall m, ident (g m) = ident m /\ ms_createdAt (g m) = ms_createdAt m.

Lemma marked_refl : marked w.
Proof using. split; [done|split; [done|]]. exists (fun m => m). split; [by rewrite map_fmap_id|done]. Qed.
Lemma marked_update P f v : marked v -> (forall t m, ident (f t m) = ident m /\ ms_createdAt (f t m) = ms_createdAt m) ->
  marked (run (E:=message_error) (access (update_where P f)) v).2.
Proof using.
  intros (Ha & Hc & g & Hr & Hg) Hf. rewrite run_access. split; [done|split; [done|]].
  exists (fun m => if P (g m) then f (md_clock v) (g m) else g m). split.
  - cbn. by rewrite Hr, <- map_fmap_compose.
  - intros m. destruct (Hg m) as [H1 H2]. destruct (P (g m)); [|done]. destruct (Hf (md_clock v) (g m)). split; congruence.
Qed.
Lemma positions_marked v : marked v -> map position (select_rows (in_thread c s) v) ≡ₚ map position (select_rows (in_thread c s) w).
Proof using.
  intros (_ & _ & g & Hr & Hg). unfold select_rows. rewrite Hr.
  assert (filter (fun p : Z * Message => in_thread c s p.2 = true) (g <$> md_rows w)
          = g <$> filter (fun p : Z * Message => in_thread c s p.2 = true) (md_rows w)) as ->.
  { apply map_eq. intros i. apply option_eq. intros m. rewrite map_lookup_filter_Some, !lookup_fmap_Some. cbn.
    assert (forall x, in_thread c s (g x) = in_thread c s x) as Hgx.
    { intros x. destruct (Hg x) as [[= _ Hs' Hc' _ _] _]. unfold in_thread. by rewrite Hs', Hc'. }
    split.
    - intros ((x & <- & Hx) & Hv). exists x. split; [done|]. apply map_lookup_filter_Some. split; [done|]. cbn. by rewrite <- Hgx.
    - intros (x & <- & (Hx & Hv)%map_lookup_filter_Some). split; [by exists x|]. by rewrite Hgx. }
  rewrite map_to_list_fmap. change (prod_map id g <$> ?l) with (map (prod_map id g) l). rewrite !map_map.
  apply Permutation_refl', map_ext. intros [i m]. cbn. destruct (Hg m) as [[= Hi _ _ _ _] Ht]. unfold position. by rewrite Hi, Ht.
Qed.

Lemma NoDup_positions : NoDup L.
Proof using Hkeyed.
  unfold positions. rewrite insertion_sort_perm. apply (NoDup_fmap_1 snd).
  change (NoDup (map snd (map position (select_rows (in_thread c s) w)))). unfold select_rows. rewrite !map_map.
  rewrite (map_ext_in _ fst); [apply NoDup_fst_map_to_list|].
  intros [i m] Hi%list_elem_of_In%elem_of_map_to_list%map_lookup_filter_Some. exact (Hkeyed i m (proj1 Hi)).
Qed.
Lemma elem_of_positions p : p ∈ L -> year_four p.1.
Proof using Hyears.
  unfold positions. rewrite elem_of_insertion_sort. intros (m & -> & (i & Hi & _)%elem_of_select_rows)%list_elem_of_fmap. by eapply Hyears.
Qed.

(** The query selects what is left of the thread after [n] messages. *)
Definition selects (q : GetMessagesQueryDto) (n : nat) : Prop :=
  exists kf off, thread_position Date_parse int_of q = Some (fun m => kf (position m), off) /\
    skipn off (List.filter kf L) = skipn n L.

Definition cursor_at (p : Z * Z) : string :=
  encodeCursor (JObj [("id", JNum (num_of_Z p.2)); ("createdAt", JStr (toISOString p.1))]).
Lemma selects_cursor q n p : L !! n = Some p -> selects (q <| q_cursor := Some (cursor_at p) |>) (S n).
Proof using Hdates Hkeyed Hyears.
  clear Hname Hcf Hrole. intros Hp. pose proof (elem_of_positions p (list_elem_of_lookup_2 _ _ _ Hp)) as Hy.
  assert (decodeCursor (Some (cursor_at p)) = Some (JObj [("id", JNum (num_of_Z p.2)); ("createdAt", JStr (toISOString p.1))])) as Hd.
  { apply decode_encodeCursor. split; [apply NoDup_cons; split; [set_solver|apply NoDup_singleton]|]. cbn. eauto. }
  exists (fun x => (p.1 <? x.1) || ((x.1 =? p.1) && (p.2 <? x.2))), 0%nat. split.
  - unfold thread_position. cbn [q_cursor set_field]. cbn [truthy_opt from_option].
    destruct (truthy (cursor_at p)) eqn:Ht; [|unfold decodeCursor in Hd; by rewrite Ht in Hd].
    rewrite Hd. change (json_get "createdAt" _) with (Some (JStr (toISOString p.1))). change (json_get "id" _) with (Some (JNum (num_of_Z p.2))).
    unfold sql_date, sql_int. cbn [mbind option_bind new_Date]. rewrite Hdates, as_integer_Z by done. done.
  - cbn [skipn]. rewrite <- (filter_after pos_le pos_le_total n p L); [|intros y _ H1 H2; by apply pos_le_antisym|apply NoDup_positions| |done].
    + apply List.filter_ext. intros x. unfold pos_le.
      destruct (Z.ltb_spec p.1 x.1), (Z.ltb_spec x.1 p.1), (Z.eqb_spec x.1 p.1), (Z.ltb_spec p.2 x.2), (Z.leb_spec x.2 p.2); cbn; lia || done.
    + apply insertion_sort_sorted; [apply pos_le_total|apply pos_le_trans].
Qed.

(** One page of a thread: the next messages, and the cursor to the rest if there is
    any. *)
Lemma thread_page_spec v q n : marked v -> selects q n -> (n < length L)%nat -> exists data,
  thread_page Date_parse int_of c s q v = Ok {| pg_data := data;
    pg_next := if (page_limit q <? length (skipn n L))%nat then cursor_at <$> L !! (n + (page_limit q - 1))%nat else None;
    pg_more := (page_limit q <? length (skipn n L))%nat; pg_limit := page_limit q |} /\
  map position data = firstn (page_limit q) (skipn n L).
Proof using.
  clear Hname Hcf Hrole Hkeyed Hyears Hdates. intros Hv (kf & off & Hpos & Hsel) Hn. unfold thread_page. rewrite Hpos. set (limit := page_limit q).
  assert (1 <= limit)%nat as Hlimit by (subst limit; unfold page_limit; destruct (q_limit q) as [[|k]|]; lia).
  set (D := insertion_sort older _). assert (map position D = List.filter kf L) as HD.
  { subst D. rewrite <- (insertion_sort_key position pos_le). unfold positions. rewrite filter_insertion_sort by (apply pos_le_total || apply pos_le_trans).
    apply sort_positions. etrans; [apply (fmap_Permutation position), (select_rows_filter (in_thread c s) (fun m => kf (position m)))|].
    change (position <$> ?l) with (map position l). rewrite <- filter_map_comm. by apply filter_perm, positions_marked. }
  set (M := firstn (limit + 1) (skipn off D)).
  assert (map position M = firstn (limit + 1) (skipn n L)) as HM by (subst M; by rewrite <- firstn_map, <- skipn_map, HD, Hsel).
  assert (length M = length (firstn (limit + 1) (skipn n L))) as Hlen by (by rewrite <- HM, length_map).
  rewrite length_firstn in Hlen.
  assert ((limit <? length M)%nat = (limit <? length (skipn n L))%nat) as Hmore.
  { rewrite Hlen. apply eq_bool_prop_intro. rewrite !Is_true_true, !Nat.ltb_lt. lia. }
  set (R := if (limit <? length M)%nat then firstn limit M else M).
  assert (map position R = firstn limit (skipn n L)) as HR.
  { subst R. destruct (Nat.ltb_spec limit (length M)) as [Hlt|Hge].
    - by rewrite <- firstn_map, HM, firstn_firstn, Nat.min_l by lia.
    - rewrite HM. rewrite !firstn_all2; [done|lia..]. }
  assert (R <> []) as Hne.
  { intros H. rewrite H in HR. apply (f_equal length) in HR. rewrite length_firstn, length_skipn in HR. cbn in HR. lia. }
  rewrite (bool_decide_eq_false_2 (R = [])) by done. rewrite andb_false_r. exists R. split; [|done]. do 2 f_equal; [|done].
  rewrite Hmore. destruct (Nat.ltb_spec limit (length (skipn n L))) as [Hlt|_]; [|done].
  rewrite last_lookup. assert (length R = limit) as HRl.
  { rewrite <- (length_map position R), HR, length_firstn. lia. }
  rewrite HRl. replace (pred limit) with (limit - 1)%nat by lia.
  assert (position <$> R !! (limit - 1)%nat = L !! (n + (limit - 1))%nat) as Hlook.
  { rewrite <- list_lookup_fmap. change (position <$> R) with (map position R). rewrite HR, lookup_take_lt by lia. by rewrite lookup_drop. }
  rewrite <- Hlook. by destruct (R !! _).
Qed.

(** A request for a page marks messages and answers with the page. *)
Lemma run_thread v q : marked v -> exists v', marked v' /\
  run (findForConfessionThread Date_parse int_of c s u q) v = (thread_page Date_parse int_of c s q v', v').
Proof using Hname Hcf Hrole.
  intros Hv. pose proof Hv as (Ha & Hc & _). unfold findForConfessionThread. rewrite Hname. cbn [negb].
  rewrite run_bind, run_reads, Hc, Hcf, run_bind, run_reads.
  assert (anon_ids u v = anon_ids u w) as -> by (unfold anon_ids; by rewrite Ha). rewrite Hrole.
  assert (forall P f x, marked x -> (forall t m, ident (f t m) = ident m /\ ms_createdAt (f t m) = ms_createdAt m) ->
    exists x', marked x' /\ run (let* _n := access (update_where P f) in Ret tt : action unit) x = (Ok tt, x')) as Hmark.
  { intros P f x Hx Hf. exists (run (E:=message_error) (access (update_where P f)) x).2. split; [by apply marked_update|].
    rewrite run_bind, run_access. by destruct (update_where P f x). }
  assert (exists v1, marked v1 /\ run (markThreadRead c s role) v = (Ok tt, v1)) as (v1 & Hv1 & Hr1).
  { destruct role; by apply Hmark. }
  rewrite run_bind, Hr1. clear Hr1.
  assert (exists v2, marked v2 /\ run (match role with SENDER => let* _n := markMessagesDelivered c s in Ret tt | AUTHOR => Ret tt end) v1
    = (Ok tt, v2)) as (v2 & Hv2 & Hr2).
  { destruct role; [by exists v1|by apply Hmark]. }
  rewrite run_bind, Hr2. clear Hr2. rewrite run_bind, run_reads, run_of_outcome. by exists v2.
Qed.

Lemma run_thread_walk fuel : forall q v n, marked v -> selects q n -> (n < length L)%nat -> (length (skipn n L) <= fuel)%nat ->
  exists ms v', run (thread_walk fuel c s u q) v = (Ok ms, v') /\ map position ms = skipn n L.
Proof using Hname Hcf Hrole Hdates Hkeyed Hyears.
  induction fuel as [|fuel IH]; intros q v n Hv Hsel Hn Hfuel; [rewrite length_skipn in Hfuel; lia|].
  destruct (run_thread v q Hv) as (v1 & Hv1 & Hr). destruct (thread_page_spec v1 q n Hv1 Hsel Hn) as (data & Hpage & Hdata).
  cbn [thread_walk]. rewrite run_bind, Hr, Hpage. clear Hr Hpage. cbn [pg_next pg_data].
  assert (1 <= page_limit q)%nat as Hlimit by (unfold page_limit; destruct (q_limit q) as [[|k]|]; lia).
  destruct (Nat.ltb_spec (page_limit q) (length (skipn n L))) as [Hlt|Hge].
  - rewrite length_skipn in *. destruct (L !! (n + (page_limit q - 1))%nat) as [p|] eqn:Hp; [|apply lookup_ge_None in Hp; lia].
    cbn [fmap option_fmap option_map]. rewrite run_bind.
    destruct (IH (q <| q_cursor := Some (cursor_at p) |>) v1 (S (n + (page_limit q - 1)))) as (ms & v2 & Hr & Hms).
    { done. } { by apply selects_cursor. } { lia. } { rewrite length_skipn. lia. }
    rewrite Hr. eexists _, v2. split; [done|]. rewrite map_app, Hdata, Hms.
    replace (S (n + (page_limit q - 1)))%nat with (page_limit q + n)%nat by lia.
    by rewrite <- skipn_skipn, firstn_skipn.
  - exists data, v1. split; [done|]. by rewrite Hdata, firstn_all2.
Qed.
End walk.

(** A thread is read exactly. A participant who follows the cursors of a thread from
    the first page collects its messages, each once, from the oldest on, whatever the
    size of the pages, and stops; the marks that the requests set on the way do not
    disturb it. *)
Theorem thread_walk_exact c s u w cf role q :
  (forall t, year_four t -> Date_parse (toISOString t) = Some t) ->
  truthy (trim c) = true -> md_confessions w !! c = Some cf ->
  resolveThreadViewerRole (mc_author cf) s (anon_ids u w) = Some role ->
  (forall i m, md_rows w !! i = Some m -> ms_id m = i /\ year_four (ms_createdAt m)) ->
  positions c s w <> [] -> q_cursor q = None -> (default 1 (q_page q) <= 1)%nat ->
  exists ms w', run (thread_walk (length (positions c s w)) c s u q) w = (Ok ms, w') /\
    map position ms = positions c s w /\ NoDup (positions c s w) /\
    (forall p, p ∈ positions c s w <-> exists i m, md_rows w !! i = Some m /\ in_thread c s m = true /\ p = position m).
Proof.
  intros Hdates Hname Hcf Hrole Hrows Hne Hcur Hpage.
  destruct (run_thread_walk Hdates c s u w cf role Hname Hcf Hrole (fun i m Hm => proj1 (Hrows i m Hm)) (fun i m Hm => proj2 (Hrows i m Hm))
    (length (positions c s w)) q w 0) as (ms & w' & Hr & Hms).
  - apply marked_refl.
  - exists (fun _ => true), 0%nat. split; [|apply List.filter_true].
    unfold thread_position. rewrite Hcur. cbn. destruct (q_page q) as [[|[|p]]|]; cbn in Hpage; done || lia.
  - destruct (positions c s w); [done|cbn; lia].
  - by rewrite length_skipn, Nat.sub_0_r.
  - exists ms, w'. split; [done|]. split; [done|]. split; [apply NoDup_positions; intros; by apply Hrows|].
    intros p. unfold positions. rewrite elem_of_insertion_sort. setoid_rewrite list_elem_of_fmap. setoid_rewrite elem_of_select_rows. naive_solver.
Qed.
End walks.

(** ** Concrete threads *)

Definition ex_cipher (n : string) : string :=
  serializeEnvelope {| iv := toBase64Url "nonce-nonce-"; ct := toBase64Url ("0123456789abcdef" +:+ n) |}.
Definition ex_link (i : string) (u : Z) (a : string) : UserAnonymousUser :=
  {| ln_id := i; ln_userId := u; anonymousUserId := a; ln_createdAt := 1000 |}.
Definition ex_anon (a : string) : AnonymousUser := {| an_id := a; walletFingerprint := None; an_createdAt := 1000 |}.
(** User 1 wrote the confession [c1], users 2 and 3 are its readers. *)
Definition ex_msgs (rows : list Message) : MsgDB := {|
  md_anon := {| anons := list_to_map (map (fun a => (a, ex_anon a)) ["author"; "reader"; "other"]);
                links := [ex_link "l1" 1 "author"; ex_link "l2" 2 "reader"; ex_link "l3" 3 "other"] |};
  md_accounts := {[ 1 := {| ac_id := 1; ac_mail := "author@example.org"; ac_replies := None; ac_password := "hash1" |};
                    2 := {| ac_id := 2; ac_mail := "reader@example.org"; ac_replies := None; ac_password := "hash2" |} ]};
  md_confessions := {[ "c1" := {| mc_message := "0a1b:cafe"; mc_author := Some "author" |} ]};
  md_rows := list_to_map (map (fun m => (ms_id m, m)) rows); md_seq := 10; md_outbox := ∅; md_analytics := []; md_clock := 5000 |}.
Definition ex_msg (i : Z) (sender : string) (t : ms) : Message :=
  new_message i sender {| confession_id := "c1"; content := ex_cipher "hello" |} None t.
Definition ex_first : GetMessagesQueryDto := {| q_cursor := None; q_limit := Some 2%nat; q_page := None |}.
Definition ex_draw (n : string) : MsgDraw :=
  {| dr_anon := {| rq_anonId := "a" +:+ n; rq_linkId := "k" +:+ n; rq_now := 5000 |}; dr_event := "e" +:+ n |}.
Definition plain (s : string) : string := s.
#[export] Instance plain_inj : Inj (=) (=) plain.
Proof. by intros s t. Defined.
Definition ex_serve := serve_message plain plain parseISO (fun _ => None).

Definition ex_same : MsgDB := ex_msgs [ex_msg 1 "reader" 2000; ex_msg 2 "other" 3000].
Definition ex_differs : MsgDB := ex_msgs [ex_msg 1 "reader" 2000; ex_msg 3 "other" 4000; ex_msg 4 "other" 4500].
(** Another reader's messages make no difference to what a reader is answered. *)
Lemma messages_private_witness :
  (run (serve_read parseISO (fun _ => None) 2 (GetInbox ex_first)) ex_same).1
  = (run (serve_read parseISO (fun _ => None) 2 (GetInbox ex_first)) ex_differs).1.
Proof.
  refine (proj1 (messages_private plain plain parseISO (fun _ => None) 2 (GetInbox ex_first) ex_same ex_differs _)).
  split; [done|done|done|]. vm_compute. reflexivity.
Defined.

Definition ex_dto : CreateMessageDto := {| confession_id := "c1"; content := ex_cipher "hello" |}.
Definition ex_senders : gmap positive MsgActor :=
  {[ 1%positive := MCreate (ex_draw "1") ex_dto 2 (Some "k"); 2%positive := MCreate (ex_draw "2") ex_dto 2 (Some "k") ]}.
Definition ex_sent := run_schedule [1; 2; 1; 2; 1; 2; 1; 2]%positive (ex_msgs [], ex_serve <$> ex_senders).
Definition ex_answer (s : MsgDB * gmap positive (action (option Answered))) (t : positive) : option Answered :=
  match s.2 !! t with Some (Ret o) => o | _ => None end.

Lemma ex_inv mailed rows : (forall m, m ∈ rows -> ms_id m <= 10 /\ ms_key m = None) ->
  (forall s, mailed s -> s = "reader" \/ s = "author") -> msg_inv mailed (ex_msgs rows).
Proof.
  intros Hrows Hmail. assert (forall i m, md_rows (ex_msgs rows) !! i = Some m -> ms_id m = i /\ m ∈ rows) as Hrow.
  { intros i m Hm. apply elem_of_list_to_map_2, list_elem_of_fmap in Hm as (x & [= -> ->] & Hx). done. }
  split.
  - intros i m [<- Hm]%Hrow. split; [done|]. by apply Hrows.
  - intros i j m m' k [_ Hm]%Hrow [_ Hm']%Hrow Hk. destruct (Hrows m Hm). congruence.
  - intros i j e e' k He. cbn in He. by rewrite lookup_empty in He.
  - intros s Hs. destruct (Hmail s Hs) as [-> | ->]; eexists; (split; [vm_compute; reflexivity|reflexivity]).
Qed.
Lemma ex_inv_none : msg_inv (fun _ => False) (ex_msgs []).
Proof. apply ex_inv; [|done]. intros m Hm. by apply elem_of_nil in Hm. Qed.
Lemma ex_inv_one : msg_inv (eq "reader") (ex_msgs [ex_msg 1 "reader" 2000]).
Proof. apply ex_inv; [|by intros s <-; left]. by intros y ->%list_elem_of_singleton. Qed.
Lemma pool_reach_pair {W E A} (s s' : W * gmap positive (prog W E A)) : pool_reach s s' -> pool_reach s (s'.1, s'.2).
Proof. by destruct s'. Qed.
Lemma message_sent_once_witness : exists x x',
  ex_answer ex_sent 1 = Some x /\ ex_answer ex_sent 2 = Some x' /\ ms_id (an_message x) = ms_id (an_message x').
Proof.
  assert (exists x, ex_sent.2 !! 1%positive = Some (Ret (Some x)) /\ ex_answer ex_sent 1 = Some x) as (x & Hx & Ax)
    by (eexists; split; vm_compute; reflexivity).
  assert (exists x, ex_sent.2 !! 2%positive = Some (Ret (Some x)) /\ ex_answer ex_sent 2 = Some x) as (x' & Hx' & Ax')
    by (eexists; split; vm_compute; reflexivity).
  exists x, x'. split; [done|]. split; [done|].
  refine (proj2 (proj1 (message_sent_once plain plain parseISO (fun _ => None) ex_senders (ex_msgs []) ex_sent.1 ex_sent.2
    1 2 (ex_draw "1") (ex_draw "2") ex_dto ex_dto 2 2 "k" "k" x x' _ _ eq_refl Hx eq_refl Hx')) eq_refl).
  - exact ex_inv_none.
  - exact (pool_reach_pair _ _ (run_schedule_reach _ _)).
Defined.

Definition ex_repliers : gmap positive MsgActor :=
  {[ 1%positive := MReply "e1" {| message_id := 1; dto_reply := ex_cipher "yes" |} 1;
     2%positive := MReply "e2" {| message_id := 1; dto_reply := ex_cipher "no" |} 1 ]}.
(** Both requests read the message before it has a reply. *)
Definition ex_replied := run_schedule [1; 2; 1; 2; 1; 2]%positive (ex_msgs [ex_msg 1 "reader" 2000], ex_serve <$> ex_repliers).
Lemma reply_final_witness : exists x m, ex_answer ex_replied 1 = Some x /\ ex_answer ex_replied 2 = None /\
  md_rows ex_replied.1 !! 1 = Some m /\ replyContent m = Some (trim (ex_cipher "yes")).
Proof.
  assert (exists x, ex_replied.2 !! 1%positive = Some (Ret (Some x)) /\ ex_answer ex_replied 1 = Some x) as (x & Hx & Ax)
    by (eexists; split; vm_compute; reflexivity).
  assert (exists m, md_rows ex_replied.1 !! 1 = Some m /\ ms_sender m = "reader") as (m & Hm & Hs) by (eexists; split; vm_compute; reflexivity).
  exists x, m. split; [done|]. split; [vm_compute; reflexivity|]. split; [done|].
  refine (proj1 (proj2 (reply_final plain plain parseISO (fun _ => None) (eq "reader") ex_repliers (ex_msgs [ex_msg 1 "reader" 2000])
    ex_replied.1 ex_replied.2 1 "e1" {| message_id := 1; dto_reply := ex_cipher "yes" |} 1 x m _ _ eq_refl Hx Hm (eq_sym Hs)))).
  - exact ex_inv_one.
  - exact (pool_reach_pair _ _ (run_schedule_reach _ _)).
Defined.

Definition ex_thread : MsgDB := ex_msgs [ex_msg 2 "reader" 2000; ex_msg 1 "reader" 2000; ex_msg 4 "other" 2500; ex_msg 3 "reader" 3000].
Lemma thread_walk_exact_witness : exists ms w',
  run (thread_walk parseISO (fun _ => None) 3 "c1" "reader" 1 ex_first) ex_thread = (Ok ms, w') /\
  map ms_id ms = [1; 2; 3].
Proof.
  assert (forall i m, md_rows ex_thread !! i = Some m -> ms_id m = i /\ year_four (ms_createdAt m)) as Hrows.
  { intros i m Hm. apply elem_of_list_to_map_2, list_elem_of_fmap in Hm as (x & [= -> ->] & Hx). split; [done|].
    apply elem_of_cons in Hx as [->|[->|[->|[->|Hx]%elem_of_cons]%elem_of_cons]%elem_of_cons]; [..|by apply elem_of_nil in Hx];
      vm_compute; split; congruence. }
  assert (positions "c1" "reader" ex_thread = [(2000, 1); (2000, 2); (3000, 3)]) as HL by (vm_compute; reflexivity).
  destruct (thread_walk_exact parseISO (fun _ => None) "c1" "reader" 1 ex_thread
    {| mc_message := "0a1b:cafe"; mc_author := Some "author" |} AUTHOR ex_first parse_toISOString eq_refl eq_refl eq_refl Hrows
    ltac:(by rewrite HL) eq_refl ltac:(cbn; lia)) as (ms & w' & Hr & Hms & _).
  rewrite HL in Hr, Hms. exists ms, w'. split; [exact Hr|]. apply (f_equal (map snd)) in Hms. by rewrite map_map in Hms.
Defined.

(** ** What modelling showed *)

(** The answer to a message names its recipient: it carries the row of the author's
    account, loaded to find the mail address. *)
Theorem answer_names_author : exists x, (run (create plain plain (ex_draw "1") ex_dto 2 None) (ex_msgs [])).1 = Ok x
  /\ an_user x = Some {| ac_id := 1; ac_mail := "author@example.org"; ac_replies := None; ac_password := "hash1" |}.
Proof. eexists. split; vm_compute; reflexivity. Qed.

(** Without a mail address nothing stops a second reply, which replaces the first. *)
Theorem reply_replaced :
  let s := run_schedule [1; 2; 1; 2; 1; 2]%positive (ex_msgs [ex_msg 1 "other" 2000], ex_serve <$> ex_repliers) in
  is_Some (ex_answer s 1) /\ is_Some (ex_answer s 2) /\ (md_rows s.1 !! 1 ≫= replyContent) = Some (ex_cipher "no").
Proof. vm_compute. split; [eauto|]. split; [eauto|reflexivity]. Qed.

(** A reply writes back the state it read: a message read meanwhile is no longer read. *)
Theorem reply_unreads :
  let s := run_schedule [1; 1; 2; 2; 2; 1]%positive (ex_msgs [ex_msg 1 "reader" 2000], ex_serve <$>
    {[ 1%positive := MReply "e1" {| message_id := 1; dto_reply := ex_cipher "yes" |} 1; 2%positive := MRead 2 (MarkRead "c1" "reader") ]}) in
  (deliveryStatus <$> md_rows (run (ex_serve (MRead 2 (MarkRead "c1" "reader"))) (ex_msgs [ex_msg 1 "reader" 2000])).2 !! 1) = Some READ
  /\ (deliveryStatus <$> md_rows s.1 !! 1) = Some SENT.
Proof. vm_compute. done. Qed.

Definition ex_inbox (q : GetMessagesQueryDto) (w : MsgDB) : option (list (string * ms) * option string * bool) :=
  match (run (findAllThreadsForUser parseISO 1 q) w).1 with
  | Ok p => Some (map (fun t => (th_sender t, th_lastAt t)) (pg_data p), pg_next p, pg_more p)
  | Exn _ => None
  end.
Definition ex_one : GetMessagesQueryDto := {| q_cursor := None; q_limit := Some 1%nat; q_page := None |}.
(** The cursor of the inbox is a time, not a thread: a thread with older messages comes
    again, shown with an older last message. *)
Definition ex_cursor (sender : string) (t : ms) : string :=
  encodeCursor (JObj [("id", JStr ("c1_" +:+ sender)); ("lastMessageAt", JStr (toISOString t))]).
Theorem inbox_repeats_thread :
  let w := ex_msgs [ex_msg 1 "reader" 2000; ex_msg 2 "other" 3000; ex_msg 3 "reader" 4000] in
  ex_inbox ex_one w = Some ([("reader", 4000)], Some (ex_cursor "reader" 4000), true)
  /\ ex_inbox (ex_one <| q_cursor := Some (ex_cursor "reader" 4000) |>) w = Some ([("other", 3000)], Some (ex_cursor "other" 3000), true)
  /\ ex_inbox (ex_one <| q_cursor := Some (ex_cursor "other" 3000) |>) w = Some ([("reader", 2000)], None, false).
Proof. split; [|split]; vm_compute; reflexivity. Qed.

(** A page reads ten messages for every thread it may show: behind ten messages of one
    thread the others are on no page. *)
Theorem inbox_hides_threads :
  ex_inbox ex_one (ex_msgs (ex_msg 1 "other" 2000 :: map (fun i => ex_msg (2 + Z.of_nat i) "reader" 4000) (seq 0 8 ++ [8%nat; 9%nat])))
  = Some ([("reader", 4000)], None, false).
Proof. vm_compute. reflexivity. Qed.

(** A thread that was deleted is in the inbox as before. *)
Theorem deletion_hides_nothing : ex_inbox ex_first (run (deleteForUser 1 "c1_reader") ex_thread).2 = ex_inbox ex_first ex_thread.
Proof. vm_compute. reflexivity. Qed.

Lemma take_str_all n s : (String.length s <= n)%nat -> take_str n s = s.
Proof.
  revert n; induction s as [|x s IH]; intros [|n] Hn; try done; [cbn in Hn; lia|]. cbn. rewrite IH; [done|]. cbn in Hn. lia.
Qed.
(** The preview of a confession is the beginning of its stored, encrypted text. *)
Theorem preview_is_ciphertext m c role : (String.length (mc_message c) <= 50)%nat -> th_preview (new_thread m c role) = mc_message c.
Proof.
  intros Hl. unfold new_thread. cbn [th_preview]. destruct (Nat.ltb_spec 50 (String.length (mc_message c))); [lia|].
  by rewrite str_app_empty_r, take_str_all.
Qed.
