(* ===== verification/Csv.v ===== *)
(** * CSV files

    [src/xconfess-backend/src/utils/output-escape.ts]: the cells and rows of the CSV
    files the services write, and a reader of RFC 4180 to state what they promise:
    every cell is read back, and no text becomes a formula. *)
From S2P Require Import Prelude Numbers Json Dates Effects.
Open Scope Z_scope.

(** A value of a JavaScript object: a key may be there without a value, and a date is
    not yet its text. *)
Inductive jsval := JUndef | JDate (t : ms) | JVal (j : json).
Definition jsobj := list (string * jsval).
(** [row[key]]. *)
Definition js_get (k : string) (o : jsobj) : jsval :=
  match List.find (fun f => f.1 =s? k) o with Some f => f.2 | None => JUndef end.
(** What [JSON.stringify] writes of an object. *)
Definition jsobj_json (o : jsobj) : json :=
  JObj (omap (fun f => match f.2 with
                       | JUndef => None
                       | JDate t => Some (f.1, JStr (toISOString t))
                       | JVal j => Some (f.1, j)
                       end) o).

(** [src utils/output-escape.ts:19-19 CSV_FORMULA_TRIGGER] *)
Definition CSV_FORMULA_TRIGGER (s : string) : bool :=
  match s with
  | String c _ => Ascii.eqb c "="%char || Ascii.eqb c "+"%char || Ascii.eqb c "-"%char || Ascii.eqb c "@"%char
                  || Ascii.eqb c "009"%char || Ascii.eqb c "013"%char
  | EmptyString => false
  end.
(** Every double quote is written twice. *)
Fixpoint double_quotes (s : string) : string :=
  match s with
  | EmptyString => EmptyString
  | String c s' => if Ascii.eqb c dquote then String dquote (String dquote (double_quotes s')) else String c (double_quotes s')
  end.
(** A double quote, a comma, CR or LF. *)
Definition special (c : Ascii.ascii) : bool :=
  Ascii.eqb c dquote || Ascii.eqb c ","%char || Ascii.eqb c "013"%char || Ascii.eqb c "010"%char.
Definition needs_quotes (s : string) : bool := negb (str_forall (fun c => negb (special c)) s).

(** The text of a cell, before it is escaped. *)
Definition cell_text (v : jsval) : string :=
  match v with
  | JUndef | JVal JNull => ""
  | JDate t => toISOString t
  | JVal (JStr s) => if CSV_FORMULA_TRIGGER s then "'" +:+ s else s
  | JVal (JObj _ as j) | JVal (JArr _ as j) => stringify j
  | JVal j => json_string j
  end.
Definition escape_cell (guarded : string) : string :=
  let escaped := double_quotes guarded in
  if needs_quotes escaped then String dquote (escaped +:+ String dquote EmptyString) else escaped.
(** [src utils/output-escape.ts:26-45 escapeCsvCell] *)
Definition escapeCsvCell (value : jsval) : string := escape_cell (cell_text value).

Definition csv_line (cells : list string) : string := join_with "," (map escape_cell cells).
Definition newline : string := String "010"%char EmptyString.
(** [src utils/output-escape.ts:51-61 toCsv] *)
Definition toCsv (rows : list jsobj) : string :=
  match rows with
  | [] => ""
  | first :: _ =>
      let headers := map fst first in
      join_with "," (map (fun h => escapeCsvCell (JVal (JStr h))) headers) +:+ newline
        +:+ join_with newline (map (fun row => join_with "," (map (fun key => escapeCsvCell (js_get key row)) headers)) rows)
  end.

(** ** A reader *)

(** A cell without quotes ends before a comma or the end of the line. *)
Fixpoint read_plain (s : string) : string * string :=
  match s with
  | EmptyString => (EmptyString, EmptyString)
  | String c s' => if Ascii.eqb c ","%char || Ascii.eqb c "010"%char then (EmptyString, s)
                   else let '(t, r) := read_plain s' in (String c t, r)
  end.
(** A quoted cell, after its opening quote. *)
Fixpoint read_quoted (s : string) : option (string * string) :=
  match s with
  | EmptyString => None
  | String c s' =>
      if Ascii.eqb c dquote then
        match s' with
        | String d s'' => if Ascii.eqb d dquote then '(t, r) ← read_quoted s''; Some (String dquote t, r) else Some (EmptyString, s')
        | EmptyString => Some (EmptyString, EmptyString)
        end
      else '(t, r) ← read_quoted s'; Some (String c t, r)
  end.
Definition read_cell (s : string) : option (string * string) :=
  match s with
  | String c s' => if Ascii.eqb c dquote then read_quoted s' else Some (read_plain s)
  | EmptyString => Some (EmptyString, EmptyString)
  end.
Fixpoint read_rows (fuel : nat) (s : string) : option (list (list string)) :=
  match fuel with
  | O => None
  | S fuel' =>
      '(t, r) ← read_cell s;
      match r with
      | EmptyString => Some [[t]]
      | String c r' =>
          rows ← read_rows fuel' r';
          if Ascii.eqb c ","%char then match rows with row :: rows' => Some ((t :: row) :: rows') | [] => None end
          else if Ascii.eqb c "010"%char then Some ([t] :: rows)
          else None
      end
  end.
Definition read_csv (s : string) : option (list (list string)) := read_rows (S (String.length s)) s.

(** ** Lemmas *)

Definition delimited (r : string) : Prop :=
  match r with EmptyString => True | String c _ => c = ","%char \/ c = "010"%char end.

Lemma read_quoted_double t r : delimited r -> read_quoted (double_quotes t +:+ String dquote r) = Some (t, r).
Proof.
  intros Hr. induction t as [|c t IH].
  - destruct r as [|c r]; [done|]. by destruct Hr as [-> | ->].
  - cbn [double_quotes]. destruct (Ascii.eqb_spec c dquote) as [->|Hc]; rewrite !str_app_cons; cbn [read_quoted].
    + change (Ascii.eqb dquote dquote) with true. cbn iota. by rewrite IH.
    + rewrite (proj2 (Ascii.eqb_neq c dquote)) by done. by rewrite IH.
Qed.
Lemma plain_cell t : str_forall (fun c => negb (special c)) t = true -> double_quotes t = t.
Proof.
  induction t as [|c t IH]; [done|]. cbn. intros [Hc Ht]%andb_true_iff. unfold special in Hc.
  destruct (Ascii.eqb_spec c dquote); [done|]. by rewrite IH.
Qed.
Lemma read_plain_cell t r : str_forall (fun c => negb (special c)) t = true -> delimited r -> read_plain (t +:+ r) = (t, r).
Proof.
  intros Ht Hr. induction t as [|c t IH].
  - destruct r as [|c r]; [done|]. by destruct Hr as [-> | ->].
  - rewrite str_app_cons. cbn in *. apply andb_true_iff in Ht as [Hc Ht]. rewrite IH by done.
    unfold special in Hc. destruct (Ascii.eqb_spec c dquote), (Ascii.eqb_spec c ","%char), (Ascii.eqb_spec c "013"%char),
      (Ascii.eqb_spec c "010"%char); by cbn in Hc.
Qed.
Lemma special_doubled t : str_forall (fun c => negb (special c)) (double_quotes t) = str_forall (fun c => negb (special c)) t.
Proof.
  induction t as [|c t IH]; [done|]. cbn. destruct (Ascii.eqb_spec c dquote) as [->|Hc]; [done|]. cbn. by rewrite IH.
Qed.
Lemma read_escaped t r : delimited r -> read_cell (escape_cell t +:+ r) = Some (t, r).
Proof.
  intros Hr. unfold escape_cell, needs_quotes. cbv zeta. rewrite special_doubled.
  destruct (str_forall (fun c => negb (special c)) t) eqn:Ht; cbn [negb].
  - rewrite plain_cell by done. destruct t as [|c t].
    + destruct r as [|c r]; [done|]. by destruct Hr as [-> | ->].
    + pose proof (read_plain_cell _ _ Ht Hr) as Hp. rewrite str_app_cons in *. cbn in Ht. apply andb_true_iff in Ht as [Hc _].
      unfold read_cell. unfold special in Hc. destruct (Ascii.eqb_spec c dquote); [done|]. by rewrite Hp.
  - rewrite str_app_cons, str_app_assoc, str_app_cons, str_app_nil. cbn [read_cell]. change (Ascii.eqb dquote dquote) with true.
    cbn iota. by apply read_quoted_double.
Qed.

Lemma escape_nonempty_rest (cells : list string) t : (1 <= String.length (csv_line (t :: cells)) + 1)%nat.
Proof. lia. Qed.

(** A line is read as its cells. *)
Lemma read_line cells t rest fuel : delimited rest -> (String.length (csv_line (t :: cells) +:+ rest) < fuel)%nat ->
  read_rows fuel (csv_line (t :: cells) +:+ rest) =
  match rest with
  | EmptyString => Some [t :: cells]
  | String c r =>
      if Ascii.eqb c ","%char then
        rows ← read_rows (fuel - S (length cells)) r;
        match rows with row :: rows' => Some ((t :: cells ++ row) :: rows') | [] => None end
      else rows ← read_rows (fuel - S (length cells)) r; Some ((t :: cells) :: rows)
  end.
Proof.
  revert t fuel. induction cells as [|u cells IH]; intros t fuel Hr Hfuel; (destruct fuel as [|fuel]; [lia|]).
  - cbn [csv_line map join_with read_rows]. unfold csv_line. cbn [map join_with]. rewrite read_escaped by done. cbn [mbind option_bind].
    destruct rest as [|c r]; [done|]. cbn [length]. replace (S fuel - 1)%nat with fuel by lia.
    destruct Hr as [-> | ->]; cbn; by destruct (read_rows fuel r) as [[]|].
  - unfold csv_line in *. cbn [map] in *. rewrite join_with_cons in *. rewrite !str_app_assoc in *. cbn [read_rows].
    rewrite read_escaped by (by left). cbn [mbind option_bind].
    change ("," +:+ ?x) with (String ","%char x). cbv beta iota. change (Ascii.eqb ","%char ","%char) with true. cbv beta iota.
    specialize (IH u fuel Hr). cbn [map] in IH. rewrite IH.
    2:{ rewrite !length_str_app in *. cbn [String.length] in *. cbn [map] in *. lia. }
    destruct rest as [|c r]; [done|]. cbn [length]. replace (S fuel - S (S (length cells)))%nat with (fuel - S (length cells))%nat by lia.
    destruct (Ascii.eqb c ","%char); destruct (read_rows _ r) as [[]|]; done.
Qed.

Definition csv_text (lines : list (list string)) : string := join_with newline (map csv_line lines).
Lemma read_lines lines fuel : lines <> [] -> (forall l, l ∈ lines -> l <> []) -> (String.length (csv_text lines) < fuel)%nat ->
  read_rows fuel (csv_text lines) = Some lines.
Proof.
  revert fuel. induction lines as [|l lines IH]; intros fuel Hne Hall Hfuel; [done|].
  destruct l as [|t cells]; [by destruct (Hall []); [left|]|]. destruct lines as [|l' lines].
  - unfold csv_text in *. cbn [map join_with] in *. rewrite <- (str_app_empty_r (csv_line (t :: cells))) in Hfuel |- *.
    by rewrite read_line.
  - unfold csv_text in *. cbn [map] in *. rewrite join_with_cons in *. change (newline +:+ ?x) with (String "010"%char x) in *.
    rewrite read_line; [|by right|done]. change (Ascii.eqb "010"%char ","%char) with false. cbv beta iota.
    rewrite IH; [done|done| |].
    + intros x Hx. apply Hall. by right.
    + rewrite length_str_app in Hfuel. cbn [String.length] in Hfuel.
      assert (length cells <= String.length (csv_line (t :: cells)))%nat as Hl.
      { clear. unfold csv_line. revert t. induction cells as [|u cells IH]; intros t; [cbn; lia|]. cbn [map length]. rewrite join_with_cons.
        rewrite !length_str_app. specialize (IH u). cbn [map] in IH. cbn [String.length]. lia. }
      lia.
Qed.

(** C37. The rows of a CSV file are read back. Every cell of a file, also one with commas,
    quotes or line breaks, is read as its text, in its column, under its header; and
    no text of a cell makes a spreadsheet evaluate it: where the value begins with a
    trigger of a formula, the text is the value behind an apostrophe. *)
Theorem csv_read_back (first : jsobj) (rows : list jsobj) : first <> [] ->
  read_csv (toCsv (first :: rows)) =
    Some (map (fun f => cell_text (JVal (JStr f.1))) first
          :: map (fun row => map (fun f => cell_text (js_get f.1 row)) first) (first :: rows))
  /\ (forall s, CSV_FORMULA_TRIGGER (cell_text (JVal (JStr s))) = false
        /\ (cell_text (JVal (JStr s)) = s \/ cell_text (JVal (JStr s)) = "'" +:+ s)).
Proof.
  intros Hne. split.
  - set (lines := map (fun f => cell_text (JVal (JStr f.1))) first
          :: map (fun row => map (fun f => cell_text (js_get f.1 row)) first) (first :: rows)).
    assert (toCsv (first :: rows) = csv_text lines) as ->.
    { unfold toCsv, csv_text, lines. cbv zeta.
      assert (forall row, join_with "," (map (fun key => escapeCsvCell (js_get key row)) (map fst first))
                          = csv_line (map (fun f => cell_text (js_get f.1 row)) first)) as Hrow
        by (intros row; unfold csv_line; by rewrite !map_map).
      rewrite (map_ext _ _ Hrow). clear Hrow.
      replace (join_with "," (map (fun h => escapeCsvCell (JVal (JStr h))) (map fst first)))
        with (csv_line (map (fun f => cell_text (JVal (JStr f.1))) first)) by (unfold csv_line; by rewrite !map_map).
      rewrite <- (map_map (fun row => map (fun f => cell_text (js_get f.1 row)) first) csv_line). cbn [map]. by rewrite join_with_cons. }
    apply read_lines; [done| |lia]. intros l Hl H. subst l. unfold lines in Hl.
    apply elem_of_cons in Hl as [Hl|Hl]; [by destruct first|]. apply list_elem_of_fmap in Hl as (row & Hl & _). by destruct first.
  - intros s. cbn. destruct (CSV_FORMULA_TRIGGER s) eqn:Hs; [by split; [|right]|by split; [|left]].
Qed.

Definition ex_rows : list jsobj :=
  [[("id", JVal (JNum (num_of_Z 1))); ("text", JVal (JStr "=1+1")); ("at", JDate 0)];
   [("id", JVal (JNum (num_of_Z 2))); ("text", JVal (JStr ("a," +:+ in_quotes "b" +:+ newline))); ("more", JVal JNull)]].
Lemma csv_read_back_witness :
  read_csv (toCsv ex_rows) = Some [["id"; "text"; "at"]; ["1"; "'=1+1"; "1970-01-01T00:00:00.000Z"];
                                   ["2"; "a," +:+ in_quotes "b" +:+ newline; ""]].
Proof.
  refine (eq_trans (proj1 (csv_read_back [("id", JVal (JNum (num_of_Z 1))); ("text", JVal (JStr "=1+1")); ("at", JDate 0)]
    [[("id", JVal (JNum (num_of_Z 2))); ("text", JVal (JStr ("a," +:+ in_quotes "b" +:+ newline))); ("more", JVal JNull)]] _)) _);
    [done|vm_compute; reflexivity].
Defined.
