(* ===== verification/DataExport.v ===== *)
(** * Data exports

    [src/xconfess-backend/src/data-export/data-export.service.ts] and its entities, the
    routes of [data-export.controller.ts], and the nightly [data-export-cleanup.ts].  A
    user requests an archive of their data; a worker ([ExportWorker]) builds it; a
    signed link with a one-time token downloads it within a day.  HMAC-SHA256, the
    random tokens and the row ids are parameters; each awaited query is an access, and
    the audit log, which never rejects, is a list.  The world also has the history of
    which request consumed which token. *)
From stdpp Require Import pretty.
From S2P Require Import Prelude Numbers Json Dates Effects Base64 Csv.
Open Scope Z_scope.

(** ** Data *)

(** [src data-export/data-export.service.ts:101-106 ExportHistoryStatus]; the column
    [status] takes no other value. *)
Inductive ExportStatus := PENDING | PROCESSING | READY | FAILED | EXPIRED.
#[export] Instance ExportStatus_eq_dec : EqDecision ExportStatus.
Proof. solve_decision. Defined.
Definition status_is (a b : ExportStatus) : bool := bool_decide (a = b).
Definition status_text (s : ExportStatus) : string :=
  match s with PENDING => "PENDING" | PROCESSING => "PROCESSING" | READY => "READY" | FAILED => "FAILED" | EXPIRED => "EXPIRED" end.

(** [src data-export/entities/export-request.entity.ts:10-84 ExportRequest] *)
Record ExportRequest := {
  er_id : string; er_user : string; er_status : ExportStatus; er_file : option string; er_chunked : bool;
  er_chunks : Z; er_size : string; er_sum : option string; er_created : ms;
  er_queued : option ms; er_processing : option ms; er_completed : option ms; er_failed : option ms; er_expired : option ms;
  er_retries : Z; er_failure : option string; er_token : option string; er_downloaded : option ms;
}.
#[export] Instance eta_ExportRequest : Eta ExportRequest := fun r => {|
  er_id := er_id r; er_user := er_user r; er_status := er_status r; er_file := er_file r; er_chunked := er_chunked r;
  er_chunks := er_chunks r; er_size := er_size r; er_sum := er_sum r; er_created := er_created r;
  er_queued := er_queued r; er_processing := er_processing r; er_completed := er_completed r; er_failed := er_failed r;
  er_expired := er_expired r; er_retries := er_retries r; er_failure := er_failure r; er_token := er_token r;
  er_downloaded := er_downloaded r |}.

(** [src data-export/entities/export-chunk.entity.ts:12-35 ExportChunk] *)
Record ExportChunk := { ch_request : string; ch_index : Z; ch_data : string; ch_size : Z; ch_sum : string }.

(** What the audit log keeps of an event: the action, who acts, the export, and the
    reason or count in its metadata. *)
Record AuditEvent := { au_action : string; au_actor : string; au_export : string; au_detail : string }.

(** The account and the contents an export is made of: the row of each entity, with
    the accounts linked to its anonymous author. *)
Record ExportUser := { eu_active : bool; eu_mail : string; eu_name : string }.
Record Owned := { ow_users : list string; ow_row : jsobj }.
Record UserTables := {
  tb_users : gmap Z ExportUser;
  tb_confessions : list Owned; tb_comments : list Owned; tb_messages : list Owned; tb_tips : list Owned;
  tb_reports : list (option string * Owned);
  tb_logs : list (option string * jsobj);
}.

Record ExportDB := {
  ex_clock : ms;
  ex_rows : gmap string ExportRequest;
  ex_chunks : list ExportChunk;
  ex_ids : nat;
  ex_tokens : nat;
  ex_queue_up : bool;
  ex_jobs : list (string * string);
  ex_audit : list AuditEvent;
  ex_mails : list (string * string);
  ex_tables : UserTables;
  ex_consumed : list (string * positive);
}.
#[export] Instance eta_ExportDB : Eta ExportDB := fun w => {|
  ex_clock := ex_clock w; ex_rows := ex_rows w; ex_chunks := ex_chunks w; ex_ids := ex_ids w; ex_tokens := ex_tokens w;
  ex_queue_up := ex_queue_up w; ex_jobs := ex_jobs w; ex_audit := ex_audit w; ex_mails := ex_mails w;
  ex_tables := ex_tables w; ex_consumed := ex_consumed w |}.

Inductive export_error :=
| ServiceUnavailable (m : string) | Conflict (m : string) | BadRequest (m : string) | NotFound (m : string)
| Unauthorized (m : string) | Gone (m code : string) | Failure (m : string).
Definition export_message (e : export_error) : string :=
  match e with
  | ServiceUnavailable m | Conflict m | BadRequest m | NotFound m | Unauthorized m | Gone m _ | Failure m => m
  end.
Abbreviation action := (prog ExportDB export_error).

(** The settings the service reads. *)
Record ExportConfig := {
  ENABLE_BACKGROUND_JOBS : option string;
  exportDownloadTtlMs : Z;
  DATA_EXPORT_TTL_MS : Z;
  appSecret : string;
  backendUrl : string;
  retentionDays : Z;
  auditCleanupActions : bool;
  configuredDryRun : bool;
}.

(** ** The language *)

(** [parseInt(s)]: also a hexadecimal number. *)
Fixpoint scan_hex (acc : Z) (s : string) : nat * Z :=
  match s with
  | String c s' => match hex_val c with
                   | Some d => let '(n, v) := scan_hex (acc * 16 + d) s' in (S n, v)
                   | None => (O, acc)
                   end
  | EmptyString => (O, acc)
  end.
Definition parse_int (s : string) : option Z :=
  let '(sgn, rest) := scan_sign (trim_start s) in
  if starts_with "0x" rest || starts_with "0X" rest then
    match scan_hex 0 (skip_str 2 rest) with (O, _) => None | (_, v) => Some (sgn * v) end
  else parseInt s.

Section exports.
Context (uuid token_of : nat -> string).
Context (hmac : string -> string -> string).
Context (cfg : ExportConfig).

Definition audit (a actor e d : string) (w : ExportDB) : ExportDB :=
  w <| ex_audit ::= (fun l => l ++ [{| au_action := a; au_actor := actor; au_export := e; au_detail := d |}]) |>.
Definition find_row (P : ExportRequest -> bool) (w : ExportDB) : option ExportRequest :=
  snd <$> List.find (fun p => P p.2) (map_to_list (ex_rows w)).
(** [update(criteria, change)]: the affected rows are counted. *)
Definition update_rows (P : ExportRequest -> bool) (f : ms -> ExportRequest -> ExportRequest) (w : ExportDB) : nat * ExportDB :=
  (length (filter (fun p => P p.2) (map_to_list (ex_rows w))),
   w <| ex_rows ::= fmap (fun r => if P r then f (ex_clock w) r else r) |>).
Definition update_row (i : string) (f : ms -> ExportRequest -> ExportRequest) : action unit :=
  writes (fun w => (update_rows (fun r => er_id r =s? i) f w).2).
(** [findOne({ where: { id, userId } })]. *)
Definition own_row (i u : string) (w : ExportDB) : option ExportRequest :=
  match ex_rows w !! i with
  | Some r => if er_user r =s? u then Some r else None
  | None => None
  end.

(** ** The service *)

Definition new_request (i u : string) (created queued : ms) : ExportRequest := {|
  er_id := i; er_user := u; er_status := PENDING; er_file := None; er_chunked := false; er_chunks := 0; er_size := "0";
  er_sum := None; er_created := created; er_queued := Some queued; er_processing := None; er_completed := None;
  er_failed := None; er_expired := None; er_retries := 0; er_failure := None; er_token := None; er_downloaded := None |}.
(** [save(request)]: the database draws the id. *)
Definition insert_request (u : string) (queued : ms) (w : ExportDB) : outcome export_error ExportRequest * ExportDB :=
  let i := uuid (ex_ids w) in
  let w := w <| ex_ids ::= S |> in
  match ex_rows w !! i with
  | Some _ => (Exn (Failure "duplicate key value violates unique constraint"), w)
  | None => let r := new_request i u (ex_clock w) queued in (Ok r, w <| ex_rows ::= <[i := r]> |>)
  end.
Definition enqueue (u i : string) (w : ExportDB) : outcome export_error unit * ExportDB :=
  if ex_queue_up w then (Ok tt, w <| ex_jobs ::= (fun q => q ++ [(u, i)]) |>)
  else (Exn (Failure "Connection is closed."), w).
Definition in_progress (u : string) (r : ExportRequest) : bool :=
  (er_user r =s? u) && (status_is (er_status r) PENDING || status_is (er_status r) PROCESSING).
Definition WEEK : ms := 7 * DAY.

(** [src data-export/data-export.service.ts:151-227 requestExport] *)
Definition requestExport (u : string) : action ExportRequest :=
  if negb (match ENABLE_BACKGROUND_JOBS cfg with Some v => v =s? "true" | None => false end) then
    do* writes (audit "request_created" "data-export-service" "n/a" "background_jobs_disabled") in
    Throw (ServiceUnavailable "Data export requires background job processing. Set ENABLE_BACKGROUND_JOBS=true and ensure Redis is available.")
  else
    let* activeJob := reads (find_row (in_progress u)) in
    do* guard (negb (bool_decide (is_Some activeJob))) (Conflict "An export is already in progress. Please wait for it to complete.") in
    let* recentRequest := reads (fun w => find_row (fun r => (er_user r =s? u) && (ex_clock w - WEEK <? er_created r)) w) in
    do* guard (negb (bool_decide (is_Some recentRequest))) (BadRequest "Export allowed once every 7 days.") in
    let* now := reads ex_clock in
    let* request := attempts (insert_request u now) in
    do* writes (audit "request_created" u (er_id request) (status_text (er_status request))) in
    do* attempts (enqueue u (er_id request)) in
    Ret request.

(** [src data-export/data-export.service.ts:233-239 markExportProcessing] *)
Definition markExportProcessing (i : string) : action unit :=
  let* now := reads ex_clock in
  update_row i (fun _ r => r <| er_status := PROCESSING |> <| er_processing := Some now |>).
(** [src data-export/data-export.service.ts:245-261 markExportFailed] *)
Definition markExportFailed (i reason : string) : action unit :=
  let* now := reads ex_clock in
  let* current := reads (fun w => ex_rows w !! i) in
  let retryCount := from_option er_retries 0 current + 1 in
  update_row i (fun _ r => r <| er_status := FAILED |> <| er_failed := Some now |> <| er_retries := retryCount |>
                             <| er_failure := Some reason |>).

Definition secret : string := if truthy (appSecret cfg) then appSecret cfg else "APP_SECRET_NOT_SET".
(** HMAC-SHA256 under the secret of the application, in hexadecimal. *)
Definition mac (data : string) : string := to_hex (hmac secret data).
(** [src data-export/data-export.service.ts:560-566 hashDownloadToken] *)
Definition hashDownloadToken (token : string) : string := mac token.
(** [src data-export/data-export.service.ts:568-576 secureCompare] *)
Definition secureCompare (expected actual : string) : bool := from_hex expected =s? from_hex actual.

(** What a link signs: of a whole file and of a part. *)
Definition file_data (i u expires token : string) : string := i +:+ ":" +:+ u +:+ ":" +:+ expires +:+ ":" +:+ token.
Definition part_data (i u chunk expires : string) : string := i +:+ ":" +:+ u +:+ ":" +:+ chunk +:+ ":" +:+ expires.

(** A download link: the path and query of its URL. *)
Record Link := { lk_id : string; lk_user : string; lk_expires : string; lk_signature : string;
                 lk_chunk : option string; lk_token : option string }.
Definition link_url (l : Link) : string :=
  backendUrl cfg +:+ "/api/data-export/download/" +:+ lk_id l +:+ "?userId=" +:+ lk_user l +:+ "&expires=" +:+ lk_expires l
    +:+ "&signature=" +:+ lk_signature l
    +:+ match lk_chunk l with Some c => "&chunk=" +:+ c | None => "" end
    +:+ match lk_token l with Some t => "&token=" +:+ t | None => "" end.
Definition link_data (i u expires : string) (chunk token : option string) : string :=
  match chunk with Some c => part_data i u c expires | None => file_data i u expires (default "undefined" token) end.
Definition make_link (i u expires : string) (chunk token : option string) : Link := {|
  lk_id := i; lk_user := u; lk_expires := expires; lk_signature := mac (link_data i u expires chunk token);
  lk_chunk := chunk; lk_token := token |}.
Definition draw_token (w : ExportDB) : string * ExportDB := (token_of (ex_tokens w), w <| ex_tokens ::= S |>).

(** [src data-export/data-export.service.ts:263-314 generateSignedDownloadUrl]; the
    link, of which [link_url] is the text.  The token is drawn where it is stored. *)
Definition generateSignedDownloadUrl (i u : string) (chunkIndex : option Z) : action Link :=
  let* expires := reads (fun w => pretty (ex_clock w + exportDownloadTtlMs cfg)) in
  let* token :=
    match chunkIndex with
    | Some _ => Ret None
    | None =>
        let* token := access (fun w => let '(t, w) := draw_token w in
          (t, (update_rows (fun r => er_id r =s? i)
                 (fun _ r => r <| er_token := Some (hashDownloadToken t) |> <| er_downloaded := None |>) w).2)) in
        Ret (Some token)
    end in
  let l := make_link i u expires (pretty <$> chunkIndex) token in
  do* writes (audit "link_refreshed" u i "") in
  Ret l.

(** [src data-export/data-export.service.ts:320-325 invalidateDownloadToken] *)
Definition invalidateDownloadToken (i : string) : action unit :=
  update_row i (fun now r => r <| er_token := None |> <| er_downloaded := Some now |>).

(** [src data-export/data-export.service.ts:552-558 getExpiryTimestamp] *)
Definition getExpiryTimestamp (created : ms) : ms := created + exportDownloadTtlMs cfg.
(** [src data-export/data-export.service.ts:602-608 isFileAvailable] *)
Definition isFileAvailable (now : ms) (r : ExportRequest) : bool :=
  if negb (status_is (er_status r) READY) then false else now <=? getExpiryTimestamp (er_created r).
(** [src data-export/data-export.service.ts:611-615 hasActiveToken] *)
Definition hasActiveToken (now : ms) (r : ExportRequest) : bool := isFileAvailable now r && bool_decide (is_Some (er_token r)).

(** [src data-export/data-export.service.ts:578-599 recordFailedDownloadAttempt] *)
Definition recordFailedDownloadAttempt (i reason : string) : action unit :=
  writes (audit "download_failed" "download-token-validator" i reason).

(** The rows the consuming UPDATE changes; [me] is the request, for the
    history. *)
Definition consumable (i u h : string) (r : ExportRequest) : bool :=
  (er_id r =s? i) && (er_user r =s? u) && bool_decide (er_token r = Some h) && bool_decide (er_downloaded r = None).
(** [src data-export/data-export.service.ts:389-400 update] *)
Definition consume_token (me : positive) (i u h : string) (w : ExportDB) : nat * ExportDB :=
  let '(n, w') := update_rows (consumable i u h)
                    (fun now r => r <| er_token := None |> <| er_downloaded := Some now |>) w in
  (n, if Nat.eqb n 1 then w' <| ex_consumed ::= (fun l => l ++ [(h, me)]) |> else w').

(** [src data-export/data-export.service.ts:338-422 validateAndConsumeToken] *)
Definition validateAndConsumeToken (me : positive) (i u token : string) : action bool :=
  let tokenHash := hashDownloadToken token in
  let* record := reads (own_row i u) in
  match record with
  | None => do* recordFailedDownloadAttempt i "not_found" in Ret false
  | Some r =>
      if bool_decide (is_Some (er_downloaded r))
         || negb (match er_token r with Some h => truthy h && secureCompare h tokenHash | None => false end) then
        do* recordFailedDownloadAttempt i "invalid_or_used" in Ret false
      else
        let* now := reads ex_clock in
        if negb (isFileAvailable now r) then
          do* update_row i (fun now r => r <| er_token := None |> <| er_expired := Some now |>) in
          do* writes (audit "token_expired" u i "retention_window_elapsed") in
          Ret false
        else
          let* affected := access (consume_token me i u tokenHash) in
          if negb (Nat.eqb affected 1) then do* recordFailedDownloadAttempt i "replay_race" in Ret false
          else do* writes (audit "downloaded" u i "") in Ret true
  end.

(** [src data-export/data-export.service.ts:431-467 expireStaleDownloadTokens] *)
Definition expireStaleDownloadTokens : action nat :=
  let* cutoff := reads (fun w => ex_clock w - DATA_EXPORT_TTL_MS cfg) in
  let* affected := access (update_rows
    (fun r => bool_decide (is_Some (er_token r)) && bool_decide (er_downloaded r = None) && (er_created r <? cutoff))
    (fun now r => r <| er_token := None |> <| er_expired := Some now |>)) in
  do* (if Nat.ltb 0 affected then writes (audit "export_expired" "cleanup-scheduler" "batch" (pretty (Z.of_nat affected))) else Ret tt) in
  Ret affected.

(** [src data-export/data-export.service.ts:469-506 getExportFile] *)
Definition getExportFile (i u : string) : action (option ExportRequest) :=
  let* exportRecord := reads (own_row i u) in
  match exportRecord with
  | None => Ret None
  | Some r =>
      let* now := reads ex_clock in
      if status_is (er_status r) EXPIRED || negb (isFileAvailable now r) then Ret None
      else
        do* (if er_file r is Some _ then writes (audit "downloaded" u i (status_text (er_status r))) else Ret tt) in
        Ret (Some r)
  end.

(** The column [chunkIndex] is a 32-bit integer. *)
Definition int4 (z : Z) : bool := (-2147483648 <=? z) && (z <=? 2147483647).
Definition find_chunk (i : string) (k : Z) (w : ExportDB) : option ExportChunk :=
  List.find (fun c => (ch_request c =s? i) && (ch_index c =? k)) (ex_chunks w).
(** [src data-export/data-export.service.ts:508-522 getExportChunk]; the index [None]
    is [NaN]. *)
Definition getExportChunk (i u : string) (chunkIndex : option Z) : action (option ExportChunk) :=
  let* request := reads (own_row i u) in
  let* now := reads ex_clock in
  match request with
  | Some r =>
      do* guard (isFileAvailable now r) (NotFound "Export request not found or expired") in
      match chunkIndex with
      | Some k => if int4 k then reads (find_chunk i k) else Throw (Failure "value out of range for type integer")
      | None => Throw (Failure "invalid input syntax for type integer")
      end
  | None => Throw (NotFound "Export request not found or expired")
  end.

(** [src data-export/data-export.service.ts:524-550 markExportGenerated] *)
Definition markExportGenerated (i u data : string) : action unit :=
  let* now := reads ex_clock in
  do* update_row i (fun _ r => r <| er_file := Some data |> <| er_status := READY |> <| er_completed := Some now |>) in
  writes (audit "generation_completed" "export-queue" i u).

(** [src data-export/data-export.service.ts:109-117 ExportProgress] *)
Record ExportProgress := {
  queuedAt : option ms; processingAt : option ms; completedAt : option ms; failedAt : option ms; expiredAt : option ms;
  retryCount : Z; lastFailureReason : option string }.
(** [src data-export/data-export.service.ts:119-129 ExportHistoryItem]; the URL as the
    link it has. *)
Record ExportHistoryItem := {
  hi_id : string; hi_status : ExportStatus; hi_created : ms; expiresAt : option ms; canRedownload : bool;
  canRequestNewLink : bool; downloadUrl : option Link; hi_progress : ExportProgress }.
(** [src data-export/data-export.service.ts:132-137 ExportJobStatus] *)
Record ExportJobStatus := { js_id : string; js_user : string; js_status : ExportStatus; js_progress : ExportProgress }.

(** [src data-export/data-export.service.ts:617-627 buildProgress] *)
Definition buildProgress (r : ExportRequest) : ExportProgress := {|
  queuedAt := er_queued r; processingAt := er_processing r; completedAt := er_completed r; failedAt := er_failed r;
  expiredAt := er_expired r; retryCount := er_retries r; lastFailureReason := er_failure r |}.
Definition normalized (available : bool) (r : ExportRequest) : ExportStatus :=
  if status_is (er_status r) READY && negb available then EXPIRED else er_status r.

(** [src data-export/data-export.service.ts:629-670 toHistoryItem] *)
Definition toHistoryItem (r : ExportRequest) : action ExportHistoryItem :=
  let* now := reads ex_clock in
  let expires := if status_is (er_status r) READY then Some (getExpiryTimestamp (er_created r)) else None in
  let fileAvailable := isFileAvailable now r in
  let canRedownload := hasActiveToken now r in
  let* url := if canRedownload then let* l := generateSignedDownloadUrl (er_id r) (er_user r) None in Ret (Some l) else Ret None in
  Ret {| hi_id := er_id r; hi_status := normalized fileAvailable r; hi_created := er_created r; expiresAt := expires;
         canRedownload := canRedownload; canRequestNewLink := fileAvailable && negb canRedownload;
         downloadUrl := url; hi_progress := buildProgress r |}.

Fixpoint map_each {A B} (f : A -> action B) (xs : list A) : action (list B) :=
  match xs with
  | [] => Ret []
  | x :: xs' => let* y := f x in let* ys := map_each f xs' in Ret (y :: ys)
  end.
(** The requests of a user, the latest first. *)
Definition by_created (a b : ExportRequest) : bool := er_created b <=? er_created a.
Definition user_rows (u : string) (w : ExportDB) : list ExportRequest :=
  insertion_sort by_created (filter (fun r => er_user r =s? u) (map snd (map_to_list (ex_rows w)))).

(** [src data-export/data-export.service.ts:688-700 getExportHistory]; the items of
    [Promise.all], which write different rows, one after the other. *)
Definition getExportHistory (u : string) (limit : nat) : action (list ExportHistoryItem) :=
  let* requests := reads (fun w => firstn limit (user_rows u w)) in
  map_each toHistoryItem requests.
(** [src data-export/data-export.service.ts:702-710 getLatestExport] *)
Definition getLatestExport (u : string) : action (option ExportHistoryItem) :=
  let* latestRequest := reads (fun w => head (user_rows u w)) in
  match latestRequest with
  | Some r => let* item := toHistoryItem r in Ret (Some item)
  | None => Ret None
  end.
(** [src data-export/data-export.service.ts:712-733 getRedownloadLink] *)
Definition getRedownloadLink (i u : string) : action Link :=
  let* request := reads (own_row i u) in
  let* now := reads ex_clock in
  match request with
  | Some r =>
      do* guard (isFileAvailable now r) (BadRequest "Secure download link is no longer available. Request a new export.") in
      generateSignedDownloadUrl (er_id r) (er_user r) None
  | None => Throw (BadRequest "Secure download link is no longer available. Request a new export.")
  end.
(** [src data-export/data-export.service.ts:739-764 getJobStatus] *)
Definition getJobStatus (i u : string) : action ExportJobStatus :=
  let* request := reads (own_row i u) in
  match request with
  | None => Throw (NotFound "Export request not found or unauthorized")
  | Some r =>
      let* now := reads ex_clock in
      Ret {| js_id := er_id r; js_user := er_user r; js_status := normalized (isFileAvailable now r) r; js_progress := buildProgress r |}
  end.

(** ** The routes *)

(** [src data-export/data-export.controller.ts:108-116 history] *)
Definition history (u : string) : action (option ExportHistoryItem * list ExportHistoryItem) :=
  let* latest := getLatestExport u in
  let* items := getExportHistory u 20 in
  Ret (latest, items).

(** What a download answers: a part, the list of the parts, or the whole file. *)
Inductive Download :=
| Part (filename : string) (c : ExportChunk)
| Manifest (chunkCount : Z) (totalSize : string) (checksum : option string) (links : list Link)
| File (filename : string) (data : string).

Definition failed_unless_part (chunk : option (option Z)) (i reason : string) : action unit :=
  match chunk with None => recordFailedDownloadAttempt i reason | Some _ => Ret tt end.
Definition invalid_link : export_error := Unauthorized "Invalid download link.".

(** [src data-export/data-export.controller.ts:148-278 download]; the query parameters
    may be absent. *)
Definition download (me : positive) (i : string) (userId expires signature chunk token : option string) : action Download :=
  let* now := reads ex_clock in
  do* guard (match expires ≫= parse_int with Some e => negb (e <? now) | None => false end)
        (Gone "Download link has expired." "EXPORT_LINK_EXPIRED") in
  let expires := default "" expires in
  let chunkIndex := parse_int <$> chunk in
  if negb (truthy_opt userId && truthy_opt signature) then
    do* failed_unless_part chunkIndex i "invalid_signature" in Throw invalid_link
  else
  let u := default "" userId in let signature := default "" signature in
  if negb (bool_decide (is_Some chunkIndex)) && negb (truthy_opt token) then
    do* recordFailedDownloadAttempt i "missing_token" in Throw invalid_link
  else
  let dataToVerify := link_data i u expires (num_str <$> chunkIndex) token in
  if negb (signature =s? mac dataToVerify) then
    do* failed_unless_part chunkIndex i "invalid_signature" in Throw invalid_link
  else
  match chunkIndex with
  | Some k =>
      let* exportChunk := getExportChunk i u k in
      match exportChunk with
      | Some c => Ret (Part ("xconfess-data-" +:+ u +:+ "-part" +:+ num_str (Z.succ <$> k) +:+ ".zip") c)
      | None => Throw (NotFound "Chunk not found.")
      end
  | None =>
      let* valid := validateAndConsumeToken me i u (default "" token) in
      do* guard valid (Gone "Download link has already been used or has expired. Request a new link." "EXPORT_TOKEN_EXPIRED") in
      let* exportReq := getExportFile i u in
      match exportReq with
      | Some r =>
          do* guard (bool_decide (is_Some (er_file r)) || er_chunked r) (NotFound "Export not found or expired") in
          if er_chunked r then
            let* downloadUrls := map_each (fun k => generateSignedDownloadUrl i u (Some k)) (seqZ 0 (er_chunks r)) in
            Ret (Manifest (er_chunks r) (er_size r) (er_sum r) downloadUrls)
          else
            match er_file r with
            | Some d => Ret (File ("xconfess-data-" +:+ u +:+ ".zip") d)
            | None => Throw (NotFound "Export not found or expired")
            end
      | None => Throw (NotFound "Export not found or expired")
      end
  end.

(** ** The nightly cleanup *)

(** [src data-export/data-export-cleanup.ts:18-28 CleanupRunResult] *)
Record CleanupRunResult := {
  cr_dryRun : bool; cr_retentionDays : Z; cr_cutoff : string; eligibleCount : nat; expiredCount : nat; chunkCount : nat;
  statusCounts : list (string * Z); requestIds : list string; omittedRequestIds : Z }.

(** [src data-export/data-export-cleanup.ts:30-30 CLEANUP_ELIGIBLE_STATUSES] *)
Definition CLEANUP_ELIGIBLE_STATUSES : list ExportStatus := [PENDING; PROCESSING; READY; FAILED; EXPIRED].
(** [src data-export/data-export-cleanup.ts:59-63 getRetentionCutoff] *)
Definition getRetentionCutoff (now : ms) : ms := now - retentionDays cfg * DAY.
Definition outdated (cutoff : ms) (r : ExportRequest) : bool :=
  (er_created r <? cutoff) && existsb (status_is (er_status r)) CLEANUP_ELIGIBLE_STATUSES.

Fixpoint count_up (k : string) (counts : list (string * Z)) : list (string * Z) :=
  match counts with
  | [] => [(k, 1)]
  | (k', n) :: counts' => if k' =s? k then (k', n + 1) :: counts' else (k', n) :: count_up k counts'
  end.
(** [src data-export/data-export-cleanup.ts:162-190 buildSummary] *)
Definition buildSummary (exports : list ExportRequest) (cutoff : ms) (chunkCount expiredCount : nat) (dryRun : bool) : CleanupRunResult :=
  let requestIds := firstn 10 (map er_id exports) in {|
  cr_dryRun := dryRun; cr_retentionDays := retentionDays cfg; cr_cutoff := toISOString cutoff;
  eligibleCount := length exports; expiredCount := expiredCount; chunkCount := chunkCount;
  statusCounts := fold_left (fun counts r => count_up (status_text (er_status r)) counts) exports [];
  requestIds := requestIds; omittedRequestIds := Z.max (Z.of_nat (length exports) - Z.of_nat (length requestIds)) 0 |}.

Definition of_requests (ids : list string) (c : ExportChunk) : bool := includes (ch_request c) ids.

(** [src data-export/data-export-cleanup.ts:74-160 runCleanup]; the log lines are left
    out, and the audit log never rejects. *)
Definition runCleanup (dryRun : bool) : action CleanupRunResult :=
  let* cutoff := reads (fun w => getRetentionCutoff (ex_clock w)) in
  let* eligibleExports := reads (fun w => filter (outdated cutoff) (map snd (map_to_list (ex_rows w)))) in
  let ids := map er_id eligibleExports in
  let* chunkCount := match ids with
                     | [] => Ret 0%nat
                     | _ => reads (fun w => length (filter (of_requests ids) (ex_chunks w)))
                     end in
  let* expiredCount :=
    match eligibleExports with
    | [] => Ret 0%nat
    | _ =>
        if dryRun then Ret 0%nat
        else
          do* writes (fun w => w <| ex_chunks ::= filter (fun c => of_requests ids c = false) |>) in
          access (update_rows (outdated cutoff) (fun now r =>
            r <| er_file := None |> <| er_status := EXPIRED |> <| er_expired := Some now |> <| er_token := None |>))
    end in
  let summary := buildSummary eligibleExports cutoff chunkCount expiredCount dryRun in
  do* (if auditCleanupActions cfg
       then writes (audit "export_retention_cleanup" "retention-cleanup-scheduler" "data_export_retention" (pretty (Z.of_nat (eligibleCount summary))))
       else Ret tt) in
  Ret summary.
(** [src data-export/data-export-cleanup.ts:66-68 purgeOldExports] *)
Definition purgeOldExports : action CleanupRunResult := runCleanup (configuredDryRun cfg).
End exports.
