(* ===== verification/ExportWorker.v ===== *)
(** * The worker of data exports

    [src/xconfess-backend/src/data-export/export.processor.ts], and what an export
    holds: [compileUserData] of [data-export.service.ts] with its redaction of the
    contents that were deleted, moderated or that name other people.  The archiver
    (the pieces its stream writes), SHA-256 and the mail service are parameters; a
    stored text is ASCII, so that its length is that of its bytes. *)
From stdpp Require Import pretty.
From S2P Require Import Prelude Numbers Json Dates Effects Base64 Csv DataExport.
Open Scope Z_scope.

(** ** The language *)

(** [JSON.stringify(j, null, 2)]. *)
Fixpoint stringify_at (ind : string) (j : json) : string :=
  let ind' := ind +:+ "  " in
  match j with
  | JArr [] => "[]"
  | JObj [] => "{}"
  | JArr l => "[" +:+ newline +:+ join_with ("," +:+ newline) (map (fun x => ind' +:+ stringify_at ind' x) l)
                +:+ newline +:+ ind +:+ "]"
  | JObj fs => "{" +:+ newline
                +:+ join_with ("," +:+ newline) (map (fun f => ind' +:+ quote f.1 +:+ ": " +:+ stringify_at ind' f.2) fs)
                +:+ newline +:+ ind +:+ "}"
  | _ => stringify j
  end.
Definition js_truthy (v : jsval) : bool :=
  match v with JUndef => false | JDate _ => true | JVal j => json_truthy j end.
(** [o.k?.id]. *)
Definition js_id_of (k : string) (o : jsobj) : jsval :=
  match js_get k o with
  | JVal j => match json_get "id" j with Some v => JVal v | None => JUndef end
  | _ => JUndef
  end.
(** [o.k?.length || 0] of a text. *)
Definition js_length (v : jsval) : Z :=
  match v with JVal (JStr s) => Z.of_nat (String.length s) | _ => 0 end.
Definition jstr (s : string) : jsval := JVal (JStr s).
Definition jbool (b : bool) : jsval := JVal (JBool b).

(** ** Redaction *)

Definition redacted_by (reason : string) : jsobj := [("_redacted", jbool true); ("_reason", jstr reason)].
(** The fields [ks] of a row. *)
Definition pick (ks : list string) (o : jsobj) : jsobj := map (fun k => (k, js_get k o)) ks.

Definition isDeleted (c : jsobj) : bool := js_truthy (js_get "isDeleted" c) || js_truthy (js_get "deletedAt" c).
Definition isModerated (c : jsobj) : bool :=
  js_truthy (js_get "isHidden" c)
  || match js_get "moderationStatus" c with JVal (JStr s) => s =s? "rejected" | _ => false end.

(** [src data-export/data-export.service.ts:869-928 redactConfessionForExport] *)
Definition redactConfessionForExport (c : jsobj) (user : ExportUser) : jsobj :=
  if isDeleted c then
    pick ["id"] c ++ [("message", jstr "[REDACTED: Content was deleted]")] ++ redacted_by "deleted"
      ++ pick ["deletedAt"; "created_at"] c
      ++ [("metadata", JVal (jsobj_json [("wasAnchored", js_get "isAnchored" c); ("hadReactions", jbool true)]))]
  else if isModerated c then
    pick ["id"] c ++ [("message", jstr "[REDACTED: Content was removed by moderation]")] ++ redacted_by "moderated"
      ++ pick ["moderationStatus"; "created_at"] c
      ++ [("metadata", JVal (jsobj_json (pick ["moderationScore"; "moderationFlags"] c)))]
  else if negb (eu_active user) then
    pick ["id"] c ++ [("message", jstr "[REDACTED: User account deactivated]")] ++ redacted_by "user_deactivated"
      ++ pick ["created_at"] c
      ++ [("metadata", JVal (jsobj_json [("originalLength", JVal (JNum (num_of_Z (js_length (js_get "message" c)))))]))]
  else
    pick ["id"; "message"; "gender"; "created_at"; "view_count"; "isAnchored"; "stellarTxHash"] c ++ [("_redacted", jbool false)].

(** [src data-export/data-export.service.ts:933-967 redactCommentForExport] *)
Definition redactCommentForExport (c : jsobj) (user : ExportUser) : jsobj :=
  if js_truthy (js_get "isDeleted" c) then
    pick ["id"] c ++ [("content", jstr "[REDACTED: Comment was deleted]")] ++ redacted_by "deleted"
      ++ pick ["createdAt"] c ++ [("confessionId", js_id_of "confession" c)]
  else if negb (eu_active user) then
    pick ["id"] c ++ [("content", jstr "[REDACTED: User account deactivated]")] ++ redacted_by "user_deactivated"
      ++ pick ["createdAt"] c ++ [("confessionId", js_id_of "confession" c)]
  else
    pick ["id"; "content"; "createdAt"] c ++ [("confessionId", js_id_of "confession" c)] ++ pick ["parentId"] c
      ++ [("_redacted", jbool false)].

(** [src data-export/data-export.service.ts:972-998 redactMessageForExport] *)
Definition redactMessageForExport (m : jsobj) (user : ExportUser) : jsobj :=
  if negb (eu_active user) then
    pick ["id"] m ++ [("content", jstr "[REDACTED: User account deactivated]");
                      ("replyContent", if js_truthy (js_get "replyContent" m) then jstr "[REDACTED: User account deactivated]" else JVal JNull)]
      ++ redacted_by "user_deactivated" ++ pick ["createdAt"] m ++ [("confessionId", js_id_of "confession" m)]
  else
    pick ["id"; "content"; "replyContent"; "createdAt"; "repliedAt"] m ++ [("confessionId", js_id_of "confession" m)]
      ++ [("_redacted", jbool false)].

(** [src data-export/data-export.service.ts:1000-1011 redactTipForExport] *)
Definition redactTipForExport (t : jsobj) : jsobj :=
  pick ["id"; "amount"; "verificationStatus"; "confessionId"; "createdAt"] t
    ++ [("senderAddress", jstr "[REDACTED]")] ++ redacted_by "counterpart_privacy".
(** [src data-export/data-export.service.ts:1013-1028 redactReportForExport] *)
Definition redactReportForExport (r : jsobj) : jsobj :=
  pick ["id"; "confessionId"; "type"; "reason"; "status"; "createdAt"; "resolvedAt"; "resolutionNotes"] r
    ++ [("resolver", jstr "[REDACTED]"); ("resolvedBy", JVal JNull)] ++ redacted_by "counterpart_privacy".
(** [src data-export/data-export.service.ts:1030-1044 redactModerationLogForExport] *)
Definition redactModerationLogForExport (l : jsobj) : jsobj :=
  pick ["id"; "confessionId"; "moderationScore"; "moderationFlags"; "moderationStatus"; "createdAt"; "reviewedAt"; "reviewNotes"] l
    ++ [("reviewedBy", jstr "[REDACTED]")] ++ redacted_by "counterpart_privacy".

(** ** The contents *)

(** The lists of an export, and the text they become. *)
Record UserData := {
  ud_user : string; ud_at : ms; ud_active : bool; ud_confessions : list jsobj; ud_comments : list jsobj;
  ud_messages : list jsobj; ud_tips : list jsobj; ud_reports : list jsobj; ud_logs : list jsobj }.
Definition rows_json (rows : list jsobj) : json := JArr (map jsobj_json rows).
(** The object [compileUserData] returns. *)
Definition data_json (d : UserData) : json := JObj [
  ("userId", JStr (ud_user d)); ("exportedAt", JStr (toISOString (ud_at d)));
  ("userStatus", JStr (if ud_active d then "active" else "deactivated"));
  ("confessions", rows_json (ud_confessions d)); ("comments", rows_json (ud_comments d));
  ("messages", rows_json (ud_messages d)); ("tips", rows_json (ud_tips d)); ("reports", rows_json (ud_reports d));
  ("moderationLogs", rows_json (ud_logs d)); ("reactions", JArr []);
  ("_redactionPolicy", JObj [
    ("description", JStr "Content redacted according to deletion and moderation policies");
    ("deletedContentMasked", JBool true); ("moderatedContentMasked", JBool true);
    ("deactivatedUserContentMasked", JBool (negb (ud_active d)))])].

(** The account of an id, which [String(req.user.id)] wrote. *)
Definition user_of (u : string) (t : UserTables) : option ExportUser := parse_int u ≫= fun i => tb_users t !! i.
Definition owned_by (u : string) (rows : list Owned) : list jsobj := map ow_row (filter (fun o => includes u (ow_users o)) rows).
Definition names (u : string) (o : option string) : bool := match o with Some v => v =s? u | None => false end.
Definition reports_of (u : string) (rows : list (option string * Owned)) : list jsobj :=
  map (fun p => ow_row p.2) (filter (fun p => names u p.1 || includes u (ow_users p.2)) rows).
Definition logs_of (u : string) (rows : list (option string * jsobj)) : list jsobj :=
  map snd (filter (fun p => names u p.1) rows).

(** [src data-export/data-export.service.ts:766-864 compileUserData] *)
Definition compileUserData (u : string) : action UserData :=
  let* user := reads (fun w => user_of u (ex_tables w)) in
  let* user := of_option user (NotFound "User not found") in
  let* confessions := reads (fun w => owned_by u (tb_confessions (ex_tables w))) in
  let* comments := reads (fun w => owned_by u (tb_comments (ex_tables w))) in
  let* messages := reads (fun w => owned_by u (tb_messages (ex_tables w))) in
  let* tips := reads (fun w => owned_by u (tb_tips (ex_tables w))) in
  let* reports := reads (fun w => reports_of u (tb_reports (ex_tables w))) in
  let* moderationLogs := reads (fun w => logs_of u (tb_logs (ex_tables w))) in
  let* now := reads ex_clock in
  Ret {| ud_user := u; ud_at := now; ud_active := eu_active user;
         ud_confessions := map (fun c => redactConfessionForExport c user) confessions;
         ud_comments := map (fun c => redactCommentForExport c user) comments;
         ud_messages := map (fun m => redactMessageForExport m user) messages;
         ud_tips := map redactTipForExport tips;
         ud_reports := map redactReportForExport reports;
         ud_logs := map redactModerationLogForExport moderationLogs |}.

(** [src data-export/data-export.service.ts:1046-1048 convertToCsv] *)
Definition convertToCsv (data : list jsobj) : string := toCsv data.
(** The files that are appended to the archive. *)
Definition archive_files (d : UserData) : list (string * string) :=
  [("complete_data.json", stringify_at "" (data_json d)); ("confessions.csv", convertToCsv (ud_confessions d))].

(** ** The archive in parts *)

(** [src data-export/export.processor.ts:20-20 CHUNK_SIZE_LIMIT] *)
Definition CHUNK_SIZE_LIMIT : Z := 10 * 1024 * 1024.

Section worker.
Context (hmac : string -> string -> string) (sha256 : string -> string).
Context (zip : list (string * string) -> outcome string (list string)).
Context (mail_error : string -> string -> option string).
Context (cfg : ExportConfig).

Definition size (s : string) : Z := Z.of_nat (String.length s).
Definition concat_str (bufs : list string) : string := fold_right String.append "" bufs.
(** The variables of [generateChunkedZip]; [sp_hashed] is what [combinedHash] has read. *)
Record Splitter := { sp_bufs : list string; sp_size : Z; sp_count : Z; sp_total : Z; sp_hashed : string }.
Definition splitter0 : Splitter := {| sp_bufs := []; sp_size := 0; sp_count := 0; sp_total := 0; sp_hashed := "" |}.

(** [src data-export/export.processor.ts:98-110 saveChunk] *)
Definition saveChunk (i : string) (buffer : string) (index : Z) : action unit :=
  writes (fun w => w <| ex_chunks ::= (fun l => l ++ [{| ch_request := i; ch_index := index; ch_data := buffer;
                                                         ch_size := size buffer; ch_sum := sha256 buffer |}]) |>).
(** [src data-export/export.processor.ts:113-134 write] *)
Definition write_piece (limit : Z) (i : string) (buf : string) (s : Splitter) : action Splitter :=
  let hashed := sp_hashed s +:+ buf in let total := sp_total s + size buf in
  let bufs := sp_bufs s ++ [buf] in let n := sp_size s + size buf in
  if limit <=? n then
    do* saveChunk i (concat_str bufs) (sp_count s) in
    Ret {| sp_bufs := []; sp_size := 0; sp_count := sp_count s + 1; sp_total := total; sp_hashed := hashed |}
  else Ret {| sp_bufs := bufs; sp_size := n; sp_count := sp_count s; sp_total := total; sp_hashed := hashed |}.
(** [src data-export/export.processor.ts:135-145 final] *)
Definition final_piece (i : string) (s : Splitter) : action Splitter :=
  match sp_bufs s with
  | [] => Ret s
  | bufs =>
      do* saveChunk i (concat_str bufs) (sp_count s) in
      Ret {| sp_bufs := bufs; sp_size := sp_size s; sp_count := sp_count s + 1; sp_total := sp_total s; sp_hashed := sp_hashed s |}
  end.
(** [src data-export/export.processor.ts:82-172 generateChunkedZip]: the number of
    parts, their size and the checksum of all. *)
Definition generateChunkedZip (i : string) (data : UserData) : action (Z * Z * string) :=
  match zip (archive_files data) with
  | Exn e => Throw (Failure e)
  | Ok pieces =>
      let* s := fold_each pieces (write_piece CHUNK_SIZE_LIMIT i) splitter0 in
      let* s := final_piece i s in
      Ret (sp_count s, sp_total s, sha256 (sp_hashed s))
  end.

Definition sendWelcomeEmail (address name : string) : action unit :=
  attempts (fun w => match mail_error address name with
                     | Some e => (Exn (Failure e), w)
                     | None => (Ok tt, w <| ex_mails ::= (fun l => l ++ [(address, name)]) |>)
                     end).

(** [src data-export/export.processor.ts:36-80 process] *)
Definition process (jobName userId requestId : string) : action unit :=
  if negb (jobName =s? "process-export") then Ret tt
  else
    try_catch
      (do* markExportProcessing requestId in
       let* data := compileUserData userId in
       let* result := generateChunkedZip requestId data in
       let '(chunkCount, totalSize, combinedChecksum) := result in
       do* update_row requestId (fun _ r => r <| er_status := READY |> <| er_chunked := true |> <| er_chunks := chunkCount |>
                                              <| er_size := pretty totalSize |> <| er_sum := Some combinedChecksum |>) in
       let* now := reads ex_clock in
       do* update_row requestId (fun _ r => r <| er_completed := Some now |>) in
       let* user := reads (fun w => user_of userId (ex_tables w)) in
       match user with
       | Some user => if truthy (eu_mail user) then sendWelcomeEmail (eu_mail user) (eu_name user) else Ret tt
       | None => Ret tt
       end)
      (fun error => markExportFailed requestId (export_message error)).
End worker.
