(* ===== verification/ExportSafety.v ===== *)
(** * What data exports promise

    Theorems on [DataExport] and [ExportWorker]: a download link opens once, however
    requests interleave; the parts of an archive are the archive; nothing of what was
    deleted or moderated, and no counterpart, is in an export; and the cleanup erases.
    The last section shows where the code does not do what its comments say. *)
From stdpp Require Import pretty.
From S2P Require Import Prelude Numbers Json Dates Effects Base64 Csv DataExport ExportWorker.
Open Scope Z_scope.

(** ** Single use *)
Section single_use.
Context (token_of : nat -> string) (hmac : string -> string -> string) (cfg : ExportConfig).
Abbreviation hash := (mac hmac cfg).
Context (tokens_differ : forall m n, hash (token_of m) = hash (token_of n) -> m = n).

Definition issued (w : ExportDB) (h : string) : Prop := exists n, (n < ex_tokens w)%nat /\ h = hash (token_of n).
Record export_inv (w : ExportDB) : Prop := {
  xi_id : forall i r, ex_rows w !! i = Some r -> er_id r = i;
  xi_issued : forall i r h, ex_rows w !! i = Some r -> er_token r = Some h -> issued w h /\ h ∉ map fst (ex_consumed w);
  xi_own : forall i j r r' h, ex_rows w !! i = Some r -> ex_rows w !! j = Some r' ->
             er_token r = Some h -> er_token r' = Some h -> i = j;
  xi_once : NoDup (map fst (ex_consumed w));
  xi_consumed : forall h, h ∈ map fst (ex_consumed w) -> issued w h;
}.
Record export_guar (w w' : ExportDB) : Prop := {
  xg_rows : forall i r, ex_rows w !! i = Some r -> exists r', ex_rows w' !! i = Some r' /\ er_user r' = er_user r;
  xg_log : forall e, e ∈ ex_consumed w -> e ∈ ex_consumed w';
}.
Abbreviation G := (fun _ : positive => export_guar).
Abbreviation spec := (@rg ExportDB export_error export_inv G).

Abbreviation keeps := (keeps export_inv export_guar).
(** A change of a row that sets no token. *)
Definition mild (f : ms -> ExportRequest -> ExportRequest) : Prop :=
  forall now r, er_id (f now r) = er_id r /\ er_user (f now r) = er_user r /\ (er_token (f now r) = er_token r \/ er_token (f now r) = None).

Lemma export_guar_refl w : export_guar w w.
Proof. split; eauto. Qed.
Lemma keeps_same f :
  (forall w, ex_rows (f w) = ex_rows w /\ ex_tokens (f w) = ex_tokens w /\ ex_consumed (f w) = ex_consumed w) -> keeps f.
Proof.
  intros H w [H1 H2 H3 H4 H5]. destruct (H w) as (Hr & Ht & Hc). split; split; unfold issued in *; rewrite ?Hr, ?Ht, ?Hc; eauto.
Qed.
Lemma keeps_audit a b c d : keeps (audit a b c d).
Proof. by apply keeps_same. Qed.

Lemma update_rows_lookup P f w i r' :
  ex_rows (update_rows P f w).2 !! i = Some r' <-> exists r, ex_rows w !! i = Some r /\ r' = if P r then f (ex_clock w) r else r.
Proof. cbn. rewrite lookup_fmap_Some. naive_solver. Qed.
Lemma keeps_update P f : mild f -> keeps (fun w => (update_rows P f w).2).
Proof.
  intros Hf w [H1 H2 H3 H4 H5].
  assert (forall r, let r' := if P r then f (ex_clock w) r else r in
            er_id r' = er_id r /\ er_user r' = er_user r /\ forall h, er_token r' = Some h -> er_token r = Some h) as Hm.
  { intros r. cbn. destruct (P r); [|done]. destruct (Hf (ex_clock w) r) as (? & ? & [Ht|Ht]); rewrite Ht; split_and!; done. }
  split; split; try done.
  - intros i r' (r & Hr & ->)%update_rows_lookup. rewrite (proj1 (Hm r)). by apply H1.
  - intros i r' h (r & Hr & ->)%update_rows_lookup Hh. eapply (H2 i r); [done|]. by apply Hm.
  - intros i j r1 r2 h (r & Hr & ->)%update_rows_lookup (s & Hs & ->)%update_rows_lookup Ha Hb.
    eapply H3; [exact Hr|exact Hs|by apply Hm|by apply Hm].
  - intros i r Hr. eexists. rewrite update_rows_lookup. split; [eauto|]. apply Hm.
Qed.

(** The update that stores a new token. *)
Lemma keeps_issue i :
  keeps (fun w => (update_rows (fun r => er_id r =s? i)
    (fun _ r => r <| er_token := Some (hashDownloadToken hmac cfg (token_of (ex_tokens w))) |> <| er_downloaded := None |>)
    (w <| ex_tokens ::= S |>)).2).
Proof.
  intros w [H1 H2 H3 H4 H5]. set (h := hashDownloadToken hmac cfg (token_of (ex_tokens w))).
  assert (forall x, issued w x -> x <> h) as Hnew.
  { intros x (n & Hn & ->) Heq. apply tokens_differ in Heq. lia. }
  split; split; try done.
  - intros j r' (r & Hr & ->)%update_rows_lookup. pose proof (H1 j r Hr) as Hj. by destruct (er_id r =s? i).
  - intros j r' x (r & Hr & ->)%update_rows_lookup. destruct (er_id r =s? i) eqn:Hi.
    + intros [= <-]. split; [exists (ex_tokens w); cbn; split; [lia|done]|]. intros Hc. by apply (Hnew _ (H5 _ Hc)).
    + intros Hx. destruct (H2 _ _ _ Hr Hx) as ((n & Hn & ->) & Hc). split; [|done]. exists n. cbn. split; [lia|done].
  - intros j k r1 r2 x (r & Hr & ->)%update_rows_lookup (s & Hs & ->)%update_rows_lookup.
    cbn in Hr, Hs. pose proof (H1 _ _ Hr). pose proof (H1 _ _ Hs).
    destruct (str_eqb_spec (er_id r) i), (str_eqb_spec (er_id s) i); cbn; [congruence| | |by eauto].
    + intros [= <-] Hx. by destruct (Hnew _ (proj1 (H2 _ _ _ Hs Hx))).
    + intros Hx [= <-]. by destruct (Hnew _ (proj1 (H2 _ _ _ Hr Hx))).
  - intros x Hx. destruct (H5 _ Hx) as (n & Hn & ->). exists n. cbn. split; [lia|done].
  - intros j r Hr. eexists. rewrite update_rows_lookup. split; [eauto|]. by destruct (er_id r =s? i).
Qed.

Lemma keeps_insert uuid u q : keeps (fun w => (insert_request uuid u q w).2).
Proof.
  intros w HI. unfold insert_request. destruct (_ !! _) as [r|] eqn:Hi; [by apply keeps_same|]. cbn in Hi. destruct HI as [H1 H2 H3 H4 H5].
  split; split; cbn; try done.
  - intros j r [[<- <-]|[? Hr]]%lookup_insert_Some; [done|by apply H1].
  - intros j r h [[<- <-]|[? Hr]]%lookup_insert_Some; [done|by apply (H2 j)].
  - intros j k r s h [[<- <-]|[? Hr]]%lookup_insert_Some [[<- <-]|[? Hs]]%lookup_insert_Some; cbn; [done..|by apply H3].
  - intros j r Hr. exists r. split; [|done]. rewrite lookup_insert_ne; [done|]. intros <-. congruence.
Qed.

(** The update that consumes a token wins only for one nobody has consumed. *)
Definition won (t : positive) (h : string) (w : ExportDB) : Prop := (h, t) ∈ ex_consumed w.
Lemma consume_row i u h w :
  export_inv w -> length (filter (fun p => consumable i u h p.2) (map_to_list (ex_rows w))) = 1%nat ->
  exists r, ex_rows w !! i = Some r /\ er_user r = u /\ er_token r = Some h /\ er_downloaded r = None.
Proof.
  intros HI Hl. destruct (filter _ _) as [|[j r] l] eqn:Hf; [done|].
  assert ((j, r) ∈ filter (fun p => consumable i u h p.2) (map_to_list (ex_rows w))) as Hin by (rewrite Hf; by left).
  apply list_elem_of_filter in Hin as [Hp%Is_true_true Hin%elem_of_map_to_list]. cbn in Hp. unfold consumable in Hp.
  apply andb_true_iff in Hp as [[[Hi%str_eqb_eq Hu%str_eqb_eq]%andb_true_iff Ht%bool_decide_eq_true]%andb_true_iff Hd%bool_decide_eq_true].
  pose proof (xi_id _ HI _ _ Hin) as Hj. exists r. split_and!; congruence.
Qed.

Lemma consume_token_ok t i u h w :
  export_inv w ->
  export_inv (consume_token t i u h w).2 /\ export_guar w (consume_token t i u h w).2
  /\ ((consume_token t i u h w).1 = 1%nat -> won t h (consume_token t i u h w).2).
Proof.
  intros HI. unfold consume_token. cbn [update_rows fst snd].
  set (P := consumable i u h).
  set (f := fun (now : ms) (r : ExportRequest) => r <| er_token := None |> <| er_downloaded := Some now |>).
  assert (mild f) as Hf by (intros now r; cbn; auto).
  destruct (keeps_update P f Hf w HI) as [HI' HG']. destruct (Nat.eqb_spec (length (filter (fun p => P p.2) (map_to_list (ex_rows w)))) 1) as [He|Hne];
    [|split_and!; [exact HI'|exact HG'|intros He; by destruct (Hne He)]].
  destruct (consume_row i u h w HI He) as (r & Hr & Hu & Ht & Hd). destruct (xi_issued _ HI _ _ _ Hr Ht) as [Hh Hc].
  cbn [update_rows] in HI'. destruct HI' as [H1 H2 H3 H4 H5]. split_and!.
  - split; cbn [ex_consumed ex_rows set_field]; [done| |done| |].
    + intros j s x Hs Hx. destruct (H2 j s x Hs Hx) as [Hi Hnc]. split; [done|]. rewrite map_app. intros [Hin|Hin]%elem_of_app; [done|].
      apply list_elem_of_singleton in Hin as ->. apply (update_rows_lookup P f w) in Hs as (s0 & Hs0 & ->).
      assert (er_token s0 = Some h) as Hs0h by (destruct (P s0); [done|exact Hx]).
      assert (j = i) as -> by (eapply (xi_own _ HI); [exact Hs0|exact Hr|done|done]).
      assert (s0 = r) as -> by congruence. unfold P, consumable in Hx.
      rewrite (xi_id _ HI _ _ Hr), Hu, !str_eqb_refl, !bool_decide_true in Hx by done. done.
    + rewrite map_app. cbn. apply NoDup_app. split; [exact H4|]. split; [|apply NoDup_singleton].
      intros x Hx Hx'%list_elem_of_singleton. subst x. exact (Hc Hx).
    + intros x. rewrite map_app. intros [Hin|Hin]%elem_of_app; [by apply H5|]. cbn in Hin. by apply list_elem_of_singleton in Hin as ->.
  - destruct HG' as [Hg1 Hg2]. split; cbn; [exact Hg1|]. intros e Hin. apply elem_of_app. by left.
  - intros _. unfold won. cbn. apply elem_of_app. right. by apply list_elem_of_singleton.
Qed.

(** *** Requests among others *)

Abbreviation tame := (@tame ExportDB export_error export_inv export_guar).
Lemma tame_map {A B} (f : A -> action B) xs : (forall x, tame (f x)) -> tame (map_each f xs).
Proof.
  intros Hf. induction xs as [|x xs IH]; [apply tame_ret|]. apply tame_bind; [apply Hf|]. intros y. apply tame_bind; [done|].
  intros ys. apply tame_ret.
Qed.
Lemma tame_audit a b c d : tame (writes (audit a b c d)).
Proof. apply tame_writes, keeps_audit. Qed.
Lemma tame_row i f : mild f -> tame (update_row i f).
Proof. intros Hf. by apply tame_writes, keeps_update. Qed.
Lemma tame_update P f : mild f -> tame (access (update_rows P f)).
Proof. intros Hf. by apply tame_access, keeps_update. Qed.
Lemma tame_issue i u k : tame (generateSignedDownloadUrl token_of hmac cfg i u k).
Proof using tokens_differ.
  apply tame_bind; [apply tame_reads, export_guar_refl|]. intros e. apply tame_bind.
  - destruct k; [apply tame_ret|]. apply tame_bind; [|intros; apply tame_ret]. apply tame_access, keeps_issue.
  - intros o. apply tame_bind; [apply tame_audit|]. intros _. apply tame_ret.
Qed.
End single_use.
#[export] Hint Resolve export_guar_refl tame_audit tame_issue : tame.
Ltac export_step :=
  first
  [ solve [eauto with tame]
  | match goal with |- mild _ => by intros ?? ; cbn; auto end
  | apply tame_map; intros ?
  | apply tame_row | apply tame_update | apply keeps_insert
  | tame_step ].

Section programs.
Context (uuid token_of : nat -> string) (hmac : string -> string -> string) (sha256 : string -> string).
Context (zip : list (string * string) -> outcome string (list string)) (mail_error : string -> string -> option string).
Context (cfg : ExportConfig).
Context (tokens_differ : forall m n, mac hmac cfg (token_of m) = mac hmac cfg (token_of n) -> m = n).
Abbreviation tame := (@tame ExportDB export_error (export_inv token_of hmac cfg) export_guar).
Abbreviation lasting := (lasting export_guar).
Abbreviation spec := (@rg ExportDB export_error (export_inv token_of hmac cfg) (fun _ => export_guar)).

Lemma tame_requestExport u : tame (requestExport uuid cfg u).
Proof.
  unfold requestExport. repeat export_step.
  intros w HI. unfold enqueue. destruct (ex_queue_up w); [|by split; [|apply export_guar_refl]].
  by apply (keeps_same token_of hmac cfg (fun w => w <| ex_jobs ::= _ |>)).
Qed.
Lemma tame_history u : tame (history token_of hmac cfg u).
Proof using tokens_differ. unfold history, getLatestExport, getExportHistory, toHistoryItem. repeat export_step. Qed.
Lemma tame_redownload i u : tame (getRedownloadLink token_of hmac cfg i u).
Proof using tokens_differ. unfold getRedownloadLink. repeat export_step. Qed.
Lemma tame_status i u : tame (getJobStatus cfg i u).
Proof. unfold getJobStatus. repeat export_step. Qed.
Lemma tame_generated i u d : tame (markExportGenerated i u d).
Proof. unfold markExportGenerated. repeat export_step. Qed.
Lemma tame_invalidate i : tame (invalidateDownloadToken i).
Proof. unfold invalidateDownloadToken. repeat export_step. Qed.
Lemma tame_expire : tame (expireStaleDownloadTokens cfg).
Proof. unfold expireStaleDownloadTokens. repeat export_step. Qed.
Lemma tame_cleanup b : tame (runCleanup cfg b).
Proof. unfold runCleanup. repeat export_step. all: by apply keeps_same. Qed.
Lemma tame_process j u i : tame (process sha256 zip mail_error j u i).
Proof.
  unfold process, markExportProcessing, compileUserData, generateChunkedZip, write_piece, final_piece, saveChunk, sendWelcomeEmail,
    markExportFailed. repeat export_step. all: try by apply keeps_same.
  intros w HI. destruct (mail_error _ _); [by split; [|apply export_guar_refl]|].
  by apply (keeps_same token_of hmac cfg (fun w => w <| ex_mails ::= _ |>)).
Qed.

(** *** Downloads *)

Definition owner (i u : string) (w : ExportDB) : Prop := exists r, ex_rows w !! i = Some r /\ er_user r = u.
Lemma lasting_won t h : lasting (won t h).
Proof. intros w w' H HG. by apply (xg_log _ _ HG). Qed.
Lemma lasting_owner i u : lasting (owner i u).
Proof. intros w w' (r & Hr & <-) HG. by apply (xg_rows _ _ HG). Qed.
Lemma own_row_Some i u w r : own_row i u w = Some r -> ex_rows w !! i = Some r /\ er_user r = u.
Proof. unfold own_row. destruct (ex_rows w !! i) as [r'|]; [|done]. destruct (str_eqb_spec (er_user r') u); [|done]. by intros [= ->]. Qed.

Lemma spec_consume t i u tk :
  spec t (fun _ => True) (validateAndConsumeToken hmac cfg t i u tk)
    (fun o w => match o with Ok true => won t (mac hmac cfg tk) w /\ owner i u w | _ => True end).
Proof.
  unfold validateAndConsumeToken. apply spec_reads_then with (F' := fun r w => match r with Some _ => owner i u w | None => True end); [apply export_guar_refl|..].
  { intros w _ _. destruct (own_row i u w) as [r|] eqn:Hr; [|done]. apply own_row_Some in Hr. by exists r. }
  { intros [r|]; [apply lasting_owner|done]. }
  intros [r|]; [|apply spec_then; [apply tame_audit|done|done|by intros ? ?]].
  destruct (_ || _).
  { apply spec_then; [apply tame_audit|by apply lasting_owner|done|by intros ? ?]. }
  apply spec_then; [apply tame_reads, export_guar_refl|by apply lasting_owner|done|]. intros now. destruct (negb (isFileAvailable cfg now r)).
  { apply spec_then; [by repeat export_step|by apply lasting_owner|done|]. intros _.
    apply spec_then; [apply tame_audit|by apply lasting_owner|done|by intros ? ?]. }
  apply spec_access with (F' := fun n w => n = 1%nat -> won t (mac hmac cfg tk) w /\ owner i u w).
  { intros v HIv Ho. destruct (consume_token_ok token_of hmac cfg t i u (mac hmac cfg tk) v HIv) as (HI' & HG & Hwon).
    split; [exact HI'|split; [exact HG|]]. intros Hn. split; [by apply Hwon|by eapply lasting_owner]. }
  { intros n x x' Hx HG Hn. destruct (Hx Hn). split; [by eapply lasting_won|by eapply lasting_owner]. }
  intros n. destruct (Nat.eqb_spec n 1) as [H1|H1]; cbn [negb].
  - apply rg_weaken with (P' := fun w => won t (mac hmac cfg tk) w /\ owner i u w); [by auto|].
    apply spec_then; [apply tame_audit|apply lasting_and; [apply lasting_won|apply lasting_owner]|done|by intros ? ?].
  - apply rg_weaken with (P' := fun _ => True); [done|]. apply spec_then; [apply tame_audit|done|done|by intros ? ?].
Qed.

Lemma spec_download t i u e s ch tk :
  spec t (fun _ => True) (download token_of hmac cfg t i u e s ch tk)
    (fun o w => match o with
                | Ok (Part _ c) => ch <> None
                | Ok _ => won t (mac hmac cfg (default "" tk)) w /\ owner i (default "" u) w
                | Exn _ => True
                end).
Proof using tokens_differ.
  unfold download. apply spec_then; [apply tame_reads, export_guar_refl|done|done|]. intros now. apply spec_then; [apply tame_guard|done|done|]. intros _.
  destruct (negb _); [apply spec_then; [destruct ch; cbn; [apply tame_ret|apply tame_audit]|done|done|by intros ? ?]|].
  destruct (_ && _); [apply spec_then; [apply tame_audit|done|done|by intros ? ?]|].
  destruct (negb _); [apply spec_then; [destruct ch; cbn; [apply tame_ret|apply tame_audit]|done|done|by intros ? ?]|].
  destruct ch as [ch|]; cbn [fmap option_fmap option_map].
  - apply spec_then; [unfold getExportChunk; by repeat export_step|done|done|]. intros [c|]; by intros ? ?.
  - set (h := mac hmac cfg (default "" tk)). set (F := fun w => won t h w /\ owner i (default "" u) w).
    assert (lasting F) as HL by (apply lasting_and; [apply lasting_won|apply lasting_owner]).
    apply rg_bind with (Q := fun v w => if v : bool then F w else True).
    { eapply rg_post; [|apply spec_consume]. by intros [[|]|]. }
    intros [|]; [|by intros w]. cbn [guard bind].
    apply spec_then; [unfold getExportFile; by repeat export_step|exact HL|done|]. intros [r|]; [|by intros w].
    apply spec_then; [apply tame_guard|exact HL|done|]. intros _. destruct (er_chunked r).
    + apply spec_then; [apply tame_map; intros; by apply tame_issue|exact HL|done|]. by intros ls w.
    + by destruct (er_file r); intros w.
Qed.

(** The requests: of users, of holders of links, of the worker and of the jobs. *)
Inductive ExportOp :=
| Request (u : string) | History (u : string) | Redownload (i u : string) | JobStatus (i u : string)
| Fetch (i : string) (userId expires signature chunk token : option string)
| Work (jobName u i : string) | Generated (i u data : string) | Invalidate (i : string) | Expire | Purge (dryRun : bool)
| Elapse (d : ms).
Inductive ExportAnswer := ADownload (d : Download) | AOther.
Definition serve_export (t : positive) (o : ExportOp) : action ExportAnswer :=
  match o with
  | Fetch i u e s ch tk => let* d := download token_of hmac cfg t i u e s ch tk in Ret (ADownload d)
  | Request u => do* requestExport uuid cfg u in Ret AOther
  | History u => do* history token_of hmac cfg u in Ret AOther
  | Redownload i u => do* getRedownloadLink token_of hmac cfg i u in Ret AOther
  | JobStatus i u => do* getJobStatus cfg i u in Ret AOther
  | Work j u i => do* process sha256 zip mail_error j u i in Ret AOther
  | Generated i u d => do* markExportGenerated i u d in Ret AOther
  | Invalidate i => do* invalidateDownloadToken i in Ret AOther
  | Expire => do* expireStaleDownloadTokens cfg in Ret AOther
  | Purge b => do* runCleanup cfg b in Ret AOther
  | Elapse d => do* writes (fun w => w <| ex_clock ::= Z.add d |>) in Ret AOther
  end.
Lemma tame_other {A} (p : action A) : tame p -> tame (do* p in Ret AOther).
Proof. intros Hp. apply tame_bind; [done|]. intros _. apply tame_ret. Qed.

(** What a request has when it has answered. *)
Definition answered (ops : gmap positive ExportOp) (t : positive) (o : outcome export_error ExportAnswer) (w : ExportDB) : Prop :=
  match o with
  | Ok (ADownload d) =>
      exists i u e s ch tk, ops !! t = Some (Fetch i u e s ch tk)
      /\ match d with Part _ _ => ch <> None | _ => won t (mac hmac cfg (default "" tk)) w /\ owner i (default "" u) w end
  | _ => True
  end.
Lemma serve_answered ops t o : ops !! t = Some o ->
  spec t (fun _ => True) (serve_export t o) (answered ops t).
Proof using tokens_differ.
  intros Ho. assert (forall A (p : action A), tame p -> spec t (fun _ => True) (do* p in Ret AOther) (answered ops t)) as Hother.
  { intros A p Hp. apply rg_bind with (Q := fun _ _ => True); [eapply rg_post; [|apply (Hp t)]; by intros [a|e]|]. by intros a w. }
  destruct o; cbn [serve_export]; try apply Hother.
  - apply tame_requestExport.
  - by apply tame_history.
  - by apply tame_redownload.
  - apply tame_status.
  - eapply rg_bind; [eapply rg_post; [|apply spec_download]|].
    + intros [d|e] w; [|done]. intros H. exact H.
    + intros d w _ H. cbn. do 6 eexists. split; [exact Ho|]. by destruct d.
  - apply tame_process.
  - apply tame_generated.
  - apply tame_invalidate.
  - apply tame_expire.
  - apply tame_cleanup.
  - by apply tame_writes, keeps_same.
Qed.

Lemma nodup_fst {A B} (l : list (A * B)) a b b' : NoDup (map fst l) -> (a, b) ∈ l -> (a, b') ∈ l -> b = b'.
Proof.
  induction l as [|[x y] l IH]; [by intros _ ?%not_elem_of_nil|]. cbn. intros [Hx Hl]%NoDup_cons.
  intros [[= <- <-]|Hb]%elem_of_cons [Heq|Hb']%elem_of_cons; [by injection Heq| | |by apply IH].
  - destruct Hx. by apply (list_elem_of_fmap_2 fst) in Hb'.
  - injection Heq as -> ->. destruct Hx. by apply (list_elem_of_fmap_2 fst) in Hb.
Qed.

(** C12. A download link opens once.  However the requests of users, the downloads, the
    worker and the jobs interleave, from a store whose tokens are sound: a download
    that is answered with a file, or with the list of its parts, has consumed the token
    it brought, for an export of the user it names; and two downloads that bring the
    same token are not both answered. *)
Theorem link_opens_once (ops : gmap positive ExportOp) w0 w ps :
  export_inv token_of hmac cfg w0 ->
  pool_reach (w0, map_imap (fun t o => Some (serve_export t o)) ops) (w, ps) ->
  (forall t i u e s tk d, ops !! t = Some (Fetch i u e s None tk) -> ps !! t = Some (Ret (ADownload d)) ->
     owner i (default "" u) w
     /\ forall t' i' u' e' s' d', ops !! t' = Some (Fetch i' u' e' s' None tk) -> ps !! t' = Some (Ret (ADownload d')) -> t' = t)
  /\ export_inv token_of hmac cfg w.
Proof.
  intros HI Hreach.
  assert (pool_ok (export_inv token_of hmac cfg) (fun _ => export_guar) (answered ops) (w, ps)) as [HIw Hall].
  { eapply rg_sound; [|exact Hreach]. split; [exact HI|]. intros t p. cbn. rewrite map_lookup_imap. intros Hp.
    destruct (ops !! t) as [o|] eqn:Ho; [|done]. injection Hp as <-. exists (fun _ => True). split; [done|]. split; [done|].
    by apply serve_answered. }
  split; [|exact HIw]. cbn in HIw, Hall.
  assert (forall t i u e s tk d, ops !! t = Some (Fetch i u e s None tk) -> ps !! t = Some (Ret (ADownload d)) ->
    won t (mac hmac cfg (default "" tk)) w /\ owner i (default "" u) w) as Hdone.
  { intros t i u e s tk d Ho Ht. destruct (Hall t _ Ht) as (P & HP & _ & Hrg).
    destruct (Hrg w HIw HP) as (i1 & u1 & e1 & s1 & ch & tk1 & Hop & H). rewrite Ho in Hop. injection Hop as <- <- <- <- <- <-.
    by destruct d. }
  intros t i u e s tk d Ho Ht. destruct (Hdone _ _ _ _ _ _ _ Ho Ht) as [Hw Hown]. split; [done|].
  intros t' i' u' e' s' d' Ho' Ht'. destruct (Hdone _ _ _ _ _ _ _ Ho' Ht') as [Hw' _].
  by eapply nodup_fst; [apply (xi_once _ _ _ _ HIw)|..].
Qed.
End programs.

(** ** Parts *)
Section parts.
Context (sha256 : string -> string) (zip : list (string * string) -> outcome string (list string)).
Context (mail_error : string -> string -> option string).

Lemma concat_str_app a b : concat_str (a ++ b) = concat_str a +:+ concat_str b.
Proof. induction a as [|x a IH]; [done|]. cbn. rewrite str_app_assoc. f_equal. exact IH. Qed.
Lemma size_app a b : size (a +:+ b) = size a + size b.
Proof. unfold size. rewrite length_str_app. lia. Qed.

(** The chunks of the parts of an archive, and what is saved of a part. *)
Definition whole_part (i : string) (c : ExportChunk) : Prop :=
  ch_request c = i /\ ch_size c = size (ch_data c) /\ ch_sum c = sha256 (ch_data c).
Definition add_chunks (cs : list ExportChunk) (w : ExportDB) : ExportDB := w <| ex_chunks ::= (fun l => l ++ cs) |>.
Lemma add_chunks_nil w : add_chunks [] w = w.
Proof. unfold add_chunks, set_field. destruct w. cbn. by rewrite app_nil_r. Qed.
Lemma add_chunks_add a b w : add_chunks b (add_chunks a w) = add_chunks (a ++ b) w.
Proof. unfold add_chunks, set_field. cbn. by rewrite <- app_assoc. Qed.

(** What the writes of the pieces have saved, and still hold. *)
Record written (limit : Z) (i : string) (s : Splitter) (pieces : list string) (cs : list ExportChunk) (s' : Splitter) : Prop := {
  wr_bytes : concat_str (map ch_data cs) +:+ concat_str (sp_bufs s') = concat_str (sp_bufs s) +:+ concat_str pieces;
  wr_index : map ch_index cs = seqZ (sp_count s) (Z.of_nat (length cs));
  wr_count : sp_count s' = sp_count s + Z.of_nat (length cs);
  wr_total : sp_total s' = sp_total s + size (concat_str pieces);
  wr_hashed : sp_hashed s' = sp_hashed s +:+ concat_str pieces;
  wr_size : sp_size s' = size (concat_str (sp_bufs s'));
  wr_whole : Forall (whole_part i) cs;
  wr_large : Forall (fun c => limit <= ch_size c) cs;
}.

Lemma run_write_piece limit i buf s w : sp_size s = size (concat_str (sp_bufs s)) ->
  exists cs s', run (write_piece sha256 limit i buf s) w = (Ok s', add_chunks cs w) /\ written limit i s [buf] cs s'.
Proof.
  intros Hs. unfold write_piece, saveChunk. cbv zeta.
  assert (size (concat_str (sp_bufs s ++ [buf])) = sp_size s + size buf) as Hsz.
  { rewrite concat_str_app, size_app, Hs. cbn. by rewrite str_app_empty_r. }
  assert (concat_str [buf] = buf) as Hone by (cbn; by rewrite str_app_empty_r).
  destruct (limit <=? sp_size s + size buf) eqn:Hl.
  - rewrite run_bind, run_writes. cbn [run].
    exists [{| ch_request := i; ch_index := sp_count s; ch_data := concat_str (sp_bufs s ++ [buf]);
               ch_size := size (concat_str (sp_bufs s ++ [buf])); ch_sum := sha256 (concat_str (sp_bufs s ++ [buf])) |}]. eexists.
    split; [reflexivity|]. split; cbn [map length sp_count sp_total sp_hashed sp_size sp_bufs ch_data ch_index concat_str fold_right].
    + change (concat_str []) with "". rewrite !str_app_empty_r, concat_str_app. by rewrite Hone.
    + by rewrite seqZ_cons by lia.
    + lia.
    + by rewrite str_app_empty_r.
    + by rewrite str_app_empty_r.
    + done.
    + by repeat constructor.
    + repeat constructor. cbn [ch_size]. rewrite Hsz. lia.
  - exists []. eexists. rewrite add_chunks_nil. cbn [run]. split; [reflexivity|].
    split; cbn [map length sp_count sp_total sp_hashed sp_size sp_bufs]; rewrite ?Hone; [|done|lia|done|done|done|done|done].
    change (concat_str []) with "". by rewrite str_app_nil, concat_str_app, Hone.
Qed.
Lemma run_write_pieces limit i pieces s w : sp_size s = size (concat_str (sp_bufs s)) ->
  exists cs s', run (fold_each pieces (write_piece sha256 limit i) s) w = (Ok s', add_chunks cs w) /\ written limit i s pieces cs s'.
Proof.
  revert s w; induction pieces as [|buf pieces IH]; intros s w Hs.
  { exists [], s. rewrite add_chunks_nil. split; [done|]. split; cbn [map length concat_str fold_right]; rewrite ?str_app_nil, ?str_app_empty_r; try done; [lia|unfold size at 1; cbn; lia]. }
  cbn [fold_each]. rewrite run_bind. destruct (run_write_piece limit i buf s w Hs) as (cs & s1 & -> & H).
  destruct (IH s1 (add_chunks cs w) (wr_size _ _ _ _ _ _ H)) as (cs' & s2 & -> & H').
  exists (cs ++ cs'), s2. rewrite add_chunks_add. split; [done|].
  assert (concat_str (buf :: pieces) = concat_str [buf] +:+ concat_str pieces) as Hc by (cbn; by rewrite str_app_empty_r).
  destruct H as [B1 I1 C1 T1 H1 S1 W1 L1], H' as [B2 I2 C2 T2 H2 S2 W2 L2]. split; rewrite ?Hc.
  - rewrite map_app, concat_str_app, str_app_assoc, B2, <- str_app_assoc, B1. by rewrite str_app_assoc.
  - rewrite map_app, length_app, I1, I2, C1, Nat2Z.inj_add, seqZ_app by lia. done.
  - rewrite length_app, C2, C1. lia.
  - rewrite T2, T1, size_app. lia.
  - by rewrite H2, H1, str_app_assoc.
  - done.
  - by apply Forall_app.
  - by apply Forall_app.
Qed.

(** The parts of a complete archive. *)
Record parts_of (i : string) (pieces : list string) (cs : list ExportChunk) : Prop := {
  po_bytes : concat_str (map ch_data cs) = concat_str pieces;
  po_index : map ch_index cs = seqZ 0 (Z.of_nat (length cs));
  po_whole : Forall (whole_part i) cs;
  po_large : Forall (fun c => CHUNK_SIZE_LIMIT <= ch_size c) (removelast cs);
}.
Lemma Forall_removelast {A} (P : A -> Prop) l : Forall P l -> Forall P (removelast l).
Proof. induction 1 as [|x l Hx Hl IH]; [constructor|]. destruct l; [constructor|]. by constructor. Qed.
Lemma run_generate i data pieces w : zip (archive_files data) = Ok pieces ->
  exists cs, run (generateChunkedZip sha256 zip i data) w
      = (Ok (Z.of_nat (length cs), size (concat_str pieces), sha256 (concat_str pieces)), add_chunks cs w)
    /\ parts_of i pieces cs.
Proof.
  intros Hz. unfold generateChunkedZip. rewrite Hz, run_bind.
  destruct (run_write_pieces CHUNK_SIZE_LIMIT i pieces splitter0 w eq_refl) as (cs & s & -> & [B I C T H S W L]).
  cbn [splitter0 sp_bufs sp_count sp_total sp_hashed] in *. change (concat_str []) with "" in B. rewrite str_app_nil in B, H.
  rewrite run_bind. unfold final_piece, saveChunk. destruct (sp_bufs s) as [|b bufs] eqn:Hb.
  - exists cs. cbn [run]. rewrite C, T, H, !Z.add_0_l. split; [done|]. change (concat_str []) with "" in B. rewrite str_app_empty_r in B. split; [done..|].
    by apply Forall_removelast.
  - rewrite run_bind, run_writes. cbn [run sp_count sp_total sp_hashed].
    set (c := {| ch_request := i; ch_index := sp_count s; ch_data := concat_str (b :: bufs);
                 ch_size := size (concat_str (b :: bufs)); ch_sum := sha256 (concat_str (b :: bufs)) |}).
    exists (cs ++ [c]). rewrite C, T, H, !Z.add_0_l, <- add_chunks_add, length_app, Nat2Z.inj_add. cbn [length]. split; [done|]. split.
    + rewrite map_app, concat_str_app. cbn [map]. change (concat_str [ch_data c]) with (ch_data c +:+ ""). by rewrite str_app_empty_r.
    + rewrite map_app, I, length_app, Nat2Z.inj_add, seqZ_app by lia. cbn [map length ch_index c]. by rewrite C, (seqZ_cons _ 1) by lia.
    + apply Forall_app. split; [done|]. by repeat constructor.
    + by rewrite removelast_last.
Qed.

Lemma find_parts i cs l a : Forall (whole_part i) cs -> map ch_index cs = seqZ a (Z.of_nat (length cs)) ->
  (forall c, c ∈ l -> ch_request c <> i \/ ch_index c < a) ->
  mapM (fun k => List.find (fun c => (ch_request c =s? i) && (ch_index c =? k)) (l ++ cs)) (seqZ a (Z.of_nat (length cs))) = Some cs.
Proof.
  revert l a; induction cs as [|c cs IH]; intros l a Hw Hi Hl; [done|].
  cbn [length map] in *. rewrite seqZ_cons in * by lia. injection Hi as Ha Hi. apply Forall_cons in Hw as [(Hc & _) Hw].
  replace (Z.pred (Z.of_nat (S (length cs)))) with (Z.of_nat (length cs)) in * by lia. cbn [mapM].
  assert (List.find (fun c0 => (ch_request c0 =s? i) && (ch_index c0 =? a)) (l ++ c :: cs) = Some c) as ->.
  { clear IH. induction l as [|x l IHl]; cbn.
    - by rewrite Hc, str_eqb_refl, Ha, Z.eqb_refl.
    - destruct (str_eqb_spec (ch_request x) i) as [Hx|]; cbn; [|apply IHl; intros y Hy; apply Hl; by right].
      destruct (Z.eqb_spec (ch_index x) a) as [Hxa|]; [|apply IHl; intros y Hy; apply Hl; by right].
      destruct (Hl x ltac:(by left)); [done|lia]. }
  specialize (IH (l ++ [c]) (Z.succ a) Hw Hi). rewrite <- app_assoc in IH. cbn [app] in IH. cbn. rewrite IH; [done|].
  intros x [Hx|Hx%list_elem_of_singleton]%elem_of_app; [destruct (Hl x Hx); [by left|right; lia]|]. subst x. right. lia.
Qed.

(** The contents of an export, of the tables and the time. *)
Definition user_data (user : ExportUser) (u : string) (t : UserTables) (now : ms) : UserData := {|
  ud_user := u; ud_at := now; ud_active := eu_active user;
  ud_confessions := map (fun c => redactConfessionForExport c user) (owned_by u (tb_confessions t));
  ud_comments := map (fun c => redactCommentForExport c user) (owned_by u (tb_comments t));
  ud_messages := map (fun m => redactMessageForExport m user) (owned_by u (tb_messages t));
  ud_tips := map redactTipForExport (owned_by u (tb_tips t));
  ud_reports := map redactReportForExport (reports_of u (tb_reports t));
  ud_logs := map redactModerationLogForExport (logs_of u (tb_logs t)) |}.
Lemma run_compile u w :
  run (compileUserData u) w =
    (match user_of u (ex_tables w) with
     | Some user => Ok (user_data user u (ex_tables w) (ex_clock w))
     | None => Exn (NotFound "User not found")
     end, w).
Proof.
  unfold compileUserData. rewrite run_bind, run_reads, run_bind, run_of_option. by destruct (user_of u (ex_tables w)).
Qed.

Lemma update_row_same i f w r : ex_rows w !! i = Some r -> er_id r = i ->
  ex_rows (update_rows (fun r => er_id r =s? i) f w).2 !! i = Some (f (ex_clock w) r).
Proof. intros Hr Hi. cbn. rewrite lookup_fmap, Hr. cbn. by rewrite Hi, str_eqb_refl. Qed.

(** The parts of an export are its archive.  When the worker has processed the
    request of a user, and no part of it was saved before, the request is READY; its
    parts, fetched by their indices from 0 on, make the bytes the archiver wrote, of the
    size and checksum the request states; every part has its own size and checksum, and
    all but the last are of the limit or more. *)
Theorem parts_are_the_archive (u i : string) (user : ExportUser) (pieces : list string) (r : ExportRequest) (w : ExportDB) :
  ex_rows w !! i = Some r -> er_id r = i -> (forall c, c ∈ ex_chunks w -> ch_request c <> i) ->
  user_of u (ex_tables w) = Some user ->
  zip (archive_files (user_data user u (ex_tables w) (ex_clock w))) = Ok pieces ->
  (truthy (eu_mail user) = true -> mail_error (eu_mail user) (eu_name user) = None) ->
  let w' := (run (process sha256 zip mail_error "process-export" u i) w).2 in
  exists r' parts, ex_rows w' !! i = Some r'
    /\ (er_status r', er_chunked r', er_sum r', er_size r')
       = (READY, true, Some (sha256 (concat_str pieces)), pretty (size (concat_str pieces)))
    /\ mapM (fun k => find_chunk i k w') (seqZ 0 (er_chunks r')) = Some parts
    /\ concat_str (map ch_data parts) = concat_str pieces
    /\ Forall (fun c => ch_size c = size (ch_data c) /\ ch_sum c = sha256 (ch_data c)) parts
    /\ Forall (fun c => CHUNK_SIZE_LIMIT <= ch_size c) (removelast parts).
Proof.
  intros Hr Hid Hno Huser Hz Hmail. unfold process, markExportProcessing. cbn [negb str_eqb]. rewrite str_eqb_refl. cbn [negb].
  rewrite run_try_catch, !run_bind, run_reads. unfold update_row. rewrite run_writes, run_bind, run_compile.
  set (w1 := (update_rows _ _ w).2). change (ex_tables w1) with (ex_tables w). change (ex_clock w1) with (ex_clock w). rewrite Huser.
  destruct (run_generate i _ pieces w1 Hz) as (cs & Hgen & [Hb Hi Hw Hl]). rewrite run_bind, Hgen, run_bind, run_writes, run_bind, run_reads, run_bind, run_writes,
    run_bind, run_reads.
  set (w3 := (update_rows _ _ (add_chunks cs w1)).2). set (w4 := (update_rows _ _ w3).2).
  change (ex_tables w4) with (ex_tables w). rewrite Huser.
  assert (exists w', run (if truthy (eu_mail user) then sendWelcomeEmail mail_error (eu_mail user) (eu_name user) else Ret tt) w4 = (Ok tt, w')
    /\ ex_rows w' = ex_rows w4 /\ ex_chunks w' = ex_chunks w4) as (w5 & -> & Hrows & Hchunks).
  { destruct (truthy (eu_mail user)); [|by eexists]. unfold sendWelcomeEmail. rewrite run_attempts, Hmail by done. by eexists. }
  cbn [snd]. rewrite Hrows. unfold find_chunk. rewrite Hchunks.
  assert (ex_rows w1 !! i = Some (r <| er_status := PROCESSING |> <| er_processing := Some (ex_clock w) |>)) as H1
    by exact (update_row_same i _ w r Hr Hid).
  pose proof (update_row_same i _ (add_chunks cs w1) _ H1 Hid : ex_rows w3 !! i = _) as H3.
  pose proof (update_row_same i _ w3 _ H3 Hid : ex_rows w4 !! i = _) as H4.
  eexists _, cs. split; [exact H4|]. split; [done|]. split; [|split; [exact Hb|split; [|exact Hl]]].
  - change (ex_chunks w4) with (ex_chunks w ++ cs). apply (find_parts i cs (ex_chunks w) 0 Hw Hi).
    intros c Hc. left. by apply Hno.
  - eapply Forall_impl; [exact Hw|]. by intros c (_ & ? & ?).
Qed.
End parts.

(** ** Redaction *)

(** Two rows that agree outside some fields. *)
Definition agree_but (hidden : list string) (o o' : jsobj) : Prop :=
  forall k, includes k hidden = false -> js_get k o = js_get k o'.
(** Two confessions an export must not tell apart: their texts differ, of a removed one
    in any way, of a deactivated account in one of the same length. *)
Definition alike_confessions (user : ExportUser) (c c' : jsobj) : Prop :=
  agree_but ["message"] c c'
  /\ (isDeleted c || isModerated c = true \/ js_get "message" c = js_get "message" c'
      \/ eu_active user = false /\ js_length (js_get "message" c) = js_length (js_get "message" c')).
Definition alike_comments (user : ExportUser) (c c' : jsobj) : Prop :=
  agree_but ["content"] c c'
  /\ (js_truthy (js_get "isDeleted" c) = true \/ eu_active user = false \/ js_get "content" c = js_get "content" c').
Definition alike_messages (user : ExportUser) (m m' : jsobj) : Prop :=
  agree_but ["content"; "replyContent"] m m'
  /\ (eu_active user = false /\ js_truthy (js_get "replyContent" m) = js_truthy (js_get "replyContent" m')
      \/ js_get "content" m = js_get "content" m' /\ js_get "replyContent" m = js_get "replyContent" m').
(** Contents of other people: who paid, who resolved a report and reported, who reviewed. *)
Definition alike_tips := agree_but ["senderAddress"; "txId"; "idempotencyKey"].
Definition alike_reports := agree_but ["resolver"; "resolvedBy"; "reporter"; "reporterId"; "anonymousReporter"].
Definition alike_logs := agree_but ["reviewedBy"; "userId"; "details"].

Definition alike_owned (R : jsobj -> jsobj -> Prop) (o o' : Owned) : Prop := ow_users o = ow_users o' /\ R (ow_row o) (ow_row o').
(** Two stores that an export of the user must not tell apart. *)
Record alike_tables (user : ExportUser) (t t' : UserTables) : Prop := {
  at_confessions : Forall2 (alike_owned (alike_confessions user)) (tb_confessions t) (tb_confessions t');
  at_comments : Forall2 (alike_owned (alike_comments user)) (tb_comments t) (tb_comments t');
  at_messages : Forall2 (alike_owned (alike_messages user)) (tb_messages t) (tb_messages t');
  at_tips : Forall2 (alike_owned alike_tips) (tb_tips t) (tb_tips t');
  at_reports : Forall2 (fun p p' => p.1 = p'.1 /\ alike_owned alike_reports p.2 p'.2) (tb_reports t) (tb_reports t');
  at_logs : Forall2 (fun p p' => p.1 = p'.1 /\ alike_logs p.2 p'.2) (tb_logs t) (tb_logs t');
}.

Lemma pick_agree hidden ks o o' : agree_but hidden o o' -> forallb (fun k => negb (includes k hidden)) ks = true -> pick ks o = pick ks o'.
Proof.
  intros Ha Hk. unfold pick. apply map_ext_in. intros k Hin. rewrite forallb_forall in Hk. specialize (Hk k Hin). boolp. by rewrite (Ha k).
Qed.
Lemma filter_map_agree {A B} (R : A -> A -> Prop) (p : A -> bool) (f : A -> B) l l' :
  Forall2 R l l' -> (forall x x', R x x' -> p x = p x' /\ f x = f x') -> map f (filter (fun x => p x) l) = map f (filter (fun x => p x) l').
Proof.
  intros Hl HR. induction Hl as [|x x' l l' Hx Hl IH]; [done|]. destruct (HR _ _ Hx) as [Hp Hf]. rewrite !filter_cons, <- Hp.
  destruct (decide (p x)); cbn; [by rewrite IH, Hf|done].
Qed.
(** Redaction of alike rows. *)
Ltac same_fields H := repeat match goal with
  | |- context [pick ?ks ?o] => rewrite (pick_agree _ ks _ _ H) by reflexivity
  end.
Lemma redact_confession user c c' : alike_confessions user c c' -> redactConfessionForExport c user = redactConfessionForExport c' user.
Proof.
  intros [Ha Hm]. assert (isDeleted c = isDeleted c' /\ isModerated c = isModerated c') as [Hd Hmod].
  { unfold isDeleted, isModerated. by rewrite !(Ha "isDeleted"), !(Ha "deletedAt"), !(Ha "isHidden"), !(Ha "moderationStatus") by reflexivity. }
  unfold redactConfessionForExport. rewrite <- Hd, <- Hmod, !(Ha "isAnchored") by reflexivity.
  destruct (isDeleted c) eqn:E1; [by same_fields Ha|]. destruct (isModerated c) eqn:E2; [by same_fields Ha|].
  destruct Hm as [Hm|Hm]; [done|]. destruct (eu_active user) eqn:Hu; cbn [negb].
  - destruct Hm as [Hm|[? _]]; [|done]. f_equal. unfold pick. cbn [map]. rewrite Hm.
    by rewrite !(Ha "id"), !(Ha "gender"), !(Ha "created_at"), !(Ha "view_count"), !(Ha "isAnchored"), !(Ha "stellarTxHash") by reflexivity.
  - assert (js_length (js_get "message" c) = js_length (js_get "message" c')) as -> by (destruct Hm as [->|[_ ->]]; done). by same_fields Ha.
Qed.
Lemma redact_comment user c c' : alike_comments user c c' -> redactCommentForExport c user = redactCommentForExport c' user.
Proof.
  intros [Ha Hm]. unfold redactCommentForExport, js_id_of. rewrite <- !(Ha "isDeleted"), <- !(Ha "confession") by reflexivity.
  destruct (js_truthy (js_get "isDeleted" c)) eqn:E; [by same_fields Ha|]. destruct Hm as [Hm|Hm]; [done|].
  destruct (eu_active user) eqn:Hu; cbn [negb]; [|by same_fields Ha]. destruct Hm as [Hm|Hm]; [done|]. unfold pick. cbn [map]. rewrite Hm.
  by rewrite !(Ha "id"), !(Ha "createdAt"), !(Ha "parentId") by reflexivity.
Qed.
Lemma redact_message user m m' : alike_messages user m m' -> redactMessageForExport m user = redactMessageForExport m' user.
Proof.
  intros [Ha Hm]. unfold redactMessageForExport, js_id_of. rewrite <- !(Ha "confession") by reflexivity.
  destruct (eu_active user) eqn:Hu; cbn [negb].
  - destruct Hm as [[? _]|[H1 H2]]; [done|]. unfold pick. cbn [map]. rewrite H1, H2.
    by rewrite !(Ha "id"), !(Ha "createdAt"), !(Ha "repliedAt") by reflexivity.
  - assert (js_truthy (js_get "replyContent" m) = js_truthy (js_get "replyContent" m')) as -> by (destruct Hm as [[_ ->]|[_ ->]]; done).
    by same_fields Ha.
Qed.

(** C13. An export does not tell what was removed, nor who the others are.  Two stores
    that differ in the texts of deleted or moderated contents, in those of a deactivated
    account, and in the people behind tips, reports and reviews, have the same export:
    the same answer of [compileUserData], and so the same files. *)
Theorem export_hides (u : string) (user : ExportUser) (w w' : ExportDB) :
  user_of u (ex_tables w) = Some user -> user_of u (ex_tables w') = Some user -> ex_clock w = ex_clock w' ->
  alike_tables user (ex_tables w) (ex_tables w') ->
  exists d, (run (compileUserData u) w).1 = Ok d /\ (run (compileUserData u) w').1 = Ok d.
Proof.
  intros Hu Hu' Hc [H1 H2 H3 H4 H5 H6]. rewrite !run_compile, Hu, Hu'. cbn [fst]. eexists. split; [reflexivity|].
  assert (forall (R : jsobj -> jsobj -> Prop) (f : jsobj -> jsobj) rows rows', Forall2 (alike_owned R) rows rows' ->
    (forall o o', R o o' -> f o = f o') -> map f (owned_by u rows) = map f (owned_by u rows')) as Hown.
  { intros R f rows rows' Hrows Hf. unfold owned_by. rewrite !map_map. apply (filter_map_agree (alike_owned R)); [done|].
    intros x x' [-> HR]. split; [done|by apply Hf]. }
  unfold user_data. rewrite <- Hc.
  rewrite <- (Hown _ _ _ _ H1 (redact_confession user)), <- (Hown _ _ _ _ H2 (redact_comment user)), <- (Hown _ _ _ _ H3 (redact_message user)).
  assert (map redactTipForExport (owned_by u (tb_tips (ex_tables w))) = map redactTipForExport (owned_by u (tb_tips (ex_tables w')))) as <-.
  { eapply Hown; [exact H4|]. intros o o' Ho. unfold redactTipForExport. by same_fields Ho. }
  assert (map redactReportForExport (reports_of u (tb_reports (ex_tables w))) = map redactReportForExport (reports_of u (tb_reports (ex_tables w')))) as <-.
  { unfold reports_of. rewrite !map_map. eapply filter_map_agree; [exact H5|]. intros x x' (-> & -> & Ho). split; [done|].
    unfold redactReportForExport. by same_fields Ho. }
  assert (map redactModerationLogForExport (logs_of u (tb_logs (ex_tables w))) = map redactModerationLogForExport (logs_of u (tb_logs (ex_tables w')))) as <-.
  { unfold logs_of. rewrite !map_map. eapply filter_map_agree; [exact H6|]. intros x x' (-> & Ho). split; [done|].
    unfold redactModerationLogForExport. by same_fields Ho. }
  done.
Qed.

(** ** Cleanup *)

Lemma run_cleanup cfg (dry : bool) w :
  let cutoff := getRetentionCutoff cfg (ex_clock w) in
  let old := filter (outdated cutoff) (map snd (map_to_list (ex_rows w))) in
  let w' := (run (runCleanup cfg dry) w).2 in
  ex_rows w' = (if dry then ex_rows w else (fun r => if outdated cutoff r then
      r <| er_file := None |> <| er_status := EXPIRED |> <| er_expired := Some (ex_clock w) |> <| er_token := None |> else r) <$> ex_rows w)
  /\ ex_chunks w' = (if dry then ex_chunks w else filter (fun c => of_requests (map er_id old) c = false) (ex_chunks w)).
Proof.
  cbv zeta. unfold runCleanup. rewrite !run_bind, !run_reads, run_bind, run_reads. set (cutoff := getRetentionCutoff cfg (ex_clock w)).
  set (old := filter (outdated cutoff) (map snd (map_to_list (ex_rows w)))).
  assert (old = [] -> (fun r => if outdated cutoff r then
      r <| er_file := None |> <| er_status := EXPIRED |> <| er_expired := Some (ex_clock w) |> <| er_token := None |> else r) <$> ex_rows w = ex_rows w) as Hnone.
  { intros Ho. apply map_eq. intros i. rewrite lookup_fmap. destruct (ex_rows w !! i) as [r|] eqn:Hr; [|done]. cbn.
    destruct (outdated cutoff r) eqn:Hout; [|done]. assert (r ∈ old) as Hin; [|by rewrite Ho in Hin; apply not_elem_of_nil in Hin].
    apply list_elem_of_filter. split; [by rewrite Hout|]. apply list_elem_of_fmap. exists (i, r). split; [done|by apply elem_of_map_to_list]. }
  rewrite run_bind. clearbody old. destruct old as [|r rs].
  - cbn [map run]. rewrite run_bind. cbn [run]. rewrite run_bind. rewrite (Hnone eq_refl).
    assert (ex_chunks w = filter (fun c => of_requests [] c = false) (ex_chunks w)) as Hf.
    { induction (ex_chunks w) as [|c l IH]; [done|]. rewrite filter_cons_True by done. by rewrite <- IH. }
    destruct (auditCleanupActions cfg), dry; cbn; split; try done.
  - cbn [map]. rewrite run_reads, run_bind. destruct dry; cbn [run]; rewrite ?run_bind.
    + destruct (auditCleanupActions cfg); cbn; by split.
    + rewrite run_writes, run_access. cbn [fst snd update_rows]. rewrite run_bind. destruct (auditCleanupActions cfg); cbn; by split.
Qed.

(** The nightly cleanup erases the exports of an elapsed retention, their files, tokens
    and parts, and nothing else; a dry run erases nothing. *)
Theorem cleanup_erases (cfg : ExportConfig) (w : ExportDB) :
  (forall i r, ex_rows w !! i = Some r -> er_id r = i) ->
  let cutoff := getRetentionCutoff cfg (ex_clock w) in
  let w' := (run (runCleanup cfg false) w).2 in
  (forall i r, ex_rows w !! i = Some r -> exists r', ex_rows w' !! i = Some r'
     /\ (if er_created r <? cutoff
        then (er_status r', er_file r', er_token r') = (EXPIRED, None, None) /\ (forall c, c ∈ ex_chunks w' -> ch_request c <> i)
        else r' = r /\ (forall c, ch_request c = i -> c ∈ ex_chunks w' <-> c ∈ ex_chunks w)))
  /\ ex_rows (run (runCleanup cfg true) w).2 = ex_rows w /\ ex_chunks (run (runCleanup cfg true) w).2 = ex_chunks w.
Proof.
  intros Hid cutoff w'. pose proof (run_cleanup cfg false w) as [Hr Hc]. pose proof (run_cleanup cfg true w) as [Hr' Hc']. split; [|done].
  assert (forall r, outdated cutoff r = (er_created r <? cutoff)) as Hout.
  { intros r. unfold outdated. by destruct (er_created r <? cutoff), (er_status r). }
  intros i r Hi. unfold w'. rewrite Hr, lookup_fmap, Hi. eexists. split; [reflexivity|]. fold cutoff. rewrite Hout.
  set (old := filter (outdated cutoff) (map snd (map_to_list (ex_rows w)))) in *.
  assert (i ∈ map er_id old <-> (er_created r <? cutoff) = true) as Hold.
  { rewrite list_elem_of_fmap. split.
    - intros (x & -> & [Hx%Is_true_true ((j & y) & -> & Hj%elem_of_map_to_list)%list_elem_of_fmap]%list_elem_of_filter). cbn in *.
      rewrite (Hid _ _ Hj) in Hi. rewrite Hj in Hi. injection Hi as ->. by rewrite Hout in Hx.
    - intros Hlt. exists r. split; [by rewrite (Hid _ _ Hi)|]. apply list_elem_of_filter. rewrite Hout, Hlt. split; [done|].
      apply list_elem_of_fmap. exists (i, r). split; [done|by apply elem_of_map_to_list]. }
  rewrite Hc. fold cutoff. fold old. destruct (er_created r <? cutoff) eqn:Hlt.
  - split; [done|]. intros c [Hin _]%list_elem_of_filter Hci. unfold of_requests in Hin.
    rewrite Hci, (proj2 (includes_spec _ _) (proj2 Hold eq_refl)) in Hin. done.
  - split; [done|]. intros c Hci. rewrite list_elem_of_filter. split; [by intros [_ ?]|]. intros Hin. split; [|done].
    change (includes (ch_request c) (map er_id old) = false). rewrite Hci. destruct (includes i (map er_id old)) eqn:Hinc; [|done]. apply includes_spec in Hinc.
    apply Hold in Hinc. done.
Qed.

(** ** Examples *)

Definition ex_cfg : ExportConfig := {|
  ENABLE_BACKGROUND_JOBS := Some "true"; exportDownloadTtlMs := DAY; DATA_EXPORT_TTL_MS := DAY; appSecret := "s"; backendUrl := "";
  retentionDays := 7; auditCleanupActions := true; configuredDryRun := false |}.
(** A readable HMAC, tokens, ids, checksum and archive. *)
Definition toy_mac (key data : string) : string := key +:+ data.
Definition toy_token (n : nat) : string := "tok" +:+ pretty (N.of_nat n).
Definition toy_uuid (n : nat) : string := "x" +:+ pretty (N.of_nat n).
Definition toy_sum (s : string) : string := "sum of " +:+ s.
Definition toy_zip (files : list (string * string)) : outcome string (list string) := Ok ["PK"; "data"].
Definition no_mail_error (address name : string) : option string := None.
Lemma toy_tokens_differ m n : mac toy_mac ex_cfg (toy_token m) = mac toy_mac ex_cfg (toy_token n) -> m = n.
Proof.
  unfold mac, toy_mac, toy_token. intros H. apply (f_equal from_hex) in H. rewrite !from_to_hex in H.
  apply str_app_inj, str_app_inj in H. apply (inj pretty) in H. lia.
Qed.

Definition ex_row : ExportRequest := new_request "x0" "7" 0 0 <| er_status := READY |> <| er_chunked := true |> <| er_chunks := 1 |>
  <| er_token := Some (mac toy_mac ex_cfg (toy_token 0)) |>.
Definition ex_tables0 : UserTables := {|
  tb_users := {[ 7 := {| eu_active := true; eu_mail := "cipher"; eu_name := "ann" |} ]};
  tb_confessions := [{| ow_users := ["7"]; ow_row := [("id", jstr "c1"); ("message", jstr "aa:bb"); ("isDeleted", jbool true)] |}];
  tb_comments := []; tb_messages := []; tb_tips := []; tb_reports := []; tb_logs := [] |}.
Definition ex_world : ExportDB := {|
  ex_clock := 1000; ex_rows := {[ "x0" := ex_row ]}; ex_chunks := []; ex_ids := 1; ex_tokens := 1; ex_queue_up := true; ex_jobs := [];
  ex_audit := []; ex_mails := []; ex_tables := ex_tables0; ex_consumed := [] |}.
Definition ex_link : Link := make_link toy_mac ex_cfg "x0" "7" "5000" None (Some (toy_token 0)).
Definition fetch (l : Link) : ExportOp :=
  Fetch (lk_id l) (Some (lk_user l)) (Some (lk_expires l)) (Some (lk_signature l)) (lk_chunk l) (lk_token l).
Definition serve := serve_export toy_uuid toy_token toy_mac toy_sum toy_zip no_mail_error ex_cfg.

Lemma ex_world_inv : export_inv toy_token toy_mac ex_cfg ex_world.
Proof.
  assert (forall i r, ex_rows ex_world !! i = Some r -> i = "x0" /\ r = ex_row) as Hrow.
  { intros i r Hi. change (({[ "x0" := ex_row ]} : gmap string ExportRequest) !! i = Some r) in Hi.
    by apply lookup_singleton_Some in Hi as [<- <-]. }
  split.
  - by intros i r [-> ->]%Hrow.
  - intros i r h [-> ->]%Hrow [= <-]. split; [exists 0%nat; cbn; split; [lia|done]|apply not_elem_of_nil].
  - by intros i j r r' h [-> ->]%Hrow [-> ->]%Hrow.
  - constructor.
  - by intros h ?%not_elem_of_nil.
Qed.

(** Two requests bring the same token at once; the first to consume it is answered. *)
Definition ex_ops : gmap positive ExportOp := {[ 1%positive := fetch ex_link; 2%positive := fetch ex_link ]}.
Definition ex_race : ExportDB * gmap positive (action ExportAnswer) :=
  run_schedule (replicate 4 1%positive ++ replicate 4 2%positive ++ replicate 8 1%positive ++ replicate 8 2%positive)
    (ex_world, map_imap (fun t o => Some (serve t o)) ex_ops).
Definition ex_answer : Download := Manifest 1 "0" None [make_link toy_mac ex_cfg "x0" "7" (pretty (1000 + DAY)) (Some "0") None].
Lemma ex_race_answers : ex_race.2 !! 1%positive = Some (Ret (ADownload ex_answer))
  /\ ex_race.2 !! 2%positive = Some (Throw (Gone "Download link has already been used or has expired. Request a new link." "EXPORT_TOKEN_EXPIRED")).
Proof. split; vm_compute; reflexivity. Qed.
Lemma link_opens_once_witness : owner "x0" "7" ex_race.1 /\ export_inv toy_token toy_mac ex_cfg ex_race.1.
Proof.
  pose proof (link_opens_once toy_uuid toy_token toy_mac toy_sum toy_zip no_mail_error ex_cfg toy_tokens_differ ex_ops ex_world
    ex_race.1 ex_race.2 ex_world_inv) as H.
  rewrite <- surjective_pairing in H. destruct (H (run_schedule_reach _ _)) as [H1 H2]. split; [|exact H2].
  apply (H1 1%positive "x0" (Some "7") (Some "5000") (Some (lk_signature ex_link)) (Some (toy_token 0)) ex_answer); [|apply ex_race_answers].
  reflexivity.
Defined.

Lemma parts_are_the_archive_witness :
  exists r' parts, ex_rows (run (process toy_sum toy_zip no_mail_error "process-export" "7" "x0") ex_world).2 !! "x0" = Some r'
    /\ er_status r' = READY /\ concat_str (map ch_data parts) = "PKdata".
Proof.
  destruct (parts_are_the_archive toy_sum toy_zip no_mail_error "7" "x0" {| eu_active := true; eu_mail := "cipher"; eu_name := "ann" |}
    ["PK"; "data"] ex_row ex_world) as (r' & parts & H1 & H2 & H3 & H4 & _).
  - reflexivity.
  - reflexivity.
  - by intros c ?%not_elem_of_nil.
  - vm_compute. reflexivity.
  - reflexivity.
  - reflexivity.
  - exists r', parts. split; [exact H1|]. split; [by injection H2|exact H4].
Defined.

(** The text of the deleted confession, changed. *)
Definition ex_tables1 : UserTables := {|
  tb_users := tb_users ex_tables0;
  tb_confessions := [{| ow_users := ["7"]; ow_row := [("id", jstr "c1"); ("message", jstr "other"); ("isDeleted", jbool true)] |}];
  tb_comments := []; tb_messages := []; tb_tips := []; tb_reports := []; tb_logs := [] |}.
Lemma export_hides_witness :
  exists d, (run (compileUserData "7") ex_world).1 = Ok d /\ (run (compileUserData "7") (ex_world <| ex_tables := ex_tables1 |>)).1 = Ok d.
Proof.
  apply (export_hides "7" {| eu_active := true; eu_mail := "cipher"; eu_name := "ann" |}).
  - vm_compute. reflexivity.
  - vm_compute. reflexivity.
  - reflexivity.
  - split; try constructor; [|constructor]. split; [done|]. split; [|by left].
    intros k Hk. unfold js_get. cbn in *. destruct (str_eqb_spec "id" k); [done|]. destruct (str_eqb_spec "message" k) as [<-|]; [done|].
    by destruct (str_eqb_spec "isDeleted" k).
Defined.

(** ** Where the code does not do what its comments say *)

Definition in_turn {A B} (p : action A) (q : A -> action B) (w : ExportDB) := (run (bind p q) w).1.

(** The list of exports answers a link for the latest export that is already dead: the
    list of all exports, made after it, replaced its token. *)
Theorem latest_link_dead :
  in_turn (history toy_token toy_mac ex_cfg "7") (fun h =>
      match h.1 ≫= downloadUrl with
      | Some l => let* _ := serve 1%positive (fetch l) in Ret true
      | None => Ret false
      end) ex_world
  = Exn (Gone "Download link has already been used or has expired. Request a new link." "EXPORT_TOKEN_EXPIRED").
Proof. vm_compute. reflexivity. Qed.

Definition ex_later : ExportDB := ex_world <| ex_clock := 8 * DAY |>.
(** Two requests at once both pass the check of exports in progress. *)
Theorem two_requests_pass :
  ex_jobs (run_schedule [1;2;1;2;1;2;1;2;1;2;1;2]%positive
    (ex_later, {[ 1%positive := serve 1 (Request "7"); 2%positive := serve 2 (Request "7") ]})).1 = [("7", "x1"); ("7", "x2")].
Proof. vm_compute. reflexivity. Qed.

(** A request whose job could not be queued stays PENDING: the next one is refused,
    and no job will ever end it. *)
Theorem unqueued_request_blocks :
  let w := (run (requestExport toy_uuid ex_cfg "7") (ex_later <| ex_queue_up := false |>)).2 in
  (run (requestExport toy_uuid ex_cfg "7") (w <| ex_queue_up := true |>)).1
    = Exn (Conflict "An export is already in progress. Please wait for it to complete.") /\ ex_jobs w = [].
Proof. vm_compute. split; reflexivity. Qed.

(** An export that is READY fails again when its mail is not sent. *)
Theorem mail_failure_fails_export :
  let w := (run (process toy_sum toy_zip (fun _ _ => Some "550") "process-export" "7" "x0") ex_world).2 in
  (er_status <$> ex_rows w !! "x0", length (ex_chunks w)) = (Some FAILED, 1%nat).
Proof. vm_compute. reflexivity. Qed.

(** The mail goes to the encrypted address, and welcomes the user. *)
Theorem mail_to_ciphertext :
  ex_mails (run (process toy_sum toy_zip no_mail_error "process-export" "7" "x0") ex_world).2 = [("cipher", "ann")].
Proof. vm_compute. reflexivity. Qed.

(** A request that is processed again keeps the parts of the first time: its first part
    is that of the older archive, under the checksum of the newer. *)
Theorem retry_mixes_parts :
  let zip2 := fun _ : list (string * string) => Ok ["PK"; "more"] in
  let w := (run (process toy_sum toy_zip (fun _ _ => Some "550") "process-export" "7" "x0") ex_world).2 in
  let w := (run (process toy_sum zip2 no_mail_error "process-export" "7" "x0") w).2 in
  (er_sum <$> ex_rows w !! "x0", ch_data <$> find_chunk "x0" 0 w) = (Some (Some "sum of PKmore"), Some "PKdata").
Proof. vm_compute. reflexivity. Qed.

(** Every cleanup stamps the expired exports again. *)
Theorem expired_again :
  let night d w := (run (runCleanup ex_cfg false) (w <| ex_clock := d * DAY |>)).2 in
  er_expired <$> ex_rows (night 9 (night 8 ex_world)) !! "x0" = Some (Some (9 * DAY)).
Proof. vm_compute. reflexivity. Qed.
