(* ===== verification/Comments.v ===== *)
(** * Comments

    [src/xconfess-backend/src/comment/comment.service.ts] and the moderation routes of
    [comment-admin.controller.ts]: comments and their replies, one level deep, with an
    idempotency key, an edit window, a moderation entry beside each comment and the
    events of the outbox.  A transaction is one access.  The ids of events, how the
    database reads the fields of a foreign cursor and orders its rows are parameters.
    The service takes the anonymous user its type names; texts are ASCII where they are
    cut. *)
From stdpp Require Import pretty.
From S2P Require Import Prelude Numbers Json Dates Effects JobQueue Notifications Outbox Base64 Cursor.
Open Scope Z_scope.

(** ** Data *)

(** [src comment/entities/moderation-comment.entity.ts:12-20 ModerationStatus] *)
Inductive CommentStatus := C_PENDING | C_APPROVED | C_REJECTED | C_FLAGGED | C_ESCALATED | C_RESOLVED | C_HIDDEN.
#[export] Instance CommentStatus_eq_dec : EqDecision CommentStatus.
Proof. solve_decision. Defined.
Definition status_name (s : CommentStatus) : string :=
  match s with
  | C_PENDING => "pending" | C_APPROVED => "approved" | C_REJECTED => "rejected" | C_FLAGGED => "flagged"
  | C_ESCALATED => "escalated" | C_RESOLVED => "resolved" | C_HIDDEN => "hidden"
  end.

(** [src comment/entities/comment.entity.ts:18-71 Comment]; [parentId] is the id of the
    parent. *)
Record Comment := {
  co_id : Z; co_content : string; co_createdAt : ms; co_updatedAt : ms; co_author : string; co_confession : string;
  co_context : string; co_parent : option Z; co_isDeleted : bool; co_editedAt : option ms;
  co_mentions : option (list string); co_key : option string }.
#[export] Instance eta_Comment : Eta Comment := fun c => {|
  co_id := co_id c; co_content := co_content c; co_createdAt := co_createdAt c; co_updatedAt := co_updatedAt c;
  co_author := co_author c; co_confession := co_confession c; co_context := co_context c; co_parent := co_parent c;
  co_isDeleted := co_isDeleted c; co_editedAt := co_editedAt c; co_mentions := co_mentions c; co_key := co_key c |}.
(** [src comment/entities/moderation-comment.entity.ts:23-52 ModerationComment] *)
Record ModerationComment := {
  mo_id : Z; mo_comment : Z; mo_status : CommentStatus; mo_moderatedAt : option ms; mo_moderatedBy : option Z }.
#[export] Instance eta_ModerationComment : Eta ModerationComment := fun m => {|
  mo_id := mo_id m; mo_comment := mo_comment m; mo_status := mo_status m; mo_moderatedAt := mo_moderatedAt m;
  mo_moderatedBy := mo_moderatedBy m |}.

(** What is used of a confession: whether it is deleted, and the mail address of the
    account behind its author, if one is linked. *)
Record CommentedConfession := { cc_isDeleted : bool; cc_mail : option string }.

Record CommentDB := {
  cm_clock : ms;
  cm_confessions : gmap string CommentedConfession;
  cm_rows : gmap Z Comment;
  cm_seq : Z;
  cm_moderation : list ModerationComment;
  cm_outbox : list OutboxEvent;
  cm_uuids : nat;
  cm_analytics : list string;
  cm_trending : list string;
  cm_stats : list string;
  cm_audit : list (string * Z * Z);
}.
#[export] Instance eta_CommentDB : Eta CommentDB := fun w => {|
  cm_clock := cm_clock w; cm_confessions := cm_confessions w; cm_rows := cm_rows w; cm_seq := cm_seq w;
  cm_moderation := cm_moderation w; cm_outbox := cm_outbox w; cm_uuids := cm_uuids w; cm_analytics := cm_analytics w;
  cm_trending := cm_trending w; cm_stats := cm_stats w; cm_audit := cm_audit w |}.

Inductive comment_error :=
| BadRequest (m : string) | Forbidden (m : string) | NotFound (m : string) | QueryFailed.
Abbreviation action := (prog CommentDB comment_error).

(** [src comment/comment.service.ts:37-37 EDIT_WINDOW_MS] *)
Definition EDIT_WINDOW_MS : ms := 5 * 60 * 1000.

(** ** Mentions *)

(** [[a-zA-Z0-9_]]. *)
Definition word_char (c : Ascii.ascii) : bool :=
  between "a"%char "z"%char c || between "A"%char "Z"%char c || between "0"%char "9"%char c || Ascii.eqb c "_"%char.
(** The longest run of word characters at the head of a text, of [n] at most. *)
Fixpoint word (n : nat) (s : string) : string :=
  match n, s with
  | S n', String c s' => if word_char c then String c (word n' s') else EmptyString
  | _, _ => EmptyString
  end.
(** [src comment/comment.service.ts:40-40 MENTION_REGEX]: the first group of every match,
    from left to right; the next match is looked for behind the last one. *)
Fixpoint matches (skip : nat) (s : string) : list string :=
  match s with
  | EmptyString => []
  | String c s' =>
      match skip with
      | S k => matches k s'
      | O => if Ascii.eqb c "@"%char then
               match word 50 s' with
               | EmptyString => matches O s'
               | u => u :: matches (String.length u) s'
               end
             else matches O s'
      end
  end.
(** [src comment/comment.service.ts:74-85 parseMentions] *)
Definition parseMentions (content : string) : list string :=
  fold_left (fun mentions username => if includes username mentions then mentions else mentions ++ [username]) (matches O content) [].

Section comments.
Context (uuid : nat -> string).
Context (sql_date : option json -> option ms) (sql_int : option json -> option Z).
Context (in_order : bool -> bool -> list Comment -> list Comment).

Definition find_comment (P : Comment -> bool) (w : CommentDB) : option Comment :=
  snd <$> List.find (fun p => P p.2) (map_to_list (cm_rows w)).
Definition has_key (k : string) (c : Comment) : bool := bool_decide (co_key c = Some k).
(** [findOne({ where: { id, isDeleted: false } })]. *)
Definition live_comment (i : Z) (w : CommentDB) : option Comment :=
  match cm_rows w !! i with Some c => if co_isDeleted c then None else Some c | None => None end.
Definition update_comment (i : Z) (f : ms -> Comment -> Comment) : action unit :=
  writes (fun w => w <| cm_rows ::= alter (fun c => f (cm_clock w) c <| co_updatedAt := cm_clock w |>) i |>).

(** ** Creation *)

(** [save] of an event: its key is unique. *)
Definition save_event (type key : string) (payload : json) (w : CommentDB) : option CommentDB :=
  if existsb (fun e => bool_decide (ev_idempotencyKey e = Some key)) (cm_outbox w) then None
  else Some (w <| cm_uuids ::= S |> <| cm_outbox ::= (fun l => l ++ [{|
         ev_id := uuid (cm_uuids w); ev_type := type; ev_payload := payload; ev_status := PENDING; retryCount := 0;
         ev_lastError := None; ev_idempotencyKey := Some key; ev_createdAt := cm_clock w; processedAt := None;
         claimedBy := None; claimedAt := None |}]) |>).
(** The key or the id of a comment, in the keys of its events. *)
Definition event_tail (key : option string) (i : Z) : string :=
  match key with Some k => if truthy k then k else pretty i | None => pretty i end.
Definition int_json (z : Z) : json := JNum (num_of_Z z).
Definition comment_payload (i : Z) (confessionId mail context content : string) : json := JObj [
  ("commentId", int_json i); ("confessionId", JStr confessionId); ("recipientEmail", JStr mail);
  ("commenterContextId", JStr context); ("commentPreview", JStr (take_str 100 content))].
Definition mention_payload (i : Z) (confessionId username context content : string) : json := JObj [
  ("commentId", int_json i); ("confessionId", JStr confessionId); ("mentionedUsername", JStr username);
  ("mentionedBy", JStr context); ("commentPreview", JStr (take_str 100 content))].
Fixpoint save_mentions (i : Z) (key : option string) (confessionId context content : string) (users : list string) (w : CommentDB)
    : option CommentDB :=
  match users with
  | [] => Some w
  | u :: users' =>
      w' ← save_event "mention_notification" ("mention:" +:+ event_tail key i +:+ ":" +:+ u)
             (mention_payload i confessionId u context content) w;
      save_mentions i key confessionId context content users' w'
  end.
Definition new_comment (i : Z) (content author confessionId context : string) (parent : option Z) (mentions : list string)
    (key : option string) (now : ms) : Comment := {|
  co_id := i; co_content := content; co_createdAt := now; co_updatedAt := now; co_author := author; co_confession := confessionId;
  co_context := context; co_parent := parent; co_isDeleted := false; co_editedAt := None;
  co_mentions := match mentions with [] => None | _ => Some mentions end;
  co_key := match key with Some k => if truthy k then Some k else None | None => None end |}.
Definition parent_of (parentId : option Z) : option Z := match parentId with Some p => if truthy_num p then Some p else None | None => None end.

(** [src comment/comment.service.ts:144-223 transaction]: the comment, its moderation
    entry and its events, or none of them.  A serial id is drawn for good. *)
Definition insert_comment (content author confessionId context : string) (confession : CommentedConfession) (parentId : option Z)
    (key : option string) (w0 : CommentDB) : outcome comment_error Comment * CommentDB :=
  let i := cm_seq w0 + 1 in
  let w := w0 <| cm_seq := i |> in
  let mentions := parseMentions content in
  let c := new_comment i content author confessionId context (parent_of parentId) mentions key (cm_clock w) in
  let failed := (Exn QueryFailed, w) in
  if match co_key c with Some k => bool_decide (is_Some (find_comment (has_key k) w)) | None => false end then failed
  else if match co_parent c with Some p => bool_decide (cm_rows w !! p = None) | None => false end then failed
  else
    let w1 := w <| cm_rows ::= <[i := c]> |> <| cm_moderation ::= (fun l => l ++ [{| mo_id := Z.of_nat (length l) + 1; mo_comment := i;
                    mo_status := C_PENDING; mo_moderatedAt := None; mo_moderatedBy := None |}]) |> in
    match (w2 ← match cc_mail confession with
                | Some mail => if truthy mail then
                    save_event "comment_notification" ("comment:" +:+ event_tail key i)
                      (comment_payload i confessionId mail context content) w1
                  else Some w1
                | None => Some w1
                end;
           save_mentions i key confessionId context content mentions w2) with
    | Some w3 => (Ok c, w3)
    | None => failed
    end.
(** [analyticsEventService.record]: once for a key. *)
Definition record_event (k : string) (w : CommentDB) : CommentDB :=
  w <| cm_analytics ::= fun l => if includes k l then l else l ++ [k] |>.

(** [src comment/comment.service.ts:91-256 create] *)
Definition create (content user confessionId anonymousContextId : string) (parentId : option Z) (idempotencyKey : option string)
    : action Comment :=
  let* confession := reads (fun w => match cm_confessions w !! confessionId with
                                     | Some c => if cc_isDeleted c then None else Some c
                                     | None => None
                                     end) in
  let* confession := of_option confession (NotFound "Confession not found") in
  do* match parent_of parentId with
      | Some p =>
          let* parent := reads (fun w => cm_rows w !! p) in
          let* parent := of_option parent (NotFound "Parent comment not found") in
          guard (negb (match co_parent parent with Some q => truthy_num q | None => false end))
            (BadRequest "Replies to replies are not supported. You can only reply to top-level comments.")
      | None => Ret tt
      end in
  let* existing := match idempotencyKey with
                   | Some k => if truthy k then reads (find_comment (has_key k)) else Ret None
                   | None => Ret None
                   end in
  match existing with
  | Some e => Ret e
  | None =>
      let* result := attempts (insert_comment content user confessionId anonymousContextId confession parentId idempotencyKey) in
      do* writes (record_event ("comment_created:" +:+ event_tail idempotencyKey (co_id result))) in
      do* writes (fun w => w <| cm_trending ::= (fun l => l ++ ["comment-created"]) |>) in
      Ret result
  end.

(** ** Changes *)

(** [src comment/comment.service.ts:262-300 edit]; an undefined column is not written. *)
Definition edit (i : Z) (newContent user : string) : action (option Comment) :=
  let* comment := reads (live_comment i) in
  let* comment := of_option comment (NotFound "Comment not found") in
  do* guard (co_author comment =s? user) (Forbidden "You can only edit your own comments") in
  let* now := reads cm_clock in
  do* guard (negb (EDIT_WINDOW_MS <? now - co_createdAt comment))
        (BadRequest "Comments can only be edited within 5 minutes of posting") in
  let mentionedUsernames := parseMentions newContent in
  do* update_comment i (fun now c =>
        let c := c <| co_content := newContent |> <| co_editedAt := Some now |> in
        match mentionedUsernames with [] => c | us => c <| co_mentions := Some us |> end) in
  reads (fun w => cm_rows w !! i).

(** [src comment/comment.service.ts:306-333 delete] *)
Definition delete (i : Z) (user : string) : action unit :=
  let* comment := reads (live_comment i) in
  let* comment := of_option comment (NotFound "Comment not found") in
  do* guard (co_author comment =s? user) (BadRequest "You can only delete your own comments") in
  do* update_comment i (fun _ c => c <| co_isDeleted := true |> <| co_content := "[deleted]" |>) in
  writes (fun w => w <| cm_trending ::= (fun l => l ++ ["comment-deleted"]) |>).

(** [src comment/comment.service.ts:434-473 moderateComment] *)
Definition moderateComment (commentId : Z) (status : CommentStatus) (moderator : Z) : action (bool * string) :=
  let* moderation := reads (fun w => List.find (fun m => mo_comment m =? commentId) (cm_moderation w)) in
  let* moderation := of_option moderation (NotFound "Moderation entry not found for comment") in
  do* guard (bool_decide (mo_status moderation = C_PENDING)) (BadRequest "Comment has already been moderated") in
  let* now := reads cm_clock in
  do* writes (fun w => w <| cm_moderation ::= fmap (fun m => if mo_id m =? mo_id moderation then
        m <| mo_status := status |> <| mo_moderatedAt := Some now |> <| mo_moderatedBy := Some moderator |> else m) |>) in
  do* writes (fun w => w <| cm_trending ::= (fun l => l ++ ["comment-moderated:" +:+ status_name status]) |>) in
  do* writes (fun w => w <| cm_stats ::= (fun l => l ++ ["comment-moderated:" +:+ status_name status]) |>) in
  Ret (true, "Comment " +:+ status_name status).
(** [src comment/comment-admin.controller.ts:56-79 approveComment] *)
Definition approveComment (i : Z) (admin : Z) : action (bool * string) :=
  let* result := moderateComment i C_APPROVED admin in
  do* writes (fun w => w <| cm_audit ::= (fun l => l ++ [("comment_approved", i, admin)]) |>) in
  Ret result.
(** [src comment/comment-admin.controller.ts:92-115 rejectComment] *)
Definition rejectComment (i : Z) (admin : Z) : action (bool * string) :=
  let* result := moderateComment i C_REJECTED admin in
  do* writes (fun w => w <| cm_audit ::= (fun l => l ++ [("comment_rejected", i, admin)]) |>) in
  Ret result.

(** ** Reading *)

(** [src comment/dto/get-comments-query.dto.ts:24-73 GetCommentsQueryDto]: with its
    defaults filled in; [cq_byId] is the sort field [id], [cq_asc] the order [ASC]. *)
Record GetCommentsQueryDto := {
  cq_cursor : option string; cq_limit : nat; cq_page : option nat; cq_byId : bool; cq_asc : bool; cq_orphans : bool }.
(** A comment with the replies that are joined to it. *)
Record Shown := { sh_comment : Comment; sh_replies : list Comment }.
Record CommentPage := { pg_data : list Shown; pg_next : option string; pg_more : bool; pg_limit : nat }.

(** [src comment/comment.service.ts:499-540 buildOrdering]: the condition of a cursor;
    [None] is a query the database refuses. *)
Definition after_cursor (byId asc : bool) (cursor : json) : option (Comment -> bool) :=
  cursorId ← sql_int (json_get "id" cursor);
  let beyond a b := if asc then b <? a else a <? b in
  if byId then Some (fun c => beyond (co_id c) cursorId)
  else
    cursorDate ← sql_date (json_get "createdAt" cursor);
    Some (fun c => beyond (co_createdAt c) cursorDate || ((co_createdAt c =? cursorDate) && beyond (co_id c) cursorId)).
(** [src comment/comment.service.ts:492-497 createCursor] *)
Definition createCursor (c : Comment) : string :=
  encodeCursor (JObj [("id", int_json (co_id c)); ("createdAt", JStr (toISOString (co_createdAt c)))]).

Definition approved (w : CommentDB) (c : Comment) : bool :=
  existsb (fun m => (mo_comment m =? co_id c) && bool_decide (mo_status m = C_APPROVED)) (cm_moderation w).
Definition of_confession (confessionId : string) (w : CommentDB) (c : Comment) : bool :=
  (co_confession c =s? confessionId) && match cm_confessions w !! confessionId with Some cf => negb (cc_isDeleted cf) | None => false end.
Definition parent_lives (w : CommentDB) (c : Comment) : bool :=
  match co_parent c with
  | None => true
  | Some p => match cm_rows w !! p with Some r => negb (co_isDeleted r) | None => false end
  end.
(** The conditions and the offset of a page: only a page without a cursor is of
    top-level comments. *)
Definition page_where (confessionId : string) (q : GetCommentsQueryDto) (w : CommentDB) : option ((Comment -> bool) * nat) :=
  position ← match decodeCursor (cq_cursor q) with
             | Some cursor => after_cursor (cq_byId q) (cq_asc q) cursor
             | None => Some (fun _ => true)
             end;
  let top := negb (truthy_opt (cq_cursor q)) in
  let skip := if top then match cq_page q with Some p => if (1 <? p)%nat then ((p - 1) * cq_limit q)%nat else O | None => O end else O in
  Some (fun c => of_confession confessionId w c && approved w c && position c && (cq_orphans q || parent_lives w c)
                 && (negb top || bool_decide (co_parent c = None)), skip).
Definition replies_of (w : CommentDB) (c : Comment) : list Comment :=
  filter (fun r => bool_decide (co_parent r = Some (co_id c))) (map snd (map_to_list (cm_rows w))).

(** [src comment/comment.service.ts:339-413 findByConfessionId] *)
Definition findByConfessionId (confessionId : string) (q : GetCommentsQueryDto) : action CommentPage :=
  let* page := reads (fun w =>
    match page_where confessionId q w with
    | Some (P, skip) =>
        let rows := in_order (cq_byId q) (cq_asc q) (filter (fun c => P c) (map snd (map_to_list (cm_rows w)))) in
        Some (map (fun c => {| sh_comment := c; sh_replies := replies_of w c |}) (firstn (cq_limit q + 1) (skipn skip rows)))
    | None => None
    end) in
  let* comments := of_option page QueryFailed in
  let hasMore := (cq_limit q <? length comments)%nat in
  let resultComments := if hasMore then firstn (cq_limit q) comments else comments in
  let nextCursor := if hasMore then (fun s => createCursor (sh_comment s)) <$> last resultComments else None in
  Ret {| pg_data := resultComments; pg_next := nextCursor; pg_more := hasMore; pg_limit := cq_limit q |}.
(** [src comment/comment.service.ts:415-428 findByConfessionIdLegacy] *)
Definition findByConfessionIdLegacy (confessionId : string) (page limit : option nat) : action (list Shown) :=
  let or n d := match n with Some (S k) => S k | _ => d end in
  let* result := findByConfessionId confessionId {| cq_cursor := None; cq_limit := or limit 20%nat; cq_page := Some (or page 1%nat);
                                                    cq_byId := false; cq_asc := false; cq_orphans := false |} in
  Ret (pg_data result).
End comments.
