(* ===== verification/CommentSafety.v ===== *)
(** * What comments promise

    Theorems on [Comments]: however requests interleave, an idempotency key has one
    comment, replies are one level deep and every comment has one moderation entry; a
    comment is stored with its events or not at all; a page shows approved comments of
    a confession that is not deleted.  The last section shows what a page shows besides,
    and where a comment escapes moderation. *)
From stdpp Require Import pretty.
From S2P Require Import Prelude Numbers Json Dates Effects JobQueue Notifications Outbox Base64 Cursor Comments.
Open Scope Z_scope.

(** ** Mentions *)

Lemma word_chars n s : str_forall word_char (word n s) = true /\ (String.length (word n s) <= n)%nat.
Proof.
  revert s; induction n as [|n IH]; intros [|c s]; cbn; try by split; [|lia].
  destruct (word_char c) eqn:Hc; cbn; [|by split; [|lia]]. destruct (IH s). rewrite Hc. split; [done|lia].
Qed.
Definition mention (u : string) : Prop := u <> "" /\ str_forall word_char u = true /\ (String.length u <= 50)%nat.
Lemma matches_mentions k s : Forall mention (matches k s).
Proof.
  revert k; induction s as [|c s IH]; intros k; [constructor|]. cbn [matches]. destruct k; [|apply IH]. destruct (Ascii.eqb c "@"%char); [|apply IH].
  pose proof (word_chars 50 s) as [H1 H2]. destruct (word 50 s) as [|d u] eqn:Hu; [apply IH|]. constructor; [|apply IH]. by split_and!.
Qed.
(** The mentions of a text are user names, each once. *)
Lemma parseMentions_names s : NoDup (parseMentions s) /\ Forall mention (parseMentions s).
Proof.
  unfold parseMentions. pose proof (matches_mentions O s) as Hm. revert Hm. generalize (matches O s). intros us Hm.
  assert (forall acc, NoDup acc -> Forall mention acc ->
    NoDup (fold_left (fun l u => if includes u l then l else l ++ [u]) us acc)
    /\ Forall mention (fold_left (fun l u => if includes u l then l else l ++ [u]) us acc)) as H.
  { induction Hm as [|u us Hu Hus IH]; intros acc Hn Ha; [done|]. cbn [fold_left]. apply IH.
    - destruct (includes u acc) eqn:Hi; [done|]. apply NoDup_app. split; [done|]. split; [|apply NoDup_singleton].
      intros x Hx Hx'%list_elem_of_singleton. subst x. apply includes_spec in Hx. congruence.
    - destruct (includes u acc); [done|]. apply Forall_app. split; [done|]. apply Forall_singleton. exact Hu. }
  apply H; constructor.
Qed.

Section safety.
Context (uuid : nat -> string) (sql_date : option json -> option ms) (sql_int : option json -> option Z).
Context (in_order : bool -> bool -> list Comment -> list Comment).

(** ** Creation *)

(** The tables the events of a comment do not touch. *)
Definition same_comments (w w' : CommentDB) : Prop :=
  cm_rows w' = cm_rows w /\ cm_seq w' = cm_seq w /\ cm_moderation w' = cm_moderation w /\ cm_clock w' = cm_clock w.
Definition keyed (k : string) (e : OutboxEvent) : Prop := ev_idempotencyKey e = Some k.
Lemma save_event_Some ty k p w w' : save_event uuid ty k p w = Some w' ->
  same_comments w w' /\ exists e, cm_outbox w' = cm_outbox w ++ [e] /\ keyed k e /\ ev_type e = ty /\ ev_payload e = p /\ ev_status e = PENDING.
Proof. unfold save_event. destruct (existsb _ _); [done|]. intros [= <-]. split; [done|]. by eexists. Qed.
Definition mention_key (i : Z) (key : option string) (u : string) : string := "mention:" +:+ event_tail key i +:+ ":" +:+ u.
Lemma save_mentions_Some i key cf ctx txt us w w' : save_mentions uuid i key cf ctx txt us w = Some w' ->
  same_comments w w' /\ exists es, cm_outbox w' = cm_outbox w ++ es
    /\ Forall2 (fun u e => keyed (mention_key i key u) e /\ ev_type e = "mention_notification" /\ ev_payload e = mention_payload i cf u ctx txt) us es.
Proof.
  revert w; induction us as [|u us IH]; intros w; cbn [save_mentions].
  - intros [= <-]. split; [done|]. exists []. by rewrite app_nil_r.
  - destruct (save_event _ _ _ _ w) as [w1|] eqn:H1; [|done]. cbn. intros H. apply save_event_Some in H1 as ((R1 & R2 & R3 & R4) & e & He & Hk & Ht & Hp & _).
    destruct (IH _ H) as ((S1 & S2 & S3 & S4) & es & Hes & Hall). split; [by split_and!; etrans|]. exists (e :: es).
    rewrite Hes, He, <- app_assoc. split; [done|]. by constructor.
Qed.

(** What a transaction has done: everything or nothing. *)
Record inserted (txt user cf ctx : string) (conf : CommentedConfession) (p : option Z) (key : option string) (w : CommentDB) (c : Comment)
    (w' : CommentDB) : Prop := {
  in_row : c = new_comment (cm_seq w + 1) txt user cf ctx (parent_of p) (parseMentions txt) key (cm_clock w);
  in_rows : cm_rows w' = <[cm_seq w + 1 := c]> (cm_rows w);
  in_seq : cm_seq w' = cm_seq w + 1;
  in_moderation : exists m, cm_moderation w' = cm_moderation w ++ [m] /\ mo_comment m = cm_seq w + 1 /\ mo_status m = C_PENDING;
  in_key : forall k d j, co_key c = Some k -> cm_rows w !! j = Some d -> co_key d <> Some k;
  in_parent : forall q, co_parent c = Some q -> is_Some (cm_rows w !! q);
  in_events : exists owner mentions, cm_outbox w' = cm_outbox w ++ owner ++ mentions
    /\ match cc_mail conf with
       | Some mail => if truthy mail then exists e, owner = [e] /\ keyed ("comment:" +:+ event_tail key (co_id c)) e
                        /\ ev_payload e = comment_payload (co_id c) cf mail ctx txt
                      else owner = []
       | None => owner = []
       end
    /\ Forall2 (fun u e => keyed (mention_key (co_id c) key u) e /\ ev_payload e = mention_payload (co_id c) cf u ctx txt) (parseMentions txt) mentions;
}.
Lemma find_comment_None P w i c : find_comment P w = None -> cm_rows w !! i = Some c -> P c = false.
Proof.
  unfold find_comment. rewrite fmap_None. intros Hn Hi. apply (List.find_none _ _ Hn (i, c)). by apply list_elem_of_In, elem_of_map_to_list.
Qed.
Lemma find_comment_Some P w c : find_comment P w = Some c -> exists i, cm_rows w !! i = Some c /\ P c = true.
Proof.
  unfold find_comment. rewrite fmap_Some. intros ([k v] & Hf & ->).
  apply List.find_some in Hf as [Hin Hp]. exists k. by apply list_elem_of_In, elem_of_map_to_list in Hin.
Qed.
Lemma insert_comment_shape txt user cf ctx conf p key w :
  match insert_comment uuid txt user cf ctx conf p key w with
  | (Ok c, w') => inserted txt user cf ctx conf p key w c w'
  | (Exn _, w') => w' = w <| cm_seq := cm_seq w + 1 |>
  end.
Proof.
  unfold insert_comment. cbv zeta. set (w0 := w <| cm_seq := cm_seq w + 1 |>).
  set (c := new_comment (cm_seq w + 1) txt user cf ctx (parent_of p) (parseMentions txt) key (cm_clock w0)).
  destruct (match co_key c with Some k => _ | None => false end) eqn:Hkey; [done|].
  destruct (match co_parent c with Some q => _ | None => false end) eqn:Hpar; [done|].
  set (w1 := w0 <| cm_rows ::= _ |> <| cm_moderation ::= _ |>).
  set (owner := match cc_mail conf with Some mail => _ | None => Some w1 end).
  assert (forall w2, owner = Some w2 -> same_comments w1 w2 /\ exists es, cm_outbox w2 = cm_outbox w1 ++ es
    /\ match cc_mail conf with
       | Some mail => if truthy mail then exists e, es = [e] /\ keyed ("comment:" +:+ event_tail key (co_id c)) e
                        /\ ev_payload e = comment_payload (co_id c) cf mail ctx txt
                      else es = []
       | None => es = []
       end) as Howner.
  { intros w2. unfold owner. destruct (cc_mail conf) as [mail|].
    - destruct (truthy mail).
      + intros H. apply save_event_Some in H as (Hs & e & He & Hk & _ & Hp & _). split; [done|]. exists [e]. split; [done|]. by exists e.
      + intros [= <-]. split; [done|]. exists []. by rewrite app_nil_r.
    - intros [= <-]. split; [done|]. exists []. by rewrite app_nil_r. }
  destruct owner as [w2|]; [|done]. cbn. destruct (save_mentions _ _ _ _ _ _ _ w2) as [w3|] eqn:Hm; [|done].
  destruct (Howner w2 eq_refl) as ((R1 & R2 & R3 & R4) & es & Hes & Hmail). apply save_mentions_Some in Hm as ((S1 & S2 & S3 & S4) & ms & Hms & Hall).
  split.
  - done.
  - by rewrite S1, R1.
  - by rewrite S2, R2.
  - eexists. split; [rewrite S3, R3; reflexivity|done].
  - intros k d j Hk Hj Hd. rewrite Hk in Hkey. destruct (find_comment (has_key k) w0) as [e|] eqn:Hf; [done|].
    pose proof (find_comment_None _ w0 j d Hf Hj) as H. unfold has_key in H. by rewrite bool_decide_true in H.
  - intros q Hq. rewrite Hq in Hpar. change (cm_rows w0) with (cm_rows w) in Hpar. destruct (cm_rows w !! q); [done|by rewrite bool_decide_true in Hpar].
  - exists es, ms. rewrite Hms, Hes, app_assoc. split; [done|]. split; [exact Hmail|]. eapply Forall2_impl; [exact Hall|]. by intros u e (? & _ & ?).
Qed.

(** ** Requests among others *)

Record comment_inv (w : CommentDB) : Prop := {
  ci_id : forall i c, cm_rows w !! i = Some c -> co_id c = i /\ 0 < i <= cm_seq w;
  ci_key : forall i j c d k, cm_rows w !! i = Some c -> cm_rows w !! j = Some d -> co_key c = Some k -> co_key d = Some k -> i = j;
  ci_parent : forall i c p, cm_rows w !! i = Some c -> co_parent c = Some p -> exists r, cm_rows w !! p = Some r /\ co_parent r = None;
  ci_moderated : forall i c, cm_rows w !! i = Some c -> length (filter (fun m => mo_comment m =? i) (cm_moderation w)) = 1%nat;
  ci_seq : 0 <= cm_seq w /\ Forall (fun m => mo_comment m <= cm_seq w) (cm_moderation w);
}.
(** What stays of a comment. *)
Definition same_comment (c d : Comment) : Prop :=
  co_id d = co_id c /\ co_key d = co_key c /\ co_parent d = co_parent c /\ co_author d = co_author c /\ co_confession d = co_confession c.
Definition comment_guar (w w' : CommentDB) : Prop :=
  forall i c, cm_rows w !! i = Some c -> exists d, cm_rows w' !! i = Some d /\ same_comment c d.
Abbreviation keeps := (keeps comment_inv comment_guar).
Abbreviation tame := (@tame CommentDB comment_error comment_inv comment_guar).
Abbreviation lasting := (lasting comment_guar).
Abbreviation spec := (@rg CommentDB comment_error comment_inv (fun _ => comment_guar)).

Lemma comment_guar_refl w : comment_guar w w.
Proof. intros i c Hc. by exists c. Qed.
Hint Resolve comment_guar_refl : tame.
Lemma keeps_other f :
  (forall w, cm_rows (f w) = cm_rows w /\ cm_seq (f w) = cm_seq w /\ cm_moderation (f w) = cm_moderation w) -> keeps f.
Proof.
  intros H w [H1 H2 H3 H4 H5]. destruct (H w) as (Hr & Hs & Hm). split.
  - split; rewrite ?Hr, ?Hs, ?Hm; eauto.
  - intros i c. rewrite Hr. by exists c.
Qed.
Lemma keeps_row i f : (forall now c, same_comment c (f now c)) ->
  keeps (fun w => w <| cm_rows ::= alter (fun c => f (cm_clock w) c <| co_updatedAt := cm_clock w |>) i |>).
Proof.
  intros Hf w [H1 H2 H3 H4 H5].
  assert (forall j d, cm_rows (w <| cm_rows ::= alter (fun c => f (cm_clock w) c <| co_updatedAt := cm_clock w |>) i |>) !! j = Some d ->
    exists c, cm_rows w !! j = Some c /\ same_comment c d) as Hrow.
  { intros j d. cbn. rewrite lookup_alter_Some. intros [(<- & c & Hc & ->)|[_ Hj]]; [|by exists d]. exists c. split; [done|]. exact (Hf _ c). }
  assert (forall j c, cm_rows w !! j = Some c ->
    exists d, cm_rows (w <| cm_rows ::= alter (fun c => f (cm_clock w) c <| co_updatedAt := cm_clock w |>) i |>) !! j = Some d /\ same_comment c d) as Hrow'.
  { intros j c Hc. cbn. destruct (decide (i = j)) as [<-|Hne].
    - rewrite lookup_alter_eq, Hc. eexists. split; [reflexivity|]. exact (Hf _ c).
    - rewrite lookup_alter_ne by done. by exists c. }
  split; [split|exact Hrow'].
  - intros j d (c & Hc & Hid & _)%Hrow. rewrite Hid. by apply H1.
  - intros j k c d key (c0 & Hc & _ & Hk & _)%Hrow (d0 & Hd & _ & Hk' & _)%Hrow E1 E2. apply (H2 j k c0 d0 key); congruence.
  - intros j d p (c & Hc & _ & _ & Hp & _)%Hrow E. rewrite Hp in E. destruct (H3 _ _ _ Hc E) as (r & Hr & Hn).
    destruct (Hrow' _ _ Hr) as (r' & Hr' & _ & _ & Hp' & _). exists r'. split; [done|congruence].
  - intros j d (c & Hc & _)%Hrow. by apply (H4 j c).
  - exact H5.
Qed.
Lemma keeps_decision (f : ModerationComment -> ModerationComment) : (forall m, mo_comment (f m) = mo_comment m) ->
  keeps (fun w => w <| cm_moderation ::= fmap f |>).
Proof.
  intros Hf w [H1 H2 H3 H4 [H5 H6]]. split; [|exact (comment_guar_refl w)].
  assert (forall i l, length (filter (fun m => mo_comment m =? i) (f <$> l)) = length (filter (fun m => mo_comment m =? i) l)) as Hl.
  { intros i l. induction l as [|m l IH]; [done|]. cbn [fmap list_fmap]. rewrite !filter_cons, Hf. destruct (decide _); cbn; by rewrite IH. }
  split; cbn; try done.
  - intros i c Hi. rewrite Hl. by apply (H4 i c).
  - split; [done|]. apply Forall_fmap. eapply Forall_impl; [exact H6|]. intros m. cbn. by rewrite Hf.
Qed.

Definition top_level (p : option Z) (w : CommentDB) : Prop :=
  match parent_of p with Some q => exists r, cm_rows w !! q = Some r /\ co_parent r = None | None => True end.
Lemma lasting_top p : lasting (top_level p).
Proof.
  intros w w' H HG. unfold top_level in *. destruct (parent_of p) as [q|]; [|done]. destruct H as (r & Hr & Hn).
  destruct (HG _ _ Hr) as (r' & Hr' & _ & _ & Hp & _). exists r'. split; [done|congruence].
Qed.
(** The comment that answers a request: its row, under the key of the request. *)
Definition answers (key : option string) (c : Comment) (w : CommentDB) : Prop :=
  exists d, cm_rows w !! co_id c = Some d /\ forall k, key = Some k -> truthy k = true -> co_key d = Some k.
Lemma lasting_answers key c : lasting (answers key c).
Proof.
  intros w w' (d & Hd & Hk) HG. destruct (HG _ _ Hd) as (d' & Hd' & _ & Hkey & _). exists d'. split; [done|]. intros k. rewrite Hkey. apply Hk.
Qed.
Lemma keeps_insert_comment txt user cf ctx conf p key w :
  comment_inv w -> top_level p w ->
  let r := insert_comment uuid txt user cf ctx conf p key w in
  comment_inv r.2 /\ comment_guar w r.2 /\ forall c, r.1 = Ok c -> answers key c r.2.
Proof.
  intros [H1 H2 H3 H4 [H5 H6]] Htop. cbv zeta. pose proof (insert_comment_shape txt user cf ctx conf p key w) as H.
  destruct (insert_comment uuid txt user cf ctx conf p key w) as [[c|e] w']; cbn.
  2: { subst w'. split; [|split; [exact (comment_guar_refl w)|done]]. split; cbn; try done.
    - intros i c Hc. destruct (H1 _ _ Hc). split; [done|lia].
    - split; [lia|]. eapply Forall_impl; [exact H6|]. cbn. lia. }
  destruct H as [Hrow Hrows Hseq (m & Hmod & Hm & _) Hkey Hpar _].
  assert (forall i d, cm_rows w !! i = Some d -> i <> cm_seq w + 1) as Hfresh by (intros i d Hd; destruct (H1 _ _ Hd); lia).
  assert (co_id c = cm_seq w + 1) as Hid by (by rewrite Hrow).
  assert (comment_guar w w') as HG.
  { intros i d Hd. exists d. rewrite Hrows, lookup_insert_ne by (by apply not_eq_sym, (Hfresh i d)). done. }
  split; [|split; [exact HG|]].
  - split.
    + intros i d. rewrite Hrows, Hseq. intros [[<- <-]|[_ Hd]]%lookup_insert_Some; [lia|]. destruct (H1 _ _ Hd). split; [done|lia].
    + intros i j d d' k. rewrite Hrows. intros [[<- <-]|[_ Hd]]%lookup_insert_Some [[<- <-]|[_ Hd']]%lookup_insert_Some E1 E2; [done|..].
      * by destruct (Hkey _ _ _ E1 Hd').
      * by destruct (Hkey _ _ _ E2 Hd).
      * by eapply H2.
    + intros i d q. rewrite Hrows at 1. intros [[<- <-]|[_ Hd]]%lookup_insert_Some E.
      * assert (parent_of p = Some q) as Hq by (by rewrite Hrow in E). unfold top_level in Htop. rewrite Hq in Htop.
        destruct Htop as (r & Hr & Hn). destruct (HG _ _ Hr) as (r' & Hr' & _ & _ & Hp & _). exists r'. split; [done|congruence].
      * destruct (H3 _ _ _ Hd E) as (r & Hr & Hn). destruct (HG _ _ Hr) as (r' & Hr' & _ & _ & Hp & _). exists r'. split; [done|congruence].
    + intros i d. rewrite Hrows, Hmod, filter_app, length_app. intros [[<- <-]|[_ Hd]]%lookup_insert_Some.
      * assert (filter (fun m => mo_comment m =? cm_seq w + 1) (cm_moderation w) = []) as ->.
        { clear -H6. induction H6 as [|x l Hx Hl IH]; [done|]. rewrite filter_cons_False; [exact IH|]. intros Hc%Is_true_true. lia. }
        cbn [length]. by rewrite filter_cons, Hm, Z.eqb_refl.
      * rewrite (H4 _ _ Hd), filter_cons, Hm. destruct (decide _) as [Hc%Is_true_true|]; [|done]. pose proof (Hfresh _ _ Hd). lia.
    + rewrite Hseq, Hmod. split; [lia|]. apply Forall_app. split; [eapply Forall_impl; [exact H6|]; cbn; lia|].
      apply Forall_singleton. lia.
  - intros c0 [= <-]. exists c. rewrite Hrows, Hid, lookup_insert_eq. split; [done|]. intros k -> Hk. rewrite Hrow. cbn. by rewrite Hk.
Qed.

Lemma tame_update_comment i f : (forall now c, same_comment c (f now c)) -> tame (update_comment i f).
Proof. intros Hf. by apply tame_writes, keeps_row. Qed.
Lemma tame_moderate i st u : tame (moderateComment i st u).
Proof.
  unfold moderateComment. repeat tame_step; [|by apply keeps_other..]. apply keeps_decision. intros m. by destruct (_ =? _).
Qed.
Lemma tame_edit i txt u : tame (edit i txt u).
Proof. unfold edit. repeat first [apply tame_update_comment|tame_step]. intros now c. by destruct (parseMentions txt). Qed.
Lemma tame_delete i u : tame (delete i u).
Proof. unfold delete. repeat first [apply tame_update_comment|tame_step]; [done|by apply keeps_other]. Qed.

Lemma spec_create_comment txt user cf ctx p key t :
  spec t (fun _ => True) (create uuid txt user cf ctx p key)
    (fun o w => match o with Ok c => answers key c w | Exn _ => True end).
Proof.
  unfold create. apply spec_then; [by repeat tame_step|done|done|]. intros conf. apply spec_then; [by repeat tame_step|done|done|]. intros confession.
  apply rg_bind with (Q := fun _ => top_level p).
  { unfold top_level. destruct (parent_of p) as [q|]; [|by intros w].
    apply spec_reads_then with (F' := fun r w => forall c, r = Some c -> cm_rows w !! q = r \/ exists r', cm_rows w !! q = Some r' /\ co_parent r' = co_parent c);
      [apply comment_guar_refl|by intros w _ _ c _; left|..].
    { intros r w w' H HG c Hc. right. destruct (H c Hc) as [Hq|(r' & Hr' & Hp)].
      - rewrite Hc in Hq. destruct (HG _ _ Hq) as (d & Hd & _ & _ & Hp & _). by exists d.
      - destruct (HG _ _ Hr') as (d & Hd & _ & _ & Hp' & _). exists d. split; [done|congruence]. }
    intros [r|]; [|by intros w]. cbn [of_option bind]. unfold guard. destruct (co_parent r) as [q'|] eqn:Hr; cbn.
    - destruct (truthy_num q') eqn:Hq'; [by intros w|]. intros w HI H. exfalso. unfold truthy_num in Hq'. apply negb_false_iff, Z.eqb_eq in Hq'. subst q'.
      destruct (H r eq_refl) as [H0|(r' & H0 & Hp)].
      + destruct (ci_parent _ HI _ _ _ H0 Hr) as (x & Hx & _). destruct (ci_id _ HI _ _ Hx). lia.
      + rewrite Hr in Hp. destruct (ci_parent _ HI _ _ _ H0 Hp) as (x & Hx & _). destruct (ci_id _ HI _ _ Hx). lia.
    - intros w HI H. destruct (H r eq_refl) as [H0|(r' & H0 & Hp)]; [by exists r|]. exists r'. split; [done|congruence]. }
  intros []. apply rg_bind with (Q := fun o w => top_level p w /\ match o with Some e => answers key e w | None => True end).
  { destruct key as [k|]; [|by intros w]. destruct (truthy k) eqn:Hk; [|by intros w].
    intros w HI Htop. cbn. split; [done|]. split; [apply comment_guar_refl|].
    exists (fun w' => top_level p w' /\ match find_comment (has_key k) w with Some e => answers (Some k) e w' | None => True end).
    assert (lasting (fun w' => top_level p w' /\ match find_comment (has_key k) w with Some e => answers (Some k) e w' | None => True end)) as HL.
    { apply lasting_and; [apply lasting_top|]. destruct (find_comment _ w); [apply lasting_answers|done]. }
    split; [|split; [intros t' v v' _ _; apply HL|by intros v]]. split; [done|].
    destruct (find_comment _ w) as [e|] eqn:Hf; [|done]. apply find_comment_Some in Hf as (i & Hi & He). exists e.
    rewrite (proj1 (ci_id _ HI _ _ Hi)). split; [done|]. intros k' [= <-] _. unfold has_key in He. by apply bool_decide_eq_true in He. }
  intros [e|]; [by intros w HI [_ H]|].
  apply spec_attempts_then with (F' := fun c => answers key c).
  - intros w HI [Htop _]. by apply keeps_insert_comment.
  - intros c. apply lasting_answers.
  - done.
  - intros c. apply spec_then; [apply tame_writes; by apply keeps_other|apply lasting_answers|done|]. intros _.
    apply spec_then; [apply tame_writes; by apply keeps_other|apply lasting_answers|done|]. by intros _ w.
Qed.

(** The requests of users and moderators, the removal of confessions, and time. *)
Inductive CommentOp :=
| Create (txt user cf ctx : string) (parent : option Z) (key : option string)
| Edit (i : Z) (txt user : string) | Delete (i : Z) (user : string) | Approve (i admin : Z) | Reject (i admin : Z)
| RemoveConfession (cf : string) | Elapse (d : ms).
Definition serve_comment (o : CommentOp) : action (option Comment) :=
  match o with
  | Create txt user cf ctx p key => let* c := create uuid txt user cf ctx p key in Ret (Some c)
  | Edit i txt user => do* edit i txt user in Ret None
  | Delete i user => do* delete i user in Ret None
  | Approve i admin => do* approveComment i admin in Ret None
  | Reject i admin => do* rejectComment i admin in Ret None
  | RemoveConfession cf => do* writes (fun w => w <| cm_confessions ::= alter (fun c => {| cc_isDeleted := true; cc_mail := cc_mail c |}) cf |>) in Ret None
  | Elapse d => do* writes (fun w => w <| cm_clock ::= Z.add d |>) in Ret None
  end.
Definition replied (ops : gmap positive CommentOp) (t : positive) (o : outcome comment_error (option Comment)) (w : CommentDB) : Prop :=
  match o with
  | Ok (Some c) => forall txt user cf ctx p key, ops !! t = Some (Create txt user cf ctx p key) -> answers key c w
  | _ => True
  end.
Lemma serve_replied ops t o : ops !! t = Some o -> spec t (fun _ => True) (serve_comment o) (replied ops t).
Proof.
  intros Ho. assert (forall A (p : action A), tame p -> spec t (fun _ => True) (do* p in Ret None) (replied ops t)) as Hother.
  { intros A p Hp. apply spec_then; [done|done|done|]. by intros a w. }
  destruct o; cbn [serve_comment]; try apply Hother.
  - eapply rg_bind; [eapply rg_post; [|apply spec_create_comment]|].
    + intros [c|e] w; [|done]. intros H. exact H.
    + intros c w _ H. intros txt' user' cf' ctx' p' key' Heq. rewrite Ho in Heq. injection Heq as _ _ _ _ _ <-. exact H.
  - apply tame_edit.
  - apply tame_delete.
  - unfold approveComment. apply tame_bind; [apply tame_moderate|]. intros r. apply tame_bind; [|intros; apply tame_ret].
    by apply tame_writes, keeps_other.
  - unfold rejectComment. apply tame_bind; [apply tame_moderate|]. intros r. apply tame_bind; [|intros; apply tame_ret].
    by apply tame_writes, keeps_other.
  - by apply tame_writes, keeps_other.
  - by apply tame_writes, keeps_other.
Qed.

(** C38. A comment is created once.  However requests interleave - creations, edits,
    deletions, decisions - from a sound store: every idempotency key has at most one
    comment, replies are of top-level comments that exist, and every comment has one
    moderation entry; and creations answered under one key have answered the same
    comment. *)
Theorem comment_once (ops : gmap positive CommentOp) w0 w ps :
  comment_inv w0 -> pool_reach (w0, serve_comment <$> ops) (w, ps) ->
  comment_inv w
  /\ forall t t' txt txt' user user' cf cf' ctx ctx' p p' k c c', truthy k = true ->
      ops !! t = Some (Create txt user cf ctx p (Some k)) -> ps !! t = Some (Ret (Some c)) ->
      ops !! t' = Some (Create txt' user' cf' ctx' p' (Some k)) -> ps !! t' = Some (Ret (Some c')) ->
      co_id c' = co_id c /\ is_Some (cm_rows w !! co_id c).
Proof.
  intros HI Hreach. destruct (tame_pool comment_inv comment_guar (replied ops) w0 (serve_comment <$> ops) w ps HI) as [HIw Hps]; [|exact Hreach|].
  { intros t p. rewrite lookup_fmap_Some. intros (o & <- & Ho). by apply serve_replied. }
  split; [exact HIw|]. intros t t' txt txt' user user' cf cf' ctx ctx' p p' k c c' Hk Ho Ht Ho' Ht'.
  destruct (Hps _ _ Ht _ _ _ _ _ _ Ho) as (d & Hd & Hdk). destruct (Hps _ _ Ht' _ _ _ _ _ _ Ho') as (d' & Hd' & Hdk').
  split; [|by eexists]. symmetry. eapply (ci_key _ HIw); [exact Hd|exact Hd'|by apply Hdk|by apply Hdk'].
Qed.
End safety.

(** ** Pages *)

(** A page shows comments of its confession, while that is not deleted, which a moderator
    has approved; of a deleted parent only when asked for; and not more than its limit. *)
Theorem page_approved sql_date sql_int in_order (confessionId : string) (q : GetCommentsQueryDto) (w w' : CommentDB) (pg : CommentPage) :
  (forall byId asc l c, c ∈ in_order byId asc l -> c ∈ l) ->
  run (findByConfessionId sql_date sql_int in_order confessionId q) w = (Ok pg, w') ->
  w' = w /\ (length (pg_data pg) <= cq_limit q)%nat
  /\ forall s, s ∈ pg_data pg -> let c := sh_comment s in
       (exists cf, cm_confessions w !! co_confession c = Some cf /\ cc_isDeleted cf = false) /\ co_confession c = confessionId
       /\ (exists m, m ∈ cm_moderation w /\ mo_comment m = co_id c /\ mo_status m = C_APPROVED)
       /\ (cq_orphans q = false -> parent_lives w c = true).
Proof.
  intros Hord. unfold findByConfessionId. rewrite run_bind, run_reads, run_bind, run_of_option.
  destruct (page_where sql_date sql_int confessionId q w) as [[P skip]|] eqn:HP; [|done]. cbn [run].
  set (rows := in_order _ _ _). set (l := map _ _). intros [= <- <-]. split; [done|]. cbn [pg_data].
  assert (forall s, s ∈ l -> P (sh_comment s) = true) as Hl.
  { intros s (c & -> & Hc)%list_elem_of_fmap. cbn. apply elem_of_firstn, elem_of_skipn, Hord, list_elem_of_filter in Hc.
    by destruct Hc as [Hc%Is_true_true _]. }
  assert (forall s, s ∈ (if (cq_limit q <? length l)%nat then firstn (cq_limit q) l else l) -> P (sh_comment s) = true) as Hl'.
  { intros s Hs. apply Hl. destruct (_ <? _)%nat; [|done]. by apply elem_of_firstn in Hs. }
  split.
  - destruct (Nat.ltb_spec (cq_limit q) (length l)); [rewrite length_firstn; lia|lia].
  - intros s Hs%Hl'. cbv zeta. unfold page_where in HP. destruct (match decodeCursor _ with Some _ => _ | None => _ end) as [pos|]; [|done].
    injection HP as <- _. apply andb_true_iff in Hs as [[[[H1 H2]%andb_true_iff _]%andb_true_iff H3]%andb_true_iff _].
    unfold of_confession in H1. apply andb_true_iff in H1 as [H1%str_eqb_eq H4]. rewrite H1. split_and!; [|done| |].
    + destruct (cm_confessions w !! confessionId) as [cf|]; [|done]. exists cf. split; [done|]. by apply negb_true_iff in H4.
    + apply existsb_exists in H2 as (m & Hm & [Hi%Z.eqb_eq Hst%bool_decide_eq_true]%andb_true_iff). exists m. split; [by apply list_elem_of_In|done].
    + intros Ho. by rewrite Ho in H3.
Qed.

(** ** Examples *)

Definition ex_uuid (n : nat) : string := "e" +:+ pretty (N.of_nat n).
Definition ex_comments : CommentDB := {|
  cm_clock := 1000; cm_confessions := {[ "c" := {| cc_isDeleted := false; cc_mail := Some "m@x" |} ]}; cm_rows := ∅; cm_seq := 0;
  cm_moderation := []; cm_outbox := []; cm_uuids := 0; cm_analytics := []; cm_trending := []; cm_stats := []; cm_audit := [] |}.
Lemma ex_comments_inv : comment_inv ex_comments.
Proof.
  assert (forall i, cm_rows ex_comments !! i = None) as He by exact (fun i => lookup_empty i).
  split; try (intros; rewrite He in *; discriminate). by split.
Qed.
(** Two creations under one key, one after the other. *)
Definition ex_creations : gmap positive CommentOp :=
  {[ 1%positive := Create "hi @bob" "ann" "c" "x" None (Some "k"); 2%positive := Create "hi @bob" "ann" "c" "x" None (Some "k") ]}.
Definition ex_created : CommentDB * gmap positive (action (option Comment)) :=
  run_schedule (replicate 6 1%positive ++ replicate 6 2%positive) (ex_comments, serve_comment ex_uuid <$> ex_creations).
Definition ex_comment : Comment := new_comment 1 "hi @bob" "ann" "c" "x" None ["bob"] (Some "k") 1000.
Lemma comment_once_witness :
  comment_inv ex_created.1 /\ co_id ex_comment = co_id ex_comment /\ is_Some (cm_rows ex_created.1 !! 1).
Proof.
  pose proof (comment_once ex_uuid ex_creations ex_comments ex_created.1 ex_created.2 ex_comments_inv) as H.
  rewrite <- surjective_pairing in H. destruct (H (run_schedule_reach _ _)) as [HI Hsame]. split; [exact HI|].
  apply (Hsame 1%positive 2%positive "hi @bob" "hi @bob" "ann" "ann" "c" "c" "x" "x" None None "k" ex_comment ex_comment).
  - reflexivity.
  - reflexivity.
  - vm_compute. reflexivity.
  - reflexivity.
  - vm_compute. reflexivity.
Defined.

(** ** Where moderation is escaped, and other surprises *)

Definition no_date (v : option json) : option ms := None.
Definition as_int (v : option json) : option Z := match v with Some (JNum (Fin x)) => Some (Qfloor x) | _ => None end.
(** The order of the ids, up or down. *)
Definition by_id (byId asc : bool) (l : list Comment) : list Comment :=
  insertion_sort (fun a b => if asc then co_id a <=? co_id b else co_id b <=? co_id a) l.
Definition after {A} (w : CommentDB) (p : action A) : CommentDB := (run p w).2.
Definition post (txt user : string) (parent : option Z) (key : option string) : action Comment := create ex_uuid txt user "c" "x" parent key.
Definition all_comments (cursor : option string) : action CommentPage :=
  findByConfessionId no_date as_int by_id "c" {| cq_cursor := cursor; cq_limit := 1; cq_page := None; cq_byId := true; cq_asc := true; cq_orphans := false |}.
Definition shown (p : action CommentPage) (w : CommentDB) : list (string * list string) :=
  match (run p w).1 with Ok pg => map (fun s => (co_content (sh_comment s), map co_content (sh_replies s))) (pg_data pg) | Exn _ => [] end.

(** A reply that nobody has approved is shown with its parent. *)
Theorem unapproved_reply_shown :
  let w := after (after (after ex_comments (post "first" "ann" None None)) (approveComment 1 9)) (post "spam" "eve" (Some 1) None) in
  shown (all_comments None) w = [("first", ["spam"])].
Proof. vm_compute. reflexivity. Qed.

(** A comment that was approved is changed within its window, and stays approved. *)
Theorem edit_escapes_moderation :
  let w := after (after (after ex_comments (post "first" "ann" None None)) (approveComment 1 9)) (edit 1 "spam" "ann") in
  shown (all_comments None) w = [("spam", [])].
Proof. vm_compute. reflexivity. Qed.

(** Two moderators decide at once: both are answered, and the later one stands. *)
Theorem decided_twice :
  let s := run_schedule [1; 2; 1; 1; 1; 1; 1; 2; 2; 2; 2; 2]%positive (after ex_comments (post "first" "ann" None None),
             {[ 1%positive := approveComment 1 8; 2%positive := rejectComment 1 9 ]}) in
  (map mo_status (cm_moderation s.1), cm_audit s.1) = ([C_REJECTED], [("comment_approved", 1, 8); ("comment_rejected", 1, 9)]).
Proof. vm_compute. reflexivity. Qed.

(** A key that is the number of a comment to come takes the key of its event: that
    comment cannot be created. *)
Theorem key_blocks_comment :
  let w := after ex_comments (post "first" "eve" None (Some "2")) in
  (run (post "second" "ann" None None) w).1 = Exn QueryFailed.
Proof. vm_compute. reflexivity. Qed.

(** A key is looked up for nobody in particular: another user's comment is answered,
    and the new one is not stored. *)
Theorem key_of_another :
  let w := after ex_comments (post "mine" "ann" None (Some "k")) in
  let '(o, w') := run (post "yours" "eve" None (Some "k")) w in
  (match o with Ok c => co_author c | Exn _ => "" end, cm_rows w') = ("ann", cm_rows w).
Proof. vm_compute. reflexivity. Qed.

(** A mention that an edit has removed stays stored. *)
Theorem mention_stays :
  let w := after (after ex_comments (post "hi @bob" "ann" None None)) (edit 1 "hi" "ann") in
  cm_rows w !! 1 ≫= co_mentions = Some ["bob"].
Proof. vm_compute. reflexivity. Qed.

(** The first page is of top-level comments, the pages behind its cursor are not: the
    reply comes again, as a comment of its own. *)
Theorem cursor_pages_show_replies :
  let w := after (after (after ex_comments (post "first" "ann" None None)) (approveComment 1 9)) (post "reply" "eve" (Some 1) None) in
  let w := after (after (after w (post "second" "ann" None None)) (approveComment 2 9)) (approveComment 3 9) in
  let next := match (run (all_comments None) w).1 with Ok pg => pg_next pg | Exn _ => None end in
  (shown (all_comments None) w, shown (all_comments next) w) = ([("first", ["reply"])], [("reply", [])]).
Proof. vm_compute. reflexivity. Qed.
