(* ===== verification/JobManagement.v ===== *)
(** * The dead letters of notifications

    [src/xconfess-backend/src/notifications/services/job-management.service.ts]: what
    operators do with the jobs [Delivery] has given up: list, replay into the main
    queue, clean up and export them.  The data of a job is JSON; the main queue keeps
    the promises of [JobQueue]; how the dead-letter queue cuts its pages and how [Date]
    reads a text are parameters.  A job in hand is a copy: [updateData] changes the copy
    and the queue. *)
From stdpp Require Import pretty.
From S2P Require Import Prelude Numbers Json Dates Effects JobQueue Base64 Cursor Csv.
Open Scope Z_scope.

(** ** Data *)

(** A job of the dead-letter queue, as far as it is read. *)
Record DlqJob := {
  dj_id : string; dj_name : string; dj_data : json; dj_attemptsMade : option Z; dj_attempts : option Z;
  dj_timestamp : option ms; dj_finishedOn : option ms; dj_failedReason : option string }.
#[export] Instance eta_DlqJob : Eta DlqJob := fun j => {|
  dj_id := dj_id j; dj_name := dj_name j; dj_data := dj_data j; dj_attemptsMade := dj_attemptsMade j; dj_attempts := dj_attempts j;
  dj_timestamp := dj_timestamp j; dj_finishedOn := dj_finishedOn j; dj_failedReason := dj_failedReason j |}.

(** [src notifications/services/job-management.service.ts:17-22 DlqJobFilter] *)
Record DlqJobFilter := { f_after : option string; f_before : option string; f_search : option string; f_ids : option (list string) }.
Inductive ReplayResult := REPLAYED | DEDUPLICATED | REPLAY_FAILED | MAX_RETRIES_EXCEEDED.
#[export] Instance ReplayResult_eq_dec : EqDecision ReplayResult.
Proof. solve_decision. Defined.
(** [src notifications/services/job-management.service.ts:24-32 DlqReplayOutcome] *)
Record DlqReplayOutcome := {
  ro_jobId : string; ro_originalJobId : option string; ro_replayJobId : string; ro_outcome : ReplayResult;
  ro_newJobId : option string; ro_existingJobId : option string; ro_error : option string }.
(** [src notifications/services/job-management.service.ts:37-42 DlqCleanupOutcome]; the
    outcome is [removed] where there is no error. *)
Record DlqCleanupOutcome := { co_jobId : string; co_originalJobId : option string; co_error : option string }.
Record ReplaySummary := { attempted : nat; replayed : nat; deduplicated : nat; rs_failed : nat; rs_noOp : bool }.
Record CleanupSummary := { cs_attempted : nat; cs_removed : nat; cs_failed : nat; cs_noOp : bool }.

(** What the audit log keeps of an operation. *)
Inductive DlqAudit :=
| ReplayAudit (single : bool) (actor operation : string) (targets : list json) (outcomes : list DlqReplayOutcome) (summary : ReplaySummary)
| CleanupAudit (retention : bool) (actor operation : string) (targets : list json) (outcomes : list DlqCleanupOutcome) (summary : CleanupSummary).

(** [src config/dlq-retention.config.ts:3-7 DlqRetentionConfig]; the dry run is what the
    environment gives: a text, by the rules of [env.validation.ts]. *)
Record DlqRetentionConfig := { rc_days : Z; rc_batch : Z; rc_dryRun : json }.

Inductive dlq_error := JobNotFound (m : string) | Rejected (m : string).
Definition dlq_message (e : dlq_error) : string := match e with JobNotFound m | Rejected m => m end.

(** [src notifications/services/job-management.service.ts:35-35 MAX_DLQ_REPLAYS] *)
Definition MAX_DLQ_REPLAYS : Z := 3.

Section service.
Context {Q : Type} `{!JobQueue json Q}.
Context (range : Z -> Z -> list DlqJob -> list DlqJob).
Context (Date_parse : string -> option ms).
Abbreviation Date_of := (new_Date Date_parse).

Record DlqDB := {
  dq_clock : ms;
  dq_jobs : list DlqJob;
  dq_locked : list string;
  dq_main : Q;
  dq_main_up : bool;
  dq_audit : list DlqAudit;
  dq_events : list (string * string);
}.
#[export] Instance eta_DlqDB : Eta DlqDB := fun w => {|
  dq_clock := dq_clock w; dq_jobs := dq_jobs w; dq_locked := dq_locked w; dq_main := dq_main w; dq_main_up := dq_main_up w;
  dq_audit := dq_audit w; dq_events := dq_events w |}.
Abbreviation action := (prog DlqDB dlq_error).

(** ** The queues *)

Definition dlq_getJob (i : string) (w : DlqDB) : option DlqJob := List.find (fun j => dj_id j =s? i) (dq_jobs w).
(** [job.remove()] rejects while a worker holds the job. *)
Definition job_remove (j : DlqJob) : action unit :=
  attempts (fun w =>
    if includes (dj_id j) (dq_locked w)
    then (Exn (Rejected ("Job " +:+ dj_id j +:+ " could not be removed because it is locked by another worker")), w)
    else (Ok tt, w <| dq_jobs ::= filter (fun k => dj_id k <> dj_id j) |>)).
(** [job.updateData(data)] rejects when the job is gone. *)
Definition job_updateData (j : DlqJob) (data : json) : action DlqJob :=
  attempts (fun w => match dlq_getJob (dj_id j) w with
    | None => (Exn (Rejected ("Missing key for job " +:+ dj_id j +:+ ". updateData")), w)
    | Some _ => (Ok (j <| dj_data := data |>),
                 w <| dq_jobs ::= fmap (fun k => if dj_id k =s? dj_id j then k <| dj_data := data |> else k) |>)
    end).
(** [mainQueue.add('send-notification', payload, { jobId })]. *)
Definition main_add (i : string) (payload : json) : action string :=
  attempts (fun w => if dq_main_up w then (Ok i, w <| dq_main ::= job_add (Some i) payload |>)
                     else (Exn (Rejected "Connection is closed."), w)).

(** ** Fields of a job *)

(** [job.data._meta?.k]. *)
Definition meta (k : string) (j : DlqJob) : option json := json_get "_meta" (dj_data j) ≫= json_get k.
(** [v || null] of a text. *)
Definition truthy_text (v : option json) : option string :=
  match v with Some x => if json_truthy x then Some (json_string x) else None | None => None end.
Definition of_opt (o : option string) (d : option string) : option string := match o with Some x => Some x | None => d end.
(** [v ?? d]. *)
Definition nullish (v : option json) (d : json) : json := match v with Some JNull | None => d | Some x => x end.

(** [src notifications/services/job-management.service.ts:136-145 getDlqAttemptsMade] *)
Definition getDlqAttemptsMade (j : DlqJob) : jsnum :=
  match meta "attemptsMade" j with Some (JNum n) => n | _ => num_of_Z (default 0 (dj_attemptsMade j)) end.
(** [src notifications/services/job-management.service.ts:147-152 getDlqMaxAttempts] *)
Definition getDlqMaxAttempts (j : DlqJob) : Z := default 1 (dj_attempts j).
(** [src notifications/services/job-management.service.ts:154-158 getDlqReplayCount] *)
Definition getDlqReplayCount (j : DlqJob) : jsnum := match meta "replayCount" j with Some (JNum n) => n | _ => num_of_Z 0 end.
(** [src notifications/services/job-management.service.ts:160-164 timestampToIsoString] *)
Definition timestampToIsoString (t : option ms) : option string := toISOString <$> t.
(** [src notifications/services/job-management.service.ts:166-172 getStringField] *)
Definition getStringField (record : json) (field : string) : option string :=
  match json_get field record with Some (JStr s) => if truthy s then Some s else None | _ => None end.
(** [src notifications/services/job-management.service.ts:48-52 toRecord] *)
Definition toRecord (v : option json) : json := match v with Some (JObj fs) => JObj fs | Some (JArr l) => JArr l | _ => JObj [] end.
(** [src notifications/services/job-management.service.ts:397-399 getOriginalJobId] *)
Definition getOriginalJobId (j : DlqJob) : option string := truthy_text (meta "originalJobId" j).
(** [src notifications/services/job-management.service.ts:401-403 buildReplayJobId] *)
Definition buildReplayJobId (j : DlqJob) : string := "dlq-replay:" +:+ default (dj_id j) (getOriginalJobId j).
Definition field_or_null (v : option json) : json := default JNull v.
(** [src notifications/services/job-management.service.ts:405-414 toAuditTarget]; an
    undefined field is left out. *)
Definition toAuditTarget (j : DlqJob) : json := JObj (
  [("jobId", JStr (dj_id j)); ("originalJobId", json_opt_str (getOriginalJobId j))]
  ++ match json_get "type" (dj_data j) with Some v => [("type", v)] | None => [] end
  ++ match json_get "userId" (dj_data j) with Some v => [("userId", v)] | None => [] end
  ++ [("failedAt", json_opt_str (truthy_text (meta "failedAt" j))); ("lastError", json_opt_str (truthy_text (meta "lastError" j)))]).

(** What the list answers of a job. *)
Record DlqView := {
  dv_id : string; dv_name : string; dv_attemptsMade : jsnum; dv_maxAttempts : Z; dv_failedReason : option string;
  dv_failedAt : option string; dv_createdAt : option string; dv_channel : string; dv_recipientEmail : option string;
  dv_userId : option json; dv_type : option json; dv_title : option json; dv_enqueuedAt : option ms }.
(** [src notifications/services/job-management.service.ts:98-134 serializeDlqJob] *)
Definition serializeDlqJob (j : DlqJob) : DlqView :=
  let metadata := toRecord (json_get "metadata" (dj_data j)) in {|
  dv_id := dj_id j;
  dv_name := if truthy (dj_name j) then dj_name j else default "dead-letter" (truthy_text (json_get "type" (dj_data j)));
  dv_attemptsMade := getDlqAttemptsMade j; dv_maxAttempts := getDlqMaxAttempts j;
  dv_failedReason := of_opt (truthy_text (meta "lastError" j)) (if truthy_opt (dj_failedReason j) then dj_failedReason j else None);
  dv_failedAt := of_opt (truthy_text (meta "failedAt" j)) (timestampToIsoString (dj_finishedOn j));
  dv_createdAt := timestampToIsoString (dj_timestamp j);
  dv_channel := default "email" (getStringField metadata "channel");
  dv_recipientEmail := of_opt (getStringField (dj_data j) "recipientEmail") (getStringField metadata "recipientEmail");
  dv_userId := json_get "userId" (dj_data j); dv_type := json_get "type" (dj_data j); dv_title := json_get "title" (dj_data j);
  dv_enqueuedAt := dj_timestamp j |}.

(** ** Filters *)

Definition nonempty {A} (l : list A) : option (list A) := match l with [] => None | _ => Some l end.
Definition split_trim (parts : list string) : option (list string) := nonempty (filter (fun s => truthy s) (map trim parts)).
(** [src notifications/services/job-management.service.ts:332-353 parseListOption] *)
Definition parseListOption (v : option json) : option (list string) :=
  match v with
  | Some (JArr l) => split_trim (concat (map (fun e => match e with JStr s => split_on ","%char s | _ => [json_string e] end) l))
  | Some (JStr s) => split_trim (split_on ","%char s)
  | _ => None
  end.
Definition string_option (k : string) (o : json) : option string := match json_get k o with Some (JStr s) => Some s | _ => None end.
(** [src notifications/services/job-management.service.ts:319-330 normalizeDlqFilter] *)
Definition normalizeDlqFilter (options : json) : DlqJobFilter := {|
  f_after := string_option "failedAfter" options; f_before := string_option "failedBefore" options;
  f_search := string_option "search" options;
  f_ids := parseListOption (match json_get "jobIds" options with Some JNull | None => json_get "ids" options | v => v end) |}.
(** [a < b] of dates; an invalid one is not less than another. *)
Definition date_lt (a b : option ms) : bool := match a, b with Some x, Some y => x <? y | _, _ => false end.
(** [src notifications/services/job-management.service.ts:355-386 matchesDlqFilter] *)
Definition matchesDlqFilter (j : DlqJob) (f : DlqJobFilter) : bool :=
  let failedAt := match meta "failedAt" j with Some v => if json_truthy v then Some (Date_of v) else None | None => None end in
  let outside (limit : option string) (cmp : option ms -> option ms -> bool) :=
    match limit, failedAt with Some l, Some t => truthy l && cmp t (Date_parse l) | _, _ => false end in
  if match f_ids f with Some ids => negb (includes (dj_id j) ids) | None => false end then false
  else if outside (f_after f) date_lt then false
  else if outside (f_before f) (fun t l => date_lt l t) then false
  else match f_search f with
       | Some s => if truthy s then contains_str (to_lower s) (to_lower (stringify (dj_data j))) else true
       | None => true
       end.
(** [src notifications/services/job-management.service.ts:388-391 getFilteredDlqJobs] *)
Definition getFilteredDlqJobs (f : option DlqJobFilter) : action (list DlqJob) :=
  reads (fun w => match f with Some f => filter (fun j => matchesDlqFilter j f) (dq_jobs w) | None => dq_jobs w end).

(** [src notifications/services/job-management.service.ts:70-96 listDlqJobs] *)
Definition listDlqJobs (page limit : Z) (f : option DlqJobFilter) : action (list DlqView * nat) :=
  let start := (page - 1) * limit in
  let* jobs := reads (fun w => range start (start + limit - 1) (dq_jobs w)) in
  let* total := reads (fun w => length (dq_jobs w)) in
  let jobs := match f with Some f => filter (fun j => matchesDlqFilter j f) jobs | None => jobs end in
  Ret (map serializeDlqJob jobs, total).

(** ** Replay *)

(** [src notifications/services/job-management.service.ts:393-395 buildOperationId] *)
Definition buildOperationId (name actor : string) : action string :=
  reads (fun w => name +:+ ":" +:+ actor +:+ ":" +:+ pretty (dq_clock w)).
Definition count_of {A} (p : A -> bool) (l : list A) : nat := length (filter (fun x => p x) l).
Definition result_is (r : ReplayResult) (o : DlqReplayOutcome) : bool := bool_decide (ro_outcome o = r).
(** [src notifications/services/job-management.service.ts:416-430 buildReplaySummary] *)
Definition buildReplaySummary (outcomes : list DlqReplayOutcome) : ReplaySummary := {|
  attempted := length outcomes; replayed := count_of (result_is REPLAYED) outcomes;
  deduplicated := count_of (result_is DEDUPLICATED) outcomes; rs_failed := count_of (result_is REPLAY_FAILED) outcomes;
  rs_noOp := match outcomes with [] => true | _ => false end |}.
(** [x + 1] of a field that is a number or absent. *)
Definition count_up (v : option json) : json :=
  match v with
  | None | Some JNull => JNum (num_of_Z 1)
  | Some (JNum n) => JNum (num_add n (num_of_Z 1))
  | Some x => JStr (json_string x +:+ "1")
  end.
(** [src notifications/services/job-management.service.ts:563-587 markJobAsReplayed] *)
Definition markJobAsReplayed (j : DlqJob) (replayJobId outcome : string) : action DlqJob :=
  let* now := reads (fun w => toISOString (dq_clock w)) in
  let m := JObj (match meta "originalJobId" j with Some v => [("originalJobId", v)] | None => [] end ++ [
    ("failedAt", nullish (meta "failedAt" j) (JStr now)); ("attemptsMade", nullish (meta "attemptsMade" j) (JNum (num_of_Z 0)));
    ("lastError", nullish (meta "lastError" j) (JStr "")); ("replayJobId", JStr replayJobId); ("replayOutcome", JStr outcome);
    ("replayedAt", JStr now); ("replayCount", count_up (meta "replayCount" j))]) in
  job_updateData j (JObj (json_set "_meta" m (match dj_data j with JObj fs => fs | _ => [] end))).
(** [const { _meta, ...payload } = job.data]. *)
Definition without_meta (data : json) : json :=
  JObj (filter (fun f => f.1 <> "_meta") (match data with JObj fs => fs | _ => [] end)).

Definition outcome_of (j : DlqJob) (replayJobId : string) (r : ReplayResult) (newJob existing error : option string) : DlqReplayOutcome := {|
  ro_jobId := dj_id j; ro_originalJobId := getOriginalJobId j; ro_replayJobId := replayJobId; ro_outcome := r;
  ro_newJobId := newJob; ro_existingJobId := existing; ro_error := error |}.
(** [src notifications/services/job-management.service.ts:444-561 replayJobSafely]: the
    outcome, and the job in hand. *)
Definition replayJobSafely (j : DlqJob) : action (DlqReplayOutcome * DlqJob) :=
  let replayJobId := buildReplayJobId j in
  if num_le (num_of_Z MAX_DLQ_REPLAYS) (getDlqReplayCount j) then
    do* writes (fun w => w <| dq_events ::= (fun l => l ++ [("notification.dlq.max_retries_exceeded", dj_id j)]) |>) in
    Ret (outcome_of j replayJobId MAX_RETRIES_EXCEEDED None None
           (Some ("Job has been replayed " +:+ number_string (getDlqReplayCount j) +:+ " times (max: 3)")), j)
  else
    match truthy_text (meta "replayJobId" j) with
    | Some recorded =>
        try_catch
          (do* job_remove j in Ret (outcome_of j recorded DEDUPLICATED None (Some recorded) None, j))
          (fun e => Ret (outcome_of j recorded REPLAY_FAILED None (Some recorded) (Some (dlq_message e)), j))
    | None =>
        let* existingJob := reads (fun w => job_lookup replayJobId (dq_main w)) in
        if existingJob is Some _ then
          let* j' := markJobAsReplayed j replayJobId "deduplicated" in
          try_catch
            (do* job_remove j in Ret (outcome_of j replayJobId DEDUPLICATED None (Some replayJobId) None, j'))
            (fun e => Ret (outcome_of j replayJobId REPLAY_FAILED None (Some replayJobId) (Some (dlq_message e)), j'))
        else
          try_catch
            (let* newJob := main_add replayJobId (without_meta (dj_data j)) in
             let* j' := markJobAsReplayed j replayJobId "replayed" in
             try_catch
               (do* job_remove j in Ret (outcome_of j replayJobId REPLAYED (Some newJob) None None, j'))
               (fun e => Ret (outcome_of j replayJobId REPLAY_FAILED (Some newJob) None (Some (dlq_message e)), j')))
            (fun e => Ret (outcome_of j replayJobId REPLAY_FAILED None None (Some (dlq_message e)), j))
    end.

Definition emit (name operation : string) : action unit := writes (fun w => w <| dq_events ::= (fun l => l ++ [(name, operation)]) |>).
Definition audit (a : DlqAudit) : action unit := writes (fun w => w <| dq_audit ::= (fun l => l ++ [a]) |>).
(** [src notifications/services/job-management.service.ts:718-754 emitReplayObservability] *)
Definition emitReplayObservability (operation : string) (s : ReplaySummary) : action unit :=
  do* emit "notification.dlq.bulk_replay" operation in
  if (0 <? rs_failed s)%nat then emit "notification.dlq.bulk_replay_partial_failure" operation else Ret tt.

(** [src notifications/services/job-management.service.ts:174-208 replayDlqJob] *)
Definition replayDlqJob (jobId actor : string) : action DlqReplayOutcome :=
  let* job := reads (dlq_getJob jobId) in
  let* j := of_option job (JobNotFound ("DLQ job " +:+ jobId +:+ " not found")) in
  let* operation := buildOperationId "single-replay" actor in
  let* r := replayJobSafely j in
  let summary := buildReplaySummary [r.1] in
  do* audit (ReplayAudit true actor operation [toAuditTarget r.2] [r.1] summary) in
  do* emitReplayObservability operation summary in
  Ret r.1.
(** [src notifications/services/job-management.service.ts:210-245 replayDlqJobsBulk] *)
Definition replayDlqJobsBulk (actor : string) (options : json) : action (ReplaySummary * list DlqReplayOutcome) :=
  let* jobs := getFilteredDlqJobs (Some (normalizeDlqFilter options)) in
  let* operation := buildOperationId "bulk-replay" actor in
  let* done := fold_each jobs (fun j acc => let* r := replayJobSafely j in Ret (acc ++ [r])) [] in
  let outcomes := map fst done in
  let summary := buildReplaySummary outcomes in
  do* audit (ReplayAudit false actor operation (map (fun r => toAuditTarget r.2) done) outcomes summary) in
  do* emitReplayObservability operation summary in
  Ret (summary, outcomes).

(** ** Cleanup *)

Definition removed (o : DlqCleanupOutcome) : bool := bool_decide (co_error o = None).
(** [src notifications/services/job-management.service.ts:432-442 buildCleanupSummary] *)
Definition buildCleanupSummary (outcomes : list DlqCleanupOutcome) : CleanupSummary := {|
  cs_attempted := length outcomes; cs_removed := count_of removed outcomes;
  cs_failed := count_of (fun o => negb (removed o)) outcomes; cs_noOp := match outcomes with [] => true | _ => false end |}.
(** The loop over the selected jobs. *)
Definition remove_jobs (jobs : list DlqJob) : action (list DlqCleanupOutcome) :=
  fold_each jobs (fun j acc =>
    let* error := try_catch (do* job_remove j in Ret None) (fun e => Ret (Some (dlq_message e))) in
    Ret (acc ++ [{| co_jobId := dj_id j; co_originalJobId := getOriginalJobId j; co_error := error |}])) [].
Record CleanupResult := { cl_targets : list DlqJob; cl_outcomes : list DlqCleanupOutcome; cl_summary : CleanupSummary }.
(** [src notifications/services/job-management.service.ts:589-621 runBulkCleanup] *)
Definition runBulkCleanup (f : DlqJobFilter) : action CleanupResult :=
  let* jobs := getFilteredDlqJobs (Some f) in
  let* outcomes := remove_jobs jobs in
  Ret {| cl_targets := jobs; cl_outcomes := outcomes; cl_summary := buildCleanupSummary outcomes |}.
(** [Number.parseInt(String(v), 10) || d]. *)
Definition int_or (v : json) (d : Z) : Z := match parseInt (json_string v) with Some z => if z =? 0 then d else z | None => d end.
(** [l.slice(0, n)]. *)
Definition slice0 {A} (n : Z) (l : list A) : list A :=
  firstn (Z.to_nat (if n <? 0 then Z.of_nat (length l) + n else n)) l.
Definition dry_run_of (options : json) (cfg : DlqRetentionConfig) : bool :=
  match json_get "dryRun" options with
  | Some (JStr s) => s =s? "true"
  | v => json_truthy (nullish v (rc_dryRun cfg))
  end.
Definition expired (cutoff : ms) (j : DlqJob) : bool :=
  match meta "failedAt" j with
  | Some v => json_truthy v && match Date_of v with Some t => t <=? cutoff | None => false end
  | None => false
  end.
(** [src notifications/services/job-management.service.ts:623-689 runRetentionCleanup] *)
Definition runRetentionCleanup (options : json) (cfg : DlqRetentionConfig) : action CleanupResult :=
  let days := int_or (nullish (json_get "retentionDays" options) (JNum (num_of_Z (rc_days cfg)))) (rc_days cfg) in
  let batch := int_or (nullish (json_get "batchSize" options) (JNum (num_of_Z (rc_batch cfg)))) (rc_batch cfg) in
  let* cutoff := reads (fun w => dq_clock w - days * DAY) in
  let* all := getFilteredDlqJobs None in
  let selectedJobs := slice0 batch (filter (fun j => expired cutoff j) all) in
  if dry_run_of options cfg then
    Ret {| cl_targets := selectedJobs; cl_outcomes := [];
           cl_summary := {| cs_attempted := length selectedJobs; cs_removed := 0; cs_failed := 0;
                            cs_noOp := match selectedJobs with [] => true | _ => false end |} |}
  else
    let* outcomes := remove_jobs selectedJobs in
    Ret {| cl_targets := selectedJobs; cl_outcomes := outcomes; cl_summary := buildCleanupSummary outcomes |}.

(** [src notifications/services/job-management.service.ts:756-794 emitCleanupObservability] *)
Definition emitCleanupObservability (operation : string) (s : CleanupSummary) (retention : bool) : action unit :=
  do* emit (if retention then "notification.dlq.retention_cleanup" else "notification.dlq.bulk_cleanup") operation in
  if (0 <? cs_failed s)%nat then emit "notification.dlq.bulk_cleanup_partial_failure" operation else Ret tt.
(** [src notifications/services/job-management.service.ts:247-305 cleanupDlq]; the mode
    is whether the retention decides. *)
Definition cleanupDlq (cfg : DlqRetentionConfig) (actor : string) (options : json) : action (bool * CleanupResult) :=
  let f := normalizeDlqFilter options in
  let requestedMode := match json_get "mode" options with Some (JStr s) => Some (to_lower s) | _ => None end in
  let hasExplicitTargeting := truthy_opt (f_search f) || truthy_opt (f_after f) || truthy_opt (f_before f)
                              || bool_decide (is_Some (f_ids f)) in
  let mode_is m := bool_decide (requestedMode = Some m) in
  let useRetentionMode := mode_is "retention" || (negb (mode_is "drain") && negb hasExplicitTargeting) in
  let* operation := buildOperationId (if useRetentionMode then "retention-cleanup" else "bulk-cleanup") actor in
  let* result := if useRetentionMode then runRetentionCleanup options cfg else runBulkCleanup f in
  do* audit (CleanupAudit useRetentionMode actor operation (map toAuditTarget (cl_targets result)) (cl_outcomes result) (cl_summary result)) in
  do* emitCleanupObservability operation (cl_summary result) useRetentionMode in
  Ret (useRetentionMode, result).

(** ** Export *)

(** [src notifications/services/job-management.service.ts:712-716 escapeCsvField] *)
Definition escapeCsvField (value : string) : string := String dquote (double_quotes value +:+ String dquote "").
Definition csv_header : string := "Job ID,Original Job ID,Failure Reason,Retry Count,Failed At,Channel,Recipient Email,Created At,Type" +:+ newline.
(** The fields of a row, and which of them is not quoted. *)
Definition csv_fields (j : DlqJob) : list (bool * string) :=
  let s := serializeDlqJob j in [
  (true, dv_id s); (true, default "" (truthy_text (meta "originalJobId" j))); (true, default "" (dv_failedReason s));
  (false, number_string (dv_attemptsMade s)); (true, default "" (dv_failedAt s)); (true, dv_channel s);
  (true, default "" (dv_recipientEmail s)); (true, default "" (dv_createdAt s)); (true, default "" (truthy_text (dv_type s)))].
Definition csv_row (j : DlqJob) : string :=
  join_with "," (map (fun f => if f.1 : bool then escapeCsvField f.2 else f.2) (csv_fields j)).
(** [src notifications/services/job-management.service.ts:691-710 exportDlqCsv] *)
Definition exportDlqCsv (f : option DlqJobFilter) : action string :=
  let* jobs := getFilteredDlqJobs f in
  Ret (csv_header +:+ join_with newline (map csv_row jobs)).
End service.
