(* ===== verification/JobSafety.v ===== *)
(** * What the replay of dead letters promises

    Theorems on [JobManagement]: however replays interleave with one another, with
    workers that hold jobs and with a main queue that goes down, no dead letter is lost;
    the retention cleanup removes expired jobs only.  The last section shows where
    the limit of replays, the defaults and the summaries fail. *)
From stdpp Require Import pretty.
From S2P Require Import Prelude Numbers Json Dates Effects JobQueue Base64 Cursor Csv JobManagement.
Open Scope Z_scope.

(** ** Fields under an update *)

Definition fields_of (d : json) : list (string * json) := match d with JObj fs => fs | _ => [] end.
Definition recorded (j : DlqJob) : option string := truthy_text (meta "replayJobId" j).
Definition payload (j : DlqJob) : json := without_meta (dj_data j).

Lemma json_set_others k v fs : filter (fun f : string * json => f.1 <> k) (json_set k v fs) = filter (fun f => f.1 <> k) fs.
Proof.
  induction fs as [|[k' v'] fs IH]; cbn [json_set]; [by rewrite filter_cons, decide_False by (cbn; auto)|]. cbn [fst].
  destruct (str_eqb_spec k' k) as [->|Hne]; rewrite !filter_cons; cbn [fst]; [by rewrite !decide_False by auto|].
  by rewrite !decide_True, IH by done.
Qed.
Lemma json_set_get k v fs : json_get k (JObj (json_set k v fs)) = Some v.
Proof.
  induction fs as [|[k' v'] fs IH]; cbn [json_set].
  - cbn. by rewrite str_eqb_refl.
  - cbn [fst]. destruct (str_eqb_spec k' k) as [->|Hne]; cbn; [by rewrite str_eqb_refl|].
    cbn in IH. destruct (str_eqb_spec k' k) as [->|_]; [done|exact IH].
Qed.

(** Where the images differ, they name the elements. *)
Lemma same_image {A B} (f : A -> B) l x y : NoDup (map f l) -> x ∈ l -> y ∈ l -> f x = f y -> x = y.
Proof.
  intros Hn Hx Hy Hf. induction l as [|z l IH]; [by apply not_elem_of_nil in Hx|]. cbn in Hn.
  apply NoDup_cons in Hn as [Hz Hn]. apply elem_of_cons in Hx as [->|Hx], Hy as [->|Hy]; [done| | |by apply IH].
  - destruct Hz. rewrite Hf. by apply list_elem_of_fmap_2.
  - destruct Hz. rewrite <- Hf. by apply list_elem_of_fmap_2.
Qed.

Lemma list_filter_all {A} (P : A -> Prop) `{!forall x, Decision (P x)} (l : list A) : (forall x, P x) -> filter P l = l.
Proof. intros HP. induction l as [|x l IH]; [done|]. by rewrite filter_cons, decide_True, IH by auto. Qed.

(** The copy a job leaves when it is marked. *)
Definition marked (j : DlqJob) (now : string) (r o : string) : json := JObj (json_set "_meta" (JObj (
  match meta "originalJobId" j with Some v => [("originalJobId", v)] | None => [] end ++ [
    ("failedAt", nullish (meta "failedAt" j) (JStr now)); ("attemptsMade", nullish (meta "attemptsMade" j) (JNum (num_of_Z 0)));
    ("lastError", nullish (meta "lastError" j) (JStr "")); ("replayJobId", JStr r); ("replayOutcome", JStr o);
    ("replayedAt", JStr now); ("replayCount", count_up (meta "replayCount" j))])) (fields_of (dj_data j))).
Lemma marked_meta j k now r o : dj_data k = marked j now r o ->
  without_meta (dj_data k) = payload j /\ meta "originalJobId" k = meta "originalJobId" j /\ meta "replayJobId" k = Some (JStr r).
Proof.
  intros Hk. unfold meta. rewrite Hk. unfold marked. rewrite json_set_get. cbn [option_bind mbind]. split_and!.
  - unfold payload, without_meta. by rewrite json_set_others.
  - destruct (meta "originalJobId" j) as [v|] eqn:Hv; unfold meta in *; by rewrite Hv.
  - destruct (meta "originalJobId" j) as [v|]; done.
Qed.

Section safety.
Context {Q : Type} `{!JobQueue json Q}.
Context (range : Z -> Z -> list DlqJob -> list DlqJob) (Date_parse : string -> option ms).

(** ** No dead letter is lost *)

(** The dead letters of the beginning, and what is to become of each. *)
Section replay.
Context (w0 : DlqDB (Q := Q)).
Abbreviation js := (dq_jobs w0).
(** The data under the replay id of a job: that of the job, unless another was there. *)
Definition expected (j : DlqJob) : json := default (payload j) (job_lookup (buildReplayJobId j) (dq_main w0)).
Definition queued (j : DlqJob) (w : DlqDB (Q := Q)) : Prop := job_lookup (buildReplayJobId j) (dq_main w) = Some (expected j).
(** [k] is the job [j], perhaps marked since. *)
Definition same_letter (j k : DlqJob) : Prop :=
  dj_id k = dj_id j /\ payload k = payload j /\ buildReplayJobId k = buildReplayJobId j.
Definition known (k : DlqJob) (w : DlqDB (Q := Q)) : Prop :=
  exists j, j ∈ js /\ same_letter j k /\ (is_Some (recorded k) -> recorded k = Some (buildReplayJobId j) /\ queued j w).

Record dlq_inv (w : DlqDB (Q := Q)) : Prop := {
  di_ids : NoDup (map dj_id js);
  di_replays : NoDup (map buildReplayJobId js);
  di_known : forall k, k ∈ dq_jobs w -> known k w;
  di_kept : forall j, j ∈ js -> (exists k, k ∈ dq_jobs w /\ same_letter j k) \/ queued j w;
  di_main : forall j, j ∈ js -> job_lookup (buildReplayJobId j) (dq_main w) = job_lookup (buildReplayJobId j) (dq_main w0) \/ queued j w;
}.
Definition dlq_guar (w w' : DlqDB (Q := Q)) : Prop := forall j, queued j w -> queued j w'.
Abbreviation keeps := (keeps dlq_inv dlq_guar).
Abbreviation tame := (@tame (DlqDB (Q := Q)) dlq_error dlq_inv dlq_guar).
Abbreviation lasting := (lasting dlq_guar).
Abbreviation spec := (@rg (DlqDB (Q := Q)) dlq_error dlq_inv (fun _ => dlq_guar)).

Lemma dlq_guar_refl w : dlq_guar w w.
Proof. by intros j. Qed.
Lemma lasting_queued j : lasting (queued j).
Proof. intros w w' Hq HG. by apply HG. Qed.
Lemma lasting_known k : lasting (known k).
Proof. intros w w' (j & Hj & Hs & Hr) HG. exists j. split_and!; [done..|]. intros H. destruct (Hr H). split; [done|]. by apply HG. Qed.
Lemma known_same k w w' : dq_main w' = dq_main w -> known k w -> known k w'.
Proof. intros Hm (j & Hj & Hs & Hr). exists j. unfold queued in *. by rewrite Hm. Qed.

Lemma dlq_same f : (forall w, dq_jobs (f w) = dq_jobs w /\ dq_main (f w) = dq_main w) -> keeps f.
Proof.
  intros H w [H1 H2 H3 H4 H5]. destruct (H w) as (Hj & Hm). split; [|by intros j; unfold queued; rewrite Hm].
  split; unfold queued in *; rewrite ?Hj, ?Hm; try done. intros k Hk. apply (known_same k w); auto.
Qed.

(** A job leaves only once the main queue has it. *)
Lemma keeps_remove j w :
  dlq_inv w -> (exists j0, j0 ∈ js /\ same_letter j0 j /\ queued j0 w) ->
  dlq_inv (run (job_remove j) w).2 /\ dlq_guar w (run (job_remove j) w).2.
Proof.
  intros HI (j0 & Hj0 & (Hid & _ & _) & Hq). unfold job_remove. rewrite run_attempts.
  destruct (includes _ _); [split; [exact HI|apply dlq_guar_refl]|]. destruct HI as [H1 H2 H3 H4 H5].
  split; [|by intros k]. split; try done; cbn [snd dq_jobs dq_main set_field].
  - intros k [_ Hk]%list_elem_of_filter. apply (known_same k w); [done|by apply H3].
  - intros j1 Hj1. destruct (H4 j1 Hj1) as [(k & Hk & Hs)|Hq1]; [|by right].
    destruct (decide (dj_id k = dj_id j)) as [He|Hne].
    + right. assert (j1 = j0) as -> by (apply (same_image dj_id js); [done..|]; destruct Hs as (<- & _); congruence). exact Hq.
    + left. exists k. split; [|done]. by apply list_elem_of_filter.
Qed.

(** A job is marked once the main queue has it. *)
Lemma keeps_mark j now o w :
  dlq_inv w -> (exists j0, j0 ∈ js /\ same_letter j0 j /\ queued j0 w) ->
  let r := run (job_updateData j (marked j now (buildReplayJobId j) o)) w in
  dlq_inv r.2 /\ dlq_guar w r.2 /\ forall j', r.1 = Ok j' -> same_letter j j'.
Proof.
  intros HI (j0 & Hj0 & (Hid & Hp & Hb) & Hq). cbv zeta. unfold job_updateData. rewrite run_attempts.
  set (m := marked j now (buildReplayJobId j) o).
  assert (forall k, dj_id k = dj_id j -> same_letter j (k <| dj_data := m |>) /\ recorded (k <| dj_data := m |>) = Some (buildReplayJobId j)) as Hm.
  { intros k Hk. destruct (marked_meta j (k <| dj_data := m |>) now (buildReplayJobId j) o) as (M1 & M2 & M3); [done|]. split.
    - split_and!; [done|done|]. unfold buildReplayJobId, getOriginalJobId. rewrite M2. cbn [dj_id set_field]. by rewrite <- Hk.
    - unfold recorded. by rewrite M3. }
  destruct (dlq_getJob _ _); [|split; [exact HI|split; [apply dlq_guar_refl|done]]]. destruct HI as [H1 H2 H3 H4 H5].
  split; [|split; [by intros k|by intros j' [= <-]; apply Hm]]. split; try done; cbn [snd dq_jobs dq_main set_field].
  - intros k' (k & -> & Hk)%list_elem_of_fmap. destruct (str_eqb_spec (dj_id k) (dj_id j)) as [He|_]; [|by apply (known_same k w); auto].
    destruct (Hm k He) as ((S1 & S2 & S3) & Hr). exists j0. split; [done|]. split; [by split_and!; congruence|]. intros _. rewrite Hr, Hb. done.
  - intros j1 Hj1. destruct (H4 j1 Hj1) as [(k & Hk & Hs)|Hq1]; [|by right]. left.
    destruct (decide (dj_id k = dj_id j)) as [He|Hne].
    + assert (j1 = j0) as -> by (apply (same_image dj_id js); [done..|]; destruct Hs as (<- & _); congruence).
      destruct (Hm k He) as ((S1 & S2 & S3) & _). exists (k <| dj_data := m |>). split.
      * apply list_elem_of_fmap. exists k. by rewrite He, str_eqb_refl.
      * split_and!; congruence.
    + exists k. split; [|done]. apply list_elem_of_fmap. exists k. destruct (str_eqb_spec (dj_id k) (dj_id j)); done.
Qed.

(** The job that the main queue takes is the one that is expected. *)
Lemma keeps_main_add j w :
  dlq_inv w -> known j w ->
  let r := run (main_add (buildReplayJobId j) (payload j)) w in
  dlq_inv r.2 /\ dlq_guar w r.2 /\ forall i, r.1 = Ok i -> i = buildReplayJobId j /\ exists j0, j0 ∈ js /\ same_letter j0 j /\ queued j0 r.2.
Proof.
  intros HI (j0 & Hj0 & (Hid & Hp & Hb) & _). cbv zeta. unfold main_add. rewrite run_attempts.
  destruct (dq_main_up w); [|split; [exact HI|split; [apply dlq_guar_refl|done]]].
  assert (dlq_guar w (w <| dq_main ::= job_add (Some (buildReplayJobId j)) (payload j) |>)) as HG.
  { intros k Hk. unfold queued. cbn [dq_main set_field]. by apply job_add_keeps. }
  destruct HI as [H1 H2 H3 H4 H5].
  assert (queued j0 (w <| dq_main ::= job_add (Some (buildReplayJobId j)) (payload j) |>)) as Hq.
  { destruct (H5 j0 Hj0) as [Hsame|Hq]; [|by apply HG]. unfold queued, expected. cbn [dq_main set_field].
    by rewrite Hb, Hp, job_add_lookup, Hsame. }
  split; [|split; [exact HG|intros i [= <-]; split; [done|]; by exists j0]].
  split; try done.
  - intros k Hk. by apply (lasting_known k w), HG; apply H3.
  - intros j1 Hj1. destruct (H4 j1 Hj1) as [Hk|Hq1]; [by left|right; by apply HG].
  - intros j1 Hj1. destruct (decide (buildReplayJobId j1 = buildReplayJobId j0)) as [He|Hne].
    { right. by rewrite (same_image buildReplayJobId js j1 j0). }
    destruct (H5 j1 Hj1) as [Hsame|Hq1]; [|right; by apply HG]. left. cbn [snd dq_main set_field]. rewrite job_add_other; [done|].
    rewrite Hb. congruence.
Qed.

(** Other jobs of the main queue. *)
Lemma dlq_other i d w : dlq_inv w -> i ∉ map buildReplayJobId js ->
  dlq_inv (w <| dq_main ::= job_add (Some i) d |>) /\ dlq_guar w (w <| dq_main ::= job_add (Some i) d |>).
Proof.
  intros [H1 H2 H3 H4 H5] Hi.
  assert (dlq_guar w (w <| dq_main ::= job_add (Some i) d |>)) as HG by (intros k Hk; unfold queued; cbn; by apply job_add_keeps).
  split; [|exact HG]. split; try done.
  - intros k Hk. by apply (lasting_known k w), HG; apply H3.
  - intros j Hj. destruct (H4 j Hj); [by left|right; by apply HG].
  - intros j Hj. destruct (H5 j Hj) as [Hs|Hq]; [left|right; by apply HG]. cbn. rewrite job_add_other; [done|].
    intros ->. apply Hi. by apply list_elem_of_fmap_2.
Qed.

(** *** A replay among others *)

Definition has_replay (j : DlqJob) (w : DlqDB (Q := Q)) : Prop := exists j0, j0 ∈ js /\ same_letter j0 j /\ queued j0 w.
(** An outcome that claims success is right. *)
Definition truthful (o : DlqReplayOutcome) (w : DlqDB (Q := Q)) : Prop :=
  ro_outcome o = REPLAYED \/ ro_outcome o = DEDUPLICATED ->
  exists j, j ∈ js /\ ro_jobId o = dj_id j /\ ro_replayJobId o = buildReplayJobId j /\ queued j w.
Abbreviation ends_truthful := (fun (o : outcome dlq_error (DlqReplayOutcome * DlqJob)) w => match o with Ok r => truthful r.1 w | Exn _ => True end).
Lemma lasting_has j : lasting (has_replay j).
Proof. intros w w' (j0 & Hj & Hs & Hq) HG. exists j0. split_and!; [done..|]. by apply HG. Qed.
Lemma lasting_truthful o : lasting (truthful o).
Proof. intros w w' Ht HG Ho. destruct (Ht Ho) as (j & Hj & H1 & H2 & Hq). exists j. split_and!; [done..|]. by apply HG. Qed.
Lemma truthful_not w o : ro_outcome o = REPLAY_FAILED \/ ro_outcome o = MAX_RETRIES_EXCEEDED -> truthful o w.
Proof. intros H H'. destruct H as [H|H], H' as [H'|H']; congruence. Qed.

(** Removing the job, with any outcome of success. *)
Lemma spec_remove t j j' res n e fail :
  (forall x, ro_outcome (fail x).1 = REPLAY_FAILED) ->
  spec t (has_replay j)
    (try_catch (do* job_remove j in Ret (outcome_of j (buildReplayJobId j) res n e None, j')) (fun x => Ret (fail x)))
    ends_truthful.
Proof.
  intros Hf. apply rg_try_catch with (Q := fun _ _ => True).
  - apply spec_attempts_then with (F' := fun _ => has_replay j).
    + intros w HI Hh. destruct (keeps_remove j w HI Hh) as [H1 H2]. unfold job_remove in *. rewrite run_attempts in *.
      split_and!; [done..|]. intros _ _. by apply (lasting_has j w).
    + intros _. apply lasting_has.
    + done.
    + intros _ w _ (j0 & Hj & (H1 & _ & H3) & Hq) _. exists j0. by split_and!.
  - intros x w _ _. apply truthful_not. by left.
Qed.
Lemma spec_markJob {B} t j o (q : DlqJob -> prog (DlqDB (Q := Q)) dlq_error B) post :
  (forall e w, post (Exn e) w) -> (forall j', spec t (has_replay j) (q j') post) ->
  spec t (has_replay j) (bind (markJobAsReplayed j (buildReplayJobId j) o) q) post.
Proof.
  intros He Hq. change (bind (markJobAsReplayed j (buildReplayJobId j) o) q)
    with (let* now := reads (fun w => toISOString (dq_clock w)) in bind (job_updateData j (marked j now (buildReplayJobId j) o)) q).
  apply spec_reads_then with (F' := fun _ => has_replay j);
    [apply dlq_guar_refl|done|intros _; apply lasting_has|]. intros now.
  apply spec_attempts_then with (F' := fun _ => has_replay j).
  - intros w HI Hh. destruct (keeps_mark j now o w HI Hh) as (H1 & H2 & _). unfold job_updateData in *. rewrite run_attempts in *.
    split_and!; [done..|]. intros _ _. by apply (lasting_has j w).
  - intros _. apply lasting_has.
  - done.
  - done.
Qed.
Lemma spec_replayJob t j : spec t (known j) (replayJobSafely j) ends_truthful.
Proof.
  unfold replayJobSafely. destruct (num_le _ _).
  { apply spec_then; [|apply lasting_known|done|].
    - apply tame_writes. by apply dlq_same.
    - intros _ w _ _. apply truthful_not. by right. }
  fold (recorded j). destruct (recorded j) as [r|] eqn:Hr.
  { apply rg_weaken with (P' := fun w => has_replay j w /\ r = buildReplayJobId j).
    - intros w _ (j0 & Hj & Hs & Hrec). destruct (Hrec ltac:(by rewrite Hr)) as [Heq Hq]. split; [by exists j0|].
      destruct Hs as (_ & _ & Hb). congruence.
    - apply rg_from. intros w HI [Hh ->]. exists (has_replay j). split; [done|].
      by apply spec_remove. }
  apply spec_reads_then with (F' := fun x w => known j w /\ (is_Some x -> has_replay j w)); [apply dlq_guar_refl|..].
  { intros w HI Hk. split; [done|]. intros Hx. destruct Hk as (j0 & Hj & Hs & _). exists j0. split_and!; [done..|].
    destruct Hs as (_ & _ & Hb). rewrite Hb in Hx. destruct (di_main w HI j0 Hj) as [Hm|Hq]; [|done].
    unfold queued, expected. rewrite Hm in Hx |- *. by destruct Hx as [d ->]. }
  { intros x. apply lasting_and; [apply lasting_known|]. intros w w' H HG Hx. by apply (lasting_has j w), HG; apply H. }
  intros [d|].
  - apply rg_weaken with (P' := has_replay j); [by intros w _ [_ H]; apply H|]. apply spec_markJob; [done|]. intros j'. by apply spec_remove.
  - apply rg_weaken with (P' := known j); [by intros w _ [H _]|]. apply rg_try_catch with (Q := fun _ _ => True).
    + apply spec_attempts_then with (F' := fun i w => i = buildReplayJobId j /\ has_replay j w).
      * intros w HI Hk. destruct (keeps_main_add j w HI Hk) as (H1 & H2 & H3). unfold main_add in *. rewrite run_attempts in *. by split_and!.
      * intros i. apply lasting_and; [by intros w w' H _|apply lasting_has].
      * done.
      * intros i. apply rg_weaken with (P' := has_replay j); [by intros w _ [_ H]|]. apply spec_markJob; [done|]. intros j'.
        eapply rg_post; [|by apply (spec_remove t j j' REPLAYED (Some i) None)]. by intros [a|e] w.
    + intros e w _ _. apply truthful_not. by left.
Qed.

Lemma lasting_Forall {A} (F : A -> DlqDB (Q := Q) -> Prop) l : (forall x, lasting (F x)) -> lasting (fun w => Forall (fun x => F x w) l).
Proof. intros HF w w' H HG. eapply Forall_impl; [exact H|]. intros x Hx. by apply (HF x w). Qed.
Lemma tame_finish actor operation l (outcomes : list DlqReplayOutcome) b :
  tame (do* audit (ReplayAudit b actor operation l outcomes (buildReplaySummary outcomes)) in emitReplayObservability operation (buildReplaySummary outcomes)).
Proof.
  unfold emitReplayObservability, emit, audit. repeat tame_step; by apply dlq_same.
Qed.
(** A run over many jobs. *)
Lemma spec_replays t jobs (acc : list (DlqReplayOutcome * DlqJob)) :
  spec t (fun w => Forall (fun j => known j w) jobs /\ Forall (fun r => truthful r.1 w) acc)
    (fold_each jobs (fun j acc => let* r := replayJobSafely j in Ret (acc ++ [r])) acc)
    (fun o w => match o with Ok done => Forall (fun r => truthful r.1 w) done | Exn _ => True end).
Proof.
  revert acc; induction jobs as [|j jobs IH]; intros acc; [by intros w _ [_ H]|]. cbn [fold_each].
  apply rg_bind with (Q := fun acc w => Forall (fun j => known j w) jobs /\ Forall (fun r => truthful r.1 w) acc); [|apply IH].
  apply rg_bind with (Q := fun r w => (Forall (fun j => known j w) jobs /\ Forall (fun r => truthful r.1 w) acc) /\ truthful r.1 w).
  - eapply rg_weaken; [|eapply rg_post; [|apply (rg_carry _ _ t (fun w => Forall (fun j => known j w) jobs /\ Forall (fun r => truthful r.1 w) acc));
      [|exact (spec_replayJob t j)]]].
    + by intros w _ [[? ?]%Forall_cons ?].
    + by intros [r|e] w [? ?].
    + intros _. refine (lasting_and _ _ _ (lasting_Forall _ _ _) (lasting_Forall (fun r => truthful r.1) _ _)); [apply lasting_known|].
      intros r. apply lasting_truthful.
  - intros r w _ [[H1 H2] H3]. split; [done|]. apply Forall_app. by rewrite Forall_singleton.
Qed.
End replay.

(** What runs among the replays: they themselves, workers that take and leave dead
    letters, the connection of the main queue, other jobs of it, and the clock. *)
Inductive DlqOp :=
| ReplayOne (jobId actor : string)
| ReplayBulk (actor : string) (options : json)
| List_ (page limit : Z) (f : option DlqJobFilter)
| Export (f : option DlqJobFilter)
| Workers (locked : list string) (up : bool) (t : ms)
| OtherJob (i : string) (d : json).
Definition serve_dlq (o : DlqOp) : prog (DlqDB (Q := Q)) dlq_error (list DlqReplayOutcome) :=
  match o with
  | ReplayOne i a => let* o := replayDlqJob i a in Ret [o]
  | ReplayBulk a opts => let* r := replayDlqJobsBulk Date_parse a opts in Ret r.2
  | List_ p l f => let* _ := listDlqJobs range Date_parse p l f in Ret []
  | Export f => let* _ := exportDlqCsv Date_parse f in Ret []
  | Workers l up t => do* writes (fun w => w <| dq_locked := l |> <| dq_main_up := up |> <| dq_clock := t |>) in Ret []
  | OtherJob i d => do* writes (fun w => w <| dq_main ::= job_add (Some i) d |>) in Ret []
  end.

Lemma serve_truthful w0 t o :
  (forall i d, o = OtherJob i d -> i ∉ map buildReplayJobId (dq_jobs w0)) ->
  @rg _ dlq_error (dlq_inv w0) (fun _ => dlq_guar w0) _ t (fun _ => True) (serve_dlq o)
    (fun a w => match a with Ok outcomes => Forall (fun x => truthful w0 x w) outcomes | Exn _ => True end).
Proof.
  intros Hother. destruct o as [i a|a opts|p l f|f|l up c|i d]; cbn [serve_dlq].
  - apply rg_bind with (Q := fun o => truthful w0 o); [|intros o w _ Ho; by apply Forall_singleton].
    unfold replayDlqJob. apply spec_reads_then with (F' := fun j w => match j with Some j => known w0 j w | None => True end); [apply dlq_guar_refl|..].
    { intros w HI _. destruct (dlq_getJob i w) as [j|] eqn:Hj; [|done]. apply List.find_some in Hj as [Hj _].
      apply (di_known w0 w HI). by apply list_elem_of_In. }
    { intros [j|]; [apply lasting_known|done]. }
    intros [j|]; [|by intros w]. cbn [of_option bind].
    apply spec_then; [apply tame_reads, dlq_guar_refl|apply lasting_known|done|]. intros operation.
    apply rg_bind with (Q := fun r => truthful w0 r.1); [apply spec_replayJob|]. intros r.
    apply spec_then; [|apply lasting_truthful|done|]; [repeat tame_step; by apply dlq_same|intros _].
    apply spec_then; [|apply lasting_truthful|done|]; [unfold emitReplayObservability, emit; repeat tame_step; by apply dlq_same|].
    by intros _ w _ H.
  - apply rg_bind with (Q := fun r w => Forall (fun x => truthful w0 x w) r.2); [|by intros r w _ H].
    unfold replayDlqJobsBulk, getFilteredDlqJobs.
    apply spec_reads_then with (F' := fun js w => Forall (fun j => known w0 j w) js); [apply dlq_guar_refl|..].
    { intros w HI _. apply Forall_forall. intros j [_ Hj]%list_elem_of_filter. by apply (di_known w0 w HI). }
    { intros js. apply lasting_Forall, lasting_known. }
    intros js. apply spec_then; [apply tame_reads, dlq_guar_refl|apply lasting_Forall, lasting_known|done|]. intros operation.
    apply rg_bind with (Q := fun l w => Forall (fun r => truthful w0 r.1 w) l).
    { eapply rg_weaken; [|apply spec_replays]. intros w _ H. split; [exact H|constructor]. }
    intros l. assert (lasting (dlq_guar w0) (fun w => Forall (fun r => truthful w0 r.1 w) l)) as Hl
      by (apply (lasting_Forall w0 (fun r : DlqReplayOutcome * DlqJob => truthful w0 r.1)); intros r; apply lasting_truthful).
    apply spec_then; [|exact Hl|done|]; [repeat tame_step; by apply dlq_same|intros _].
    apply spec_then; [|exact Hl|done|]; [unfold emitReplayObservability, emit; repeat tame_step; by apply dlq_same|].
    intros _ w _ H. cbn [snd]. by apply Forall_map.
  - unfold listDlqJobs. apply spec_then; [|done|done|by intros ? w _ _]. repeat (first [apply tame_reads, dlq_guar_refl|tame_step]).
  - unfold exportDlqCsv, getFilteredDlqJobs. apply spec_then; [|done|done|by intros ? w _ _]. repeat (first [apply tame_reads, dlq_guar_refl|tame_step]).
  - apply spec_then; [|done|done|by intros ? w _ _]. apply tame_writes. by apply dlq_same.
  - apply spec_then; [|done|done|by intros ? w _ _]. apply tame_writes. intros w HI. apply dlq_other; [done|]. by apply (Hother i d).
Qed.

(** Dead letters and replay ids are told apart, and what is marked as replayed has been. *)
Record dlq_start (w : DlqDB (Q := Q)) : Prop := {
  ds_ids : NoDup (map dj_id (dq_jobs w));
  ds_replays : NoDup (map buildReplayJobId (dq_jobs w));
  ds_recorded : forall j r, j ∈ dq_jobs w -> recorded j = Some r -> r = buildReplayJobId j /\ is_Some (job_lookup r (dq_main w));
}.
Lemma dlq_start_inv w : dlq_start w -> dlq_inv w w.
Proof.
  intros [H1 H2 H3]. split; [done|done| | |by left].
  - intros k Hk. exists k. split_and!; [done..|]. intros [r Hr]. destruct (H3 k r Hk Hr) as (-> & d & Hd). split; [done|].
    unfold queued, expected. by rewrite Hd.
  - intros j Hj. left. exists j. by split_and!.
Qed.

(** C14. However replays interleave with one another, with workers that hold jobs, with a
    main queue that goes down and with its other jobs, no dead letter is lost: each is
    in the dead-letter queue still, with its payload, or the main queue has it under its
    replay id, with its payload unless a job was under the id before; and so it is for
    every job that an answer calls replayed or deduplicated. *)
Theorem replay_loses_nothing (ops : gmap positive DlqOp) (w0 w : DlqDB (Q := Q)) ps :
  dlq_start w0 -> (forall t i d, ops !! t = Some (OtherJob i d) -> i ∉ map buildReplayJobId (dq_jobs w0)) ->
  pool_reach (w0, serve_dlq <$> ops) (w, ps) ->
  (forall j, j ∈ dq_jobs w0 ->
     (exists k, k ∈ dq_jobs w /\ dj_id k = dj_id j /\ without_meta (dj_data k) = without_meta (dj_data j))
     \/ job_lookup (buildReplayJobId j) (dq_main w) = Some (expected w0 j))
  /\ forall t outcomes o, ps !! t = Some (Ret outcomes) -> o ∈ outcomes -> ro_outcome o = REPLAYED \/ ro_outcome o = DEDUPLICATED ->
       exists j, j ∈ dq_jobs w0 /\ ro_jobId o = dj_id j /\ ro_replayJobId o = buildReplayJobId j
         /\ job_lookup (buildReplayJobId j) (dq_main w) = Some (expected w0 j).
Proof.
  intros Hs%dlq_start_inv Hother Hreach.
  destruct (tame_pool (dlq_inv w0) (dlq_guar w0) (fun _ a v => match a with Ok outcomes => Forall (fun x => truthful w0 x v) outcomes | Exn _ => True end)
    w0 (serve_dlq <$> ops) w ps Hs) as [HI Hall]; [|exact Hreach|].
  { intros t p Hp. apply lookup_fmap_Some in Hp as (o & <- & Ho). apply serve_truthful. intros i d ->. by apply (Hother t i d). }
  split.
  - intros j Hj. destruct (di_kept w0 w HI j Hj) as [(k & Hk & Hid & Hp & _)|Hq]; [left; by exists k|by right].
  - intros t outcomes o Ht Ho Hr. pose proof (Hall t outcomes Ht) as Hf. cbn in Hf. rewrite Forall_forall in Hf. by apply (Hf o Ho).
Qed.

(** ** Cleanup *)

Definition removable (w : DlqDB (Q := Q)) (i : string) : bool := negb (includes i (dq_locked w)).
Definition remove_body (j : DlqJob) (acc : list DlqCleanupOutcome) : prog (DlqDB (Q := Q)) dlq_error (list DlqCleanupOutcome) :=
  let* error := try_catch (do* job_remove j in Ret None) (fun e => Ret (Some (dlq_message e))) in
  Ret (acc ++ [{| co_jobId := dj_id j; co_originalJobId := getOriginalJobId j; co_error := error |}]).
Lemma run_remove_body j acc w :
  exists o w', run (remove_body j acc) w = (Ok (acc ++ [o]), w') /\ co_jobId o = dj_id j /\ removed o = removable w (dj_id j)
    /\ dq_locked w' = dq_locked w /\ dq_clock w' = dq_clock w /\ dq_main w' = dq_main w
    /\ dq_jobs w' = filter (fun k => ~ (dj_id k = dj_id j /\ removable w (dj_id k) = true)) (dq_jobs w).
Proof.
  unfold remove_body, job_remove, removable. rewrite run_bind. cbn [bind try_catch attempts run].
  destruct (includes (dj_id j) (dq_locked w)) eqn:Hl; cbn [fst snd try_catch run bind]; eexists _, _; (split; [reflexivity|]); split_and!; try done.
  - symmetry. apply list_filter_all. intros k [He H]. by rewrite He, Hl in H.
  - cbn [dq_jobs set_field]. apply list_filter_iff. intros k. split; [by intros H [? _]|].
    intros H He. apply H. split; [done|]. by rewrite He, Hl.
Qed.
Lemma run_remove_jobs jobs w acc :
  exists os w', run (fold_each jobs remove_body acc) w = (Ok (acc ++ os), w')
    /\ Forall2 (fun j o => co_jobId o = dj_id j /\ removed o = removable w (dj_id j)) jobs os
    /\ dq_main w' = dq_main w
    /\ dq_jobs w' = filter (fun k => ~ (dj_id k ∈ map dj_id jobs /\ removable w (dj_id k) = true)) (dq_jobs w).
Proof.
  revert w acc; induction jobs as [|j jobs IH]; intros w acc; cbn [fold_each].
  - exists [], w. rewrite app_nil_r. split_and!; [done|constructor|done|]. symmetry. apply list_filter_all.
    intros k [Hk _]. by apply not_elem_of_nil in Hk.
  - rewrite run_bind. destruct (run_remove_body j acc w) as (o & w1 & -> & Ho & Hr & Hl & Hc & Hm & Hj).
    destruct (IH w1 (acc ++ [o])) as (os & w2 & -> & Hall & Hm2 & Hj2). exists (o :: os), w2. rewrite <- app_assoc.
    assert (forall i, removable w1 i = removable w i) as He by (intros i; unfold removable; by rewrite Hl).
    split_and!; [done| |congruence|].
    + constructor; [done|]. eapply Forall2_impl; [exact Hall|]. intros j' o'. cbn beta. by rewrite He.
    + rewrite Hj2, Hj, list_filter_filter. apply list_filter_iff. intros k. cbn beta. rewrite (He (dj_id k)). cbn [map]. rewrite elem_of_cons. naive_solver.
Qed.

(** The retention cleanup removes jobs that failed at least the days ago, at most a batch
    of them, and says of each whether it is gone; a dry run removes nothing. *)
Theorem retention_cleanup_exact options cfg (w w' : DlqDB (Q := Q)) r :
  run (runRetentionCleanup Date_parse options cfg) w = (Ok r, w') ->
  let days := int_or (nullish (json_get "retentionDays" options) (JNum (num_of_Z (rc_days cfg)))) (rc_days cfg) in
  (forall j, j ∈ cl_targets r -> j ∈ dq_jobs w /\ expired Date_parse (dq_clock w - days * DAY) j = true)
  /\ dq_main w' = dq_main w
  /\ if dry_run_of options cfg then w' = w /\ cs_removed (cl_summary r) = O
     else Forall2 (fun j o => co_jobId o = dj_id j /\ removed o = removable w (dj_id j)) (cl_targets r) (cl_outcomes r)
       /\ dq_jobs w' = filter (fun k => ~ (dj_id k ∈ map dj_id (cl_targets r) /\ removable w (dj_id k) = true)) (dq_jobs w).
Proof.
  unfold runRetentionCleanup, getFilteredDlqJobs. rewrite run_bind, run_reads, run_bind, run_reads. intros H. cbv zeta.
  assert (forall n c j, j ∈ slice0 n (filter (fun j => expired Date_parse c j) (dq_jobs w)) -> j ∈ dq_jobs w /\ expired Date_parse c j = true) as Hin.
  { intros n c j Hj. apply elem_of_firstn, list_elem_of_filter in Hj as [Hj%Is_true_true Hd]. by split. }
  destruct (dry_run_of options cfg).
  - cbn [run] in H. injection H as <- <-. by split_and!; [apply Hin|..].
  - specialize (Hin (int_or (nullish (json_get "batchSize" options) (JNum (num_of_Z (rc_batch cfg)))) (rc_batch cfg))).
    specialize (Hin (dq_clock w - int_or (nullish (json_get "retentionDays" options) (JNum (num_of_Z (rc_days cfg)))) (rc_days cfg) * DAY)).
    revert H Hin. cbv zeta. generalize (slice0 (int_or (nullish (json_get "batchSize" options) (JNum (num_of_Z (rc_batch cfg)))) (rc_batch cfg))
      (filter (fun j => expired Date_parse (dq_clock w - int_or (nullish (json_get "retentionDays" options)
        (JNum (num_of_Z (rc_days cfg)))) (rc_days cfg) * DAY) j) (dq_jobs w))).
    intros sel H Hin. rewrite run_bind in H. destruct (run_remove_jobs sel w []) as (os & w1 & Hrun & Hall & Hm & Hj).
    unfold remove_jobs in H. fold remove_body in H.
    rewrite Hrun in H. cbn [run app] in H. injection H as <- <-. by split_and!; [apply Hin|..].
Qed.
End safety.

(** ** Examples *)

Definition ex_no_dates (s : string) : option ms := if s =s? "1970-01-01T00:00:00.000Z" then Some 0 else None.
Definition ex_range (a b : Z) (l : list DlqJob) : list DlqJob := firstn (Z.to_nat (b + 1 - a)) (skipn (Z.to_nat a) l).
Definition ex_letter (i user : string) (m : list (string * json)) : DlqJob := {|
  dj_id := i; dj_name := "dead-letter"; dj_data := JObj [("userId", JStr user); ("_meta", JObj m)]; dj_attemptsMade := Some 0;
  dj_attempts := Some 1; dj_timestamp := Some 0; dj_finishedOn := None; dj_failedReason := None |}.
Definition ex_failed : list (string * json) := [("failedAt", JStr "1970-01-01T00:00:00.000Z")].
Definition ex_dlq (jobs : list DlqJob) : DlqDB (Q := MapQueue json) := {|
  dq_clock := 30 * DAY; dq_jobs := jobs; dq_locked := []; dq_main := (∅, []); dq_main_up := true; dq_audit := []; dq_events := [] |}.
Definition ex_two_letters : DlqDB := ex_dlq [ex_letter "a" "ann" ex_failed; ex_letter "b" "bob" (("originalJobId", JStr "7") :: ex_failed)].
Definition ex_replays : gmap positive DlqOp :=
  {[ 1%positive := ReplayOne "a" "1"; 2%positive := ReplayBulk "2" (JObj []); 3%positive := Workers ["b"] true 9 ]}.
Definition ex_replayed : DlqDB * gmap positive (prog DlqDB dlq_error (list DlqReplayOutcome)) :=
  run_schedule ([1; 2; 2; 2; 2; 3]%positive ++ replicate 12 1%positive ++ replicate 20 2%positive)
    (ex_two_letters, serve_dlq ex_range ex_no_dates <$> ex_replays).

(** Two operators replay at once while a worker holds one of the jobs: both jobs reach
    the main queue, once. *)
Lemma replay_loses_nothing_witness :
  job_lookup "dlq-replay:a" (dq_main ex_replayed.1) = Some (JObj [("userId", JStr "ann")])
  /\ ((exists k, k ∈ dq_jobs ex_replayed.1 /\ dj_id k = "b" /\ without_meta (dj_data k) = JObj [("userId", JStr "bob")])
      \/ job_lookup "dlq-replay:7" (dq_main ex_replayed.1) = Some (JObj [("userId", JStr "bob")])).
Proof.
  split; [vm_compute; reflexivity|].
  pose proof (replay_loses_nothing ex_range ex_no_dates ex_replays ex_two_letters ex_replayed.1 ex_replayed.2) as H.
  rewrite <- surjective_pairing in H. destruct H as [H _].
  - split.
    + apply (bool_decide_unpack _). vm_compute. exact I.
    + apply (bool_decide_unpack _). vm_compute. exact I.
    + intros j r Hj. apply elem_of_cons in Hj as [->|Hj]; [done|]. by apply list_elem_of_singleton in Hj as ->.
  - intros t i d Hl%elem_of_map_to_list. exfalso.
    assert (Forall (fun p => match p.2 with OtherJob _ _ => False | _ => True end) (map_to_list ex_replays)) as Hf
      by (vm_compute; repeat constructor).
    rewrite Forall_forall in Hf. exact (Hf _ Hl).
  - exact (run_schedule_reach _ _).
  - destruct (H (ex_letter "b" "bob" (("originalJobId", JStr "7") :: ex_failed))) as [Hk|Hq]; [right; left|left; exact Hk|right; exact Hq].
Defined.
Lemma retention_cleanup_exact_witness :
  exists r w', run (runRetentionCleanup ex_no_dates (JObj [("dryRun", JStr "false")]) {| rc_days := 14; rc_batch := 1; rc_dryRun := JBool false |}) ex_two_letters
    = (Ok r, w') /\ dq_main w' = dq_main ex_two_letters /\ map dj_id (dq_jobs w') = ["b"].
Proof.
  eexists _, _. split; [vm_compute; reflexivity|]. split; [|reflexivity].
  exact (proj1 (proj2 (retention_cleanup_exact ex_no_dates (JObj [("dryRun", JStr "false")]) {| rc_days := 14; rc_batch := 1; rc_dryRun := JBool false |}
    ex_two_letters _ _ eq_refl))).
Defined.

(** ** Where the limits and defaults fail *)

Definition replay_all (options : json) : prog (DlqDB (Q := MapQueue json)) dlq_error (ReplaySummary * list DlqReplayOutcome) :=
  replayDlqJobsBulk ex_no_dates "9" options.

(** The count of replays stays in the dead-letter queue: the job that is replayed
    carries none, so that its next dead letter starts at zero. *)
Theorem replay_forgets_count :
  let w := (run (replay_all (JObj [])) (ex_dlq [ex_letter "a" "ann" (("replayCount", JNum (num_of_Z 2)) :: ex_failed)])).2 in
  (dq_jobs w, job_lookup "dlq-replay:a" (dq_main w)) = ([], Some (JObj [("userId", JStr "ann")])).
Proof. vm_compute. reflexivity. Qed.

(** A job at the limit is in no count of the summary, and partial failure is not told. *)
Theorem summary_omits_max :
  let r := run (replay_all (JObj [])) (ex_dlq [ex_letter "a" "ann" (("replayCount", JNum (num_of_Z 3)) :: ex_failed)]) in
  match r.1 with Ok x => x.1 | Exn _ => buildReplaySummary [] end
  = {| attempted := 1; replayed := 0; deduplicated := 0; rs_failed := 0; rs_noOp := false |}.
Proof. vm_compute. reflexivity. Qed.

(** A job is replayed alone while a bulk replay is under way: the bulk replay throws at
    it, and what it has replayed before is in no audit entry. *)
Theorem bulk_aborts_unaudited :
  let s := run_schedule (replicate 7 1%positive ++ replicate 12 2%positive ++ replicate 12 1%positive)
    (ex_two_letters, {[ 1%positive := serve_dlq ex_range ex_no_dates (ReplayBulk "8" (JObj [])); 2%positive := serve_dlq ex_range ex_no_dates (ReplayOne "b" "9") ]}) in
  (bool_decide (is_Some (job_lookup "dlq-replay:a" (dq_main s.1))),
   map (fun a => match a with ReplayAudit _ actor _ _ os _ => (actor, map ro_jobId os) | _ => ("", []) end) (dq_audit s.1),
   s.2 !! 1%positive)
  = (true, [("9", ["b"])], Some (Throw (Rejected "Missing key for job b. updateData"))).
Proof. vm_compute. reflexivity. Qed.

(** By the default of the environment, a text, the retention cleanup is a dry run. *)
Theorem dry_run_by_default cfg : rc_dryRun cfg = JStr "false" -> dry_run_of (JObj []) cfg = true.
Proof. intros H. unfold dry_run_of. cbn. by rewrite H. Qed.

(** No selected job is every job. *)
Theorem empty_selection_replays_all j : matchesDlqFilter ex_no_dates j (normalizeDlqFilter (JObj [("jobIds", JArr [])])) = true.
Proof. reflexivity. Qed.

(** A reason of failure is a formula in the exported file. *)
Theorem csv_formula_unguarded : escapeCsvField "=1+1" = String dquote ("=1+1" +:+ String dquote "").
Proof. reflexivity. Qed.

(** The list is filtered after it is cut: a page is empty where jobs match, and the
    total counts all. *)
Theorem list_filtered_late :
  (run (listDlqJobs ex_range ex_no_dates 1 1 (Some (normalizeDlqFilter (JObj [("search", JStr "bob")])))) ex_two_letters).1 = Ok ([], 2%nat).
Proof. vm_compute. reflexivity. Qed.
