(* ===== verification/Templates.v ===== *)
(** * Templates of mails

    [src/xconfess-backend/src/config/email.config.ts] and the rendering part of
    [email/email.service.ts]: which version of a template a mail is made of, and how
    values are put into it.  Objects used as maps are finite maps; what they inherit
    from [Object.prototype] is not modelled. *)
From S2P Require Import Prelude Numbers Json Dates Csv.
Open Scope Z_scope.

(** ** Data *)

Inductive LifecycleState := Draft | Canary | Active | Deprecated | Archived.
#[export] Instance LifecycleState_eq_dec : EqDecision LifecycleState.
Proof. solve_decision. Defined.
(** The types a variable is declared with; a value may have another. *)
Inductive JsType := TString | TNumber | TBoolean | TObject | TUndefined | TNull | TArray.
#[export] Instance JsType_eq_dec : EqDecision JsType.
Proof. solve_decision. Defined.
(** [src config/email.config.ts:11-14 EmailTemplateVariableSchema] *)
Record VariableSchema := { vs_required : list (string * JsType); vs_optional : option (list (string * JsType)) }.
(** [src config/email.config.ts:16-24 EmailTemplateVersion] *)
Record EmailTemplateVersion := {
  tv_version : string; tv_subject : string; tv_html : string; tv_text : string;
  tv_requiredVars : list string; tv_schema : option VariableSchema; tv_state : LifecycleState }.
#[export] Instance eta_Version : Eta EmailTemplateVersion := fun v => {|
  tv_version := tv_version v; tv_subject := tv_subject v; tv_html := tv_html v; tv_text := tv_text v;
  tv_requiredVars := tv_requiredVars v; tv_schema := tv_schema v; tv_state := tv_state v |}.
(** [src config/email.config.ts:26-30 EmailTemplateRollout] *)
Record EmailTemplateRollout := { tr_canaryVersion : option string; tr_canaryWeight : option jsnum; tr_killSwitch : option bool }.
#[export] Instance eta_Rollout : Eta EmailTemplateRollout := fun r => {|
  tr_canaryVersion := tr_canaryVersion r; tr_canaryWeight := tr_canaryWeight r; tr_killSwitch := tr_killSwitch r |}.
Definition no_rollout : EmailTemplateRollout := {| tr_canaryVersion := None; tr_canaryWeight := None; tr_killSwitch := None |}.
(** [src config/email.config.ts:32-38 EmailTemplateRegistry] *)
Record TemplateEntry := { te_activeVersion : string; te_versions : gmap string EmailTemplateVersion; te_rollout : option EmailTemplateRollout }.
#[export] Instance eta_Entry : Eta TemplateEntry := fun e => {|
  te_activeVersion := te_activeVersion e; te_versions := te_versions e; te_rollout := te_rollout e |}.
Definition TemplateRegistry := gmap string TemplateEntry.
(** [src config/email.config.ts:43-47 TemplateRolloutPolicy] *)
Record TemplateRolloutPolicy := { po_activeVersion : string; po_canaryVersion : option string; po_canaryPercent : option jsnum }.
Definition TemplateRolloutMap := gmap string TemplateRolloutPolicy.
(** [src email/email-template.errors.ts:1-4 EmailTemplateErrorCode] *)
Inductive EmailTemplateError :=
| TemplateNotFound (key : string)
| TemplateVersionNotFound (key version : string)
| ActiveVersionMissing (key version : string).

(** ** Which version *)

Definition kill_switch (e : TemplateEntry) : bool := default false (te_rollout e ≫= tr_killSwitch).
(** [Math.random() * 100 < weight]. *)
Definition below (roll : Q) (weight : jsnum) : bool := num_lt (Fin (roll * 100)%Q) weight.
Definition lookup_key (k : option string) (vs : gmap string EmailTemplateVersion) : option EmailTemplateVersion :=
  match k with Some k => if truthy k then vs !! k else None | None => None end.
Definition is_state (s : LifecycleState) (v : EmailTemplateVersion) : bool := bool_decide (tv_state v = s).
(** [src config/email.config.ts:58-99 resolveTemplate] *)
Definition resolveTemplate (registry : TemplateRegistry) (rolloutMap : TemplateRolloutMap) (templateKey : string) (roll : Q)
    : EmailTemplateError + (EmailTemplateVersion * bool) :=
  match registry !! templateKey with
  | None => inl (TemplateNotFound templateKey)
  | Some reg =>
      let policy := rolloutMap !! templateKey in
      let canaryKey := match policy ≫= po_canaryVersion with Some k => Some k | None => te_rollout reg ≫= tr_canaryVersion end in
      let canaryPct := match policy ≫= po_canaryPercent with
                       | Some x => x
                       | None => default (num_of_Z 0) (te_rollout reg ≫= tr_canaryWeight)
                       end in
      let activeKey := default (te_activeVersion reg) (po_activeVersion <$> policy) in
      let active := match te_versions reg !! activeKey with
                    | Some v => inr (v, false)
                    | None => inl (if truthy activeKey then TemplateVersionNotFound templateKey activeKey
                                   else ActiveVersionMissing templateKey (te_activeVersion reg))
                    end in
      match lookup_key canaryKey (te_versions reg) with
      | Some v => if negb (kill_switch reg) && is_state Canary v && below roll canaryPct then inr (v, true) else active
      | None => active
      end
  end.

(** ** Variables *)

(** [typeof value]. *)
Definition typeof (v : jsval) : JsType :=
  match v with
  | JUndef => TUndefined
  | JDate _ => TObject
  | JVal (JStr _) => TString
  | JVal (JNum _) => TNumber
  | JVal (JBool _) => TBoolean
  | JVal _ => TObject
  end.
(** [src email/email.service.ts:72-76 getActualType] *)
Definition getActualType (v : jsval) : JsType :=
  match v with JVal JNull => TNull | JVal (JArr _) => TArray | _ => typeof v end.
(** [src email/email.service.ts:78-92 normalizeSchema]; without optional variables they
    are the empty object. *)
Definition normalizeSchema (t : EmailTemplateVersion) : list (string * JsType) * list (string * JsType) :=
  (match tv_schema t with Some s => vs_required s | None => map (fun k => (k, TString)) (tv_requiredVars t) end,
   default [] (tv_schema t ≫= vs_optional)).
(** [src email/email.service.ts:42-47 TemplateVariableValidationViolation]; no type is
    expected of an unknown variable. *)
Inductive Violation :=
| Missing (key : string) (expected actual : JsType)
| Unknown_ (key : string) (actual : JsType)
| TypeMismatch (key : string) (expected actual : JsType).
Definition is_nullish (v : jsval) : bool := match v with JUndef | JVal JNull => true | _ => false end.
Definition type_of_key (k : string) (l : list (string * JsType)) : option JsType := snd <$> List.find (fun f => f.1 =s? k) l.
Definition check_required (vars : jsobj) (r : string * JsType) : list Violation :=
  let value := js_get r.1 vars in
  if is_nullish value then [Missing r.1 r.2 (getActualType value)]
  else if bool_decide (typeof value = r.2) then [] else [TypeMismatch r.1 r.2 (getActualType value)].
Definition check_given (required optional : list (string * JsType)) (f : string * jsval) : list Violation :=
  if negb (includes f.1 (map fst required ++ map fst optional)) then [Unknown_ f.1 (getActualType f.2)]
  else match type_of_key f.1 optional with
       | Some ty => if is_nullish f.2 || bool_decide (typeof f.2 = ty) then [] else [TypeMismatch f.1 ty (getActualType f.2)]
       | None => []
       end.
Definition violations (t : EmailTemplateVersion) (vars : jsobj) : list Violation :=
  let '(required, optional) := normalizeSchema t in
  concat (map (check_required vars) required) ++ concat (map (check_given required optional) vars).

(** ** Rendering *)

Definition name_char (c : Ascii.ascii) : bool := between "a"%char "z"%char c || between "A"%char "Z"%char c || between "0"%char "9"%char c || Ascii.eqb c "_"%char.
Fixpoint span_name (s : string) : string * string :=
  match s with
  | String c s' => if name_char c then let '(n, r) := span_name s' in (String c n, r) else ("", s)
  | "" => ("", "")
  end.
(** The name of a placeholder at the head of a text, and what follows it: the match of
    the pattern of [replaceVars]. *)
Definition placeholder (s : string) : option (string * string) :=
  if starts_with "{{" s then
    let '(name, rest) := span_name (trim_start (skip_str 2 s)) in
    let rest := trim_start rest in
    if truthy name && starts_with "}}" rest then Some (name, skip_str 2 rest) else None
  else None.
Inductive segment := Literal (c : Ascii.ascii) | Hole (name : string).
(** The text in the order of the matches; [k] characters belong to the last one. *)
Fixpoint segments (k : nat) (s : string) : list segment :=
  match s with
  | EmptyString => []
  | String c s' =>
      match k with
      | S k => segments k s'
      | O => match placeholder s with
             | Some (name, rest) => Hole name :: segments (String.length s' - String.length rest) s'
             | None => Literal c :: segments O s'
             end
      end
  end.
(** [String(v)] of a value that is not nullish. *)
Definition value_text (v : jsval) : string :=
  match v with JVal j => json_string j | JDate t => toISOString t | JUndef => "undefined" end.
Definition fill (encode : string -> string) (vars : jsobj) (g : segment) : string :=
  match g with
  | Literal c => String c EmptyString
  | Hole k => let v := js_get k vars in if is_nullish v then "" else encode (value_text v)
  end.
Fixpoint concat_str (l : list string) : string := match l with [] => "" | s :: l' => s +:+ concat_str l' end.
(** [src email/email.service.ts:161-166 replaceVars] *)
Definition replaceVars (vars : jsobj) (s : string) (encode : string -> string) : string := concat_str (map (fill encode vars) (segments O s)).
Definition html_entity (c : Ascii.ascii) : string :=
  if Ascii.eqb c "&"%char then "&amp;" else if Ascii.eqb c "<"%char then "&lt;" else if Ascii.eqb c ">"%char then "&gt;"
  else if Ascii.eqb c dquote then "&quot;" else if Ascii.eqb c "'"%char then "&#39;" else String c EmptyString.
(** [src utils/output-escape.ts:15-16 escapeHtml] of a text. *)
Fixpoint escapeHtml (s : string) : string := match s with EmptyString => EmptyString | String c s' => html_entity c +:+ escapeHtml s' end.
Definition line_break (c : Ascii.ascii) : bool := Ascii.eqb c "013"%char || Ascii.eqb c "010"%char.
(** Runs of line breaks become one space; [run] when the last character was one. *)
Fixpoint one_line (run : bool) (s : string) : string :=
  match s with
  | EmptyString => EmptyString
  | String c s' => if line_break c then (if run then one_line true s' else String " "%char (one_line true s')) else String c (one_line false s')
  end.
Record Rendered := { r_subject : string; r_html : string; r_text : string }.
(** [src email/email.service.ts:94-175 renderTemplate] *)
Definition renderTemplate (t : EmailTemplateVersion) (vars : jsobj) : list Violation + Rendered :=
  match violations t vars with
  | [] => inr {| r_subject := replaceVars vars (tv_subject t) (one_line false); r_html := replaceVars vars (tv_html t) escapeHtml;
                 r_text := replaceVars vars (tv_text t) (fun v => v) |}
  | vs => inl vs
  end.

(** ** Properties of rendering *)

Lemma concat_filter f l : (forall a b, f (a +:+ b) = f a +:+ f b) -> f "" = "" -> f (concat_str l) = concat_str (map f l).
Proof. intros Hf H0. induction l as [|s l IH]; [done|]. cbn. by rewrite Hf, IH. Qed.
Fixpoint str_filter (p : Ascii.ascii -> bool) (s : string) : string :=
  match s with EmptyString => EmptyString | String c s' => if p c then String c (str_filter p s') else str_filter p s' end.
Lemma str_filter_app p a b : str_filter p (a +:+ b) = str_filter p a +:+ str_filter p b.
Proof. induction a as [|c a IH]; [done|]. rewrite str_app_cons. cbn [str_filter]. destruct (p c); rewrite IH; [by rewrite str_app_cons|done]. Qed.
Lemma str_filter_none p s : str_forall (fun c => negb (p c)) s = true -> str_filter p s = "".
Proof. induction s as [|c s IH]; [done|]. cbn. intros [Hc Hs]%andb_true_iff. destruct (p c); [done|auto]. Qed.

Definition markup (c : Ascii.ascii) : bool :=
  Ascii.eqb c "<"%char || Ascii.eqb c ">"%char || Ascii.eqb c dquote || Ascii.eqb c "'"%char.
Lemma html_entity_no_markup c : str_forall (fun d => negb (markup d)) (html_entity c) = true.
Proof. destruct c as [[] [] [] [] [] [] [] []]; vm_compute; reflexivity. Qed.
Lemma escapeHtml_no_markup s : str_forall (fun d => negb (markup d)) (escapeHtml s) = true.
Proof. induction s as [|c s IH]; [done|]. cbn. by rewrite str_forall_app, html_entity_no_markup. Qed.
Lemma one_line_no_break s b : str_forall (fun d => negb (line_break d)) (one_line b s) = true.
Proof. revert b; induction s as [|c s IH]; intros b; [done|]. cbn. destruct (line_break c) eqn:Hc; [destruct b; cbn; apply IH|]. cbn. by rewrite Hc, IH. Qed.

(** The characters of a kind in a rendered part are those of its template, where the
    encoding leaves none of the kind in the values. *)
Definition literals (s : string) : string := concat_str (map (fun g => match g with Literal c => String c EmptyString | Hole _ => "" end) (segments O s)).
Lemma replaceVars_filter p vars s encode :
  (forall v, str_forall (fun c => negb (p c)) (encode v) = true) -> str_filter p (replaceVars vars s encode) = str_filter p (literals s).
Proof.
  intros He. unfold replaceVars, literals. rewrite !(concat_filter (str_filter p)) by (done || apply str_filter_app). rewrite !map_map.
  f_equal. apply map_ext. intros [c|k]; [done|]. cbn. destruct (is_nullish _); [done|]. by rewrite str_filter_none by done.
Qed.
Lemma violations_schema t vars : violations t vars = [] ->
  (forall k ty, (k, ty) ∈ (normalizeSchema t).1 -> typeof (js_get k vars) = ty /\ is_nullish (js_get k vars) = false)
  /\ (forall k v, (k, v) ∈ vars -> k ∈ map fst (normalizeSchema t).1 \/ k ∈ map fst (normalizeSchema t).2).
Proof.
  unfold violations. destruct (normalizeSchema t) as [req opt]. cbn [fst snd]. intros [H1 H2]%app_eq_nil. split.
  - intros k ty Hk. assert (check_required vars (k, ty) = []) as H.
    { revert H1 Hk. clear. induction req as [|r req IH]; cbn; [by intros _ ?%not_elem_of_nil|].
      intros [Ha Hb]%app_eq_nil [<-|Hk]%elem_of_cons; [done|auto]. }
    unfold check_required in H. cbn [fst snd] in H. destruct (is_nullish _) eqn:Hn; [done|].
    destruct (bool_decide_reflect (typeof (js_get k vars) = ty)); [done|discriminate].
  - intros k v Hk. assert (check_given req opt (k, v) = []) as H.
    { revert H2 Hk. generalize (check_given req opt). clear. intros f. induction vars as [|r l IH]; cbn; [by intros _ ?%not_elem_of_nil|].
      intros [Ha Hb]%app_eq_nil [<-|Hk]%elem_of_cons; [done|auto]. }
    unfold check_given in H. cbn [fst snd] in H. destruct (includes k _) eqn:Hi; [|done].
    apply includes_spec in Hi. by apply elem_of_app in Hi.
Qed.
