(* ===== verification/EmailService.v ===== *)
(** * Sending mails

    [src/xconfess-backend/src/email/email.service.ts]: two providers behind a circuit
    breaker, the service levels of template versions, and what administrators do with
    templates.  The transports of the providers are parameters; log lines and counters
    are left out. *)
From stdpp Require Import pretty.
From S2P Require Import Prelude Numbers Json Dates Effects Csv Templates.
Open Scope Z_scope.

(** ** Data *)

Inductive ProviderLabel := Primary | Fallback.
#[export] Instance ProviderLabel_eq_dec : EqDecision ProviderLabel.
Proof. solve_decision. Defined.
Record Mail := { ml_to : string; ml_subject : string; ml_html : string; ml_text : string }.
(** [src email/email.service.ts:199-203 TemplateMeta] *)
Record TemplateMeta := { tm_key : string; tm_version : string; tm_isCanary : bool }.
(** [src email/email.service.ts:179-179 CircuitState] *)
Inductive CircuitState := CLOSED | OPEN | HALF_OPEN.
#[export] Instance CircuitState_eq_dec : EqDecision CircuitState.
Proof. solve_decision. Defined.
(** [src email/email.service.ts:181-187 CircuitBreakerState] *)
Record CircuitBreaker := { cb_state : CircuitState; cb_failures : Z; cb_probes : Z; cb_openedAt : option ms; cb_reason : string }.
#[export] Instance eta_Breaker : Eta CircuitBreaker := fun b => {|
  cb_state := cb_state b; cb_failures := cb_failures b; cb_probes := cb_probes b; cb_openedAt := cb_openedAt b; cb_reason := cb_reason b |}.
(** [src config/email.config.ts:124-128 CircuitBreakerConfig] *)
Record CircuitBreakerConfig := { failureThreshold : Z; cooldownSeconds : Z; probeSuccessThreshold : Z }.
(** [src config/email.config.ts:130-135 TemplateVersionSloThreshold] *)
Record SloThreshold := { maxErrorRatePercent : Q; maxP95LatencyMs : Z; minSampleSize : Z; alertAfterConsecutiveBreaches : Z }.
(** [src config/email.config.ts:137-141 EmailTemplateSloConfig] *)
Record SloConfig := { evaluationWindowMinutes : Z; slo_active : SloThreshold; slo_canary : SloThreshold }.
(** [src email/email.service.ts:217-221 TemplateSloSeriesEntry] *)
Record SloEntry := { se_timestamp : ms; se_success : bool; se_duration : Z }.
(** [src email/email.service.ts:223-227 TemplateSloSeries] *)
Record SloSeries := { ss_entries : list SloEntry; ss_breaches : Z; ss_inBreach : bool }.
(** What is announced of a template version. *)
Inductive SloEvent :=
| SloBreached (meta : TemplateMeta) (samples failures : nat) (p95 : Z)
| SloAlert (meta : TemplateMeta) (breachCount : Z)
| SloRecovered (meta : TemplateMeta).
(** What the audit log keeps. *)
Inductive EmailAudit :=
| Delivered (meta : TemplateMeta) (provider : ProviderLabel) (channel : string) (at_ : ms)
| Failed (meta : TemplateMeta) (provider : ProviderLabel) (channel error : string) (at_ : ms)
| StateTransition (key version : string) (from to_ : LifecycleState) (adminId : string)
| RolloutDiff (key version change actorId : string) (before after : string * EmailTemplateRollout)
| KillSwitchToggle (actorId : string) (enabled : bool) (key : option string)
| FallbackActivated (key canary active reason : string)
| Promoted (key version : string)
| RolledBack (key version : string).

Inductive email_error :=
| Unavailable
| SendFailed (m : string)
| AllFailed (m : string)
| NotFoundTemplate (key : string) (version : option string) (code : string)
| InvalidTransition (from to_ : LifecycleState)
| Invalid (key version : string) (vs : list Violation).

Record EmailState := {
  em_clock : ms;
  em_primary : bool;
  em_fallback : bool;
  em_cb : CircuitBreaker;
  em_slo : gmap string SloSeries;
  em_registry : TemplateRegistry;
  em_rolloutMap : TemplateRolloutMap;
  em_audit : list EmailAudit;
  em_events : list SloEvent;
  em_attempts : list (positive * ProviderLabel);
  em_accepted : list (positive * (ProviderLabel * Mail));
}.
#[export] Instance eta_EmailState : Eta EmailState := fun w => {|
  em_clock := em_clock w; em_primary := em_primary w; em_fallback := em_fallback w; em_cb := em_cb w; em_slo := em_slo w;
  em_registry := em_registry w; em_rolloutMap := em_rolloutMap w; em_audit := em_audit w; em_events := em_events w;
  em_attempts := em_attempts w; em_accepted := em_accepted w |}.
Abbreviation action := (prog EmailState email_error).

Section service.
Context (cfg : CircuitBreakerConfig) (slo : SloConfig) (globalKillSwitch : bool) (frontendUrl : string).
(** The error of the [n]th attempt, if it is not accepted. *)
Context (transport : nat -> ProviderLabel -> Mail -> option string).

(** ** Circuit breaker *)

(** [src email/email.service.ts:956-970 transitionTo] *)
Definition transitionTo (next : CircuitState) (reason : string) (b : CircuitBreaker) : CircuitBreaker :=
  b <| cb_state := next |> <| cb_reason := reason |>.
Definition provider (present : bool) (l : ProviderLabel) : option ProviderLabel := if present then Some l else None.
(** [src email/email.service.ts:893-911 resolveProvider] *)
Definition resolveProvider (w : EmailState) : option ProviderLabel * EmailState :=
  let b := em_cb w in
  match cb_state b with
  | OPEN =>
      if cooldownSeconds cfg * 1000 <=? em_clock w - default 0 (cb_openedAt b)
      then (provider (em_primary w) Primary, w <| em_cb ::= transitionTo HALF_OPEN "cooldown_elapsed" |>)
      else (provider (em_fallback w) Fallback, w)
  | CLOSED | HALF_OPEN => (provider (em_primary w) Primary, w)
  end.
Definition label_text (l : ProviderLabel) : string := match l with Primary => "primary" | Fallback => "fallback" end.
(** [src email/email.service.ts:913-929 onSendSuccess] *)
Definition onSendSuccess (l : ProviderLabel) (b : CircuitBreaker) : CircuitBreaker :=
  match cb_state b with
  | HALF_OPEN =>
      let b := b <| cb_probes ::= Z.add 1 |> in
      if probeSuccessThreshold cfg <=? cb_probes b
      then transitionTo CLOSED ("probe_success_threshold_reached provider=" +:+ label_text l) b <| cb_failures := 0 |> <| cb_probes := 0 |>
      else b
  | CLOSED => b <| cb_failures := 0 |>
  | OPEN => b
  end.
(** [src email/email.service.ts:931-954 onSendFailure] *)
Definition onSendFailure (l : ProviderLabel) (error : string) (now : ms) (b : CircuitBreaker) : CircuitBreaker :=
  match l, cb_state b with
  | Fallback, _ | Primary, OPEN => b
  | Primary, HALF_OPEN => transitionTo OPEN ("probe_failed error=" +:+ error) (b <| cb_probes := 0 |>) <| cb_openedAt := Some now |>
  | Primary, CLOSED =>
      let b := b <| cb_failures ::= Z.add 1 |> in
      if failureThreshold cfg <=? cb_failures b
      then transitionTo OPEN ("failure_threshold_reached count=" +:+ pretty (cb_failures b)) (b <| cb_openedAt := Some now |>)
      else b
  end.

(** ** Service levels *)

(** [src email/email.service.ts:756-761 computeP95] *)
Definition computeP95 (entries : list SloEntry) : Z :=
  match entries with
  | [] => 0
  | _ =>
      let sorted := insertion_sort Z.leb (map se_duration entries) in
      let index := (Z.of_nat (length sorted) * 95 + 99) / 100 - 1 in
      default 0 (sorted !! Z.to_nat (Z.max 0 index))
  end.
(** [src email/email.service.ts:763-853 evaluateTemplateSlo] *)
Definition evaluateTemplateSlo (meta : option TemplateMeta) (success : bool) (startedAt : ms) (w : EmailState) : EmailState :=
  match meta with
  | None => w
  | Some m =>
      let key := tm_key m +:+ "@" +:+ tm_version m in
      let now := em_clock w in
      let windowMs := evaluationWindowMinutes slo * 60 * 1000 in
      let existing := default {| ss_entries := []; ss_breaches := 0; ss_inBreach := false |} (em_slo w !! key) in
      let entries := filter (fun e => now - se_timestamp e <= windowMs)
                       (ss_entries existing ++ [{| se_timestamp := now; se_success := success; se_duration := now - startedAt |}]) in
      let threshold := if tm_isCanary m then slo_canary slo else slo_active slo in
      let total := length entries in
      let failures := length (filter (fun e => se_success e = false) entries) in
      let errorRate := (inject_Z (Z.of_nat failures) * 100 / inject_Z (Z.of_nat total))%Q in
      let p95 := computeP95 entries in
      let breached := (minSampleSize threshold <=? Z.of_nat total)
                      && (((0 <? total)%nat && Qltb (maxErrorRatePercent threshold) errorRate) || (maxP95LatencyMs threshold <? p95)) in
      let put breaches inBreach (events : list SloEvent) :=
        w <| em_slo ::= <[key := {| ss_entries := entries; ss_breaches := breaches; ss_inBreach := inBreach |}]> |>
          <| em_events ::= (fun l => l ++ events) |> in
      if breached then
        let count := ss_breaches existing + 1 in
        put count true (SloBreached m total failures p95
                        :: if alertAfterConsecutiveBreaches threshold <=? count then [SloAlert m count] else [])
      else if ss_inBreach existing then put 0 false [SloRecovered m]
      else put 0 false []
  end.

(** ** Sends *)

Definition record_audit (a : ms -> EmailAudit) : action unit := writes (fun w => w <| em_audit ::= (fun l => l ++ [a (em_clock w)]) |>).
Definition audit_of (meta : option TemplateMeta) (f : TemplateMeta -> ms -> EmailAudit) : action unit :=
  match meta with Some m => record_audit (f m) | None => Ret tt end.
(** [transporter.sendMail(...)], by the request [t]. *)
Definition sendMail (t : positive) (l : ProviderLabel) (m : Mail) : action (option string) :=
  access (fun w =>
    let verdict := transport (length (em_attempts w)) l m in
    let w := w <| em_attempts ::= (fun x => x ++ [(t, l)]) |> in
    (verdict, match verdict with None => w <| em_accepted ::= (fun x => x ++ [(t, (l, m))]) |> | Some _ => w end)).
(** [src email/email.service.ts:1153-1217 sendViaFallback] *)
Definition sendViaFallback (t : positive) (m : Mail) (startedAt : ms) (meta : option TemplateMeta) : action unit :=
  let* verdict := sendMail t Fallback m in
  match verdict with
  | None => writes (evaluateTemplateSlo meta true startedAt)
  | Some msg => do* writes (evaluateTemplateSlo meta false startedAt) in Throw (AllFailed msg)
  end.
(** [src email/email.service.ts:974-1151 sendEmail]: what is read and written between two
    awaited calls is one access. *)
Definition sendEmail (t : positive) (m : Mail) (channel : string) (meta : option TemplateMeta) : action unit :=
  let* start := access (fun w => let '(p, w') := resolveProvider w in ((em_clock w, p), w')) in
  match start.2 with
  | None => Throw Unavailable
  | Some l =>
      let* verdict := sendMail t l m in
      match verdict with
      | None =>
          do* writes (fun w => evaluateTemplateSlo meta true start.1 (w <| em_cb ::= onSendSuccess l |>)) in
          audit_of meta (fun tm => Delivered tm l channel)
      | Some error =>
          do* writes (fun w => evaluateTemplateSlo meta false start.1 (w <| em_cb ::= onSendFailure l error (em_clock w) |>)) in
          do* audit_of meta (fun tm => Failed tm l channel error) in
          let* fallback := reads em_fallback in
          if bool_decide (l = Primary) && fallback then sendViaFallback t m start.1 meta
          else Throw (SendFailed error)
      end
  end.

(** ** Templates *)

Definition template_error (e : EmailTemplateError) : email_error :=
  match e with
  | TemplateNotFound k => NotFoundTemplate k None "template_not_found"
  | TemplateVersionNotFound k v => NotFoundTemplate k (Some v) "template_version_not_found"
  | ActiveVersionMissing k v => NotFoundTemplate k (Some v) "template_active_version_missing"
  end.
Definition render_or_throw (key : string) (t : EmailTemplateVersion) (vars : jsobj) : action Rendered :=
  match renderTemplate t vars with inl vs => Throw (Invalid key (tv_version t) vs) | inr r => Ret r end.
(** [src email/email.service.ts:704-739 resolveAndRender] *)
Definition resolveAndRender (key : string) (roll : Q) (vars : jsobj) : action (Rendered * TemplateMeta) :=
  let* r := reads (fun w => resolveTemplate (em_registry w) (em_rolloutMap w) key roll) in
  match r with
  | inl e => Throw (template_error e)
  | inr (t, isCanary) =>
      let* rendered := render_or_throw key t vars in
      Ret (rendered, {| tm_key := key; tm_version := tv_version t; tm_isCanary := isCanary |})
  end.
Definition mail_of (to_ : string) (r : Rendered) : Mail := {| ml_to := to_; ml_subject := r_subject r; ml_html := r_html r; ml_text := r_text r |}.
(** [src email/email.service.ts:237-274 sendGenericNotification]; an error of the
    resolution has become an answer before it is caught. *)
Definition sendGenericNotification (t : positive) (roll : Q) (to_ key : string) (vars : jsobj) : action unit :=
  let* r := resolveAndRender key roll vars in
  sendEmail t (mail_of to_ r.1) ("email_" +:+ key) (Some r.2).
(** [src email/email.service.ts:646-702 resolveActiveTemplate] *)
Definition resolveActiveTemplate (key : string) (roll : Q) : action (option (EmailTemplateVersion * bool)) :=
  access (fun w => match em_registry w !! key with
    | None => (None, w)
    | Some reg =>
        let active : option (EmailTemplateVersion * bool) :=
          match te_versions reg !! te_activeVersion reg with Some v => Some (v, false) | None => None end in
        let canary := lookup_key (te_rollout reg ≫= tr_canaryVersion) (te_versions reg) in
        if globalKillSwitch || kill_switch reg then
          (active,
           if canary is Some _
           then w <| em_audit ::= (fun l => l ++ [FallbackActivated key (default "unknown" (te_rollout reg ≫= tr_canaryVersion)) (te_activeVersion reg)
                                                    (if globalKillSwitch then "global_killswitch" else "local_killswitch")]) |>
           else w)
        else match canary with
             | Some v => if is_state Canary v && below roll (default (num_of_Z 0) (te_rollout reg ≫= tr_canaryWeight))
                         then (Some (v, true), w) else (active, w)
             | None => (active, w)
             end
    end).
Definition texts (fs : list (string * string)) : jsobj := map (fun f => (f.1, JVal (JStr f.2))) fs.
Definition send_resolved (t : positive) (to_ key channel : string) (r : EmailTemplateVersion * bool) (vars : jsobj) (meta : option TemplateMeta) : action unit :=
  let* rendered := render_or_throw key r.1 vars in
  sendEmail t (mail_of to_ rendered) channel
    (Some (default {| tm_key := key; tm_version := tv_version r.1; tm_isCanary := r.2 |} meta)).
(** [src email/email.service.ts:1315-1346 sendWelcomeEmail] *)
Definition sendWelcomeEmail (t : positive) (roll : Q) (email username : string) : action unit :=
  let* resolved := resolveActiveTemplate "welcome" roll in
  match resolved with
  | Some r => send_resolved t email "welcome" "email_welcome" r (texts [("username", username)]) None
  | None =>
      let* active := reads (fun w => match em_registry w !! "welcome" with Some reg => Some (te_activeVersion reg) | None => None end) in
      Throw (NotFoundTemplate "welcome" active "template_active_version_missing")
  end.
(** The pages without a template: their fixed text is a parameter. *)
Context (reactionPage : string -> string -> string -> string -> string) (reactionText : string -> string -> string -> string -> string).
Context (resetPage : string -> string -> string -> string).
Definition truncated (s : string) : string := if (100 <? String.length s)%nat then take_str 100 s +:+ "..." else s.
(** [src email/email.service.ts:1348-1393 sendReactionNotification] *)
Definition sendReactionNotification (t : positive) (roll : Q) (toEmail username reactorName content emoji : string) : action unit :=
  let* resolved := resolveActiveTemplate "reaction_notification" roll in
  match resolved with
  | Some r => send_resolved t toEmail "reaction_notification" "email_reaction" r
                (texts [("username", username); ("reactorName", reactorName); ("emoji", emoji); ("confessionContent", content)]) None
  | None => sendEmail t {| ml_to := toEmail; ml_subject := "Someone reacted with " +:+ emoji +:+ " to your confession!";
                           ml_html := reactionPage (escapeHtml username) (escapeHtml reactorName) (escapeHtml (truncated content)) (escapeHtml emoji);
                           ml_text := reactionText username reactorName (truncated content) emoji |} "email_reaction" None
  end.
(** [src email/email.service.ts:1395-1428 sendPasswordResetEmail] *)
Definition sendPasswordResetEmail (t : positive) (roll : Q) (email token : string) (username : option string) : action unit :=
  let* resolved := resolveActiveTemplate "password_reset" roll in
  let resetUrl := frontendUrl +:+ "/reset-password?token=" +:+ token in
  let name := if truthy_opt username then default "" username else "User" in
  match resolved with
  | Some r => send_resolved t email "password_reset" "email_password_reset" r
                (texts [("username", name); ("resetUrl", resetUrl); ("token", token)]) None
  | None => sendEmail t {| ml_to := email; ml_subject := "Reset Your XConfess Password";
                           ml_html := resetPage (escapeHtml name) (escapeHtml resetUrl) (escapeHtml token);
                           ml_text := "Hello " +:+ name +:+ "," +:+ newline +:+ newline +:+ "Reset your password: " +:+ resetUrl
                                      +:+ newline +:+ newline +:+ "This link expires in 15 minutes." |} "email_password_reset" None
  end.
Definition margin : string := newline +:+ "         ".
Definition commentPage (preview url : string) : string :=
  "<h2>Someone commented on your confession!</h2>" +:+ margin +:+ "<p>Here's a preview of the comment:</p>" +:+ margin
  +:+ "<blockquote>" +:+ preview +:+ "</blockquote>" +:+ margin
  +:+ "<a href=" +:+ String dquote (url +:+ String dquote ">View Confession</a>").
(** [src email/email.service.ts:1430-1477 sendCommentNotification] *)
Definition sendCommentNotification (t : positive) (roll : Q) (to_ confessionId preview : string) (meta : option TemplateMeta) : action unit :=
  let* resolved := resolveActiveTemplate "comment_notification" roll in
  match resolved with
  | Some r => send_resolved t to_ "comment_notification" "email_comment_notification" r
                (texts [("confessionId", confessionId); ("commentPreview", preview); ("frontendUrl", frontendUrl)]) meta
  | None => sendEmail t {| ml_to := to_; ml_subject := "New Comment on Your Confession";
                           ml_html := commentPage preview (frontendUrl +:+ "/confessions/" +:+ confessionId);
                           ml_text := "" |} "email_comment_notification" meta
  end.

(** ** Administration *)

(** [src email/email.service.ts:375-381 validTransitions] *)
Definition validTransitions (s : LifecycleState) : list LifecycleState :=
  match s with
  | Draft => [Canary; Active; Archived]
  | Canary => [Active; Deprecated; Archived]
  | Active => [Deprecated; Archived]
  | Deprecated => [Active; Archived]
  | Archived => [Draft]
  end.
Definition version_of (key version : string) (w : EmailState) : option EmailTemplateVersion :=
  reg ← em_registry w !! key; te_versions reg !! version.
Definition on_entry (key : string) (f : TemplateEntry -> TemplateEntry) (w : EmailState) : EmailState := w <| em_registry ::= alter f key |>.
(** [src email/email.service.ts:383-431 transitionTemplateState] *)
Definition transitionTemplateState (key version : string) (next : LifecycleState) (adminId : string) : action unit :=
  let* from := attempts (fun w => match version_of key version w with
    | None => (Exn (NotFoundTemplate key (Some version) "template_version_not_found"), w)
    | Some t => if bool_decide (next ∈ validTransitions (tv_state t))
                then (Ok (tv_state t), on_entry key (fun reg => reg <| te_versions ::= alter (fun v => v <| tv_state := next |>) version |>) w)
                else (Exn (InvalidTransition (tv_state t) next), w)
    end) in
  record_audit (fun _ => StateTransition key version from next adminId).
Definition rollout_of (reg : TemplateEntry) : EmailTemplateRollout := default no_rollout (te_rollout reg).
Definition snapshot (reg : TemplateEntry) : string * EmailTemplateRollout := (te_activeVersion reg, rollout_of reg).
(** The entry as it was, and [f] of it put in its place. *)
Definition swap_entry (key : string) (missing : email_error) (f : TemplateEntry -> TemplateEntry) : action TemplateEntry :=
  attempts (fun w => match em_registry w !! key with
    | None => (Exn missing, w)
    | Some reg => (Ok reg, on_entry key f w)
    end).
(** [src email/email.service.ts:433-475 setActiveTemplateVersion] *)
Definition setActiveTemplateVersion (key version actorId : string) : action unit :=
  let missing := NotFoundTemplate key (Some version) "template_version_not_found" in
  let* template := reads (version_of key version) in
  let* _ := of_option template missing in
  let* reg := swap_entry key missing (fun reg => reg <| te_activeVersion := version |>) in
  record_audit (fun _ => RolloutDiff key version "active_version_switch" actorId (snapshot reg) (version, rollout_of reg)).
Definition or_old {A} (new old : option A) : option A := match new with Some x => Some x | None => old end.
(** [src email/email.service.ts:477-526 updateTemplateCanaryRollout] *)
Definition updateTemplateCanaryRollout (key actorId : string) (canaryVersion : option string) (canaryWeight : option jsnum) : action unit :=
  let update reg := let r := rollout_of reg in
    r <| tr_canaryVersion := or_old canaryVersion (tr_canaryVersion r) |> <| tr_canaryWeight := or_old canaryWeight (tr_canaryWeight r) |> in
  let* reg := swap_entry key (NotFoundTemplate key None "template_not_found") (fun reg => reg <| te_rollout := Some (update reg) |>) in
  record_audit (fun _ => RolloutDiff key (if truthy_opt canaryVersion then default "" canaryVersion else te_activeVersion reg) "canary_update" actorId
                           (snapshot reg) (te_activeVersion reg, update reg)).
(** [src email/email.service.ts:528-568 setTemplateKillSwitch] *)
Definition setTemplateKillSwitch (actorId : string) (enabled : bool) (templateKey : option string) : action unit :=
  do* (if truthy_opt templateKey then
         let key := default "" templateKey in
         let update reg := rollout_of reg <| tr_killSwitch := Some enabled |> in
         let* reg := swap_entry key (NotFoundTemplate key None "template_not_found") (fun reg => reg <| te_rollout := Some (update reg) |>) in
         record_audit (fun _ => RolloutDiff key (te_activeVersion reg) "kill_switch_toggle" actorId ("", rollout_of reg) ("", update reg))
       else Ret tt) in
  record_audit (fun _ => KillSwitchToggle actorId enabled templateKey).
(** [src email/email.service.ts:584-596 updateRolloutMap] *)
Definition updateRolloutMap (updates : TemplateRolloutMap) : action unit := writes (fun w => w <| em_rolloutMap ::= (fun m => updates ∪ m) |>).
(** [src email/email.service.ts:598-620 promoteCanary] *)
Definition promoteCanary (key : string) : action unit :=
  writes (fun w => match em_rolloutMap w !! key ≫= po_canaryVersion with
    | Some v => if truthy v
                then w <| em_rolloutMap ::= <[key := {| po_activeVersion := v; po_canaryVersion := None; po_canaryPercent := None |}]> |>
                       <| em_audit ::= (fun l => l ++ [Promoted key v]) |>
                else w
    | None => w
    end).
(** [src email/email.service.ts:622-638 rollbackCanary] *)
Definition rollbackCanary (key : string) : action unit :=
  writes (fun w => match em_rolloutMap w !! key with
    | Some p => w <| em_rolloutMap ::= <[key := {| po_activeVersion := po_activeVersion p; po_canaryVersion := None; po_canaryPercent := None |}]> |>
                  <| em_audit ::= (fun l => l ++ [RolledBack key (po_activeVersion p)]) |>
    | None => w
    end).

(** [src email/email.service.ts:205-213 TemplatePreviewResult] *)
Record TemplatePreview := { tp_key : string; tp_requiredVars : list string; tp_version : string; tp_state : LifecycleState; tp_rendered : option Rendered; tp_errors : list Violation; tp_missing : list string }.
(** [src email/email.service.ts:1237-1311 previewTemplate] *)
Definition previewTemplate (key : string) (vars : jsobj) (version : option string) : action TemplatePreview :=
  let* entry := reads (fun w => em_registry w !! key) in
  let* reg := of_option entry (NotFoundTemplate key None "template_not_found") in
  let target := default (te_activeVersion reg) version in
  let* t := of_option (te_versions reg !! target) (NotFoundTemplate key (Some target) "template_version_not_found") in
  match renderTemplate t vars with
  | inr r => Ret {| tp_key := key; tp_requiredVars := tv_requiredVars t; tp_version := tv_version t; tp_state := tv_state t; tp_rendered := Some r; tp_errors := []; tp_missing := [] |}
  | inl vs => Ret {| tp_key := key; tp_requiredVars := tv_requiredVars t; tp_version := tv_version t; tp_state := tv_state t; tp_rendered := None; tp_errors := vs;
                     tp_missing := omap (fun v => match v with Missing k _ _ => Some k | _ => None end) vs |}
  end.
(** [src email/email.controller.ts:98-139 previewTemplate]: nothing is answered where the
    body is refused. *)
Definition controller_preview (key : json) (vars : json) (version : option string) : action (option (bool * TemplatePreview)) :=
  match key, vars with
  | JStr k, JObj fs =>
      if truthy k && forallb (fun f => match f.2 with JStr _ => true | _ => false end) fs then
        let* p := previewTemplate k (map (fun f => (f.1, JVal f.2)) fs) version in
        Ret (Some (bool_decide (tp_errors p = []), p))
      else Ret None
  | _, _ => Ret None
  end.
End service.
