(* ===== verification/EmailSafety.v ===== *)
(** * What the mail service promises

    Theorems on [Templates] and [EmailService]: no value puts markup or a header into a
    mail; however requests interleave an answered send is accepted once, and by nobody
    when it fails; an open circuit spares the primary provider, and closes when it is
    back.  The last section shows where templates are not what administrators set. *)
From stdpp Require Import pretty.
From S2P Require Import Prelude Numbers Json Dates Effects Csv Templates EmailService.
Open Scope Z_scope.

(** ** Rendering *)

(** C18. Whatever the values: the markup of the HTML part and the line breaks of the subject
    are those of the template; every variable it requires was given with its type, and
    no unknown one. *)
Theorem render_injects_nothing (t : EmailTemplateVersion) (vars : jsobj) (r : Rendered) :
  renderTemplate t vars = inr r ->
  str_filter markup (r_html r) = str_filter markup (literals (tv_html t))
  /\ str_filter line_break (r_subject r) = str_filter line_break (literals (tv_subject t))
  /\ (forall k ty, (k, ty) ∈ (normalizeSchema t).1 -> typeof (js_get k vars) = ty /\ is_nullish (js_get k vars) = false)
  /\ forall k v, (k, v) ∈ vars -> k ∈ map fst (normalizeSchema t).1 \/ k ∈ map fst (normalizeSchema t).2.
Proof.
  unfold renderTemplate. destruct (violations t vars) eqn:Hv; [|done]. intros [= <-]. cbn [r_html r_subject].
  destruct (violations_schema t vars Hv) as [H1 H2]. split_and!; [| |exact H1|exact H2].
  - apply replaceVars_filter. intros v. apply escapeHtml_no_markup.
  - apply replaceVars_filter. intros v. apply one_line_no_break.
Qed.
Definition ex_version (state : LifecycleState) : EmailTemplateVersion := {|
  tv_version := "v1"; tv_subject := "Hi {{ name }}!"; tv_html := "<b>{{name}}</b>"; tv_text := "{{name}}"; tv_requiredVars := ["name"];
  tv_schema := None; tv_state := state |}.
Definition ex_vars : jsobj := texts [("name", "<i>" +:+ newline)].
Definition ex_rendered : Rendered := {| r_subject := "Hi <i> !"; r_html := "<b>&lt;i&gt;" +:+ newline +:+ "</b>"; r_text := "<i>" +:+ newline |}.
Lemma render_injects_nothing_witness :
  renderTemplate (ex_version Active) ex_vars = inr ex_rendered /\ str_filter markup (r_html ex_rendered) = "<><>"%string.
Proof.
  split; [vm_compute; reflexivity|].
  rewrite (proj1 (render_injects_nothing (ex_version Active) ex_vars ex_rendered ltac:(vm_compute; reflexivity))). vm_compute. reflexivity.
Defined.

(** ** The breaker *)
Section breaker.
Context (cfg : CircuitBreakerConfig) (slo : SloConfig) (globalKillSwitch : bool) (frontendUrl : string).
Context (transport : nat -> ProviderLabel -> Mail -> option string).
Context (reactionPage : string -> string -> string -> string -> string) (reactionText : string -> string -> string -> string -> string).
Context (resetPage : string -> string -> string -> string).

(** What the service is asked, and time that passes. *)
Inductive EmailOp :=
| Send (m : Mail) (channel : string) (meta : option TemplateMeta)
| Generic (roll : Q) (to_ key : string) (vars : jsobj)
| Welcome (roll : Q) (email username : string)
| ReactionMail (roll : Q) (toEmail username reactorName content emoji : string)
| ResetMail (roll : Q) (email token : string) (username : option string)
| CommentMail (roll : Q) (to_ confessionId preview : string)
| Transition (key version : string) (next : LifecycleState) (admin : string)
| SetActive (key version actor : string)
| SetCanary (key actor : string) (v : option string) (weight : option jsnum)
| SetKill (actor : string) (enabled : bool) (key : option string)
| SetRollout (updates : TemplateRolloutMap)
| Promote (key : string)
| Rollback (key : string)
| Preview (key : string) (vars : jsobj) (version : option string)
| Pass (d : nat).
Definition serve_email (t : positive) (o : EmailOp) : action unit :=
  match o with
  | Send m ch meta => sendEmail cfg slo transport t m ch meta
  | Generic roll to_ key vars => sendGenericNotification cfg slo transport t roll to_ key vars
  | Welcome roll e u => sendWelcomeEmail cfg slo globalKillSwitch transport t roll e u
  | ReactionMail roll e u r c x => sendReactionNotification cfg slo globalKillSwitch transport reactionPage reactionText t roll e u r c x
  | ResetMail roll e k u => sendPasswordResetEmail cfg slo globalKillSwitch frontendUrl transport resetPage t roll e k u
  | CommentMail roll e i p => sendCommentNotification cfg slo globalKillSwitch frontendUrl transport t roll e i p None
  | Transition k v n a => transitionTemplateState k v n a
  | SetActive k v a => setActiveTemplateVersion k v a
  | SetCanary k a v x => updateTemplateCanaryRollout k a v x
  | SetKill a b k => setTemplateKillSwitch a b k
  | SetRollout m => updateRolloutMap m
  | Promote k => promoteCanary k
  | Rollback k => rollbackCanary k
  | Preview k vars v => let* _ := previewTemplate k vars v in Ret tt
  | Pass d => writes (fun w => w <| em_clock ::= Z.add (Z.of_nat d) |>)
  end.
(** Whom an operation writes to. *)
Definition recipient (o : EmailOp) : option string :=
  match o with
  | Send m _ _ => Some (ml_to m)
  | Generic _ e _ _ | Welcome _ e _ | ReactionMail _ e _ _ _ _ | ResetMail _ e _ _ | CommentMail _ e _ _ => Some e
  | _ => None
  end.

(** The counters fit the state. *)
Definition breaker_ok (b : CircuitBreaker) : Prop :=
  match cb_state b with
  | CLOSED => cb_failures b < failureThreshold cfg /\ cb_probes b = 0
  | OPEN => is_Some (cb_openedAt b) /\ cb_probes b = 0
  | HALF_OPEN => is_Some (cb_openedAt b) /\ 0 <= cb_probes b < probeSuccessThreshold cfg
  end.
Context (failures_pos : 0 < failureThreshold cfg) (probes_pos : 0 < probeSuccessThreshold cfg).

Lemma success_ok l b : breaker_ok b -> breaker_ok (onSendSuccess cfg l b).
Proof using failures_pos.
  unfold breaker_ok, onSendSuccess. destruct (cb_state b) eqn:Hs; cbn; [rewrite Hs; cbn; lia|by rewrite Hs|].
  intros [Ho Hp]. destruct (Z.leb_spec (probeSuccessThreshold cfg) (1 + cb_probes b)); cbn; [lia|]. rewrite Hs. cbn. split; [done|lia].
Qed.
Lemma failure_ok l e now b : breaker_ok b -> breaker_ok (onSendFailure cfg l e now b).
Proof.
  unfold breaker_ok, onSendFailure. destruct l; [|done]. destruct (cb_state b) eqn:Hs; cbn; [|by rewrite Hs|by intros _; split].
  intros [Hf Hp]. destruct (Z.leb_spec (failureThreshold cfg) (1 + cb_failures b)); cbn; [by split|]. rewrite Hs. cbn. lia.
Qed.
Lemma resolve_ok w : breaker_ok (em_cb w) -> breaker_ok (em_cb (resolveProvider cfg w).2).
Proof using probes_pos.
  unfold resolveProvider. intros H. destruct (cb_state (em_cb w)) eqn:Hs; [done| |done]. destruct (_ <=? _); [|done]. cbn.
  unfold breaker_ok in *. rewrite Hs in H. cbn. split; [apply H|]. lia.
Qed.
(** The service levels are beside the rest. *)
Lemma slo_frame meta s at_ w :
  let w' := evaluateTemplateSlo slo meta s at_ w in
  em_accepted w' = em_accepted w /\ em_cb w' = em_cb w /\ em_clock w' = em_clock w /\ em_attempts w' = em_attempts w
  /\ em_primary w' = em_primary w /\ em_fallback w' = em_fallback w.
Proof. unfold evaluateTemplateSlo. destruct meta as [m|]; [|done]. cbv zeta. repeat (destruct (match _ with _ => _ end); [done|]). destruct (_ && _); [done|]. by destruct (ss_inBreach _). Qed.

(** *** Once *)

Definition tagged (t : positive) (w : EmailState) : list (ProviderLabel * Mail) := map snd (filter (fun e => e.1 = t) (em_accepted w)).
Abbreviation I := (fun w => breaker_ok (em_cb w)).
Definition send_guar (t : positive) (w w' : EmailState) : Prop := forall u, u <> t -> tagged u w' = tagged u w.
Abbreviation spec := (@rg EmailState email_error I send_guar).
Definition has (t : positive) (l : list (ProviderLabel * Mail)) (w : EmailState) : Prop := tagged t w = l.

Lemma has_stable t l : stable I send_guar t (has t l).
Proof. intros u w w' Hne _ Hl HG. unfold has in *. rewrite <- Hl. apply HG. congruence. Qed.
(** An access that sends nothing. *)
Definition quiet (f : EmailState -> EmailState) : Prop := forall w, I w -> I (f w) /\ em_accepted (f w) = em_accepted w.
Lemma spec_hushed {X B} t l (f : EmailState -> X * EmailState) (q : X -> prog EmailState email_error B) post :
  quiet (fun w => (f w).2) -> (forall x, spec t (has t l) (q x) post) -> spec t (has t l) (bind (access f) q) post.
Proof.
  intros Hf Hq w HI Hl. destruct (Hf w HI) as [HI' Ha]. cbn. split; [done|]. split; [intros u _; unfold tagged; by rewrite Ha|].
  exists (has t l). split; [unfold has, tagged in *; by rewrite Ha|]. split; [apply has_stable|apply Hq].
Qed.
Lemma quiet_same f : (forall w, em_cb (f w) = em_cb w /\ em_accepted (f w) = em_accepted w) -> quiet f.
Proof. intros H w HI. destruct (H w) as [Hc Ha]. by rewrite Hc, Ha. Qed.

(** A program that sends nothing. *)
Definition silent {B} (p : prog EmailState email_error B) : Prop := forall t l, spec t (has t l) p (fun _ => has t l).
Lemma silent_ret {B} (b : B) : silent (Ret b).
Proof. by intros t l w. Qed.
Lemma silent_throw {B} e : silent (Throw e : prog EmailState email_error B).
Proof. by intros t l w. Qed.
Lemma silent_access {X} (f : EmailState -> X * EmailState) : quiet (fun w => (f w).2) -> silent (access f).
Proof. intros Hf t l. apply (spec_hushed t l f Ret); [done|]. by intros x w. Qed.
Lemma silent_bind {A B} (p : prog EmailState email_error A) (q : A -> prog EmailState email_error B) : silent p -> (forall a, silent (q a)) -> silent (bind p q).
Proof.
  intros Hp Hq t l. apply rg_bind with (Q := fun _ => has t l); [|intros a; apply Hq]. eapply rg_post; [|apply Hp]. by intros [a|e] w.
Qed.
Lemma silent_writes f : quiet f -> silent (writes f).
Proof. apply (silent_access (fun w => (tt, f w))). Qed.
Lemma silent_reads {X} (f : EmailState -> X) : silent (reads f).
Proof. apply silent_access. by intros w. Qed.
Lemma silent_option {A} (o : option A) e : silent (of_option o e).
Proof. destruct o; [apply silent_ret|apply silent_throw]. Qed.
Lemma silent_attempts {X} (f : EmailState -> outcome email_error X * EmailState) : quiet (fun w => (f w).2) -> silent (attempts f).
Proof.
  intros Hf t l w HI Hl. destruct (Hf w HI) as [HI' Ha]. split; [done|]. split; [intros u _; unfold tagged; by rewrite Ha|].
  exists (has t l). split; [unfold has, tagged in *; by rewrite Ha|]. split; [apply has_stable|]. by destruct (f w).1; intros v.
Qed.
Lemma silent_audit a : silent (record_audit a).
Proof. by apply silent_writes, quiet_same. Qed.
Lemma silent_audit_of meta f : silent (audit_of meta f).
Proof. destruct meta; [apply silent_audit|apply silent_ret]. Qed.
Lemma silent_swap k e f : silent (swap_entry k e f).
Proof. apply silent_attempts, quiet_same. intros w. by destruct (_ !! _). Qed.
Lemma silent_render k t vars : silent (render_or_throw k t vars).
Proof. unfold render_or_throw. destruct (renderTemplate t vars); [apply silent_throw|apply silent_ret]. Qed.
Lemma quiet_series meta b at_ : quiet (evaluateTemplateSlo slo meta b at_).
Proof. intros w HI. destruct (slo_frame meta b at_ w) as (-> & -> & _). done. Qed.
Lemma quiet_slo meta b at_ (f : CircuitBreaker -> ms -> CircuitBreaker) : (forall c now, breaker_ok c -> breaker_ok (f c now)) ->
  quiet (fun w => evaluateTemplateSlo slo meta b at_ (w <| em_cb ::= (fun c => f c (em_clock w)) |>)).
Proof.
  intros Hf w HI. destruct (slo_frame meta b at_ (w <| em_cb ::= (fun c => f c (em_clock w)) |>)) as (-> & -> & _).
  cbn. split; [by apply Hf|done].
Qed.
Lemma silent_slo meta b at_ (f : CircuitBreaker -> ms -> CircuitBreaker) : (forall c now, breaker_ok c -> breaker_ok (f c now)) ->
  silent (writes (fun w => evaluateTemplateSlo slo meta b at_ (w <| em_cb ::= (fun c => f c (em_clock w)) |>))).
Proof. intros Hf. by apply silent_writes, quiet_slo. Qed.

(** What an answer says of the mails of its request. *)
Definition sent (t : positive) (P : Mail -> Prop) (o : outcome email_error unit) (w : EmailState) : Prop :=
  match o with Ok _ => exists l m, P m /\ tagged t w = [(l, m)] | Exn _ => tagged t w = [] end.
Lemma spec_silent {A} t P (p : prog EmailState email_error A) (q : A -> prog EmailState email_error unit) :
  silent p -> (forall a, spec t (has t []) (q a) (sent t P)) -> spec t (has t []) (bind p q) (sent t P).
Proof. intros Hp Hq. apply rg_bind with (Q := fun _ => has t []); [|done]. eapply rg_post; [|apply Hp]. by intros [a|e] w. Qed.
Lemma spec_sendMail t l m (q : option string -> prog EmailState email_error unit) post :
  (forall x, spec t (has t (match x with None => [(l, m)] | Some _ => [] end)) (q x) post) ->
  spec t (has t []) (bind (sendMail transport t l m) q) post.
Proof.
  intros Hq w HI Hl. cbn [bind sendMail access fst snd].
  assert (forall v x, em_accepted v = em_accepted w ++ [(t, x)] -> tagged t v = [x] /\ send_guar t w v) as Hacc.
  { intros v x Hv. unfold has in Hl. split.
    - unfold tagged in *. rewrite Hv, filter_app, map_app, Hl, filter_cons, decide_True by done. done.
    - intros u Hne. unfold tagged. rewrite Hv, filter_app, filter_cons, decide_False by (cbn; congruence). by rewrite filter_nil, app_nil_r. }
  destruct (transport _ l m) as [e|].
  - split; [exact HI|]. split; [by intros u _|]. exists (has t []). split; [exact Hl|]. split; [apply has_stable|exact (Hq (Some e))].
  - split; [exact HI|]. destruct (Hacc (w <| em_attempts ::= (fun x => x ++ [(t, l)]) |> <| em_accepted ::= (fun x => x ++ [(t, (l, m))]) |>) (l, m)) as [H1 H2]; [done|].
    split; [exact H2|]. exists (has t [(l, m)]). split; [exact H1|]. split; [apply has_stable|exact (Hq None)].
Qed.
Lemma spec_accepted t (P : Mail -> Prop) l m f meta (g : TemplateMeta -> ms -> EmailAudit) :
  P m -> quiet f -> spec t (has t [(l, m)]) (do* writes f in audit_of meta g) (sent t P).
Proof.
  intros HP Hf. apply (spec_hushed t _ (fun w => (tt, f w))); [exact Hf|]. intros _.
  destruct meta as [tm|]; [|by intros w _ Hw; exists l, m].
  apply (spec_hushed t _ (fun w => (tt, w <| em_audit ::= (fun x => x ++ [g tm (em_clock w)]) |>)) Ret); [by apply quiet_same|].
  intros [] w _ Hw. by exists l, m.
Qed.
Lemma spec_mails t (P : Mail -> Prop) m channel meta : P m -> spec t (has t []) (sendEmail cfg slo transport t m channel meta) (sent t P).
Proof using failures_pos probes_pos.
  intros HP. unfold sendEmail. apply spec_hushed.
  { intros w HI. pose proof (resolve_ok w HI). destruct (resolveProvider cfg w) as [p w'] eqn:Hr. split; [done|].
    revert Hr. unfold resolveProvider. destruct (cb_state _); [|destruct (_ <=? _)|]; by intros [= _ <-]. }
  intros [startedAt [l|]]; cbn [fst snd]; [|by intros w]. apply spec_sendMail. intros [error|].
  - apply spec_silent; [apply (silent_slo meta false startedAt (fun c now => onSendFailure cfg l error now c)); intros; by apply failure_ok|intros _].
    apply spec_silent; [apply silent_audit_of|intros _]. apply spec_silent; [apply silent_reads|]. intros fallback.
    destruct (_ && fallback); [|by intros w]. unfold sendViaFallback. apply spec_sendMail. intros [e|].
    + apply spec_silent; [apply silent_writes, quiet_series|by intros _ w].
    + apply (spec_hushed t _ (fun w => (tt, evaluateTemplateSlo slo meta true startedAt w)) Ret).
      * apply quiet_series.
      * intros [] w _ Hw. by exists Fallback, m.
  - apply (spec_accepted t P); [done|]. apply (quiet_slo meta true startedAt (fun c _ => onSendSuccess cfg l c)). intros c _. by apply success_ok.
Qed.
Lemma silent_resolve key roll : silent (resolveActiveTemplate globalKillSwitch key roll).
Proof.
  apply silent_access, quiet_same. intros w. destruct (_ !! key) as [reg|]; [|done]. cbv zeta.
  destruct (globalKillSwitch || _); [by destruct (lookup_key _ _)|]. destruct (lookup_key _ _); [|done]. by destruct (_ && _).
Qed.
Lemma silent_resolveAndRender key roll vars : silent (resolveAndRender key roll vars).
Proof.
  unfold resolveAndRender. apply silent_bind; [apply silent_reads|]. intros [e|[t b]]; [apply silent_throw|].
  apply silent_bind; [apply silent_render|intros; apply silent_ret].
Qed.
Lemma spec_resolved t to_ key channel r vars meta :
  spec t (has t []) (send_resolved cfg slo transport t to_ key channel r vars meta) (sent t (fun m => ml_to m = to_)).
Proof using failures_pos probes_pos.
  unfold send_resolved. apply spec_silent; [apply silent_render|]. intros rendered. by apply spec_mails.
Qed.
Lemma spec_preview key vars version t l : spec t (has t l) (previewTemplate key vars version) (fun _ => has t l).
Proof.
  unfold previewTemplate. apply silent_bind; [apply silent_reads|]. intros entry. apply silent_bind; [apply silent_option|]. intros reg.
  apply silent_bind; [apply silent_option|]. intros v. destruct (renderTemplate _ _); apply silent_ret.
Qed.

Definition answered (t : positive) (o : EmailOp) (r : outcome email_error unit) (w : EmailState) : Prop :=
  match recipient o with Some e => sent t (fun m => ml_to m = e) r w | None => tagged t w = [] end.
Lemma spec_serve_email t o : spec t (has t []) (serve_email t o) (answered t o).
Proof using failures_pos probes_pos.
  unfold answered. destruct o; cbn [serve_email recipient].
  - by apply spec_mails.
  - unfold sendGenericNotification. apply spec_silent; [apply silent_resolveAndRender|]. intros r. by apply spec_mails.
  - unfold sendWelcomeEmail. apply spec_silent; [apply silent_resolve|]. intros [r|]; [apply spec_resolved|].
    apply spec_silent; [apply silent_reads|]. by intros a w.
  - unfold sendReactionNotification. apply spec_silent; [apply silent_resolve|]. intros [r|]; [apply spec_resolved|by apply spec_mails].
  - unfold sendPasswordResetEmail. apply spec_silent; [apply silent_resolve|]. intros [r|]; [apply spec_resolved|by apply spec_mails].
  - unfold sendCommentNotification. apply spec_silent; [apply silent_resolve|]. intros [r|]; [apply spec_resolved|by apply spec_mails].
  - apply silent_bind; [|intros; apply silent_audit]. apply silent_attempts, quiet_same. intros w. destruct (version_of _ _ _); [|done]. by case_bool_decide.
  - unfold setActiveTemplateVersion. repeat first [apply silent_audit|apply silent_reads|apply silent_option|apply silent_swap|apply silent_bind; [|intros ?]].
  - unfold updateTemplateCanaryRollout. repeat first [apply silent_audit|apply silent_swap|apply silent_bind; [|intros ?]].
  - unfold setTemplateKillSwitch. apply silent_bind; [|intros; apply silent_audit]. destruct (truthy_opt _); [|apply silent_ret].
    repeat first [apply silent_audit|apply silent_swap|apply silent_bind; [|intros ?]].
  - by apply silent_writes, quiet_same.
  - apply silent_writes, quiet_same. intros w. destruct (_ ≫= _); [|done]. by destruct (truthy _).
  - apply silent_writes, quiet_same. intros w. by destruct (_ !! _).
  - apply silent_bind; [|intros; apply silent_ret]. intros t' l. apply spec_preview.
  - by apply silent_writes, quiet_same.
Qed.

(** C17. However requests interleave, whatever the providers answer: a request for a mail
    that is answered has had one mail accepted, for its recipient, by one provider, and
    one that fails none; and the counters of the breaker fit its state. *)
Theorem mail_accepted_once (ops : gmap positive EmailOp) (w0 w : EmailState) ps :
  breaker_ok (em_cb w0) -> em_accepted w0 = [] -> pool_reach (w0, map_imap (fun t o => Some (serve_email t o)) ops) (w, ps) ->
  breaker_ok (em_cb w)
  /\ forall t o, ops !! t = Some o ->
       (ps !! t = Some (Ret tt) -> match recipient o with Some e => exists l m, ml_to m = e /\ tagged t w = [(l, m)] | None => tagged t w = [] end)
       /\ (forall e, ps !! t = Some (Throw e) -> tagged t w = []).
Proof using failures_pos probes_pos.
  intros HI Hnone Hreach.
  assert (pool_ok I send_guar (fun t r v => forall o, ops !! t = Some o -> answered t o r v) (w, ps)) as [HIw Hall].
  { eapply rg_sound; [|exact Hreach]. split; [exact HI|]. intros t p Hp. cbn [snd fst] in *. rewrite map_lookup_imap in Hp.
    destruct (ops !! t) as [o|] eqn:Ho; [|done]. injection Hp as <-. exists (has t []). split; [by unfold has, tagged; rewrite Hnone|].
    split; [apply has_stable|]. eapply rg_post; [|apply spec_serve_email]. intros r v Hr o' [= <-]. exact Hr. }
  split; [exact HIw|]. intros t o Ho. split.
  - intros Ht. destruct (Hall t _ Ht) as (P & HP & _ & Hrg). specialize (Hrg w HIw HP o Ho). unfold answered in Hrg. by destruct (recipient o).
  - intros e Ht. destruct (Hall t _ Ht) as (P & HP & _ & Hrg). specialize (Hrg w HIw HP o Ho). unfold answered in Hrg. by destruct (recipient o).
Qed.

(** *** An open circuit *)

Definition primary_attempts (w : EmailState) : nat := length (filter (fun a => a.2 = Primary) (em_attempts w)).
Section open.
Context (o : ms) (n : nat).
Definition late (w : EmailState) : Prop := o + cooldownSeconds cfg * 1000 <= em_clock w.
Definition spared (w : EmailState) : Prop :=
  late w \/ cb_state (em_cb w) = OPEN /\ cb_openedAt (em_cb w) = Some o /\ primary_attempts w = n.
Definition later (w w' : EmailState) : Prop := em_clock w <= em_clock w'.
Abbreviation calm := (@tame EmailState email_error spared later).
Ltac same_time := unfold later; cbn; lia.
Lemma later_refl w : later w w.
Proof. unfold later. lia. Qed.
Lemma lasting_late : lasting later late.
Proof. unfold late, later. intros w w' H Hl. lia. Qed.
Lemma keeps_beside f : (forall w, em_cb (f w) = em_cb w /\ em_clock (f w) = em_clock w /\ em_attempts (f w) = em_attempts w) -> keeps spared later f.
Proof.
  intros H w HI. destruct (H w) as (Hc & Ht & Ha). unfold spared, late, primary_attempts, later in *. rewrite Hc, Ht, Ha. split; [exact HI|lia].
Qed.
Lemma calm_audit a : calm (record_audit a).
Proof. by apply tame_writes, keeps_beside. Qed.
Lemma calm_swap k e f : calm (swap_entry k e f).
Proof. apply tame_attempts, keeps_beside. intros w. by destruct (_ !! _). Qed.
Lemma keeps_slo meta b at_ : keeps spared later (evaluateTemplateSlo slo meta b at_).
Proof. apply keeps_beside. intros w. destruct (slo_frame meta b at_ w) as (_ & H1 & H2 & H3 & _). by split_and!. Qed.
(** The breaker does not hear of a send while it is open. *)
Lemma keeps_verdict meta b at_ f : (forall c now, cb_state c = OPEN -> f c now = c) ->
  keeps spared later (fun w => evaluateTemplateSlo slo meta b at_ (w <| em_cb ::= (fun c => f c (em_clock w)) |>)).
Proof.
  intros Hf w HI. destruct (keeps_slo meta b at_ (w <| em_cb ::= (fun c => f c (em_clock w)) |>)) as [H1 H2].
  - destruct HI as [Hl|(Ho & Hat & Hn)]; [by left|]. right. cbn. by rewrite (Hf _ _ Ho).
  - split; [exact H1|exact H2].
Qed.
Lemma calm_mail t l m (F : EmailState -> Prop) (q : option string -> action unit) post :
  lasting later F -> (forall w, F w -> l = Primary -> late w) -> (forall x, @rg _ email_error spared (fun _ => later) _ t F (q x) post) ->
  @rg _ email_error spared (fun _ => later) _ t F (bind (sendMail transport t l m) q) post.
Proof.
  intros HF Hl Hq. apply spec_access with (F' := fun _ => F); [|done|done]. intros w HI HFw. cbn [fst snd].
  set (w1 := w <| em_attempts ::= (fun x => x ++ [(t, l)]) |>).
  assert (spared w1) as H1.
  { destruct HI as [HI|(Ho & Hat & Hn)]; [by left|]. destruct l; [left; by apply (Hl w)|]. right. split_and!; [done..|].
    unfold primary_attempts, w1 in *. cbn. rewrite filter_app. cbn. by rewrite app_nil_r. }
  assert (F w1) as H2 by (apply (HF w w1); [done|same_time]).
  destruct (transport _ l m); split_and!; try done; try same_time.
  apply (HF w1); [done|same_time].
Qed.
Lemma calm_sendEmail m channel meta t : @rg _ email_error spared (fun _ => later) _ t (fun _ => True) (sendEmail cfg slo transport t m channel meta) (fun _ _ => True).
Proof.
  unfold sendEmail. apply spec_access with (F' := fun r w => r.2 = Some Primary -> late w).
  { intros w HI _. unfold resolveProvider. destruct (cb_state (em_cb w)) eqn:Hs.
    - cbn. split_and!; [done|same_time|]. intros _. destruct HI as [Hl|(Ho & _)]; [done|congruence].
    - destruct HI as [Hl|(Ho & Hat & Hn)].
      + destruct (_ <=? _); cbn; (split_and!; [by left|same_time|by intros _]).
      + rewrite Hat. cbn [default from_option id]. change (default 0 (Some o)) with o. destruct (Z.leb_spec (cooldownSeconds cfg * 1000) (em_clock w - o)) as [Hle|Hlt]; cbn.
        * assert (late w) as Hlate by (unfold late; lia). split_and!; [left; exact Hlate|same_time|intros _; exact Hlate].
        * split_and!; [right; by split_and!|same_time|]. by destruct (em_fallback w).
    - cbn. split_and!; [done|same_time|]. intros _. destruct HI as [Hl|(Ho & _)]; [done|congruence]. }
  { intros r w w' H HG Hr. by apply (lasting_late w), HG; apply H. }
  intros [startedAt [l|]]; cbn [fst snd]; [|by intros w].
  assert (lasting later (fun w => Some l = Some Primary -> late w)) as HF by (intros w w' H HG Hr; by apply (lasting_late w), HG; apply H).
  apply calm_mail; [exact HF|intros w H ->; by apply H|]. intros [error|].
  - apply spec_then; [|exact HF|done|].
    { apply tame_writes, (keeps_verdict meta false startedAt (fun c now => onSendFailure cfg l error now c)). intros c now Hc.
      unfold onSendFailure. rewrite Hc. by destruct l. }
    intros _. apply spec_then; [|exact HF|done|]; [destruct meta; [apply calm_audit|apply tame_ret]|intros _].
    apply spec_then; [apply tame_reads, later_refl|exact HF|done|]. intros fallback. destruct (_ && fallback); [|by intros w].
    unfold sendViaFallback. apply calm_mail; [exact HF|done|]. intros [e|].
    + apply spec_then; [by apply tame_writes, keeps_slo|exact HF|done|by intros _ w].
    + eapply rg_post; [|apply spec_tame; [apply tame_writes, keeps_slo|exact HF]]. done.
  - apply spec_then; [|exact HF|done|].
    { apply tame_writes, (keeps_verdict meta true startedAt (fun c _ => onSendSuccess cfg l c)). intros c now Hc.
      unfold onSendSuccess. by rewrite Hc. }
    intros _. eapply rg_weaken; [|destruct meta; [apply calm_audit|apply tame_ret]]. done.
Qed.
Lemma calm_resolve key roll : calm (resolveActiveTemplate globalKillSwitch key roll).
Proof.
  apply tame_access, keeps_beside. intros w. destruct (_ !! key) as [reg|]; [|done]. cbv zeta.
  destruct (globalKillSwitch || _); [by destruct (lookup_key _ _)|]. destruct (lookup_key _ _); [|done]. by destruct (_ && _).
Qed.
Lemma calm_resolved t to_ key channel r vars meta :
  @rg _ email_error spared (fun _ => later) _ t (fun _ => True) (send_resolved cfg slo transport t to_ key channel r vars meta) (fun _ _ => True).
Proof.
  unfold send_resolved. apply spec_then; [|done|done|intros; apply calm_sendEmail].
  unfold render_or_throw. destruct (renderTemplate _ _); [apply tame_throw|apply tame_ret].
Qed.
Lemma calm_serve t op : @rg _ email_error spared (fun _ => later) _ t (fun _ => True) (serve_email t op) (fun _ _ => True).
Proof.
  assert (forall A (f : EmailState -> A), calm (reads f)) as Hr by (intros; apply tame_reads, later_refl).
  destruct op; cbn [serve_email].
  - apply calm_sendEmail.
  - unfold sendGenericNotification. apply spec_then; [|done|done|intros; apply calm_sendEmail]. unfold resolveAndRender, render_or_throw.
    repeat first [apply Hr|tame_step].
  - unfold sendWelcomeEmail. apply spec_then; [apply calm_resolve|done|done|]. intros [r|]; [apply calm_resolved|].
    apply spec_then; [apply Hr|done|done|by intros a w].
  - unfold sendReactionNotification. apply spec_then; [apply calm_resolve|done|done|]. intros [r|]; [apply calm_resolved|apply calm_sendEmail].
  - unfold sendPasswordResetEmail. apply spec_then; [apply calm_resolve|done|done|]. intros [r|]; [apply calm_resolved|apply calm_sendEmail].
  - unfold sendCommentNotification. apply spec_then; [apply calm_resolve|done|done|]. intros [r|]; [apply calm_resolved|apply calm_sendEmail].
  - apply tame_bind; [|intros; apply calm_audit]. apply tame_attempts, keeps_beside. intros w. destruct (version_of _ _ _); [|done]. by case_bool_decide.
  - unfold setActiveTemplateVersion. repeat first [apply calm_audit|apply Hr|apply calm_swap|tame_step].
  - unfold updateTemplateCanaryRollout. repeat first [apply calm_audit|apply calm_swap|tame_step].
  - unfold setTemplateKillSwitch. apply tame_bind; [|intros; apply calm_audit]. destruct (truthy_opt _); [|apply tame_ret].
    repeat first [apply calm_audit|apply calm_swap|tame_step].
  - by apply tame_writes, keeps_beside.
  - apply tame_writes, keeps_beside. intros w. destruct (_ ≫= _); [|done]. by destruct (truthy _).
  - apply tame_writes, keeps_beside. intros w. by destruct (_ !! _).
  - unfold previewTemplate. repeat first [apply Hr|tame_step].
  - apply tame_writes. intros w HI. split; [|unfold later; cbn; lia]. destruct HI as [Hl|Ho]; [left; unfold late in *; cbn; lia|by right].
Qed.
End open.

(** While the circuit is open and its cooldown has not passed, however requests
    interleave, no mail is tried with the primary provider. *)
Theorem open_circuit_spares_primary (ops : gmap positive EmailOp) (w0 w : EmailState) ps (o : ms) :
  cb_state (em_cb w0) = OPEN -> cb_openedAt (em_cb w0) = Some o ->
  pool_reach (w0, map_imap (fun t op => Some (serve_email t op)) ops) (w, ps) -> em_clock w < o + cooldownSeconds cfg * 1000 ->
  cb_state (em_cb w) = OPEN /\ primary_attempts w = primary_attempts w0.
Proof.
  intros Hs Ho Hreach Ht.
  destruct (tame_pool (spared o (primary_attempts w0)) later (fun _ _ _ => True) w0 (map_imap (fun t op => Some (serve_email t op)) ops) w ps) as [HI _].
  - right. by split_and!.
  - intros t p Hp. rewrite map_lookup_imap in Hp. destruct (ops !! t) as [op|]; [|done]. injection Hp as <-. apply calm_serve.
  - exact Hreach.
  - destruct HI as [Hl|(H1 & _ & H2)]; [unfold late in Hl; lia|done].
Qed.
End breaker.

(** ** Recovery *)
Section recovery.
Context (cfg : CircuitBreakerConfig) (slo : SloConfig) (transport : nat -> ProviderLabel -> Mail -> option string) (meta : option TemplateMeta) (channel : string).
Context (primary_back : forall n m, transport n Primary m = None).

(** A send to a provider that accepts it. *)
Lemma run_accepted t m w w1 : resolveProvider cfg w = (Some Primary, w1) ->
  exists w2, run (sendEmail cfg slo transport t m channel meta) w = (Ok tt, w2)
    /\ em_cb w2 = onSendSuccess cfg Primary (em_cb w1) /\ em_primary w2 = em_primary w1 /\ em_clock w2 = em_clock w1.
Proof using primary_back.
  intros Hr. unfold sendEmail. rewrite run_bind, run_access, Hr. cbn [fst snd]. rewrite run_bind. unfold sendMail. rewrite run_access. cbn [fst snd].
  rewrite primary_back. rewrite run_bind, run_writes.
  set (w2 := evaluateTemplateSlo slo meta true (em_clock w)
    (w1 <| em_attempts ::= (fun x => x ++ [(t, Primary)]) |> <| em_accepted ::= (fun x => x ++ [(t, (Primary, m))]) |> <| em_cb ::= onSendSuccess cfg Primary |>)).
  destruct (slo_frame slo meta true (em_clock w) (w1 <| em_attempts ::= (fun x => x ++ [(t, Primary)]) |> <| em_accepted ::= (fun x => x ++ [(t, (Primary, m))]) |>
    <| em_cb ::= onSendSuccess cfg Primary |>)) as (_ & H1 & H2 & _ & H3 & _). fold w2 in H1, H2, H3.
  destruct meta as [tm|]; cbn [audit_of]; [|exists w2; by split_and!]. unfold record_audit. rewrite run_writes. eexists. split; [reflexivity|]. by split_and!.
Qed.
(** The breaker is back in [k] sends at most. *)
Definition recovering (k : Z) (w : EmailState) : Prop :=
  em_primary w = true /\ (cb_state (em_cb w) = CLOSED
    \/ cb_state (em_cb w) = HALF_OPEN /\ probeSuccessThreshold cfg - k <= cb_probes (em_cb w) < probeSuccessThreshold cfg
    \/ cb_state (em_cb w) = OPEN /\ k = probeSuccessThreshold cfg /\ cb_probes (em_cb w) = 0
       /\ cooldownSeconds cfg * 1000 <= em_clock w - default 0 (cb_openedAt (em_cb w))).
Context (probes_pos : 0 < probeSuccessThreshold cfg).
Lemma recovering_step k t m w : recovering k w ->
  exists w', run (sendEmail cfg slo transport t m channel meta) w = (Ok tt, w') /\ recovering (k - 1) w'.
Proof using primary_back probes_pos.
  intros [Hp Hs]. unfold recovering.
  assert (exists w1, resolveProvider cfg w = (Some Primary, w1) /\ em_primary w1 = true
    /\ (cb_state (em_cb w1) = CLOSED \/ cb_state (em_cb w1) = HALF_OPEN /\ probeSuccessThreshold cfg - k <= cb_probes (em_cb w1))) as (w1 & Hr & Hp1 & Hs1).
  { unfold resolveProvider. destruct Hs as [Hc|[[Hh Hn]|(Ho & Hk' & Hn & Ht)]].
    - rewrite Hc. exists w. rewrite Hp. split_and!; [done|done|by left].
    - rewrite Hh. exists w. rewrite Hp. split_and!; [done|done|right; split; [done|lia]].
    - rewrite Ho, (proj2 (Z.leb_le _ _) Ht), Hp. eexists. split; [done|]. split; [done|]. right. cbn. split; [done|lia]. }
  destruct (run_accepted t m w w1 Hr) as (w2 & Hrun & Hcb & Hp2 & _). exists w2. split; [exact Hrun|]. split; [congruence|].
  rewrite Hcb. unfold onSendSuccess. destruct Hs1 as [Hc|[Hh Hn]].
  - rewrite Hc. left. by cbn.
  - rewrite Hh. cbn. destruct (Z.leb_spec (probeSuccessThreshold cfg) (1 + cb_probes (em_cb w1))); [by left|right; left]. cbn. split; [done|lia].
Qed.
Lemma recovering_run t mails k w : recovering k w ->
  exists w', run (for_each mails (fun m => sendEmail cfg slo transport t m channel meta)) w = (Ok tt, w') /\ recovering (k - Z.of_nat (length mails)) w'.
Proof using primary_back probes_pos.
  revert k w; induction mails as [|m mails IH]; intros k w Hr; cbn [for_each length].
  - exists w. split; [done|]. by rewrite Z.sub_0_r.
  - rewrite run_bind. destruct (recovering_step k t m w Hr) as (w1 & -> & Hr1). destruct (IH (k - 1) w1 Hr1) as (w2 & -> & Hr2).
    exists w2. split; [done|]. replace (k - Z.of_nat (S (length mails))) with (k - 1 - Z.of_nat (length mails)) by lia. exact Hr2.
Qed.

(** C39. Once the cooldown has passed and the primary provider accepts mails again, as many
    sends as the threshold of probes are answered and close the circuit. *)
Theorem circuit_closes (t : positive) (mails : list Mail) (w : EmailState) :
  em_primary w = true -> cb_state (em_cb w) = OPEN -> cb_probes (em_cb w) = 0 ->
  cooldownSeconds cfg * 1000 <= em_clock w - default 0 (cb_openedAt (em_cb w)) ->
  probeSuccessThreshold cfg <= Z.of_nat (length mails) ->
  exists w', run (for_each mails (fun m => sendEmail cfg slo transport t m channel meta)) w = (Ok tt, w') /\ cb_state (em_cb w') = CLOSED.
Proof using primary_back probes_pos.
  intros Hp Ho H0 Ht Hl. destruct (recovering_run t mails (probeSuccessThreshold cfg) w) as (w' & Hrun & _ & Hs).
  - split; [done|]. right. right. by split_and!.
  - exists w'. split; [exact Hrun|]. destruct Hs as [Hc|[[_ Hc]|(_ & Hc & _)]]; [exact Hc|exfalso; lia|exfalso].
    destruct mails; cbn [length] in *; lia.
Qed.
End recovery.

(** ** Examples *)

Definition ex_cfg : CircuitBreakerConfig := {| failureThreshold := 3; cooldownSeconds := 60; probeSuccessThreshold := 2 |}.
Definition ex_threshold : SloThreshold := {| maxErrorRatePercent := 5; maxP95LatencyMs := 1200; minSampleSize := 2; alertAfterConsecutiveBreaches := 1 |}.
Definition ex_slo : SloConfig := {| evaluationWindowMinutes := 15; slo_active := ex_threshold; slo_canary := ex_threshold |}.
Definition ex_page (a b c d : string) : string := a +:+ b +:+ c +:+ d.
Definition ex_reset (a b c : string) : string := a +:+ b +:+ c.
Definition ex_entry (active : string) : TemplateEntry := {|
  te_activeVersion := active; te_versions := {[ "v1" := ex_version Active; "v2" := ex_version Canary ]};
  te_rollout := Some {| tr_canaryVersion := Some "v2"; tr_canaryWeight := Some (num_of_Z 100); tr_killSwitch := Some false |} |}.
Definition ex_email (b : CircuitBreaker) (reg : TemplateRegistry) : EmailState := {|
  em_clock := 100000; em_primary := true; em_fallback := true; em_cb := b; em_slo := ∅; em_registry := reg; em_rolloutMap := ∅;
  em_audit := []; em_events := []; em_attempts := []; em_accepted := [] |}.
Definition ex_closed : CircuitBreaker := {| cb_state := CLOSED; cb_failures := 2; cb_probes := 0; cb_openedAt := None; cb_reason := "initial" |}.
Definition ex_open : CircuitBreaker := {| cb_state := OPEN; cb_failures := 3; cb_probes := 0; cb_openedAt := Some 50000; cb_reason := "" |}.
Definition ex_mail : Mail := {| ml_to := "a@x"; ml_subject := "s"; ml_html := "h"; ml_text := "t" |}.
(** The primary provider is down. *)
Definition ex_down (n : nat) (l : ProviderLabel) (m : Mail) : option string := match l with Primary => Some "ECONNECTION" | Fallback => None end.
Definition ex_up (n : nat) (l : ProviderLabel) (m : Mail) : option string := None.
Definition ex_serve (transport : nat -> ProviderLabel -> Mail -> option string) (ops : gmap positive EmailOp) :=
  map_imap (fun t o => Some (serve_email ex_cfg ex_slo false "http://x" transport ex_page ex_page ex_reset t o)) ops.
Definition ex_sends : gmap positive EmailOp := {[ 1%positive := Send ex_mail "c" None; 2%positive := CommentMail 0 "b@x" "7" "hi" ]}.
Definition ex_run : EmailState * gmap positive (action unit) :=
  run_schedule ([1; 2; 2; 1; 1; 2; 1; 2; 1; 2; 1; 2; 1; 2]%positive ++ replicate 6 1%positive ++ replicate 6 2%positive)
    (ex_email ex_closed ∅, ex_serve ex_down ex_sends).

Lemma mail_accepted_once_witness :
  breaker_ok ex_cfg (em_cb ex_run.1) /\ cb_state (em_cb ex_run.1) = OPEN /\ exists l m, ml_to m = "b@x" /\ tagged 2 ex_run.1 = [(l, m)].
Proof.
  pose proof (mail_accepted_once ex_cfg ex_slo false "http://x" ex_down ex_page ex_page ex_reset ltac:(done) ltac:(done)
    ex_sends (ex_email ex_closed ∅) ex_run.1 ex_run.2) as H.
  rewrite <- surjective_pairing in H. destruct H as [H1 H2].
  - by split.
  - reflexivity.
  - exact (run_schedule_reach _ _).
  - split; [exact H1|]. split; [vm_compute; reflexivity|].
    apply (H2 2%positive (CommentMail 0 "b@x" "7" "hi")); [reflexivity|vm_compute; reflexivity].
Defined.
Definition ex_open_run : EmailState * gmap positive (action unit) :=
  run_schedule (replicate 8 1%positive ++ replicate 8 2%positive) (ex_email ex_open ∅, ex_serve ex_up ex_sends).
Lemma open_circuit_spares_primary_witness :
  map snd (em_attempts ex_open_run.1) = [Fallback; Fallback] /\ primary_attempts ex_open_run.1 = O.
Proof.
  split; [vm_compute; reflexivity|].
  pose proof (open_circuit_spares_primary ex_cfg ex_slo false "http://x" ex_up ex_page ex_page ex_reset
    ex_sends (ex_email ex_open ∅) ex_open_run.1 ex_open_run.2 50000) as H.
  rewrite <- surjective_pairing in H. apply H.
  - reflexivity.
  - reflexivity.
  - exact (run_schedule_reach _ _).
  - vm_compute. reflexivity.
Defined.
Lemma circuit_closes_witness :
  exists w', run (for_each [ex_mail; ex_mail] (fun m => sendEmail ex_cfg ex_slo ex_up 1 m "c" None)) (ex_email ex_open ∅ <| em_clock := 110000 |>) = (Ok tt, w')
    /\ cb_state (em_cb w') = CLOSED.
Proof.
  apply (circuit_closes ex_cfg ex_slo ex_up None "c"); try done; vm_compute; done.
Defined.

(** ** Where templates are not what was set *)

(** Without a registry, which the service reads under a name nothing is stored under,
    no welcome mail is ever sent. *)
Theorem welcome_needs_registry transport roll email username w :
  em_registry w = ∅ ->
  run (sendWelcomeEmail ex_cfg ex_slo false transport 1 roll email username) w = (Exn (NotFoundTemplate "welcome" None "template_active_version_missing"), w).
Proof.
  intros H. unfold sendWelcomeEmail, resolveActiveTemplate. rewrite run_bind, run_access, H. cbn [fst snd].
  change ((∅ : TemplateRegistry) !! "welcome") with (@None TemplateEntry). cbn [fst snd]. rewrite run_bind, run_reads, H. reflexivity.
Qed.

(** Without a registry the preview of a comment is put into the page as it is. *)
Theorem comment_preview_unescaped :
  map (fun a => bool_decide (str_filter markup (ml_html a.2.2) = str_filter markup (commentPage "" "http://x/confessions/7")))
    (em_accepted (run (sendCommentNotification ex_cfg ex_slo false "http://x" ex_up 1 0 "b@x" "7" "<script>" None) (ex_email ex_closed ∅)).2) = [false].
Proof. vm_compute. reflexivity. Qed.

(** Mails that the fallback has taken while the circuit was open count as probes of the
    primary provider: they close the circuit though the primary is down. *)
Theorem fallback_closes_circuit :
  let ops : gmap positive EmailOp := {[ 1%positive := Send ex_mail "c" None; 2%positive := Send ex_mail "c" None; 3%positive := Send ex_mail "c" None; 4%positive := Pass (Z.to_nat 60000) ]} in
  let s := run_schedule [1; 1; 2; 2; 4; 3; 1; 2]%positive (ex_email ex_open ∅, ex_serve ex_down ops) in
  (cb_state (em_cb s.1), map snd (em_attempts s.1)) = (CLOSED, [Fallback; Fallback]).
Proof. vm_compute. reflexivity. Qed.

(** A canary that is rolled back, or promoted, in the rollout map stays in the registry,
    and mails are still made of it. *)
Theorem rollback_leaves_canary :
  let w := ex_email ex_closed {[ "welcome" := ex_entry "v1" ]}
    <| em_rolloutMap := {[ "welcome" := {| po_activeVersion := "v1"; po_canaryVersion := Some "v2"; po_canaryPercent := Some (num_of_Z 50) |} ]} |> in
  let w := (run (rollbackCanary "welcome") w).2 in
  match (run (resolveAndRender "welcome" (1 # 2) ex_vars) w).1 with Ok r => tm_isCanary r.2 | Exn _ => false end = true.
Proof. vm_compute. reflexivity. Qed.

(** The kill switch without a template changes the audit log and nothing else. *)
Theorem global_kill_switch_inert actor enabled w :
  run (setTemplateKillSwitch actor enabled None) w = (Ok tt, w <| em_audit ::= (fun l => l ++ [KillSwitchToggle actor enabled None]) |>).
Proof. reflexivity. Qed.

(** A version that is archived is made the active one, and mails are made of it. *)
Theorem archived_version_sent :
  let w := ex_email ex_closed {[ "welcome" := {| te_activeVersion := "v0"; te_versions := {[ "v1" := ex_version Archived ]}; te_rollout := None |} ]} in
  let w := (run (setActiveTemplateVersion "welcome" "v1" "9") w).2 in
  match (run (resolveAndRender "welcome" 0 ex_vars) w).1 with Ok r => tm_version r.2 | Exn _ => "" end = "v1".
Proof. vm_compute. reflexivity. Qed.
