(* ===== verification/Redaction.v ===== *)
(** * Redaction of what is kept

    [src/xconfess-backend/src/audit-log/audit-log-redaction.service.ts] for the audit log
    and [common/logging/log-redaction.ts] for log lines.  A value is JSON: a field that is
    undefined is left out, as it is when it is stored.  SHA-256 is a parameter. *)
From stdpp Require Import pretty.
From S2P Require Import Prelude Numbers Json.
Open Scope Z_scope.

(** ** Texts *)

Definition ends_with (p s : string) : bool := (String.length p <=? String.length s)%nat && str_eqb (skip_str (String.length s - String.length p) s) p.
Definition alnum (c : Ascii.ascii) : bool := between "a"%char "z"%char c || between "A"%char "Z"%char c || between "0"%char "9"%char c.
Definition url_char (c : Ascii.ascii) : bool := alnum c || Ascii.eqb c "-"%char || Ascii.eqb c "_"%char.
Definition hex_char (c : Ascii.ascii) : bool := between "0"%char "9"%char c || between "a"%char "f"%char c || between "A"%char "F"%char c.
(** [src audit-log/audit-log-redaction.service.ts:119-119 JWT_PATTERN] *)
Definition JWT_PATTERN (s : string) : bool :=
  let parts := split_on "."%char s in
  (length parts =? 3)%nat && forallb (fun p => truthy p && str_forall url_char p) parts.
(** [src audit-log/audit-log-redaction.service.ts:120-120 LONG_HEX_PATTERN] *)
Definition LONG_HEX_PATTERN (s : string) : bool := (40 <=? String.length s)%nat && str_forall hex_char s.
(** A dot between other characters. *)
Fixpoint inner_dot (s : string) : bool :=
  match s with
  | String _ (String "."%char (String _ _) as rest) => true
  | String _ rest => inner_dot rest
  | EmptyString => false
  end.
(** [src audit-log/audit-log-redaction.service.ts:121-121 EMAIL_PATTERN] *)
Definition EMAIL_PATTERN (s : string) : bool :=
  match split_on "@"%char s with
  | [l; d] => truthy l && inner_dot d && str_forall (fun c => negb (is_space c)) s
  | _ => false
  end.

(** ** The audit log *)

(** [src audit-log/audit-log-redaction.service.ts:65-101 SENSITIVE_EXACT_FIELDS] *)
Definition SENSITIVE_EXACT_FIELDS : list string := [
  "token"; "accessToken"; "refreshToken"; "resetToken"; "passwordResetToken"; "bearerToken"; "authToken"; "jwtToken"; "inviteToken"; "sessionToken";
  "password"; "passwordHash"; "newPassword"; "currentPassword"; "passphrase"; "credential"; "secret"; "apiSecret"; "clientSecret"; "signingSecret";
  "encryptionKey"; "privateKey"; "apiKey"; "webhookSecret"; "stellarSecret"; "encryptedPayload"; "encryptedData"; "encryptedContent"; "rawEncrypted";
  "ciphertext"; "encryptedBody"; "signature"; "signedMessage"; "digitalSignature"; "authorization"].
(** [src audit-log/audit-log-redaction.service.ts:103-117 SENSITIVE_NAME_PATTERNS] *)
Definition SENSITIVE_NAME_PATTERNS (name : string) : bool :=
  let n := to_lower name in
  existsb (fun p => contains_str p n)
    ["secret"; "password"; "passphrase"; "credential"; "encrypt"; "cipher"; "signature"; "privatekey"; "apikey"; "bearer"; "authorization"]
  || ends_with "token" n || ends_with "_token" n.
(** [src audit-log/audit-log-redaction.service.ts:164-176 isSensitiveField] *)
Definition isSensitiveField (name : string) : bool := includes name SENSITIVE_EXACT_FIELDS || SENSITIVE_NAME_PATTERNS name.

Section audit.
Context (sha256 : string -> string).
(** [src audit-log/audit-log-redaction.service.ts:270-276 maskUserId] *)
Definition maskUserId (userId : string) : string := "user_" +:+ take_str 12 (sha256 userId).
(** [src audit-log/audit-log-redaction.service.ts:281-295 maskEmail] *)
Definition maskEmail (email : string) : string :=
  match split_on "@"%char email with
  | local :: (_ :: _) =>
      if truthy local then
        let domain := skip_str (String.length local) email in
        if (String.length local <=? 2)%nat then "*" +:+ domain else take_str 2 local +:+ "***" +:+ domain
      else "[REDACTED_EMAIL]"
  | _ => "[REDACTED_EMAIL]"
  end.
(** [src audit-log/audit-log-redaction.service.ts:297-303 maskJwt] *)
Definition maskJwt (token : string) : string :=
  match split_on "."%char token with
  | [a; b; _] => "xxx." +:+ join_with "." [a; b] +:+ ".xxx"
  | _ => "[REDACTED]"
  end.
(** [src audit-log/audit-log-redaction.service.ts:305-310 maskLongHex] *)
Definition maskLongHex (hex : string) : string :=
  if (String.length hex <=? 8)%nat then hex else take_str 4 hex +:+ "..." +:+ skip_str (String.length hex - 4) hex.
Definition names_mail (key : string) : bool :=
  let k := to_lower key in contains_str "email" k || (k =s? "sender") || (k =s? "recipient").
Definition redact_text (key s : string) : string :=
  if isSensitiveField key then "[REDACTED]"
  else if JWT_PATTERN s then maskJwt s
  else if names_mail key && EMAIL_PATTERN s then maskEmail s
  else if ((key =s? "userId") || (key =s? "targetUserId")) && truthy s && str_forall is_digit s then maskUserId s
  else if LONG_HEX_PATTERN s then maskLongHex s
  else s.
(** [src audit-log/audit-log-redaction.service.ts:225-265 redactScalarValue] *)
Definition redactScalarValue (key : string) (v : json) : json := match v with JStr s => JStr (redact_text key s) | _ => v end.
(** [src audit-log/audit-log-redaction.service.ts:196-223 redactField]: the fields of an
    object by their names; an array within two others is read as an object whose names
    are the indices. *)
Fixpoint redactField (key : string) (v : json) {struct v} : json :=
  match v with
  | JObj fs => JObj (map (fun f => (f.1, redactField f.1 f.2)) fs)
  | JArr l => JArr (map (fun item =>
      match item with
      | JObj fs => JObj (map (fun f => (f.1, redactField f.1 f.2)) fs)
      | JArr l' => JArr (map (fun inner =>
          match inner with
          | JObj fs => JObj (map (fun f => (f.1, redactField f.1 f.2)) fs)
          | JArr l'' => JObj ((fix indexed (n : nat) (l : list json) : list (string * json) :=
              match l with [] => [] | x :: l => (pretty n, redactField (pretty n) x) :: indexed (S n) l end) O l'')
          | x => redactScalarValue key x
          end) l')
      | x => redactScalarValue key x
      end) l)
  | x => redactScalarValue key x
  end.
(** [src audit-log/audit-log-redaction.service.ts:182-194 redactMetadata] of an object. *)
Definition redactMetadata (fs : list (string * json)) : list (string * json) := map (fun f => (f.1, redactField f.1 f.2)) fs.
End audit.

(** ** Log lines *)

(** [src common/logging/log-redaction.ts:21-55 SENSITIVE_EXACT] *)
Definition SENSITIVE_EXACT : list string := [
  "password"; "passwordHash"; "newPassword"; "currentPassword"; "passphrase"; "secret"; "apiSecret"; "clientSecret"; "signingSecret"; "encryptionKey";
  "privateKey"; "apiKey"; "webhookSecret"; "stellarSecret"; "jwtSecret"; "sessionSecret"; "token"; "accessToken"; "refreshToken"; "resetToken";
  "bearerToken"; "authToken"; "jwtToken"; "sessionToken"; "authorization"; "cookie"; "setCookie"; "encryptedPayload"; "encryptedData"; "ciphertext";
  "seedPhrase"; "seed"; "signingKey"].
(** [src common/logging/log-redaction.ts:57-69 SENSITIVE_PATTERNS] *)
Definition SENSITIVE_PATTERNS (name : string) : bool :=
  let n := to_lower name in
  existsb (fun p => contains_str p n) ["password"; "secret"; "privatekey"; "apikey"; "authorization"; "credential"; "encrypt"; "cipher"; "seedphrase"]
  || ends_with "token" n || ends_with "_token" n.
(** [src common/logging/log-redaction.ts:79-102 PRESERVED_FIELDS] *)
Definition PRESERVED_FIELDS : list string := [
  "requestId"; "correlationId"; "timestamp"; "statusCode"; "status"; "method"; "route"; "path"; "duration"; "durationMs"; "subsystem"; "errorClass";
  "code"; "message"; "level"; "event"; "severity"; "userId"; "userRole"; "action"; "entityType"; "entityId"].
(** [src common/logging/log-redaction.ts:147-152 isSensitiveFieldName] *)
Definition isSensitiveFieldName (name : string) : bool := includes name SENSITIVE_EXACT || SENSITIVE_PATTERNS name.
Definition base64_char (c : Ascii.ascii) : bool := alnum c || Ascii.eqb c "+"%char || Ascii.eqb c "/"%char.
Fixpoint strip_pad (s : string) : string :=
  match s with EmptyString => EmptyString | String c s' => if Ascii.eqb c "="%char then EmptyString else String c (strip_pad s') end.
(** [src common/logging/log-redaction.ts:75-75 BASE64_PATTERN] *)
Definition BASE64_PATTERN (s : string) : bool :=
  let body := strip_pad s in
  (40 <=? String.length body)%nat && str_forall base64_char body && (String.length s <=? String.length body + 2)%nat
  && str_forall (fun c => Ascii.eqb c "="%char) (skip_str (String.length body) s).
(** [src common/logging/log-redaction.ts:132-143 redactStringValue] *)
Definition redactStringValue (s : string) : string :=
  if JWT_PATTERN s then "[REDACTED]"
  else if LONG_HEX_PATTERN s then take_str 4 s +:+ "...REDACTED"
  else if BASE64_PATTERN s && (80 <? String.length s)%nat then "[REDACTED]"
  else s.
(** [src common/logging/log-redaction.ts:154-187 redactValue]; the items of an array that
    are arrays are read as objects by their indices. *)
Fixpoint redactValue (key : string) (v : json) {struct v} : json :=
  let payload := fix payload (fs : list (string * json)) : list (string * json) :=
    match fs with
    | [] => []
    | (k, x) :: fs => (k, if includes k PRESERVED_FIELDS then x else redactValue k x) :: payload fs
    end in
  let indexed := fix indexed (n : nat) (l : list json) : list (string * json) :=
    match l with [] => [] | x :: l => (pretty n, redactValue (pretty n) x) :: indexed (S n) l end in
  match v with
  | JStr s => JStr (if isSensitiveFieldName key then "[REDACTED]" else redactStringValue s)
  | JArr l => JArr (map (fun item => match item with
      | JObj fs => JObj (payload fs)
      | JArr l' => JObj (indexed O l')
      | JStr s => JStr (redactStringValue s)
      | x => x
      end) l)
  | JObj fs => JObj (payload fs)
  | x => x
  end.
(** [src common/logging/log-redaction.ts:110-126 redactLogPayload] *)
Definition redactLogPayload (fs : list (string * json)) : list (string * json) :=
  map (fun f => (f.1, if includes f.1 PRESERVED_FIELDS then f.2 else redactValue f.1 f.2)) fs.
