(* ===== verification/AuditLog.v ===== *)
(** * The audit log

    [src/xconfess-backend/src/audit-log/audit-log.service.ts]: what is kept of sensitive
    actions, and how it is found again.  Metadata is JSON, a field that is undefined is
    left out.  How the database writes JSON as text, orders rows by other columns than
    their time and knows the names of users are parameters. *)
From stdpp Require Import pretty.
From S2P Require Import Prelude Numbers Json Dates Effects Redaction.
Open Scope Z_scope.

(** ** Data *)

Definition metadata := list (string * json).
(** [src audit-log/audit-log.service.ts:17-23 AuditActor] *)
Record AuditActor := { ac_type : string; ac_id : string; ac_userId : option string; ac_label : json; ac_source : json }.
(** [src audit-log/audit-log.service.ts:7-13 AuditLogContext]; an id that is not given is
    [JNull]. *)
Record AuditLogContext := { cx_userId : json; cx_ip : option string; cx_agent : option string; cx_requestId : option string; cx_actor : option AuditActor }.
#[export] Instance eta_Context : Eta AuditLogContext := fun c => {|
  cx_userId := cx_userId c; cx_ip := cx_ip c; cx_agent := cx_agent c; cx_requestId := cx_requestId c; cx_actor := cx_actor c |}.
Definition no_context : AuditLogContext := {| cx_userId := JNull; cx_ip := None; cx_agent := None; cx_requestId := None; cx_actor := None |}.
(** [src audit-log/audit-log.service.ts:25-29 CreateAuditLogDto] *)
Record CreateAuditLogDto := { dto_action : string; dto_metadata : metadata; dto_context : AuditLogContext }.
#[export] Instance eta_Dto : Eta CreateAuditLogDto := fun d => {|
  dto_action := dto_action d; dto_metadata := dto_metadata d; dto_context := dto_context d |}.
(** [src audit-log/audit-log.entity.ts:102-141 AuditLog] *)
Record AuditRow := {
  al_adminId : option Z; al_action : string; al_entityType : option string; al_entityId : option string; al_metadata : metadata;
  al_ip : option string; al_agent : option string; al_requestId : option string; al_createdAt : ms }.
Record AuditDB := { ad_clock : ms; ad_rows : list AuditRow; ad_up : bool }.
#[export] Instance eta_AuditDB : Eta AuditDB := fun w => {| ad_clock := ad_clock w; ad_rows := ad_rows w; ad_up := ad_up w |}.

Section service.
Context (sha256 : string -> string).
(** The foreign key on the administrator. *)
Context (user_exists : Z -> bool).
Abbreviation action := (prog AuditDB string).

(** ** Entries *)

(** [Number.isInteger(n)] of a number. *)
Definition num_integer (n : jsnum) : option Z :=
  match n with Fin q => if Qeq_bool q (inject_Z (Qfloor q)) then Some (Qfloor q) else None | _ => None end.
(** [src audit-log/audit-log.service.ts:86-99 toNullableUserId] *)
Definition toNullableUserId (v : json) : option Z :=
  match v with
  | JStr s => if truthy s then parseInt s else None
  | JNum n => num_integer n
  | _ => None
  end.
Definition field (k : string) (md : metadata) : option json := json_get k (JObj md).
Definition nonempty_text (v : option json) : option string := match v with Some (JStr s) => if truthy s then Some s else None | _ => None end.
(** [src audit-log/audit-log.service.ts:101-122 extractEntityId] *)
Definition extractEntityId (md : metadata) : option string :=
  head (omap (fun k => nonempty_text (field k md)) ["entityId"; "reportId"; "commentId"; "confessionId"; "exportId"; "requestId"]).
(** [src audit-log/audit-log.service.ts:124-130 extractMetadataString] *)
Definition extractMetadataString (md : metadata) (key : string) : option string := nonempty_text (field key md).
(** [src audit-log/audit-log.service.ts:1318-1346 createActor]; [given] is the override of
    the user, if there is one. *)
Definition createActor (type id : string) (given : option json) (label source : json) : AuditActor := {|
  ac_type := type; ac_id := id;
  ac_userId := match given with
               | Some JNull => None
               | Some (JStr s) => if truthy s then Some s else None
               | Some v => Some (json_string v)
               | None => if (type =s? "user") || (type =s? "admin") then Some id else None
               end;
  ac_label := label; ac_source := source |}.
Definition plain_actor (type id : string) : AuditActor := createActor type id None JNull JNull.
(** [src audit-log/audit-log.service.ts:1348-1378 resolveActor] *)
Definition resolveActor (d : CreateAuditLogDto) : option AuditActor :=
  let from_metadata :=
    match field "actorType" (dto_metadata d), field "actorId" (dto_metadata d) with
    | Some t, Some i =>
        if json_truthy t && json_truthy i then
          let type := json_string t in
          let id := json_string i in
          Some (createActor type id (Some (if (type =s? "user") || (type =s? "admin") then JStr id else JNull))
                  (default JNull (field "actorLabel" (dto_metadata d))) (default JNull (field "actorSource" (dto_metadata d))))
        else None
    | _, _ => None
    end in
  let from_user := if json_truthy (cx_userId (dto_context d))
                   then Some (createActor "user" (json_string (cx_userId (dto_context d))) (Some (cx_userId (dto_context d))) JNull JNull) else None in
  match cx_actor (dto_context d) with
  | Some a => if truthy (ac_id a) then Some a else match from_metadata with Some a => Some a | None => from_user end
  | None => match from_metadata with Some a => Some a | None => from_user end
  end.
(** [{ ...a, ...b }]. *)
Definition spread (a b : metadata) : metadata := fold_left (fun fs f => json_set f.1 f.2 fs) b a.
Definition opt_text (k : string) (v : option string) : metadata := match v with Some s => [(k, JStr s)] | None => [] end.
Definition if_truthy (k : string) (v : json) : metadata := if json_truthy v then [(k, v)] else [].
(** [s || null]. *)
Definition or_null (s : option string) : option string := if truthy_opt s then s else None.
Definition actor_fields (a : option AuditActor) : metadata :=
  match a with
  | Some a => [("actorType", JStr (ac_type a)); ("actorId", JStr (ac_id a)); ("actorUserId", json_opt_str (or_null (ac_userId a)))]
              ++ if_truthy "actorLabel" (ac_label a) ++ if_truthy "actorSource" (ac_source a)
  | None => []
  end.
Definition raw_metadata (d : CreateAuditLogDto) : metadata :=
  let md := dto_metadata d in
  let template := match extractMetadataString md "templateKey", extractMetadataString md "templateVersion" with
                  | Some k, Some v => [("templateKey", JStr k); ("templateVersion", JStr v)]
                  | _, _ => []
                  end in
  spread md (actor_fields (resolveActor d) ++ opt_text "requestId" (or_null (cx_requestId (dto_context d))) ++ template).
(** [src audit-log/audit-log.service.ts:136-206 log]: an error is logged and not thrown. *)
Definition log (d : CreateAuditLogDto) : action unit :=
  try_catch (attempts (fun w =>
    let row := {|
      al_adminId := toNullableUserId (if json_truthy (cx_userId (dto_context d)) then cx_userId (dto_context d) else JNull);
      al_action := dto_action d;
      al_entityType := match field "entityType" (dto_metadata d) with Some (JStr s) => Some s | _ => None end;
      al_entityId := extractEntityId (dto_metadata d);
      al_metadata := redactMetadata sha256 (raw_metadata d);
      al_ip := or_null (cx_ip (dto_context d)); al_agent := or_null (cx_agent (dto_context d));
      al_requestId := or_null (cx_requestId (dto_context d)); al_createdAt := ad_clock w |} in
    if ad_up w && match al_adminId row with Some i => user_exists i | None => true end
    then (Ok tt, w <| ad_rows ::= (fun l => l ++ [row]) |>)
    else (Exn "save failed", w))) (fun _ => Ret tt).

(** ** Actions *)

Definition now_field (k : string) : action metadata := reads (fun w => [(k, JStr (toISOString (ad_clock w)))]).
Definition by_user (u : json) (c : AuditLogContext) : AuditLogContext := c <| cx_userId := u |>.
Definition by_admin (i : string) (c : AuditLogContext) : AuditLogContext := c <| cx_userId := JStr i |> <| cx_actor := Some (plain_actor "admin" i) |>.
Definition entry (action_ : string) (md : metadata) (c : AuditLogContext) : action unit :=
  log {| dto_action := action_; dto_metadata := md; dto_context := c |}.
(** [src audit-log/audit-log.service.ts:211-226 logConfessionDelete] *)
Definition logConfessionDelete (confessionId userId : string) (c : AuditLogContext) : action unit :=
  let* at_ := now_field "deletedAt" in
  entry "confession_deleted" ([("confessionId", JStr confessionId); ("entityType", JStr "confession"); ("entityId", JStr confessionId)] ++ at_)
    (by_user (JStr userId) c).
(** [src audit-log/audit-log.service.ts:232-259 logModerationStateTransition] *)
Definition logModerationStateTransition (id from to_ actorId reason : string) (confessionId notes : option string) (c : AuditLogContext) : action unit :=
  let* at_ := now_field "transitionedAt" in
  entry "moderation_state_transition"
    ([("entityType", JStr "moderation_log"); ("entityId", JStr id)] ++ opt_text "confessionId" confessionId
     ++ [("previousState", JStr from); ("nextState", JStr to_); ("reason", JStr reason)] ++ opt_text "notes" notes ++ at_) (by_admin actorId c).
(** [src audit-log/audit-log.service.ts:264-281 logCommentDelete] *)
Definition logCommentDelete (commentId confessionId userId : string) (c : AuditLogContext) : action unit :=
  let* at_ := now_field "deletedAt" in
  entry "comment_deleted" ([("commentId", JStr commentId); ("confessionId", JStr confessionId); ("entityType", JStr "comment"); ("entityId", JStr commentId)] ++ at_)
    (by_user (JStr userId) c).
(** [src audit-log/audit-log.service.ts:286-300 logFailedLogin] *)
Definition logFailedLogin (identifier reason : string) (c : AuditLogContext) : action unit :=
  let* at_ := now_field "attemptedAt" in entry "failed_login" ([("identifier", JStr identifier); ("reason", JStr reason)] ++ at_) c.
(** [src audit-log/audit-log.service.ts:305-326 logReport] *)
Definition logReport (reportId targetType targetId reporterId reason : string) (c : AuditLogContext) : action unit :=
  let* at_ := now_field "reportedAt" in
  entry "report_created" ([("reportId", JStr reportId); ("targetType", JStr targetType); ("targetId", JStr targetId); ("entityType", JStr targetType);
                           ("entityId", JStr targetId); ("reason", JStr reason)] ++ at_) (by_user (JStr reporterId) c).
Definition report_entry (action_ when_ reportId adminId : string) (md : metadata) (c : AuditLogContext) : action unit :=
  let* at_ := now_field when_ in
  entry action_ (spread [("reportId", JStr reportId); ("entityType", JStr "report"); ("entityId", JStr reportId)] (md ++ at_)) (by_admin adminId c).
(** [src audit-log/audit-log.service.ts:331-357 logReportResolved] *)
Definition logReportResolved := report_entry "report_resolved" "resolvedAt".
(** [src audit-log/audit-log.service.ts:362-388 logReportDismissed] *)
Definition logReportDismissed := report_entry "report_dismissed" "dismissedAt".
(** [md.k || new Date().toISOString()]. *)
Definition dated (k : string) (md : metadata) : action metadata :=
  reads (fun w => [(k, match field k md with Some v => if json_truthy v then v else JStr (toISOString (ad_clock w)) | None => JStr (toISOString (ad_clock w)) end)]).
(** [src audit-log/audit-log.service.ts:393-430 logNotificationDlqReplay] *)
Definition logNotificationDlqReplay (adminId : string) (md : metadata) (c : AuditLogContext) : action unit :=
  let* at_ := dated "replayedAt" md in entry "notification_dlq_replay" (spread [("entityType", JStr "notification_dlq")] (md ++ at_)) (by_admin adminId c).
(** [src audit-log/audit-log.service.ts:432-469 logNotificationDlqCleanup] *)
Definition logNotificationDlqCleanup (adminId : string) (md : metadata) (c : AuditLogContext) : action unit :=
  let* at_ := dated "cleanedAt" md in entry "notification_dlq_cleanup" (spread [("entityType", JStr "notification_dlq")] (md ++ at_)) (by_admin adminId c).
(** [src audit-log/audit-log.service.ts:475-504 logExportRetentionCleanup] *)
Definition logExportRetentionCleanup (md : metadata) (c : AuditLogContext) : action unit :=
  let* at_ := dated "cleanedAt" md in
  entry "export_retention_cleanup" (spread [("entityType", JStr "data_export_retention")] (md ++ at_))
    (c <| cx_actor := Some (plain_actor "system" "retention-cleanup-scheduler") |>).
Definition json_Z (o : option Z) : json := match o with Some z => JNum (num_of_Z z) | None => JNull end.
(** [src audit-log/audit-log.service.ts:509-534 logAdminCsvExport] *)
Definition logAdminCsvExport (adminId : json) (label : string) (requestId : option string) (rowCount filters : json) (c : AuditLogContext) : action unit :=
  let* at_ := now_field "exportedAt" in
  entry "admin_csv_export" ([("entityType", JStr "admin_csv_export"); ("label", JStr label); ("requestId", json_opt_str (or_null requestId));
                             ("rowCount", rowCount); ("filters", if json_truthy filters then filters else JNull)] ++ at_)
    (by_user (json_Z (toNullableUserId (JStr (json_string adminId)))) c).
(** [src audit-log/audit-log.service.ts:536-555 mapExportActionType] *)
Definition mapExportActionType (a : string) : string :=
  if a =s? "generation_completed" then "export_generation_completed" else if a =s? "link_refreshed" then "export_link_refreshed"
  else if a =s? "downloaded" then "export_downloaded" else if a =s? "download_failed" then "export_download_failed"
  else if a =s? "token_expired" then "export_token_expired" else if a =s? "export_expired" then "export_expired" else "export_request_created".
(** [src audit-log/audit-log.service.ts:65-74 ExportLifecycleAuditRecord] *)
Record ExportLifecycleAuditRecord := {
  lr_action : string; lr_requestId : string; lr_exportId : option string; lr_actorType : string; lr_actorId : option string;
  lr_occurredAt : option string; lr_metadata : metadata; lr_context : AuditLogContext }.
(** [src audit-log/audit-log.service.ts:557-592 logExportLifecycleEvent] *)
Definition logExportLifecycleEvent (r : ExportLifecycleAuditRecord) : action unit :=
  let* now := reads (fun w => toISOString (ad_clock w)) in
  let occurredAt := default now (or_null (lr_occurredAt r)) in
  let exportId := default (lr_requestId r) (or_null (lr_exportId r)) in
  let actorId := or_null (lr_actorId r) in
  let actorUserId := if (lr_actorType r =s? "user") || (lr_actorType r =s? "admin")
                     then match actorId with
                          | Some i => JStr i
                          | None => if json_truthy (cx_userId (lr_context r)) then cx_userId (lr_context r) else JNull
                          end
                     else JNull in
  let userId := match cx_userId (lr_context r) with JNull => actorUserId | v => v end in
  entry (mapExportActionType (lr_action r))
    (spread (lr_metadata r) [("entityType", JStr "data_export"); ("entityId", JStr exportId); ("exportId", JStr exportId); ("requestId", JStr (lr_requestId r));
       ("actorType", JStr (lr_actorType r)); ("actorId", json_opt_str actorId); ("lifecycleAction", JStr (lr_action r)); ("occurredAt", JStr occurredAt)])
    (by_user (json_Z (toNullableUserId userId)) (lr_context r)
       <| cx_actor := Some (createActor (lr_actorType r) (default (lr_action r) actorId) (Some actorUserId) JNull JNull) |>).

(** ** Templates *)

(** [src audit-log/audit-log.service.ts:594-616 buildRolloutDiff] *)
Definition buildRolloutDiff (before after : metadata) : metadata :=
  let keys := map fst before ++ filter (fun k => k ∉ map fst before) (map fst after) in
  omap (fun k =>
    if bool_decide ((stringify <$> field k before) = (stringify <$> field k after)) then None
    else Some (k, JObj (match field k before with Some v => [("before", v)] | None => [] end ++ match field k after with Some v => [("after", v)] | None => [] end))) keys.
(** [src audit-log/audit-log.service.ts:31-36 TemplateRolloutSourceMetadata] *)
Record TemplateRolloutSource := { so_reason : option string; so_correlationId : option string; so_endpoint : option string; so_method : option string }.
(** [src audit-log/audit-log.service.ts:38-52 TemplateRolloutDiffRecord] *)
Record TemplateRolloutDiffRecord := {
  td_key : string; td_version : option string; td_change : string; td_actorId : string; td_actorType : option string;
  td_before : metadata; td_after : metadata; td_source : TemplateRolloutSource }.
Definition json_or_null (o : option string) : json := json_opt_str (or_null o).
(** [src audit-log/audit-log.service.ts:618-655 logTemplateRolloutDiff] *)
Definition logTemplateRolloutDiff (r : TemplateRolloutDiffRecord) (c : AuditLogContext) : action unit :=
  let* at_ := now_field "changedAt" in
  let correlationId := if truthy_opt (so_correlationId (td_source r)) then so_correlationId (td_source r) else cx_requestId c in
  let actorUserId := match cx_userId c with JNull => JStr (td_actorId r) | v => v end in
  entry "template_rollout_diff_recorded"
    ([("entityType", JStr "template_rollout");
      ("entityId", JStr (match or_null (td_version r) with Some v => td_key r +:+ ":" +:+ v | None => td_key r end));
      ("templateKey", JStr (td_key r)); ("templateVersion", json_or_null (td_version r)); ("changeType", JStr (td_change r));
      ("actorId", JStr (td_actorId r)); ("reason", json_or_null (so_reason (td_source r))); ("correlationId", json_or_null correlationId);
      ("sourceEndpoint", json_or_null (so_endpoint (td_source r))); ("sourceMethod", json_or_null (so_method (td_source r)));
      ("before", JObj (td_before r)); ("after", JObj (td_after r)); ("diff", JObj (buildRolloutDiff (td_before r) (td_after r)))] ++ at_)
    (by_user (json_Z (toNullableUserId actorUserId)) c
       <| cx_actor := Some (createActor (default "admin" (or_null (td_actorType r))) (td_actorId r) (Some actorUserId) JNull
                              (json_or_null (so_endpoint (td_source r)))) |>).
Definition with_reason (reason : option string) (s : TemplateRolloutSource) : TemplateRolloutSource := {|
  so_reason := reason; so_correlationId := so_correlationId s; so_endpoint := so_endpoint s; so_method := so_method s |}.
(** [src audit-log/audit-log.service.ts:660-707 logTemplateStateTransition] *)
Definition logTemplateStateTransition (key version from to_ adminId : string) (reason : option string) (s : TemplateRolloutSource) (c : AuditLogContext) : action unit :=
  let* at_ := now_field "transitionedAt" in
  do* entry "template_state_transition" ([("templateKey", JStr key); ("templateVersion", JStr version); ("from", JStr from); ("to", JStr to_)]
        ++ opt_text "reason" reason ++ [("entityType", JStr "template_version"); ("entityId", JStr (key +:+ ":" +:+ version))] ++ at_) (by_admin adminId c) in
  logTemplateRolloutDiff {| td_key := key; td_version := Some version; td_change := "state_transition"; td_actorId := adminId; td_actorType := Some "admin";
    td_before := [("lifecycleState", JStr from)]; td_after := [("lifecycleState", JStr to_)]; td_source := with_reason reason s |} c.
(** [src audit-log/audit-log.service.ts:712-754 logTemplateKillswitchToggle] *)
Definition logTemplateKillswitchToggle (adminId : string) (enabled : bool) (key reason : option string) (s : TemplateRolloutSource) (c : AuditLogContext) : action unit :=
  let* at_ := now_field "toggledAt" in
  let name := default "global" (or_null key) in
  do* entry "template_rollout_killswitch" ([("enabled", JBool enabled); ("templateKey", JStr name)] ++ opt_text "reason" reason
        ++ [("entityType", JStr "template_config"); ("entityId", JStr name)] ++ at_) (by_admin adminId c) in
  logTemplateRolloutDiff {| td_key := name; td_version := None; td_change := "kill_switch_toggle"; td_actorId := adminId; td_actorType := Some "admin";
    td_before := [("killSwitchEnabled", JBool (negb enabled))]; td_after := [("killSwitchEnabled", JBool enabled)]; td_source := with_reason reason s |} c.
(** [src audit-log/audit-log.service.ts:759-802 logTemplateFallbackActivated] *)
Definition logTemplateFallbackActivated (key failed fallback reason : string) (s : TemplateRolloutSource) (c : AuditLogContext) : action unit :=
  let* at_ := now_field "activatedAt" in
  do* entry "template_fallback_activated" ([("templateKey", JStr key); ("failedVersion", JStr failed); ("fallbackVersion", JStr fallback);
        ("reason", JStr reason); ("entityType", JStr "template_version"); ("entityId", JStr (key +:+ ":" +:+ failed))] ++ at_) c in
  let user := cx_userId c in
  logTemplateRolloutDiff {| td_key := key; td_version := Some failed; td_change := "fallback_activation";
    td_actorId := match cx_actor c with
                  | Some a => if truthy (ac_id a) then ac_id a else if json_truthy user then json_string user else "template-fallback"
                  | None => if json_truthy user then json_string user else "template-fallback"
                  end;
    td_actorType := Some (match cx_actor c with
                          | Some a => if truthy (ac_type a) then ac_type a else if json_truthy user then "admin" else "system"
                          | None => if json_truthy user then "admin" else "system"
                          end);
    td_before := [("activeVersion", JStr failed)]; td_after := [("activeVersion", JStr fallback)]; td_source := with_reason (Some reason) s |} c.
End service.

(** ** Queries *)

(** The pattern of [LIKE]; none for one that ends in its escape. *)
Inductive like_token := AnyText | AnyChar | Char (c : Ascii.ascii).
Fixpoint like_pattern (s : string) : option (list like_token) :=
  match s with
  | EmptyString => Some []
  | String "\" (String c s') => cons (Char c) <$> like_pattern s'
  | String "\" EmptyString => None
  | String c s' => cons (if Ascii.eqb c "%"%char then AnyText else if Ascii.eqb c "_"%char then AnyChar else Char c) <$> like_pattern s'
  end.
Fixpoint like (p : list like_token) (s : string) : bool :=
  match p with
  | [] => str_eqb s ""
  | Char c :: p => match s with String d s' => Ascii.eqb c d && like p s' | _ => false end
  | AnyChar :: p => match s with String _ s' => like p s' | _ => false end
  | AnyText :: p => (fix any (s : string) : bool := like p s || match s with String _ s' => any s' | EmptyString => false end) s
  end.
(** [v ILIKE p], false where [v] is null. *)
Definition ilike (p : list like_token) (v : option string) : bool := match v with Some s => like p (to_lower s) | None => false end.

(** The options of the queries. *)
Record AuditQuery := {
  qu_userId : json; qu_actor : option string; qu_actorId : option string; qu_actorType : option string; qu_action : option string;
  qu_entityType : option string; qu_entityId : option string; qu_requestId : option string; qu_exportId : option string;
  qu_templateKey : option string; qu_templateVersion : option string; qu_search : option string;
  qu_sortBy : option string; qu_asc : bool; qu_start : option ms; qu_end : option ms; qu_limit : Z; qu_offset : Z }.
Record AuditPage := { ap_logs : list AuditRow; ap_total : nat; ap_limit : Z; ap_offset : Z }.

Section queries.
Context (jsonb_text : json -> string) (username : Z -> option string) (in_order : option string -> bool -> list AuditRow -> list AuditRow).

(** [metadata->>'k']. *)
Definition arrow (k : string) (r : AuditRow) : option string :=
  match field k (al_metadata r) with Some (JStr s) => Some s | Some JNull | None => None | Some v => Some (jsonb_text v) end.
Definition is_text (v : option string) (s : string) : bool := bool_decide (v = Some s).
(** A condition that an option adds when it is given. *)
Definition given (o : option string) (P : string -> AuditRow -> bool) (r : AuditRow) : bool := if truthy_opt o then P (default "" o) r else true.
Definition between_dates (a b : option ms) (r : AuditRow) : bool :=
  match a with Some t => t <=? al_createdAt r | None => true end && match b with Some t => al_createdAt r <=? t | None => true end.
Definition by_actor (i : string) (r : AuditRow) : bool :=
  is_text (arrow "actorId" r) i || match toNullableUserId (JStr i) with Some n => bool_decide (al_adminId r = Some n) | None => false end.
Definition by_request (i : string) (r : AuditRow) : bool := is_text (al_requestId r) i || is_text (arrow "requestId" r) i.
Definition by_export (i : string) (r : AuditRow) : bool := is_text (arrow "exportId" r) i || is_text (arrow "entityId" r) i.
Definition name_of (r : AuditRow) : option string := al_adminId r ≫= username.
Definition actor_like (actor : string) (r : AuditRow) : option bool :=
  p ← like_pattern ("%" +:+ to_lower actor +:+ "%");
  Some (ilike p (name_of r) || ilike p (arrow "actorLabel" r) || ilike p (arrow "actorId" r)
        || match toNullableUserId (JStr actor) with Some n => bool_decide (al_adminId r = Some n) | None => false end).
Definition search_like (text : string) (r : AuditRow) : option bool :=
  p ← like_pattern ("%" +:+ to_lower text +:+ "%");
  Some (ilike p (Some (al_action r)) || ilike p (al_entityType r) || ilike p (al_entityId r) || ilike p (al_requestId r) || ilike p (name_of r)
        || ilike p (Some (jsonb_text (JObj (al_metadata r))))).
(** The condition of a pattern; none where the database refuses it. *)
Definition given_like (o : option string) (P : string -> AuditRow -> option bool) (r : AuditRow) : option bool :=
  let s := trim (default "" o) in if truthy s then P s r else Some true.
Definition or_100 (l : Z) : Z := if l =? 0 then 100 else l.
Definition failed_page (q : AuditQuery) : AuditPage := {| ap_logs := []; ap_total := 0; ap_limit := or_100 (qu_limit q); ap_offset := qu_offset q |}.
(** The page of the rows that pass, or of nothing when the query is refused. *)
Definition page_of (q : AuditQuery) (P : AuditRow -> option bool) (sort : option string) (asc : bool) (w : AuditDB) : AuditPage :=
  let refused := existsb (fun r => bool_decide (P r = None)) (ad_rows w) in
  if negb (ad_up w) || refused || (or_100 (qu_limit q) <? 0) || (qu_offset q <? 0) then failed_page q
  else
    let rows := in_order sort asc (filter (fun r => default false (P r)) (ad_rows w)) in
    {| ap_logs := firstn (Z.to_nat (or_100 (qu_limit q))) (skipn (Z.to_nat (qu_offset q)) rows); ap_total := length rows;
       ap_limit := or_100 (qu_limit q); ap_offset := qu_offset q |}.
Definition both (a b : option bool) : option bool := x ← a; y ← b; Some (x && y).

(** [src audit-log/audit-log.service.ts:856-1055 findAll] *)
Definition findAll (q : AuditQuery) (w : AuditDB) : AuditPage :=
  let user := if json_truthy (qu_userId q) then Some (toNullableUserId (qu_userId q)) else None in
  match user with
  | Some None => failed_page q
  | _ =>
      page_of q (fun r =>
        both (given_like (qu_actor q) actor_like r) (both (given_like (qu_search q) search_like r)
          (Some (match user with Some u => bool_decide (al_adminId r = u) | None => true end
                 && given (qu_actorId q) by_actor r && given (qu_actorType q) (fun t r => is_text (arrow "actorType" r) t) r
                 && given (qu_action q) (fun a r => al_action r =s? a) r && given (qu_entityType q) (fun t r => is_text (al_entityType r) t) r
                 && given (qu_entityId q) (fun i r => is_text (al_entityId r) i) r && given (qu_requestId q) by_request r
                 && given (qu_exportId q) by_export r && given (qu_templateKey q) (fun k r => is_text (arrow "templateKey" r) k) r
                 && given (qu_templateVersion q) (fun v r => is_text (arrow "templateVersion" r) v) r && between_dates (qu_start q) (qu_end q) r))))
        (qu_sortBy q) (qu_asc q) w
  end.
Definition newest_first (q : AuditQuery) (P : AuditRow -> bool) : AuditDB -> AuditPage := page_of q (fun r => Some (P r)) None false.
(** [src audit-log/audit-log.service.ts:1135-1219 getTemplateRolloutHistory] *)
Definition getTemplateRolloutHistory (q : AuditQuery) : AuditDB -> AuditPage :=
  newest_first q (fun r =>
    includes (al_action r) ["template_state_transition"; "template_rollout_killswitch"; "template_fallback_activated"; "template_rollout_diff_recorded"]
    && given (qu_templateKey q) (fun k r => is_text (arrow "templateKey" r) k) r
    && given (qu_templateVersion q) (fun v r => is_text (arrow "templateVersion" r) v) r && given (qu_actorId q) by_actor r
    && between_dates (qu_start q) (qu_end q) r).
(** [src audit-log/audit-log.service.ts:1221-1316 getExportAccessTrail] *)
Definition getExportAccessTrail (q : AuditQuery) : AuditDB -> AuditPage :=
  newest_first q (fun r =>
    includes (al_action r) ["export_request_created"; "export_generation_completed"; "export_link_refreshed"; "export_downloaded"]
    && is_text (al_entityType r) "data_export" && given (qu_requestId q) by_request r && given (qu_exportId q) by_export r
    && given (qu_actorId q) by_actor r && given (qu_actorType q) (fun t r => is_text (arrow "actorType" r) t) r
    && between_dates (qu_start q) (qu_end q) r).
(** [src audit-log/audit-log.service.ts:807-828 findByEntity] *)
Definition findByEntity (type id : string) (w : AuditDB) : list AuditRow :=
  if ad_up w then in_order None false (filter (fun r => is_text (al_entityType r) type && is_text (al_entityId r) id) (ad_rows w)) else [].
(** [src audit-log/audit-log.service.ts:833-851 findByUser]: the query is answered and not
    awaited, so that its failure is not caught. *)
Definition findByUser (userId : json) (w : AuditDB) : outcome string (list AuditRow) :=
  match toNullableUserId userId with
  | Some n => if ad_up w then Ok (in_order None false (filter (fun r => bool_decide (al_adminId r = Some n)) (ad_rows w))) else Exn "query failed"
  | None => Ok []
  end.
(** [src audit-log/audit-log.service.ts:1060-1108 getStatistics] *)
Definition getStatistics (a b : option ms) (w : AuditDB) : nat * list (string * nat) :=
  if ad_up w then
    let rows := filter (fun r => between_dates a b r) (ad_rows w) in
    (length rows, map (fun k => (k, length (filter (fun r => al_action r = k) rows))) (remove_dups (map al_action rows)))
  else (O, []).
End queries.
