(* ===== verification/AuditSafety.v ===== *)
(** * What the audit log promises

    Theorems on [Redaction] and [AuditLog]: a row does not depend on the texts under
    sensitive names, no text of its metadata that looks like a token or a long key is whole,
    and an entry never fails its caller nor changes another.  The last section shows what is
    kept nevertheless. *)
From stdpp Require Import pretty.
From S2P Require Import Prelude Numbers Json Dates Effects Redaction AuditLog.
Open Scope Z_scope.

(** ** Texts under sensitive names *)

(** The metadata without them. *)
Definition blot_scalar (key : string) (v : json) : json := match v with JStr s => JStr (if isSensitiveField key then "" else s) | _ => v end.
Fixpoint blot (key : string) (v : json) {struct v} : json :=
  match v with
  | JObj fs => JObj (map (fun f => (f.1, blot f.1 f.2)) fs)
  | JArr l => JArr (map (fun item =>
      match item with
      | JObj fs => JObj (map (fun f => (f.1, blot f.1 f.2)) fs)
      | JArr l' => JArr (map (fun inner =>
          match inner with
          | JObj fs => JObj (map (fun f => (f.1, blot f.1 f.2)) fs)
          | JArr _ => inner
          | x => blot_scalar key x
          end) l')
      | x => blot_scalar key x
      end) l)
  | x => blot_scalar key x
  end.
Definition blot_fields (fs : metadata) : metadata := map (fun f => (f.1, blot f.1 f.2)) fs.

Section blot.
Context (sha256 : string -> string).
Abbreviation redact := (redactField sha256).
Definition redact_inner (key : string) (inner : json) : json :=
  match inner with
  | JObj fs => JObj (redactMetadata sha256 fs)
  | JArr l'' => JObj ((fix indexed (n : nat) (l : list json) : list (string * json) :=
      match l with [] => [] | x :: l => (pretty n, redact (pretty n) x) :: indexed (S n) l end) O l'')
  | x => redactScalarValue sha256 key x
  end.
Definition redact_item (key : string) (item : json) : json :=
  match item with
  | JObj fs => JObj (redactMetadata sha256 fs)
  | JArr l' => JArr (map (redact_inner key) l')
  | x => redactScalarValue sha256 key x
  end.
Definition blot_inner (key : string) (inner : json) : json :=
  match inner with JObj fs => JObj (blot_fields fs) | JArr _ => inner | x => blot_scalar key x end.
Definition blot_item (key : string) (item : json) : json :=
  match item with JObj fs => JObj (blot_fields fs) | JArr l' => JArr (map (blot_inner key) l') | x => blot_scalar key x end.

Lemma scalar_blot key v : redactScalarValue sha256 key (blot_scalar key v) = redactScalarValue sha256 key v.
Proof. destruct v; cbn; try done. unfold redact_text. by destruct (isSensitiveField key). Qed.
Definition blot_unseen (v : json) : Prop := forall key,
  redact key (blot key v) = redact key v /\ redact_item key (blot_item key v) = redact_item key v /\ redact_inner key (blot_inner key v) = redact_inner key v.
Lemma fields_blot fs : Forall (fun f => blot_unseen f.2) fs -> redactMetadata sha256 (blot_fields fs) = redactMetadata sha256 fs.
Proof.
  intros H. unfold redactMetadata, blot_fields. rewrite map_map. apply map_ext_Forall. eapply Forall_impl; [exact H|].
  intros f Hf. cbn. by rewrite (proj1 (Hf f.1)).
Qed.
(** What the redaction makes of a value does not depend on what it blots. *)
Lemma redact_blot v : blot_unseen v.
Proof.
  apply (json_nested blot_unseen).
  - by intros key.
  - by intros b key.
  - by intros n key.
  - intros s key. pose proof (scalar_blot key (JStr s)) as H. split_and!; exact H.
  - intros l Hl key. split_and!; [| |done].
    + change (JArr (map (redact_item key) (map (blot_item key) l)) = JArr (map (redact_item key) l)). f_equal. rewrite map_map.
      apply map_ext_Forall. eapply Forall_impl; [exact Hl|]. intros x Hx. apply Hx.
    + change (JArr (map (redact_inner key) (map (blot_inner key) l)) = JArr (map (redact_inner key) l)). f_equal. rewrite map_map.
      apply map_ext_Forall. eapply Forall_impl; [exact Hl|]. intros x Hx. apply Hx.
  - intros fs Hfs key. pose proof (fields_blot fs Hfs) as H. assert (JObj (redactMetadata sha256 (blot_fields fs)) = JObj (redactMetadata sha256 fs)) as H' by congruence.
    split_and!; exact H'.
Qed.
Lemma metadata_blot fs : redactMetadata sha256 (blot_fields fs) = redactMetadata sha256 fs.
Proof. apply fields_blot, Forall_forall. intros f _. apply redact_blot. Qed.

(** ** Rows *)

Lemma field_blot k md : isSensitiveField k = false -> nonempty_text (field k (blot_fields md)) = nonempty_text (field k md)
  /\ (forall v, field k md = Some v -> field k (blot_fields md) = Some (blot k v)) /\ (field k md = None -> field k (blot_fields md) = None).
Proof.
  intros Hk. assert (forall v, field k md = Some v -> field k (blot_fields md) = Some (blot k v)) as H1.
  { unfold field. cbn. induction md as [|[k' v'] md IH]; cbn; [done|]. destruct (str_eqb_spec k' k) as [->|]; [by intros v [= ->]|exact IH]. }
  assert (field k md = None -> field k (blot_fields md) = None) as H2.
  { unfold field. cbn. clear H1. induction md as [|[k' v'] md IH]; cbn; [done|]. destruct (str_eqb_spec k' k); [done|exact IH]. }
  split_and!; [|exact H1|exact H2]. destruct (field k md) as [v|] eqn:Hv; [|by rewrite H2].
  rewrite (H1 v eq_refl). destruct v as [| | |s| |]; cbn; try done. by rewrite Hk.
Qed.
Lemma redact_set k v fs : redactMetadata sha256 (json_set k v fs) = json_set k (redact k v) (redactMetadata sha256 fs).
Proof.
  induction fs as [|[k' v'] fs IH]; [done|]. cbn. destruct (str_eqb_spec k' k) as [->|]; [done|]. cbn. f_equal. exact IH.
Qed.
Lemma redact_spread a b : redactMetadata sha256 (spread (blot_fields a) b) = redactMetadata sha256 (spread a b).
Proof.
  unfold spread. assert (forall x y, redactMetadata sha256 x = redactMetadata sha256 y ->
    redactMetadata sha256 (fold_left (fun fs f => json_set f.1 f.2 fs) b x) = redactMetadata sha256 (fold_left (fun fs f => json_set f.1 f.2 fs) b y)) as H.
  { induction b as [|[k v] b IH]; intros x y Hxy; [done|]. cbn [fold_left]. apply IH. by rewrite !redact_set, Hxy. }
  apply H, metadata_blot.
Qed.

(** A value is read as the same text and truth where its own name is not sensitive. *)
Definition item_text (x : json) : string := match x with JNull => "" | _ => json_string x end.
Definition reads_same (v : json) : Prop := forall key, isSensitiveField key = false ->
  (json_string (blot key v) = json_string v /\ json_truthy (blot key v) = json_truthy v)
  /\ item_text (blot_item key v) = item_text v /\ item_text (blot_inner key v) = item_text v.
Lemma blot_reads v : reads_same v.
Proof.
  apply (json_nested reads_same).
  - by intros key.
  - by intros b key.
  - by intros n key.
  - intros s key Hk. cbn. by rewrite !Hk.
  - intros l Hl key Hk.
    assert (join_with "," (map item_text (map (blot_item key) l)) = join_with "," (map item_text l)) as H1.
    { f_equal. rewrite map_map. apply map_ext_Forall. eapply Forall_impl; [exact Hl|]. intros x Hx. apply (Hx key Hk). }
    assert (join_with "," (map item_text (map (blot_inner key) l)) = join_with "," (map item_text l)) as H2.
    { f_equal. rewrite map_map. apply map_ext_Forall. eapply Forall_impl; [exact Hl|]. intros x Hx. apply (Hx key Hk). }
    split_and!; [exact H1|done|exact H2|done].
  - intros fs Hfs key Hk. by split_and!.
Qed.

Definition same_extra (a b : metadata) : Prop := redactMetadata sha256 a = redactMetadata sha256 b.
Lemma redact_spread_both a b b' : same_extra b b' -> redactMetadata sha256 (spread (blot_fields a) b) = redactMetadata sha256 (spread a b').
Proof.
  intros Hb. rewrite redact_spread. unfold spread.
  assert (forall x y, redactMetadata sha256 x = redactMetadata sha256 y ->
    redactMetadata sha256 (fold_left (fun fs f => json_set f.1 f.2 fs) b x) = redactMetadata sha256 (fold_left (fun fs f => json_set f.1 f.2 fs) b' y)) as H.
  { revert b' Hb. induction b as [|[k v] b IH]; intros [|[k' v'] b'] Hb x y Hxy; try discriminate; [done|]. cbn in Hb.
    injection Hb as <- Hv Hb. cbn [fold_left fst snd]. apply IH; [exact Hb|]. by rewrite !redact_set, Hv, Hxy. }
  by apply H.
Qed.
Definition blot_dto (d : CreateAuditLogDto) : CreateAuditLogDto := d <| dto_metadata ::= blot_fields |>.
Lemma field_json k md : isSensitiveField k = false ->
  (exists v, field k (blot_fields md) = Some (blot k v) /\ field k md = Some v /\ json_truthy (blot k v) = json_truthy v
    /\ json_string (blot k v) = json_string v)
  \/ field k (blot_fields md) = None /\ field k md = None.
Proof.
  intros Hk. destruct (field_blot k md Hk) as (_ & H1 & H2). destruct (field k md) as [v|]; [left|right; auto].
  exists v. destruct (blot_reads v k Hk) as [[Hs Ht] _]. by split_and!; [apply H1|..].
Qed.
(** The actor is the same, but for what is blotted in its label and source. *)
Definition same_actor (a b : option AuditActor) : Prop :=
  match a, b with
  | Some a, Some b => ac_type a = ac_type b /\ ac_id a = ac_id b /\ ac_userId a = ac_userId b
      /\ json_truthy (ac_label a) = json_truthy (ac_label b) /\ json_truthy (ac_source a) = json_truthy (ac_source b)
      /\ redact "actorLabel" (ac_label a) = redact "actorLabel" (ac_label b) /\ redact "actorSource" (ac_source a) = redact "actorSource" (ac_source b)
  | None, None => True
  | _, _ => False
  end.
Lemma same_actor_refl a : same_actor a a.
Proof. by destruct a. Qed.
Lemma label_blot k md : isSensitiveField k = false ->
  json_truthy (default JNull (field k (blot_fields md))) = json_truthy (default JNull (field k md))
  /\ redact k (default JNull (field k (blot_fields md))) = redact k (default JNull (field k md)).
Proof.
  intros Hk. destruct (field_json k md Hk) as [(v & -> & -> & Ht & _)|[-> ->]]; [|done]. cbn. split; [exact Ht|apply redact_blot].
Qed.
Lemma actor_blot d : same_actor (resolveActor (blot_dto d)) (resolveActor d).
Proof.
  unfold resolveActor. cbn [blot_dto dto_context dto_metadata set_field].
  set (from_user := if json_truthy _ then _ else _).
  assert (forall a b, same_actor a b -> same_actor (match a with Some x => Some x | None => from_user end) (match b with Some x => Some x | None => from_user end)) as Hor.
  { intros [a|] [b|] H; try done. apply same_actor_refl. }
  assert (forall a b, same_actor a b -> same_actor
    (match cx_actor (dto_context d) with Some x => if truthy (ac_id x) then Some x else match a with Some y => Some y | None => from_user end
                                       | None => match a with Some y => Some y | None => from_user end end)
    (match cx_actor (dto_context d) with Some x => if truthy (ac_id x) then Some x else match b with Some y => Some y | None => from_user end
                                       | None => match b with Some y => Some y | None => from_user end end)) as Hctx.
  { intros a b H. destruct (cx_actor _) as [x|]; [destruct (truthy _); [apply same_actor_refl|]|]; by apply Hor. }
  apply Hctx. change (dto_metadata (d <| dto_metadata ::= blot_fields |>)) with (blot_fields (dto_metadata d)).
  destruct (field_json "actorType" (dto_metadata d) eq_refl) as [(t & -> & -> & Ht & Hts)|[-> ->]]; [|done].
  destruct (field_json "actorId" (dto_metadata d) eq_refl) as [(i & -> & -> & Hi & His)|[-> ->]]; [|done].
  rewrite Ht, Hi, Hts, His. destruct (_ && _); [|done]. cbn.
  destruct (label_blot "actorLabel" (dto_metadata d) eq_refl), (label_blot "actorSource" (dto_metadata d) eq_refl). by split_and!.
Qed.
Lemma actor_fields_blot a b : same_actor a b -> same_extra (actor_fields a) (actor_fields b).
Proof.
  destruct a as [a|], b as [b|]; try done. intros (H1 & H2 & H3 & H4 & H5 & H6 & H7). unfold same_extra, actor_fields, redactMetadata.
  rewrite !map_app. unfold if_truthy. rewrite H1, H2, H3, H4, H5.
  destruct (json_truthy (ac_label b)), (json_truthy (ac_source b)); cbn; by rewrite ?H6, ?H7.
Qed.

Lemma row_blot d : redactMetadata sha256 (raw_metadata (blot_dto d)) = redactMetadata sha256 (raw_metadata d).
Proof.
  unfold raw_metadata, extractMetadataString. change (dto_metadata (blot_dto d)) with (blot_fields (dto_metadata d)).
  rewrite (proj1 (field_blot "templateKey" (dto_metadata d) eq_refl)), (proj1 (field_blot "templateVersion" (dto_metadata d) eq_refl)).
  apply redact_spread_both. unfold same_extra, redactMetadata. rewrite !map_app. f_equal. apply actor_fields_blot, actor_blot.
Qed.
End blot.

(** ** Texts that look like tokens *)

Fixpoint count_char (c : Ascii.ascii) (s : string) : nat :=
  match s with EmptyString => O | String d s' => ((if Ascii.eqb d c then 1 else 0) + count_char c s')%nat end.
Lemma count_app c a b : count_char c (a +:+ b) = (count_char c a + count_char c b)%nat.
Proof. induction a as [|d a IH]; [done|]. rewrite str_app_cons. cbn. rewrite IH. lia. Qed.
Lemma length_split c s : length (split_on c s) = S (count_char c s).
Proof.
  induction s as [|d s IH]; [done|]. cbn. destruct (Ascii.eqb d c) eqn:Hd; cbn; [by rewrite IH|].
  destruct (split_on c s) as [|p l]; cbn in *; lia.
Qed.
Lemma forall_count p c s : str_forall p s = true -> p c = false -> count_char c s = O.
Proof.
  intros Hs Hc. induction s as [|d s IH]; [done|]. cbn in *. apply andb_true_iff in Hs as [Hd Hs]. rewrite IH by done.
  destruct (Ascii.eqb_spec d c) as [->|]; [congruence|done].
Qed.
Lemma split_forall q c s : forallb (str_forall q) (split_on c s) = true -> str_forall (fun d => q d || Ascii.eqb d c) s = true.
Proof.
  induction s as [|d s IH]; [done|]. cbn. destruct (Ascii.eqb d c); [rewrite orb_true_r; cbn; exact IH|]. rewrite orb_false_r.
  destruct (split_on c s) as [|p l]; cbn in *.
  - intros [[-> _]%andb_true_iff _]%andb_true_iff. by apply IH.
  - intros [[-> Hp]%andb_true_iff Hl]%andb_true_iff. apply IH. by rewrite Hp.
Qed.
(** A text with a character that tokens do not have, or with other dots, is none. *)
Definition token_like (s : string) : bool := JWT_PATTERN s || LONG_HEX_PATTERN s.
Lemma not_hex c s : hex_char c = false -> count_char c s <> O -> LONG_HEX_PATTERN s = false.
Proof.
  intros Hc Hn. unfold LONG_HEX_PATTERN. destruct (str_forall hex_char s) eqn:Hs; [|by rewrite andb_false_r]. by rewrite (forall_count _ c _ Hs Hc) in Hn.
Qed.
Lemma not_token c s : url_char c = false -> c <> "."%char -> hex_char c = false -> count_char c s <> O -> token_like s = false.
Proof.
  intros Hu Hd Hc Hn. unfold token_like. rewrite (not_hex c s Hc Hn), orb_false_r. unfold JWT_PATTERN.
  destruct (forallb _ _) eqn:Hf; [|by rewrite andb_false_r]. exfalso. apply Hn.
  apply (forall_count (fun d => url_char d || Ascii.eqb d "."%char)).
  - apply split_forall. rewrite forallb_forall in Hf |- *. intros p Hp. by specialize (Hf p Hp) as [_ H]%andb_true_iff.
  - rewrite Hu. cbn. by destruct (Ascii.eqb_spec c "."%char).
Qed.
Lemma many_dots s : (2 < count_char "."%char s)%nat -> token_like s = false.
Proof.
  intros H. unfold token_like, JWT_PATTERN. rewrite length_split, (not_hex "."%char s) by (done || lia).
  destruct (Nat.eqb_spec (S (count_char "."%char s)) 3); [lia|done].
Qed.

Section tokens.
Context (sha256 : string -> string) (sha_hex : forall s, str_forall hex_char (sha256 s) = true).
Lemma take_forall p n s : str_forall p s = true -> str_forall p (take_str n s) = true.
Proof. revert n; induction s as [|c s IH]; intros [|n]; cbn; try done. intros [-> Hs]%andb_true_iff. by apply IH. Qed.
Lemma user_not_token s : token_like (maskUserId sha256 s) = false.
Proof using sha_hex.
  unfold token_like, maskUserId. rewrite (not_hex "_"%char) by (done || (rewrite count_app; cbn; lia)). rewrite orb_false_r. unfold JWT_PATTERN.
  rewrite length_split, count_app. rewrite (forall_count hex_char "."%char (take_str 12 (sha256 s))) by (done || apply take_forall, sha_hex). done.
Qed.
Lemma text_not_token key s : token_like (redact_text sha256 key s) = false.
Proof using sha_hex.
  unfold redact_text. destruct (isSensitiveField key); [vm_compute; reflexivity|]. destruct (JWT_PATTERN s) eqn:Hj.
  { unfold maskJwt. destruct (split_on _ _) as [|a [|b [|c [|]]]]; try (vm_compute; reflexivity).
    apply many_dots. rewrite !count_app. cbn. rewrite ?count_app. cbn. rewrite ?count_app. lia. }
  destruct (_ && EMAIL_PATTERN s).
  { unfold maskEmail. destruct (split_on _ _) as [|l [|d ds]]; try (vm_compute; reflexivity). destruct (truthy l); [|vm_compute; reflexivity].
    destruct (_ <=? 2)%nat; apply (not_token "*"%char); try done; rewrite ?count_app; cbn; lia. }
  destruct (_ && str_forall is_digit s); [apply user_not_token|]. destruct (LONG_HEX_PATTERN s) eqn:Hh.
  { unfold maskLongHex. unfold LONG_HEX_PATTERN in Hh. apply andb_true_iff in Hh as [Hl%Nat.leb_le _].
    destruct (Nat.leb_spec (String.length s) 8); [lia|]. apply many_dots. rewrite !count_app. cbn. lia. }
  unfold token_like. by rewrite Hj, Hh.
Qed.

(** No text of a value is one. *)
Fixpoint token_free (v : json) : Prop :=
  match v with
  | JStr s => token_like s = false
  | JArr l => fold_right (fun x P => token_free x /\ P) True l
  | JObj fs => fold_right (fun f P => token_free f.2 /\ P) True fs
  | _ => True
  end.
Definition redacted_free (v : json) : Prop := forall key,
  token_free (redactField sha256 key v) /\ token_free (redact_item sha256 key v) /\ token_free (redact_inner sha256 key v).
Lemma fields_free fs : Forall (fun f => redacted_free f.2) fs -> token_free (JObj (redactMetadata sha256 fs)).
Proof. induction 1 as [|f fs Hf Hfs IH]; [done|]. cbn. split; [apply Hf|exact IH]. Qed.
Lemma items_free (g : json -> json) l : Forall (fun x => token_free (g x)) l -> token_free (JArr (map g l)).
Proof. induction 1 as [|x l Hx Hl IH]; [done|]. by split. Qed.
Lemma redact_free v : redacted_free v.
Proof using sha_hex.
  apply (json_nested redacted_free).
  - by intros key.
  - by intros b key.
  - by intros n key.
  - intros s key. pose proof (text_not_token key s) as H. by split_and!.
  - intros l Hl key. split_and!.
    + apply (items_free (redact_item sha256 key)). eapply Forall_impl; [exact Hl|]. intros x Hx. apply Hx.
    + apply (items_free (redact_inner sha256 key)). eapply Forall_impl; [exact Hl|]. intros x Hx. apply Hx.
    + cbn [redact_inner]. generalize O. induction Hl as [|x l Hx Hl IH]; intros n; [done|]. cbn. split; [apply Hx|apply IH].
  - intros fs Hfs key. pose proof (fields_free fs Hfs) as H. by split_and!.
Qed.
End tokens.

(** C22. An entry neither depends on a text under a sensitive name, however deep it is in
    objects and in up to two arrays, nor throws, nor changes an entry of before; and no
    text of its metadata looks like a token or a long key.  Its other columns are what
    the call gave, unredacted: the action, the user, the entity type and the first id
    the metadata name, the address, the agent and the request. *)
Theorem audit_entry_blind (sha256 : string -> string) (user_exists : Z -> bool) (d : CreateAuditLogDto) (w : AuditDB) :
  (forall s, str_forall hex_char (sha256 s) = true) ->
  run (log sha256 user_exists d) w = run (log sha256 user_exists (blot_dto d)) w
  /\ exists rows, run (log sha256 user_exists d) w = (Ok tt, w <| ad_rows ::= (fun l => l ++ rows) |>) /\ (length rows <= 1)%nat
       /\ Forall (fun r => token_free (JObj (al_metadata r))
            /\ al_adminId r = toNullableUserId (if json_truthy (cx_userId (dto_context d)) then cx_userId (dto_context d) else JNull) /\ al_action r = dto_action d
            /\ al_entityType r = match field "entityType" (dto_metadata d) with Some (JStr s) => Some s | _ => None end
            /\ al_entityId r = extractEntityId (dto_metadata d)
            /\ al_ip r = or_null (cx_ip (dto_context d)) /\ al_agent r = or_null (cx_agent (dto_context d))
            /\ al_requestId r = or_null (cx_requestId (dto_context d)) /\ al_createdAt r = ad_clock w) rows.
Proof.
  intros Hsha.
  assert (extractEntityId (blot_fields (dto_metadata d)) = extractEntityId (dto_metadata d)) as He.
  { unfold extractEntityId. cbn [omap list_omap]. by rewrite !(fun k H => proj1 (field_blot k (dto_metadata d) H)). }
  assert (match field "entityType" (blot_fields (dto_metadata d)) with Some (JStr s) => Some s | _ => None end
          = match field "entityType" (dto_metadata d) with Some (JStr s) => Some s | _ => None end) as Ht.
  { destruct (field_blot "entityType" (dto_metadata d) eq_refl) as (_ & H1 & H2). destruct (field "entityType" (dto_metadata d)) as [v|]; [|by rewrite H2].
    rewrite (H1 v eq_refl). by destruct v. }
  unfold log. rewrite !run_try_catch, !run_attempts. change (dto_metadata (blot_dto d)) with (blot_fields (dto_metadata d)).
  change (dto_context (blot_dto d)) with (dto_context d). change (dto_action (blot_dto d)) with (dto_action d). rewrite He, Ht, row_blot. split; [done|].
  destruct (_ && _).
  - eexists [_]. split; [reflexivity|]. split; [done|]. apply Forall_singleton. cbn [al_metadata]. split; [|by split_and!].
    apply fields_free, Forall_forall. intros f _. by apply redact_free.
  - exists []. split; [destruct w; unfold set_field; cbn; by rewrite app_nil_r|]. split; [cbn; lia|constructor].
Qed.

(** ** Examples *)

Definition ex_sha (s : string) : string := "0123456789abcdef".
Definition ex_audit : AuditDB := {| ad_clock := 1000; ad_rows := []; ad_up := true |}.
Definition ex_entry (md : metadata) : CreateAuditLogDto := {|
  dto_action := "failed_login"; dto_metadata := md; dto_context := no_context <| cx_userId := JNum (num_of_Z 7) |> |}.
Definition ex_metadata (key : string) (secret : json) : metadata := [("entityId", JStr "e1"); ("after", JArr [JObj [(key, secret)]])].
Definition ex_kept (d : CreateAuditLogDto) : list metadata := map al_metadata (ad_rows (run (log ex_sha (fun _ => true) d) ex_audit).2).
Lemma audit_entry_blind_witness :
  run (log ex_sha (fun _ => true) (ex_entry (ex_metadata "apiKey" (JStr "k1")))) ex_audit
  = run (log ex_sha (fun _ => true) (blot_dto (ex_entry (ex_metadata "apiKey" (JStr "k1"))))) ex_audit.
Proof. exact (proj1 (audit_entry_blind ex_sha (fun _ => true) (ex_entry (ex_metadata "apiKey" (JStr "k1"))) ex_audit (fun _ => eq_refl))). Defined.

(** ** What is kept nevertheless *)

(** Of a token its header and its claims, which anybody reads. *)
Theorem jwt_claims_kept key a b c :
  isSensitiveField key = false -> split_on "."%char (a +:+ "." +:+ b +:+ "." +:+ c) = [a; b; c] -> JWT_PATTERN (a +:+ "." +:+ b +:+ "." +:+ c) = true ->
  redact_text ex_sha key (a +:+ "." +:+ b +:+ "." +:+ c) = "xxx." +:+ (a +:+ "." +:+ b) +:+ ".xxx".
Proof. intros Hk Hs Hj. unfold redact_text. rewrite Hk, Hj. unfold maskJwt. by rewrite Hs. Qed.

(** A number, an object and a text in three arrays under a sensitive name. *)
Theorem sensitive_values_kept :
  redactMetadata ex_sha [("password", JNum (num_of_Z 1234)); ("credential", JObj [("value", JStr "x")]); ("secret", JArr [JArr [JArr [JStr "x"]]])]
  = [("password", JNum (num_of_Z 1234)); ("credential", JObj [("value", JStr "x")]); ("secret", JArr [JArr [JObj [("0", JStr "x")]]])].
Proof. vm_compute. reflexivity. Qed.

(** Fields the comment calls never redacted are masked by their values. *)
Theorem preserved_field_masked : redact_text ex_sha "templateVersion" "1.2.3" = "xxx.1.2.xxx".
Proof. vm_compute. reflexivity. Qed.

(** In log lines: a list under a sensitive name, and a token in a preserved field. *)
Theorem log_line_keeps :
  redactLogPayload [("body", JObj [("passwords", JArr [JStr "hunter2"])]); ("message", JStr "token=abc"); ("path", JStr "aaa.bbb.ccc")]
  = [("body", JObj [("passwords", JArr [JStr "hunter2"])]); ("message", JStr "token=abc"); ("path", JStr "aaa.bbb.ccc")].
Proof. vm_compute. reflexivity. Qed.

(** An id among the metadata is stored a second time, as it is: a long key that the
    metadata masks is whole in the entity column. *)
Theorem entity_column_unredacted :
  let key := "0123456789abcdef0123456789abcdef01234567" in
  map (fun r => (al_entityId r, bool_decide (nonempty_text (field "entityId" (al_metadata r)) = Some key)))
    (ad_rows (run (log ex_sha (fun _ => true) (ex_entry [("entityId", JStr key)])) ex_audit).2) = [(Some key, false)].
Proof. vm_compute. reflexivity. Qed.

(** The failure of a query by user is not caught. *)
Theorem find_by_user_rejects in_order : findByUser in_order (JStr "7") {| ad_clock := 0; ad_rows := []; ad_up := false |} = Exn "query failed".
Proof. vm_compute. reflexivity. Qed.

(** The request of a call takes the place of the export in the metadata: the trail of
    the export request does not find its entry. *)
Theorem export_request_overwritten :
  let r := {| lr_action := "downloaded"; lr_requestId := "e1"; lr_exportId := Some "x1"; lr_actorType := "user"; lr_actorId := Some "7"; lr_occurredAt := None;
              lr_metadata := []; lr_context := no_context <| cx_requestId := Some "http-1" |> |} in
  let w := (run (logExportLifecycleEvent ex_sha (fun _ => true) r) ex_audit).2 in
  let q i := {| qu_userId := JNull; qu_actor := None; qu_actorId := None; qu_actorType := None; qu_action := None; qu_entityType := None; qu_entityId := None;
                qu_requestId := Some i; qu_exportId := None; qu_templateKey := None; qu_templateVersion := None; qu_search := None; qu_sortBy := None;
                qu_asc := false; qu_start := None; qu_end := None; qu_limit := 10; qu_offset := 0 |} in
  let found i := ap_total (getExportAccessTrail json_string (fun _ _ l => l) (q i) w) in
  (found "e1", found "http-1") = (O, 1%nat).
Proof. vm_compute. reflexivity. Qed.
