(* ===== verification/Accounts.v ===== *)
(** * Accounts

    [src/xconfess-backend/src/user/user.service.ts] with its routes
    ([user.controller.ts], [user-public.controller.ts]) and the guard of their owners
    ([common/guards/ownership.guard.ts]): registration, profiles, settings, the lists of
    what an account has done, deletion.  A row is its columns by name, each a JSON value,
    since the settings route writes the names it is sent; the sessions and second factors
    of accounts are in Auth.  A query is an access of its own.  bcrypt, AES-GCM and
    SHA-256, what the database takes for a column and how it reads a text as an integer
    are parameters; the time of the last update is left out. *)
From stdpp Require Import pretty.
From S2P Require Import Auth Tipping Reports Comments Confessions AuditLog Prelude Numbers Json Dates Effects ContentEncryption Cursor.
Open Scope Z_scope.

(** ** Data *)

Abbreviation row := (gmap string json).
(** [src user/entities/user.entity.ts:38-128 User]: the columns. *)
Definition USER_COLUMNS : list string := [
  "id"; "username"; "password"; "emailEncrypted"; "emailIv"; "emailTag"; "emailHash"; "role"; "is_active"; "resetPasswordToken"; "resetPasswordExpires";
  "notificationPreferences"; "privacySettings"; "totpEnabled"; "totpSecretEncrypted"; "totpSecretIv"; "totpSecretTag"; "recoveryCodesEncrypted";
  "recoveryCodesIv"; "recoveryCodesTag"; "createdAt"].
(** [src user/entities/user.entity.ts:58-128 User]: the defaults of the columns. *)
Definition USER_DEFAULTS (now : ms) : row :=
  list_to_map ([("role", JStr "user"); ("is_active", JBool true); ("notificationPreferences", JObj []);
    ("privacySettings", JObj [("isDiscoverable", JBool true); ("canReceiveReplies", JBool true); ("showReactions", JBool true); ("dataProcessingConsent", JBool true)]);
    ("totpEnabled", JBool false); ("createdAt", JStr (toISOString now))]
   ++ map (fun k => (k, JNull)) ["resetPasswordToken"; "resetPasswordExpires"; "totpSecretEncrypted"; "totpSecretIv"; "totpSecretTag";
                                 "recoveryCodesEncrypted"; "recoveryCodesIv"; "recoveryCodesTag"]).
#[global] Arguments USER_DEFAULTS : simpl never.
(** [r.k] where it is read as a value: a field that is missing is [JNull] here. *)
Definition col (k : string) (r : row) : json := default JNull (r !! k).
(** What its methods are read from: the columns, and whether the methods the service calls
    are still those of the class. *)
Record Entity := { e_row : row; e_callable : bool }.

(** [this.o[k] !== false], where an [o] that is falsy has no field. *)
Definition not_false (k o : string) (r : row) : bool :=
  match json_get k (col o r) with Some (JBool false) => false | _ => true end.
(** [src user/entities/user.entity.ts:132-137 isNotificationEnabled] *)
Definition isNotificationEnabled (category : string) : row -> bool := not_false category "notificationPreferences".
(** [src user/entities/user.entity.ts:139-142 isDiscoverable] *)
Definition isDiscoverable : row -> bool := not_false "isDiscoverable" "privacySettings".
(** [src user/entities/user.entity.ts:144-147 canReceiveReplies] *)
Definition canReceiveReplies : row -> bool := not_false "canReceiveReplies" "privacySettings".
(** [src user/entities/user.entity.ts:149-152 shouldShowReactions] *)
Definition shouldShowReactions : row -> bool := not_false "showReactions" "privacySettings".
(** [src user/entities/user.entity.ts:154-157 hasDataProcessingConsent] *)
Definition hasDataProcessingConsent : row -> bool := not_false "dataProcessingConsent" "privacySettings".

(** [src admin/entities/report.entity.ts:37-119 Report]: the names of its columns. *)
Definition REPORT_COLUMNS : list string := [
  "id"; "confession_id"; "reporter_id"; "anonymous_reporter_id"; "type"; "reason"; "status"; "resolved_by"; "resolved_at"; "resolution_reason";
  "template_id"; "idempotency_key"; "createdAt"; "updatedAt"; "priority"; "priority_reason"; "priority_calculated_at"; "version"].

(** What is written of an action of an administrator.
    [src audit-log/audit-log.entity.ts:102-141 AuditLog] *)
Record ModerationRow := { mr_row : AuditRow; mr_notes : option string }.
(** [src comment/entities/moderation-note-template.entity.ts:19-52 ModerationNoteTemplate] *)
Record NoteTemplate := { nt_id : Z; nt_name : string; nt_content : string; nt_category : string; nt_isActive : bool; nt_createdBy : option Z }.
#[export] Instance eta_NoteTemplate : Eta NoteTemplate := fun t => {|
  nt_id := nt_id t; nt_name := nt_name t; nt_content := nt_content t; nt_category := nt_category t; nt_isActive := nt_isActive t; nt_createdBy := nt_createdBy t |}.

(** The tables an account is looked up in, its links the latest first; [ac_resets] are the accounts with a row in
    [password_resets], [ac_outside] whether the services beside the database answer. *)
Record AccountDB := {
  ac_clock : ms;
  ac_users : gmap Z row;
  ac_seq : Z;
  ac_links : list (Z * string);
  ac_confessions : gmap string AnonymousConfession;
  ac_reactions : list ReactionRow;
  ac_comments : list Comment;
  ac_tips : list Tip;
  ac_reports : list Report;
  ac_resets : list Z;
  ac_audit : list ModerationRow;
  ac_audit_up : bool;
  ac_templates : gmap Z NoteTemplate;
  ac_template_seq : Z;
  ac_events : list (string * string);
  ac_welcomed : list (string * string);
  ac_outside : bool;
}.
#[export] Instance eta_AccountDB : Eta AccountDB := fun w => {|
  ac_clock := ac_clock w; ac_users := ac_users w; ac_seq := ac_seq w; ac_links := ac_links w; ac_confessions := ac_confessions w;
  ac_reactions := ac_reactions w; ac_comments := ac_comments w; ac_tips := ac_tips w; ac_reports := ac_reports w; ac_resets := ac_resets w;
  ac_audit := ac_audit w; ac_audit_up := ac_audit_up w; ac_templates := ac_templates w; ac_template_seq := ac_template_seq w;
  ac_events := ac_events w; ac_welcomed := ac_welcomed w; ac_outside := ac_outside w |}.

Inductive account_error :=
| AppError (message : string) (on : option string) | HttpError (status : Z) (message : string) | UniqueViolation | QueryRefused | TypeError (m : string).
Abbreviation action := (prog AccountDB account_error).
Definition user_missing : account_error := HttpError 404 "User not found".

Section service.
Context {aes : AesCbc} (aesKey : string) (sha256 : string -> string) (bcrypt_hash : string -> string -> string)
        (encrypt : string -> string -> string * string * string).
(** The value a column takes, the integer a text is, the badge contract of the
    environment. *)
Context (column_ok : string -> json -> bool) (text_int : string -> option Z) (REPUTATION_BADGES_CONTRACT_ID : option string).
(** The columns of the table of reports, and what its column [details] holds, if any. *)
Context (reports_columns : list string) (report_details : Report -> option string).
(** What the foreign key of the audit log does when its account is deleted: the migration
    that makes the table declares CASCADE, the entity SET NULL. *)
Context (audit_cascades : bool).

(** ** Rows *)

Definition as_int (v : json) : option Z := match v with JNum n => num_integer n | JStr s => text_int s | _ => None end.
Definition id_of (i : Z) : json := JNum (num_of_Z i).
(** What an entity has of the columns. *)
Definition columns (r : row) : row := filter (fun p => includes p.1 USER_COLUMNS = true) r.
(** The unique indexes, and the types of the columns. *)
Definition taken (i : Z) (r : row) (w : AccountDB) : bool :=
  existsb (fun p : Z * row => negb (p.1 =? i) && existsb (fun k => stringify (col k p.2) =s? stringify (col k r)) ["username"; "emailHash"])
    (map_to_list (ac_users w)).
Definition typed (r : row) : bool := forallb (fun p : string * json => column_ok p.1 p.2) (map_to_list r).
Definition put (i : Z) (r : row) (w : AccountDB) : outcome account_error row * AccountDB :=
  let r := <["id" := id_of i]> r in
  if negb (typed r) then (Exn QueryRefused, w) else if taken i r w then (Exn UniqueViolation, w) else (Ok r, w <| ac_users ::= <[i := r]> |>).
(** [userRepository.save(user)]: the row of the id the entity has becomes the columns of
    the entity, and a new row is made for an id there is none of. *)
Definition save_row (e : row) (w : AccountDB) : outcome account_error row * AccountDB :=
  match col "id" e with
  | JNull => let i := ac_seq w + 1 in
             let w := w <| ac_seq := i |> in
             match ac_users w !! i with
             | Some _ => (Exn UniqueViolation, w)
             | None => put i (columns e ∪ USER_DEFAULTS (ac_clock w)) w
             end
  | v => match as_int v with
         | None => (Exn QueryRefused, w)
         | Some i => put i (columns e ∪ default (USER_DEFAULTS (ac_clock w)) (ac_users w !! i)) w
         end
  end.
Definition save (e : row) : action row := attempts (save_row e).

Definition find_row (P : row -> bool) (w : AccountDB) : option row := snd <$> List.find (fun p : Z * row => P p.2) (map_to_list (ac_users w)).
Definition is_text (s : string) (v : json) : bool := match v with JStr t => t =s? s | _ => false end.
(** [src user/user.service.ts:55-63 findByEmail] *)
Definition findByEmail (email : string) : action (option row) := reads (find_row (fun r => is_text (sha256 (to_lower (trim email))) (col "emailHash" r))).
(** [src user/user.service.ts:65-73 findByUsername] *)
Definition findByUsername (username : string) : action (option row) := reads (find_row (fun r => is_text (trim username) (col "username" r))).
(** [src user/user.service.ts:75-81 findById] *)
Definition findById (id : Z) : action (option row) := reads (fun w => ac_users w !! id).
Definition the_user (id : Z) : action row := let* user := findById id in of_option user user_missing.

(** ** Registration *)

(** What a registration draws: the salt of the password and the vector of the address. *)
Record Draws := { dr_salt : string; dr_iv : string }.
Definition already_used (m : string) (f : option string) : account_error := AppError m f.
Definition account_of (d : Draws) (email password username : string) : row :=
  let '(c, iv, tag) := encrypt (dr_iv d) email in
  list_to_map [("emailEncrypted", JStr c); ("emailIv", JStr iv); ("emailTag", JStr tag); ("emailHash", JStr (sha256 email));
               ("password", JStr (bcrypt_hash (dr_salt d) password)); ("username", JStr username)].
(** An event of the analytics service, and the mail that greets; each may fail. *)
Definition record_event (name actor : string) : action unit :=
  attempts (fun w => if ac_outside w then (Ok tt, w <| ac_events ::= fun l => l ++ [(name, actor)] |>) else (Exn QueryRefused, w)).
Definition sendWelcomeEmail (email username : string) : action unit :=
  attempts (fun w => if ac_outside w then (Ok tt, w <| ac_welcomed ::= fun l => l ++ [(email, username)] |>) else (Exn (HttpError 503 "mail"), w)).
(** [src user/user.service.ts:87-189 create] *)
Definition create (d : Draws) (email password username : string) : action row :=
  let normalizedEmail := to_lower (trim email) in
  let* existing := findByEmail normalizedEmail in
  match existing with
  | Some _ => Throw (already_used "An account with this email already exists." (Some "email"))
  | None =>
      let* existingUsername := findByUsername username in
      match existingUsername with
      | Some _ => Throw (already_used "This username is already taken." (Some "username"))
      | None =>
          try_catch
            (let* savedUser := save (account_of d normalizedEmail password username) in
             let actor := "user:" +:+ json_string (col "id" savedUser) in
             do* try_catch (record_event "user_registered" actor) (fun _ => Ret tt) in
             do* try_catch (sendWelcomeEmail normalizedEmail (json_string (col "username" savedUser))) (fun _ => Ret tt) in
             Ret savedUser)
            (fun error => match error with
             | AppError _ _ => Throw error
             | UniqueViolation => Throw (already_used "Email or username already in use." None)
             | _ => Throw (HttpError 500 "Failed to create user")
             end)
      end
  end.

(** ** Profiles and settings *)

(** [Object.assign(user, dto)]. *)
Definition assign (dto : metadata) (r : row) : row := fold_left (fun r f => <[f.1 := f.2]> r) dto r.
(** [src user/user.service.ts:195-204 updateProfile] *)
Definition updateProfile (userId : Z) (updateDto : metadata) : action row :=
  let* user := the_user userId in save (assign updateDto user).
(** The rows of others that name a deleted account. *)
Definition without {A} `{!EqDecision A} (x : A) (o : option A) : option A := if bool_decide (o = Some x) then None else o.
Definition without_admin (i : Z) (m : ModerationRow) : ModerationRow :=
  let r := mr_row m in {|
  mr_row := {| al_adminId := without i (al_adminId r); al_action := al_action r; al_entityType := al_entityType r; al_entityId := al_entityId r;
               al_metadata := al_metadata r; al_ip := al_ip r; al_agent := al_agent r; al_requestId := al_requestId r; al_createdAt := al_createdAt r |};
  mr_notes := mr_notes m |}.
Definition by_account (i : Z) (m : ModerationRow) : bool := bool_decide (al_adminId (mr_row m) = Some i).
Definition unaudited (i : Z) (l : list ModerationRow) : list ModerationRow :=
  if audit_cascades then List.filter (fun m => negb (by_account i m)) l else map (without_admin i) l.
(** [src user/user.service.ts:272-276 deleteAccount]: its links go with the account, and
    where the key cascades its entries of the audit log; other rows no longer name it; a
    reset of its password keeps it. *)
Definition deleteAccount (userId : Z) : action unit :=
  do* the_user userId in
  attempts (fun w =>
    if existsb (fun i => i =? userId) (ac_resets w) then (Exn QueryRefused, w)
    else (Ok tt, w <| ac_users ::= delete userId |> <| ac_links ::= List.filter (fun l => negb (l.1 =? userId)) |>
                   <| ac_reports ::= map (fun r => r <| rp_reporter := without userId (rp_reporter r) |> <| rp_resolvedBy := without userId (rp_resolvedBy r) |>) |>
                   <| ac_templates ::= fmap (fun t => t <| nt_createdBy := without userId (nt_createdBy t) |>) |>
                   <| ac_audit ::= unaudited userId |>)).

(** [src user/dto/update-privacy-settings.dto.ts:23-28 PrivacySettingsResponseDto] *)
Record PrivacySettings := { pv_isDiscoverable : bool; pv_canReceiveReplies : bool; pv_showReactions : bool; pv_dataProcessingConsent : bool }.
Definition privacy_of (r : row) : PrivacySettings := {|
  pv_isDiscoverable := isDiscoverable r; pv_canReceiveReplies := canReceiveReplies r; pv_showReactions := shouldShowReactions r;
  pv_dataProcessingConsent := hasDataProcessingConsent r |}.
(** [src user/user.service.ts:574-593 getPrivacySettings] *)
Definition getPrivacySettings (userId : Z) : action PrivacySettings := let* user := the_user userId in Ret (privacy_of user).
(** [src user/dto/update-privacy-settings.dto.ts:5-21 UpdatePrivacySettingsDto] *)
Record UpdatePrivacySettingsDto := { ud_isDiscoverable : option bool; ud_canReceiveReplies : option bool; ud_showReactions : option bool; ud_consent : option bool }.
(** [src user/user.service.ts:634-642 enforcePrivacyPolicies]: the flags are only logged. *)
Definition enforcePrivacyPolicies (e : Entity) : action unit :=
  if e_callable e then Ret tt else Throw (TypeError "user.canReceiveReplies is not a function").
(** [a ?? b]; a field that stays undefined is not stored. *)
Definition chosen (k : string) (given : option bool) (current : json) (otherwise : metadata) : metadata :=
  match given with
  | Some b => [(k, JBool b)]
  | None => match json_get k current with Some JNull | None => otherwise | Some v => [(k, v)] end
  end.
Definition ALL_ON : json :=
  JObj [("isDiscoverable", JBool true); ("canReceiveReplies", JBool true); ("showReactions", JBool true); ("dataProcessingConsent", JBool true)].
(** [src user/user.service.ts:595-632 updatePrivacySettings] *)
Definition updatePrivacySettings (userId : Z) (dto : UpdatePrivacySettingsDto) : action PrivacySettings :=
  let* user := the_user userId in
  let current := if json_truthy (col "privacySettings" user) then col "privacySettings" user else ALL_ON in
  let kept k := match json_get k current with Some JNull => [(k, JNull)] | _ => [] end in
  let settings := JObj (chosen "isDiscoverable" (ud_isDiscoverable dto) current (kept "isDiscoverable")
    ++ chosen "canReceiveReplies" (ud_canReceiveReplies dto) current (kept "canReceiveReplies")
    ++ chosen "showReactions" (ud_showReactions dto) current (kept "showReactions")
    ++ chosen "dataProcessingConsent" (ud_consent dto) current [("dataProcessingConsent", JBool true)]) in
  let user := <["privacySettings" := settings]> user in
  do* save user in
  do* enforcePrivacyPolicies {| e_row := user; e_callable := true |} in
  Ret (privacy_of user).

(** The fields [{ ...v }] has: those of an object, the items of an array and the
    characters of a text by their places. *)
Fixpoint by_place {A} (f : A -> json) (n : nat) (l : list A) : metadata :=
  match l with [] => [] | x :: l => (pretty n, f x) :: by_place f (S n) l end.
Definition own_fields (v : json) : metadata :=
  match v with
  | JObj fs => fs
  | JArr l => by_place (fun x => x) 0 l
  | JStr s => by_place (fun c => JStr (String c EmptyString)) 0 (String.list_ascii_of_string s)
  | _ => []
  end.
Definition merged (k : string) (dto : metadata) (r : row) : row :=
  match field k dto with
  | Some v => if json_truthy v then <[k := JObj (spread (spread [] (own_fields (col k r))) (own_fields v))]> r else r
  | None => r
  end.
(** [key in user] is the column; a method that is overwritten, or a prototype, can no
    longer be called.  What the entity has beside its columns is not stored. *)
Definition set_key (e : Entity) (f : string * json) : Entity :=
  let '(key, v) := f in
  if (key =s? "privacySettings") || (key =s? "notificationPreferences") then e
  else if includes key USER_COLUMNS then {| e_row := <[key := v]> (e_row e); e_callable := e_callable e |}
  else if includes key ["canReceiveReplies"; "shouldShowReactions"] then {| e_row := e_row e; e_callable := false |}
  else if (key =s? "__proto__") && match v with JObj _ | JArr _ | JNull => true | _ => false end then {| e_row := e_row e; e_callable := false |}
  else e.
(** [src user/user.service.ts:827-861 updateSettings] *)
Definition updateSettings (userId : Z) (dto : metadata) : action row :=
  let* user := the_user userId in
  let user := merged "privacySettings" dto user in
  let user := merged "notificationPreferences" dto user in
  let user := fold_left set_key dto {| e_row := user; e_callable := true |} in
  do* save (e_row user) in
  do* enforcePrivacyPolicies user in
  Ret (e_row user).

(** ** What an account has done *)

Definition anonIds (userId : Z) (w : AccountDB) : list string := map snd (List.filter (fun l : Z * string => l.1 =? userId) (ac_links w)).
Definition confessions_of (ids : list string) (w : AccountDB) : list AnonymousConfession :=
  List.filter (fun c => includes (c_anonymousUserId c) ids) (map snd (map_to_list (ac_confessions w))).
Definition kept_confessions (ids : list string) (w : AccountDB) : list AnonymousConfession := List.filter (fun c => negb (c_isDeleted c)) (confessions_of ids w).
Definition shown_confessions (ids : list string) (w : AccountDB) : list AnonymousConfession := List.filter (fun c => negb (c_isHidden c)) (kept_confessions ids w).
Definition among (cs : list AnonymousConfession) (i : string) : bool := existsb (fun c => c_id c =s? i) cs.
Definition reactions_on (i : string) (w : AccountDB) : list ReactionRow := List.filter (fun r => rx_confession r =s? i) (ac_reactions w).
Definition comments_on (i : string) (w : AccountDB) : list Comment := List.filter (fun c => (co_confession c =s? i) && negb (co_isDeleted c)) (ac_comments w).
Record Stats := { st_confessions : nat; st_reactions : nat; st_comments : nat; st_tipsReceived : jsnum }.
Definition emptyStats : Stats := {| st_confessions := 0; st_reactions := 0; st_comments := 0; st_tipsReceived := num_of_Z 0 |}.
(** [src user/user.service.ts:428-445 getProfileSummary]: what is counted of the anonymous
    identities of an account. *)
Definition stats_of (ids : list string) (w : AccountDB) : Stats := {|
  st_confessions := length (kept_confessions ids w);
  st_reactions := length (List.filter (fun r => among (kept_confessions ids w) (rx_confession r)) (ac_reactions w));
  st_comments := length (List.filter (fun c => among (confessions_of ids w) (co_confession c) && negb (co_isDeleted c)) (ac_comments w));
  st_tipsReceived := fold_left (fun s t => num_add s (amount t)) (List.filter (fun t => among (confessions_of ids w) (confessionId t)) (ac_tips w)) (num_of_Z 0) |}.
(** [src user/user.service.ts:536-568 buildReputationBadges]: the names. *)
Definition buildReputationBadges (confessionCount : nat) : list string :=
  [if truthy_opt REPUTATION_BADGES_CONTRACT_ID then "Reputation linked" else "Reputation pending"]
  ++ (if (1 <=? confessionCount)%nat then ["First confession"] else []) ++ (if (10 <=? confessionCount)%nat then ["Steady voice"] else []).

Record HistoryItem := { hi_id : string; hi_message : string; hi_gender : option string; hi_view_count : Z; hi_reactions : nat; hi_comments : nat; hi_createdAt : Z; hi_isAnchored : bool; hi_tx : option string }.
Record ListMeta := { me_total : nat; me_page : nat; me_limit : nat; me_totalPages : nat }.
Definition meta_of (total page limit : nat) : ListMeta :=
  {| me_total := total; me_page := page; me_limit := limit; me_totalPages := (total + limit - 1) / limit |}.
Record Summary := { su_id : json; su_username : json; su_joinDate : json; su_stats : Stats; su_badges : list string; su_data : list HistoryItem; su_meta : ListMeta }.
(** [ORDER BY c.created_at DESC, c.id DESC]. *)
Definition newest (a b : AnonymousConfession) : bool := feed_before (c_created_at a, c_id a) (c_created_at b, c_id b).
Definition page_of {A} (page limit : nat) (l : list A) : list A := firstn limit (skipn ((page - 1) * limit) l).
Definition history_item (w : AccountDB) (c : AnonymousConfession) : outcome account_error HistoryItem :=
  match decryptConfession (c_message c) aesKey with
  | Ok m => Ok {| hi_id := c_id c; hi_message := m; hi_gender := c_gender c; hi_view_count := c_view_count c; hi_reactions := length (reactions_on (c_id c) w);
                  hi_comments := length (comments_on (c_id c) w); hi_createdAt := c_created_at c; hi_isAnchored := c_isAnchored c; hi_tx := c_stellarTxHash c |}
  | Exn _ => Exn (TypeError "decryption failed")
  end.
Fixpoint all_ok {A B} (f : A -> outcome account_error B) (l : list A) : outcome account_error (list B) :=
  match l with
  | [] => Ok []
  | x :: l => match f x with Ok y => match all_ok f l with Ok ys => Ok (y :: ys) | Exn e => Exn e end | Exn e => Exn e end
  end.
(** [src user/user.service.ts:390-516 getProfileSummary]; [page] and [limit] are integers. *)
Definition getProfileSummary (userId page limit : Z) : action Summary :=
  let* user := the_user userId in
  let safePage := Z.to_nat (Z.max 1 page) in
  let safeLimit := Z.to_nat (Z.min (Z.max 1 limit) 25) in
  let profile s b d m := {| su_id := col "id" user; su_username := col "username" user; su_joinDate := col "createdAt" user;
                            su_stats := s; su_badges := b; su_data := d; su_meta := m |} in
  let* ids := reads (anonIds userId) in
  if (length ids =? 0)%nat then
    Ret (profile emptyStats (buildReputationBadges 0) [] {| me_total := 0; me_page := safePage; me_limit := safeLimit; me_totalPages := 0 |})
  else
    let* stats := reads (stats_of ids) in
    let* total := reads (fun w => length (shown_confessions ids w)) in
    let* rows := reads (fun w => all_ok (history_item w) (page_of safePage safeLimit (insertion_sort newest (shown_confessions ids w)))) in
    let* history := of_outcome rows in
    Ret (profile stats (buildReputationBadges (st_confessions stats)) history (meta_of total safePage safeLimit)).
Record Dashboard := { da_totalConfessions : nat; da_totalReactions : nat; da_mostPopular : string; da_badges : list string; da_streak : nat }.
(** [src user/user.service.ts:518-534 getDashboardStats] *)
Definition getDashboardStats (userId : Z) : action Dashboard :=
  let* summary := getProfileSummary userId 1 1 in
  Ret {| da_totalConfessions := st_confessions (su_stats summary); da_totalReactions := st_reactions (su_stats summary);
         da_mostPopular := match su_data summary with h :: _ => if truthy (hi_message h) then hi_message h else "No confessions yet" | [] => "No confessions yet" end;
         da_badges := su_badges summary; da_streak := 0 |}.
Record PublicProfile := { pp_displayName : json; pp_createdAt : json; pp_stats : Stats; pp_badges : list string }.
(** [src user/user.service.ts:863-922 getPublicProfile] *)
Definition getPublicProfile (userId : string) : action PublicProfile :=
  match parseInt userId with
  | None => Throw user_missing
  | Some numericId =>
      let* user := the_user numericId in
      let* ids := reads (anonIds numericId) in
      let* stats := reads (fun w => if (0 <? length ids)%nat then stats_of ids w else emptyStats) in
      Ret {| pp_displayName := col "username" user; pp_createdAt := col "createdAt" user; pp_stats := stats;
             pp_badges := buildReputationBadges (st_confessions stats) |}
  end.
(** [src user/user.service.ts:644-700 getUserConfessionsList]: the table of accounts has
    no relation [anonymousUser], which TypeORM says when the query is built. *)
Definition getUserConfessionsList (userId : Z) (page limit : nat) : action (list json * ListMeta) :=
  let* user := findById userId in
  match user with
  | None => Ret ([], {| me_total := 0; me_page := page; me_limit := limit; me_totalPages := 0 |})
  | Some _ => Throw (TypeError "Relation with property path anonymousUser in entity was not found.")
  end.

(** [src user/dto/user-activity.dto.ts:30-45 UserActivityDto] *)
Record Activity := { av_id : string; av_type : string; av_content : option string; av_metadata : metadata; av_createdAt : Z }.
Definition opt_str (o : option string) : json := from_option JStr JNull o.
(** [src user/user.service.ts:718-771 getUserActivitiesList]: the rows of the union. *)
Definition activity_rows (userId : Z) (w : AccountDB) : list Activity :=
  let linked (a : string) := List.filter (fun l : Z * string => (l.1 =? userId) && (l.2 =s? a)) (ac_links w) in
  flat_map (fun c => map (fun _ =>
      {| av_id := c_id c; av_type := "confession"; av_content := Some (c_message c);
         av_metadata := [("isAnchored", JBool (c_isAnchored c)); ("stellarTxHash", opt_str (c_stellarTxHash c))]; av_createdAt := c_created_at c |})
      (linked (c_anonymousUserId c)))
    (List.filter (fun c => negb (c_isDeleted c) && negb (c_isHidden c)) (map snd (map_to_list (ac_confessions w))))
  ++ flat_map (fun c => map (fun _ =>
      {| av_id := pretty (co_id c); av_type := "comment"; av_content := Some (co_content c);
         av_metadata := [("confessionId", JStr (co_confession c))]; av_createdAt := us_of (co_createdAt c) |})
      (linked (co_author c))) (List.filter (fun c => negb (co_isDeleted c)) (ac_comments w))
  ++ flat_map (fun r => map (fun _ =>
      {| av_id := rx_id r; av_type := "reaction"; av_content := None;
         av_metadata := [("emoji", JStr (rx_emoji r)); ("confessionId", JStr (rx_confession r))]; av_createdAt := us_of (rx_createdAt r) |})
      (linked (rx_user r))) (ac_reactions w)
  ++ map (fun r =>
      {| av_id := rp_id r; av_type := "report"; av_content := report_details r;
         av_metadata := [("reason", JStr (report_type_str (rp_type r))); ("status", JStr (report_status_str (rp_status r))); ("confessionId", JStr (rp_confession r))];
         av_createdAt := rp_createdAt r |})
    (List.filter (fun r => bool_decide (rp_reporter r = Some userId)) (ac_reports w)).
(** [ORDER BY "createdAt" DESC, type ASC, id ASC]. *)
Definition activity_before (a b : Activity) : bool :=
  (av_createdAt b <? av_createdAt a)
  || ((av_createdAt a =? av_createdAt b)
      && (if av_type a =s? av_type b then str_le (av_id a) (av_id b) else str_le (av_type a) (av_type b))).
Definition readable_activity (a : Activity) : Activity :=
  match av_content a with
  | Some content =>
      if (av_type a =s? "confession") && truthy content then
        {| av_id := av_id a; av_type := av_type a;
           av_content := Some (match decryptConfession content aesKey with Ok m => m | Exn _ => "[Encrypted Content]" end);
           av_metadata := av_metadata a; av_createdAt := av_createdAt a |}
      else a
  | None => a
  end.
(** What the two queries name of the table of reports. *)
Definition ACTIVITY_COLUMNS : list string := ["details"; "reason"; "status"; "confessionId"; "created_at"; "reporterId"].
Definition COUNT_COLUMNS : list string := ["reporterId"].
Definition answered {A} (named : list string) (f : AccountDB -> A) : action A :=
  attempts (fun w => (if forallb (fun k => includes k reports_columns) named then Ok (f w) else Exn QueryRefused, w)).
(** [src user/user.service.ts:702-825 getUserActivitiesList]: a query that fails is an
    empty list. *)
Definition getUserActivitiesList (userId : Z) (page limit : nat) : action (list Activity * ListMeta) :=
  let empty := ([], {| me_total := 0; me_page := page; me_limit := limit; me_totalPages := 0 |}) in
  let* user := findById userId in
  match user with
  | None => Ret empty
  | Some _ =>
      try_catch
        (let* rawData := answered ACTIVITY_COLUMNS (fun w => page_of page limit (insertion_sort activity_before (activity_rows userId w))) in
         let* total := answered COUNT_COLUMNS (fun w => length (activity_rows userId w)) in
         Ret (map readable_activity rawData, meta_of total page limit))
        (fun _ => Ret empty)
  end.

(** ** Routes *)

(** [src common/decorators/ownership.decorator.ts:5-10 OwnershipMeta] *)
Record OwnershipMeta := { om_paramKey : string; om_adminBypass : bool }.
(** [src common/guards/ownership.guard.ts:32-76 canActivate]; [named] is what the request
    has under the key, in its path, its body or its query. *)
Definition canActivate (meta : option OwnershipMeta) (user : option RequestUser) (named : option json) : outcome account_error bool :=
  match meta with
  | None => Ok true
  | Some meta =>
      match user with
      | None => Exn (HttpError 403 "Not authenticated")
      | Some u =>
          if q_id u =? 0 then Exn (HttpError 403 "Not authenticated")
          else if om_adminBypass meta && bool_decide (q_role u = ADMIN) then Ok true
          else match named with
               | Some v => if negb (json_truthy v) then Exn (HttpError 403 "Ownership check failed: missing resource ID")
                           else if pretty (q_id u) =s? json_string v then Ok true
                           else Exn (HttpError 403 "Access denied: resource belongs to another user")
               | None => Exn (HttpError 403 "Ownership check failed: missing resource ID")
               end
      end
  end.
Definition owned {A} (bypass : bool) (user : RequestUser) (userId : string) (p : action A) : action A :=
  do* of_outcome (canActivate (Some {| om_paramKey := "userId"; om_adminBypass := bypass |}) (Some user) (Some (JStr userId))) in p.
(** [src user/user.controller.ts:88-98 updateSettings] *)
Definition settings_route (user : RequestUser) (userId : string) (dto : metadata) : action row :=
  owned false user userId (updateSettings (q_id user) dto).
(** [src user/user.controller.ts:104-110 deleteAccount] *)
Definition delete_route (user : RequestUser) (userId : string) : action unit := owned true user userId (deleteAccount (q_id user)).
(** [src user/user.controller.ts:45-52 getProfileSummary] *)
Definition summary_route (user : RequestUser) (userId : string) : action Summary :=
  owned false user userId (match parseInt userId with Some i => getProfileSummary i 1 10 | None => Throw QueryRefused end).
(** [src user/user.controller.ts:55-67 getUserActivities] *)
Definition activities_route (user : RequestUser) (userId : string) (page limit : nat) : action (list Activity * ListMeta) :=
  owned false user userId (match parseInt userId with Some i => getUserActivitiesList i page limit | None => Throw QueryRefused end).
End service.
