(* ===== verification/AdminUsers.v ===== *)
(** * What administrators do with accounts and confessions

    [src/xconfess-backend/src/admin/services/admin.service.ts] but its reports, with
    [moderation.service.ts] and [comment/moderation-template.service.ts].  The reads of a
    transaction are accesses of their own, its write and its audit entry are committed in
    one.  How the database orders texts and matches a pattern, and what a lockout keeps,
    are parameters. *)
From stdpp Require Import pretty.
From S2P Require Import Auth Tipping Reports Comments Confessions Redaction AuditLog Accounts Prelude Numbers Json Dates Effects ContentEncryption Cursor Feed.
Open Scope Z_scope.

(** What is kept of the request of an administrator. *)
Record AdminRequest := { ar_ip : option string; ar_agent : option string; ar_requestId : option string }.

Section service.
Context {aes : AesCbc} (aesKey : string) (sha256 : string -> string).
Context (column_ok : string -> json -> bool) (text_int : string -> option Z).
Abbreviation action := (prog AccountDB account_error).
Abbreviation save_row := (save_row column_ok text_int).

(** ** The audit entry of an action *)

(** [src admin/services/moderation.service.ts:28-59 logAction]: the entry of an action. *)
Definition moderation_row (adminId : Z) (action_ : string) (entityType entityId : option string) (md : metadata) (notes : option string)
    (request : option AdminRequest) (now : ms) : ModerationRow :=
  let requestId := request ≫= (fun r => or_null (ar_requestId r)) in
  let text k (v : option string) := if truthy_opt v then opt_text k v else [] in
  {| mr_row := {|
       al_adminId := Some adminId; al_action := action_; al_entityType := entityType; al_entityId := entityId;
       al_metadata := redactMetadata sha256 (spread md (text "entityType" entityType ++ text "entityId" entityId ++ text "requestId" requestId));
       al_ip := request ≫= (fun r => or_null (ar_ip r)); al_agent := request ≫= (fun r => or_null (ar_agent r)); al_requestId := requestId; al_createdAt := now |};
     mr_notes := notes |}.
(** The entry is refused of an administrator that is none of the accounts. *)
Definition add_entry (adminId : Z) (row : ms -> ModerationRow) (w : AccountDB) : outcome account_error unit * AccountDB :=
  if ac_audit_up w && bool_decide (is_Some (ac_users w !! adminId)) then (Ok tt, w <| ac_audit ::= fun l => l ++ [row (ac_clock w)] |>) else (Exn QueryRefused, w).
(** [src admin/services/moderation.service.ts:18-65 logAction], outside a transaction. *)
Definition logAction (adminId : Z) (action_ : string) (entityType entityId : option string) (md : metadata) (notes : option string)
    (request : option AdminRequest) : action unit :=
  attempts (add_entry adminId (moderation_row adminId action_ entityType entityId md notes request)).
(** The end of [runInModerationTransaction]: a change and its entry, or neither.
    [src admin/services/admin.service.ts:90-94 runInModerationTransaction] *)
Definition commit {A} (adminId : Z) (row : ms -> ModerationRow) (change : AccountDB -> outcome account_error A * AccountDB) : action A :=
  attempts (fun w => match change w with
                     | (Ok a, w1) => match add_entry adminId row w1 with (Ok _, w2) => (Ok a, w2) | (Exn e, _) => (Exn e, w) end
                     | (Exn e, _) => (Exn e, w)
                     end).

(** ** Confessions *)

Definition put_confession (c : AnonymousConfession) (w : AccountDB) : outcome account_error AnonymousConfession * AccountDB :=
  (Ok c, w <| ac_confessions ::= <[c_id c := c]> |>).
Definition change_confession (id : string) (adminId : Z) (f : AnonymousConfession -> AnonymousConfession) (action_ : string) (md : metadata)
    (notes : option string) (request : option AdminRequest) : action AnonymousConfession :=
  let* confession := reads (fun w => ac_confessions w !! id) in
  let* c := of_option confession (HttpError 404 "Confession not found") in
  commit adminId (moderation_row adminId action_ (Some "confession") (Some id) md notes request) (put_confession (f c)).
Definition because (reason : option string) : metadata := [("reason", json_opt_str reason)].
(** [src admin/services/admin.service.ts:354-384 deleteConfession] *)
Definition deleteConfession (id : string) (adminId : Z) (reason : option string) (request : option AdminRequest) : action unit :=
  do* change_confession id adminId (fun c => c <| c_isDeleted := true |>) "confession_deleted" (because reason) reason request in Ret tt.
(** [src admin/services/admin.service.ts:386-418 hideConfession] *)
Definition hideConfession (id : string) (adminId : Z) (reason : option string) (request : option AdminRequest) : action AnonymousConfession :=
  change_confession id adminId (fun c => c <| c_isHidden := true |>) "confession_hidden" (because reason) reason request.
(** [src admin/services/admin.service.ts:420-451 unhideConfession] *)
Definition unhideConfession (id : string) (adminId : Z) (request : option AdminRequest) : action AnonymousConfession :=
  change_confession id adminId (fun c => c <| c_isHidden := false |>) "confession_unhidden" [] None request.

(** ** Accounts *)

Definition is_on (r : row) : bool := json_truthy (col "is_active" r).
(** The read of a transaction, and the guard on what it read. *)
Definition change_user {A} (userId : Z) (decide : row -> outcome account_error A) : action (row * A) :=
  let* user := the_user userId in
  let* a := of_outcome (decide user) in Ret (user, a).
Definition user_entry (adminId : Z) (action_ : string) (userId : Z) (md : metadata) (notes : option string) (request : option AdminRequest) : ms -> ModerationRow :=
  moderation_row adminId action_ (Some "user") (Some (pretty userId)) md notes request.
(** [src admin/services/admin.service.ts:460-502 banUser]; [durationDays] is not 0. *)
Definition banUser (userId adminId : Z) (reason : option string) (request : option AdminRequest) (durationDays : option Z) : action row :=
  let* user := the_user userId in
  if negb (is_on user) then Throw (HttpError 400 "User is already banned")
  else
    let* now := reads ac_clock in
    let bannedUntil := match durationDays with Some d => JStr (toISOString (now + d * DAY)) | None => JNull end in
    commit adminId
      (user_entry adminId "user_banned" userId
         [("reason", json_opt_str reason); ("durationDays", json_Z durationDays); ("bannedUntil", bannedUntil)] reason request)
      (save_row (<["is_active" := JBool false]> user)).
(** [src admin/services/admin.service.ts:600-633 unbanUser] *)
Definition unbanUser (userId adminId : Z) (request : option AdminRequest) : action row :=
  let* user := the_user userId in
  if is_on user then Throw (HttpError 400 "User is not banned")
  else commit adminId (user_entry adminId "user_unbanned" userId [] None request) (save_row (<["is_active" := JBool true]> user)).
Definition ROLES : list string := ["user"; "moderator"; "admin"].
(** [src admin/services/admin.service.ts:574-598 logSecurityEvent]: a failure is logged. *)
Definition logSecurityEvent (adminId : Z) (eventType : string) (md : metadata) (request : option AdminRequest) : action unit :=
  let target := match field "targetUserId" md with Some v => Some (json_string v) | None => None end in
  try_catch
    (logAction adminId "moderation_escalation" (Some "user") (or_null target)
       (spread [("eventType", JStr eventType)]
          (md ++ [("requestId", json_opt_str (request ≫= (fun r => or_null (ar_requestId r)))); ("ipAddress", json_opt_str (request ≫= (fun r => or_null (ar_ip r))))]))
       (Some ("Security event: " +:+ eventType)) request)
    (fun _ => Ret tt).
(** [src admin/services/admin.service.ts:504-572 updateUserRole] *)
Definition updateUserRole (userId : Z) (role : string) (adminId : Z) (reason : option string) (request : option AdminRequest) : action row :=
  if negb (includes role ROLES) then Throw (HttpError 400 "Invalid role")
  else if userId =? adminId then
    do* logSecurityEvent adminId "ROLE_SELF_ESCALATION_BLOCKED"
      [("targetUserId", id_of userId); ("attemptedRole", JStr role); ("reason", json_opt_str (or_null reason))] request in
    Throw (HttpError 403 "Self-escalation is not permitted")
  else
    let* user := the_user userId in
    let previousRole := if json_truthy (col "role" user) then json_string (col "role" user) else "user" in
    if previousRole =s? role then Ret user
    else if (role =s? "admin") && negb (is_on user) then Throw (HttpError 400 "Cannot grant admin to a banned user")
    else
      let action_ := if role =s? "admin" then "user_admin_granted" else if previousRole =s? "admin" then "user_admin_revoked" else "moderation_override" in
      commit adminId
        (user_entry adminId action_ userId
           [("previousRole", JStr previousRole); ("newRole", JStr role); ("targetUserId", id_of userId); ("actorId", id_of adminId);
            ("reason", json_opt_str (or_null reason)); ("requestId", json_opt_str (request ≫= (fun r => or_null (ar_requestId r))))]
           (Some (default ("Role changed from " +:+ previousRole +:+ " to " +:+ role) (or_null reason))) request)
        (save_row (<["role" := JStr role]> user)).

(** ** Lists *)

Context (ilike : string -> string -> bool) (row_le : string -> row -> row -> bool).
Definition all_users (w : AccountDB) : list row := map snd (map_to_list (ac_users w)).
Definition user_matches (query : string) (r : row) : bool := match col "username" r with JStr u => ilike u ("%" +:+ query +:+ "%") | _ => false end.
(** [src admin/services/admin.service.ts:635-668 searchUsers]; [row_le c] is the order of
    a column, the other direction its reverse. *)
Definition searchUsers (query : string) (limit offset : Z) (sortBy : string) (desc : bool) (w : AccountDB) : list row * nat :=
  let safeLimit := Z.to_nat (Z.min (Z.max limit 1) 100) in
  let safeOffset := Z.to_nat (Z.max offset 0) in
  let column := if sortBy =s? "username" then "username" else if sortBy =s? "role" then "role" else if sortBy =s? "status" then "is_active" else "createdAt" in
  let trimmed := trim query in
  let found := List.filter (fun r => negb (truthy trimmed) || user_matches trimmed r || is_text trimmed (col "emailHash" r)) (all_users w) in
  (firstn safeLimit (skipn safeOffset (insertion_sort (fun a b => if desc then row_le column b a else row_le column a b) found)), length found).
Definition user_time (r : row) : Z := match col "createdAt" r with JStr s => default 0 (parseISO s) | _ => 0 end.
Definition user_number (r : row) : Z := default 0 (as_int text_int (col "id" r)).
Definition user_before (a b : row) : bool :=
  (user_time b <? user_time a) || ((user_time a =? user_time b) && (user_number b <=? user_number a)).
(** [src admin/services/admin.service.ts:952-992 searchUsersCursor]: the rows of a page
    and whether there are more; the position is that of a decoded cursor. *)
Definition searchUsersCursor (query : string) (limit : nat) (position : option (ms * Z)) (w : AccountDB) : list row * bool :=
  let take := Nat.min (limit + 1) MAX_LIMIT in
  let after r := match position with
                 | Some (t, i) => (user_time r <? t) || ((user_time r =? t) && (user_number r <? i))
                 | None => true
                 end in
  let users := firstn take (insertion_sort user_before (List.filter (fun r => user_matches query r && after r) (all_users w))) in
  let hasMore := (limit <? length users)%nat in
  (if hasMore then removelast users else users, hasMore).

(** [src admin/services/admin.service.ts:53-64 safeDecryptConfessionMessage] *)
Definition safeDecrypt (message : string) : string := match decryptConfession message aesKey with Ok m => m | Exn _ => message end.
Definition decrypted_row (c : AnonymousConfession) : AnonymousConfession := if truthy (c_message c) then c <| c_message := safeDecrypt (c_message c) |> else c.
Record TimelineEntry := { tl_id : string; tl_type : string; tl_createdAt : Z; tl_summary : option string }.
Record UserHistory := {
  uh_user : row; uh_confessionCount : nat; uh_reportsFiled : nat; uh_reportsReceived : nat; uh_confessions : list AnonymousConfession;
  uh_reports : list Report; uh_timeline : list TimelineEntry }.
(** [src admin/services/admin.service.ts:670-783 getUserHistory]; the links are the
    latest 200. *)
Definition getUserHistory (userId : Z) : action UserHistory :=
  let* user := the_user userId in
  let* reports := reads (fun w => firstn 100 (insertion_sort (fun a b => rp_createdAt b <=? rp_createdAt a)
                                                (List.filter (fun r => bool_decide (rp_reporter r = Some userId)) (ac_reports w)))) in
  let* ids := reads (fun w => remove_dups (firstn 200 (anonIds userId w))) in
  let* confessions := reads (fun w => map decrypted_row (firstn 200 (insertion_sort (fun a b => c_created_at b <=? c_created_at a) (confessions_of ids w)))) in
  let* received := reads (fun w => length (List.filter (fun r => among (confessions_of ids w) (rp_confession r)) (ac_reports w))) in
  let timeline :=
    map (fun c => {| tl_id := c_id c; tl_type := "confession"; tl_createdAt := js_date (c_created_at c); tl_summary := Some (c_message c) |}) (firstn 20 confessions)
    ++ map (fun r => {| tl_id := rp_id r; tl_type := "report"; tl_createdAt := js_date (rp_createdAt r);
                        tl_summary := if truthy_opt (rp_reason r) then rp_reason r else Some (report_type_str (rp_type r)) |}) (firstn 20 reports) in
  Ret {| uh_user := user; uh_confessionCount := length confessions; uh_reportsFiled := length reports; uh_reportsReceived := received;
         uh_confessions := confessions; uh_reports := reports;
         uh_timeline := firstn 30 (insertion_sort (fun a b => tl_createdAt b <=? tl_createdAt a) timeline) |}.
Record AnchorTips := { at_anchor : option AnonymousConfession; at_tips : list Tip }.
(** [src admin/services/admin.service.ts:786-881 lookupAnchorAndTip] *)
Definition lookupAnchorAndTip (txHash confessionId_ : option string) : action AnchorTips :=
  if negb (truthy_opt txHash) && negb (truthy_opt confessionId_) then Throw (HttpError 400 "At least one of txHash or confessionId is required")
  else
    let* by_tx := reads (fun w => if truthy_opt txHash
                                  then List.find (fun c => bool_decide (c_stellarTxHash c = txHash)) (map snd (map_to_list (ac_confessions w))) else None) in
    let* tx_tips := reads (fun w => if truthy_opt txHash
                                    then match List.find (fun t => bool_decide (Some (txId t) = txHash)) (ac_tips w) with Some t => [t] | None => [] end else []) in
    if truthy_opt confessionId_ then
      let* confession := reads (fun w => match by_tx with Some c => Some c | None => ac_confessions w !! default "" confessionId_ end) in
      let* tips := reads (fun w => match tx_tips with
                                   | [] => insertion_sort (fun a b => createdAt b <=? createdAt a)
                                             (List.filter (fun t => bool_decide (Some (confessionId t) = confessionId_)) (ac_tips w))
                                   | _ => tx_tips
                                   end) in
      Ret {| at_anchor := confession; at_tips := tips |}
    else Ret {| at_anchor := by_tx; at_tips := tx_tips |}.
Record ReportStats := { rs_pendingCount : nat; rs_oldestUnresolvedAge : option Z; rs_resolvedTodayCount : nat }.
(** [src admin/services/admin.service.ts:994-1024 getReportStats]; [midnight] is the
    start of the day where the process runs. *)
Definition getReportStats (midnight : ms -> ms) : action ReportStats :=
  let pending := List.filter (fun r => bool_decide (rp_status r = REPORT_PENDING)) in
  let* pendingCount := reads (fun w => length (pending (ac_reports w))) in
  let* oldest := reads (fun w => head (insertion_sort (fun a b => rp_createdAt a <=? rp_createdAt b) (pending (ac_reports w)))) in
  let* todayStart := reads (fun w => midnight (ac_clock w)) in
  let* resolvedToday := reads (fun w => length (List.filter (fun r => bool_decide (rp_status r = Reports.RESOLVED)
                                                                       && from_option (fun t => todayStart <=? t) false (rp_resolvedAt r)) (ac_reports w))) in
  let* now := reads ac_clock in
  Ret {| rs_pendingCount := pendingCount; rs_oldestUnresolvedAge := (fun r => (now - js_date (rp_createdAt r)) / 1000) <$> oldest; rs_resolvedTodayCount := resolvedToday |}.
(** ** Notes of moderators *)

Definition template_missing : account_error := HttpError 404 "Template not found".
(** [src comment/moderation-template.service.ts:33-43 create] *)
Definition template_create (name content category : string) (adminId : Z) : action NoteTemplate :=
  attempts (fun w =>
    let i := ac_template_seq w + 1 in
    let t := {| nt_id := i; nt_name := name; nt_content := content; nt_category := category; nt_isActive := true; nt_createdBy := Some adminId |} in
    if bool_decide (is_Some (ac_users w !! adminId)) then (Ok t, w <| ac_template_seq := i |> <| ac_templates ::= <[i := t]> |>)
    else (Exn QueryRefused, w <| ac_template_seq := i |>)).
(** The order of the database's own type.
    [src comment/entities/moderation-note-template.entity.ts:12-17 TemplateCategory] *)
Definition category_rank (c : string) : nat := if c =s? "approval" then 0 else if c =s? "rejection" then 1 else if c =s? "warning" then 2 else 3.
(** [src comment/moderation-template.service.ts:45-57 findAll] *)
Definition template_findAll (includeInactive : bool) (w : AccountDB) : list NoteTemplate :=
  insertion_sort (fun a b => (category_rank (nt_category a) <? category_rank (nt_category b))%nat
    || ((category_rank (nt_category a) =? category_rank (nt_category b))%nat && str_le (nt_name a) (nt_name b)))
    (List.filter (fun t => includeInactive || nt_isActive t) (map snd (map_to_list (ac_templates w)))).
(** [src comment/moderation-template.service.ts:59-68 findById] *)
Definition template_findById (id : Z) : action NoteTemplate := let* t := reads (fun w => ac_templates w !! id) in of_option t template_missing.
(** [src comment/moderation-template.service.ts:70-77 findByCategory] *)
Definition template_findByCategory (category : string) (w : AccountDB) : list NoteTemplate :=
  insertion_sort (fun a b => str_le (nt_name a) (nt_name b))
    (List.filter (fun t => (nt_category t =s? category) && nt_isActive t) (map snd (map_to_list (ac_templates w)))).
(** [src admin/admin.controller.ts:71-88 UpdateTemplateDto] *)
Record UpdateTemplateDto := { ut_name : option string; ut_content : option string; ut_category : option string; ut_isActive : option bool }.
(** [src comment/moderation-template.service.ts:79-86 update] *)
Definition template_update (id : Z) (dto : UpdateTemplateDto) : action NoteTemplate :=
  let* template := template_findById id in
  let t := {| nt_id := nt_id template; nt_name := default (nt_name template) (ut_name dto); nt_content := default (nt_content template) (ut_content dto);
              nt_category := default (nt_category template) (ut_category dto); nt_isActive := default (nt_isActive template) (ut_isActive dto);
              nt_createdBy := nt_createdBy template |} in
  do* writes (fun w => w <| ac_templates ::= <[nt_id t := t]> |>) in Ret t.
(** [src comment/moderation-template.service.ts:88-91 delete] *)
Definition template_delete (id : Z) : action unit :=
  let* template := template_findById id in writes (fun w => w <| ac_templates ::= delete (nt_id template) |>).
(** [src comment/moderation-template.service.ts:93-98 getTemplateContent] *)
Definition getTemplateContent (id : Z) (w : AccountDB) : option string :=
  match ac_templates w !! id with Some t => if nt_isActive t then Some (nt_content t) else None | None => None end.
End service.
