(* ===== verification/AccountSafety.v ===== *)
(** * Accounts and administrators: what holds of them

    However requests interleave, accounts keep their names and numbers, the power of an
    administrator is granted by another one and written down as long as that one's account
    stands, and a registration makes an
    ordinary account; what a decision does to a row and to the audit log; whose history is
    shown.  What the settings and deletion routes let through is stated at the end. *)
From stdpp Require Import pretty.
From S2P Require Import Auth Tipping Reports Comments Confessions AuditLog Accounts AdminUsers Prelude Numbers Json Dates Effects ContentEncryption Cursor.
Open Scope Z_scope.

Lemma all_ok_Forall2 {A B} (f : A -> outcome account_error B) l ys : all_ok f l = Ok ys <-> Forall2 (fun x y => f x = Ok y) l ys.
Proof.
  revert ys; induction l as [|x l IH]; intros ys; cbn.
  - split; [intros [= <-]; constructor|by inversion 1].
  - split.
    + destruct (f x) as [y|e] eqn:Hx; [|done]. destruct (all_ok f l) as [zs|e] eqn:Hl; [|done]. intros [= <-].
      constructor; [done|by apply IH].
    + inversion 1 as [|? y ? zs Hx Hl]; subst. rewrite Hx. by rewrite (proj2 (IH zs) Hl).
Qed.

Lemma Forall2_elem_r {A B} (P : A -> B -> Prop) l k y : Forall2 P l k -> y ∈ k -> exists x, x ∈ l /\ P x y.
Proof. induction 1; intros Hy; [by apply elem_of_nil in Hy|]. apply elem_of_cons in Hy as [->|Hy]; [eexists; split; [left|done]|]. destruct (IHForall2 Hy) as (x' & Hx & Hp). exists x'. split; [by right|done]. Qed.
(** The pages are the list. *)
Lemma pages_firstn {A} (L n : nat) (l : list A) : flat_map (fun p => page_of p L l) (seq 1 n) = firstn (n * L) l.
Proof.
  induction n as [|n IH]; [done|]. rewrite seq_S, flat_map_app, IH. cbn [flat_map]. rewrite app_nil_r. unfold page_of.
  replace (1 + n - 1)%nat with n by lia. replace (S n * L)%nat with (n * L + L)%nat by lia.
  rewrite <- (firstn_skipn (n * L) l) at 3. rewrite firstn_app, firstn_firstn.
  destruct (le_lt_dec (n * L) (length l)) as [Hl|Hl].
  - rewrite firstn_length_le by done. f_equal; [f_equal; lia|f_equal; lia].
  - rewrite skipn_all2 by lia. by rewrite !firstn_nil, !(firstn_all2 (n := _)) by lia.
Qed.
Lemma pages_all {A} (L : nat) (l : list A) : (1 <= L)%nat -> flat_map (fun p => page_of p L l) (seq 1 ((length l + L - 1) / L)) = l.
Proof.
  intros HL. rewrite pages_firstn. apply firstn_all2. pose proof (Nat.div_mod (length l + L - 1) L ltac:(lia)).
  pose proof (Nat.mod_upper_bound (length l + L - 1) L ltac:(lia)). lia.
Qed.

Set Default Proof Using "Type".
Section safety.
Context {aes : AesCbc} (aesKey : string) (sha256 : string -> string) (bcrypt_hash : string -> string -> string)
        (encrypt : string -> string -> string * string * string)
        (column_ok : string -> json -> bool) (text_int : string -> option Z) (badge : option string)
        (reports_columns : list string) (report_details : Report -> option string) (audit_cascades : bool).
Abbreviation save_row := (Accounts.save_row column_ok text_int).
Abbreviation put := (Accounts.put column_ok).
Abbreviation action := (prog AccountDB account_error).

(** ** Rows *)

Lemma as_int_id i : as_int text_int (id_of i) = Some i.
Proof.
  unfold as_int, id_of, num_integer, num_of_Z. rewrite Qfloor_Z, (proj2 (Qeq_bool_iff _ _)) by reflexivity. done.
Qed.

Lemma columns_lookup k (e : row) : columns e !! k = if includes k USER_COLUMNS then e !! k else None.
Proof.
  unfold columns. destruct (e !! k) as [v|] eqn:Hk.
  - destruct (includes k USER_COLUMNS) eqn:Hi; [by apply map_lookup_filter_Some|].
    apply map_lookup_filter_None. right. intros v' Hv' Hf. change (includes k USER_COLUMNS = true) in Hf. congruence.
  - replace (if includes k USER_COLUMNS then None else None) with (@None json) by by destruct (includes _ _).
    apply map_lookup_filter_None. by left.
Qed.

(** The columns a saved row has. *)
Lemma saved_lookup k (e base : row) i : k <> "id" -> includes k USER_COLUMNS = true ->
  (<["id" := id_of i]> (columns e ∪ base)) !! k = match e !! k with Some v => Some v | None => base !! k end.
Proof.
  intros Hk Hc. rewrite lookup_insert_ne by done. rewrite lookup_union, columns_lookup, Hc.
  by destruct (e !! k), (base !! k).
Qed.

Definition users_ok (w : AccountDB) : Prop := forall i r, ac_users w !! i = Some r -> r !! "id" = Some (id_of i).
Definition users_unique (w : AccountDB) : Prop := forall i j r s k, k ∈ ["username"; "emailHash"] ->
  ac_users w !! i = Some r -> ac_users w !! j = Some s -> stringify (col k r) = stringify (col k s) -> i = j.

(** A row is stored as it was checked, or nothing is. *)
Lemma put_spec i r w :
  (exists e, put i r w = (Exn e, w))
  \/ put i r w = (Ok (<["id" := id_of i]> r), w <| ac_users ::= <[i := <["id" := id_of i]> r]> |>)
     /\ taken i (<["id" := id_of i]> r) w = false /\ typed column_ok (<["id" := id_of i]> r) = true.
Proof.
  unfold Accounts.put. destruct (typed _ _) eqn:Ht; cbn [negb]; [|left; by eexists].
  destruct (taken _ _ _) eqn:Hk; [left; by eexists|by right].
Qed.

Lemma taken_spec i (r : row) w : taken i r w = false ->
  forall j s k, k ∈ ["username"; "emailHash"] -> ac_users w !! j = Some s -> stringify (col k s) = stringify (col k r) -> j = i.
Proof.
  intros Ht j s k Hk Hj He. destruct (decide (j = i)) as [|Hne]; [done|]. exfalso.
  enough (taken i r w = true) by congruence. unfold taken. apply existsb_exists. exists (j, s).
  split; [by apply list_elem_of_In, elem_of_map_to_list|]. cbn [fst snd].
  rewrite (proj2 (Z.eqb_neq j i) Hne). cbn [negb andb]. apply existsb_exists. exists k.
  split; [by apply list_elem_of_In|]. rewrite He. apply str_eqb_refl.
Qed.

Lemma unique_check w : forallb (fun p : Z * row => negb (taken p.1 p.2 w)) (map_to_list (ac_users w)) = true -> users_unique w.
Proof.
  rewrite forallb_forall. intros H i j r s k Hk Hr Hs He. specialize (H (j, s) ltac:(by apply list_elem_of_In, elem_of_map_to_list)). boolp.
  by eapply (taken_spec j s w).
Qed.

(** Where a save puts the columns of an entity. *)
Definition saved_at (e : row) (i : Z) (base : row) (w : AccountDB) : Prop :=
  base = USER_DEFAULTS (ac_clock w) /\ ac_users w !! i = None /\ i = ac_seq w + 1 /\ col "id" e = JNull
  \/ base = default (USER_DEFAULTS (ac_clock w)) (ac_users w !! i) /\ as_int text_int (col "id" e) = Some i.
(** Everything but the accounts and their sequence. *)
Definition same_rest (w w' : AccountDB) : Prop := w' = w <| ac_users := ac_users w' |> <| ac_seq := ac_seq w' |>.

Lemma same_rest_refl w : same_rest w w.
Proof. by destruct w. Qed.

Lemma save_spec e w o w' : save_row e w = (o, w') ->
  same_rest w w' /\
  ((exists x, o = Exn x) /\ ac_users w' = ac_users w
   \/ exists i base r, o = Ok r /\ r = <["id" := id_of i]> (columns e ∪ base) /\ ac_users w' = <[i := r]> (ac_users w) /\ saved_at e i base w
        /\ taken i r w = false /\ typed column_ok r = true).
Proof.
  unfold Accounts.save_row. intros H.
  assert (forall i base v, saved_at e i base w -> ac_users v = ac_users w -> same_rest w v -> put i (columns e ∪ base) v = (o, w') ->
    same_rest w w' /\
    ((exists x, o = Exn x) /\ ac_users w' = ac_users w
     \/ exists i base r, o = Ok r /\ r = <["id" := id_of i]> (columns e ∪ base) /\ ac_users w' = <[i := r]> (ac_users w) /\ saved_at e i base w
          /\ taken i r w = false /\ typed column_ok r = true)) as Hput.
  { intros i base v Hs Hv Hrest Hp. destruct (put_spec i (columns e ∪ base) v) as [(x & E)|(E & Ht & Hty)]; rewrite E in Hp; injection Hp as <- <-.
    - split; [done|]. left. split; [by eexists|done].
    - split; [by unfold same_rest in *; rewrite Hrest; destruct w|]. right. exists i, base. eexists.
      split; [done|]. split; [done|]. split; [by cbn; rewrite Hv|]. split; [done|]. split; [|done].
      unfold taken in *. by rewrite <- Hv. }
  destruct (col "id" e) as [|b|n|t|l|fs] eqn:Hid.
  2-6: destruct (as_int text_int _) as [i|] eqn:Hi; [|injection H as <- <-; split; [apply same_rest_refl|left; split; [by eexists|done]]];
    eapply Hput; [right; split; [reflexivity|by rewrite Hid]|done|apply same_rest_refl|exact H].
  destruct (ac_users (w <| ac_seq := ac_seq w + 1 |>) !! (ac_seq w + 1)) as [r|] eqn:Hr.
  - injection H as <- <-. split; [by destruct w|]. left. split; [by eexists|done].
  - eapply (Hput _ _ (w <| ac_seq := ac_seq w + 1 |>)); [left; split_and!; [reflexivity|exact Hr|done|exact Hid]|reflexivity|by destruct w|exact H].
Qed.

(** The accounts keep their numbers and their unique names. *)
Lemma save_ok e w : users_ok w -> users_unique w -> users_ok (save_row e w).2 /\ users_unique (save_row e w).2.
Proof.
  intros Hok Hu. destruct (save_row e w) as [o w'] eqn:E. apply save_spec in E as (_ & [(_ & E)|(i & base & r & _ & -> & E & _ & Ht & _)]); cbn.
  - unfold users_ok, users_unique. by rewrite E.
  - pose proof (taken_spec _ _ _ Ht) as Hk. split.
    + intros j s. rewrite E. destruct (decide (i = j)) as [<-|Hne]; [|rewrite lookup_insert_ne by done; apply Hok].
      rewrite lookup_insert_eq. intros [= <-]. apply lookup_insert_eq.
    + intros j k s s' c Hc. rewrite E. destruct (decide (i = j)) as [<-|Hj]; destruct (decide (i = k)) as [<-|Hk'];
        rewrite ?lookup_insert_eq, ?lookup_insert_ne by done; [done|..].
      * intros [= <-] Hs' He. symmetry. by eapply (Hk k s' c).
      * intros Hs [= <-] He. by eapply (Hk j s c).
      * by apply Hu.
Qed.

(** ** The power of administrators *)

Section power.
Context (w0 : AccountDB).
Definition is_admin (r : row) : bool := is_text "admin" (col "role" r).
(** [grants i j]: [j] asked to make [i] an administrator; [deletes j]: [j] asked to be
    deleted. *)
Context (grants : Z -> Z -> Prop) (deletes : Z -> Prop).
(** The entry of a grant, as [j]'s or as nobody's. *)
Definition grant_entry (i : Z) (j : option Z) (w : AccountDB) : Prop :=
  exists m, m ∈ ac_audit w /\ al_action (mr_row m) = "user_admin_granted" /\ al_entityId (mr_row m) = Some (pretty i)
            /\ al_adminId (mr_row m) = j.
(** An account was an administrator at the start, or another one made it one and the log
    says so, in its name unless its account was deleted since; where deletions cascade
    they take the entry away. *)
Definition granted (i : Z) (w : AccountDB) : Prop :=
  (exists r, ac_users w0 !! i = Some r /\ is_admin r = true)
  \/ exists j, j <> i /\ grants i j /\
       (grant_entry i (Some j) w \/ deletes j /\ (audit_cascades = true \/ grant_entry i None w)).
Record power_inv (w : AccountDB) : Prop := {
  po_ok : users_ok w;
  po_unique : users_unique w;
  po_granted : forall i r, ac_users w !! i = Some r -> is_admin r = true -> granted i w;
}.
Definition power_guar (w w' : AccountDB) : Prop := forall i, granted i w -> granted i w'.

Lemma granted_more i w w' : (forall m, m ∈ ac_audit w -> m ∈ ac_audit w') -> granted i w -> granted i w'.
Proof.
  intros H [H0|(j & Hj & Hg & He)]; [by left|right]. exists j. split; [done|]. split; [done|].
  assert (forall o, grant_entry i o w -> grant_entry i o w') as Hm by (intros o (m & Hm & ?); exists m; auto).
  destruct He as [He|[Hd [He|He]]]; [left|right; split; [done|by left]|right; split; [done|right]]; by apply Hm.
Qed.
Lemma power_same w w' : ac_users w' = ac_users w -> (forall m, m ∈ ac_audit w -> m ∈ ac_audit w') -> power_inv w -> power_inv w' /\ power_guar w w'.
Proof.
  intros Hu Ha [Hok Hun Hg]. split; [constructor|intros i; by apply granted_more].
  - unfold users_ok. by rewrite Hu.
  - unfold users_unique. by rewrite Hu.
  - intros i r. rewrite Hu. intros Hr Hi. eapply granted_more; [done|by eapply Hg].
Qed.

(** What a read of an account learns. *)
Definition read_fact (i : Z) (r : row) (w : AccountDB) : Prop := r !! "id" = Some (id_of i) /\ (is_admin r = true -> granted i w).
Lemma read_fact_lasting i r : lasting power_guar (read_fact i r).
Proof. intros w w' [H1 H2] HG. split; [done|]. intros Ha. by apply HG, H2. Qed.

(** A save of what was read, and entries of the log. *)
Lemma power_save i e w o w' w'' :
  power_inv w -> e !! "id" = Some (id_of i) -> save_row e w = (o, w') ->
  ac_users w'' = ac_users w' -> (forall m, m ∈ ac_audit w -> m ∈ ac_audit w'') -> (is_admin e = true -> granted i w'') ->
  power_inv w'' /\ power_guar w w''.
Proof.
  intros [Hok Hun Hg] Hid Hs Hu Ha Hadm. pose proof (save_ok e w Hok Hun) as [Hok' Hun']. rewrite Hs in Hok', Hun'. cbn [snd] in *.
  apply save_spec in Hs as (_ & Hcase).
  assert (power_guar w w'') as HG by (intros j; by apply granted_more). split; [|done].
  constructor; [unfold users_ok; by rewrite Hu|unfold users_unique; by rewrite Hu|].
  intros j r. rewrite Hu. destruct Hcase as [(_ & ->)|(i' & base & r' & _ & Hr' & -> & Hat & _)]; [intros Hj Hi; by eapply HG, Hg|].
  assert (i' = i) as ->.
  { unfold saved_at, col in Hat. rewrite Hid in Hat. cbn [default] in Hat.
    destruct Hat as [(_ & _ & _ & H)|(_ & H)]; [done|]. change (as_int text_int (id_of i) = Some i') in H. rewrite as_int_id in H. congruence. }
  destruct (decide (i = j)) as [<-|Hne]; [|rewrite lookup_insert_ne by done; intros Hj Hi; by eapply HG, Hg].
  rewrite lookup_insert_eq. intros [= <-] Hi. unfold is_admin, col in Hi. rewrite Hr', saved_lookup in Hi by done.
  destruct (e !! "role") as [v|] eqn:Hrole; [apply Hadm; by unfold is_admin, col; rewrite Hrole|].
  destruct Hat as [(-> & _)|(-> & _)]; [done|]. destruct (ac_users w !! i) as [old|] eqn:Hold; [|done].
  apply HG. by eapply Hg.
Qed.

Abbreviation spec := (@rg AccountDB account_error power_inv (fun _ => power_guar)).
Abbreviation tame := (tame (E := account_error) power_inv power_guar).
Abbreviation lasts := (lasting power_guar).

Lemma keeps_accounts f : (forall w, ac_users (f w) = ac_users w) -> (forall w m, m ∈ ac_audit w -> m ∈ ac_audit (f w)) -> keeps power_inv power_guar f.
Proof. intros Hu Ha w Hw. apply power_same; [apply Hu|intros m; apply Ha|done]. Qed.

(** The last access of a request. *)
Lemma spec_last {A} t F (f : AccountDB -> outcome account_error A * AccountDB) :
  (forall w, power_inv w -> F w -> power_inv (f w).2 /\ power_guar w (f w).2) -> spec t F (attempts f) (fun _ _ => True).
Proof.
  intros Hf w Hw HF. destruct (Hf w Hw HF) as [HI HG]. split; [done|split; [done|]]. exists (fun _ => True). split; [done|split; [done|]]. by destruct (f w).1.
Qed.

Lemma power_refl w : power_guar w w.
Proof. by intros i. Qed.

(** The account is read first. *)
Lemma spec_user {A} t i (q : row -> action A) :
  (forall r, spec t (read_fact i r) (q r) (fun _ _ => True)) -> spec t (fun _ => True) (bind (the_user i) q) (fun _ _ => True).
Proof.
  intros Hq. unfold the_user, findById. cbn [bind reads access]. intros w Hw _. cbn [snd fst].
  split; [done|]. split; [apply power_refl|]. destruct (ac_users w !! i) as [r|] eqn:Hr; cbn [of_option bind].
  - exists (read_fact i r). split; [split; [by eapply po_ok|intros Hi; by eapply po_granted]|].
    split; [intros t' v v' _ _ Hv; by apply read_fact_lasting|apply Hq].
  - exists (fun _ => True). split; [done|]. split; [done|]. by intros v.
Qed.

Lemma add_entry_users admin row w : ac_users (add_entry admin row w).2 = ac_users w.
Proof. unfold add_entry. by destruct (_ && _). Qed.
Lemma add_entry_audit admin row w m : m ∈ ac_audit w -> m ∈ ac_audit (add_entry admin row w).2.
Proof. unfold add_entry. destruct (_ && _); cbn; [|done]. intros Hm. apply elem_of_app. by left. Qed.

(** A decision on an account. *)
Lemma spec_user_commit t admin row e i F :
  e !! "id" = Some (id_of i) ->
  (forall w now w', F w -> is_admin e = true -> (forall m, m ∈ ac_audit w -> m ∈ ac_audit w') -> row now ∈ ac_audit w' -> granted i w') ->
  spec t F (commit admin row (save_row e)) (fun _ _ => True).
Proof.
  intros Hid Hg. apply spec_last. intros w Hw HF. destruct (save_row e w) as [[r|x] w1] eqn:Hs; [|split; [done|apply power_refl]].
  pose proof Hs as Hs'. apply save_spec in Hs' as (Hrest & _). assert (ac_audit w1 = ac_audit w) as Ha by (rewrite Hrest; by destruct w).
  destruct (add_entry admin row w1) as [[u|x] w2] eqn:He; [|split; [done|apply power_refl]]. cbn [snd].
  pose proof (add_entry_users admin row w1) as Hu. pose proof (add_entry_audit admin row w1) as Hm. rewrite He in Hu, Hm. cbn [snd] in *. rewrite Ha in Hm.
  eapply (power_save i e); [done|done|exact Hs|exact Hu|exact Hm|]. intros Hadm. apply (Hg w (ac_clock w1)); [exact HF|done|exact Hm|].
  unfold add_entry in He. destruct (_ && _); [|done]. injection He as <- <-. cbn. apply elem_of_app. right. constructor.
Qed.

Lemma is_admin_insert k v (r : row) : k <> "role" -> is_admin (<[k := v]> r) = is_admin r.
Proof. intros Hk. unfold is_admin, col. by rewrite lookup_insert_ne. Qed.

Lemma spec_decision t admin row k v r i :
  k <> "role" -> k <> "id" -> spec t (read_fact i r) (commit admin row (save_row (<[k := v]> r))) (fun _ _ => True).
Proof.
  intros Hr Hi. apply rg_from. intros w _ Hw. exists (read_fact i r). split; [done|]. apply spec_user_commit with (i := i).
  - rewrite lookup_insert_ne by done. apply Hw.
  - intros w' now w'' [_ Hg] Hadm Hm _. rewrite is_admin_insert in Hadm by done. by eapply granted_more; [exact Hm|apply Hg].
Qed.

Lemma tame_ban i admin reason req d : tame (banUser sha256 column_ok text_int i admin reason req d).
Proof.
  intros t. unfold banUser. apply spec_user. intros r. destruct (negb (is_on r)); [by intros w|].
  apply spec_reads_then with (F' := fun _ => read_fact i r); [apply power_refl|done|intros _; apply read_fact_lasting|].
  intros now. by apply spec_decision.
Qed.
Lemma tame_unban i admin req : tame (unbanUser sha256 column_ok text_int i admin req).
Proof. intros t. unfold unbanUser. apply spec_user. intros r. destruct (is_on r); [by intros w|]. by apply spec_decision. Qed.

Lemma tame_entry admin row : tame (attempts (add_entry admin row)).
Proof. apply tame_attempts, keeps_accounts; [apply add_entry_users|intros w m; apply add_entry_audit]. Qed.

Lemma tame_role i role admin reason req : (role = "admin" -> grants i admin) ->
  tame (updateUserRole sha256 column_ok text_int i role admin reason req).
Proof.
  intros Hgr t. unfold updateUserRole. destruct (negb (includes role ROLES)); [by intros w|]. destruct (i =? admin) eqn:Hself.
  { revert t. apply tame_bind; [|intros _; apply tame_throw]. unfold logSecurityEvent, logAction. apply tame_try; [apply tame_entry|intros _; apply tame_ret]. }
  apply spec_user. intros r. destruct ((if json_truthy _ then _ else _) =s? role); [by intros w|].
  destruct ((role =s? "admin") && _); [by intros w|].
  apply rg_from. intros w _ Hw. exists (read_fact i r). split; [done|]. apply spec_user_commit with (i := i).
  { rewrite lookup_insert_ne by done. apply Hw. }
  intros w' now w'' _ Hadm _ Hrow. unfold is_admin, col in Hadm. rewrite lookup_insert_eq in Hadm. cbn in Hadm.
  right. exists admin. split; [intros ->; by rewrite Z.eqb_refl in Hself|]. apply str_eqb_eq in Hadm as ->.
  split; [by apply Hgr|]. left. eexists. split; [exact Hrow|]. by split_and!.
Qed.

Lemma tame_change i admin f a md notes req : tame (change_confession sha256 i admin f a md notes req).
Proof.
  unfold change_confession. apply tame_bind; [apply tame_reads, power_refl|intros c]. apply tame_bind; [apply tame_option|intros x].
  unfold commit. apply tame_attempts. intros w Hw. unfold put_confession. set (w1 := w <| ac_confessions ::= _ |>).
  set (R := moderation_row _ _ _ _ _ _ _ _). pose proof (add_entry_users admin R w1) as Hu. pose proof (add_entry_audit admin R w1) as Hm.
  destruct (add_entry admin R w1) as [[u|e] w2]; cbn [snd] in *; [|split; [done|apply power_refl]]. apply power_same; [exact Hu|exact Hm|done].
Qed.

(** A new account is an ordinary one. *)
Lemma col_default e (base : row) i k : k <> "id" -> includes k USER_COLUMNS = true -> e !! k = None ->
  col k (<["id" := id_of i]> (columns e ∪ base)) = col k base.
Proof. intros Hk Hc He. unfold col. by rewrite saved_lookup, He. Qed.

Lemma account_of_col k d email password username :
  includes k ["emailEncrypted"; "emailIv"; "emailTag"; "emailHash"; "password"; "username"] = false ->
  account_of sha256 bcrypt_hash encrypt d email password username !! k = None.
Proof.
  intros Hk. unfold account_of. destruct (encrypt (dr_iv d) email) as [[c iv] tag]. apply not_elem_of_list_to_map.
  intros Hin. apply includes_spec in Hin. cbn [fmap list_fmap fst] in Hin. cbn [map fst] in Hin.
  revert Hk Hin. unfold includes. cbn [existsb fmap list_fmap fst]. destruct (k =s? "emailEncrypted"), (k =s? "emailIv"), (k =s? "emailTag"),
    (k =s? "emailHash"), (k =s? "password"), (k =s? "username"); done.
Qed.

Lemma keeps_register d email password username :
  keeps power_inv power_guar (fun w => (save_row (account_of sha256 bcrypt_hash encrypt d email password username) w).2).
Proof.
  set (e := account_of _ _ _ _ _ _ _). intros w [Hok Hun Hg]. destruct (save_row e w) as [o w'] eqn:Hs. cbn [snd].
  pose proof (save_ok e w Hok Hun) as [Hok' Hun']. rewrite Hs in Hok', Hun'.
  apply save_spec in Hs as (Hrest & Hcase). assert (ac_audit w' = ac_audit w) as Ha by (rewrite Hrest; by destruct w).
  assert (power_guar w w') as HG by (intros j; apply granted_more; by rewrite Ha). split; [|done]. constructor; [done..|].
  intros j r. destruct Hcase as [(_ & ->)|(i & base & r' & _ & Hr' & -> & Hat & _)]; [intros Hj Hi; by eapply HG, Hg|].
  destruct (decide (i = j)) as [<-|Hne]; [|rewrite lookup_insert_ne by done; intros Hj Hi; by eapply HG, Hg].
  rewrite lookup_insert_eq. intros [= <-] Hi. unfold is_admin in Hi. rewrite Hr', col_default in Hi by (done || by apply account_of_col).
  destruct Hat as [(-> & _)|(_ & Hat)]; [done|]. unfold col, e in Hat. by rewrite account_of_col in Hat.
Qed.

Lemma tame_create d email password username : tame (create sha256 bcrypt_hash encrypt column_ok text_int d email password username).
Proof.
  unfold create. apply tame_bind; [apply tame_reads, power_refl|intros [r|]; [apply tame_throw|]].
  apply tame_bind; [apply tame_reads, power_refl|intros [r|]; [apply tame_throw|]].
  apply tame_try; [|intros []; apply tame_throw]. apply tame_bind; [apply tame_attempts, keeps_register|intros r].
  apply tame_bind; [|intros _; apply tame_bind; [|intros _; apply tame_ret]]; (apply tame_try; [|intros _; apply tame_ret]);
    apply tame_attempts, keeps_accounts; intros w; destruct (ac_outside w); done.
Qed.

Lemma spec_user_save {A} t e i (q : action A) F :
  e !! "id" = Some (id_of i) -> (forall w, F w -> is_admin e = true -> granted i w) -> tame q ->
  spec t F (do* save column_ok text_int e in q) (fun _ _ => True).
Proof.
  intros Hid Hg Hq. unfold save. eapply spec_attempts_then with (F' := fun _ _ => True); [|done|done|intros _; apply Hq].
  intros w Hw HF. destruct (save_row e w) as [o w'] eqn:Hs. cbn [snd fst].
  assert (ac_audit w' = ac_audit w) as Ha by (apply save_spec in Hs as (Hrest & _); rewrite Hrest; by destruct w).
  assert (forall m, m ∈ ac_audit w -> m ∈ ac_audit w') as Hm by (intros m; by rewrite Ha).
  destruct (power_save i e w o w' w' Hw Hid Hs eq_refl Hm) as [HI HG]; [|done].
  intros Hadm. eapply granted_more; [exact Hm|by apply Hg].
Qed.

Lemma tame_privacy i dto : tame (updatePrivacySettings column_ok text_int i dto).
Proof.
  intros t. unfold updatePrivacySettings. apply spec_user. intros r.
  apply rg_from. intros w _ Hw. exists (read_fact i r). split; [done|]. apply spec_user_save with (i := i).
  - rewrite lookup_insert_ne by done. apply Hw.
  - intros v [_ Hg]. by rewrite is_admin_insert.
  - apply tame_bind; [apply tame_ret|intros _; apply tame_ret].
Qed.

(** What a deletion makes of the entry of a grant. *)
Lemma unaudited_entry i k o w w' : ac_audit w' = unaudited audit_cascades i (ac_audit w) -> grant_entry k o w ->
  grant_entry k o w' \/ o = Some i /\ (audit_cascades = true \/ grant_entry k None w').
Proof.
  intros Ha (m & Hm & H1 & H2 & H3). unfold unaudited in Ha. destruct audit_cascades; destruct (decide (o = Some i)) as [Ho|Ho].
  - right. auto.
  - left. exists m. split; [|done]. rewrite Ha. apply list_elem_of_In, filter_In. split; [by apply list_elem_of_In|].
    unfold by_account. rewrite bool_decide_eq_false_2; [done|congruence].
  - right. split; [done|right]. exists (without_admin i m). split; [rewrite Ha; by apply list_elem_of_fmap_2|]. cbn.
    split; [done|]. split; [done|]. unfold without. rewrite bool_decide_eq_true_2; [done|congruence].
  - left. exists (without_admin i m). split; [rewrite Ha; by apply list_elem_of_fmap_2|]. cbn.
    split; [done|]. split; [done|]. unfold without. rewrite bool_decide_eq_false_2; [done|congruence].
Qed.

Lemma keeps_delete i : deletes i -> keeps power_inv power_guar (fun w => w <| ac_users ::= delete i |> <| ac_links ::= List.filter (fun l => negb (l.1 =? i)) |>
  <| ac_reports ::= map (fun r => r <| rp_reporter := without i (rp_reporter r) |> <| rp_resolvedBy := without i (rp_resolvedBy r) |>) |>
  <| ac_templates ::= fmap (fun t => t <| nt_createdBy := without i (nt_createdBy t) |>) |>
  <| ac_audit ::= unaudited audit_cascades i |>).
Proof.
  intros Hdel w [Hok Hun Hg]. match goal with |- power_inv ?v /\ _ => set (w' := v) end.
  assert (power_guar w w') as HG.
  { intros k [H0|(j & Hj & Hgr & He)]; [by left|right]. exists j. split; [done|]. split; [done|].
    destruct He as [He|[Hd [He|He]]]; [|right; split; [done|by left]|right; split; [done|]].
    - destruct (unaudited_entry i k (Some j) w w' eq_refl He) as [?|[[= ->] [?|?]]]; [by left|right; split; [done|by left]|right; split; [done|by right]].
    - destruct (unaudited_entry i k None w w' eq_refl He) as [?|[? _]]; [by right|done]. }
  assert (forall j r, ac_users w' !! j = Some r -> ac_users w !! j = Some r) as Hd.
  { intros j r Hj. by apply (proj1 (lookup_delete_Some (ac_users w) i j r)). }
  split; [|done]. constructor.
  - intros j r Hr. by apply Hok, Hd.
  - intros j k r s c Hc Hr Hs. apply (Hun j k r s c Hc); by apply Hd.
  - intros j r Hr Hi. by eapply HG, Hg; [apply Hd|].
Qed.
Lemma tame_delete_account i : deletes i -> tame (deleteAccount audit_cascades i).
Proof.
  intros Hdel t. unfold deleteAccount. apply spec_user. intros r. apply spec_last. intros w Hw _.
  destruct (existsb _ _); [split; [done|apply power_refl]|]. by apply keeps_delete.
Qed.
End power.

(** The requests that change accounts, but the settings route, and what changes around
    them. *)
Inductive AccountActor :=
| ARegister (d : Draws) (email password username : string)
| APrivacy (userId : Z) (dto : UpdatePrivacySettingsDto)
| ADelete (user : RequestUser) (userId : string)
| ABan (userId adminId : Z) (reason : option string) (request : option AdminRequest) (durationDays : option Z)
| AUnban (userId adminId : Z) (request : option AdminRequest)
| ARole (userId : Z) (role : string) (adminId : Z) (reason : option string) (request : option AdminRequest)
| ARemove (id : string) (adminId : Z) (reason : option string) (request : option AdminRequest)
| AHide (id : string) (adminId : Z) (reason : option string) (request : option AdminRequest)
| AUnhide (id : string) (adminId : Z) (request : option AdminRequest)
| AAround (clock : ms) (audit_up outside : bool) (links : list (Z * string)).
Definition to_unit {A} (p : action A) : action unit := do* p in Ret tt.
Definition serve (a : AccountActor) : action unit :=
  match a with
  | ARegister d e p n => to_unit (create sha256 bcrypt_hash encrypt column_ok text_int d e p n)
  | APrivacy i dto => to_unit (updatePrivacySettings column_ok text_int i dto)
  | ADelete u i => delete_route audit_cascades u i
  | ABan i a r q d => to_unit (banUser sha256 column_ok text_int i a r q d)
  | AUnban i a q => to_unit (unbanUser sha256 column_ok text_int i a q)
  | ARole i x a r q => to_unit (updateUserRole sha256 column_ok text_int i x a r q)
  | ARemove i a r q => deleteConfession sha256 i a r q
  | AHide i a r q => to_unit (hideConfession sha256 i a r q)
  | AUnhide i a q => to_unit (unhideConfession sha256 i a q)
  | AAround c u o l => writes (fun w => w <| ac_clock := c |> <| ac_audit_up := u |> <| ac_outside := o |> <| ac_links := l |>)
  end.

(** What the requests ask for. *)
Definition asked_grant (reqs : gmap positive AccountActor) (i j : Z) : Prop :=
  exists t reason request, reqs !! t = Some (ARole i "admin" j reason request).
Definition asked_deletion (reqs : gmap positive AccountActor) (j : Z) : Prop :=
  exists t u s, reqs !! t = Some (ADelete u s) /\ q_id u = j.

Lemma tame_serve w0 reqs t a : reqs !! t = Some a ->
  let inv := power_inv w0 (asked_grant reqs) (asked_deletion reqs) in
  let guar := power_guar w0 (asked_grant reqs) (asked_deletion reqs) in
  tame (E := account_error) inv guar (serve a).
Proof.
  intros Ht inv guar. assert (forall A (p : action A), tame inv guar p -> tame inv guar (to_unit p)) as Hdone
    by (intros A p Hp; apply tame_bind; [done|intros _; apply tame_ret]).
  destruct a; cbn [serve].
  1, 2, 4, 5, 8, 9: apply Hdone; first [apply tame_create|apply tame_privacy|apply tame_ban|apply tame_unban|apply tame_change].
  - unfold delete_route, owned. apply tame_bind; [apply tame_outcome|intros _; apply tame_delete_account]. by exists t, user, userId.
  - apply Hdone, tame_role. intros ->. by exists t, reason, request.
  - apply tame_bind; [apply tame_change|intros _; apply tame_ret].
  - apply tame_writes, keeps_accounts; done.
Qed.


(** ** Decisions *)

(** What a decision sets of which account. *)
Definition decides (a : AccountActor) : option (Z * Z * string * json) :=
  match a with
  | ABan i admin _ _ _ => Some (i, admin, "is_active", JBool false)
  | AUnban i admin _ => Some (i, admin, "is_active", JBool true)
  | ARole i role admin _ _ => Some (i, admin, "role", JStr role)
  | _ => None
  end.
(** A row with one column set. *)
Definition sets (k : string) (v : json) (r r' : row) : Prop :=
  r' !! k = Some v /\ forall k', includes k' USER_COLUMNS = true -> k' <> k -> r' !! k' = r !! k'.
(** One entry more, that names the account and who decided. *)
Definition one_entry (i admin : Z) (w w' : AccountDB) : Prop :=
  exists m, ac_audit w' = ac_audit w ++ [m] /\ al_entityType (mr_row m) = Some "user" /\ al_entityId (mr_row m) = Some (pretty i)
            /\ al_adminId (mr_row m) = Some admin.
Definition rest_kept (w w' : AccountDB) : Prop :=
  w' = w <| ac_users := ac_users w' |> <| ac_seq := ac_seq w' |> <| ac_audit := ac_audit w' |>.
Definition decided_on (i admin : Z) (k : string) (v : json) (w w' : AccountDB) : Prop :=
  exists r r', ac_users w !! i = Some r /\ ac_users w' = <[i := r']> (ac_users w) /\ sets k v r r' /\ one_entry i admin w w' /\ rest_kept w w'.

Lemma run_the_user i w : run (the_user i) w = (match ac_users w !! i with Some r => Ok r | None => Exn user_missing end, w).
Proof. unfold the_user, findById. rewrite run_bind, run_reads, run_of_option. done. Qed.

Lemma run_commit i admin a md notes req k v r w o w' :
  users_ok w -> ac_users w !! i = Some r -> includes k USER_COLUMNS = true -> k <> "id" ->
  run (commit admin (user_entry sha256 admin a i md notes req) (save_row (<[k := v]> r))) w = (o, w') ->
  match o with Ok _ => decided_on i admin k v w w' | Exn _ => w' = w end.
Proof.
  intros Hok Hr Hk Hid. unfold commit. rewrite run_attempts. destruct (save_row _ w) as [[r'|x] w1] eqn:Hs; [|by intros [= <- <-]].
  destruct (add_entry _ _ w1) as [[u|x] w2] eqn:He; [|by intros [= <- <-]]. intros [= <- <-].
  apply save_spec in Hs as (Hrest & [(Hx & _)|(j & base & s & [= <-] & -> & Hu & Hat & _)]); [by destruct Hx|].
  assert (Hcol : col "id" (<[k := v]> r) = id_of i) by (unfold col; by rewrite lookup_insert_ne, (Hok i r Hr)).
  unfold saved_at in Hat. rewrite Hcol, as_int_id in Hat. destruct Hat as [(_ & _ & _ & H)|(Hb & [= <-])]; [done|]. rewrite Hr in Hb. subst base.
  unfold add_entry in He. destruct (_ && _) eqn:Hup; [|done]. injection He as <- <-.
  eexists r, _. split; [done|]. split; [exact Hu|]. split; [split|split].
  - rewrite saved_lookup by done. by rewrite lookup_insert_eq.
  - intros k' Hc Hne. destruct (decide (k' = "id")) as [->|Hnid]; [rewrite lookup_insert_eq; by rewrite (Hok i r Hr)|].
    rewrite saved_lookup, lookup_insert_ne by done. destruct (r !! k') eqn:E; [done|exact E].
  - assert (ac_audit w1 = ac_audit w) as Ha by (unfold same_rest in Hrest; rewrite Hrest; by destruct w).
    eexists. split; [cbn; rewrite Ha; reflexivity|]. done.
  - unfold rest_kept. unfold same_rest in Hrest. rewrite Hrest. by destruct w.
Qed.

Lemma json_string_id (i : Z) : json_string (id_of i) = pretty i.
Proof. unfold id_of. cbn [json_string]. rewrite number_string_int. by destruct i. Qed.
Lemma truthy_pretty (i : Z) : truthy (pretty i) = true.
Proof.
  destruct (Z.ltb_spec i 0) as [Hn|Hn].
  - by destruct i.
  - destruct (pretty_digit i Hn) as (c & s & -> & _). done.
Qed.
Lemma security_target (i : Z) md : or_null (match field "targetUserId" (("targetUserId", id_of i) :: md) with Some v => Some (json_string v) | None => None end) = Some (pretty i).
Proof. change (or_null (Some (json_string (id_of i))) = Some (pretty i)). rewrite json_string_id. unfold or_null, truthy_opt. cbn. by rewrite truthy_pretty. Qed.

(** C24. A decision on an account (a ban, its end, a change of role) and its entry in the
    audit log are one: when it succeeds the account has the one column set and every other
    column, account and table as before, and the log one entry more that names both; when
    it fails the accounts are as before, and so is the log, but for the entry that says an
    administrator tried to change their own role.  A role that is had already changes
    nothing. *)
Theorem decision_atomic a i admin k v w o w' :
  decides a = Some (i, admin, k, v) -> users_ok w -> run (serve a) w = (o, w') ->
  match o with
  | Ok _ => decided_on i admin k v w w' \/ w' = w /\ k = "role"
  | Exn _ => w' = w \/ i = admin /\ k = "role" /\ one_entry i admin w w' /\ ac_users w' = ac_users w /\ rest_kept w w'
  end.
Proof.
  intros Ha Hok. destruct a; try done; injection Ha as <- <- <- <-; cbn [serve]; unfold to_unit; rewrite run_bind.
  - unfold banUser. rewrite run_bind, run_the_user. destruct (ac_users w !! userId) as [r|] eqn:Hr; [|intros [= <- <-]; by left].
    destruct (negb (is_on r)); [intros [= <- <-]; by left|]. rewrite run_bind, run_reads.
    destruct (run (commit _ _ _) w) as [o1 w1] eqn:Hc. eapply run_commit in Hc; [|done..].
    destruct o1; intros [= <- <-]; auto.
  - unfold unbanUser. rewrite run_bind, run_the_user. destruct (ac_users w !! userId) as [r|] eqn:Hr; [|intros [= <- <-]; by left].
    destruct (is_on r); [intros [= <- <-]; by left|].
    destruct (run (commit _ _ _) w) as [o1 w1] eqn:Hc. eapply run_commit in Hc; [|done..].
    destruct o1; intros [= <- <-]; auto.
  - unfold updateUserRole. destruct (negb (includes role ROLES)); [intros [= <- <-]; by left|]. destruct (Z.eqb_spec userId adminId) as [->|Hne].
    + rewrite run_bind. unfold logSecurityEvent, logAction. rewrite run_try_catch, run_attempts. unfold add_entry.
      destruct (_ && _); intros [= <- <-]; [right|by left]. split; [done|]. split; [done|]. split; [|by destruct w].
      eexists. split; [done|]. split; [done|]. split; [|done]. exact (security_target adminId [("attemptedRole", JStr role); ("reason", json_opt_str (or_null reason))]).
    + rewrite run_bind, run_the_user. destruct (ac_users w !! userId) as [r|] eqn:Hr; [|intros [= <- <-]; by left].
      destruct (_ =s? role); [intros [= <- <-]; by right|]. destruct ((role =s? "admin") && _); [intros [= <- <-]; by left|].
      destruct (run (commit _ _ _) w) as [o1 w1] eqn:Hc. eapply run_commit in Hc; [|done..].
      destruct o1; intros [= <- <-]; auto.
Qed.

(** ** Registration *)

Definition has_hash (email : string) (w : AccountDB) : bool :=
  bool_decide (is_Some (find_row (fun r => is_text (sha256 (to_lower (trim (to_lower (trim email))))) (col "emailHash" r)) w)).
Definition has_name (username : string) (w : AccountDB) : bool :=
  bool_decide (is_Some (find_row (fun r => is_text (trim username) (col "username" r)) w)).
(** The row of a new account, and the conditions of the table on it. *)
Definition new_row (d : Draws) (email password username : string) (w : AccountDB) : row :=
  <["id" := id_of (ac_seq w + 1)]> (columns (account_of sha256 bcrypt_hash encrypt d (to_lower (trim email)) password username) ∪ USER_DEFAULTS (ac_clock w)).
Definition storable (r : row) (w : AccountDB) : bool :=
  negb (bool_decide (is_Some (ac_users w !! (ac_seq w + 1)))) && typed column_ok r && negb (taken (ac_seq w + 1) r w).

Lemma save_new d email password username w :
  let e := account_of sha256 bcrypt_hash encrypt d (to_lower (trim email)) password username in
  let r := new_row d email password username w in
  match save_row e w with
  | (Ok s, w1) => s = r /\ storable r w = true /\ ac_users w1 = <[ac_seq w + 1 := r]> (ac_users w) /\ same_rest w w1
  | (Exn _, w1) => storable r w = false /\ ac_users w1 = ac_users w
  end.
Proof.
  cbn zeta. unfold Accounts.save_row. unfold col at 1. rewrite account_of_col by done. cbn [default].
  set (v := w <| ac_seq := ac_seq w + 1 |>). unfold storable.
  change (match (match ac_users w !! (ac_seq w + 1) with
                 | Some _ => (Exn UniqueViolation, v)
                 | None => put (ac_seq w + 1) (columns (account_of sha256 bcrypt_hash encrypt d (to_lower (trim email)) password username)
                                                ∪ USER_DEFAULTS (ac_clock w)) v
                 end) with
          | (Ok s, w1) => s = new_row d email password username w /\ negb (bool_decide (is_Some (ac_users w !! (ac_seq w + 1))))
              && typed column_ok (new_row d email password username w) && negb (taken (ac_seq w + 1) (new_row d email password username w) w) = true
              /\ ac_users w1 = <[ac_seq w + 1 := new_row d email password username w]> (ac_users w) /\ same_rest w w1
          | (Exn _, w1) => negb (bool_decide (is_Some (ac_users w !! (ac_seq w + 1))))
              && typed column_ok (new_row d email password username w) && negb (taken (ac_seq w + 1) (new_row d email password username w) w) = false
              /\ ac_users w1 = ac_users w
          end).
  destruct (ac_users w !! (ac_seq w + 1)) as [s|]; [done|]. unfold Accounts.put. fold (new_row d email password username w).
  destruct (typed column_ok _); cbn [negb andb]; [|done].
  change (taken (ac_seq w + 1) (new_row d email password username w) v) with (taken (ac_seq w + 1) (new_row d email password username w) w).
  destruct (taken _ _ w); [done|]. split_and!; [done|done|done|by destruct w].
Qed.

(** C36. A registration answers with an account exactly when neither the address nor the name
    is known and the table takes the row, and so even while the analytics and the mail
    service are down.  The account is the next number, stored with the hash of the
    address, its encryption and the hash of the password, and is a plain active account;
    no other row changes.  Otherwise the accounts are as before and a known address or
    name is a conflict that says which. *)
Theorem registration_spec d email password username w :
  let r := new_row d email password username w in
  match run (create sha256 bcrypt_hash encrypt column_ok text_int d email password username) w with
  | (Ok s, w') =>
      has_hash email w = false /\ has_name username w = false /\ storable r w = true
      /\ s = r /\ ac_users w' = <[ac_seq w + 1 := r]> (ac_users w)
      /\ col "id" r = id_of (ac_seq w + 1) /\ col "role" r = JStr "user" /\ col "is_active" r = JBool true
      /\ ac_audit w' = ac_audit w /\ ac_confessions w' = ac_confessions w
  | (Exn x, w') =>
      ac_users w' = ac_users w /\
      (has_hash email w = true /\ x = AppError "An account with this email already exists." (Some "email")
       \/ has_hash email w = false /\ has_name username w = true /\ x = AppError "This username is already taken." (Some "username")
       \/ has_hash email w = false /\ has_name username w = false /\ storable r w = false)
  end.
Proof.
  cbn zeta. unfold create, findByEmail, findByUsername, has_hash, has_name. rewrite run_bind, run_reads. destruct (find_row _ w) as [s|]; [by split; [|left]|].
  rewrite run_bind, run_reads. destruct (find_row _ w) as [s|]; [by split; [|right; left]|].
  rewrite run_try_catch, run_bind. unfold save. rewrite run_attempts. pose proof (save_new d email password username w) as Hs. cbn zeta in Hs.
  destruct (save_row _ w) as [[s|x] w1].
  - destruct Hs as (-> & Hst & Hu & Hrest). set (r := new_row _ _ _ _ _) in *.
    assert (forall k, k <> "id" -> includes k USER_COLUMNS = true ->
      includes k ["emailEncrypted"; "emailIv"; "emailTag"; "emailHash"; "password"; "username"] = false -> col k r = col k (USER_DEFAULTS (ac_clock w))) as Hcol
      by (intros k H1 H2 H3; unfold r, new_row; apply col_default; [done|done|by apply account_of_col]).
    assert (ac_audit w1 = ac_audit w /\ ac_confessions w1 = ac_confessions w) as [Ha Hc]
      by (unfold same_rest in Hrest; rewrite Hrest; by destruct w).
    rewrite run_bind, run_try_catch. unfold record_event. rewrite run_attempts.
    destruct (ac_outside w1) eqn:Ho1; cbn [run]; rewrite run_bind, run_try_catch; unfold sendWelcomeEmail; rewrite run_attempts; cbn [ac_outside set_field];
      rewrite ?Ho1; cbn [run]; (split; [done|split; [done|split; [done|split; [done|]]]]); cbn;
      (split; [done|]); (split; [unfold col, r, new_row; by rewrite lookup_insert_eq|]); rewrite !Hcol by done; done.
  - destruct Hs as [Hst Hu]. destruct x; cbn; (split; [done|by right; right]).
Qed.

(** ** What an account is shown *)

Lemma confessions_of_none w : confessions_of [] w = [].
Proof. unfold confessions_of. by induction (map snd (map_to_list (ac_confessions w))). Qed.

(** The pages of the history of an account, read one after the other, are its
    confessions that are neither deleted nor hidden, each once and the newest first, and
    nothing of anybody else: every page is answered, and says how many there are. *)
Theorem history_pages i limit w r items :
  ac_users w !! i = Some r ->
  all_ok (history_item aesKey w) (insertion_sort newest (shown_confessions (anonIds i w) w)) = Ok items ->
  let L := Z.to_nat (Z.min (Z.max 1 limit) 25) in
  let N := ((length items + L - 1) / L)%nat in
  (forall p, (1 <= p)%nat -> exists s, run (getProfileSummary aesKey badge i (Z.of_nat p) limit) w = (Ok s, w)
     /\ su_data s = page_of p L items /\ me_total (su_meta s) = length items /\ me_totalPages (su_meta s) = N)
  /\ flat_map (fun p => page_of p L items) (seq 1 N) = items
  /\ (forall h, h ∈ items -> exists c, (exists k, ac_confessions w !! k = Some c) /\ c_anonymousUserId c ∈ anonIds i w
       /\ c_isDeleted c = false /\ c_isHidden c = false /\ hi_id h = c_id c /\ decryptConfession (c_message c) aesKey = Ok (hi_message h)).
Proof.
  intros Hr Hitems L N. assert (1 <= L)%nat as HL by (unfold L; lia). apply all_ok_Forall2 in Hitems.
  assert (length (shown_confessions (anonIds i w) w) = length items) as Hlen
    by (rewrite <- (Forall2_length _ _ _ Hitems); symmetry; apply Permutation_length, insertion_sort_perm).
  split; [|split; [by apply pages_all|]].
  - intros p Hp. unfold getProfileSummary. rewrite run_bind, run_the_user, Hr, run_bind, run_reads.
    destruct (length (anonIds i w) =? 0)%nat eqn:Hn.
    + apply Nat.eqb_eq, nil_length_inv in Hn. assert (items = []) as Hi.
      { apply nil_length_inv. rewrite <- Hlen. unfold shown_confessions, kept_confessions. by rewrite Hn, confessions_of_none. }
      eexists. split; [reflexivity|]. unfold N. rewrite Hi. cbn [su_data su_meta me_total me_totalPages length]. split; [unfold page_of; by rewrite skipn_nil, firstn_nil|].
      split; [done|]. by rewrite Nat.div_small by lia.
    + rewrite !run_bind, !run_reads, !run_bind, !run_reads, !run_bind, !run_reads, run_bind, run_of_outcome.
      replace (Z.to_nat (Z.max 1 (Z.of_nat p))) with p by lia. fold L.
      rewrite (proj2 (all_ok_Forall2 _ _ (page_of p L items))) by (unfold page_of; by apply Forall2_take, Forall2_drop).
      eexists. split; [reflexivity|]. cbn [su_data su_meta meta_of me_total me_totalPages]. rewrite Hlen. done.
  - intros h Hh. apply (Forall2_elem_r _ _ _ _ Hitems) in Hh as (c & Hc & Hh). apply elem_of_insertion_sort in Hc.
    unfold shown_confessions, kept_confessions, confessions_of in Hc. rewrite !list_elem_of_In, !filter_In in Hc. destruct Hc as [[[Hc Ho] Hd] Hs].
    exists c. apply list_elem_of_In, list_elem_of_fmap in Hc as ([k c'] & -> & Hk%elem_of_map_to_list).
    split; [by exists k|]. split; [by apply includes_spec|]. split; [by apply negb_true_iff|]. split; [by apply negb_true_iff|].
    unfold history_item in Hh. cbn [snd] in *. destruct (decryptConfession _ _) as [m|e]; [|done]. by injection Hh as <-.
Qed.

(** ** What the code lets through *)

(** The queries of the list of activities name columns the table of reports does not have:
    it is always empty. *)
Theorem activities_never_shown i page limit w :
  reports_columns = REPORT_COLUMNS ->
  run (getUserActivitiesList aesKey reports_columns report_details i page limit) w
  = (Ok ([], {| me_total := 0; me_page := page; me_limit := limit; me_totalPages := 0 |}), w).
Proof.
  intros Hc. unfold getUserActivitiesList, findById. rewrite run_bind, run_reads. destruct (ac_users w !! i); [|done].
  rewrite run_try_catch, run_bind. unfold answered. rewrite run_attempts, Hc. done.
Qed.
(** The list of an account's confessions always fails. *)
Theorem confessions_list_fails i page limit w r : ac_users w !! i = Some r ->
  exists m, run (getUserConfessionsList i page limit) w = (Exn (TypeError m), w).
Proof. intros Hr. unfold getUserConfessionsList, findById. rewrite run_bind, run_reads, Hr. by eexists. Qed.
(** One text that cannot be read fails the page of the history it is on, and the
    dashboard. *)
Theorem unreadable_fails_history i w r c :
  ac_users w !! i = Some r -> head (insertion_sort newest (shown_confessions (anonIds i w) w)) = Some c ->
  (forall m, decryptConfession (c_message c) aesKey <> Ok m) ->
  let failed := TypeError "decryption failed" in
  run (getProfileSummary aesKey badge i 1 10) w = (Exn failed, w) /\ run (getDashboardStats aesKey badge i) w = (Exn failed, w).
Proof.
  intros Hr Hc Hm failed.
  assert (forall limit, run (getProfileSummary aesKey badge i 1 limit) w = (Exn failed, w)) as H; [|split; [apply H|]].
  { intros limit. unfold getProfileSummary. rewrite run_bind, run_the_user, Hr, run_bind, run_reads. destruct (length (anonIds i w) =? 0)%nat eqn:Hn.
    - apply Nat.eqb_eq, nil_length_inv in Hn. unfold shown_confessions, kept_confessions in Hc. by rewrite Hn, confessions_of_none in Hc.
    - rewrite !run_bind, !run_reads, !run_bind, !run_reads, !run_bind, !run_reads, run_bind, run_of_outcome. unfold page_of.
      destruct (insertion_sort newest _) as [|c' cs]; [done|]. injection Hc as ->. change (Z.to_nat (Z.max 1 1)) with 1%nat.
      destruct (Z.to_nat (Z.min (Z.max 1 limit) 25)) as [|n] eqn:HL; [lia|]. cbn [Nat.sub Nat.mul skipn firstn all_ok].
      unfold history_item. destruct (decryptConfession _ _) as [m|e] eqn:He; [by destruct (Hm m)|done]. }
  unfold getDashboardStats. by rewrite run_bind, H.
Qed.
(** An account that once asked for a new password cannot be deleted. *)
Theorem reset_keeps_account i w : i ∈ ac_resets w -> exists e, run (deleteAccount audit_cascades i) w = (Exn e, w).
Proof.
  intros Hi. unfold deleteAccount. rewrite run_bind, run_the_user. destruct (ac_users w !! i); [|by eexists]. rewrite run_attempts.
  replace (existsb (fun j => j =? i) (ac_resets w)) with true; [by eexists|]. symmetry. apply existsb_exists. exists i.
  split; [by apply list_elem_of_In|apply Z.eqb_refl].
Qed.
(** A public profile is the same whatever its owner has chosen. *)
Theorem public_profile_ignores_privacy userId i w r v :
  parseInt userId = Some i -> ac_users w !! i = Some r ->
  let w' := w <| ac_users ::= <[i := <["privacySettings" := v]> r]> |> in
  (run (getPublicProfile badge userId) w').1 = (run (getPublicProfile badge userId) w).1.
Proof.
  intros Hp Hr w'. unfold getPublicProfile. rewrite Hp, !run_bind, !run_the_user.
  assert (ac_users w' !! i = Some (<["privacySettings" := v]> r)) as -> by apply lookup_insert_eq. rewrite Hr, !run_bind, !run_reads, !run_bind, !run_reads.
  cbn [run fst]. unfold col. by rewrite !lookup_insert_ne by done.
Qed.
Lemma save_row_at i e w : col "id" e = id_of i -> save_row e w = put i (columns e ∪ default (USER_DEFAULTS (ac_clock w)) (ac_users w !! i)) w.
Proof. intros Hcol. unfold Accounts.save_row. rewrite Hcol. pose proof (as_int_id i) as Ha. unfold id_of in *. by rewrite Ha. Qed.
(** What the profile route of the service is given is never stored. *)
Theorem profile_not_stored i gender age messages w r :
  ac_users w !! i = Some r -> r !! "id" = Some (id_of i) ->
  match run (updateProfile column_ok text_int i [("gender", gender); ("age", age); ("can_receive_messages", messages)]) w with
  | (Ok r', _) => forall k, includes k USER_COLUMNS = true -> r' !! k = r !! k
  | (Exn _, w') => w' = w
  end.
Proof.
  intros Hr Hid. unfold updateProfile. rewrite run_bind, run_the_user, Hr. unfold save. rewrite run_attempts.
  cbn [assign fold_left fst snd]. set (e := <["can_receive_messages" := messages]> _).
  assert (He : forall k, includes k USER_COLUMNS = true -> e !! k = r !! k).
  { intros k Hk. unfold e. by rewrite !lookup_insert_ne by (by intros <-). }
  destruct (save_row e w) as [o w'] eqn:Hs. assert (col "id" e = id_of i) as Hcol by (unfold col; by rewrite He, Hid).
  rewrite (save_row_at i), Hr in Hs by done.
  destruct (put_spec i (columns e ∪ r) w) as [(x & E)|(E & _)]; change (put i (columns e ∪ r) w = (o, w')) in Hs; rewrite E in Hs; injection Hs as <- <-; [done|].
  intros k Hk. destruct (decide (k = "id")) as [->|Hne]; [by rewrite lookup_insert_eq|]. rewrite saved_lookup, He by done.
  by destruct (r !! k).
Qed.
End safety.

(** ** Witnesses *)

#[local] Existing Instance plain_cbc.
Definition ex_hash (s : string) : string := "h:" +:+ s.
Definition ex_bcrypt (salt pw : string) : string := "b:" +:+ salt +:+ ":" +:+ pw.
Definition ex_cipher (iv s : string) : string * string * string := (s, iv, "tag").
Definition ex_column (k : string) (v : json) : bool :=
  if k =s? "role" then match v with JStr s => includes s ROLES | _ => false end
  else if k =s? "is_active" then match v with JBool _ => true | _ => false end else true.
Definition ex_int (_ : string) : option Z := None.
Definition ex_account (i : Z) (name role : string) : row :=
  <["id" := id_of i]> (<["username" := JStr name]> (<["emailHash" := JStr (ex_hash name)]> (<["role" := JStr role]> (USER_DEFAULTS 0)))).
Definition ex_accounts : AccountDB := {|
  ac_clock := 1000; ac_users := {[1 := ex_account 1 "root" "admin"; 2 := ex_account 2 "ann" "user"; 3 := ex_account 3 "bob" "user"]}; ac_seq := 3;
  ac_links := [(2, "a1")]; ac_confessions := {["c1" := ex_row "c1" 5000 "one"; "c2" := ex_row "c2" 6000 "two"]};
  ac_reactions := []; ac_comments := []; ac_tips := []; ac_reports := []; ac_resets := []; ac_audit := []; ac_audit_up := true;
  ac_templates := ∅; ac_template_seq := 0; ac_events := []; ac_welcomed := []; ac_outside := true |}.
Definition ex_user (i : Z) (r : UserRole) : RequestUser :=
  {| q_id := i; q_username := None; q_email := None; q_role := r; q_scopes := [] |}.
(** The foreign key of the migration. *)
Definition ex_serve := serve ex_hash ex_bcrypt ex_cipher ex_column ex_int true.

Lemma ex_ok : users_ok ex_accounts /\ users_unique ex_accounts.
Proof.
  split; [|by apply unique_check].
  intros i r Hr. cbn [ex_accounts ac_users] in Hr. repeat (apply lookup_insert_Some in Hr as [[<- <-]|[_ Hr]]; [vm_compute; reflexivity|]).
  by apply lookup_singleton_Some in Hr as [<- <-].
Qed.

Definition ex_actors_accounts : gmap positive AccountActor := {[
  1%positive := ARole 2 "admin" 1 None None; 2%positive := ABan 3 1 (Some "spam") None (Some 30);
  3%positive := ARegister {| dr_salt := "s"; dr_iv := "iv" |} "eve@x.org" "Secret1!" "eve" ]}.
Definition ex_granted := run_schedule [1; 2; 3; 3; 2; 3; 1; 2; 3; 3]%positive (ex_accounts, ex_serve <$> ex_actors_accounts).


Definition ex_banned := run (ex_serve (ABan 3 1 (Some "spam") None (Some 30))) ex_accounts.
Lemma decision_atomic_witness :
  decides (ABan 3 1 (Some "spam") None (Some 30)) = Some (3, 1, "is_active", JBool false) /\ ex_banned.1 = Ok tt
  /\ match ex_banned.1 with
     | Ok _ => decided_on 3 1 "is_active" (JBool false) ex_accounts ex_banned.2 \/ ex_banned.2 = ex_accounts /\ "is_active" = "role"
     | Exn _ => ex_banned.2 = ex_accounts \/ 3 = 1 /\ "is_active" = "role" /\ one_entry 3 1 ex_accounts ex_banned.2
                  /\ ac_users ex_banned.2 = ac_users ex_accounts /\ rest_kept ex_accounts ex_banned.2
     end.
Proof.
  split; [done|split; [vm_compute; reflexivity|]].
  apply (decision_atomic ex_hash ex_bcrypt ex_cipher ex_column ex_int true (ABan 3 1 (Some "spam") None (Some 30))); [done|apply ex_ok|].
  apply surjective_pairing.
Defined.

Definition ex_items : list HistoryItem :=
  match all_ok (history_item ex_key ex_accounts) (insertion_sort newest (shown_confessions (anonIds 2 ex_accounts) ex_accounts)) with Ok l => l | Exn _ => [] end.
Lemma history_pages_witness :
  map hi_message ex_items = ["two"; "one"]
  /\ flat_map (fun p => page_of p 1 ex_items) (seq 1 2) = ex_items.
Proof.
  split; [vm_compute; reflexivity|].
  apply (history_pages ex_key None 2 1 ex_accounts (ex_account 2 "ann" "user") ex_items); vm_compute; reflexivity.
Defined.

(** ** What the routes let through *)

(** The settings of one's own account make it an administrator, and nothing is written of
    it. *)
Theorem settings_grant_admin :
  exists r w', run (settings_route ex_column ex_int (ex_user 2 USER) "2" [("role", JStr "admin")]) ex_accounts = (Ok r, w')
  /\ from_option is_admin false (ac_users w' !! 2) = true /\ ac_audit w' = [].
Proof. eexists _, _. split; [vm_compute; reflexivity|]. split; vm_compute; reflexivity. Qed.
(** With the number of another account they overwrite that one. *)
Theorem settings_take_over :
  exists r w', run (settings_route ex_column ex_int (ex_user 2 USER) "2"
      [("id", id_of 1); ("username", JStr "root2"); ("emailHash", JStr "mine"); ("password", JStr "b:s:known")]) ex_accounts = (Ok r, w')
  /\ (col "password" <$> ac_users w' !! 1) = Some (JStr "b:s:known") /\ ac_users w' !! 2 = ac_users ex_accounts !! 2.
Proof. eexists _, _. split; [vm_compute; reflexivity|]. split; vm_compute; reflexivity. Qed.
(** An administrator who deletes the account of another deletes their own. *)
Theorem delete_takes_the_admin :
  exists w', run (delete_route true (ex_user 1 ADMIN) "2") ex_accounts = (Ok tt, w') /\ ac_users w' !! 1 = None /\ ac_users w' !! 2 = ac_users ex_accounts !! 2.
Proof. eexists. split; [vm_compute; reflexivity|]. split; vm_compute; reflexivity. Qed.
(** With the foreign key of the migration, a deleted administrator takes along what the
    log says of the powers they gave. *)
Theorem deletion_erases_grant :
  let w := (run (ex_serve (ARole 2 "admin" 1 None None)) ex_accounts).2 in
  let w' := (run (ex_serve (ADelete (ex_user 1 ADMIN) "1")) w).2 in
  from_option is_admin false (ac_users w' !! 2) = true /\ length (ac_audit w) = 1%nat /\ ac_audit w' = [].
Proof. vm_compute. done. Qed.
(** A change of role that overlaps a ban undoes it. *)
Theorem role_change_undoes_ban :
  let s := run_schedule [1; 2; 2; 2; 1]%positive
             (ex_accounts, ex_serve <$> {[1%positive := ARole 3 "moderator" 1 None None; 2%positive := ABan 3 1 None None None]}) in
  s.2 !! 1%positive = Some (Ret tt) /\ s.2 !! 2%positive = Some (Ret tt) /\ (col "is_active" <$> ac_users s.1 !! 3) = Some (JBool true).
Proof. vm_compute. done. Qed.
(** And a ban that overlaps the end of an administrator's role gives it back. *)
Theorem ban_restores_admin :
  let w := (run (ex_serve (ARole 2 "admin" 1 None None)) ex_accounts).2 in
  let s := run_schedule [1; 2; 2; 1; 1]%positive
             (w, ex_serve <$> {[1%positive := ABan 2 1 None None None; 2%positive := ARole 2 "user" 1 None None]}) in
  s.2 !! 1%positive = Some (Ret tt) /\ s.2 !! 2%positive = Some (Ret tt) /\ (col "role" <$> ac_users s.1 !! 2) = Some (JStr "admin").
Proof. vm_compute. done. Qed.
