(* ===== verification/Drafts.v ===== *)
(** * Drafts of confessions

    [src/xconfess-backend/src/confession-draft/confession-draft.service.ts] and the jobs of
    [confession-draft.queue.ts]: drafts with their revisions, schedules and publication.  A
    job that publishes holds the lock of its row and is one access; the other requests read
    and save apart.  How texts are read as times, and the version a save gives a row that
    changed since it was read, are parameters; the service that creates a confession
    sanitizes a text, and may refuse it for reasons of its own. *)
From stdpp Require Import pretty.
From S2P Require Import Prelude Numbers Json Effects Base64 ContentEncryption.
Open Scope Z_scope.

(** ** Data *)

(** [src confession-draft/entities/confession-draft.entity.ts:14-18 ConfessionDraftStatus] *)
Inductive DraftStatus := DRAFT | SCHEDULED | POSTED.
#[export] Instance DraftStatus_eq_dec : EqDecision DraftStatus.
Proof. solve_decision. Defined.
Record Revision := { rv_content : string; rv_version : Z; rv_createdAt : ms }.
#[export] Instance Revision_eq_dec : EqDecision Revision.
Proof. solve_decision. Defined.
(** [src confession-draft/entities/confession-draft.entity.ts:20-71 ConfessionDraft] *)
Record ConfessionDraft := {
  d_id : string; d_userId : Z; d_content : string; d_category : option string; d_scheduledFor : option ms; d_timezone : option string;
  d_status : DraftStatus; d_publishAttempts : Z; d_lastPublishError : option string; d_updatedAt : ms; d_version : Z; d_revisions : list Revision }.
#[export] Instance ConfessionDraft_eq_dec : EqDecision ConfessionDraft.
Proof. solve_decision. Defined.
#[export] Instance eta_ConfessionDraft : Eta ConfessionDraft := fun d => {|
  d_id := d_id d; d_userId := d_userId d; d_content := d_content d; d_category := d_category d; d_scheduledFor := d_scheduledFor d;
  d_timezone := d_timezone d; d_status := d_status d; d_publishAttempts := d_publishAttempts d; d_lastPublishError := d_lastPublishError d;
  d_updatedAt := d_updatedAt d; d_version := d_version d; d_revisions := d_revisions d |}.

(** The drafts, the texts that were made confessions, what the confession service refuses
    and why, and the jobs of the queue that publish a draft. *)
Record DraftDB := { dd_clock : ms; dd_rows : gmap string ConfessionDraft; dd_posted : list string; dd_refuses : string -> option string; dd_jobs : list string }.
#[export] Instance eta_DraftDB : Eta DraftDB := fun w => {|
  dd_clock := dd_clock w; dd_rows := dd_rows w; dd_posted := dd_posted w; dd_refuses := dd_refuses w; dd_jobs := dd_jobs w |}.
Inductive draft_error :=
| BadRequest (m : string) | NotFound (m : string) | Forbidden | RemoteDeleted (id : string) | RemoteUpdated (currentVersion : Z)
| Crypto (e : content_error) | Refused (m : string) | QueryFailed.
Abbreviation action := (prog DraftDB draft_error).

(** [src confession-draft/confession-draft.service.ts:29-29 MAX_DRAFTS_PER_USER] *)
Definition MAX_DRAFTS_PER_USER : nat := 10.
(** [src confession-draft/confession-draft.service.ts:30-30 MAX_PUBLISH_ATTEMPTS] *)
Definition MAX_PUBLISH_ATTEMPTS : Z := 5.

Set Default Proof Using "Type".
Section service.
Context {aes : AesCbc} (aesKey : string) (sanitizeHtml : string -> string).
Context (Date_parse : string -> option ms) (in_zone : string -> string -> option ms).
(** The version of a saved row, from that of the entity and that of the row. *)
Context (next_version : Z -> Z -> Z).

Definition of_content {A} (r : outcome content_error A) : action A := match r with Ok a => Ret a | Exn e => Throw (Crypto e) end.
(** [src confession-draft/confession-draft.service.ts:46-61 toUtcDate] *)
Definition toUtcDate (scheduledFor : string) (timezone : option string) : outcome draft_error ms :=
  let trimmed := trim scheduledFor in
  if negb (truthy trimmed) then Exn (BadRequest "scheduledFor is required")
  else match (if truthy_opt timezone then timezone else None) with
       | Some tz => match in_zone trimmed tz with Some t => Ok t | None => Exn (BadRequest "Invalid scheduledFor/timezone") end
       | None => match Date_parse trimmed with Some t => Ok t | None => Exn (BadRequest "Invalid scheduledFor") end
       end.
Fixpoint all_ok {A B} (f : A -> outcome content_error B) (l : list A) : outcome content_error (list B) :=
  match l with
  | [] => Ok []
  | x :: l => match f x with Ok y => match all_ok f l with Ok ys => Ok (y :: ys) | Exn e => Exn e end | Exn e => Exn e end
  end.
Definition readable_revision (r : Revision) : outcome content_error Revision :=
  match decryptConfession (rv_content r) aesKey with
  | Ok m => Ok {| rv_content := m; rv_version := rv_version r; rv_createdAt := rv_createdAt r |}
  | Exn e => Exn e
  end.
(** [src confession-draft/confession-draft.service.ts:63-72 sanitizeForResponse] *)
Definition sanitizeForResponse (d : ConfessionDraft) : outcome content_error ConfessionDraft :=
  match decryptConfession (d_content d) aesKey with
  | Ok content => match all_ok readable_revision (d_revisions d) with Ok rs => Ok (d <| d_content := content |> <| d_revisions := rs |>) | Exn e => Exn e end
  | Exn e => Exn e
  end.

(** [repo.save(draft)] of an entity that was read: the columns that differ from the row are
    written, all those of a stale entity too, a row that is gone is made anew, and nothing
    is written where no column differs. *)
Definition unchanged (d r : ConfessionDraft) : bool := bool_decide (d <| d_version := d_version r |> <| d_updatedAt := d_updatedAt r |> = r).
Definition save_draft (d : ConfessionDraft) (w : DraftDB) : ConfessionDraft * DraftDB :=
  let written v := let d := d <| d_version := v |> <| d_updatedAt := dd_clock w |> in (d, w <| dd_rows ::= <[d_id d := d]> |>) in
  match dd_rows w !! d_id d with
  | Some r => if unchanged d r then (d, w) else written (next_version (d_version d) (d_version r))
  | None => written 1
  end.
Definition save (d : ConfessionDraft) : action ConfessionDraft := access (save_draft d).
Definition drafts_of (userId : Z) (w : DraftDB) : list ConfessionDraft :=
  List.filter (fun d => d_userId d =? userId) (map snd (map_to_list (dd_rows w))).
(** [findOne] and the two checks every request of an owner starts with. *)
Definition own_draft (userId : Z) (id : string) : action ConfessionDraft :=
  let* draft := reads (fun w => dd_rows w !! id) in
  let* d := of_option draft (NotFound "Draft not found") in
  do* guard (d_userId d =? userId) Forbidden in Ret d.
Definition answer (d : ConfessionDraft) : action ConfessionDraft := of_content (sanitizeForResponse d).
Definition limit_reached : draft_error := BadRequest "Draft limit reached (max 10)".
Definition below_limit (userId : Z) : action unit :=
  let* n := reads (fun w => length (drafts_of userId w)) in guard (n <? MAX_DRAFTS_PER_USER)%nat limit_reached.
(** A time that is not past. *)
Definition future (scheduledFor : string) (timezone : option string) : action ms :=
  match toUtcDate scheduledFor timezone with
  | Exn e => Throw e
  | Ok t => let* now := reads dd_clock in do* guard (now <? t) (BadRequest "scheduledFor must be in the future") in Ret t
  end.

(** ** Requests *)

(** What a request draws: the id of a new row, and the vector of an encryption. *)
Record Draws := { dw_id : string; dw_iv : string }.
(** [src confession-draft/confession-draft.service.ts:74-111 createDraft] *)
Definition createDraft (r : Draws) (userId : Z) (content : string) (category scheduledFor timezone : option string) : action ConfessionDraft :=
  do* below_limit userId in
  let* encrypted := of_content (encryptConfession (dw_iv r) content aesKey) in
  let* scheduledForUtc := (if truthy_opt scheduledFor then let* t := future (default "" scheduledFor) timezone in Ret (Some t) else Ret None) in
  let* saved := attempts (fun w =>
    let d := {| d_id := dw_id r; d_userId := userId; d_content := encrypted; d_category := category; d_scheduledFor := scheduledForUtc; d_timezone := timezone;
                d_status := match scheduledForUtc with Some _ => SCHEDULED | None => DRAFT end; d_publishAttempts := 0; d_lastPublishError := None;
                d_updatedAt := dd_clock w; d_version := 1; d_revisions := [] |} in
    if bool_decide (is_Some (dd_rows w !! dw_id r)) then (Exn QueryFailed, w) else (Ok d, w <| dd_rows ::= <[dw_id r := d]> |>)) in
  answer saved.
(** [src confession-draft/confession-draft.service.ts:113-119 listDrafts] *)
Definition listDrafts (userId : Z) : action (list ConfessionDraft) :=
  let* drafts := reads (fun w => insertion_sort (fun a b => d_updatedAt b <=? d_updatedAt a) (drafts_of userId w)) in
  of_content (all_ok sanitizeForResponse drafts).
(** [src confession-draft/confession-draft.service.ts:121-126 getDraft] *)
Definition getDraft (userId : Z) (id : string) : action ConfessionDraft := let* d := own_draft userId id in answer d.
(** [src confession-draft/dto/update-confession-draft.dto.ts:5-11 UpdateConfessionDraftDto]; a
    version may be [null]. *)
Record UpdateConfessionDraftDto := { up_content : option string; up_category : option string; up_version : option (option Z) }.
(** [src confession-draft/confession-draft.service.ts:161-175 updateDraft]: the content that
    is replaced becomes a revision. *)
Definition edited (encrypted : option string) (category : option string) (now : ms) (d : ConfessionDraft) : ConfessionDraft :=
  let d := match encrypted with
           | Some c => d <| d_revisions := firstn 10 ({| rv_content := d_content d; rv_version := d_version d; rv_createdAt := now |} :: d_revisions d) |>
                         <| d_content := c |>
           | None => d
           end in
  match category with Some c => d <| d_category := (if truthy c then Some c else None) |> | None => d end.
(** [src confession-draft/confession-draft.service.ts:128-179 updateDraft] *)
Definition updateDraft (r : Draws) (userId : Z) (id : string) (dto : UpdateConfessionDraftDto) : action ConfessionDraft :=
  let* draft := reads (fun w => dd_rows w !! id) in
  match draft with
  | None => Throw (match up_version dto with Some _ => RemoteDeleted id | None => NotFound "Draft not found" end)
  | Some d =>
      if negb (d_userId d =? userId) then Throw Forbidden
      else if bool_decide (d_status d = POSTED) then Throw (BadRequest "Cannot edit a posted draft")
      else if match up_version dto with Some v => negb (bool_decide (v = Some (d_version d))) | None => false end then
        do* answer d in Throw (RemoteUpdated (d_version d))
      else
        let* encrypted := (match up_content dto with
                           | Some c => let* x := of_content (encryptConfession (dw_iv r) c aesKey) in Ret (Some x)
                           | None => Ret None
                           end) in
        let* now := reads dd_clock in
        let* saved := save (edited encrypted (up_category dto) now d) in
        answer saved
  end.
(** [src confession-draft/confession-draft.service.ts:181-194 autoSaveDraft] *)
Definition autoSaveDraft (r : Draws) (userId : Z) (id : option string) (dto : UpdateConfessionDraftDto) : action ConfessionDraft :=
  if truthy_opt id then updateDraft r userId (default "" id) dto
  else match up_content dto with
       | Some c => if truthy (trim c) then createDraft r userId c (up_category dto) None None else Throw (BadRequest "content is required")
       | None => Throw (BadRequest "content is required")
       end.
(** [src confession-draft/confession-draft.service.ts:196-202 deleteDraft] *)
Definition deleteDraft (userId : Z) (id : string) : action unit :=
  let* d := own_draft userId id in writes (fun w => w <| dd_rows ::= delete (d_id d) |>).
(** [src confession-draft/confession-draft.service.ts:204-208 deleteAllDrafts] *)
Definition deleteAllDrafts (userId : Z) : action unit :=
  let* drafts := reads (drafts_of userId) in for_each drafts (fun d => writes (fun w => w <| dd_rows ::= delete (d_id d) |>)).
(** [src confession-draft/confession-draft.service.ts:210-235 scheduleDraft] *)
Definition scheduleDraft (userId : Z) (id scheduledFor : string) (timezone : option string) : action ConfessionDraft :=
  let* d := own_draft userId id in
  do* guard (negb (bool_decide (d_status d = POSTED))) (BadRequest "Cannot schedule a posted draft") in
  let* t := future scheduledFor timezone in
  let* saved := save (d <| d_scheduledFor := Some t |> <| d_timezone := (match timezone with Some z => Some z | None => d_timezone d end) |>
                        <| d_status := SCHEDULED |>) in
  answer saved.
(** [src confession-draft/confession-draft.service.ts:237-251 cancelSchedule] *)
Definition cancelSchedule (userId : Z) (id : string) : action ConfessionDraft :=
  let* d := own_draft userId id in
  do* guard (bool_decide (d_status d = SCHEDULED)) (BadRequest "Draft is not scheduled") in
  let* saved := save (d <| d_scheduledFor := None |> <| d_status := DRAFT |>) in answer saved.
Definition published (d : ConfessionDraft) : ConfessionDraft :=
  d <| d_status := POSTED |> <| d_scheduledFor := None |> <| d_publishAttempts := 0 |> <| d_lastPublishError := None |>.
(** [src confession/confession.service.ts:116-140 create]: the text a confession is made of. *)
Definition confession_text (message : string) : outcome draft_error string :=
  let msg := trim (sanitizeHtml message) in
  if negb (truthy msg) then Exn (BadRequest "Invalid confession content")
  else if (1000 <? String.length msg)%nat
  then Exn (BadRequest ("Confession cannot exceed 1000 characters (received " +:+ pretty (String.length msg) +:+ ")"))
  else Ok msg.
(** [confessionService.create({ message }, manager)]: what follows may refuse the text. *)
Definition create_confession (message : string) : action unit :=
  let* msg := of_outcome (confession_text message) in
  attempts (fun w => match dd_refuses w msg with
                     | Some e => (Exn (Refused e), w)
                     | None => (Ok tt, w <| dd_posted ::= fun l => l ++ [msg] |>)
                     end).
(** [src confession-draft/confession-draft.service.ts:253-278 publishNow]: the draft is read,
    then the confession and the draft are committed. *)
Definition publishNow (userId : Z) (id : string) : action ConfessionDraft :=
  let* d := own_draft userId id in
  do* guard (negb (bool_decide (d_status d = POSTED))) (BadRequest "Draft already posted") in
  let* message := of_content (decryptConfession (d_content d) aesKey) in
  transaction (do* create_confession message in let* saved := save (published d) in answer saved).
(** [src confession-draft/confession-draft.service.ts:280-303 convertPostedToDraft] *)
Definition convertPostedToDraft (userId : Z) (id : string) : action ConfessionDraft :=
  let* d := own_draft userId id in
  do* guard (bool_decide (d_status d = POSTED)) (BadRequest "Only posted drafts can be converted") in
  do* below_limit userId in
  let* saved := save (d <| d_status := DRAFT |> <| d_scheduledFor := None |> <| d_lastPublishError := None |> <| d_publishAttempts := 0 |>) in
  answer saved.

(** ** Jobs *)

Definition due (now : ms) (d : ConfessionDraft) : bool :=
  bool_decide (d_status d = SCHEDULED) && match d_scheduledFor d with Some t => t <=? now | None => false end && (d_publishAttempts d <? MAX_PUBLISH_ATTEMPTS).
(** [src confession-draft/confession-draft.service.ts:305-317 enqueueDueDraftIds] *)
Definition enqueueDueDraftIds : action (list string) :=
  reads (fun w => map d_id (firstn 200 (insertion_sort (fun a b => default 0 (d_scheduledFor a) <=? default 0 (d_scheduledFor b))
                                          (List.filter (due (dd_clock w)) (map snd (map_to_list (dd_rows w))))))).
Definition error_text (e : draft_error) : string := match e with Refused m | BadRequest m | NotFound m => m | _ => "Unknown error" end.
(** [src confession-draft/confession-draft.service.ts:319-354 publishScheduledDraftById] *)
Definition publishScheduledDraftById (draftId : string) : action unit :=
  transaction
    (let* draft := reads (fun w => dd_rows w !! draftId) in
     let* now := reads dd_clock in
     match draft with
     | None => Ret tt
     | Some d =>
         if due now d then
           try_catch
             (let* message := of_content (decryptConfession (d_content d) aesKey) in
              do* create_confession message in
              do* save (published d) in Ret tt)
             (fun e =>
                do* save (d <| d_publishAttempts := d_publishAttempts d + 1 |> <| d_lastPublishError := Some (error_text e) |>) in
                Throw e)
         else Ret tt
     end).
(** [src confession-draft/confession-draft.queue.ts:37-56 worker]: the two kinds of jobs; a
    text that is no id is no job. *)
Definition publish_due : action nat :=
  let* ids := enqueueDueDraftIds in
  do* for_each ids (fun i => writes (fun w => w <| dd_jobs ::= fun l => l ++ [i] |>)) in
  Ret (length ids).
(** [src confession-draft/confession-draft.queue.ts:58-67 worker] *)
Definition publish_one (id : string) : action unit := if truthy id then publishScheduledDraftById id else Ret tt.

(** ** What is answered and stored *)

Lemma run_of_content {A} (r : outcome content_error A) w : run (of_content r) w = (match r with Ok a => Ok a | Exn e => Exn (Crypto e) end, w).
Proof. by destruct r. Qed.
Lemma run_save d w : run (save d) w = (Ok (save_draft d w).1, (save_draft d w).2).
Proof. apply run_access. Qed.

Lemma unchanged_status d r : d_status d <> d_status r -> unchanged d r = false.
Proof. intros H. apply bool_decide_eq_false. intros Heq. apply H. by rewrite <- Heq. Qed.
Lemma save_changed d r w :
  dd_rows w !! d_id d = Some r -> unchanged d r = false ->
  let d' := d <| d_version := next_version (d_version d) (d_version r) |> <| d_updatedAt := dd_clock w |> in
  save_draft d w = (d', w <| dd_rows ::= <[d_id d := d']> |>).
Proof. intros Hr Hc. unfold save_draft. by rewrite Hr, Hc. Qed.

Lemma save_published i d w :
  dd_rows w !! i = Some d -> d_id d = i -> d_status d <> POSTED ->
  exists d', (save_draft (published d) w).2 = w <| dd_rows ::= <[i := d']> |> /\ d_id d' = i /\ d_status d' = POSTED.
Proof.
  intros Hd Hi Hs. rewrite (save_changed (published d) d) by (cbn; rewrite ?Hi; done || by apply unchanged_status).
  cbn. rewrite Hi. by eexists.
Qed.
Lemma all_ok_firstn {A B} (f : A -> outcome content_error B) l ys n : all_ok f l = Ok ys -> all_ok f (firstn n l) = Ok (firstn n ys).
Proof.
  revert ys n. induction l as [|x l IH]; intros ys n; cbn; [intros [= <-]; by destruct n|].
  destruct (f x) as [y|] eqn:Hx; [|done]. destruct (all_ok f l) as [l'|] eqn:Hl; [|done]. intros [= <-]. destruct n as [|n]; [done|]. cbn. by rewrite Hx, (IH l' n).
Qed.

(** A publication, on the world it finds. *)
Definition publication (draftId : string) (w : DraftDB) : outcome draft_error unit * DraftDB :=
  match dd_rows w !! draftId with
  | None => (Ok tt, w)
  | Some d =>
      if due (dd_clock w) d then
        match decryptConfession (d_content d) aesKey with
        | Exn e => (Exn (Crypto e), w)
        | Ok message =>
            match confession_text message with
            | Exn e => (Exn e, w)
            | Ok msg =>
                match dd_refuses w msg with
                | Some e => (Exn (Refused e), w)
                | None => (Ok tt, (save_draft (published d) (w <| dd_posted ::= fun l => l ++ [msg] |>)).2)
                end
            end
        end
      else (Ok tt, w)
  end.
Lemma run_publication i w : run (publishScheduledDraftById i) w = publication i w.
Proof.
  unfold publishScheduledDraftById, publication. rewrite run_transaction, run_bind, run_reads, run_bind, run_reads.
  destruct (dd_rows w !! i) as [d|]; [|done]. destruct (due _ d); [|done]. rewrite run_try_catch, run_bind, run_of_content.
  destruct (decryptConfession _ _) as [m|e]; [|by rewrite run_bind, run_save].
  rewrite run_bind. unfold create_confession. rewrite run_bind, run_of_outcome. destruct (confession_text m) as [msg|e]; [|by rewrite run_bind, run_save].
  rewrite run_attempts. destruct (dd_refuses w msg) as [e|]; [by rewrite run_bind, run_save|].
  by rewrite run_bind, run_save.
Qed.

(** The attempts of a publication that fails are never counted: the transaction that
    counts them is rolled back by the error it throws on, and the limit is never reached. *)
Theorem failed_attempts_uncounted i w e w' : run (publishScheduledDraftById i) w = (Exn e, w') -> w' = w.
Proof. apply transaction_rollback. Qed.

(** ** Versions *)

(** C32. A versioned update whose version is the row's is stored: it answers the new text under
    the next version, with the text it replaces as the first revision, the draft is read
    back as it was answered, and another update with the version it was based on conflicts
    and changes nothing. *)
Theorem versioned_update r u id c d seen x w :
  dd_rows w !! id = Some d -> d_id d = id -> d_userId d = u -> d_status d <> POSTED -> sanitizeForResponse d = Ok seen ->
  String.length (dw_iv r) = IV_LENGTH -> encryptConfession (dw_iv r) c aesKey = Ok x -> x <> d_content d ->
  next_version (d_version d) (d_version d) = d_version d + 1 ->
  exists d' w', run (updateDraft r u id {| up_content := Some c; up_category := None; up_version := Some (Some (d_version d)) |}) w = (Ok d', w')
    /\ d_content d' = c /\ d_version d' = d_version d + 1
    /\ d_revisions d' = firstn 10 ({| rv_content := d_content seen; rv_version := d_version d; rv_createdAt := dd_clock w |} :: d_revisions seen)
    /\ run (getDraft u id) w' = (Ok d', w')
    /\ forall r2 dto, up_version dto = Some (Some (d_version d)) -> run (updateDraft r2 u id dto) w' = (Exn (RemoteUpdated (d_version d + 1)), w').
Proof.
  intros Hd Hi <- Hs Hseen Hiv Hx Hne Hv. set (e := edited (Some x) None (dd_clock w) d).
  set (s := e <| d_version := d_version d + 1 |> <| d_updatedAt := dd_clock w |>). set (w' := w <| dd_rows ::= <[id := s]> |>).
  assert (save_draft e w = (s, w')) as Hsave.
  { rewrite (save_changed e d); [|by change (d_id e) with (d_id d); rewrite Hi|].
    - change (d_version e) with (d_version d). rewrite Hv. unfold w', s. cbn. by rewrite Hi.
    - apply bool_decide_eq_false. intros Heq. apply Hne. by rewrite <- Heq. }
  assert (exists a, sanitizeForResponse s = Ok a /\ d_content a = c /\ d_version a = d_version d + 1
    /\ d_revisions a = firstn 10 ({| rv_content := d_content seen; rv_version := d_version d; rv_createdAt := dd_clock w |} :: d_revisions seen))
    as (a & Ha & Hac & Hav & Har).
  { unfold sanitizeForResponse in *. change (d_content s) with x. rewrite (decrypt_encryptConfession _ c aesKey x) by done.
    destruct (decryptConfession (d_content d) aesKey) as [t|] eqn:Ht; [|done]. destruct (all_ok _ (d_revisions d)) as [rs|] eqn:Hrs; [|done]. injection Hseen as <-.
    change (d_revisions s) with (firstn 10 ({| rv_content := d_content d; rv_version := d_version d; rv_createdAt := dd_clock w |} :: d_revisions d)).
    rewrite (all_ok_firstn _ _ ({| rv_content := t; rv_version := d_version d; rv_createdAt := dd_clock w |} :: rs)); [by eexists|].
    cbn. unfold readable_revision at 1. cbn. by rewrite Ht, Hrs. }
  assert (Hrow : dd_rows w' !! id = Some s) by apply lookup_insert_eq.
  exists a, w'. split; [|split; [done|split; [done|split; [done|split]]]].
  - unfold updateDraft. rewrite run_bind, run_reads, Hd, Z.eqb_refl, bool_decide_eq_false_2 by done. cbn [negb up_version up_content up_category].
    rewrite bool_decide_eq_true_2 by done. cbn [negb]. rewrite run_bind, run_bind, run_of_content, Hx. cbn [run bind]. rewrite run_bind, run_reads, run_bind, run_save.
    change (edited _ _ _ d) with e. rewrite Hsave.
    cbn [fst snd]. unfold answer. by rewrite run_of_content, Ha.
  - unfold getDraft, own_draft. rewrite !run_bind, run_reads, Hrow. cbn [of_option]. cbn. rewrite Z.eqb_refl. cbn. unfold answer. by rewrite run_of_content, Ha.
  - intros r2 dto Hdto. unfold updateDraft. rewrite run_bind, run_reads, Hrow, Hdto. change (d_userId s) with (d_userId d). change (d_status s) with (d_status d).
    rewrite Z.eqb_refl, bool_decide_eq_false_2 by done. cbn [negb]. change (d_version s) with (d_version d + 1).
    rewrite bool_decide_eq_false_2 by (intros [= H]; lia). cbn [negb]. rewrite run_bind. unfold answer. by rewrite run_of_content, Ha.
Qed.

(** ** Jobs that publish *)

Section jobs.
Context (w0 : DraftDB).
Definition rows_ok (w : DraftDB) : Prop := forall i d, dd_rows w !! i = Some d -> d_id d = i.
(** The draft [i] was scheduled and held a text that makes the confession [t], and is posted. *)
Definition was_published (w : DraftDB) (i t : string) : Prop :=
  exists d d' m, dd_rows w0 !! i = Some d /\ d_status d = SCHEDULED /\ decryptConfession (d_content d) aesKey = Ok m /\ confession_text m = Ok t
            /\ dd_rows w !! i = Some d' /\ d_status d' = POSTED.
(** What was posted since are the texts of drafts that are posted since, one each. *)
Definition posted_once (w : DraftDB) : Prop :=
  rows_ok w /\ exists ids texts, NoDup ids /\ dd_posted w = dd_posted w0 ++ texts /\ Forall2 (was_published w) ids texts
    /\ forall i, i ∉ ids -> dd_rows w !! i = dd_rows w0 !! i.

Lemma posted_once_frame w w' : dd_rows w' = dd_rows w -> dd_posted w' = dd_posted w -> posted_once w -> posted_once w'.
Proof.
  intros Hr Hp [Hok (ids & texts & H)]. split; [unfold rows_ok; by rewrite Hr|]. exists ids, texts. unfold was_published. by rewrite Hr, Hp.
Qed.
Lemma publication_once i w : posted_once w -> posted_once (publication i w).2.
Proof.
  intros [Hok (ids & texts & Hnd & Hp & Hall & Hsame)]. assert (Hw : posted_once w) by (split; [done|]; by exists ids, texts). unfold publication.
  destruct (dd_rows w !! i) as [d|] eqn:Hd; [|done]. destruct (due _ d) eqn:Hdue; [|done].
  destruct (decryptConfession _ _) as [m0|e] eqn:Hm; [|done]. destruct (confession_text m0) as [m|e] eqn:Hmsg; [|done]. destruct (dd_refuses w m); [done|]. clear Hw. cbn [snd].
  assert (d_status d = SCHEDULED) as Hs by (unfold due in Hdue; by boolp). assert (d_id d = i) as Hi by by apply Hok.
  assert (Hnot : i ∉ ids).
  { intros Hin. apply list_elem_of_lookup in Hin as [n Hn]. apply (Forall2_lookup_l _ _ _ _ _ Hall) in Hn as (t & _ & ? & d' & ? & _ & _ & _ & _ & Hd' & Hst). congruence. }
  destruct (save_published i d (w <| dd_posted ::= fun l => l ++ [m] |>)) as (d' & Heq & Hi' & Hs'); [done..|by rewrite Hs|].
  rewrite Heq. set (w' := _ <| dd_rows ::= _ |>). assert (Hr : dd_rows w' = <[i := d']> (dd_rows w)) by done.
  split.
  - intros j x. rewrite Hr. destruct (decide (i = j)) as [<-|Hne]; [rewrite lookup_insert_eq; congruence|rewrite lookup_insert_ne by done; apply Hok].
  - exists (ids ++ [i]), (texts ++ [m]). split_and!.
    + apply NoDup_app. split; [done|]. split; [intros x Hx ->%list_elem_of_singleton; done|apply NoDup_singleton].
    + change (dd_posted w') with (dd_posted w ++ [m]). by rewrite Hp, app_assoc.
    + apply Forall2_app; [|constructor; [|constructor]].
      * apply (Forall2_impl _ _ _ _ Hall). intros j t (x & x' & y & H1 & H2 & H3 & H4 & H5 & H6). exists x. destruct (decide (i = j)) as [<-|Hne].
        -- exists d', y. rewrite Hr, lookup_insert_eq. done.
        -- exists x', y. by rewrite Hr, lookup_insert_ne.
      * exists d, d', m0. rewrite Hr, lookup_insert_eq, <- (Hsame i Hnot), Hd. done.
    + intros j Hj. rewrite not_elem_of_app, list_elem_of_singleton in Hj. destruct Hj as [Hj Hne].
      rewrite Hr, lookup_insert_ne by (intros <-; done). by apply Hsame.
Qed.

(** Jobs, and what changes around them. *)
Inductive JobActor := JDue | JOne (id : string) | JAround (clock : ms) (refuses : string -> option string).
Definition serve_job (a : JobActor) : action unit :=
  match a with
  | JDue => do* publish_due in Ret tt
  | JOne i => publish_one i
  | JAround c f => writes (fun w => w <| dd_clock := c |> <| dd_refuses := f |>)
  end.

(** C31. However the jobs of the publisher interleave with one another, with a clock that moves
    and with a service that refuses some texts, every confession they make is the sanitized
    text of one scheduled draft, which is posted, a draft is posted once, and the other drafts are
    as before. *)
Theorem jobs_post_once (reqs : gmap positive JobActor) w ps :
  rows_ok w0 -> pool_reach (w0, serve_job <$> reqs) (w, ps) -> posted_once w.
Proof.
  intros Hok Hreach.
  assert (posted_once w0) as H0 by (split; [done|]; exists [], []; split_and!; [constructor|by rewrite app_nil_r|constructor|done]).
  destruct (tame_pool posted_once (fun _ _ => True) (fun _ _ _ => True) w0 (serve_job <$> reqs) w ps H0) as [HI _]; [|exact Hreach|done].
  intros t p. rewrite lookup_fmap_Some. intros (a & <- & _). revert t. change (tame posted_once (fun _ _ => True) (serve_job a)). destruct a as [|i|c f]; cbn [serve_job].
  - unfold publish_due, enqueueDueDraftIds. apply tame_bind; [|intros n; apply tame_ret]. apply tame_bind; [by apply tame_reads|intros ids].
    apply tame_bind; [|intros u; apply tame_ret]. apply tame_for. intros x. apply tame_writes. intros v Hv. split; [by eapply posted_once_frame|done].
  - unfold publish_one. destruct (truthy i); [|apply tame_ret].
    unfold publishScheduledDraftById, transaction. apply tame_attempts. intros v Hv. split; [|done]. cbn [snd].
    pose proof (run_publication i v) as Hrun. unfold publishScheduledDraftById in Hrun. rewrite run_transaction in Hrun.
    pose proof (publication_once i v Hv) as Hpub. rewrite <- Hrun in Hpub. destruct (run _ v) as [[a|e] v']; exact Hpub.
  - apply tame_writes. intros v Hv. split; [by eapply posted_once_frame|done].
Qed.
End jobs.
End service.

(** ** Concrete drafts *)

#[local] Existing Instance plain_cbc.
Definition ex_key : string := "01234567890123456789012345678901".
Definition ex_html (s : string) : string := s.
Definition ex_version (v r : Z) : Z := r + 1.
Definition ex_date (s : string) : option ms := if String.eqb s "tomorrow" then Some 200 else None.
Definition ex_zone (s tz : string) : option ms := if String.eqb tz "UTC" then ex_date s else None.
Definition ex_iv (n : string) : Draws := {| dw_id := n; dw_iv := "abcdefghijklmnop" |}.
Definition ex_text (t : string) : string := match encryptConfession "ABCDEFGHIJKLMNOP" t ex_key with Ok x => x | Exn _ => "" end.
Definition ex_draft (id : string) (u : Z) (t : string) (at_ : option ms) : string * ConfessionDraft := (id, {|
  d_id := id; d_userId := u; d_content := ex_text t; d_category := None; d_scheduledFor := at_; d_timezone := None;
  d_status := if at_ is Some _ then SCHEDULED else DRAFT; d_publishAttempts := 0; d_lastPublishError := None; d_updatedAt := 10; d_version := 3; d_revisions := [] |}).
Definition ex_drafts : DraftDB := {|
  dd_clock := 100; dd_rows := list_to_map [ex_draft "a" 1 "hello" (Some 50); ex_draft "b" 1 "note" None; ex_draft "c" 2 "later" (Some 500); ex_draft "d" 2 "bad" (Some 60)];
  dd_posted := []; dd_refuses := fun t => if String.eqb t "bad" then Some "flagged" else None; dd_jobs := [] |}.
Definition posted_of (r : DraftDB * gmap positive (action unit)) : list string := dd_posted r.1.

(** The jobs of two workers, of which one found the draft due twice. *)
Definition ex_jobs : gmap positive JobActor := list_to_map [(1%positive, JDue); (2%positive, JOne "a"); (3%positive, JOne "a"); (4%positive, JOne "d");
  (5%positive, JAround 600 (fun _ => None)); (6%positive, JOne "c"); (7%positive, JOne "d")].
Definition ex_after := run_schedule [1; 1; 4; 2; 3; 1; 5; 6; 7]%positive (ex_drafts, serve_job ex_key ex_html ex_version <$> ex_jobs).
Lemma ex_rows_ok : rows_ok ex_drafts.
Proof. intros i d H. apply elem_of_list_to_map_2 in H. repeat (apply elem_of_cons in H as [[= -> ->]|H]; [done|]). by apply elem_of_nil in H. Qed.
Lemma jobs_post_once_witness :
  rows_ok ex_drafts /\ posted_of ex_after = ["hello"; "later"; "bad"] /\ dd_jobs ex_after.1 = ["a"; "d"] /\ posted_once ex_key ex_html ex_drafts ex_after.1.
Proof.
  split; [exact ex_rows_ok|split; [vm_compute; reflexivity|split; [vm_compute; reflexivity|]]].
  apply (jobs_post_once ex_key ex_html ex_version ex_drafts ex_jobs ex_after.1 ex_after.2); [exact ex_rows_ok|].
  rewrite <- surjective_pairing. apply run_schedule_reach.
Defined.
Definition ex_update (c : string) (v : option Z) : UpdateConfessionDraftDto :=
  {| up_content := Some c; up_category := None; up_version := match v with Some n => Some (Some n) | None => None end |}.
Definition ex_row (id : string) (w : DraftDB) : ConfessionDraft := default (ex_draft "z" 0 "" None).2 (dd_rows w !! id).
Definition ex_seen : ConfessionDraft := match sanitizeForResponse ex_key (ex_row "b" ex_drafts) with Ok d => d | Exn _ => ex_row "b" ex_drafts end.
Lemma versioned_update_witness :
  exists d' w', run (updateDraft ex_key ex_version (ex_iv "b") 1 "b" (ex_update "better" (Some 3))) ex_drafts = (Ok d', w')
    /\ d_content d' = "better" /\ d_version d' = 3 + 1
    /\ d_revisions d' = firstn 10 ({| rv_content := "note"; rv_version := 3; rv_createdAt := 100 |} :: [])
    /\ run (getDraft ex_key 1 "b") w' = (Ok d', w')
    /\ forall r2 dto, up_version dto = Some (Some 3) -> run (updateDraft ex_key ex_version r2 1 "b" dto) w' = (Exn (RemoteUpdated (3 + 1)), w').
Proof.
  refine (versioned_update ex_key ex_version (ex_iv "b") 1 "b" "better" (ex_row "b" ex_drafts) ex_seen
            (match encryptConfession "abcdefghijklmnop" "better" ex_key with Ok x => x | Exn _ => "" end) ex_drafts _ _ _ _ _ _ _ _ _);
    vm_compute; try reflexivity; discriminate.
Defined.

(** Requests that read a draft and save it, beside the jobs. *)
Inductive Request := RUpdate (u : Z) (id : string) (dto : UpdateConfessionDraftDto) | RPublish (u : Z) (id : string) | RJob (id : string) | RCreate (u : Z) (id : string).
Definition ex_serve (r : Request) : action unit :=
  match r with
  | RUpdate u id dto => do* updateDraft ex_key ex_version (ex_iv id) u id dto in Ret tt
  | RPublish u id => do* publishNow ex_key ex_html ex_version u id in Ret tt
  | RJob id => publish_one ex_key ex_html ex_version id
  | RCreate u id => do* createDraft ex_key ex_date ex_zone (ex_iv id) u "new" None None None in Ret tt
  end.
Definition ex_run (w : DraftDB) (rs : list Request) (ts : list positive) : DraftDB * gmap positive (action unit) :=
  run_schedule ts (w, list_to_map (zip (map Pos.of_nat (seq 1 (length rs))) (map ex_serve rs))).
Definition ended (r : DraftDB * gmap positive (action unit)) : list (outcome draft_error unit) :=
  omap (fun kp => match kp.2 with Ret a => Some (Ok a) | Throw e => Some (Exn e) | _ => None end) (map_to_list r.2).

(** A draft published twice at once is posted twice: it is read without a lock. *)
Theorem published_twice :
  let r := ex_run ex_drafts [RPublish 1 "b"; RPublish 1 "b"] [1; 2; 1; 2]%positive in
  ended r = [Ok tt; Ok tt] /\ posted_of r = ["note"; "note"].
Proof. by vm_compute. Qed.

(** An update that read the draft before it was published makes it a scheduled draft
    again, which the next job posts too. *)
Theorem update_undoes_publication :
  let r := ex_run ex_drafts [RUpdate 1 "a" (ex_update "hello!" (Some 3)); RJob "a"; RJob "a"] [1; 2; 1; 1; 3]%positive in
  ended r = [Ok tt; Ok tt; Ok tt] /\ posted_of r = ["hello"; "hello!"].
Proof. by vm_compute. Qed.

(** Two updates of one version at once are both stored, and the text of the first is in
    no revision: the version that is compared is the one that was read. *)
Theorem update_lost :
  let r := ex_run ex_drafts [RUpdate 1 "b" (ex_update "mine" (Some 3)); RUpdate 1 "b" (ex_update "yours" (Some 3))] [1; 2; 1; 2; 1; 2]%positive in
  let d := ex_row "b" r.1 in
  ended r = [Ok tt; Ok tt] /\ d_content d = match encryptConfession "abcdefghijklmnop" "yours" ex_key with Ok x => x | Exn _ => "" end
  /\ map rv_content (d_revisions d) = [ex_text "note"].
Proof. by vm_compute. Qed.

(** The limit of ten drafts is checked before the row is made: two requests at once make
    eleven. *)
Definition ex_nine : DraftDB :=
  ex_drafts <| dd_rows := list_to_map (map (fun n => ex_draft (String.string_of_list_ascii (repeat "n"%char n)) 1 "x" None) (seq 1 9)) |>.
Theorem limit_exceeded :
  let r := ex_run ex_nine [RCreate 1 "e"; RCreate 1 "f"] [1; 2; 1; 2]%positive in
  ended r = [Ok tt; Ok tt] /\ length (drafts_of 1 r.1) = 11%nat.
Proof. by vm_compute. Qed.

(** A draft the confession service refuses is tried again by every run of the jobs. *)
Theorem refused_forever :
  let r := ex_run ex_drafts [RJob "d"; RJob "d"; RJob "d"; RJob "d"; RJob "d"; RJob "d"] [1; 2; 3; 4; 5; 6]%positive in
  dd_rows r.1 = dd_rows ex_drafts /\ (run enqueueDueDraftIds r.1).1 = Ok ["a"; "d"].
Proof. by vm_compute. Qed.
