(* ===== verification/FeatureFlags.v ===== *)
(** * Feature flags

    [src/xconfess-backend/src/feature-flags/feature-flags.service.ts]: flags with an
    allowlist or a percentage of users, their changes with audit entries, and the return to
    the settings of before.  A list of users is stored as one text, separated by commas. *)
From S2P Require Import Prelude Numbers Json Dates Effects Redaction AuditLog.
Open Scope Z_scope.

(** ** Data *)

(** The settings of before, as the column holds them. *)
Record Snapshot := { sn_description : option string; sn_enabled : bool; sn_percentage : Z; sn_userIds : list string; sn_changedBy : option string; sn_changedAt : option ms }.
(** [src feature-flags/entities/feature-flag.entity.ts:9-54 FeatureFlag] as it is read. *)
Record FeatureFlag := {
  ff_id : string; ff_name : string; ff_description : option string; ff_enabled : bool; ff_percentage : Z; ff_userIds : option (list string);
  ff_changedBy : option string; ff_changedAt : option ms; ff_previous : option (Snapshot * string) }.
#[export] Instance eta_FeatureFlag : Eta FeatureFlag := fun f => {|
  ff_id := ff_id f; ff_name := ff_name f; ff_description := ff_description f; ff_enabled := ff_enabled f; ff_percentage := ff_percentage f; ff_userIds := ff_userIds f;
  ff_changedBy := ff_changedBy f; ff_changedAt := ff_changedAt f; ff_previous := ff_previous f |}.
(** A row, by its name: the flag, of which [userIds] is a text. *)
Record FlagRow := { fr_flag : FeatureFlag; fr_userIds : option string }.
Record FlagDB := { fd_clock : ms; fd_rows : gmap string FlagRow; fd_audit : AuditDB }.
#[export] Instance eta_FlagDB : Eta FlagDB := fun w => {| fd_clock := fd_clock w; fd_rows := fd_rows w; fd_audit := fd_audit w |}.
#[export] Program Instance flag_audit_lens : Lens FlagDB AuditDB := {| lget := fd_audit; lset a w := w <| fd_audit := a |> |}.
Solve Obligations with by intros; repeat match goal with w : FlagDB |- _ => destruct w end.
Inductive flag_error := InvalidName | InvalidPercentage | InvalidUserIds | Exists_ (name : string) | NotFound (name : string) | NoRollback (name : string) | QueryFailed.
Abbreviation action := (prog FlagDB flag_error).
(** [src feature-flags/dto/create-feature-flag.dto.ts:12-64 CreateFeatureFlagDto]; an update
    has no name. *)
Record FlagDto := { fo_description : option string; fo_enabled : option bool; fo_percentage : option jsnum; fo_userIds : option (list string); fo_changedBy : option string }.
#[export] Instance eta_FlagDto : Eta FlagDto := fun d => {|
  fo_description := fo_description d; fo_enabled := fo_enabled d; fo_percentage := fo_percentage d; fo_userIds := fo_userIds d; fo_changedBy := fo_changedBy d |}.

(** A list as the column holds it ([simple-array]), and as it is read. *)
Definition list_text (l : option (list string)) : option string := match l with Some l => Some (join_with "," l) | None => None end.
Definition text_list (t : option string) : option (list string) :=
  match t with Some t => Some (if truthy t then split_on ","%char t else []) | None => None end.
Definition stored (f : FeatureFlag) : FlagRow := {| fr_flag := f <| ff_userIds := None |>; fr_userIds := list_text (ff_userIds f) |}.
Definition loaded (r : FlagRow) : FeatureFlag := fr_flag r <| ff_userIds := text_list (fr_userIds r) |>.

Section service.
Context (sha256 : string -> string) (user_exists : Z -> bool).

(** ** Validation *)

Definition name_char (c : Ascii.ascii) : bool := alnum c || Ascii.eqb c "_"%char || Ascii.eqb c "."%char || Ascii.eqb c "-"%char.
(** [src feature-flags/feature-flags.service.ts:26-32 validateFlagName] *)
Definition validateFlagName (name : string) : action unit := guard (truthy (trim name) && str_forall name_char (trim name)) InvalidName.
(** [src feature-flags/feature-flags.service.ts:34-69 validateFlagValues] *)
Definition validateFlagValues (dto : FlagDto) : action unit :=
  do* guard (match fo_percentage dto with
             | Some p => match num_integer p with Some n => (0 <=? n) && (n <=? 100) | None => false end
             | None => true
             end) InvalidPercentage in
  guard (match fo_userIds dto with Some l => forallb (fun i => truthy (trim i)) l | None => true end) InvalidUserIds.

(** ** Operations *)

(** [src feature-flags/feature-flags.service.ts:117-119 findOne] *)
Definition findOne (name : string) : action (option FeatureFlag) :=
  reads (fun w => match fd_rows w !! name with Some r => Some (loaded r) | None => None end).
(** [src feature-flags/feature-flags.service.ts:113-115 findAll] *)
Definition findAll : action (list FeatureFlag) := reads (fun w => map (fun p => loaded p.2) (map_to_list (fd_rows w))).
(** [save] of a flag: the name is unique, a row of the flag is overwritten. *)
Definition save (f : FeatureFlag) : action unit :=
  attempts (fun w => match fd_rows w !! ff_name f with
                     | Some r => if ff_id (fr_flag r) =s? ff_id f then (Ok tt, w <| fd_rows ::= <[ff_name f := stored f]> |>) else (Exn QueryFailed, w)
                     | None => (Ok tt, w <| fd_rows ::= <[ff_name f := stored f]> |>)
                     end).
Definition audit (action_ : string) (md : metadata) (actorId : option string) : action unit :=
  lift (fun _ => QueryFailed) (AuditLog.log sha256 user_exists {| dto_action := action_; dto_metadata := md; dto_context := no_context <| cx_userId := json_opt_str actorId |> |}).
Definition texts (l : option (list string)) : json := match l with Some l => JArr (map JStr l) | None => JNull end.
Definition is_change (f : FeatureFlag) (rest : metadata) (lastChangedBy : string) : metadata :=
  [("entityType", JStr "FeatureFlag"); ("entityId", JStr (ff_id f)); ("flagName", JStr (ff_name f))] ++ rest ++ [("lastChangedBy", JStr lastChangedBy)].
Definition changed_by (given actorId : option string) : string :=
  if truthy_opt given then default "" given else if truthy_opt actorId then default "" actorId else "system".
Definition percent (p : option jsnum) (d : Z) : Z := match p with Some n => default d (num_integer n) | None => d end.
(** [src feature-flags/feature-flags.service.ts:72-111 create]; [id] is the id of the new row. *)
Definition create (id name : string) (dto : FlagDto) (actorId : option string) : action FeatureFlag :=
  do* validateFlagName name in
  do* validateFlagValues dto in
  let* existing := findOne name in
  do* guard (if existing is Some _ then false else true) (Exists_ name) in
  let by_ := changed_by (fo_changedBy dto) actorId in
  let* now := reads fd_clock in
  let f := {| ff_id := id; ff_name := name; ff_description := fo_description dto; ff_enabled := default false (fo_enabled dto); ff_percentage := percent (fo_percentage dto) 0;
              ff_userIds := fo_userIds dto; ff_changedBy := Some by_; ff_changedAt := Some now; ff_previous := None |} in
  do* save f in
  do* audit "feature_flag_created" (is_change f [("enabled", JBool (ff_enabled f)); ("percentage", JNum (num_of_Z (ff_percentage f))); ("userIds", texts (ff_userIds f))] by_) actorId in
  Ret f.
(** [src feature-flags/feature-flags.service.ts:134-142 update] *)
Definition snapshot (f : FeatureFlag) : Snapshot := {|
  sn_description := ff_description f; sn_enabled := ff_enabled f; sn_percentage := ff_percentage f; sn_userIds := default [] (ff_userIds f);
  sn_changedBy := ff_changedBy f; sn_changedAt := ff_changedAt f |}.
(** The entry of a snapshot; the redaction copies a date as an object without fields. *)
Definition snapshot_json (name : string) (s : Snapshot) (at_ : json) : json := JObj [
  ("name", JStr name); ("description", json_opt_str (sn_description s)); ("enabled", JBool (sn_enabled s)); ("percentage", JNum (num_of_Z (sn_percentage s)));
  ("userIds", JArr (map JStr (sn_userIds s))); ("lastChangedBy", json_opt_str (sn_changedBy s)); ("lastChangedAt", at_)].
Definition dto_json (dto : FlagDto) : json := JObj
  (match fo_description dto with Some s => [("description", JStr s)] | None => [] end
   ++ match fo_enabled dto with Some b => [("enabled", JBool b)] | None => [] end
   ++ match fo_percentage dto with Some n => [("percentage", JNum n)] | None => [] end
   ++ match fo_userIds dto with Some l => [("userIds", JArr (map JStr l))] | None => [] end
   ++ match fo_changedBy dto with Some s => [("lastChangedBy", JStr s)] | None => [] end).
(** [src feature-flags/feature-flags.service.ts:146-155 update] *)
Definition updated (dto : FlagDto) (by_ : string) (now : ms) (f : FeatureFlag) : FeatureFlag := {|
  ff_id := ff_id f; ff_name := ff_name f;
  ff_description := match fo_description dto with Some d => Some d | None => ff_description f end;
  ff_enabled := default (ff_enabled f) (fo_enabled dto); ff_percentage := percent (fo_percentage dto) (ff_percentage f);
  ff_userIds := match fo_userIds dto with Some l => Some l | None => ff_userIds f end;
  ff_changedBy := Some by_; ff_changedAt := Some now; ff_previous := Some (snapshot f, toISOString now) |}.
(** [src feature-flags/feature-flags.service.ts:121-175 update] *)
Definition update (name : string) (dto : FlagDto) (actorId : option string) : action FeatureFlag :=
  do* validateFlagName name in
  do* validateFlagValues dto in
  let* found := findOne name in
  let* existing := of_option found (NotFound name) in
  let by_ := changed_by (fo_changedBy dto) actorId in
  let* now := reads fd_clock in
  let f := updated dto by_ now existing in
  do* save f in
  do* audit "feature_flag_updated" (is_change f [("changes", dto_json dto); ("previousState", snapshot_json (ff_name f) (snapshot existing) (JObj []))] by_) actorId in
  Ret f.
(** [src feature-flags/feature-flags.service.ts:201-213 rollback] *)
Definition rolled_back (prev : Snapshot) (by_ : string) (now : ms) (f : FeatureFlag) : FeatureFlag := {|
  ff_id := ff_id f; ff_name := ff_name f; ff_description := sn_description prev; ff_enabled := sn_enabled prev; ff_percentage := sn_percentage prev;
  ff_userIds := Some (sn_userIds prev); ff_changedBy := Some by_; ff_changedAt := Some now; ff_previous := Some (snapshot f, toISOString now) |}.
(** [src feature-flags/feature-flags.service.ts:177-232 rollback]; the restored state was
    read back, its date is a text. *)
Definition rollback (name : string) (actorId : option string) : action FeatureFlag :=
  do* validateFlagName name in
  let* found := findOne name in
  let* existing := of_option found (NotFound name) in
  let* prev := of_option (ff_previous existing) (NoRollback name) in
  let by_ := changed_by None actorId in
  let* now := reads fd_clock in
  let f := rolled_back prev.1 by_ now existing in
  do* save f in
  do* audit "feature_flag_rolled_back"
        (is_change f [("restoredState", snapshot_json (ff_name f) prev.1 (match sn_changedAt prev.1 with Some t => JStr (toISOString t) | None => JNull end))] by_) actorId in
  Ret f.
(** [src feature-flags/feature-flags.service.ts:234-256 delete] *)
Definition delete_ (name : string) (actorId : option string) : action unit :=
  do* validateFlagName name in
  let* found := findOne name in
  let* existing := of_option found (NotFound name) in
  do* audit "feature_flag_deleted" (is_change existing [] (changed_by None actorId)) actorId in
  writes (fun w => w <| fd_rows ::= delete name |>).

(** ** Evaluation *)

(** [src feature-flags/feature-flags.service.ts:289-297 hashCode] *)
Fixpoint hash_from (hash : Z) (s : string) : Z :=
  match s with
  | EmptyString => hash
  | String c s => hash_from (to_int32 (shl32 hash 5 - hash + Z.of_nat (Ascii.nat_of_ascii c))) s
  end.
Definition hashCode (str : string) : Z := hash_from 0 str.
(** [src feature-flags/feature-flags.service.ts:258-287 isEnabled]; [userId] is what the
    caller passes, and [draw] is [Math.random() * 100]. *)
Definition enabled_for (flag : option FeatureFlag) (flagName : string) (userId : json) (draw : jsnum) : bool :=
  match flag with
  | None => false
  | Some f =>
      if negb (ff_enabled f) then false
      else if json_truthy userId && match ff_userIds f with Some (_ :: _) => true | _ => false end then
        match userId with JStr u => includes u (default [] (ff_userIds f)) | _ => false end
      else if ff_percentage f =? 100 then true
      else if ff_percentage f =? 0 then false
      else if json_truthy userId then Z.abs (hashCode (json_string userId +:+ flagName)) mod 100 <? ff_percentage f
      else num_lt draw (num_of_Z (ff_percentage f))
  end.
Definition isEnabled (flagName : string) (userId : json) (draw : jsnum) : action bool :=
  let* flag := findOne flagName in Ret (enabled_for flag flagName userId draw).
(** [src feature-flags/feature-flags.controller.ts:31-48 checkFlag]: the id of the account
    in the token is a number. *)
Definition checkFlag (name : string) (accountId : Z) (override : option string) (draw : jsnum) : action (bool * bool) :=
  if bool_decide (override = Some "true") then Ret (true, true)
  else if bool_decide (override = Some "false") then Ret (false, true)
  else let* enabled := isEnabled name (JNum (num_of_Z accountId)) draw in Ret (enabled, false).
End service.

(** ** Rollout *)

Lemma hash_from_range s h : - 2 ^ 31 <= h < 2 ^ 31 -> - 2 ^ 31 <= hash_from h s < 2 ^ 31.
Proof. revert h. induction s as [|c s IH]; intros h H; [done|]. cbn [hash_from]. apply IH, to_int32_range. Qed.
(** The place of a request among a hundred: that of its user, or a drawn one. *)
Definition bucket (flagName : string) (userId : json) (draw : Q) : Q :=
  if json_truthy userId then inject_Z (Z.abs (hashCode (json_string userId +:+ flagName)) mod 100) else draw.
Definition no_list (f : FeatureFlag) : bool := match ff_userIds f with Some (_ :: _) => false | _ => true end.
Lemma Qltb_Z a b : Qltb (inject_Z a) (inject_Z b) = (a <? b).
Proof.
  apply eq_iff_eq_true. unfold Qltb. rewrite negb_true_iff, <- not_true_iff_false, Qle_bool_iff, <- Zle_Qle. rewrite Z.ltb_lt. lia.
Qed.
Lemma bucket_range n u q : (0 <= q < inject_Z 100)%Q -> (0 <= bucket n u q < inject_Z 100)%Q.
Proof.
  unfold bucket. destruct (json_truthy u); [|done]. intros _. pose proof (Z.mod_pos_bound (Z.abs (hashCode (json_string u +:+ n))) 100).
  change 0%Q with (inject_Z 0). rewrite <- Zle_Qle, <- Zlt_Qlt. lia.
Qed.
(** The branches of the evaluation compare the place with the percentage. *)
Lemma rollout_spec f name u q :
  no_list f = true -> (0 <= q < inject_Z 100)%Q ->
  enabled_for (Some f) name u (Fin q) = ff_enabled f && Qltb (bucket name u q) (inject_Z (ff_percentage f)).
Proof.
  intros Hl Hq. pose proof (bucket_range name u q Hq) as [Hb0 Hb1]. unfold enabled_for. destruct (ff_enabled f); [|done]. cbn [negb andb].
  unfold no_list in Hl. assert (json_truthy u && match ff_userIds f with Some (_ :: _) => true | _ => false end = false) as ->.
  { destruct (ff_userIds f) as [[|x l]|]; [apply andb_false_r|done|apply andb_false_r]. }
  destruct (Z.eqb_spec (ff_percentage f) 100) as [->|_]; [symmetry; by apply Qltb_lt|].
  destruct (Z.eqb_spec (ff_percentage f) 0) as [->|_].
  { symmetry. apply not_true_iff_false. rewrite Qltb_lt. by apply Qle_not_lt. }
  unfold bucket. destruct (json_truthy u); [by rewrite Qltb_Z|done].
Qed.

(** Raising the percentage of a flag takes it from nobody: whoever has it, an account or a
    request with its draw, has it at every higher percentage; at 100 everybody has it, at 0
    nobody, and for an account the answer does not depend on the draw. *)
Theorem rollout_monotone f name u q p :
  no_list f = true -> (0 <= q < inject_Z 100)%Q -> ff_percentage f <= p ->
  let at_percentage p := enabled_for (Some (f <| ff_percentage := p |>)) name u in
  (at_percentage (ff_percentage f) (Fin q) = true -> at_percentage p (Fin q) = true)
  /\ at_percentage 100 (Fin q) = ff_enabled f /\ at_percentage 0 (Fin q) = false
  /\ (json_truthy u = true -> forall q', (0 <= q' < inject_Z 100)%Q -> at_percentage p (Fin q') = at_percentage p (Fin q)).
Proof.
  intros Hl Hq Hp at_percentage. assert (forall p q, (0 <= q < inject_Z 100)%Q ->
    at_percentage p (Fin q) = ff_enabled f && Qltb (bucket name u q) (inject_Z p)) as Hspec by (intros; by apply rollout_spec).
  pose proof (bucket_range name u q Hq) as [Hb0 Hb1]. split_and!.
  - rewrite !Hspec, !andb_true_iff, !Qltb_lt by done. intros [He Hlt]. split; [done|]. eapply Qlt_le_trans; [done|]. by rewrite <- Zle_Qle.
  - rewrite Hspec by done. rewrite (proj2 (Qltb_lt _ _)) by done. apply andb_true_r.
  - rewrite Hspec by done. apply andb_false_iff. right. apply not_true_iff_false. rewrite Qltb_lt. by apply Qle_not_lt.
  - intros Hu q' Hq'. rewrite !Hspec by done. unfold bucket. by rewrite Hu.
Qed.

(** ** Changes *)

Lemma join_split t : join_with "," (split_on ","%char t) = t.
Proof.
  induction t as [|c t IH]; [done|]. cbn [split_on]. destruct (Ascii.eqb_spec c ","%char) as [->|Hc].
  - destruct (split_on ","%char t) as [|x l] eqn:Hs; [by destruct t; cbn in Hs; repeat case_match|]. rewrite join_with_cons, IH. done.
  - destruct (split_on ","%char t) as [|x [|y l]] eqn:Hs; [by destruct t; cbn in Hs; repeat case_match|cbn in *; by rewrite IH|].
    rewrite join_with_cons in IH. rewrite join_with_cons. by rewrite <- IH.
Qed.
Lemma text_list_back t : text_list (list_text (Some (default [] (text_list t)))) = Some (default [] (text_list t)).
Proof. destruct t as [t|]; [|done]. cbn. destruct (truthy t) eqn:Ht; [|done]. by rewrite join_split, Ht. Qed.

Section changes.
Context (sha256 : string -> string) (user_exists : Z -> bool).
Lemma run_audit a md actor w : exists l, run (audit sha256 user_exists a md actor) w = (Ok tt, w <| fd_audit := l |>).
Proof.
  unfold audit. rewrite run_lift. unfold log. rewrite run_try_catch, run_attempts. match goal with |- context [if ?b then (Ok tt, ?l) else _] => destruct b; eexists; cbn end; reflexivity.
Qed.
Lemma run_save_flag f r w : fd_rows w !! ff_name f = Some r -> ff_id (fr_flag r) = ff_id f -> run (save f) w = (Ok tt, w <| fd_rows ::= <[ff_name f := stored f]> |>).
Proof. intros Hr Hi. unfold save. rewrite run_attempts, Hr, Hi. by rewrite str_eqb_refl. Qed.
Lemma run_findOne n w : run (findOne n) w = (Ok (match fd_rows w !! n with Some r => Some (loaded r) | None => None end), w).
Proof. apply run_reads. Qed.

(** What an update and a rollback do to the row they find. *)
Lemma run_update n dto a w f1 w1 :
  run (update sha256 user_exists n dto a) w = (Ok f1, w1) ->
  run (validateFlagName n) w1 = (Ok tt, w1) /\ exists r by_ now, fd_rows w !! n = Some r /\
  (ff_name (fr_flag r) = n -> fd_rows w1 = <[n := stored (updated dto by_ now (loaded r))]> (fd_rows w)).
Proof.
  unfold update. rewrite run_bind. unfold validateFlagName at 1. rewrite run_guard. destruct (truthy _ && _) eqn:Hn; [|done].
  rewrite run_bind. destruct (run (validateFlagValues dto) w) as [[[]|e] w'] eqn:Hv; [|done].
  assert (w' = w) as -> by (revert Hv; unfold validateFlagValues; rewrite run_bind, !run_guard; repeat case_match; by intros [= ->]).
  rewrite run_bind, run_findOne. destruct (fd_rows w !! n) as [r|] eqn:Hr; [|done]. rewrite run_bind, run_of_option, run_bind, run_reads, run_bind.
  set (f := updated _ _ _ _). intros H. split.
  { unfold validateFlagName. by rewrite run_guard, Hn. }
  exists r, (changed_by (fo_changedBy dto) a), (fd_clock w). split; [done|]. intros Hname.
  assert (ff_name f = n) as Hfn by done. rewrite (run_save_flag f r) in H by (rewrite ?Hfn; done). rewrite run_bind in H.
  destruct (run_audit "feature_flag_updated" (is_change f [("changes", dto_json dto); ("previousState", snapshot_json (ff_name f) (snapshot (loaded r)) (JObj []))]
    (changed_by (fo_changedBy dto) a)) a (w <| fd_rows ::= <[ff_name f := stored f]> |>)) as [l Hl]. rewrite Hl in H. injection H as _ <-.
  change (fd_rows (_ <| fd_audit := l |>)) with (<[ff_name f := stored f]> (fd_rows w)). by rewrite Hfn.
Qed.

(** A rollback after an update gives a flag the settings it had, for every request, and
    touches no other flag. *)
Theorem rollback_undoes_update n dto a b w r f1 w1 :
  fd_rows w !! n = Some r -> ff_name (fr_flag r) = n -> run (update sha256 user_exists n dto a) w = (Ok f1, w1) ->
  exists f2 w2 r2, run (rollback sha256 user_exists n b) w1 = (Ok f2, w2) /\ fd_rows w2 !! n = Some r2
    /\ ff_description (loaded r2) = ff_description (loaded r)
    /\ (forall name u draw, enabled_for (Some (loaded r2)) name u draw = enabled_for (Some (loaded r)) name u draw)
    /\ delete n (fd_rows w2) = delete n (fd_rows w).
Proof.
  intros Hr Hname Hrun. destruct (run_update _ _ _ _ _ _ Hrun) as (Hvalid & r' & by_ & now & Hr' & Hrows). rewrite Hr in Hr'. injection Hr' as <-.
  specialize (Hrows Hname). set (f := updated _ _ _ _) in Hrows. assert (fd_rows w1 !! n = Some (stored f)) as H1 by (rewrite Hrows; apply lookup_insert_eq).
  unfold rollback. set (g := rolled_back (snapshot (loaded r)) (changed_by None b) (fd_clock w1) (loaded (stored f))).
  assert (ff_name g = n) as Hg by done.
  destruct (run_audit "feature_flag_rolled_back" (is_change g [("restoredState", snapshot_json (ff_name g) (snapshot (loaded r))
    (match sn_changedAt (snapshot (loaded r)) with Some t => JStr (toISOString t) | None => JNull end))] (changed_by None b)) b
    (w1 <| fd_rows ::= <[ff_name g := stored g]> |>)) as [l Hl].
  exists g, (w1 <| fd_rows ::= <[ff_name g := stored g]> |> <| fd_audit := l |>), (stored g). split_and!.
  - rewrite run_bind, Hvalid, run_bind, run_findOne, H1. cbn iota. rewrite run_bind, run_of_option, run_bind.
    change (ff_previous (loaded (stored f))) with (Some (snapshot (loaded r), toISOString now)). rewrite run_of_option, run_bind, run_reads, run_bind.
    cbn [fst]. fold g. rewrite (run_save_flag g (stored f)) by (rewrite ?Hg; done). by rewrite run_bind, Hl.
  - change (fd_rows (_ <| fd_audit := l |>)) with (<[ff_name g := stored g]> (fd_rows w1)). rewrite Hg. apply lookup_insert_eq.
  - done.
  - intros name u draw. unfold enabled_for. change (ff_enabled (loaded (stored g))) with (ff_enabled (loaded r)).
    change (ff_percentage (loaded (stored g))) with (ff_percentage (loaded r)).
    change (ff_userIds (loaded (stored g))) with (text_list (list_text (Some (default [] (text_list (fr_userIds r)))))). rewrite text_list_back.
    change (ff_userIds (loaded r)) with (text_list (fr_userIds r)). by destruct (text_list (fr_userIds r)).
  - change (fd_rows (_ <| fd_audit := l |>)) with (<[ff_name g := stored g]> (fd_rows w1)). rewrite Hg, Hrows. by rewrite !delete_insert_eq.
Qed.
End changes.

(** ** Valid flags *)

Definition valid_flag (f : FeatureFlag) : Prop :=
  0 <= ff_percentage f <= 100 /\ truthy_opt (ff_changedBy f) = true /\ match ff_previous f with Some (p, _) => 0 <= sn_percentage p <= 100 | None => True end.
Definition flags_valid (w : FlagDB) : Prop := map_Forall (fun _ r => valid_flag (fr_flag r)) (fd_rows w).
Lemma safe_guard b e : safe (W:=FlagDB) flags_valid (guard b e : action unit) (fun _ => b = true).
Proof. by destruct b. Qed.
Lemma safe_find_flag n : safe flags_valid (findOne n) (fun o => match o with Some f => valid_flag f | None => True end).
Proof. apply safe_reads. intros w Hw. destruct (fd_rows w !! n) as [r|] eqn:Hr; [|done]. exact (Hw n r Hr). Qed.
Lemma safe_option (o : option FeatureFlag) e :
  match o with Some f => valid_flag f | None => True end -> safe (W:=FlagDB) flags_valid (of_option o e : action FeatureFlag) valid_flag.
Proof. by destruct o. Qed.
Lemma safe_save f : valid_flag f -> safe flags_valid (save f) (fun _ => True).
Proof.
  intros Hf. apply safe_attempts. intros w Hw. assert (flags_valid (w <| fd_rows ::= <[ff_name f := stored f]> |>)) as H by by apply map_Forall_insert_2.
  destruct (fd_rows w !! ff_name f) as [r|]; [|done]. by destruct (_ =s? _).
Qed.
Lemma valid_values dto : safe flags_valid (validateFlagValues dto) (fun _ => forall d, 0 <= d <= 100 -> 0 <= percent (fo_percentage dto) d <= 100).
Proof.
  unfold validateFlagValues. eapply safe_bind; [apply safe_guard|]. intros [] H. eapply safe_mono; [|apply safe_guard]. intros _ _ d Hd. unfold percent.
  destruct (fo_percentage dto) as [p|]; [|done]. destruct (num_integer p) as [n|]; [|done]. cbn. boolp. lia.
Qed.
Lemma changed_by_truthy g a : truthy (changed_by g a) = true.
Proof. unfold changed_by. destruct (truthy_opt g) eqn:Hg; [by destruct g|]. destruct (truthy_opt a) eqn:Ha; [by destruct a|done]. Qed.

Inductive FlagRequest := FCreate (id name : string) (dto : FlagDto) | FUpdate (name : string) (dto : FlagDto) | FRollback (name : string) | FDelete (name : string) | FTime (t : ms).
Section requests.
Context (sha256 : string -> string) (user_exists : Z -> bool).
Definition serve_flag (r : option string * FlagRequest) : action unit :=
  match r.2 with
  | FCreate id name dto => do* create sha256 user_exists id name dto r.1 in Ret tt
  | FUpdate name dto => do* update sha256 user_exists name dto r.1 in Ret tt
  | FRollback name => do* rollback sha256 user_exists name r.1 in Ret tt
  | FDelete name => delete_ sha256 user_exists name r.1
  | FTime t => writes (fun w => w <| fd_clock := t |>)
  end.
Lemma safe_audit a md actor : safe flags_valid (audit sha256 user_exists a md actor) (fun _ => True).
Proof. by apply safe_lift. Qed.
Lemma safe_serve_flag r : safe flags_valid (serve_flag r) (fun _ => True).
Proof.
  destruct r as [actor [id name dto|name dto|name|name|t]]; cbn [serve_flag fst snd].
  - unfold create. eapply (safe_bind _ _ _ (fun _ => True)); [|done]. eapply safe_bind; [apply safe_guard|intros [] _]. eapply safe_bind; [apply valid_values|intros [] Hp].
    eapply safe_bind; [apply safe_find_flag|intros o _]. eapply safe_bind; [apply safe_guard|intros [] _]. eapply safe_bind; [by apply (safe_reads _ _ (fun _ => True))|intros now _].
    eapply safe_bind; [|intros [] _; eapply safe_bind; [apply safe_audit|done]]. apply safe_save. split; [by apply Hp|]. by split; [apply changed_by_truthy|].
  - unfold update. eapply (safe_bind _ _ _ (fun _ => True)); [|done]. eapply safe_bind; [apply safe_guard|intros [] _]. eapply safe_bind; [apply valid_values|intros [] Hp].
    eapply safe_bind; [apply safe_find_flag|intros o Ho]. eapply safe_bind; [by apply safe_option|intros f Hf]. eapply safe_bind; [by apply (safe_reads _ _ (fun _ => True))|intros now _].
    eapply safe_bind; [|intros [] _; eapply safe_bind; [apply safe_audit|done]]. apply safe_save. destruct Hf as (Hf1 & Hf2 & Hf3).
    split; [by apply Hp|]. split; [apply changed_by_truthy|done].
  - unfold rollback. eapply (safe_bind _ _ _ (fun _ => True)); [|done]. eapply safe_bind; [apply safe_guard|intros [] _].
    eapply safe_bind; [apply safe_find_flag|intros o Ho]. eapply safe_bind; [by apply safe_option|intros f (Hf1 & Hf2 & Hf3)].
    destruct (ff_previous f) as [[p at_]|] eqn:Hp; [|done]. cbn [of_option bind]. eapply safe_bind; [by apply (safe_reads _ _ (fun _ => True))|intros now _].
    eapply safe_bind; [|intros [] _; eapply safe_bind; [apply safe_audit|done]]. apply safe_save. split; [done|]. split; [apply changed_by_truthy|done].
  - unfold delete_. eapply safe_bind; [apply safe_guard|intros [] _]. eapply safe_bind; [apply safe_find_flag|intros o Ho]. eapply safe_bind; [by apply safe_option|intros f _].
    eapply safe_bind; [apply safe_audit|intros [] _]. apply safe_writes. intros w Hw. by apply map_Forall_delete.
  - by apply safe_writes.
Qed.
(** C28. However requests interleave, a percentage is one, who changed a flag last is named, and
    a rollback can only lead to a percentage that was valid. *)
Theorem flags_stay_valid (reqs : gmap positive (option string * FlagRequest)) w w' ps :
  flags_valid w -> pool_reach (w, serve_flag <$> reqs) (w', ps) -> flags_valid w'.
Proof.
  intros Hw Hr. apply (safe_pool flags_valid (fun _ _ => True) (w, serve_flag <$> reqs) (w', ps)); [done| |done].
  intros t p. cbn [snd]. rewrite lookup_fmap_Some. intros (r & <- & _). apply safe_serve_flag.
Qed.
End requests.

(** ** Concrete flags *)

Definition ex_sha (s : string) : string := String "h" s.
Definition ex_flag (name : string) (enabled : bool) (p : Z) (l : option (list string)) : FeatureFlag := {|
  ff_id := "id-" +:+ name; ff_name := name; ff_description := None; ff_enabled := enabled; ff_percentage := p; ff_userIds := l; ff_changedBy := Some "system";
  ff_changedAt := None; ff_previous := None |}.
Definition ex_flags : FlagDB := {|
  fd_clock := 1700000000000;
  fd_rows := list_to_map [("tips", stored (ex_flag "tips" true 20 None)); ("beta", stored (ex_flag "beta" true 100 (Some ["7"; "8"])))];
  fd_audit := {| ad_clock := 1700000000000; ad_rows := []; ad_up := true |} |}.
Definition ex_change : FlagDto := {| fo_description := Some "all"; fo_enabled := None; fo_percentage := Some (num_of_Z 80); fo_userIds := Some ["9"]; fo_changedBy := None |}.
Definition ex_off : FlagDto := {| fo_description := None; fo_enabled := Some false; fo_percentage := None; fo_userIds := None; fo_changedBy := None |}.

Lemma rollout_monotone_witness :
  let f := ex_flag "tips" true 20 None in
  let at_percentage p := enabled_for (Some (f <| ff_percentage := p |>)) "tips" (JNum (num_of_Z 5)) in
  (at_percentage 20 (Fin 0) = true -> at_percentage 80 (Fin 0) = true)
  /\ at_percentage 100 (Fin 0) = true /\ at_percentage 0 (Fin 0) = false
  /\ (json_truthy (JNum (num_of_Z 5)) = true -> forall q', (0 <= q' < inject_Z 100)%Q -> at_percentage 80 (Fin q') = at_percentage 80 (Fin 0)).
Proof.
  apply (rollout_monotone (ex_flag "tips" true 20 None) "tips" (JNum (num_of_Z 5)) 0 80); [done|done|]. by vm_compute.
Defined.
Definition ex_updated := run (update ex_sha (fun _ => true) "beta" ex_change (Some "ann")) ex_flags.
Definition ex_beta : FlagRow := stored (ex_flag "beta" true 100 (Some ["7"; "8"])).
Lemma rollback_undoes_update_witness :
  (exists f1, ex_updated.1 = Ok f1) /\ exists f2 w2 r2, run (rollback ex_sha (fun _ => true) "beta" None) ex_updated.2 = (Ok f2, w2) /\ fd_rows w2 !! "beta" = Some r2
    /\ ff_description (loaded r2) = None
    /\ (forall name u draw, enabled_for (Some (loaded r2)) name u draw = enabled_for (Some (loaded ex_beta)) name u draw)
    /\ delete "beta" (fd_rows w2) = delete "beta" (fd_rows ex_flags).
Proof.
  destruct ex_updated as [[f1|e] w1] eqn:Hrun; [|vm_compute in Hrun; discriminate]. split; [by exists f1|].
  exact (rollback_undoes_update ex_sha (fun _ => true) "beta" ex_change (Some "ann") None ex_flags ex_beta f1 w1 eq_refl eq_refl Hrun).
Defined.
Definition ex_requests : gmap positive (option string * FlagRequest) := list_to_map [
  (1%positive, (Some "ann", FUpdate "tips" ex_change)); (2%positive, (Some "bob", FUpdate "tips" ex_off)); (3%positive, (Some "bob", FRollback "tips"))].
Definition ex_final := run_schedule [2; 1; 2; 2; 1; 1; 3; 1; 2]%positive (ex_flags, serve_flag ex_sha (fun _ => true) <$> ex_requests).
Lemma flags_stay_valid_witness :
  flags_valid ex_flags /\ match fd_rows ex_final.1 !! "tips" with Some r => ff_percentage (fr_flag r) = 80 | None => False end /\ flags_valid ex_final.1.
Proof.
  assert (flags_valid ex_flags) as H.
  { apply map_Forall_to_list. apply Forall_forall. intros [k r] Hin. vm_compute in Hin. repeat (apply elem_of_cons in Hin as [[= -> ->]|Hin]; [by vm_compute|]). by apply elem_of_nil in Hin. }
  split; [exact H|]. split; [vm_compute; reflexivity|].
  apply (flags_stay_valid ex_sha (fun _ => true) ex_requests ex_flags ex_final.1 ex_final.2 H). rewrite <- surjective_pairing. apply run_schedule_reach.
Defined.

(** The list of a flag holds texts and the route passes a number: a flag with a list is
    off for every account. *)
Theorem listed_account_excluded f name n draw :
  no_list f = false -> n <> 0 -> enabled_for (Some f) name (JNum (num_of_Z n)) draw = false.
Proof.
  unfold no_list, enabled_for. intros Hl Hn. destruct (negb (ff_enabled f)); [done|]. destruct (ff_userIds f) as [[|x l]|]; [done| |done].
  assert (json_truthy (JNum (num_of_Z n)) = true) as ->; [|done]. cbn. apply negb_true_iff, not_true_iff_false. rewrite Qeq_bool_iff.
  intros H. apply Hn. by apply (inject_Z_injective n 0).
Qed.
(** An entry of the list with a comma lets two other users in. *)
Theorem comma_splits_entry :
  let w := (run (update ex_sha (fun _ => true) "beta" (ex_change <| fo_userIds := Some ["1,2"] |>) None) ex_flags).2 in
  map (fun u => (run (isEnabled "beta" (JStr u) (Fin 0)) w).1) ["1,2"; "1"; "2"] = [Ok false; Ok true; Ok true].
Proof. by vm_compute. Qed.
(** The audit entry of a change belongs to the account whose number begins the name of the
    administrator, or to none; the changer the flag names is the one of the body. *)
Theorem change_audited_as_another :
  let w := (run (update ex_sha (fun _ => true) "beta" (ex_off <| fo_changedBy := Some "root" |>) (Some "12monkeys")) ex_flags).2 in
  map al_adminId (ad_rows (fd_audit w)) = [Some 12] /\ match fd_rows w !! "beta" with Some r => ff_changedBy (fr_flag r) = Some "root" | None => False end.
Proof. by vm_compute. Qed.
(** A change that overlaps the end of a flag switches it on again. *)
Theorem switched_on_again :
  let reqs := list_to_map [(1%positive, (Some "ann", FUpdate "tips" {| fo_description := None; fo_enabled := None; fo_percentage := Some (num_of_Z 80); fo_userIds := None; fo_changedBy := None |}));
                           (2%positive, (Some "bob", FUpdate "tips" ex_off))] : gmap positive (option string * FlagRequest) in
  let w := (run_schedule [1; 2; 2; 2; 2; 1; 1; 1]%positive (ex_flags, serve_flag ex_sha (fun _ => true) <$> reqs)).1 in
  match fd_rows w !! "tips" with Some r => ff_enabled (fr_flag r) = true /\ ff_percentage (fr_flag r) = 80 | None => False end
  /\ map al_action (ad_rows (fd_audit w)) = ["feature_flag_updated"; "feature_flag_updated"].
Proof. by vm_compute. Qed.
