(* ===== verification/ChainEvents.v ===== *)
(** * Events of the contracts

    [src/xconfess-backend/src/stellar/event-parser/contract-event-parser.ts]: the registry
    of versioned event schemas and the parser that refuses what is not registered;
    [src/xconfess-backend/src/stellar/soroban-event-checkpoint.service.ts]: how far each
    contract has been indexed; and
    [src/xconfess-backend/src/analytics/analytics-event.service.ts], which records that it
    was.  An upsert is one access of the database. *)
From stdpp Require Import pretty.
From S2P Require Import Prelude Numbers Json Dates Effects AuditLog.
Open Scope Z_scope.

(** ** Parsing *)

(** [src stellar/event-parser/contract-event-parser.types.ts:22-33 RawContractEvent] *)
Record RawContractEvent (V : Type) := { raw_topic : string; raw_version : Z; raw_values : list V }.
Arguments raw_topic {V}. Arguments raw_version {V}. Arguments raw_values {V}. Arguments Build_RawContractEvent {V}.
(** [src stellar/event-parser/contract-event-parser.types.ts:35-43 ParsedContractEvent] *)
Record ParsedContractEvent (V : Type) := { pe_name : string; pe_category : string; pe_topic : string; pe_version : Z; pe_fields : gmap string V }.
Arguments pe_name {V}. Arguments pe_category {V}. Arguments pe_topic {V}. Arguments pe_version {V}. Arguments pe_fields {V}. Arguments Build_ParsedContractEvent {V}.
(** [src stellar/event-parser/contract-event-parser.types.ts:45-82 ContractEventParseError]:
    the code with what its context holds, and whether the event is to be kept for later. *)
Inductive parse_code := UNKNOWN_TOPIC | UNSUPPORTED_VERSION (knownVersions : list Z) | MALFORMED_PAYLOAD (expectedFieldCounts : list nat) (received : nat).
Record ContractEventParseError := { er_code : parse_code; er_retryable : bool }.
(** [src stellar/event-parser/contract-event-parser.ts:17-23 EventSchema] *)
Record EventSchema := { es_name : string; es_category : string; es_topic : string; es_version : Z; es_fields : list string }.
#[export] Instance EventSchema_eq_dec : EqDecision EventSchema.
Proof. solve_decision. Defined.
Definition schema (n c t : string) (v : Z) (fs : list string) : EventSchema :=
  {| es_name := n; es_category := c; es_topic := t; es_version := v; es_fields := fs |}.

(** [src stellar/event-parser/contract-event-parser.ts:15-15 GOVERNANCE_STREAM_TOPIC] *)
Definition GOVERNANCE_STREAM_TOPIC : string := "__governance_stream__".
(** [src stellar/event-parser/contract-event-parser.ts:41-128 EVENT_SCHEMAS] *)
Definition EVENT_SCHEMAS : list EventSchema := [
  schema "ConfessionAnchoredEvent" "anchor" "confession_anchor" 1 ["event_version"; "timestamp"; "anchor_height"];
  schema "VersionCompatibilityCheckedEvent" "anchor" "version_compatibility_checked" 1 ["event_version"; "nonce"; "timestamp"; "from_major"; "from_minor"; "from_patch"; "to_major"; "to_minor"; "to_patch"; "compatible"];
  schema "SettlementEvent" "tip" "tip_settl" 1 ["recipient"; "event_version"; "settlement_id"; "amount"; "proof_metadata"; "proof_present"; "timestamp"];
  schema "ConfessionEvent" "confession" "confess" 1 ["event_version"; "confession_id"; "author"; "content_hash"; "nonce"; "timestamp"; "correlation_id"];
  schema "ReactionEvent" "reaction" "react" 1 ["event_version"; "confession_id"; "reactor"; "reaction_type"; "nonce"; "timestamp"; "correlation_id"];
  schema "PauseChangedEvent" "pause" "tip_pause" 1 ["actor"; "paused"; "reason"; "timestamp"];
  schema "ReportEvent" "report" "report" 1 ["event_version"; "confession_id"; "reporter"; "reason"; "nonce"; "timestamp"; "correlation_id"];
  schema "ReportSubmittedLedgerEvent" "report" "report" 1 ["confession_id"; "actor"; "reason"; "event_version"; "nonce"; "timestamp"];
  schema "RoleEvent" "role" "role" 1 ["event_version"; "user"; "role"; "granted"; "nonce"; "timestamp"; "correlation_id"];
  schema "GovernanceProposedEvent" "governance" "gov_prop" 1 ["proposal_id"; "proposer"];
  schema "GovernanceApprovedEvent" "governance" "gov_app" 1 ["proposal_id"; "approver"];
  schema "GovernanceApprovalRevokedEvent" "governance" "gov_rev" 1 ["proposal_id"; "actor"];
  schema "GovernanceExecutedEvent" "governance" "gov_exec" 1 ["proposal_id"; "executor"];
  schema "GovInvariantViolationEvent" "governance" "gov_inv" 1 ["nonce"; "timestamp"; "operation"; "reason"; "attempted_by"];
  schema "GovernanceEvent" "governance" GOVERNANCE_STREAM_TOPIC 1 ["event_version"; "metadata"; "nonce"; "timestamp"];
  schema "BadgeEvent" "reputation" "badge" 1 ["event_version"; "badge_id"; "badge_type"; "owner"; "action"; "nonce"; "timestamp"];
  schema "BadgeEvent" "reputation" "badge_awarded" 1 ["event_version"; "badge_id"; "badge_type"; "owner"; "action"; "timestamp"];
  schema "BadgeEvent" "reputation" "badge_granted" 1 ["event_version"; "badge_id"; "badge_type"; "owner"; "action"; "timestamp"];
  schema "BadgeEvent" "reputation" "badge_revoked" 1 ["event_version"; "badge_id"; "badge_type"; "owner"; "action"; "timestamp"];
  schema "ReputationAdjustedData" "reputation" "reputation_adjusted" 1 ["user"; "amount"; "reason"; "timestamp"];
  schema "ReputationDecayedData" "reputation" "reputation_decayed" 1 ["user"; "old_reputation"; "new_reputation"; "epochs_applied"; "timestamp"]].
(** [src stellar/event-parser/contract-event-parser.ts:130-135 SCHEMAS_BY_TOPIC] *)
Definition by_topic (schemas : list EventSchema) : gmap string (list EventSchema) :=
  fold_left (fun m s => <[es_topic s := default [] (m !! es_topic s) ++ [s]]> m) schemas ∅.

Section parser.
Context {V : Type}.
Abbreviation parsed := (outcome ContractEventParseError (ParsedContractEvent V)).
(** The fields of an event; the registered names are distinct. *)
Definition assign (names : list string) (values : list V) : gmap string V :=
  fold_left (fun m kv => <[kv.1 := kv.2]> m) (combine names values) ∅.
Definition decoded (s : EventSchema) (values : list V) : ParsedContractEvent V := {|
  pe_name := es_name s; pe_category := es_category s; pe_topic := es_topic s; pe_version := es_version s; pe_fields := assign (es_fields s) values |}.
(** [src stellar/event-parser/contract-event-parser.ts:143-197 parseContractEvent], for a
    registry. *)
Definition parse_with (schemas : list EventSchema) (raw : RawContractEvent V) : parsed :=
  let candidates := default [] (by_topic schemas !! raw_topic raw) in
  match candidates with
  | [] => Exn {| er_code := UNKNOWN_TOPIC; er_retryable := false |}
  | _ =>
      let versionMatches := List.filter (fun s => es_version s =? raw_version raw) candidates in
      match versionMatches with
      | [] =>
          let knownVersions := insertion_sort Z.leb (remove_dups (map es_version candidates)) in
          Exn {| er_code := UNSUPPORTED_VERSION knownVersions; er_retryable := match knownVersions with v :: vs => fold_left Z.max vs v <? raw_version raw | [] => false end |}
      | _ =>
          match List.find (fun s => (length (es_fields s) =? length (raw_values raw))%nat) versionMatches with
          | None => Exn {| er_code := MALFORMED_PAYLOAD (map (fun s => length (es_fields s)) versionMatches) (length (raw_values raw)); er_retryable := false |}
          | Some s => Ok (decoded s (raw_values raw))
          end
      end
  end.
Definition parseContractEvent : RawContractEvent V -> parsed := parse_with EVENT_SCHEMAS.
(** [src stellar/event-parser/contract-event-parser.ts:200-205 parseGovernanceStreamEvent] *)
Definition parseGovernanceStreamEvent (eventVersion : Z) (values : list V) : parsed :=
  parseContractEvent {| raw_topic := GOVERNANCE_STREAM_TOPIC; raw_version := eventVersion; raw_values := values |}.
(** [src stellar/event-parser/contract-event-parser.ts:207-218 getCompatibilityMatrix] *)
Definition getCompatibilityMatrix : list EventSchema := EVENT_SCHEMAS.
End parser.

(** ** Analytics events *)

(** [src analytics/entities/analytics-event.entity.ts:11-25 ANALYTICS_EVENT_NAMES] *)
Definition ANALYTICS_EVENT_NAMES : list string := [
  "user_registered"; "user_login"; "confession_created"; "confession_publish_failed"; "comment_created"; "reaction_created"; "message_sent";
  "wallet_connected"; "stellar_tx_submitted"; "stellar_tx_confirmed"; "stellar_tx_failed"; "tip_completed"; "soroban_event_indexed"].
(** [src analytics/entities/analytics-event.entity.ts:29-29 ANALYTICS_NETWORKS] *)
Definition ANALYTICS_NETWORKS : list string := ["testnet"; "mainnet"].
(** [src analytics/analytics-event.service.ts:14-25 RecordAnalyticsEventInput] *)
Record RecordAnalyticsEventInput := {
  ai_eventName : string; ai_actorId : option string; ai_occurredAt : option ms; ai_network : option string; ai_assetCode : option string; ai_txHash : option string;
  ai_contractId : option string; ai_amountAtomic : option string; ai_idempotencyKey : option string; ai_metadata : option (list (string * json)) }.
(** [src analytics/entities/analytics-event.entity.ts:36-76 AnalyticsEvent] *)
Record AnalyticsEvent := {
  ae_eventName : string; ae_actorId : option string; ae_occurredAt : ms; ae_network : option string; ae_assetCode : option string; ae_txHash : option string;
  ae_contractId : option string; ae_amountAtomic : option string; ae_schemaVersion : Z; ae_idempotencyKey : option string; ae_metadata : option (list (string * json)) }.
Record AnalyticsDB := { an_clock : ms; an_enabled : string; an_rows : list AnalyticsEvent; an_up : bool }.
#[export] Instance eta_AnalyticsDB : Eta AnalyticsDB := fun w => {| an_clock := an_clock w; an_enabled := an_enabled w; an_rows := an_rows w; an_up := an_up w |}.
Inductive analytics_error := NameNotAllowed | NetworkNotAllowed | SensitiveField | AnalyticsQueryFailed.

(** [src analytics/analytics-event.service.ts:27-49 SENSITIVE_KEYS] *)
Definition SENSITIVE_KEYS : list string := [
  "body"; "content"; "message"; "password"; "password_hash"; "passwordhash"; "private_key"; "privatekey"; "seed"; "seed_phrase"; "seedphrase"; "jwt"; "token"; "session";
  "session_token"; "authorization"; "email"; "phone"; "ip"; "user_agent"; "useragent"].
(** [src analytics/analytics-event.service.ts:51-62 ALLOWED_METADATA_KEYS] *)
Definition ALLOWED_METADATA_KEYS : list string := [
  "source"; "state"; "reason"; "requestId"; "confessionId"; "commentId"; "reactionId"; "messageId"; "tipId"; "anchorStatus"].
Definition plain_char (c : Ascii.ascii) : bool := between "a"%char "z"%char c || between "0"%char "9"%char c.
Fixpoint str_filter (f : Ascii.ascii -> bool) (s : string) : string :=
  match s with EmptyString => EmptyString | String c s => if f c then String c (str_filter f s) else str_filter f s end.
Definition normalized (key : string) : string := str_filter plain_char (to_lower key).
Definition sensitive_key (key : string) : bool := existsb (fun s => normalized key =s? str_filter plain_char s) SENSITIVE_KEYS.
(** [src analytics/analytics-event.service.ts:135-151 assertNoSensitiveKeys]: whether a
    value holds no sensitive key; the indices of a list are none. *)
Fixpoint no_sensitive_keys (v : json) : bool :=
  match v with
  | JObj fs => forallb (fun f => negb (sensitive_key f.1) && no_sensitive_keys f.2) fs
  | JArr l => forallb no_sensitive_keys l
  | _ => true
  end.
Definition scalar (v : json) : bool := match v with JStr _ | JNum _ | JBool _ | JNull => true | _ => false end.
(** [src analytics/analytics-event.service.ts:153-176 filterMetadata]; a name is there once. *)
Definition filterMetadata (metadata : option (list (string * json))) : option (list (string * json)) :=
  match metadata with
  | None => None
  | Some fs => match List.filter (fun f => includes f.1 ALLOWED_METADATA_KEYS && scalar f.2) fs with [] => None | l => Some l end
  end.
(** [src analytics/analytics-event.service.ts:178-183 deriveTransactionKey] *)
Definition deriveTransactionKey (input : RecordAnalyticsEventInput) : option string :=
  match ai_txHash input with Some h => if truthy h then Some (ai_eventName input +:+ ":" +:+ h) else None | None => None end.
Definition within (n : nat) (v : option string) : bool := match v with Some s => (String.length s <=? n)%nat | None => true end.
(** The lengths of the columns. *)
Definition row_fits (e : AnalyticsEvent) : bool :=
  within 128 (ae_actorId e) && within 16 (ae_network e) && within 16 (ae_assetCode e) && within 64 (ae_txHash e) && within 128 (ae_contractId e)
  && within 80 (ae_amountAtomic e) && within 160 (ae_idempotencyKey e).
(** [save] of a new event; the key is unique, and a violation is answered with nothing. *)
Definition save_event (e : AnalyticsEvent) (w : AnalyticsDB) : outcome analytics_error (option AnalyticsEvent) * AnalyticsDB :=
  if negb (an_up w && row_fits e) then (Exn AnalyticsQueryFailed, w)
  else if match ae_idempotencyKey e with Some k => existsb (fun r => bool_decide (ae_idempotencyKey r = Some k)) (an_rows w) | None => false end then (Ok None, w)
  else (Ok (Some e), w <| an_rows ::= fun l => l ++ [e] |>).
Definition event_of (input : RecordAnalyticsEventInput) (now : ms) : AnalyticsEvent := {|
  ae_eventName := ai_eventName input; ae_actorId := ai_actorId input; ae_occurredAt := default now (ai_occurredAt input); ae_network := ai_network input;
  ae_assetCode := match ai_assetCode input with Some c => Some (to_upper c) | None => None end; ae_txHash := ai_txHash input; ae_contractId := ai_contractId input;
  ae_amountAtomic := ai_amountAtomic input; ae_schemaVersion := 1;
  ae_idempotencyKey := match ai_idempotencyKey input with Some k => Some k | None => deriveTransactionKey input end; ae_metadata := filterMetadata (ai_metadata input) |}.
(** [src analytics/analytics-event.service.ts:123-133 assertSafeInput]; the names of the
    input itself are none of the sensitive ones. *)
Definition assertSafeInput (input : RecordAnalyticsEventInput) : prog AnalyticsDB analytics_error unit :=
  do* guard (match ai_network input with Some n => negb (truthy n) || includes n ANALYTICS_NETWORKS | None => true end) NetworkNotAllowed in
  guard (no_sensitive_keys (match ai_metadata input with Some fs => JObj fs | None => JNull end)) SensitiveField.
(** [src analytics/analytics-event.service.ts:74-121 record] *)
Definition record (input : RecordAnalyticsEventInput) : prog AnalyticsDB analytics_error (option AnalyticsEvent) :=
  let* enabled := reads an_enabled in
  if enabled =s? "false" then Ret None else
  do* guard (includes (ai_eventName input) ANALYTICS_EVENT_NAMES) NameNotAllowed in
  do* assertSafeInput input in
  let* now := reads an_clock in
  attempts (save_event (event_of input now)).

(** ** Checkpoints *)

(** [src stellar/entities/soroban-event-checkpoint.entity.ts:17-58 SorobanEventCheckpoint],
    by network and contract. *)
Record Checkpoint := {
  cp_lastLedger : Z; cp_lastCursor : option string; cp_indexedEvents : Z; cp_failedEvents : Z; cp_lastErrorCode : option string; cp_lastErrorAt : option ms;
  cp_lastIndexedAt : option ms }.
#[export] Instance eta_Checkpoint : Eta Checkpoint := fun c => {|
  cp_lastLedger := cp_lastLedger c; cp_lastCursor := cp_lastCursor c; cp_indexedEvents := cp_indexedEvents c; cp_failedEvents := cp_failedEvents c;
  cp_lastErrorCode := cp_lastErrorCode c; cp_lastErrorAt := cp_lastErrorAt c; cp_lastIndexedAt := cp_lastIndexedAt c |}.
Record CheckDB := { ck_clock : ms; ck_rows : gmap (string * string) Checkpoint; ck_analytics : AnalyticsDB }.
#[export] Instance eta_CheckDB : Eta CheckDB := fun w => {| ck_clock := ck_clock w; ck_rows := ck_rows w; ck_analytics := ck_analytics w |}.
#[export] Program Instance check_analytics_lens : Lens CheckDB AnalyticsDB := {| lget := ck_analytics; lset a w := w <| ck_analytics := a |> |}.
Solve Obligations with by intros; repeat match goal with w : CheckDB |- _ => destruct w end.
Inductive check_error := BadRequest (m : string) | QueryFailed.
Abbreviation action := (prog CheckDB check_error).
(** [src stellar/soroban-event-checkpoint.service.ts:8-16 RecordSorobanEventInput] *)
Record RecordSorobanEventInput := {
  si_network : string; si_contractId : string; si_ledger : jsnum; si_cursor : option string; si_txHash : option string; si_idempotencyKey : option string }.

Definition base32_char (c : Ascii.ascii) : bool := between "A"%char "Z"%char c || between "2"%char "7"%char c.
(** [src stellar/soroban-event-checkpoint.service.ts:33-33 CONTRACT_ID_PATTERN] *)
Definition CONTRACT_ID_PATTERN (s : string) : bool :=
  match s with String c r => Ascii.eqb c "C"%char && (String.length r =? 55)%nat && str_forall base32_char r | EmptyString => false end.
(** [src stellar/soroban-event-checkpoint.service.ts:190-194 assertValidNetwork] *)
Definition assertValidNetwork (network : string) : action unit := guard (includes network ["testnet"; "mainnet"]) (BadRequest "Unsupported Stellar network").
(** [src stellar/soroban-event-checkpoint.service.ts:196-200 assertValidContractId] *)
Definition assertValidContractId (contractId : string) : action unit := guard (CONTRACT_ID_PATTERN contractId) (BadRequest "Invalid Soroban contract ID").
Definition safe_ledger (n : jsnum) : option Z := match num_integer n with Some z => if (0 <=? z) && (z <=? 9007199254740991) then Some z else None | None => None end.
(** [src stellar/soroban-event-checkpoint.service.ts:177-188 assertValidInput]; answers the
    ledger. *)
Definition assertValidInput (input : RecordSorobanEventInput) : action Z :=
  do* assertValidNetwork (si_network input) in
  do* assertValidContractId (si_contractId input) in
  let* ledger := of_option (safe_ledger (si_ledger input)) (BadRequest "Soroban event ledger must be a safe integer") in
  do* guard (within 256 (si_cursor input)) (BadRequest "Soroban event cursor exceeds 256 characters") in
  Ret ledger.
Definition INT_MAX : Z := 2147483647.
(** The statement of [recordIndexedEvent] on a row. *)
Definition indexed (ledger : Z) (cursor : option string) (now : ms) (row : option Checkpoint) : option Checkpoint :=
  match row with
  | None => Some {| cp_lastLedger := ledger; cp_lastCursor := cursor; cp_indexedEvents := 1; cp_failedEvents := 0; cp_lastErrorCode := None; cp_lastErrorAt := None; cp_lastIndexedAt := Some now |}
  | Some c =>
      if cp_indexedEvents c <? INT_MAX then
        Some (c <| cp_lastLedger := Z.max (cp_lastLedger c) ledger |> <| cp_lastCursor := (if cp_lastLedger c <=? ledger then cursor else cp_lastCursor c) |>
                <| cp_indexedEvents := cp_indexedEvents c + 1 |> <| cp_lastErrorCode := None |> <| cp_lastIndexedAt := Some now |>)
      else None
  end.
(** The statement of [recordFailure] on a row. *)
Definition failed (code : string) (now : ms) (row : option Checkpoint) : option Checkpoint :=
  match row with
  | None => Some {| cp_lastLedger := 0; cp_lastCursor := None; cp_indexedEvents := 0; cp_failedEvents := 1; cp_lastErrorCode := Some code; cp_lastErrorAt := Some now; cp_lastIndexedAt := None |}
  | Some c =>
      if cp_failedEvents c <? INT_MAX then
        Some (c <| cp_failedEvents := cp_failedEvents c + 1 |> <| cp_lastErrorCode := Some code |> <| cp_lastErrorAt := Some now |>)
      else None
  end.
(** [INSERT ... ON CONFLICT DO UPDATE]: a counter that overflows refuses it. *)
Definition upsert (key : string * string) (f : ms -> option Checkpoint -> option Checkpoint) (w : CheckDB) : outcome check_error unit * CheckDB :=
  match f (ck_clock w) (ck_rows w !! key) with
  | Some c => (Ok tt, w <| ck_rows ::= <[key := c]> |>)
  | None => (Exn QueryFailed, w)
  end.
Definition event_key (input : RecordSorobanEventInput) (ledger : Z) : string :=
  "soroban_event_indexed:" +:+ si_contractId input +:+ ":" +:+ pretty ledger +:+ ":" +:+ default "no-cursor" (si_cursor input).
(** [src stellar/soroban-event-checkpoint.service.ts:46-102 recordIndexedEvent] *)
Definition recordIndexedEvent (input : RecordSorobanEventInput) : action unit :=
  let* ledger := assertValidInput input in
  do* attempts (upsert (si_network input, si_contractId input) (indexed ledger (si_cursor input))) in
  try_catch
    (do* lift (fun _ => QueryFailed) (record {|
       ai_eventName := "soroban_event_indexed"; ai_actorId := None; ai_occurredAt := None; ai_network := Some (si_network input); ai_assetCode := None; ai_txHash := si_txHash input;
       ai_contractId := Some (si_contractId input); ai_amountAtomic := None;
       ai_idempotencyKey := Some (match si_idempotencyKey input with Some k => k | None => event_key input ledger end);
       ai_metadata := Some [("source", JStr "soroban_event_checkpoint"); ("state", JStr "indexed")] |}) in Ret tt)
    (fun _ => Ret tt).
Definition word_char (c : Ascii.ascii) : bool := between "A"%char "Z"%char c || between "a"%char "z"%char c || between "0"%char "9"%char c || Ascii.eqb c "_"%char.
(** [src stellar/soroban-event-checkpoint.service.ts:104-138 recordFailure] *)
Definition recordFailure (network contractId errorCode : string) : action unit :=
  do* assertValidNetwork network in
  do* assertValidContractId contractId in
  let code := take_str 64 (str_map (fun c => if word_char c then c else "_"%char) errorCode) in
  do* guard (truthy code) (BadRequest "Soroban index failure requires errorCode") in
  attempts (upsert (network, contractId) (failed code)).
(** [src stellar/soroban-event-checkpoint.service.ts:140-147 getCheckpoint] *)
Definition getCheckpoint (network contractId : string) : action (option Checkpoint) :=
  do* assertValidNetwork network in do* assertValidContractId contractId in reads (fun w => ck_rows w !! (network, contractId)).
(** [src stellar/soroban-event-checkpoint.service.ts:202-211 maxIso] *)
Definition maxIso (current : option string) (next : option ms) : option string :=
  match next with
  | None => current
  | Some t => match current with
              | Some c => if truthy c && str_le (toISOString t) c then current else Some (toISOString t)
              | None => Some (toISOString t)
              end
  end.
(** [src stellar/soroban-event-checkpoint.service.ts:24-30 SorobanIndexerSummary] *)
Record SorobanIndexerSummary := { sm_checkpoints : Z; sm_indexed : Z; sm_failed : Z; sm_lastIndexedAt : option string; sm_lastErrorAt : option string }.
(** [src stellar/soroban-event-checkpoint.service.ts:149-175 getSummary] *)
Definition getSummary : action SorobanIndexerSummary :=
  reads (fun w => fold_left (fun s c => {|
    sm_checkpoints := sm_checkpoints s + 1; sm_indexed := sm_indexed s + cp_indexedEvents c; sm_failed := sm_failed s + cp_failedEvents c;
    sm_lastIndexedAt := maxIso (sm_lastIndexedAt s) (cp_lastIndexedAt c); sm_lastErrorAt := maxIso (sm_lastErrorAt s) (cp_lastErrorAt c) |})
    (map snd (map_to_list (ck_rows w))) {| sm_checkpoints := 0; sm_indexed := 0; sm_failed := 0; sm_lastIndexedAt := None; sm_lastErrorAt := None |}).

(** ** The registry *)

Section registry.
Context {V : Type}.
Implicit Types (raw : RawContractEvent V) (s : EventSchema).
Definition matches s raw : bool := (es_topic s =s? raw_topic raw) && (es_version s =? raw_version raw) && (length (es_fields s) =? length (raw_values raw))%nat.

Lemma by_topic_lookup schemas t : default [] (by_topic schemas !! t) = List.filter (fun s => es_topic s =s? t) schemas.
Proof.
  unfold by_topic. enough (forall m, default [] (fold_left (fun m s => <[es_topic s := default [] (m !! es_topic s) ++ [s]]> m) schemas m !! t)
    = default [] (m !! t) ++ List.filter (fun s => es_topic s =s? t) schemas) as H by (by rewrite H, lookup_empty).
  induction schemas as [|s l IH]; intros m; cbn; [by rewrite app_nil_r|]. rewrite IH. destruct (str_eqb_spec (es_topic s) t) as [<-|Hne].
  - rewrite lookup_insert_eq. cbn. by rewrite <- app_assoc.
  - by rewrite lookup_insert_ne.
Qed.
Lemma find_filter_and (f g : EventSchema -> bool) l : List.find g (List.filter f l) = List.find (fun s => f s && g s) l.
Proof. induction l as [|s l IH]; [done|]. cbn. destruct (f s); cbn; [by rewrite IH|done]. Qed.
Lemma find_app_some (f : EventSchema -> bool) l l' s : List.find f l = Some s -> List.find f (l ++ l') = Some s.
Proof. induction l as [|x l IH]; [done|]. cbn. by destruct (f x). Qed.
Lemma filter_nil (f g : EventSchema -> bool) l : List.filter f l = [] -> (forall s, g s = true -> f s = true) -> List.find g l = None.
Proof.
  induction l as [|s l IH]; [done|]. cbn. destruct (f s) eqn:Hf; [done|]. intros Hl Hgf. destruct (g s) eqn:Hg; [by rewrite (Hgf s Hg) in Hf|by apply IH].
Qed.
(** The first schema that matches decodes the event. *)
Lemma parse_find schemas raw :
  match parse_with schemas raw with Ok p => exists s, List.find (fun s => matches s raw) schemas = Some s /\ p = decoded s (raw_values raw)
                                  | Exn _ => List.find (fun s => matches s raw) schemas = None end.
Proof.
  unfold parse_with. rewrite by_topic_lookup. set (f := fun s => es_topic s =s? raw_topic raw). set (g := fun s => es_version s =? raw_version raw).
  destruct (List.filter f schemas) as [|c cs] eqn:Hc; [apply (filter_nil f); [done|]; intros s; unfold matches; rewrite !andb_true_iff; tauto|].
  rewrite <- Hc. clear c cs Hc. rewrite <- filter_andb. destruct (List.filter (fun s => f s && g s) schemas) as [|c cs] eqn:Hc.
  { apply (filter_nil _ _ _ Hc). intros s. unfold matches. rewrite !andb_true_iff. tauto. }
  rewrite <- Hc, find_filter_and. change (fun s => f s && g s && _) with (fun s => matches s raw). destruct (List.find _ schemas) as [s|]; [by exists s|done].
Qed.
Lemma max_below v vs x : (fold_left Z.max vs v <? x) = forallb (fun v => v <? x) (v :: vs).
Proof.
  revert v. induction vs as [|u vs IH]; intros v; [by cbn; rewrite andb_true_r|]. cbn [fold_left]. rewrite IH. cbn. rewrite andb_assoc. f_equal.
  destruct (Z.ltb_spec (Z.max v u) x), (Z.ltb_spec v x), (Z.ltb_spec u x); done || lia.
Qed.

Lemma elem_of_sorted_versions (l : list EventSchema) v : v ∈ insertion_sort Z.leb (remove_dups (map es_version l)) <-> exists s, s ∈ l /\ es_version s = v.
Proof.
  rewrite elem_of_insertion_sort, elem_of_remove_dups. rewrite list_elem_of_In, in_map_iff.
  split; intros (s & H1 & H2); exists s; [by rewrite list_elem_of_In|by rewrite <- list_elem_of_In].
Qed.
Lemma retryable_exact schemas raw e :
  parse_with schemas raw = Exn e ->
  er_retryable e = true <-> (exists s, s ∈ schemas /\ es_topic s = raw_topic raw) /\ forall s, s ∈ schemas -> es_topic s = raw_topic raw -> es_version s < raw_version raw.
Proof.
  unfold parse_with. rewrite by_topic_lookup. set (f := fun s => es_topic s =s? raw_topic raw). set (known := List.filter f schemas).
  assert (Hk : forall s, s ∈ known <-> s ∈ schemas /\ es_topic s = raw_topic raw).
  { intros s. unfold known. by rewrite !list_elem_of_In, filter_In, <- str_eqb_eq. }
  destruct known as [|c cs] eqn:Hc.
  { intros [= <-]. cbn. split; [done|]. intros [(s & Hs) _]. apply Hk in Hs. by apply elem_of_nil in Hs. }
  rewrite <- Hc in *. set (versions := insertion_sort _ _). assert (Hv : forall v, v ∈ versions <-> exists s, s ∈ known /\ es_version s = v) by (intros; apply elem_of_sorted_versions).
  assert (Hin : c ∈ known) by (rewrite Hc; by left). clear Hc. destruct (List.filter _ known) as [|d ds] eqn:Hd.
  - intros [= <-]. cbn. assert (es_version c ∈ versions) as Hne by (apply Hv; by exists c). destruct versions as [|v vs]; [by apply elem_of_nil in Hne|].
    rewrite max_below, forallb_forall. split.
    + intros H. split; [exists c; by apply Hk|]. intros s Hs Ht. apply Z.ltb_lt, H, list_elem_of_In, Hv. exists s. split; [by apply Hk|done].
    + intros [_ H] x Hx. apply list_elem_of_In, Hv in Hx as (s & Hs & <-). apply Hk in Hs as [Hs Ht]. apply Z.ltb_lt. by apply H.
  - assert (d ∈ known /\ es_version d = raw_version raw) as [Hdk Hdv].
    { assert (d ∈ List.filter (fun s => es_version s =? raw_version raw) known) as H by (rewrite Hd; by left). apply list_elem_of_In, filter_In in H as [H1 H2].
      split; [by apply list_elem_of_In|by apply Z.eqb_eq]. }
    destruct (List.find _ (d :: ds)); [done|]. intros [= <-]. cbn. split; [done|]. intros [_ H]. apply Hk in Hdk as [Hds Hdt]. specialize (H d Hds Hdt). lia.
Qed.

(** The registry has one schema for a topic, a version and a number of fields, and the
    fields of a schema have distinct names. *)
Lemma registry_unambiguous s s' raw : s ∈ EVENT_SCHEMAS -> s' ∈ EVENT_SCHEMAS -> matches s raw = true -> matches s' raw = true -> s = s'.
Proof.
  intros Hs Hs' Hm Hm'. assert (es_topic s' = es_topic s /\ es_version s' = es_version s /\ length (es_fields s') = length (es_fields s)) as He.
  { unfold matches in *. rewrite !andb_true_iff, !str_eqb_eq, !Z.eqb_eq, !Nat.eqb_eq in *. destruct Hm as [[-> ->] ->], Hm' as [[-> ->] ->]. done. }
  assert (forallb (fun a => forallb (fun b => negb (bool_decide (es_topic b = es_topic a /\ es_version b = es_version a /\ length (es_fields b) = length (es_fields a))) || bool_decide (a = b))
    EVENT_SCHEMAS) EVENT_SCHEMAS = true) as H by (vm_compute; reflexivity).
  rewrite forallb_forall in H. specialize (H s (proj1 (list_elem_of_In _ _) Hs)). rewrite forallb_forall in H. specialize (H s' (proj1 (list_elem_of_In _ _) Hs')).
  rewrite (bool_decide_eq_true_2 _ He) in H. by apply bool_decide_eq_true in H.
Qed.
Lemma registry_names s : s ∈ EVENT_SCHEMAS -> NoDup (es_fields s).
Proof.
  intros Hs. assert (forallb (fun a => bool_decide (NoDup (es_fields a))) EVENT_SCHEMAS = true) as H by (vm_compute; reflexivity).
  rewrite forallb_forall in H. by apply (bool_decide_eq_true_1 _ (H s (proj1 (list_elem_of_In _ _) Hs))).
Qed.
Lemma assign_other (names : list string) (values : list V) (m : gmap string V) n :
  n ∉ names -> fold_left (fun m kv => <[kv.1 := kv.2]> m) (combine names values) m !! n = m !! n.
Proof.
  revert values m. induction names as [|k names IH]; intros values m Hn; [done|]. destruct values as [|v values]; [done|]. cbn. apply not_elem_of_cons in Hn as [Hk Hn].
  rewrite IH by done. by rewrite lookup_insert_ne by congruence.
Qed.
Lemma assign_names (names : list string) (values : list V) :
  NoDup names -> length names = length values -> map (fun n => assign names values !! n) names = map Some values.
Proof.
  unfold assign. generalize (∅ : gmap string V). revert values. induction names as [|k names IH]; intros values m Hnd Hl; destruct values as [|v values]; try done.
  apply NoDup_cons in Hnd as [Hk Hnd]. injection Hl as Hl. cbn. f_equal; [rewrite assign_other by done; apply lookup_insert_eq|]. by apply IH.
Qed.

(** C29. An event is parsed exactly when the registry has a schema of its topic, version and
    number of fields, by that schema; what is refused is kept for later exactly when its
    topic is known and its version is above every registered one. *)
Theorem parse_exact raw :
  match parseContractEvent raw with
  | Ok p => exists s, s ∈ EVENT_SCHEMAS /\ matches s raw = true /\ p = decoded s (raw_values raw)
  | Exn e => (forall s, s ∈ EVENT_SCHEMAS -> matches s raw = false)
      /\ (er_retryable e = true <-> (exists s, s ∈ EVENT_SCHEMAS /\ es_topic s = raw_topic raw)
            /\ forall s, s ∈ EVENT_SCHEMAS -> es_topic s = raw_topic raw -> es_version s < raw_version raw)
  end.
Proof.
  pose proof (parse_find EVENT_SCHEMAS raw) as Hf. unfold parseContractEvent. destruct (parse_with EVENT_SCHEMAS raw) as [p|e] eqn:Hp.
  - destruct Hf as (s & Hs & ->). apply find_some in Hs as [Hin Hm]. exists s. by rewrite list_elem_of_In.
  - split; [intros s Hs; by apply (find_none _ _ Hf), list_elem_of_In|]. exact (retryable_exact EVENT_SCHEMAS raw e Hp).
Qed.
(** The values of an event of a registered schema are read back by the names of its
    fields, under the name and the category of the schema. *)
Theorem event_read_back s values :
  s ∈ EVENT_SCHEMAS -> length (es_fields s) = length values ->
  exists p : ParsedContractEvent V, parseContractEvent {| raw_topic := es_topic s; raw_version := es_version s; raw_values := values |} = Ok p
    /\ pe_name p = es_name s /\ pe_category p = es_category s /\ map (fun n => (pe_fields p : gmap string V) !! n) (es_fields s) = map Some values.
Proof.
  intros Hs Hl. set (raw := {| raw_topic := es_topic s; raw_version := es_version s; raw_values := values |}).
  assert (matches s raw = true) as Hm by (unfold matches; cbn; by rewrite str_eqb_refl, Z.eqb_refl, Hl, Nat.eqb_refl).
  pose proof (parse_find EVENT_SCHEMAS raw) as Hf. unfold parseContractEvent. destruct (parse_with EVENT_SCHEMAS raw) as [p|e].
  - destruct Hf as (s' & Hs' & ->). apply find_some in Hs' as [Hin Hm']. rewrite <- (registry_unambiguous s s' raw); [|done|by apply list_elem_of_In|done|done].
    eexists. split_and!; [done..|]. apply assign_names; [by apply registry_names|done].
  - by rewrite (find_none _ _ Hf s (proj1 (list_elem_of_In _ _) Hs)) in Hm.
Qed.
(** A schema that is appended to a registry changes no event that was parsed. *)
Theorem extension_conservative schemas new raw p : parse_with schemas raw = Ok p -> parse_with (schemas ++ new) raw = Ok p.
Proof.
  intros Hp. pose proof (parse_find schemas raw) as Hf. rewrite Hp in Hf. destruct Hf as (s & Hs & ->).
  pose proof (parse_find (schemas ++ new) raw) as Hf. rewrite (find_app_some _ _ _ _ Hs) in Hf. destruct (parse_with (schemas ++ new) raw); [|done]. by destruct Hf as (? & [= <-] & ->).
Qed.
End registry.

(** ** How far a contract has been indexed *)

Inductive CheckRequest := QIndexed (input : RecordSorobanEventInput) | QFailed (network contractId errorCode : string).
Definition serve_check (r : CheckRequest) : action unit :=
  match r with QIndexed i => recordIndexedEvent i | QFailed n c e => recordFailure n c e end.
Definition run_all (reqs : list CheckRequest) (w : CheckDB) : CheckDB := fold_left (fun w r => (run (serve_check r) w).2) reqs w.
Definition valid_key (n c : string) : bool := includes n ["testnet"; "mainnet"] && CONTRACT_ID_PATTERN c.
(** What a request stands for: an event of a ledger, a failure, or nothing. *)
Definition mark_of (key : string * string) (r : CheckRequest) : option (option Z) :=
  match r with
  | QIndexed i =>
      if valid_key (si_network i) (si_contractId i) && within 256 (si_cursor i) && bool_decide (key = (si_network i, si_contractId i))
      then match safe_ledger (si_ledger i) with Some l => Some (Some l) | None => None end else None
  | QFailed n c e => if valid_key n c && truthy (take_str 64 (str_map (fun c => if word_char c then c else "_"%char) e)) && bool_decide (key = (n, c)) then Some None else None
  end.
(** The highest ledger, and how many events and failures there were. *)
Definition totals (c : Checkpoint) : Z * Z * Z := (cp_lastLedger c, cp_indexedEvents c, cp_failedEvents c).
Definition totals_of (l : list (option Z)) : option (Z * Z * Z) :=
  match l with
  | [] => None
  | _ => Some (fold_right Z.max 0 (omap (fun m => m) l), Z.of_nat (length (omap (fun m => m) l)), Z.of_nat (length (List.filter (fun m => match m with None => true | _ => false end) l)))
  end.
Definition marked (m : option Z) (t : option (Z * Z * Z)) : Z * Z * Z :=
  match t, m with
  | None, Some l => (l, 1, 0)
  | None, None => (0, 0, 1)
  | Some (a, b, c), Some l => (Z.max a l, b + 1, c)
  | Some (a, b, c), None => (a, b, c + 1)
  end.
Definition totals_at (key : string * string) (w : CheckDB) : option (Z * Z * Z) := match ck_rows w !! key with Some c => Some (totals c) | None => None end.
Definition roomy (n : Z) (t : option (Z * Z * Z)) : Prop := match t with Some (_, b, c) => b + n <= INT_MAX /\ c + n <= INT_MAX | None => n <= INT_MAX end.

Lemma run_key n c w : run (do* assertValidNetwork n in assertValidContractId c) w = (if valid_key n c then Ok tt else Exn (if includes n ["testnet"; "mainnet"] then BadRequest "Invalid Soroban contract ID" else BadRequest "Unsupported Stellar network"), w).
Proof. rewrite run_bind. unfold assertValidNetwork, assertValidContractId, valid_key. rewrite run_guard. destruct (includes _ _); [|done]. rewrite run_guard. by destruct (CONTRACT_ID_PATTERN c). Qed.
Lemma upsert_totals key f m w k :
  (forall t, exists c, f t None = Some c /\ totals c = marked m None) ->
  (forall t c0, roomy 1 (Some (totals c0)) -> exists c, f t (Some c0) = Some c /\ totals c = marked m (Some (totals c0))) ->
  roomy 1 (totals_at key w) ->
  totals_at k (upsert key f w).2 = if bool_decide (k = key) then Some (marked m (totals_at k w)) else totals_at k w.
Proof.
  intros Hnone Hsome Hroom. unfold upsert, totals_at in *. destruct (ck_rows w !! key) as [c0|] eqn:Hk.
  - destruct (Hsome (ck_clock w) c0 Hroom) as (c & -> & Hc). cbn. destruct (bool_decide_reflect (k = key)) as [->|Hne].
    + rewrite lookup_insert_eq, Hk. by rewrite Hc.
    + by rewrite lookup_insert_ne by congruence.
  - destruct (Hnone (ck_clock w)) as (c & -> & Hc). cbn. destruct (bool_decide_reflect (k = key)) as [->|Hne].
    + rewrite lookup_insert_eq, Hk. by rewrite Hc.
    + by rewrite lookup_insert_ne by congruence.
Qed.
Lemma serve_totals r w k :
  (forall key, roomy 1 (totals_at key w)) ->
  totals_at k (run (serve_check r) w).2 = match mark_of k r with Some m => Some (marked m (totals_at k w)) | None => totals_at k w end.
Proof.
  intros Hroom. destruct r as [i|n c e]; cbn [serve_check mark_of].
  - unfold recordIndexedEvent, assertValidInput. rewrite run_bind, run_bind. unfold assertValidNetwork. rewrite run_guard. unfold valid_key.
    destruct (includes (si_network i) _); [|done]. cbn [andb]. unfold assertValidContractId. rewrite run_bind, run_guard. destruct (CONTRACT_ID_PATTERN _); [|done]. cbn [andb].
    rewrite run_bind, run_of_option. destruct (safe_ledger (si_ledger i)) as [l|]; [|by repeat case_match]. rewrite run_bind, run_guard. destruct (within 256 _); [|done]. cbn [andb run].
    rewrite run_bind, run_attempts. pose proof (upsert_totals (si_network i, si_contractId i) (indexed l (si_cursor i)) (Some l) w k) as Hu.
    destruct (upsert _ _ w) as [[[]|e] w1] eqn:He; cbn [snd] in Hu; cbn [snd].
    + rewrite run_try_catch, run_bind. rewrite run_lift. destruct (run (record _) (lget w1)) as [[o|e] q]; cbn [map_exn fst snd run bind].
      all: change (totals_at k (lset q w1)) with (totals_at k w1); rewrite Hu; [by case_bool_decide| | |apply Hroom];
        [intros t; by eexists|intros t c0 [H1 H2]; cbn in H1; eexists; split; [cbn; by rewrite (proj2 (Z.ltb_lt _ _)) by lia|done]].
    + rewrite Hu; [by case_bool_decide| | |apply Hroom].
      all: [> intros t; by eexists|intros t c0 [H1 H2]; cbn in H1; eexists; split; [cbn; by rewrite (proj2 (Z.ltb_lt _ _)) by lia|done]].
  - unfold recordFailure, assertValidNetwork, assertValidContractId. rewrite run_bind, run_guard. unfold valid_key.
    destruct (includes n _); [|done]. cbn [andb]. rewrite run_bind, run_guard. destruct (CONTRACT_ID_PATTERN _); [|done]. cbn [andb].
    rewrite run_bind, run_guard. destruct (truthy _); [|done]. cbn [andb run]. rewrite run_attempts.
    rewrite (upsert_totals (n, c) _ None); [by case_bool_decide| | |apply Hroom].
    + intros t. by eexists.
    + intros t c0 [H1 H2]. cbn in H2. eexists. split; [cbn; by rewrite (proj2 (Z.ltb_lt _ _)) by lia|done].
Qed.
Lemma run_all_totals reqs w k :
  (forall key, roomy (Z.of_nat (length reqs)) (totals_at key w)) ->
  totals_at k (run_all reqs w) = fold_left (fun t m => Some (marked m t)) (omap (mark_of k) reqs) (totals_at k w).
Proof.
  revert w. induction reqs as [|r reqs IH]; intros w Hroom; [done|]. change (run_all (r :: reqs) w) with (run_all reqs (run (serve_check r) w).2).
  assert (forall key, roomy 1 (totals_at key w)) as H1.
  { intros key. specialize (Hroom key). destruct (totals_at key w) as [[[a b] c]|]; cbn [roomy length] in *; lia. }
  rewrite IH.
  - rewrite (serve_totals r w k H1). cbn. by destruct (mark_of k r).
  - intros key. rewrite (serve_totals r w key H1). specialize (Hroom key). cbn [length] in Hroom. rewrite Nat2Z.inj_succ in Hroom.
    destruct (mark_of key r) as [[l|]|], (totals_at key w) as [[[a b] c]|]; cbn in *; unfold INT_MAX in *; lia.
Qed.
Lemma marked_fold l a b c :
  0 <= a ->
  fold_left (fun t m => Some (marked m t)) l (Some (a, b, c))
  = Some (Z.max a (fold_right Z.max 0 (omap (fun m => m) l)), b + Z.of_nat (length (omap (fun m => m) l)),
          c + Z.of_nat (length (List.filter (fun m => match m with None => true | _ => false end) l))).
Proof.
  revert a b c. induction l as [|[x|] l IH]; intros a b c Ha; [cbn; apply f_equal, f_equal2; [apply f_equal2; lia|lia]| |].
  - change (omap (fun m => m) (Some x :: l)) with (x :: omap (fun m : option Z => m) l). cbn [fold_left marked fold_right length List.filter]. rewrite IH by lia. apply f_equal, f_equal2; [apply f_equal2; lia|lia].
  - change (omap (fun m => m) (None :: l)) with (omap (fun m : option Z => m) l). cbn [fold_left marked fold_right length List.filter]. rewrite IH by lia. apply f_equal, f_equal2; [apply f_equal2; lia|lia].
Qed.
Lemma max_nonneg (l : list Z) : 0 <= fold_right Z.max 0 l.
Proof. induction l; cbn; lia. Qed.
Lemma marked_totals l : Forall (fun m => match m with Some x => 0 <= x | None => True end) l -> fold_left (fun t m => Some (marked m t)) l None = totals_of l.
Proof.
  destruct l as [|[x|] l]; [done| |]; intros H; apply Forall_cons in H as [Hx _]; pose proof (max_nonneg (omap (fun m : option Z => m) l)); cbn [fold_left marked]; rewrite marked_fold by lia; unfold totals_of.
  - change (omap (fun m => m) (Some x :: l)) with (x :: omap (fun m : option Z => m) l). cbn [fold_right length List.filter]. apply f_equal, f_equal2; [apply f_equal2; lia|lia].
  - change (omap (fun m => m) (None :: l)) with (omap (fun m : option Z => m) l). cbn [fold_right length List.filter]. apply f_equal, f_equal2; [apply f_equal2; lia|lia].
Qed.
Lemma marks_nonneg k reqs : Forall (fun m => match m with Some x => 0 <= x | None => True end) (omap (mark_of k) reqs).
Proof.
  apply Forall_forall. intros m Hm. apply list_elem_of_omap in Hm as (r & _ & Hr). destruct m as [x|]; [|done]. destruct r as [i|]; cbn in Hr; [|by repeat case_match].
  unfold safe_ledger in Hr. repeat case_match; try done. simplify_eq. boolp. lia.
Qed.
Lemma totals_of_perm l l' : l ≡ₚ l' -> totals_of l = totals_of l'.
Proof.
  intros Hp.
  assert (omap (fun m : option Z => m) l ≡ₚ omap (fun m => m) l') as Ho by by rewrite Hp.
  assert (fold_right Z.max 0 (omap (fun m : option Z => m) l) = fold_right Z.max 0 (omap (fun m => m) l')) as Hmax.
  { clear Hp. induction Ho; cbn; lia. }
  assert (length (List.filter (fun m : option Z => match m with None => true | _ => false end) l) = length (List.filter (fun m => match m with None => true | _ => false end) l')) as Hf.
  { clear Ho Hmax. induction Hp as [|x l l' _ IH|x y l|l1 l2 l3 _ IH1 _ IH2]; cbn; [done|destruct x; cbn; congruence|by destruct x, y|congruence]. }
  destruct l as [|x l]; [by apply Permutation_nil in Hp as ->|]. destruct l' as [|x' l']; [by apply Permutation_sym, Permutation_nil in Hp|].
  unfold totals_of. by rewrite Hmax, Hf, Ho.
Qed.

(** Starting from nothing, the row of a contract has the highest ledger of its events and
    the numbers of its events and failures, whatever the order in which they arrive; what
    is refused leaves no trace. *)
Theorem checkpoint_totals reqs reqs' w k :
  ck_rows w = ∅ -> Z.of_nat (length reqs) <= INT_MAX -> reqs ≡ₚ reqs' ->
  totals_at k (run_all reqs w) = totals_of (omap (mark_of k) reqs) /\ totals_at k (run_all reqs' w) = totals_at k (run_all reqs w).
Proof.
  intros Hw Hn Hp. assert (forall l, l ≡ₚ reqs -> totals_at k (run_all l w) = totals_of (omap (mark_of k) l)) as H.
  { intros l Hl. assert (Hnone : forall key, totals_at key w = None) by (intros key; unfold totals_at; by rewrite Hw, lookup_empty).
    rewrite run_all_totals by (intros key; rewrite Hnone, Hl; done). rewrite Hnone. apply marked_totals, marks_nonneg. }
  split; [by apply H|]. rewrite !H by done. apply totals_of_perm. by rewrite Hp.
Qed.

(** ** Concrete events *)

Definition ex_contract : string := "CCHDY246UUPY6VUGIDVSK266KXA64CXM6RR2QLTKJD7E7IGV74ZP5XFB".
Definition ex_event (ledger : Z) (cursor : option string) : CheckRequest := QIndexed {|
  si_network := "testnet"; si_contractId := ex_contract; si_ledger := num_of_Z ledger; si_cursor := cursor; si_txHash := None; si_idempotencyKey := None |}.
Definition ex_check : CheckDB := {| ck_clock := 1000; ck_rows := ∅; ck_analytics := {| an_clock := 1000; an_enabled := "true"; an_rows := []; an_up := true |} |}.
Definition ex_reqs : list CheckRequest := [ex_event 7 (Some "b"); QFailed "testnet" ex_contract "TIMEOUT"; ex_event 9 (Some "c"); ex_event (-1) None; ex_event 8 None].
Lemma checkpoint_totals_witness :
  totals_at ("testnet", ex_contract) (run_all ex_reqs ex_check) = Some (9, 3, 1)
  /\ totals_at ("testnet", ex_contract) (run_all ex_reqs ex_check) = totals_of (omap (mark_of ("testnet", ex_contract)) ex_reqs)
  /\ totals_at ("testnet", ex_contract) (run_all (ex_reqs ++ []) ex_check) = totals_at ("testnet", ex_contract) (run_all ex_reqs ex_check).
Proof.
  split; [vm_compute; reflexivity|]. apply (checkpoint_totals ex_reqs (ex_reqs ++ []) ex_check ("testnet", ex_contract)); [done|done|by rewrite app_nil_r].
Defined.
Definition ex_raw (t : string) (v : Z) (l : list Z) : RawContractEvent Z := {| raw_topic := t; raw_version := v; raw_values := l |}.
Definition ex_schema : EventSchema := nth 5 EVENT_SCHEMAS (schema "" "" "" 0 []).
Lemma event_read_back_witness :
  exists p : ParsedContractEvent Z, parseContractEvent (ex_raw "tip_pause" 1 [1; 2; 3; 4]) = Ok p /\ pe_name p = "PauseChangedEvent" /\ pe_category p = "pause"
    /\ map (fun n => (pe_fields p : gmap string Z) !! n) ["actor"; "paused"; "reason"; "timestamp"] = map Some [1; 2; 3; 4].
Proof. apply (event_read_back ex_schema [1; 2; 3; 4]); [|done]. apply list_elem_of_In. vm_compute. tauto. Defined.
Definition code_of {V} (r : outcome ContractEventParseError (ParsedContractEvent V)) : option (parse_code * bool) := match r with Ok _ => None | Exn e => Some (er_code e, er_retryable e) end.
Example parse_errors :
  map (fun r => code_of (parseContractEvent r)) [ex_raw "tip_paused" 1 []; ex_raw "tip_pause" 2 [1]; ex_raw "tip_pause" 0 [1]; ex_raw "report" 1 [1]]
  = [Some (UNKNOWN_TOPIC, false); Some (UNSUPPORTED_VERSION [1], true); Some (UNSUPPORTED_VERSION [1], false); Some (MALFORMED_PAYLOAD [7; 6]%nat 1%nat, false)].
Proof. by vm_compute. Qed.

(** Events the badge contract publishes have no schema. *)
Theorem published_unregistered :
  map (fun t => code_of (parseContractEvent (ex_raw t 1 [1]))) ["badge_transferred"; "badge_type_created"; "admin_transferred"; "contract_paused"; "epoch_recalibrated"]
  = replicate 5 (Some (UNKNOWN_TOPIC, false)).
Proof. by vm_compute. Qed.
(** A replayed event is counted again, though its analytics event is not recorded again;
    within a ledger the cursor goes back to it, and one without a cursor erases it. *)
Theorem replay_moves_checkpoint :
  let w := run_all [ex_event 7 (Some "a"); ex_event 7 (Some "b"); ex_event 7 (Some "a")] ex_check in
  let w' := run_all [ex_event 7 (Some "b"); ex_event 7 None] ex_check in
  match ck_rows w !! ("testnet", ex_contract) with Some c => cp_indexedEvents c = 3 /\ cp_lastCursor c = Some "a" | None => False end
  /\ length (an_rows (ck_analytics w)) = 2%nat
  /\ match ck_rows w' !! ("testnet", ex_contract) with Some c => cp_lastCursor c = None | None => False end.
Proof. by vm_compute. Qed.
(** The key of the analytics event does not fit its column when the cursor is long: the
    event is indexed and not recorded. *)
Theorem long_cursor_unrecorded :
  let w := run_all [ex_event 7 (Some (String.string_of_list_ascii (replicate 100 "a"%char)))] ex_check in
  totals_at ("testnet", ex_contract) w = Some (7, 1, 0) /\ an_rows (ck_analytics w) = [].
Proof. by vm_compute. Qed.
