(* ===== verification/StellarErrors.v ===== *)
(** * Errors and retries of the Stellar services

    [src/xconfess-backend/src/stellar/utils/]: the codes of contract errors, their
    classification and what is answered for them, and the errors of transactions; and the
    loops of [stellar.service.ts], [contract.service.ts] and
    [transaction-builder.service.ts] that try a remote call again.  What the network answers
    to the attempts of a call is a parameter, as are the Stellar SDK and drawn numbers;
    the limits of the configuration are natural numbers. *)
From stdpp Require Import pretty.
From S2P Require Import Prelude Numbers Effects.
Open Scope Z_scope.

(** ** Codes *)

(** [src stellar/utils/stellar-contract-errors.ts:14-23 ContractErrorClassification] *)
Inductive ContractErrorClassification := RETRYABLE | TERMINAL | UNKNOWN.
#[export] Instance classification_eq_dec : EqDecision ContractErrorClassification.
Proof. solve_decision. Defined.
(** [src stellar/utils/stellar-contract-errors.ts:29-60 ANCHOR_ERROR_CODES] *)
Definition ANCHOR_ERROR_CODES : list (string * Z) := [
  ("UNAUTHORIZED", 1000); ("NOT_FOUND", 1001); ("INVALID_INPUT", 1002); ("OVERFLOW", 1003); ("COOLDOWN_ACTIVE", 1004);
  ("PAYLOAD_TOO_LARGE", 1005); ("METADATA_TOO_LONG", 1006); ("CONFESSION_EXISTS", 2000); ("CONFESSION_EMPTY", 2001); ("CONFESSION_TOO_LONG", 2002);
  ("REACTION_EXISTS", 3000); ("INVALID_REACTION_TYPE", 3001); ("REPORT_EXISTS", 4000); ("INVALID_REPORT_REASON", 4001); ("REPORT_REASON_TOO_LONG", 4002);
  ("PROPOSAL_NOT_FOUND", 5000); ("UNAUTHORIZED_APPROVAL", 5001); ("QUORUM_NOT_REACHED", 5002); ("ALREADY_APPROVED", 5003); ("ALREADY_EXECUTED", 5004);
  ("INVALID_ACTION", 5005)].
(** [src stellar/utils/stellar-contract-errors.ts:66-80 TIPPING_ERROR_CODES] *)
Definition TIPPING_ERROR_CODES : list (string * Z) := [
  ("INVALID_TIP_AMOUNT", 6001); ("METADATA_TOO_LONG", 6002); ("TOTAL_OVERFLOW", 6003); ("NONCE_OVERFLOW", 6004); ("UNAUTHORIZED", 6005);
  ("CONTRACT_PAUSED", 6006); ("RATE_LIMITED", 6007); ("INVALID_RATE_LIMIT_CONFIG", 6008); ("TOKEN_NOT_CONFIGURED", 6009); ("SETTLEMENT_REPLAY", 6010);
  ("SETTLEMENT_NOT_FOUND", 6011); ("RECIPIENT_MISMATCH", 6012)].
(** [{ ...fields, [k]: v }]: a name that is there keeps its place. *)
Fixpoint put (k : string) (v : Z) (fields : list (string * Z)) : list (string * Z) :=
  match fields with
  | [] => [(k, v)]
  | (k', v') :: l => if k' =s? k then (k, v) :: l else (k', v') :: put k v l
  end.
(** [src stellar/utils/stellar-contract-errors.ts:85-90 CONTRACT_ERROR_CODES] *)
Definition CONTRACT_ERROR_CODES : list (string * Z) :=
  fold_left (fun l f => put f.1 f.2 l)
    ([("TIPPING_METADATA_TOO_LONG", 6002); ("TIPPING_UNAUTHORIZED", 6005)] ++ ANCHOR_ERROR_CODES) TIPPING_ERROR_CODES.
(** [src stellar/utils/stellar-contract-errors.ts:101-146 ERROR_CLASSIFICATIONS] *)
Definition ERROR_CLASSIFICATIONS : list (Z * ContractErrorClassification) := [
  (1000, TERMINAL); (1001, TERMINAL); (1002, TERMINAL); (1003, RETRYABLE); (1004, RETRYABLE); (1005, TERMINAL); (1006, TERMINAL); (2000, TERMINAL);
  (2001, TERMINAL); (2002, TERMINAL); (3000, TERMINAL); (3001, TERMINAL); (4000, TERMINAL); (4001, TERMINAL); (4002, TERMINAL); (5000, TERMINAL);
  (5001, TERMINAL); (5002, TERMINAL); (5003, TERMINAL); (5004, TERMINAL); (5005, TERMINAL); (6001, TERMINAL); (6002, TERMINAL); (6003, RETRYABLE);
  (6004, RETRYABLE); (6005, TERMINAL); (6006, RETRYABLE); (6007, RETRYABLE); (6008, TERMINAL); (6009, TERMINAL); (6010, TERMINAL); (6011, TERMINAL);
  (6012, TERMINAL)].
Definition code_find {A} (code : Z) (l : list (Z * A)) : option A := match List.find (fun p => p.1 =? code) l with Some p => Some p.2 | None => None end.
(** [src stellar/utils/stellar-contract-errors.ts:163-170 classifyContractError] *)
Definition classifyContractError (errorCode : Z) : ContractErrorClassification := default UNKNOWN (code_find errorCode ERROR_CLASSIFICATIONS).
(** [src stellar/utils/stellar-contract-errors.ts:176-178 isRetryableContractError] *)
Definition isRetryableContractError (errorCode : Z) : bool := bool_decide (classifyContractError errorCode = RETRYABLE).
Definition title (word : string) : string := match word with String c r => String (upper_ascii c) (to_lower r) | EmptyString => EmptyString end.
(** [src stellar/utils/stellar-contract-errors.ts:184-202 getContractErrorMessage] *)
Definition getContractErrorMessage (errorCode : Z) : string :=
  match List.find (fun f => f.2 =? errorCode) CONTRACT_ERROR_CODES with
  | None => "Unknown contract error: " +:+ pretty errorCode
  | Some f => join_with " " (map title (split_on "_"%char f.1))
  end.
(** [src stellar/utils/stellar-contract-errors.ts:210-241 getHttpStatusForContractError] *)
Definition getHttpStatusForContractError (errorCode : Z) : Z :=
  match classifyContractError errorCode with
  | RETRYABLE => 503
  | _ =>
      let one_of := existsb (Z.eqb errorCode) in
      if one_of [1000; 6005] then 403
      else if one_of [1001; 5000] then 404
      else if one_of [2000; 3000; 4000; 6010] then 409
      else if one_of [6011] then 404
      else if one_of [6009] then 500
      else 400
  end.
(** [src stellar/utils/stellar-contract-errors.ts:248-264 getRetryDelayMs]; [draw] is
    [Math.random()]. *)
Definition getRetryDelayMs (errorCode : Z) (attemptNumber : nat) (draw : Q) : option Q :=
  if negb (isRetryableContractError errorCode) then None
  else let baseDelay := inject_Z (100 * 2 ^ Z.of_nat attemptNumber) in Some (baseDelay + draw * baseDelay)%Q.
(** [src stellar/utils/stellar-error.handler.ts:90-135 CLIENT_SAFE_MESSAGES] *)
Definition CLIENT_SAFE_MESSAGES : list (Z * string) := [
  (1000, "You are not authorized to perform this action. Please check your wallet or permissions.");
  (1001, "The requested resource was not found. It may have been removed or never existed.");
  (1002, "The input provided is invalid. Please check your data and try again.");
  (1003, "A numeric overflow occurred. Please try again with a smaller value.");
  (1004, "Please wait before performing this action again. The cooldown period is still active.");
  (1005, "The data submitted exceeds the maximum allowed size. Please reduce the payload.");
  (1006, "The metadata provided exceeds the maximum length. Please shorten it.");
  (2000, "This confession has already been recorded. Duplicate submissions are not allowed.");
  (2001, "Confession content cannot be empty. Please write a message.");
  (2002, "The confession is too long. Please shorten your message.");
  (3000, "You have already reacted to this confession.");
  (3001, "This reaction type is not supported.");
  (4000, "This confession has already been reported.");
  (4001, "The report reason provided is not valid.");
  (4002, "The report reason is too long. Please shorten it.");
  (5000, "The governance proposal was not found.");
  (5001, "You are not authorized to approve this proposal.");
  (5002, "The required quorum for this proposal has not been reached.");
  (5003, "This proposal has already been approved.");
  (5004, "This proposal has already been executed.");
  (5005, "The proposed action is not valid.");
  (6001, "The tip amount is invalid. Please enter a valid amount.");
  (6002, "The tip metadata is too long. Please shorten it.");
  (6003, "The total tip amount has exceeded the maximum. Please try a smaller amount.");
  (6004, "Too many tips sent. Please wait and try again.");
  (6005, "You are not authorized to send this tip.");
  (6006, "Tipping is temporarily paused. Please try again later.");
  (6007, "You are sending tips too quickly. Please wait before trying again.");
  (6008, "The rate limit configuration is invalid. Please contact support.");
  (6009, "Tipping is not available right now. Please contact support.");
  (6010, "This tip settlement has already been recorded.");
  (6011, "The tip settlement could not be found.");
  (6012, "This tip settlement does not belong to the given recipient.")].
(** [src stellar/utils/stellar-error.handler.ts:139-143 getClientSafeContractErrorMessage] *)
Definition getClientSafeContractErrorMessage (errorCode : Z) : string := default (getContractErrorMessage errorCode) (code_find errorCode CLIENT_SAFE_MESSAGES).
(** [src stellar/utils/stellar-error.handler.ts:47-86 StellarContractError] with its response. *)
Record StellarContractError := { ce_code : Z; ce_message : string; ce_classification : ContractErrorClassification; ce_httpStatus : Z; ce_retryable : bool }.
(** [src stellar/utils/stellar-error.handler.ts:145-149 handleStellarContractError] *)
Definition handleStellarContractError (errorCode : Z) : StellarContractError :=
  let c := classifyContractError errorCode in
  {| ce_code := errorCode; ce_message := getClientSafeContractErrorMessage errorCode; ce_classification := c;
     ce_httpStatus := getHttpStatusForContractError errorCode; ce_retryable := bool_decide (c = RETRYABLE) |}.

(** ** Errors of transactions *)

(** An error of a remote call: its message, its status if it has one, the result codes of
    the answer as text with the code of the transaction, and the detail of the answer. *)
Record remote_error := { re_message : string; re_status : option Z; re_codes : option (option string * string); re_detail : option string; re_abort : bool }.
Definition plain (m : string) : remote_error := {| re_message := m; re_status := None; re_codes := None; re_detail := None; re_abort := false |}.
(** [src stellar/utils/stellar-error.handler.ts:17-43 StellarTimeoutError] and the others. *)
Inductive stellar_error := StellarTimeoutError (m : string) | StellarInvalidSignatureError (m : string) | StellarMalformedTransactionError (m : string) | StellarNetworkError (m : string).
Definition has (part : string) (e : remote_error) : bool := contains_str part (to_lower (re_message e)).
Definition tx_code (c : option string) (ks : list string) : bool := match c with Some c => includes c ks | None => false end.
(** [src stellar/utils/stellar-error.handler.ts:153-196 handleStellarError] *)
Definition handleStellarError (e : remote_error) : stellar_error :=
  if has "timeout" e then StellarTimeoutError "Stellar transaction timed out"
  else if has "signature" e || has "bad_auth" e then StellarInvalidSignatureError "Invalid Stellar transaction signature"
  else if has "tx_bad_seq" e || has "malformed" e then StellarMalformedTransactionError "Malformed Stellar transaction"
  else match re_codes e with
       | Some (c, text) =>
           if tx_code c ["tx_bad_auth"] then StellarInvalidSignatureError "Invalid Stellar transaction signature"
           else if tx_code c ["tx_bad_seq"; "tx_malformed"] then StellarMalformedTransactionError "Malformed Stellar transaction"
           else StellarNetworkError ("Stellar error: " +:+ text)
       | None => match re_detail e with
                 | Some d => if truthy d then StellarNetworkError ("Stellar error: " +:+ d) else StellarNetworkError ("Stellar error: " +:+ re_message e)
                 | None => StellarNetworkError ("Stellar error: " +:+ re_message e)
                 end
       end.

(** ** Retries *)

Section retries.
(** [rpcMaxRetries], [rpcRetryBaseDelayMs] and [rpcRetryMaxDelayMs]. *)
Context (maxRetries : nat) (baseDelay maxDelay : Z).
Definition delay (attempt : nat) : Z := Z.min (baseDelay * 2 ^ Z.of_nat attempt) maxDelay.
(** The loop of the services: the attempts from the given one on, with what they wait for;
    a call that is not tried again fails. *)
Fixpoint tries {A R} (answers : nat -> outcome remote_error A) (again : remote_error -> bool) (ok : A -> R) (fail : remote_error -> R) (rest attempt : nat) : R * list Z :=
  match answers attempt with
  | Ok a => (ok a, [])
  | Exn e =>
      match rest with
      | O => (fail e, [])
      | S rest => if again e then let r := tries answers again ok fail rest (S attempt) in (r.1, delay attempt :: r.2) else (fail e, [])
      end
  end.
Definition retried {A R} (answers : nat -> outcome remote_error A) again ok (fail : remote_error -> R) : R * list Z := tries answers again ok fail maxRetries 0.

(** What every loop promises: an attempt decides, the ones before failed in a way that is
    tried again, there are at most the configured number of waits and none is longer than
    the limit. *)
Lemma tries_spec {A R} (answers : nat -> outcome remote_error A) again (ok : A -> R) fail rest attempt :
  let r := tries answers again ok fail rest attempt in
  exists k, (k <= rest)%nat /\ r.2 = map delay (seq attempt k)
    /\ (forall i, (i < k)%nat -> exists e, answers (attempt + i)%nat = Exn e /\ again e = true)
    /\ match answers (attempt + k)%nat with Ok a => r.1 = ok a | Exn e => r.1 = fail e /\ (k = rest \/ again e = false) end.
Proof.
  revert attempt. induction rest as [|rest IH]; intros attempt; cbn.
  - exists 0%nat. rewrite Nat.add_0_r. destruct (answers attempt); split_and!; first [done|lia|by left|intros; lia].
  - destruct (answers attempt) as [a|e] eqn:Ha; [exists 0%nat; rewrite Nat.add_0_r, Ha; split_and!; first [done|lia|intros; lia]|].
    destruct (again e) eqn:He; [|exists 0%nat; rewrite Nat.add_0_r, Ha; split_and!; first [done|lia|by right|intros; lia]].
    destruct (IH (S attempt)) as (k & Hk & Hd & Hb & Hl). exists (S k). cbn [fst snd]. split_and!; [lia|by rewrite Hd| |].
    + intros [|i] Hi; [rewrite Nat.add_0_r; by exists e|]. rewrite <- Nat.add_succ_comm. apply Hb. lia.
    + rewrite <- Nat.add_succ_comm. destruct (answers (S attempt + k)%nat); [done|]. destruct Hl as [Hl Hk']. split; [done|]. destruct Hk' as [->|Hk']; [by left|by right].
Qed.

Definition hides (parts : list string) (e : remote_error) : bool := existsb (fun p => has p e) parts.
(** [src stellar/stellar.service.ts:53-105 getAccountBalance]: the balances, the native one
    of the asset without a code. *)
Definition getAccountBalance (answers : nat -> outcome remote_error (list (option (string * string) * string))) : outcome string (string * list ((string * string) * string)) * list Z :=
  retried answers (hides ["timeout"; "econnrefused"; "econnreset"])
    (fun balances => Ok (match List.find (fun b => match b.1 with None => true | _ => false end) balances with Some b => if truthy b.2 then b.2 else "0" | None => "0" end,
                         omap (fun b => match b.1 with Some a => Some (a, b.2) | None => None end) balances))
    (fun e => Exn ("Account not found or network error: " +:+ re_message e)).
(** [src stellar/stellar.service.ts:110-157 verifyTransactionFull] *)
Definition verifyTransactionFull {A} (answers : nat -> outcome remote_error A) : outcome string A * list Z :=
  retried answers (hides ["timeout"; "econnrefused"; "econnreset"]) (fun tx => Ok tx) (fun e => Exn ("Transaction not found: " +:+ re_message e)).
(** [src stellar/stellar.service.ts:162-170 accountExists] *)
Definition accountExists {A} (answer : outcome remote_error A) : bool := match answer with Ok _ => true | Exn _ => false end.
(** [src stellar/stellar.service.ts:253-258 isValidTxHash] *)
Definition isValidTxHash (txHash : string) : bool :=
  (String.length txHash =? 64)%nat && str_forall (fun c => between "a"%char "f"%char c || between "A"%char "F"%char c || between "0"%char "9"%char c) txHash.
(** [src stellar/stellar.service.ts:281-342 verifyTransaction]: an answer is its [ok] and,
    of its body, whether [successful] is true. *)
Definition verifyTransaction (answers : nat -> outcome remote_error (bool * bool)) (txHash : string) : bool * list Z :=
  if negb (isValidTxHash txHash) then (false, [])
  else retried answers (fun e => re_abort e || hides ["econnrefused"; "econnreset"; "network"] e) (fun r => r.1 && r.2) (fun _ => false).
(** [src stellar/contract.service.ts:143-185 verifyConfession]: a time of zero is none. *)
Definition verifyConfession (answers : nat -> outcome remote_error Z) : option Z * list Z :=
  retried answers (hides ["timeout"; "econnrefused"; "econnreset"; "network"]) (fun t => if t =? 0 then None else Some t) (fun _ => None).
(** [src stellar/transaction-builder.service.ts:142-209 submitTransaction] *)
Definition submitTransaction {A} (answers : nat -> outcome remote_error A) : outcome string A * list Z :=
  let refused e := match re_codes e with Some (c, _) => tx_code c ["tx_bad_auth"; "tx_bad_seq"; "tx_malformed"; "tx_not_supported"] | None => false end in
  let status_again e := match re_status e with None => true | Some s => (s =? 0) || (500 <=? s) || (s =? 429) || hides ["timeout"; "econnrefused"; "econnreset"] e end in
  retried answers (fun e => negb (refused e) && negb (bool_decide (re_status e = Some 400)) && status_again e)
    (fun r => Ok r)
    (fun e => Exn (match re_codes e with
                   | Some (_, text) => if refused e then "Transaction failed (non-retryable): " +:+ text
                                       else if bool_decide (re_status e = Some 400) then "Transaction submission failed: " +:+ re_message e
                                       else "Transaction failed: " +:+ text
                   | None => "Transaction submission failed: " +:+ re_message e
                   end)).
End retries.

(** ** Fees *)

Section fees.
Context {Tx : Type} (maxFeeBudget feeBackoffMs : Z) (maxFeeRetries : nat).
(** [src stellar/transaction-builder.service.ts:128-137 estimateFee]: the usual fee of an
    operation, or the base fee. *)
Definition estimateFee (BASE_FEE : Z) (feeStats : option Z) (operationsCount : nat) : Z :=
  match feeStats with Some mode => (if mode =? 0 then BASE_FEE else mode) * Z.of_nat operationsCount | None => BASE_FEE * Z.of_nat operationsCount end.
(** [src stellar/transaction-builder.service.ts:18-85 buildTransaction]: the rounds of the
    loop from the given one on, with the estimate of each round and what the network and
    the SDK answer to it; what is built has the estimate for its fee, and nothing is
    answered where the loop ends. *)
Fixpoint rounds (fees : nat -> Z) (builds : nat -> outcome string Tx) (left_ attempt : nat) : outcome string (option (Tx * Z)) * list Z :=
  match left_ with
  | O => (Ok None, [])
  | S left_ =>
      let again := let r := rounds fees builds left_ (S attempt) in (r.1, feeBackoffMs :: r.2) in
      if maxFeeBudget <? fees attempt then
        if (maxFeeRetries <? attempt)%nat then (Exn "Transaction fee exceeds max fee budget", []) else again
      else match builds attempt with
           | Ok tx => (Ok (Some (tx, fees attempt)), [])
           | Exn m => if (maxFeeRetries <=? attempt)%nat then (Exn ("Transaction build failed: " +:+ m), []) else again
           end
  end.
Definition buildTransaction (fees : nat -> Z) (builds : nat -> outcome string Tx) := rounds fees builds (S maxFeeRetries) 1.

Lemma rounds_spec fees builds left_ attempt :
  (left_ + attempt = maxFeeRetries + 2)%nat -> (0 < left_)%nat ->
  let r := rounds fees builds left_ attempt in
  (length r.2 < left_)%nat /\ match r.1 with Ok None => False | Ok (Some (tx, fee)) => fee <= maxFeeBudget /\ exists n, builds n = Ok tx /\ fees n = fee | Exn _ => True end.
Proof.
  revert attempt. induction left_ as [|left_ IH]; intros attempt Hn Hl; [lia|]. cbn [rounds].
  assert (left_ = 0%nat \/ (0 < left_)%nat) as [->|Hpos] by lia.
  - destruct (Z.ltb_spec maxFeeBudget (fees attempt)); [rewrite (proj2 (Nat.ltb_lt _ _)) by lia; cbn; split; [lia|done]|].
    destruct (builds attempt) as [tx|m] eqn:Hb; [cbn; split; [lia|split; [done|by exists attempt]]|]. rewrite (proj2 (Nat.leb_le _ _)) by lia. cbn. split; [lia|done].
  - specialize (IH (S attempt) ltac:(lia) Hpos). cbn in IH. destruct (rounds _ _ left_ (S attempt)) as [r ds]. cbn [fst snd] in *. destruct IH as [IH1 IH2].
    destruct (Z.ltb_spec maxFeeBudget (fees attempt)).
    + destruct (_ <? _)%nat; cbn; (split; [lia|done]).
    + destruct (builds attempt) as [tx|m] eqn:Hb; [cbn; split; [lia|split; [done|by exists attempt]]|]. destruct (_ <=? _)%nat; cbn; (split; [lia|done]).
Qed.
(** A transaction that is built has a fee within the budget, one is always built or
    refused, and there are at most as many waits as retries. *)
Theorem fee_within_budget fees builds :
  let r := buildTransaction fees builds in
  (length r.2 <= maxFeeRetries)%nat /\ match r.1 with Ok None => False | Ok (Some (tx, fee)) => fee <= maxFeeBudget /\ exists n, builds n = Ok tx /\ fees n = fee | Exn _ => True end.
Proof. pose proof (rounds_spec fees builds (S maxFeeRetries) 1 ltac:(lia) ltac:(lia)) as [H1 H2]. split; [by apply Nat.lt_succ_r|exact H2]. Qed.
End fees.

(** ** What is answered *)

Lemma classified_codes : Forall (fun c => classifyContractError c <> UNKNOWN) [1000; 6005; 1001; 5000; 2000; 3000; 4000; 6010; 6011; 6009].
Proof. repeat constructor; by vm_compute. Qed.
Lemma unknown_status code : classifyContractError code = UNKNOWN -> getHttpStatusForContractError code = 400.
Proof.
  intros Hu. unfold getHttpStatusForContractError. rewrite Hu.
  assert (forall l, Forall (fun c => classifyContractError c <> UNKNOWN) l -> existsb (Z.eqb code) l = false) as H.
  { intros l Hl. apply not_true_iff_false. rewrite existsb_exists. intros (x & Hx & ->%Z.eqb_eq). rewrite Forall_forall in Hl. by apply (Hl x); [apply list_elem_of_In|]. }
  pose proof classified_codes as Hc. rewrite !Forall_cons in Hc.
  rewrite !H; [done|..]; rewrite !Forall_cons, Forall_nil; tauto.
Qed.
(** Every code is answered: one that may pass is tried again after a delay that doubles,
    drawn between once and twice the base, and answered with 503; one that is final is
    never tried again and has a status of its own; an unknown one is final, with 400. *)
Theorem contract_error_answered code :
  match classifyContractError code with
  | RETRYABLE => getHttpStatusForContractError code = 503 /\ forall n q, (0 <= q < 1)%Q -> exists d, getRetryDelayMs code n q = Some d
                   /\ (inject_Z (100 * 2 ^ Z.of_nat n) <= d < inject_Z (200 * 2 ^ Z.of_nat n))%Q
  | TERMINAL => In (getHttpStatusForContractError code) [400; 403; 404; 409; 500] /\ forall n q, getRetryDelayMs code n q = None
  | UNKNOWN => getHttpStatusForContractError code = 400 /\ forall n q, getRetryDelayMs code n q = None
  end.
Proof.
  destruct (classifyContractError code) eqn:Hc.
  - split; [unfold getHttpStatusForContractError; by rewrite Hc|]. intros n q [Hq0 Hq1]. unfold getRetryDelayMs, isRetryableContractError. rewrite Hc, bool_decide_eq_true_2 by done.
    eexists. split; [done|]. assert (0 < inject_Z (100 * 2 ^ Z.of_nat n))%Q as Hb by (change 0%Q with (inject_Z 0); rewrite <- Zlt_Qlt; lia).
    replace (200 * 2 ^ Z.of_nat n) with (2 * (100 * 2 ^ Z.of_nat n)) by lia. rewrite (inject_Z_mult 2). set (b := inject_Z _) in *.
    assert (0 <= q * b)%Q as H0 by (apply Qmult_le_0_compat; [done|by apply Qlt_le_weak]).
    assert (q * b < 1 * b)%Q as H1 by by apply Qmult_lt_r.
    split; [apply (Qle_trans _ (b + 0)%Q); [apply Qle_lteq; right; ring|by apply Qplus_le_r]|].
    assert (b + q * b < b + 1 * b)%Q as H2 by by apply Qplus_lt_r. eapply Qlt_le_trans; [exact H2|]. apply Qle_lteq. right. change (inject_Z 2) with 2%Q. ring.
  - unfold getRetryDelayMs, isRetryableContractError. rewrite Hc, bool_decide_eq_false_2 by done. split; [|done].
    unfold getHttpStatusForContractError. rewrite Hc. repeat case_match; cbn; tauto.
  - unfold getRetryDelayMs, isRetryableContractError. rewrite Hc, bool_decide_eq_false_2 by done. split; [by apply unknown_status|done].
Qed.

(** The codes of transactions that are refused for good: for the signature, the sequence,
    the form or the kind. *)
Definition final_code (e : remote_error) : Prop :=
  exists c text, re_codes e = Some (Some c, text) /\ In c ["tx_bad_auth"; "tx_bad_seq"; "tx_malformed"; "tx_not_supported"].
(** A failure that may pass: no code is final, and there is no status, one of the server or
    of its rate limit, or another than that of a bad request whose message is of a timeout
    or of a refused or reset connection. *)
Definition may_pass (e : remote_error) : Prop :=
  ~ final_code e
  /\ match re_status e with
     | None => True
     | Some s => s = 0 \/ 500 <= s \/ s = 429 \/ s <> 400 /\ exists part, In part ["timeout"; "econnrefused"; "econnreset"] /\ contains_str part (to_lower (re_message e)) = true
     end.
Lemma final_code_spec e :
  final_code e <-> match re_codes e with Some (c, _) => tx_code c ["tx_bad_auth"; "tx_bad_seq"; "tx_malformed"; "tx_not_supported"] | None => false end = true.
Proof.
  unfold final_code. destruct (re_codes e) as [[[c|] text]|]; [|by split; [intros (? & ? & ? & _)|]..].
  unfold tx_code. rewrite includes_spec, list_elem_of_In. split; [by intros (? & ? & [= <- <-] & H)|]. intros H. by exists c, text.
Qed.
Lemma hides_spec parts e : hides parts e = true <-> exists part, In part parts /\ contains_str part (to_lower (re_message e)) = true.
Proof. apply existsb_exists. Qed.
Lemma delays_bounded base limit k n : fold_right Z.add 0 (map (delay base limit) (seq n k)) <= Z.of_nat k * Z.max 0 limit.
Proof.
  revert n. induction k as [|k IH]; intros n; [cbn; lia|]. cbn [seq map fold_right]. specialize (IH (S n)). rewrite Nat2Z.inj_succ, Z.mul_succ_l. unfold delay at 1. lia.
Qed.
Lemma submission_again e :
  let refused := match re_codes e with Some (c, _) => tx_code c ["tx_bad_auth"; "tx_bad_seq"; "tx_malformed"; "tx_not_supported"] | None => false end in
  let status_again := match re_status e with None => true | Some s => (s =? 0) || (500 <=? s) || (s =? 429) || hides ["timeout"; "econnrefused"; "econnreset"] e end in
  negb refused && negb (bool_decide (re_status e = Some 400)) && status_again = true <-> may_pass e.
Proof.
  cbn zeta. unfold may_pass. rewrite final_code_spec, not_true_iff_false, <- negb_true_iff, <- andb_assoc, andb_true_iff, andb_true_iff. apply and_iff_compat_l.
  destruct (re_status e) as [s|]; [|by rewrite bool_decide_eq_false_2].
  rewrite negb_true_iff, bool_decide_eq_false, !orb_true_iff, !Z.eqb_eq, Z.leb_le, hides_spec. split.
  - intros [Hs H]. assert (s <> 400) by congruence. tauto.
  - intros H. split; [intros [= ->]|]; destruct H as [H|[H|[H|[H ?]]]]; try lia; tauto.
Qed.

(** C40. A submission is answered by one attempt: the first that succeeds, the first whose
    failure does not pass, or the last that the limit allows.  A failure passes unless the
    signature, the sequence, the form or the kind of the transaction is refused, the request
    is bad, or the status is another that is neither the server's, nor its rate limit's, nor
    of a lost connection.  What is waited for doubles from the base up to the longest wait,
    and in all is at most the longest for each retry. *)
Theorem submission_bounded {A} maxRetries baseDelay maxDelay (answers : nat -> outcome remote_error A) :
  let r := submitTransaction maxRetries baseDelay maxDelay answers in
  exists k, (k <= maxRetries)%nat
    /\ r.2 = map (fun i => Z.min (baseDelay * 2 ^ Z.of_nat i) maxDelay) (seq 0 k) /\ fold_right Z.add 0 r.2 <= Z.of_nat maxRetries * Z.max 0 maxDelay
    /\ (forall i, (i < k)%nat -> exists e, answers i = Exn e /\ may_pass e)
    /\ match answers k with
       | Ok a => r.1 = Ok a
       | Exn e => (k = maxRetries \/ ~ may_pass e) /\ (exists m, r.1 = Exn m)
                  /\ (final_code e -> exists c text, re_codes e = Some (c, text) /\ r.1 = Exn ("Transaction failed (non-retryable): " +:+ text))
       end.
Proof.
  cbn. unfold submitTransaction, retried. match goal with |- context [tries _ _ answers ?a ?o ?f _ _] => destruct (tries_spec baseDelay maxDelay answers a o f maxRetries 0) as (k & Hk & Hd & Hb & Hl) end.
  exists k. rewrite Hd. split_and!; [done|done| | |].
  - pose proof (delays_bounded baseDelay maxDelay k 0). nia.
  - intros i Hi. destruct (Hb i Hi) as (e & He & Ha). exists e. split; [done|]. by apply submission_again.
  - cbn [Nat.add] in Hl. destruct (answers k) as [a|e]; [done|]. destruct Hl as [Hl Hend]. split_and!; [|by eexists|].
    + destruct Hend as [Hend|Hend]; [by left|right]. intros Hp%submission_again. congruence.
    + intros Hf. pose proof Hf as Hcode%final_code_spec. destruct Hf as (c & text & Hc & _). exists (Some c), text. split; [done|]. rewrite Hl, Hc in *. by rewrite Hcode.
Qed.

(** The documented status of a refused approval, a second approval and a second execution
    is 403, 409 and 409. *)
Theorem undocumented_statuses : map getHttpStatusForContractError [5001; 5003; 5004] = [400; 400; 400].
Proof. by vm_compute. Qed.
(** The deployed tipping contract numbers its errors from 1 to 12: none is known, the rate
    limit and the pause are final. *)
Theorem contract_codes_unknown : map classifyContractError [1; 2; 3; 4; 5; 6; 7; 8; 9; 10; 11; 12] = replicate 12 UNKNOWN.
Proof. by vm_compute. Qed.
(** The message of an error of fetch is in none of the lists: a network that is down for
    one attempt makes a transaction unverified. *)
Theorem fetch_never_retried :
  let answers n := match n with O => Exn (plain "fetch failed") | _ => Ok (true, true) end in
  verifyTransaction 3 1000 10000 answers (String.string_of_list_ascii (replicate 64 "a"%char)) = (false, []).
Proof. by vm_compute. Qed.
