(* ===== verification/AnchorWorker.v ===== *)
(** * Reconciliation of anchors

    [src/xconfess-backend/src/stellar/stellar-reconciliation.worker.ts] with the parts of
    [stellar.service.ts] and [contract.service.ts] it calls: pending anchors are submitted
    with a growing delay, observed ones are verified again until the contract confirms
    them.  What the network answers is part of the world, with a record of the answers; a
    submission may reach the chain though its answer is an error.  Saves write the entity
    that was read. *)
From S2P Require Import Prelude Numbers Json Effects Base64 ContentEncryption StellarErrors.
Open Scope Z_scope.

(** ** Data *)

(** [src stellar/entities/stellar-anchor.entity.ts:10-24 AnchorStatus] *)
Inductive AnchorStatus := PENDING | OBSERVED | ANCHORED | FAILED | EXPIRED.
#[export] Instance AnchorStatus_eq_dec : EqDecision AnchorStatus.
Proof. solve_decision. Defined.
(** [src stellar/entities/stellar-anchor.entity.ts:26-78 StellarAnchor] *)
Record StellarAnchor := {
  sa_id : string; sa_confessionId : string; sa_status : AnchorStatus; sa_retryCount : nat; sa_lastRetryAt : option ms; sa_txHash : option string;
  sa_observedAt : option ms; sa_lastError : option string; sa_createdAt : ms }.
#[export] Instance eta_StellarAnchor : Eta StellarAnchor := fun a => {|
  sa_id := sa_id a; sa_confessionId := sa_confessionId a; sa_status := sa_status a; sa_retryCount := sa_retryCount a; sa_lastRetryAt := sa_lastRetryAt a;
  sa_txHash := sa_txHash a; sa_observedAt := sa_observedAt a; sa_lastError := sa_lastError a; sa_createdAt := sa_createdAt a |}.
(** [src stellar/entities/stellar-anchor.entity.ts:75-77 allowRetry] *)
Definition allowRetry (a : StellarAnchor) : bool := bool_decide (sa_status a = FAILED) || bool_decide (sa_status a = EXPIRED).
(** A confession: what the worker writes, and what it writes back. *)
Record Confession := { cf_message : string; cf_isDeleted : bool; cf_txHash : option string; cf_hash : option string; cf_isAnchored : bool; cf_anchoredAt : option ms }.
#[export] Instance eta_Confession : Eta Confession := fun c => {|
  cf_message := cf_message c; cf_isDeleted := cf_isDeleted c; cf_txHash := cf_txHash c; cf_hash := cf_hash c; cf_isAnchored := cf_isAnchored c; cf_anchoredAt := cf_anchoredAt c |}.
(** What is answered to a submission, and whether it reaches the chain. *)
Record Submission := { sb_lands : bool; sb_answer : outcome remote_error string }.
Inductive call := VerifiedTx (tx : string) (valid : bool) | VerifiedHash (hash : string) (time : option Z) | Submitted (hash : string) (answer : outcome string string).
Record Entry := { en_action : string; en_anchor : string; en_attempt : nat; en_note : string }.
Record AnchorDB := {
  ak_clock : ms; ak_anchors : gmap string StellarAnchor; ak_confs : gmap string Confession; ak_horizon : string -> nat -> outcome remote_error (bool * bool);
  ak_contract : string -> nat -> outcome remote_error Z; ak_submits : list Submission; ak_chain : list string; ak_calls : list call; ak_audit : list Entry;
  ak_events : list (nat * nat * nat) }.
#[export] Instance eta_AnchorDB : Eta AnchorDB := fun w => {|
  ak_clock := ak_clock w; ak_anchors := ak_anchors w; ak_confs := ak_confs w; ak_horizon := ak_horizon w; ak_contract := ak_contract w; ak_submits := ak_submits w;
  ak_chain := ak_chain w; ak_calls := ak_calls w; ak_audit := ak_audit w; ak_events := ak_events w |}.
Abbreviation action := (prog AnchorDB string).
Inductive anchor_result := anchored | failed | expired | skipped.
#[export] Instance anchor_result_eq_dec : EqDecision anchor_result.
Proof. solve_decision. Defined.

Section worker.
Context {aes : AesCbc} (aesKey : string) (serverSecret : option string) (sha256 : string -> string) (content_message : content_error -> string).
(** The limits of the remote calls, and the settings of the worker. *)
Context (rpcMaxRetries : nat) (rpcBaseDelay rpcMaxDelay : Z) (minAgeMinutes : Z) (batchSize maxRetries : nat) (backoffBaseMinutes : Z).

(** ** Calls *)

(** [src stellar/stellar.service.ts:244-248 hashConfession], of a time that is not zero. *)
Definition hashConfession (content : string) (timestamp : ms) : string :=
  sha256 (stringify (JObj [("content", JStr content); ("timestamp", JNum (num_of_Z timestamp))])).
Definition verify_tx (tx : string) : action bool :=
  access (fun w => let valid := (verifyTransaction rpcMaxRetries rpcBaseDelay rpcMaxDelay (ak_horizon w tx) tx).1 in (valid, w <| ak_calls ::= fun l => l ++ [VerifiedTx tx valid] |>)).
Definition verify_hash (hash : string) : action bool :=
  access (fun w => let t := (verifyConfession rpcMaxRetries rpcBaseDelay rpcMaxDelay (ak_contract w hash)).1 in
                   (bool_decide (is_Some t), w <| ak_calls ::= fun l => l ++ [VerifiedHash hash t] |>)).
Definition error_message (e : stellar_error) : string :=
  match e with StellarTimeoutError m | StellarInvalidSignatureError m | StellarMalformedTransactionError m | StellarNetworkError m => m end.
(** [src stellar/contract.service.ts:117-137 anchorConfession]: the next submission. *)
Definition anchorConfession (hash : string) : action string :=
  attempts (fun w =>
    let s := match ak_submits w with s :: _ => s | [] => {| sb_lands := false; sb_answer := Exn (plain "network") |} end in
    let answer := match sb_answer s with Ok tx => Ok tx | Exn e => Exn (error_message (handleStellarError e)) end in
    let w := w <| ak_submits ::= fun l => skipn 1 l |> <| ak_calls ::= fun l => l ++ [Submitted hash answer] |> in
    let w := if sb_lands s then w <| ak_chain ::= fun l => l ++ [hash] |> else w in
    (answer, w)).

(** ** The worker *)

(** [save] of an anchor; a hash that was set to undefined is not written. *)
Definition save_anchor (undefined : bool) (a : StellarAnchor) : action unit :=
  writes (fun w => let a := if undefined then match ak_anchors w !! sa_id a with Some r => a <| sa_txHash := sa_txHash r |> | None => a end else a in
                   w <| ak_anchors ::= <[sa_id a := a]> |>).
Definition save_confession (id : string) (c : Confession) : action unit := writes (fun w => w <| ak_confs ::= <[id := c]> |>).
Definition audit (action_ note : string) (a : StellarAnchor) : action unit :=
  writes (fun w => w <| ak_audit ::= fun l => l ++ [{| en_action := action_; en_anchor := sa_id a; en_attempt := sa_retryCount a; en_note := note |}] |>).
(** [src stellar/stellar-reconciliation.worker.ts:305-384 retryAnchor]: what follows an
    error. *)
Definition after_error (undefined : bool) (a : StellarAnchor) (errorMessage : string) : action anchor_result :=
  let a := a <| sa_lastError := Some errorMessage |> in
  do* audit "stellar_anchor_retry" errorMessage a in
  if (maxRetries <=? sa_retryCount a)%nat then
    let a := a <| sa_status := FAILED |> in
    do* audit "stellar_anchor_failed" errorMessage a in
    do* save_anchor undefined a in Ret failed
  else
    let* now := reads ak_clock in
    if 24 * 60 * 60 * 1000 <? now - sa_createdAt a then
      let a := a <| sa_status := EXPIRED |> in
      do* save_anchor undefined a in
      do* audit "stellar_anchor_failed" "expired" a in Ret expired
    else do* save_anchor undefined a in Ret failed.
(** The hash that is submitted and its transaction, or the error. *)
Definition submission (c : Confession) : action (outcome string (string * string)) :=
  try_catch
    (let* message := match decryptConfession (cf_message c) aesKey with Ok m => Ret m | Exn e => Throw (content_message e) end in
     let* timestamp := reads ak_clock in
     let hash := hashConfession message timestamp in
     do* guard (truthy_opt serverSecret) "Server secret key not configured" in
     let* tx := anchorConfession hash in Ret (Ok (hash, tx)))
    (fun e => Ret (Exn e)).
(** [src stellar/stellar-reconciliation.worker.ts:247-304 retryAnchor]: the submission. *)
Definition resubmit (undefined : bool) (a : StellarAnchor) (c : Confession) : action anchor_result :=
  let* sent := submission c in
  match sent with
  | Exn e => after_error undefined a e
  | Ok (hash, tx) =>
      let* now := reads ak_clock in
      let a := a <| sa_status := OBSERVED |> <| sa_txHash := Some tx |> <| sa_observedAt := Some now |> <| sa_retryCount := 0%nat |> <| sa_lastError := None |> in
      do* save_anchor false a in
      do* save_confession (sa_confessionId a) (c <| cf_txHash := Some tx |> <| cf_hash := Some hash |>) in
      do* audit "stellar_anchor_retry" "observed" a in
      Ret anchored
  end.
Definition since (a : StellarAnchor) : ms :=
  match sa_lastRetryAt a with Some t => if t =? 0 then sa_createdAt a else t | None => sa_createdAt a end.
Definition mismatch : string := "Anchor hash mismatch: on-chain transaction does not anchor the expected confession hash".
(** [src stellar/stellar-reconciliation.worker.ts:161-245 retryAnchor]: an anchor with a
    transaction. *)
Definition reverify (a : StellarAnchor) (c : Confession) (tx : string) : action anchor_result :=
  let* txValid := verify_tx tx in
  if txValid then
    if bool_decide (sa_status a = OBSERVED) then
      let* payloadMatches := (if truthy_opt (cf_hash c) then verify_hash (default "" (cf_hash c)) else Ret false) in
      if payloadMatches then
        do* save_anchor false (a <| sa_status := ANCHORED |> <| sa_observedAt := None |> <| sa_retryCount := 0%nat |> <| sa_lastError := None |>) in
        let* now := reads ak_clock in
        do* save_confession (sa_confessionId a) (c <| cf_isAnchored := true |> <| cf_anchoredAt := Some now |>) in
        Ret anchored
      else do* save_anchor false (a <| sa_lastError := Some mismatch |>) in Ret failed
    else
      let* now := reads ak_clock in
      do* save_anchor false (a <| sa_status := OBSERVED |> <| sa_observedAt := Some now |>) in Ret anchored
  else if bool_decide (sa_status a = OBSERVED) then
    let a := a <| sa_status := PENDING |> <| sa_txHash := None |> <| sa_observedAt := None |> in
    do* save_anchor true a in resubmit true a c
  else resubmit false a c.
(** [src stellar/stellar-reconciliation.worker.ts:106-385 retryAnchor] *)
Definition retryAnchor (a : StellarAnchor) : action anchor_result :=
  let* now := reads ak_clock in
  if bool_decide (sa_status a = PENDING) && (now - since a <? 2 ^ Z.of_nat (sa_retryCount a) * backoffBaseMinutes * 60 * 1000) then Ret skipped
  else
    let a := a <| sa_retryCount := S (sa_retryCount a) |> <| sa_lastRetryAt := Some now |> in
    let* confession := reads (fun w => ak_confs w !! sa_confessionId a) in
    match confession with
    | None =>
        do* audit "stellar_anchor_retry" "Confession not found" a in
        do* save_anchor false (a <| sa_status := FAILED |> <| sa_lastError := Some "Confession not found" |>) in
        Ret failed
    | Some c => if truthy_opt (sa_txHash a) then reverify a c (default "" (sa_txHash a)) else resubmit false a c
    end.
Definition due (now : ms) (a : StellarAnchor) : bool :=
  bool_decide (sa_status a = OBSERVED) || bool_decide (sa_status a = PENDING) && (sa_createdAt a <? now - minAgeMinutes * 60 * 1000).
Definition count_result (r : anchor_result) (n : nat * nat * nat) : nat * nat * nat :=
  match r, n with anchored, (x, y, z) => (S x, y, z) | failed, (x, y, z) => (x, S y, z) | expired, (x, y, z) => (x, y, S z) | skipped, _ => n end.
(** [src stellar/stellar-reconciliation.worker.ts:50-104 reconcilePendingAnchors] *)
Definition reconcilePendingAnchors : action unit :=
  let* anchors := reads (fun w => firstn batchSize (insertion_sort (fun a b => sa_createdAt a <=? sa_createdAt b) (List.filter (due (ak_clock w)) (map snd (map_to_list (ak_anchors w)))))) in
  let* counts := fold_each anchors (fun a n => let* r := retryAnchor a in Ret (count_result r n)) (0, 0, 0)%nat in
  if (0 <? counts.1.2 + counts.2)%nat then writes (fun w => w <| ak_events ::= fun l => l ++ [counts] |>) else Ret tt.

(** ** The states of an anchor *)

Definition to (a a' : StellarAnchor) (w w' : AnchorDB) : Prop := sa_id a' = sa_id a /\ ak_anchors w' = <[sa_id a := a']> (ak_anchors w).
Lemma run_save_anchor u a w : exists a', run (save_anchor u a) w = (Ok tt, w <| ak_anchors ::= <[sa_id a := a']> |>) /\ sa_id a' = sa_id a /\ sa_status a' = sa_status a /\ sa_retryCount a' = sa_retryCount a.
Proof. unfold save_anchor. rewrite run_writes. destruct u; [|by exists a]. destruct (ak_anchors w !! sa_id a) as [r|]; [by exists (a <| sa_txHash := sa_txHash r |>)|by exists a]. Qed.
(** What follows an error: the anchor fails at the limit, expires after a day, or stays as
    it is below the limit. *)
Lemma run_after_error u a e w :
  exists r w' a', run (after_error u a e) w = (Ok r, w') /\ to a a' w w' /\
    (r = failed /\ sa_status a' = FAILED \/ r = expired /\ sa_status a' = EXPIRED
     \/ r = failed /\ sa_status a' = sa_status a /\ sa_retryCount a' = sa_retryCount a /\ (sa_retryCount a < maxRetries)%nat).
Proof.
  unfold after_error, audit. rewrite run_bind, run_writes. set (w1 := w <| ak_audit ::= _ |>). change (sa_retryCount (a <| sa_lastError := Some e |>)) with (sa_retryCount a).
  destruct (Nat.leb_spec maxRetries (sa_retryCount a)) as [Hm|Hm].
  - rewrite run_bind, run_writes. set (w2 := w1 <| ak_audit ::= _ |>). rewrite run_bind. set (b := _ <| sa_status := FAILED |>).
    destruct (run_save_anchor u b w2) as (a' & -> & Hi & Hs & _). do 3 eexists. split; [done|]. split; [by split|]. by left.
  - rewrite run_bind, run_reads. destruct (_ <? _).
    + rewrite run_bind. set (b := _ <| sa_status := EXPIRED |>). destruct (run_save_anchor u b w1) as (a' & -> & Hi & Hs & _). rewrite run_bind, run_writes.
      do 3 eexists. split; [done|]. split; [by split|]. right. by left.
    + rewrite run_bind. set (b := a <| sa_lastError := _ |>). destruct (run_save_anchor u b w1) as (a' & -> & Hi & Hs & Hr). do 3 eexists. split; [done|]. split; [by split|]. right. right. by rewrite Hs, Hr.
Qed.
Lemma run_submission c w : exists o w', run (submission c) w = (Ok o, w') /\ ak_anchors w' = ak_anchors w.
Proof.
  unfold submission. rewrite run_try_catch, run_bind. destruct (decryptConfession _ _) as [m|e]; [|by do 2 eexists]. cbn [run].
  rewrite run_bind, run_reads, run_bind, run_guard. destruct (truthy_opt serverSecret); [|by do 2 eexists]. rewrite run_bind. unfold anchorConfession. rewrite run_attempts.
  set (s := match ak_submits w with s :: _ => s | [] => _ end). destruct (sb_answer s); (do 2 eexists; split; [done|by destruct (sb_lands s)]).
Qed.
Lemma run_resubmit u a c w :
  exists r w' a', run (resubmit u a c) w = (Ok r, w') /\ to a a' w w' /\
    (r = failed /\ sa_status a' = FAILED \/ r = expired /\ sa_status a' = EXPIRED \/ r = anchored /\ sa_status a' = OBSERVED
     \/ r = failed /\ sa_status a' = sa_status a /\ sa_retryCount a' = sa_retryCount a /\ (sa_retryCount a < maxRetries)%nat).
Proof.
  unfold resubmit. rewrite run_bind. destruct (run_submission c w) as (o & w1 & -> & Hw). destruct o as [[h tx]|e].
  - rewrite run_bind, run_reads, run_bind. set (b := _ <| sa_lastError := None |>). destruct (run_save_anchor false b w1) as (a' & -> & Hi & Hs & _).
    rewrite run_bind. unfold save_confession, audit. rewrite run_writes, run_bind, run_writes. do 3 eexists. split; [done|]. split; [split; [done|]; by rewrite <- Hw|]. right. right. by left.
  - destruct (run_after_error u a e w1) as (r & w' & a' & Hr & [Hi Ht] & H). exists r, w', a'. split; [exact Hr|]. split; [split; [done|]; by rewrite Ht, Hw|]. tauto.
Qed.

Lemma run_verify_hash (b : bool) h w :
  exists m w', run (if b then verify_hash h else Ret false) w = (Ok m, w') /\ ak_anchors w' = ak_anchors w.
Proof. destruct b; [|by exists false, w]. unfold verify_hash. rewrite run_access. do 2 eexists. by split. Qed.

Definition allowed (s : AnchorStatus) (r : anchor_result) (s' : AnchorStatus) : Prop :=
  In (s, r, s') [(PENDING, skipped, PENDING); (PENDING, failed, PENDING); (PENDING, anchored, OBSERVED); (PENDING, failed, FAILED); (PENDING, expired, EXPIRED);
                 (OBSERVED, anchored, OBSERVED); (OBSERVED, failed, OBSERVED); (OBSERVED, anchored, ANCHORED); (OBSERVED, failed, PENDING); (OBSERVED, failed, FAILED); (OBSERVED, expired, EXPIRED)].
(** C30. A run on an anchor that is pending or observed ends, answers, and takes it along the
    states; it is anchored only from observed, a pending one that failed has attempts left,
    a skipped one changes nothing, and no other anchor changes. *)
Theorem anchor_transitions a w :
  ak_anchors w !! sa_id a = Some a -> sa_status a = PENDING \/ sa_status a = OBSERVED ->
  exists r w' a', run (retryAnchor a) w = (Ok r, w') /\ ak_anchors w' = <[sa_id a := a']> (ak_anchors w)
    /\ allowed (sa_status a) r (sa_status a') /\ (r = skipped -> w' = w) /\ (r = failed -> sa_status a' = PENDING -> (sa_retryCount a' < maxRetries)%nat).
Proof.
  intros Ha Hs. unfold retryAnchor. rewrite run_bind, run_reads. destruct (bool_decide (sa_status a = PENDING) && _) eqn:Hskip.
  { exists skipped, w, a. split; [done|]. rewrite insert_id by done. apply andb_true_iff in Hskip as [Hp%bool_decide_eq_true _]. rewrite Hp. split; [done|]. split; [by left|]. done. }
  clear Hskip. set (b := a <| sa_retryCount := _ |> <| sa_lastRetryAt := _ |>). assert (Hb : sa_id b = sa_id a /\ sa_status b = sa_status a) by done. destruct Hb as [Hbi Hbs].
  rewrite run_bind, run_reads. destruct (ak_confs w !! sa_confessionId b) as [c|].
  2: { unfold audit. rewrite run_bind, run_writes, run_bind. match goal with |- context [save_anchor false ?x] => destruct (run_save_anchor false x (w <| ak_audit ::= fun l => l ++ [{| en_action := "stellar_anchor_retry"; en_anchor := sa_id b; en_attempt := sa_retryCount b; en_note := "Confession not found" |}] |>)) as (a' & -> & Hi & Hst & _) end.
       do 3 eexists. split; [done|]. split; [done|]. rewrite Hst. split; [destruct Hs as [-> | ->]; cbn; tauto|]. split; [done|]. cbn. done. }
  assert (forall u b' w1, sa_id b' = sa_id a -> sa_status b' = PENDING -> ak_anchors w1 = ak_anchors w \/ (exists x, ak_anchors w1 = <[sa_id a := x]> (ak_anchors w)) ->
    (sa_status a = PENDING \/ sa_status a = OBSERVED) ->
    exists r w' a', run (resubmit u b' c) w1 = (Ok r, w') /\ ak_anchors w' = <[sa_id a := a']> (ak_anchors w) /\ allowed (sa_status a) r (sa_status a')
      /\ (r = skipped -> w' = w) /\ (r = failed -> sa_status a' = PENDING -> (sa_retryCount a' < maxRetries)%nat)) as Hre.
  { intros u b' w1 Hi Hst Hw1 _. destruct (run_resubmit u b' c w1) as (r & w' & a' & Hr & [_ Ht] & H). exists r, w', a'. split; [exact Hr|].
    split; [rewrite Ht, Hi; destruct Hw1 as [->|[x ->]]; [done|by rewrite insert_insert_eq]|]. rewrite Hst in H.
    split; [destruct Hs as [-> | ->]; destruct H as [[-> ->]|[[-> ->]|[[-> ->]|(-> & -> & _)]]]; cbn; tauto|].
    split; [by destruct H as [[-> _]|[[-> _]|[[-> _]|(-> & _)]]]|]. intros -> Hp. destruct H as [[_ H]|[[H _]|[[H _]|(_ & _ & -> & H)]]]; [congruence|done|done|done]. }
  destruct (truthy_opt (sa_txHash b)).
  2: { destruct Hs as [Hs|Hs]; [apply Hre; [done|by rewrite Hbs|by left|by left]|].
       destruct (run_resubmit false b c w) as (r & w' & a' & Hr & [_ Ht] & H). exists r, w', a'. split; [exact Hr|]. split; [by rewrite Ht, Hbi|]. rewrite Hbs, Hs in H. rewrite Hs.
       split; [destruct H as [[-> ->]|[[-> ->]|[[-> ->]|(-> & -> & _)]]]; cbn; tauto|]. split; [by destruct H as [[-> _]|[[-> _]|[[-> _]|(-> & _)]]]|].
       intros -> Hp. destruct H as [[_ H]|[[H _]|[[H _]|(_ & H & _)]]]; congruence. }
  unfold reverify, verify_tx. rewrite run_bind, run_access. set (valid := (verifyTransaction _ _ _ _ _).1). cbn [fst snd]. set (w1 := w <| ak_calls ::= _ |>). destruct valid; cbn iota.
  - rewrite Hbs. destruct Hs as [Hs|Hs]; rewrite Hs.
    + rewrite bool_decide_eq_false_2 by done. rewrite run_bind, run_reads, run_bind. match goal with |- context [save_anchor false ?x] => destruct (run_save_anchor false x w1) as (a' & -> & Hi & Hst & _) end.
      do 3 eexists. split; [done|]. split; [done|]. rewrite Hst. split; [cbn; tauto|done].
    + rewrite bool_decide_eq_true_2 by done. rewrite run_bind.
      match goal with |- context [run (if ?b then verify_hash ?h else _) w1] => destruct (run_verify_hash b h w1) as (m & w2 & -> & Hw2) end.
      change (ak_anchors w1) with (ak_anchors w) in Hw2.
      destruct m; rewrite run_bind; match goal with |- context [save_anchor false ?x] => destruct (run_save_anchor false x w2) as (a' & -> & Hi & Hst & _) end.
      * rewrite run_bind, run_reads. unfold save_confession. rewrite run_bind, run_writes. do 3 eexists. split; [done|]. split; [by rewrite <- Hw2|]. rewrite Hst. split; [cbn; tauto|done].
      * do 3 eexists. split; [done|]. split; [by rewrite <- Hw2|]. rewrite Hst. change (sa_status (b <| sa_lastError := _ |>)) with (sa_status a). rewrite Hs. split; [cbn; tauto|done].
  - rewrite Hbs. destruct (bool_decide_reflect (sa_status a = OBSERVED)) as [Ho|Ho].
    + rewrite run_bind. match goal with |- context [save_anchor true ?x] => destruct (run_save_anchor true x w1) as (a' & -> & Hi & Hst & _) end. apply Hre; [done|done| |done].
      right. by exists a'.
    + apply Hre; [done|rewrite Hbs; by destruct Hs|by left|done].
Qed.

(** ** What is anchored was confirmed *)

Section confirmed.
(** The world of the start, and the texts that edits of a confession write. *)
Context (w0 : AnchorDB) (edits : string -> string -> Prop).
(** A text the confession has had. *)
Definition text_of (id m : string) : Prop :=
  (exists c, ak_confs w0 !! id = Some c /\ decryptConfession (cf_message c) aesKey = Ok m)
  \/ exists x, edits id x /\ decryptConfession x aesKey = Ok m.
(** The network answered the submission of the hash of such a text with a transaction. *)
Definition came (id h tx : string) (w : AnchorDB) : Prop :=
  exists m t, text_of id m /\ h = hashConfession m t /\ Submitted h (Ok tx) ∈ ak_calls w.
(** The hashes and the transactions of a confession: those of the start, and those of its
    submissions. *)
Definition hash_of (id h : string) (w : AnchorDB) : Prop :=
  (exists c, ak_confs w0 !! id = Some c /\ cf_hash c = Some h) \/ exists tx, came id h tx w.
Definition tx_of (id tx : string) (w : AnchorDB) : Prop :=
  (exists k a, ak_anchors w0 !! k = Some a /\ sa_confessionId a = id /\ sa_txHash a = Some tx) \/ exists h, came id h tx w.
(** The network said that one of its transactions succeeded, and the contract that it holds
    one of its hashes. *)
Definition confirmed (id : string) (w : AnchorDB) : Prop :=
  exists tx h t, tx_of id tx w /\ VerifiedTx tx true ∈ ak_calls w /\ hash_of id h w /\ VerifiedHash h (Some t) ∈ ak_calls w.
Definition was_anchored (id : string) : Prop := exists c, ak_confs w0 !! id = Some c /\ cf_isAnchored c = true.

Definition conf_ok (id : string) (c : Confession) (w : AnchorDB) : Prop :=
  (forall m, decryptConfession (cf_message c) aesKey = Ok m -> text_of id m)
  /\ (forall h, cf_hash c = Some h -> hash_of id h w) /\ (cf_isAnchored c = true -> was_anchored id \/ confirmed id w).
Definition anchor_ok (a : StellarAnchor) (w : AnchorDB) : Prop :=
  (forall tx, sa_txHash a = Some tx -> tx_of (sa_confessionId a) tx w)
  /\ exists r, ak_anchors w !! sa_id a = Some r /\ sa_confessionId r = sa_confessionId a.
Record anchor_inv (w : AnchorDB) : Prop := {
  ai_confs : forall id c, ak_confs w !! id = Some c -> conf_ok id c w;
  ai_ids : forall k a, ak_anchors w !! k = Some a -> sa_id a = k;
  ai_anchors : forall k a, ak_anchors w !! k = Some a -> anchor_ok a w;
}.
(** Answers are recorded, and an anchor stays one of its confession. *)
Definition grows (w w' : AnchorDB) : Prop :=
  (exists l, ak_calls w' = ak_calls w ++ l)
  /\ forall k a, ak_anchors w !! k = Some a -> exists a', ak_anchors w' !! k = Some a' /\ sa_confessionId a' = sa_confessionId a.
Abbreviation tame := (tame (E := string) anchor_inv grows).
Abbreviation lasting := (lasting grows).
Abbreviation rgs := (@rg AnchorDB string anchor_inv (fun _ => grows) _).
Abbreviation spec t F p := (@rg AnchorDB string anchor_inv (fun _ => grows) _ t F p (fun _ _ => True)).

Lemma grows_frame w w' : ak_anchors w' = ak_anchors w -> (exists l, ak_calls w' = ak_calls w ++ l) -> grows w w'.
Proof. intros Ha Hc. split; [done|]. intros k a. rewrite Ha. eauto. Qed.
Lemma grows_refl w : grows w w.
Proof. apply grows_frame; [done|]. exists []. by rewrite app_nil_r. Qed.
Lemma lasting_call (c : call) : lasting (fun w => c ∈ ak_calls w).
Proof. intros w w' H [[l ->] _]. apply elem_of_app. by left. Qed.
Lemma lasting_came id h tx : lasting (came id h tx).
Proof. intros w w' (m & t & Hm & Hh & Hc) HG. exists m, t. split; [done|]. split; [done|]. by eapply lasting_call. Qed.
Lemma lasting_hash_of id h : lasting (hash_of id h).
Proof. intros w w' [H|[tx H]] HG; [by left|right]. exists tx. by eapply lasting_came. Qed.
Lemma lasting_tx_of id tx : lasting (tx_of id tx).
Proof. intros w w' [H|[h H]] HG; [by left|right]. exists h. by eapply lasting_came. Qed.
Lemma lasting_confirmed id : lasting (confirmed id).
Proof.
  intros w w' (tx & h & t & H1 & H2 & H3 & H4) HG. exists tx, h, t.
  split; [by eapply lasting_tx_of|]. split; [by eapply lasting_call|]. split; [by eapply lasting_hash_of|by eapply lasting_call].
Qed.
Lemma lasting_conf_ok id c : lasting (conf_ok id c).
Proof.
  intros w w' (H1 & H2 & H3) HG. split; [done|]. split; [intros h Hh; by eapply lasting_hash_of; [apply H2|]|].
  intros Ha. destruct (H3 Ha) as [H|H]; [by left|right]. by eapply lasting_confirmed.
Qed.
Lemma lasting_anchor_ok a : lasting (anchor_ok a).
Proof.
  intros w w' (H1 & r & Hr & Hc) HG. split; [intros tx Ht; by eapply lasting_tx_of; [apply H1|]|].
  destruct HG as [_ HG]. destruct (HG _ _ Hr) as (r' & Hr' & Hc'). exists r'. split; [done|congruence].
Qed.
Lemma inv_frame w w' : ak_confs w' = ak_confs w -> ak_anchors w' = ak_anchors w -> grows w w' -> anchor_inv w -> anchor_inv w'.
Proof.
  intros Hc Ha HG [H1 H2 H3]. constructor; rewrite ?Hc, ?Ha; [|done|].
  - intros id c Hid. eapply lasting_conf_ok; [by apply H1|done].
  - intros k a Hk. eapply lasting_anchor_ok; [by eapply H3|done].
Qed.
Lemma keeps_frame (f : AnchorDB -> AnchorDB) :
  (forall w, ak_confs (f w) = ak_confs w /\ ak_anchors (f w) = ak_anchors w /\ exists l, ak_calls (f w) = ak_calls w ++ l) -> keeps anchor_inv grows f.
Proof. intros H w Hw. destruct (H w) as (Hc & Ha & Hl). assert (grows w (f w)) as HG by by apply grows_frame. split; [by eapply inv_frame|done]. Qed.
Lemma tame_frame (f : AnchorDB -> AnchorDB) :
  (forall w, ak_confs (f w) = ak_confs w /\ ak_anchors (f w) = ak_anchors w /\ ak_calls (f w) = ak_calls w) -> tame (writes f).
Proof. intros H. apply tame_writes, keeps_frame. intros w. destruct (H w) as (H1 & H2 & H3). split; [done|]. split; [done|]. exists []. by rewrite H3, app_nil_r. Qed.
Lemma tame_anchor_audit x n a : tame (audit x n a).
Proof. by apply tame_frame. Qed.
Lemma tame_reads_ {A} (f : AnchorDB -> A) : tame (reads f).
Proof. apply tame_reads, grows_refl. Qed.
Lemma spec_of_tame {A} (p : action A) F t : tame p -> spec t F p.
Proof. intros Hp. eapply rg_weaken; [|exact (Hp t)]. done. Qed.
Lemma spec_seq {A B} (p : action A) (q : A -> action B) F t : tame p -> lasting F -> (forall a, spec t F (q a)) -> spec t F (bind p q).
Proof. intros Hp HF Hq. by apply spec_then. Qed.
Lemma spec_done {A} (x : A) F t : spec t F (Ret x).
Proof. by intros w. Qed.

(** A save writes the anchor under its number. *)
Lemma spec_save_anchor {B} u a (q : action B) t F :
  lasting F -> (forall w, F w -> anchor_ok a w) -> spec t F q -> spec t F (do* save_anchor u a in q).
Proof.
  intros HF Ha Hq. apply spec_access with (F' := fun _ => F); [|done|done]. intros w Hw HFw. cbn [fst snd].
  destruct (Ha w HFw) as (Htx & r & Hr & Hc). rewrite Hr.
  set (x := if u then a <| sa_txHash := sa_txHash r |> else a).
  assert (sa_id x = sa_id a /\ sa_confessionId x = sa_confessionId a) as [Hxi Hxc] by (by destruct u).
  replace (if u then a <| sa_txHash := sa_txHash r |> else a) with x by done. rewrite Hxi.
  set (w' := w <| ak_anchors ::= <[sa_id a := x]> |>).
  assert (grows w w') as HG.
  { split; [exists []; by rewrite app_nil_r|]. intros k y Hy. cbn. destruct (decide (sa_id a = k)) as [<-|Hne].
    - exists x. rewrite lookup_insert_eq. split; [done|]. rewrite Hr in Hy. injection Hy as <-. congruence.
    - exists y. by rewrite lookup_insert_ne. }
  split; [|split; [exact HG|by eapply HF]]. constructor.
  - intros id c Hid. eapply lasting_conf_ok; [by apply (ai_confs _ Hw)|done].
  - intros k y. cbn. rewrite lookup_insert_Some. intros [[<- <-]|[_ Hy]]; [done|by eapply ai_ids].
  - intros k y. cbn. rewrite lookup_insert_Some. intros [[<- <-]|[_ Hy]]; [|eapply lasting_anchor_ok; [by eapply ai_anchors|done]].
    split; [|exists x; split; [rewrite Hxi; apply lookup_insert_eq|done]].
    intros tx Ht. apply (lasting_tx_of _ _ w); [|done]. rewrite Hxc. destruct u; [|by apply Htx].
    rewrite <- Hc. by apply (ai_anchors _ Hw _ _ Hr).
Qed.
Lemma spec_save_confession {B} id c (q : action B) t F :
  lasting F -> (forall w, F w -> conf_ok id c w) -> spec t F q -> spec t F (do* save_confession id c in q).
Proof.
  intros HF Hc Hq. apply spec_access with (F' := fun _ => F); [|done|done]. intros w Hw HFw. cbn [fst snd].
  set (w' := w <| ak_confs ::= <[id := c]> |>). assert (grows w w') as HG by (apply grows_frame; [done|exists []; by rewrite app_nil_r]).
  split; [|split; [exact HG|by eapply HF]]. constructor; [|apply (ai_ids _ Hw)|].
  - intros i x. cbn. rewrite lookup_insert_Some. intros [[<- <-]|[_ Hx]]; (eapply lasting_conf_ok; [|exact HG]); [by apply Hc|by apply (ai_confs _ Hw)].
  - intros k a Hk. eapply lasting_anchor_ok; [by eapply (ai_anchors _ Hw)|done].
Qed.
Lemma spec_after_error u a e t : spec t (anchor_ok a) (after_error u a e).
Proof.
  unfold after_error. apply spec_seq; [apply tame_anchor_audit|apply lasting_anchor_ok|intros _]. destruct (_ <=? _)%nat.
  - apply spec_seq; [apply tame_anchor_audit|apply lasting_anchor_ok|intros _]. by apply spec_save_anchor; [apply lasting_anchor_ok| |apply spec_done].
  - apply spec_seq; [apply tame_reads_|apply lasting_anchor_ok|intros now]. destruct (_ <? _).
    + apply spec_save_anchor; [apply lasting_anchor_ok|done|]. apply spec_of_tame, tame_bind; [apply tame_anchor_audit|intros _; apply tame_ret].
    + by apply spec_save_anchor; [apply lasting_anchor_ok| |apply spec_done].
Qed.

(** What a submission answers is of a text the confession has had. *)
Lemma spec_submission c id F t : lasting F -> (forall w, F w -> conf_ok id c w) ->
  rgs t F (submission c) (fun o w => F w /\ match o with Ok (Ok (h, tx)) => came id h tx w | _ => True end).
Proof.
  intros HF Hc. unfold submission. apply rg_try_catch with (Q := fun _ => F); [|by intros e w].
  destruct (decryptConfession (cf_message c) aesKey) as [m|e] eqn:Hm; [|by intros w]. cbn [bind].
  apply rg_reads; [apply grows_refl|intros t' v v' _ _ Hv; by apply HF|]. intros w1 _ Hw1.
  destruct (truthy_opt serverSecret); [|by intros w]. cbn [bind guard].
  set (h := hashConfession m (ak_clock w1)). assert (text_of id m) as Ht by by apply (Hc w1 Hw1).
  assert (exists ts, h = hashConfession m ts) as [ts Hh] by (by eexists). clearbody h.
  unfold anchorConfession. apply rg_bind with (Q := fun tx w => F w /\ came id h tx w); [|by intros tx w].
  intros w Hw HFw. set (s := match ak_submits w with s :: _ => s | [] => _ end). cbn [attempts fst snd].
  set (answer := match sb_answer s with Ok tx => Ok tx | Exn e => _ end).
  set (w' := if sb_lands s then _ else _).
  assert (ak_confs w' = ak_confs w /\ ak_anchors w' = ak_anchors w /\ ak_calls w' = ak_calls w ++ [Submitted h answer]) as (H1 & H2 & H3)
    by (unfold w'; by destruct (sb_lands s)).
  assert (grows w w') as HG by (apply grows_frame; [done|by eexists]).
  split; [by apply (inv_frame w)|split; [exact HG|]].
  exists (fun v => F v /\ match answer with Ok tx => came id h tx v | Exn _ => True end). split; [|split].
  - split; [by eapply HF|]. destruct answer as [tx|e]; [|done]. exists m, ts. split; [done|]. split; [done|]. rewrite H3. apply elem_of_app. right. by apply list_elem_of_singleton.
  - intros t' v v' _ _ [Hv Hv'] HGv. split; [by eapply HF|]. destruct answer; [by eapply lasting_came|done].
  - destruct answer as [tx|e]; [by intros v|by intros v _ [Hv _]].
Qed.
Lemma spec_resubmit u a c t : spec t (fun w => conf_ok (sa_confessionId a) c w /\ anchor_ok a w) (resubmit u a c).
Proof.
  set (F := fun w => _ /\ _). assert (lasting F) as HF by (apply lasting_and; [apply lasting_conf_ok|apply lasting_anchor_ok]).
  unfold resubmit. apply rg_bind with (Q := fun o w => F w /\ match o with Ok (h, tx) => came (sa_confessionId a) h tx w | Exn _ => True end).
  { eapply rg_post; [|apply (spec_submission c (sa_confessionId a)); [exact HF|by intros w []]]. by intros [[[h tx]|e]|e] w. }
  intros [[h tx]|e]; [|eapply rg_weaken; [|apply spec_after_error]; by intros w _ [[_ H] _]].
  set (F' := fun w => _ /\ _). assert (lasting F') as HF' by (apply lasting_and; [exact HF|apply lasting_came]).
  apply spec_seq; [apply tame_reads_|exact HF'|intros now].
  apply spec_save_anchor; [exact HF'| |].
  { intros w [[_ [_ Ha]] Hcame]. split; [|exact Ha]. cbn. intros tx' [= <-]. right. by exists h. }
  apply spec_save_confession; [exact HF'| |apply spec_of_tame, tame_bind; [apply tame_anchor_audit|intros _; apply tame_ret]].
  intros w [[(H1 & _ & H3) _] Hcame]. split; [exact H1|]. split; [|exact H3]. cbn. intros h' [= <-]. right. by exists tx.
Qed.
Lemma spec_verify_tx {B} tx (q : bool -> action B) F t :
  lasting F -> (forall b, spec t (fun w => F w /\ (b = true -> VerifiedTx tx true ∈ ak_calls w)) (q b)) -> spec t F (let* b := verify_tx tx in q b).
Proof.
  intros HF Hq. apply spec_access with (F' := fun b w => F w /\ (b = true -> VerifiedTx tx true ∈ ak_calls w)); [| |exact Hq].
  - intros w Hw HFw. cbn [fst snd]. set (b := (verifyTransaction _ _ _ _ _).1).
    assert (grows w (w <| ak_calls ::= fun l => l ++ [VerifiedTx tx b] |>)) as HG by (apply grows_frame; [done|by eexists]).
    split; [by apply (inv_frame w)|]. split; [exact HG|]. split; [by eapply HF|]. intros ->. apply elem_of_app. right. by apply list_elem_of_singleton.
  - intros b w w' [H1 H2] HG. split; [by eapply HF|]. intros Hb. by eapply lasting_call; [apply H2|].
Qed.
Lemma spec_verify_hash {B} h (q : bool -> action B) F t :
  lasting F -> (forall b, spec t (fun w => F w /\ (b = true -> exists x, VerifiedHash h (Some x) ∈ ak_calls w)) (q b)) ->
  spec t F (let* b := verify_hash h in q b).
Proof.
  intros HF Hq. apply spec_access with (F' := fun b w => F w /\ (b = true -> exists x, VerifiedHash h (Some x) ∈ ak_calls w)); [| |exact Hq].
  - intros w Hw HFw. cbn [fst snd]. set (o := (verifyConfession _ _ _ _).1).
    assert (grows w (w <| ak_calls ::= fun l => l ++ [VerifiedHash h o] |>)) as HG by (apply grows_frame; [done|by eexists]).
    split; [by apply (inv_frame w)|]. split; [exact HG|]. split; [by eapply HF|]. intros [x Hx]%bool_decide_eq_true. exists x. apply elem_of_app. right.
    rewrite Hx. by apply list_elem_of_singleton.
  - intros b w w' [H1 H2] HG. split; [by eapply HF|]. intros Hb. destruct (H2 Hb) as [x Hx]. exists x. by eapply lasting_call.
Qed.
Lemma spec_reverify a c tx t :
  sa_txHash a = Some tx -> spec t (fun w => conf_ok (sa_confessionId a) c w /\ anchor_ok a w) (reverify a c tx).
Proof.
  intros Htx. set (F := fun w => _ /\ _). assert (lasting F) as HF by (apply lasting_and; [apply lasting_conf_ok|apply lasting_anchor_ok]).
  unfold reverify. apply spec_verify_tx; [exact HF|]. intros [].
  - set (F1 := fun w => F w /\ _). assert (lasting F1) as HF1 by (apply lasting_and; [exact HF|intros w w' H HG Hb; by eapply lasting_call; [apply H|]]).
    destruct (bool_decide (sa_status a = OBSERVED)).
    + destruct (cf_hash c) as [h|] eqn:Hh; cbn [truthy_opt default bind].
      2: by apply spec_save_anchor; [exact HF1|intros w [[_ H] _]; exact H|apply spec_done].
      destruct (truthy h); cbn [bind].
      2: by apply spec_save_anchor; [exact HF1|intros w [[_ H] _]; exact H|apply spec_done].
      apply spec_verify_hash; [exact HF1|]. intros b. set (F2 := fun w => F1 w /\ _).
      assert (lasting F2) as HF2 by (apply lasting_and; [exact HF1|intros w w' H HG Hb; destruct (H Hb) as [x Hx]; exists x; by eapply lasting_call]).
      destruct b; [|by apply spec_save_anchor; [exact HF2|intros w [[[_ H] _] _]; exact H|apply spec_done]].
      apply spec_save_anchor; [exact HF2|intros w [[[_ H] _] _]; exact H|]. apply spec_seq; [apply tame_reads_|exact HF2|intros now].
      apply spec_save_confession; [exact HF2| |apply spec_done].
      intros w [[[(H1 & H2 & _) [Ha _]] Hv] Hc]. split; [exact H1|]. split; [exact H2|]. intros _. right. destruct (Hc eq_refl) as [x Hx].
      exists tx, h, x. split; [by apply Ha|]. split; [by apply Hv|]. split; [by apply H2|done].
    + apply spec_seq; [apply tame_reads_|exact HF1|intros now]. by apply spec_save_anchor; [exact HF1|intros w [[_ H] _]; exact H|apply spec_done].
  - eapply rg_weaken; [intros w _ [H _]; exact H|]. destruct (bool_decide (sa_status a = OBSERVED)); [|apply spec_resubmit].
    set (a' := _ <| sa_observedAt := None |>).
    assert (forall w, F w -> conf_ok (sa_confessionId a') c w /\ anchor_ok a' w) as Hw by (intros w [Hc [_ Hr]]; split; [exact Hc|by split]).
    apply spec_save_anchor; [exact HF|by intros w [_ H]%Hw|]. eapply rg_weaken; [|apply spec_resubmit]. intros w _. apply Hw.
Qed.
Lemma spec_retryAnchor a t : spec t (anchor_ok a) (retryAnchor a).
Proof.
  unfold retryAnchor. apply spec_seq; [apply tame_reads_|apply lasting_anchor_ok|intros now]. destruct (_ && _); [apply spec_done|].
  set (a' := a <| sa_retryCount := _ |> <| sa_lastRetryAt := _ |>).
  apply spec_reads_then with (F' := fun o w => anchor_ok a' w /\ match o with Some c => conf_ok (sa_confessionId a') c w | None => True end); [apply grows_refl| | |].
  - intros w Hw Ha. split; [exact Ha|]. destruct (ak_confs w !! sa_confessionId a') as [c|] eqn:Hc; [|done]. by apply (ai_confs _ Hw).
  - intros o. apply lasting_and; [apply lasting_anchor_ok|]. destruct o; [apply lasting_conf_ok|apply lasting_True].
  - intros [c|]; [destruct (sa_txHash a') as [tx|] eqn:Htx; cbn [truthy_opt default]; [destruct (truthy tx)|]|].
    1: eapply rg_weaken; [|by apply spec_reverify]; by intros w _ [??].
    1, 2: eapply rg_weaken; [|apply spec_resubmit]; by intros w _ [??].
    apply spec_seq; [apply tame_anchor_audit|apply lasting_and; [apply lasting_anchor_ok|apply lasting_True]|intros _].
    by apply spec_save_anchor; [apply lasting_and; [apply lasting_anchor_ok|apply lasting_True]|intros w [H _]; exact H|apply spec_done].
Qed.
(** The rows a run selects are rows of the table. *)
Lemma selected_ok n f (P : StellarAnchor -> bool) w :
  anchor_inv w -> Forall (fun a => anchor_ok a w) (firstn n (insertion_sort f (List.filter P (map snd (map_to_list (ak_anchors w)))))).
Proof.
  intros Hw. apply Forall_take. rewrite insertion_sort_perm. apply Forall_forall. intros a Ha%list_elem_of_In%filter_In.
  destruct Ha as [([k y] & <- & Hy)%in_map_iff _]. apply list_elem_of_In, elem_of_map_to_list in Hy. by eapply (ai_anchors _ Hw).
Qed.
Lemma tame_reconcile : tame reconcilePendingAnchors.
Proof.
  intros t. unfold reconcilePendingAnchors.
  apply spec_reads_then with (F' := fun l w => Forall (fun a => anchor_ok a w) l); [apply grows_refl|intros w Hw _; by apply selected_ok| |].
  { intros l w w' H HG. eapply Forall_impl; [exact H|]. intros a Ha. exact (lasting_anchor_ok a w w' Ha HG). }
  intros l. apply rg_bind with (Q := fun _ _ => True).
  - apply rg_fold_each with (P := fun w => Forall (fun a => anchor_ok a w) l) ; [|done]. intros a n Ha.
    apply rg_bind with (Q := fun _ w => Forall (fun a => anchor_ok a w) l); [|by intros r w].
    eapply rg_weaken; [|eapply rg_post; [|apply (rg_carry _ _ t (fun w => Forall (fun a => anchor_ok a w) l)); [|exact (spec_retryAnchor a t)]]].
    + intros w _ HF. split; [|exact HF]. by eapply Forall_forall in HF.
    + intros [r|e] w [_ H]; [exact H|exact I].
    + intros _ w w' H HG. eapply Forall_impl; [exact H|]. intros x Hx. exact (lasting_anchor_ok x w w' Hx HG).
  - intros n. destruct (_ <? _)%nat; [|apply tame_ret]. by apply tame_frame.
Qed.

(** Two workers, owners who change and delete confessions, and a network that changes. *)
Inductive AnchorActor := AReconcile | AEdit (id message : string) (isDeleted : bool)
| ANetwork (clock : ms) (horizon : string -> nat -> outcome remote_error (bool * bool)) (contract : string -> nat -> outcome remote_error Z) (submits : list Submission).
Definition serve_anchor (r : AnchorActor) : action unit :=
  match r with
  | AReconcile => reconcilePendingAnchors
  | AEdit id m d => writes (fun w => match ak_confs w !! id with Some c => w <| ak_confs ::= <[id := c <| cf_message := m |> <| cf_isDeleted := d |>]> |> | None => w end)
  | ANetwork c h k s => writes (fun w => w <| ak_clock := c |> <| ak_horizon := h |> <| ak_contract := k |> <| ak_submits := s |>)
  end.
Lemma tame_serve_anchor r : (forall id m d, r = AEdit id m d -> edits id m) -> tame (serve_anchor r).
Proof.
  intros Hr. destruct r as [|id m d|c h k s]; cbn [serve_anchor]; [apply tame_reconcile| |by apply tame_frame].
  apply tame_writes. intros w Hw. destruct (ak_confs w !! id) as [c|] eqn:Hc; [|split; [done|apply grows_refl]].
  set (w' := w <| ak_confs ::= _ |>). assert (grows w w') as HG by (apply grows_frame; [done|exists []; by rewrite app_nil_r]). split; [|exact HG].
  constructor; [|apply (ai_ids _ Hw)|intros i a Ha; eapply lasting_anchor_ok; [by eapply (ai_anchors _ Hw)|exact HG]].
  intros i x. cbn. rewrite lookup_insert_Some. intros [[<- <-]|[_ Hx]]; (eapply lasting_conf_ok; [|exact HG]); [|by apply (ai_confs _ Hw)].
  destruct (ai_confs _ Hw _ _ Hc) as (_ & H2 & H3). split; [|by split]. cbn. intros x Hx. right. exists m. split; [by eapply Hr|exact Hx].
Qed.
(** The tables of the start: every row is its own, and so are its texts and hashes. *)
Lemma anchor_inv_start : (forall k a, ak_anchors w0 !! k = Some a -> sa_id a = k) -> anchor_inv w0.
Proof.
  intros Hid. constructor; [|exact Hid|].
  - intros id c Hc. split; [intros m Hm; left; by exists c|]. split; [intros h Hh; left; by exists c|]. intros Ha. left. by exists c.
  - intros k a Ha. split; [intros tx Htx; left; by exists k, a|]. exists a. by rewrite (Hid _ _ Ha).
Qed.
End confirmed.

Definition edited (reqs : gmap positive AnchorActor) (id message : string) : Prop := exists t d, reqs !! t = Some (AEdit id message d).
(** C27. However workers interleave with one another, with owners who edit and delete
    confessions and with a network that changes, a confession that becomes anchored does so
    after the network has said that a transaction of its own succeeded, and the contract
    that it holds a hash of its own: a transaction and a hash of the start of that
    confession and its anchors, or the answer to a submission of the hash of a text the
    confession has had.  The route that anchors on request is not among these requests. *)
Theorem anchored_confirmed w0 (reqs : gmap positive AnchorActor) w ps id c :
  (forall k a, ak_anchors w0 !! k = Some a -> sa_id a = k) -> pool_reach (w0, serve_anchor <$> reqs) (w, ps) ->
  ak_confs w !! id = Some c -> cf_isAnchored c = true -> was_anchored w0 id \/ confirmed w0 (edited reqs) id w.
Proof.
  intros Hid Hr Hc Ha. apply (anchor_inv_start w0 (edited reqs)) in Hid.
  destruct (tame_pool (anchor_inv w0 (edited reqs)) grows (fun _ _ _ => True) w0 (serve_anchor <$> reqs) w ps Hid) as [HI _]; [|exact Hr|by apply (ai_confs _ _ _ HI id c Hc)].
  intros t p. rewrite lookup_fmap_Some. intros (r & <- & Hreq). apply tame_serve_anchor. intros i m d ->. by exists t, d.
Qed.
End worker.

(** ** Concrete anchors *)

#[local] Existing Instance plain_cbc.
Definition ex_key : string := "01234567890123456789012345678901".
Definition ex_text (t : string) : string := match encryptConfession "abcdefghijklmnop" t ex_key with Ok x => x | Exn _ => "" end.
Definition ex_sha (s : string) : string := "h" +:+ s.
Definition ex_tx (c : Ascii.ascii) : string := String.string_of_list_ascii (replicate 64 c).
Definition ex_anchor (id : string) (s : AnchorStatus) (tx : option string) (created : ms) : string * StellarAnchor := (id, {|
  sa_id := id; sa_confessionId := "c" +:+ id; sa_status := s; sa_retryCount := 0; sa_lastRetryAt := None; sa_txHash := tx; sa_observedAt := None; sa_lastError := None; sa_createdAt := created |}).
Definition ex_conf (id t : string) (tx h : option string) : string * Confession := ("c" +:+ id, {|
  cf_message := ex_text t; cf_isDeleted := false; cf_txHash := tx; cf_hash := h; cf_isAnchored := false; cf_anchoredAt := None |}).
Definition minute : ms := 60000.
Definition ex_anchors : AnchorDB := {|
  ak_clock := 100 * minute;
  ak_anchors := list_to_map [ex_anchor "1" OBSERVED (Some (ex_tx "a"%char)) (10 * minute); ex_anchor "2" PENDING None (20 * minute)];
  ak_confs := list_to_map [ex_conf "1" "one" (Some (ex_tx "a"%char)) (Some "h1"); ex_conf "2" "two" None None];
  ak_horizon := fun tx _ => if String.eqb tx (ex_tx "a"%char) then Ok (true, true) else Ok (false, false); ak_contract := fun h _ => if String.eqb h "h1" then Ok 77 else Ok 0;
  ak_submits := [{| sb_lands := true; sb_answer := Ok (ex_tx "b"%char) |}]; ak_chain := ["h1"]; ak_calls := []; ak_audit := []; ak_events := [] |}.
Definition ex_content (e : content_error) : string := "decryption failed".
Definition ex_serve : AnchorActor -> action unit := serve_anchor ex_key (Some "S") ex_sha ex_content 3 1000 10000 5 50 5 2.
Definition ex_batch (n : nat) : AnchorActor -> action unit := serve_anchor ex_key (Some "S") ex_sha ex_content 3 1000 10000 5 n 5 2.
Definition steps (t : positive) (n : nat) : list positive := replicate n t.
Definition states (w : AnchorDB) : list (string * AnchorStatus) := map (fun p => (p.1, sa_status p.2)) (map_to_list (ak_anchors w)).
Definition status_of (id : string) (w : AnchorDB) : option AnchorStatus := match ak_anchors w !! id with Some a => Some (sa_status a) | None => None end.

Definition ex_reqs : gmap positive AnchorActor := list_to_map [(1%positive, AReconcile); (2%positive, AReconcile); (3%positive, AEdit "c2" (ex_text "changed") false)].
Definition ex_run := run_schedule (steps 1 3 ++ steps 2 40 ++ steps 3 1 ++ steps 1 40) (ex_anchors, ex_serve <$> ex_reqs).
Lemma anchored_confirmed_witness :
  (exists c, ak_confs ex_run.1 !! "c1" = Some c /\ cf_isAnchored c = true)
  /\ (was_anchored ex_anchors "c1" \/ confirmed ex_key ex_sha ex_anchors (edited ex_reqs) "c1" ex_run.1).
Proof.
  assert (exists c, ak_confs ex_run.1 !! "c1" = Some c /\ cf_isAnchored c = true) as (c & Hc & Ha) by (eexists; split; vm_compute; reflexivity).
  split; [exact (ex_intro _ c (conj Hc Ha))|].
  apply (anchored_confirmed ex_key (Some "S") ex_sha ex_content 3 1000 10000 5 50 5 2 ex_anchors ex_reqs ex_run.1 ex_run.2 "c1" c); [| |exact Hc|exact Ha].
  { intros k a Hk. apply elem_of_list_to_map_2 in Hk. apply list_elem_of_In in Hk. cbn [In] in Hk. destruct Hk as [[= <- <-]|[[= <- <-]|[]]]; reflexivity. }
  rewrite <- surjective_pairing. apply run_schedule_reach.
Defined.
Definition ex_one (id : string) : StellarAnchor := default (ex_anchor "" PENDING None 0).2 (ak_anchors ex_anchors !! id).
Lemma anchor_transitions_witness :
  exists r w' a', run (retryAnchor ex_key (Some "S") ex_sha ex_content 3 1000 10000 5 2 (ex_one "1")) ex_anchors = (Ok r, w') /\ ak_anchors w' = <["1" := a']> (ak_anchors ex_anchors)
    /\ allowed OBSERVED r (sa_status a') /\ (r = skipped -> w' = ex_anchors) /\ (r = failed -> sa_status a' = PENDING -> (sa_retryCount a' < 5)%nat).
Proof. apply (anchor_transitions ex_key (Some "S") ex_sha ex_content 3 1000 10000 5 2 (ex_one "1") ex_anchors); [vm_compute; reflexivity|right; reflexivity]. Defined.

(** A call that is only built and not sent cannot be read as a time: no answer of the
    contract is ever one, and an observed anchor fails at every run, without limit. *)
Definition ex_unsent : AnchorDB := ex_anchors <| ak_contract := fun _ _ => Exn (plain "Cannot read properties of undefined (reading 'value')") |>.
Theorem observed_forever :
  let w := Nat.iter 20 (fun w => (run (ex_batch 1 AReconcile) w).2) ex_unsent in
  match ak_anchors w !! "1" with Some a => sa_status a = OBSERVED /\ sa_retryCount a = 20%nat /\ sa_lastError a = Some mismatch | None => False end.
Proof. by vm_compute. Qed.
(** With a batch of one such an anchor, the oldest, is all that every run sees: the pending
    one behind it is never submitted. *)
Theorem stuck_anchor_starves :
  let w := Nat.iter 20 (fun w => (run (ex_batch 1 AReconcile) w).2) ex_unsent in
  match ak_anchors w !! "2" with Some a => sa_status a = PENDING /\ sa_retryCount a = 0%nat | None => False end /\ ak_events w = replicate 20 (0, 1, 0)%nat.
Proof. by vm_compute. Qed.
(** An outage of the network is read as a transaction that disappeared: the confession is
    anchored a second time under another hash. *)
Theorem outage_anchors_again :
  let w := (run (ex_serve AReconcile) (ex_anchors <| ak_horizon := fun _ _ => Exn (plain "fetch failed") |>)).2 in
  length (ak_chain w) = 2%nat /\ match ak_confs w !! "c1" with Some c => cf_txHash c = Some (ex_tx "b"%char) | None => False end.
Proof. by vm_compute. Qed.
(** A submission that reaches the chain but whose answer is lost is made again with a new
    time, under another hash. *)
Definition ex_lost : AnchorDB := ex_anchors <| ak_anchors ::= delete "1" |>
  <| ak_submits := [{| sb_lands := true; sb_answer := Exn (plain "Contract invocation timeout after 15000ms") |}; {| sb_lands := true; sb_answer := Ok (ex_tx "b"%char) |}] |>.
Theorem lost_answer_anchors_again :
  let w := (run (ex_serve AReconcile) ((run (ex_serve AReconcile) ex_lost).2 <| ak_clock := 110 * minute |>)).2 in
  match ak_chain w with [_; x; y] => x <> y | _ => False end /\ status_of "2" w = Some OBSERVED.
Proof. vm_compute. split; [discriminate|reflexivity]. Qed.
(** Two workers that run at once both submit a pending anchor. *)
Theorem anchored_twice :
  let w := (run_schedule (steps 1 1 ++ steps 2 40 ++ steps 1 40)
             (ex_anchors <| ak_anchors ::= delete "1" |> <| ak_submits := [{| sb_lands := true; sb_answer := Ok (ex_tx "b"%char) |}; {| sb_lands := true; sb_answer := Ok (ex_tx "c"%char) |}] |>,
              ex_serve <$> (list_to_map [(1%positive, AReconcile); (2%positive, AReconcile)] : gmap positive AnchorActor))).1 in
  length (ak_chain w) = 3%nat.
Proof. by vm_compute. Qed.
(** The confession is saved as it was read: a deletion and an edit that overlap a
    submission are undone. *)
Theorem deletion_undone :
  let w := (run_schedule (steps 1 4 ++ steps 2 1 ++ steps 1 40)
             (ex_anchors <| ak_anchors ::= delete "1" |>, ex_serve <$> (list_to_map [(1%positive, AReconcile); (2%positive, AEdit "c2" (ex_text "gone") true)] : gmap positive AnchorActor))).1 in
  match ak_confs w !! "c2" with Some c => cf_isDeleted c = false /\ cf_message c = ex_text "two" /\ cf_txHash c = Some (ex_tx "b"%char) | None => False end.
Proof. by vm_compute. Qed.
(** After a reorganisation whose second submission fails, the row keeps the transaction
    that disappeared: undefined is not written. *)
Theorem disappeared_tx_stays :
  let w := (run (ex_serve AReconcile) (ex_anchors <| ak_horizon := fun _ _ => Ok (false, false) |> <| ak_submits := [] |>)).2 in
  match ak_anchors w !! "1" with Some a => sa_status a = PENDING /\ sa_txHash a = Some (ex_tx "a"%char) | None => False end.
Proof. by vm_compute. Qed.
